(* ===== verification/_CoqProject ===== *)
-Q . S2P
Prelude.v
Text.v
KeyedList.v
ChainParam.v
ForkData.v
VMConfig.v
Words.v
Memory.v
Analysis.v
AnalysisTheorems.v
BitArray.v
StakingTypes.v
Transaction.v
Block.v
QuorumTheorems.v
Votes.v
VoteTheorems.v
TransactionTheorems.v
Ledger.v
StackedMap.v
AuctionTypes.v
Stats.v
State.v
Prototype.v
ScriptEnv.v
StakingUtils.v
StakingBooks.v
StakingHandlers.v
AccountLock.v
MeterTracker.v
TrackerStaking.v
EVM.v
Instructions.v
GasFuncs.v
JumpTable.v
Interpreter.v
Evolution.v
Totality.v
InstructionTheorems.v
WordTheorems.v
Progress.v
InterpreterTheorems.v
StakingGovern.v
Auction.v
ScriptEngine.v
ScriptGas.v
Runtime.v
Packer.v
Validate.v
Chain.v
Committee.v
Drafts.v
Pacemaker.v
Samples.v
SupplyTheorems.v
EVMTheorems.v
EmissionTheorems.v
AuctionTheorems.v
RuntimeTheorems.v
MachineTheorems.v
BlockTheorems.v
ChainTheorems.v
CommitteeTheorems.v
PacemakerTheorems.v
ForkRun.v
CorrectionTheorems.v
StakingInv.v
SampleRuns.v
DelegateTheorems.v
GovernInv.v
GovernTheorems.v
StakingFunds.v
StakingOwners.v
StakingTheorems.v
TrackerTheorems.v
