(* ===== verification/Prelude.v ===== *)
(** * Meter POV: a verification library of the node

    The program is the Meter proof-of-value node (Go).  A transaction is
    resolved, buys its gas and runs its clauses one after the other
    ([runtime/]).  A clause is either a call of the virtual machine ([vm/],
    on the state of [runtime/statedb/]) or a native script: [script/] decodes
    its data and calls the staking, auction or account-lock module, whose
    handlers read lists from the state, move MTR (energy) and MTRG (balance)
    between accounts, and write the lists back.  A proposer packs
    transactions into a block ([packer/]), the other nodes validate it
    ([consensus/reactor_validate.go]) and certify it with their signatures
    ([block/]).  The members of the committee agree on the blocks: the
    pacemaker ([consensus/]) exchanges proposals, votes and timeouts, collects
    certificates and commits blocks to the chain ([chain/]).  This library
    models the path from the messages of the committee to the accounts and
    proves what keeps it correct, and where it does not stay correct.

    ** How the code is represented

    A Go integer is a [Z]; where a conversion or an operation can wrap, the
    wrap is written out ([u8], [u16], [u32], [u64], [i64]).  A [*big.Int] is a
    [Z].  A function that can panic returns an [outcome].  A Go [error] is an
    [option string].  A struct is a record, updated with [r <| f := v |>].
    Addresses and 32-byte values are the numbers they encode, byte slices are
    strings.  A write through a pointer held in a slice is [Modify].  Drafts of
    blocks, which the pacemaker shares and compares by pointer, are cells of a
    heap.  A channel that is emptied before it is written is an optional value,
    and what a node sends is appended to a list.

    ** Files

    - [Text]: the functions on strings the staking module uses (splitting,
      base64, the address pattern of [handler_candidate.go]).
    - [KeyedList]: the sorted slices with binary search that [meter/] repeats
      for buckets, candidates, stakeholders, jail, statistics, profiles and
      bids; proved to be a finite map.
    - [ChainParam]: [meter/chain_param.go], [staking_params.go], [params.go].
    - [StakingTypes], [Ledger]: the staking data of [meter/], and the
      interface between the candidates or stakeholders and the buckets they
      list.
    - [StackedMap]: [stackedmap/stackedmap.go].
    - [AuctionTypes], [Stats]: the auction and statistics data of [meter/].
    - [State]: [state/state.go], [state/script_state.go], [state/account.go];
      [Prototype]: [builtin/prototype/].
    - [Transaction]: [tx/], with [TransactionTheorems] on its gas and kinds.
    - [EVM]: [runtime/statedb/statedb.go] and the calls of [vm/evm.go].
    - [VMConfig], [Words], [Memory], [Analysis], [Instructions], [GasFuncs],
      [JumpTable], [Interpreter]: the rest of [vm/], one definition per
      instruction, price and table, the precompiled contracts of
      [vm/contracts.go], and the run loop; a machine of one level runs the
      code that the machine above it calls.
    - [AnalysisTheorems], [WordTheorems]: jump destinations, arithmetic, and
      the items of the stack.  [Evolution], [InstructionTheorems]: what a run
      does to the journal, the state and the gas.  [Totality], [Progress],
      [InterpreterTheorems]: that no run panics or goes on for ever.
      [MachineTheorems]: the machine under the closures of the runtime.
    - [ScriptEngine]: [script/], with [ForkData] for the tables of the forks;
      [ScriptGas]: a script clause returns no more gas than it was given.
    - [Runtime]: [runtime/runtime.go], [runtime/resolved_tx.go].
    - [BitArray]: [libs/common/bit_array.go].  [Block]: headers, gas limits and
      certificates of [block/]; [QuorumTheorems]: what a certificate shows.
    - [Votes]: [consensus/qc_vote_manager.go], [tc_vote_manager.go] and the
      check of timeout certificates; [VoteTheorems]: a proposal gets one valid
      certificate, unless a vote is not signed by its member.
    - [Packer]: [packer/].  [Validate]: [consensus/reactor_validate.go];
      [BlockTheorems]: a packed block is valid.
    - [Chain]: [chain/chain.go] over the records of [chain/persist.go];
      [ChainTheorems]: forks, the growth of the trunk, and a block beside it.
    - [Committee]: delegates, committees, epochs and the relay of
      [consensus/reactor.go], [reactor_relay.go], [reactor_assist.go];
      [CommitteeTheorems]: the relay reaches every member.
    - [Drafts]: the messages of [block/messages.go], the drafts of [block/] and
      [chain/proposal_map.go].  [Pacemaker]: [consensus/pacemaker.go] with
      [pacemaker_assist.go], [pacemaker_commit.go] and [pacemaker_send.go], one
      definition per handler, and the main loop.  [PacemakerTheorems]: what a
      member keeps by itself, and how a forged certificate stops it.
      [ForkRun]: pacemakers that exchange messages, and a run in which two of
      them commit different blocks.
    - [ScriptEnv]: [script/types/].
    - [StakingUtils], [StakingHandlers], [StakingGovern]: [script/staking/],
      one definition per handler, and the dispatcher [Handle].
    - [AccountLock]: [script/accountlock/].  [MeterTracker]:
      [builtin/metertracker/meter_tracker.go] and the mints of
      [runtime/statedb/statedb.go].  [TrackerStaking]: the staking operations
      of [builtin/metertracker/] that contracts call natively.  [Auction]:
      [script/auction/].
    - [StakingBooks], [StakingInv], [StakingFunds], [StakingOwners],
      [StakingTheorems]: the invariant of the staking books and its
      preservation, conservation of funds, errors without effects, ownership.
    - [DelegateTheorems], [EmissionTheorems], [GovernInv], [GovernTheorems]:
      the governing call of an epoch.
    - [SupplyTheorems]: the tracked supplies and the account lock.
      [TrackerTheorems]: the books under clauses and native operations.
    - [AuctionTheorems]: bids, the clearing and the escrow of the auction.
    - [EVMTheorems], [RuntimeTheorems], [CorrectionTheorems]: transfers of the
      machine, receipts and reverted transactions, and the corrections of the
      forks.
    - [Samples], [SampleRuns]: concrete states for the examples.

    ** What is a parameter

    Hashing ([Hashing]), RLP decoding of payloads ([StakingCodec],
    [ScriptCodec]), the emission curve ([Emission]), signatures and Ethereum
    transactions ([TxCrypto], [EthTypes]), the hashes and curves of the
    precompiled contracts ([Precompiles]), byte code, contract addresses and
    the methods of native contracts ([Deployment]), signatures and hashes of
    blocks ([BlockCrypto], [BlsSystem], [UniteHashes]), the stored chain as the
    runtime sees it and Merkle roots ([ChainView], [Roots]; [Drafts] has the
    instance of the chain), keys and digests of the committee ([NodeCrypto],
    [TimeoutHash]), the execution and the building of blocks and the
    proof-of-work pool as the pacemaker sees them ([PacemakerEnv]: [Validate] and
    [Packer] model the first two; the theorems on the pacemaker ask only that a
    built block carries the certificate it was built with and does not have the
    last number of 32 bits) and the
    process-wide chain configuration ([BlockChain]) are type classes; the epoch
    of the best block and the orders in which Go walks maps are arguments.  The theorems assume of them only what they state: of
    signatures, that a signer is recovered and that an aggregate verifies only
    for those who signed.  The runtime and the calls are written against the
    class [Machine]: the theorems on calls ask of it that a run keeps the journal
    below it ([Evolution]); [Context], [Tame] and [Lively] say the same of the
    closures of the runtime.  [Interpreter] is an instance of [Machine], and
    [MachineTheorems] discharges these for it, given that native methods write to
    the state and the journal only and that constant ones only read
    ([native_tame]).  A native method gives back gas, so that what is said of gas
    and of termination is for machines in which no contract has native methods
    ([no_native]), and the theorems on receipts and packed blocks ask for their
    bounds that the transactions at hand do not come back with more gas than they
    had.

    ** Bounds and fuel

    The loop of the binary search runs on the length of the slice, the loop
    over matured buckets on one step per bucket plus one; both are proved to
    be enough.  The run loop of the interpreter has one round for every pair of
    a unit of gas and a position of the code, since a jump costs gas and the
    position otherwise grows; nested calls have 1026 levels, since no code runs
    at a depth above 1024.  Both are proved to be enough, for gas below
    [2 ^ 61], where memory stays below [2 ^ 40] bytes, and without native
    methods, whose refunds the number of rounds does not foresee.  The walks over blocks
    run on their numbers, which go down, and the walk over the parents of a
    draft on the heap, in which parents are older; these are proved to be enough
    for a store that has each block under its identifier and none with the last
    number of 32 bits.  Times are below
    [2 ^ 55] and lists below [10 ^ 9] items where a [uint64] product would
    otherwise wrap; such bounds are hypotheses.

    ** Not modelled

    The ABI wrappers of native contracts, the tries and databases, the pools of
    transactions and of proof-of-work blocks, the peer-to-peer network, the HTTP
    interface and the command line are not modelled; nor are the ABI encoding of
    events, tracing, log output and metrics.  Of the consensus layer the intake
    and the queues of messages, their encoding and signatures, and the packing of
    transactions into a proposal that is already built are left out; a step of
    the network delivers a message unchanged.  The transactions that a node
    builds for a K-block ([consensus/governor/]) are a field of the reactor of
    [Validate].  Two effects on shared memory in the first blocks of the networks
    are left out: the amount of a transfer log that the machine could overwrite
    before [FixTransferLog], and the byte that [ecrecover] wrote behind its input
    before Istanbul.  Lookups of block hashes by running code are taken to
    succeed.  The
    rule configuration of the machine, which the code keeps in one variable
    for all runtimes, is a value of each. *)

From Stdlib Require Export ZArith Lia ZifyBool.
From stdpp Require Export base numbers gmap strings option sorting list.

#[global] Set Default Goal Selector "!".

Declare Scope go_scope.
Delimit Scope go_scope with go.
Open Scope Z_scope.

(** ** Fixed-width and arbitrary-precision integers

    Every Go integer is a [Z]; the width of a conversion or of an arithmetic
    operation that can wrap is written out with the functions below.
    [*big.Int] is [Z] itself. *)

Definition u8 (x : Z) : Z := x mod 2 ^ 8.
Definition u16 (x : Z) : Z := x mod 2 ^ 16.
Definition u32 (x : Z) : Z := x mod 2 ^ 32.
Definition u64 (x : Z) : Z := x mod 2 ^ 64.

(** Conversion of a 64-bit pattern to Go's [int64] (two's complement). *)
Definition i64 (x : Z) : Z :=
  let y := u64 x in if y <? 2 ^ 63 then y else y - 2 ^ 64.

(** The largest [uint64]. *)
Definition MaxUint64 : Z := 2 ^ 64 - 1.

(** go-ethereum's [math.SafeAdd] and [math.SafeMul] on [uint64]. *)
Definition SafeAdd (x y : Z) : Z * bool := (u64 (x + y), MaxUint64 <? x + y).
Definition SafeMul (x y : Z) : Z * bool := (u64 (x * y), MaxUint64 <? x * y).

(** A value of its width is not changed. *)
Lemma u32_small x : 0 <= x < 2 ^ 32 -> u32 x = x.
Proof. intros. unfold u32. by rewrite Z.mod_small. Qed.
Lemma u64_small x : 0 <= x < 2 ^ 64 -> u64 x = x.
Proof. intros Hx. unfold u64. by apply Z.mod_small. Qed.
Lemma i64_small x : - 2 ^ 63 <= x < 2 ^ 63 -> i64 x = x.
Proof.
  intros Hx. unfold i64, u64. destruct (Z.le_gt_cases 0 x).
  - rewrite Z.mod_small by lia. destruct (Z.ltb_spec x (2 ^ 63)); lia.
  - replace (x mod 2 ^ 64) with (x + 2 ^ 64).
    + destruct (Z.ltb_spec (x + 2 ^ 64) (2 ^ 63)); lia.
    + apply (Z.mod_unique _ _ (-1)); lia.
Qed.

(** ** Panics

    A Go function either returns or panics (nil dereference, division by a
    zero [big.Int], explicit [panic]).  [outcome] is the type of the result
    of a function that can panic. *)

Inductive outcome (A : Type) : Type :=
| Ret (a : A)
| Panic.
Arguments Ret {A} a.
Arguments Panic {A}.

#[global] Instance outcome_ret : MRet outcome := fun A a => Ret a.
#[global] Instance outcome_bind : MBind outcome :=
  fun A B f m => match m with Ret a => f a | Panic => Panic end.
#[global] Instance outcome_fmap : FMap outcome :=
  fun A B f m => match m with Ret a => Ret (f a) | Panic => Panic end.

Definition returns {A} (m : outcome A) : bool :=
  match m with Ret _ => true | Panic => false end.

(** A dereference of a pointer that may be nil. *)
Definition deref {A} (p : option A) : outcome A :=
  match p with Some a => Ret a | None => Panic end.

(** [big.Int.Div]: Euclidean division, panics on a zero divisor. *)
Definition big_div (x y : Z) : outcome Z :=
  if y =? 0 then Panic
  else Ret (if y <? 0 then - (x / - y) else x / y).

Lemma big_div_pos x y : 0 < y -> big_div x y = Ret (x / y).
Proof.
  intros H. unfold big_div.
  destruct (Z.eqb_spec y 0); [lia|]. destruct (Z.ltb_spec y 0); [lia|done].
Qed.

Lemma bind_ret_inv {A B} (m : outcome A) (f : A -> outcome B) b :
  m ≫= f = Ret b -> exists a, m = Ret a /\ f a = Ret b.
Proof. destruct m; [eauto|discriminate]. Qed.

Lemma bind_assoc {A B C} (m : outcome A) (f : A -> outcome B) (g : B -> outcome C) :
  m ≫= (fun a => f a ≫= g) = (m ≫= f) ≫= g.
Proof. by destruct m. Qed.

(** Inverting a bind that returns; [inv_ret] inverts all that follow, splits the
    pairs and the choices, and keeps the equations. *)
Ltac inv_bind H :=
  let a := fresh "r" in let E := fresh "E" in
  apply bind_ret_inv in H as (a & E & H).
Ltac inv_ret H :=
  repeat first
    [ progress simplify_eq/=
    | inv_bind H
    | match type of H with
      | context [match ?p with (_, _) => _ end] => is_var p; destruct p
      end ].

(** A loop whose body can panic. *)
Fixpoint mfold {A B} (f : B -> A -> outcome B) (b : B) (l : list A) : outcome B :=
  match l with
  | [] => Ret b
  | a :: l => b ← f b a; mfold f b l
  end.

(** A loop of at most [p] rounds: what is left after them, or the result of the
    round that ended it. *)
Fixpoint rounds {A B} (step : A -> outcome (A + B)) (p : positive) (a : A) : outcome (A + B) :=
  let go p r := a ← r; match a with inl a => rounds step p a | inr b => Ret (inr b) end in
  match p with
  | xH => step a
  | xO p => go p (rounds step p a)
  | xI p => go p (go p (step a))
  end.

(** The same counted in unary, which inductions use. *)
Fixpoint loop {A B} (step : A -> outcome (A + B)) (n : nat) (a : A) : outcome (A + B) :=
  match n with
  | O => Ret (inl a)
  | S n => r ← step a; match r with inl a => loop step n a | inr b => Ret (inr b) end
  end.

Lemma loop_add {A B} (step : A -> outcome (A + B)) n m a :
  loop step (n + m) a =
  r ← loop step n a; match r with inl a => loop step m a | inr b => Ret (inr b) end.
Proof.
  revert a. induction n as [|n IH]; intros a; simpl; [done|].
  destruct (step a) as [[a'|b]|]; simpl; [apply IH|done|done].
Qed.

Lemma rounds_loop {A B} (step : A -> outcome (A + B)) p a :
  rounds step p a = loop step (Pos.to_nat p) a.
Proof.
  revert a. induction p as [p IH|p IH|]; intros a; cbn [rounds].
  - rewrite Pos2Nat.inj_xI. cbn [loop]. replace (2 * Pos.to_nat p)%nat with (Pos.to_nat p + Pos.to_nat p)%nat by lia.
    destruct (step a) as [[a'|b]|]; cbn; [|done|done].
    rewrite IH, loop_add. destruct (loop step (Pos.to_nat p) a') as [[]|]; cbn; auto.
  - rewrite Pos2Nat.inj_xO. replace (2 * Pos.to_nat p)%nat with (Pos.to_nat p + Pos.to_nat p)%nat by lia.
    rewrite IH, loop_add. destruct (loop step (Pos.to_nat p) a) as [[]|]; cbn; auto.
  - rewrite Pos2Nat.inj_1. cbn. by destruct (step a) as [[]|].
Qed.

(** What every round keeps holds at the end. *)
Lemma rounds_inv {A B} (step : A -> outcome (A + B)) (I : A -> Prop) (Q : B -> Prop) p a r :
  (forall a r, I a -> step a = Ret r -> match r with inl a' => I a' | inr b => Q b end) ->
  I a -> rounds step p a = Ret r -> match r with inl a' => I a' | inr b => Q b end.
Proof.
  intros Hs Ha. rewrite rounds_loop. revert a Ha. induction (Pos.to_nat p) as [|n IH]; simpl; intros a Ha.
  - by intros [= <-].
  - intros Hr. apply bind_ret_inv in Hr as (x & E & Hr). specialize (Hs _ _ Ha E).
    destruct x; [eapply IH; [exact Hs|exact Hr]|by injection Hr as <-].
Qed.

(** A loop whose rounds return returns. *)
Lemma rounds_ret {A B} (step : A -> outcome (A + B)) (I : A -> Prop) (Q : B -> Prop) p a :
  (forall a, I a -> exists r, step a = Ret r /\ match r with inl a' => I a' | inr b => Q b end) ->
  I a -> exists r, rounds step p a = Ret r /\ match r with inl a' => I a' | inr b => Q b end.
Proof.
  intros Hs. rewrite rounds_loop. revert a. induction (Pos.to_nat p) as [|n IH]; simpl; intros a Ha; [eauto|].
  destruct (Hs a Ha) as ([a'|b] & -> & Hr); simpl; eauto.
Qed.

(** Enough rounds for a measure that every round makes smaller. *)
Lemma rounds_end {A B} (step : A -> outcome (A + B)) (I : A -> Prop) (m : A -> Z) p a a' :
  (forall a, I a -> 0 <= m a) ->
  (forall a a', I a -> step a = Ret (inl a') -> I a' /\ m a' < m a) ->
  I a -> m a < Zpos p -> rounds step p a <> Ret (inl a').
Proof.
  intros Hp Hs Ha Hm. rewrite rounds_loop. rewrite <- positive_nat_Z in Hm.
  revert a Ha Hm. induction (Pos.to_nat p) as [|n IH]; intros a Ha Hm; cbn [loop].
  - specialize (Hp a Ha). lia.
  - intros Hr. apply bind_ret_inv in Hr as (x & E & Hr). destruct x as [a1|]; [|done].
    destruct (Hs _ _ Ha E) as [Ha1 Hm1]. revert Hr. apply IH; [done|lia].
Qed.

(** ** Record updates

    [r <| f := v |>] is the record [r] with field [f] set to [v];
    [r <| f ::= g |>] applies [g] to the field.  A record type declares its
    eta-expansion once as an instance of [Settable]; the setter of a field is
    then found by abstracting that field in the expansion. *)

Class Settable (R : Type) : Type := eta_expand : R -> R.
Class Setter {R T : Type} (proj : R -> T) : Type := update_field : (T -> T) -> R -> R.
Arguments update_field {R T} proj {_} _ _.

Ltac build_setter :=
  match goal with
  | |- @Setter ?R ?T ?proj =>
    let g := fresh "g" in
    let r := fresh "r" in
    unfold Setter; intros g r;
    let body := eval hnf in (@eta_expand R _ r) in
    let abs := eval pattern (proj r) in body in
    match abs with
    | ?k _ => let res := eval cbv beta in (k (g (proj r))) in exact res
    end
  end.

#[global] Hint Extern 1 (Setter _) => build_setter : typeclass_instances.

Notation "r <| proj ::= g |>" := (update_field proj g r)
  (at level 12, left associativity, proj at next level) : go_scope.
Notation "r <| proj := v |>" := (update_field proj (fun _ => v) r)
  (at level 12, left associativity, proj at next level) : go_scope.
Open Scope go_scope.

(** ** Sums over lists *)

Definition sum_of {A} (f : A -> Z) (l : list A) : Z := foldr (fun a s => f a + s) 0 l.

Section SumOf.
Context {A : Type}.
Implicit Types (f g : A -> Z) (l : list A).

Lemma sum_of_cons f a l : sum_of f (a :: l) = f a + sum_of f l.
Proof. done. Qed.

Lemma sum_of_app f l1 l2 : sum_of f (l1 ++ l2) = sum_of f l1 + sum_of f l2.
Proof. induction l1 as [|a l1 IH]; simpl; [done|]. rewrite IH. lia. Qed.

Lemma sum_of_ext f g l : (forall a, a ∈ l -> f a = g a) -> sum_of f l = sum_of g l.
Proof.
  induction l as [|a l IH]; intros H; simpl; [done|].
  rewrite (H a) by set_solver. rewrite IH; [done|]. intros b Hb. apply H. set_solver.
Qed.

Lemma sum_of_nonneg f l : (forall a, a ∈ l -> 0 <= f a) -> 0 <= sum_of f l.
Proof.
  induction l as [|a l IH]; intros H; simpl; [lia|].
  specialize (H a) as Ha. specialize (IH (fun b Hb => H b ltac:(set_solver))).
  specialize (Ha ltac:(set_solver)). lia.
Qed.

Lemma sum_of_zero f l : (forall a, a ∈ l -> f a = 0) -> sum_of f l = 0.
Proof.
  intros H. rewrite (sum_of_ext f (fun _ => 0)) by done.
  induction l; simpl; [done|]. rewrite IHl; [done|]. set_solver.
Qed.

Lemma sum_of_perm f l1 l2 : l1 ≡ₚ l2 -> sum_of f l1 = sum_of f l2.
Proof. induction 1; simpl; lia. Qed.

#[global] Instance sum_of_proper f : Proper ((≡ₚ) ==> (=)) (sum_of f).
Proof. intros l1 l2. apply sum_of_perm. Qed.

Lemma sum_of_le f l a : (forall b, b ∈ l -> 0 <= f b) -> a ∈ l -> f a <= sum_of f l.
Proof.
  intros H [l1 [l2 ->]]%list_elem_of_split.
  rewrite sum_of_app, sum_of_cons.
  pose proof (sum_of_nonneg f l1 (fun b Hb => H b ltac:(set_solver))).
  pose proof (sum_of_nonneg f l2 (fun b Hb => H b ltac:(set_solver))). lia.
Qed.

Lemma sum_of_insert f l i a b :
  l !! i = Some a -> sum_of f (<[i:=b]> l) = sum_of f l - f a + f b.
Proof.
  intros H. rewrite insert_take_drop by eauto using lookup_lt_Some.
  rewrite <- (take_drop_middle l i a H) at 3.
  rewrite !sum_of_app, !sum_of_cons. lia.
Qed.

Lemma sum_of_delete f l i a :
  l !! i = Some a -> sum_of f (delete i l) = sum_of f l - f a.
Proof.
  intros H. rewrite delete_take_drop. rewrite <- (take_drop_middle l i a H) at 3.
  rewrite !sum_of_app, sum_of_cons. lia.
Qed.
End SumOf.

Lemma sum_of_add {A} (f g : A -> Z) l :
  sum_of (fun a => f a + g a) l = sum_of f l + sum_of g l.
Proof. induction l as [|a l IH]; simpl; lia. Qed.

Lemma sum_of_map {A B} (f : B -> Z) (h : A -> B) l :
  sum_of f (h <$> l) = sum_of (fun a => f (h a)) l.
Proof. induction l as [|a l IH]; simpl; [done|]. by rewrite <- IH. Qed.
