(* ===== verification/Text.v ===== *)
(** * Text validation

    The pieces of Go's [strings], [regexp] and [encoding/base64] the staking
    handlers use to check a candidate's public key and address. *)

From S2P Require Import Prelude.
From Stdlib Require Import Ascii.
Local Open Scope string_scope.
#[local] Arguments String.append : simpl nomatch.

(** [strings.TrimSuffix] for a one-byte suffix. *)
Fixpoint TrimSuffix (c : ascii) (s : string) : string :=
  match s with
  | "" => ""
  | String x rest =>
    match rest with
    | "" => if Ascii.eqb x c then "" else s
    | _ => String x (TrimSuffix c rest)
    end
  end.

(** [strings.Split] by a non-empty separator: the parts between its
    non-overlapping occurrences, from the left.  The fuel is the length of the
    string, which every step shortens. *)
Fixpoint split_go (fuel : nat) (sep acc s : string) : list string :=
  match fuel with
  | O => [acc ++ s]
  | S fuel =>
    match s with
    | "" => [acc]
    | String x rest =>
      if String.prefix sep s
      then acc :: split_go fuel sep "" (String.substring (String.length sep) (String.length s) s)
      else split_go fuel sep (acc ++ String x "") rest
    end
  end.
Definition Split (s sep : string) : list string := split_go (String.length s) sep "" s.

(** ** The address pattern [^\d+[.]\d+[.]\d+[.]\d+$] *)

Definition is_digit (c : ascii) : bool :=
  let n := nat_of_ascii c in (48 <=? n)%nat && (n <=? 57)%nat.

Fixpoint all_digits (s : string) : bool :=
  match s with "" => true | String c rest => is_digit c && all_digits rest end.
Definition digits1 (s : string) : bool := negb (String.eqb s "") && all_digits s.

(** The matcher: [groups] further groups of digits, each after a dot, with at
    least one digit read in the current group or not. *)
Fixpoint match_groups (groups : nat) (seen : bool) (s : string) : bool :=
  match s with
  | "" => seen && match groups with O => true | _ => false end
  | String c rest =>
    if is_digit c then match_groups groups true rest
    else if Ascii.eqb c "."
    then match groups with
      | O => false
      | S groups => seen && match_groups groups false rest
      end
    else false
  end.
Definition ipPattern_MatchString (s : string) : bool := match_groups 3 false s.

(** ** [base64.StdEncoding.DecodeString]

    Line breaks are skipped; the last quantum may end in one or two padding
    characters, after which only line breaks may follow.  The bits under the
    padding are not checked. *)

Definition b64_value (c : ascii) : option N :=
  let n := nat_of_ascii c in
  if (65 <=? n)%nat && (n <=? 90)%nat then Some (N.of_nat (n - 65))
  else if (97 <=? n)%nat && (n <=? 122)%nat then Some (N.of_nat (n - 71))
  else if (48 <=? n)%nat && (n <=? 57)%nat then Some (N.of_nat (n + 4))
  else if (n =? 43)%nat then Some 62%N
  else if (n =? 47)%nat then Some 63%N
  else None.

Fixpoint no_breaks (s : string) : list ascii :=
  match s with
  | "" => []
  | String c rest =>
    let n := nat_of_ascii c in
    if (n =? 10)%nat || (n =? 13)%nat then no_breaks rest else c :: no_breaks rest
  end.

Definition byte_of (n : N) : ascii := ascii_of_N (n mod 256).

Fixpoint b64_quanta (l : list ascii) : option string :=
  match l with
  | [] => Some ""
  | a :: b :: c :: d :: rest =>
    x ← b64_value a; y ← b64_value b;
    let b0 := byte_of (x * 4 + y / 16) in
    if Ascii.eqb c "=" && Ascii.eqb d "="
    then match rest with [] => Some (String b0 "") | _ => None end
    else
      z ← b64_value c;
      let b1 := byte_of (y mod 16 * 16 + z / 4) in
      if Ascii.eqb d "="
      then match rest with [] => Some (String b0 (String b1 "")) | _ => None end
      else
        w ← b64_value d;
        let b2 := byte_of (z mod 4 * 64 + w) in
        s ← b64_quanta rest;
        Some (String b0 (String b1 (String b2 s)))
  | _ => None
  end.
Definition b64_decode (s : string) : option string := b64_quanta (no_breaks s).

(** ** What the address pattern accepts *)

Definition dotted (parts : list string) : string := String.concat "." parts.

Lemma all_digits_app s t : all_digits (s ++ t) = all_digits s && all_digits t.
Proof. induction s as [|c s IH]; simpl; [done|]. by rewrite IH, andb_assoc. Qed.

Lemma append_empty s : s ++ "" = s.
Proof. induction s as [|c s IH]; simpl; [done|]. by f_equal. Qed.

Lemma dot_not_digit : is_digit "." = false.
Proof. done. Qed.

Lemma match_groups_digits g seen d s :
  all_digits d = true ->
  match_groups g seen (d ++ s) = match_groups g (seen || negb (String.eqb d "")) s.
Proof.
  revert seen. induction d as [|c d IH]; intros seen Hd; simpl in *.
  { by rewrite orb_false_r. }
  apply andb_true_iff in Hd as [Hc Hd]. rewrite Hc, IH by done.
  by rewrite orb_true_r.
Qed.

Lemma match_groups_sound g seen s :
  match_groups g seen s = true ->
  exists d parts, s = dotted (d :: parts) /\ length parts = g /\
    all_digits d = true /\ (seen || negb (String.eqb d "")) = true /\ Forall digits1 parts.
Proof.
  revert g seen. induction s as [|c s IH]; intros g seen Hm; simpl in Hm.
  { destruct g; [|by rewrite andb_false_r in Hm]. rewrite andb_true_r in Hm. subst.
    by exists "", []. }
  destruct (is_digit c) eqn:Ec.
  { destruct (IH _ _ Hm) as (d & parts & -> & Hl & Hd & _ & Hp).
    exists (String c d), parts. split_and!; try done.
    - by destruct parts.
    - simpl. by rewrite Ec.
    - by rewrite orb_true_r. }
  destruct (Ascii.eqb_spec c ".") as [->|]; [|done].
  destruct g as [|g]; [done|]. apply andb_true_iff in Hm as [-> Hm].
  destruct (IH _ _ Hm) as (d & parts & -> & Hl & Hd & Hne & Hp).
  exists "", (d :: parts). split_and!; try done.
  - simpl. by rewrite Hl.
  - constructor; [|done]. unfold digits1. simpl in Hne. rewrite Hne, Hd. done.
Qed.

Lemma match_groups_complete d parts seen :
  all_digits d = true -> (seen || negb (String.eqb d "")) = true -> Forall digits1 parts ->
  match_groups (length parts) seen (dotted (d :: parts)) = true.
Proof.
  intros Hd Hs Hp. revert d seen Hd Hs.
  induction Hp as [|p parts Hp1 Hp IH]; intros d seen Hd Hs.
  { change (dotted [d]) with d.
    rewrite <- (append_empty d).
    rewrite match_groups_digits by done. simpl. by rewrite Hs. }
  change (dotted (d :: p :: parts)) with (d ++ "." ++ dotted (p :: parts)).
  rewrite match_groups_digits by done. rewrite Hs. simpl.
  unfold digits1 in Hp1. apply Is_true_true, andb_true_iff in Hp1 as [Hn Ha].
  apply IH; [done|]. by rewrite Hn.
Qed.

(** The address check of [CandidateHandler] and [CandidateUpdateHandler]
    accepts exactly the strings that are four non-empty groups of decimal
    digits separated by dots; the size of a group is not bounded. *)
Theorem ip_pattern_exact s :
  ipPattern_MatchString s = true <->
  exists a b c d, s = dotted [a; b; c; d] /\ Forall digits1 [a; b; c; d].
Proof.
  split.
  - intros (d & parts & -> & Hl & Hd & Hne & Hp)%match_groups_sound.
    destruct parts as [|p [|q [|r []]]]; try done.
    exists d, p, q, r. split; [done|]. constructor; [|done].
    unfold digits1. simpl in Hne. by rewrite Hne, Hd.
  - intros (a & b & c & d & -> & H). inversion H as [|? ? Ha Hr]; subst.
    unfold digits1 in Ha. apply Is_true_true, andb_true_iff in Ha as [Hn Ha].
    by apply (match_groups_complete a [b; c; d]).
Qed.
