(* ===== verification/KeyedList.v ===== *)
(** * Sorted slices indexed by a key

    The staking, auction and account-lock state is kept in slices sorted by a
    fixed-width key (an address or a hash) and searched by bisection.  The Go
    code repeats the same five operations for every list type ([BucketList],
    [CandidateList], [StakeholderList], [InJailList], [DelegateStatList],
    [ProfileList], [AuctionCB]).  This file holds the operations once, over
    the [Keyed] interface, and shows that on a strictly sorted slice they
    implement a finite map: [Get] is lookup, [Add] is insert, [Remove] is
    delete, and every operation keeps the slice strictly sorted.

    A key is the big-endian number of its bytes, so that [bytes.Compare] on
    keys of one width is the comparison of numbers. *)

From S2P Require Import Prelude.

Create HintDb keyed.
Create Rewrite HintDb keyed.

Class Keyed (A : Type) : Type := key : A -> Z.

Section Operations.
Context {A : Type} `{Keyed A}.
Implicit Types (xs : list A) (k : Z).

(** The loop of [indexOf]: [l] and [r] delimit the part still searched.
    The fuel is the length of the slice; [search_spec] shows it is enough. *)
Fixpoint search (fuel : nat) (xs : list A) (k : Z) (l r : nat) : Z * Z :=
  match fuel with
  | O => (-1, Z.of_nat r)
  | S fuel =>
    if decide (l < r)%nat then
      let m := ((l + r) / 2)%nat in
      match xs !! m with
      | None => (-1, Z.of_nat r)
      | Some x =>
        if k <? key x then search fuel xs k l m
        else if key x <? k then search fuel xs k (S m) r
        else (Z.of_nat m, -1)
      end
    else (-1, Z.of_nat r)
  end.

(** First component: the index of the item, or -1.  Second component: where
    to insert it when it is absent, else -1. *)
Definition indexOf xs k : Z * Z :=
  if decide (length xs <= 0)%nat then (-1, 0)
  else search (length xs) xs k 0 (length xs).

Definition Get xs k : option A :=
  let '(index, _) := indexOf xs k in
  if 0 <=? index then xs !! Z.to_nat index else None.

Definition Exist xs k : bool :=
  let '(index, _) := indexOf xs k in 0 <=? index.

Definition Add xs (b : A) : list A :=
  let '(index, insertIndex) := indexOf xs (key b) in
  if index <? 0 then
    if decide (length xs = 0%nat) then xs ++ [b]
    else take (Z.to_nat insertIndex) xs ++ [b] ++ drop (Z.to_nat insertIndex) xs
  else <[Z.to_nat index := b]> xs.

Definition Remove xs k : list A :=
  let '(index, _) := indexOf xs k in
  if 0 <=? index
  then take (Z.to_nat index) xs ++ drop (S (Z.to_nat index)) xs
  else xs.

(** A write through the pointer that [Get] returns: the slice holds pointers,
    so the element changes in place.  No effect when [Get] returns nil. *)
Definition Modify (f : A -> A) xs k : list A :=
  let '(index, _) := indexOf xs k in
  if 0 <=? index then alter f (Z.to_nat index) xs else xs.

(** [sort.SliceStable] with the comparison [key i <= key j]: insertion sort,
    moving an element left while it is not greater than its neighbour.  The
    accumulator is the sorted prefix, reversed. *)
Fixpoint sift (x : A) (rev_prefix : list A) : list A :=
  match rev_prefix with
  | [] => [x]
  | y :: t => if key x <=? key y then y :: sift x t else x :: y :: t
  end.

Definition SliceStable xs : list A :=
  reverse (foldl (fun acc x => sift x acc) [] xs).
End Operations.

(** [sort.SliceStable] with any comparison [less]: an element moves left while
    it comes before its neighbour.  Where [less] orders the elements totally
    and none is repeated, every stable sort gives this list. *)
Section SortBy.
Context {A : Type} (less : A -> A -> bool).
Fixpoint sift_by (x : A) (rev_prefix : list A) : list A :=
  match rev_prefix with
  | [] => [x]
  | y :: rest => if less x y then y :: sift_by x rest else x :: y :: rest
  end.
Definition sort_by (l : list A) : list A := reverse (foldl (fun p x => sift_by x p) [] l).
End SortBy.

(** ** Strictly sorted slices *)

Definition sorted {A} `{Keyed A} (xs : list A) : Prop :=
  StronglySorted (fun a b => key a < key b) xs.

Definition to_map {A} `{Keyed A} (xs : list A) : gmap Z A :=
  list_to_map ((fun x => (key x, x)) <$> xs).

Section Theory.
Context {A : Type} `{Keyed A}.
Implicit Types (xs ys : list A) (k : Z) (x y b : A).

Lemma sorted_nil : sorted (@nil A).
Proof. constructor. Qed.

Lemma sorted_lookup_lt xs i j x y :
  sorted xs -> xs !! i = Some x -> xs !! j = Some y -> (i < j)%nat -> key x < key y.
Proof.
  intros Hs. revert i j. induction Hs as [|a xs Hs IH Hall]; intros i j Hi Hj Hij; [done|].
  destruct i as [|i], j as [|j]; simplify_eq/=; [lia| |lia|].
  - rewrite Forall_forall in Hall. apply Hall. by eapply list_elem_of_lookup_2.
  - eapply IH; eauto. lia.
Qed.

Lemma sorted_lookup_inj xs i j x y :
  sorted xs -> xs !! i = Some x -> xs !! j = Some y -> key x = key y -> i = j.
Proof.
  intros Hs Hi Hj Heq. destruct (lt_eq_lt_dec i j) as [[Hlt| ->]|Hlt]; [|done|];
    [pose proof (sorted_lookup_lt xs i j x y Hs Hi Hj Hlt)
    |pose proof (sorted_lookup_lt xs j i y x Hs Hj Hi Hlt)]; lia.
Qed.

Lemma sorted_app xs ys :
  sorted (xs ++ ys) <->
  sorted xs /\ sorted ys /\ (forall x y, x ∈ xs -> y ∈ ys -> key x < key y).
Proof.
  unfold sorted. induction xs as [|a xs IH]; simpl.
  { split; [intros Hs; split_and!; [constructor|done|set_solver]|tauto]. }
  split.
  - intros Hs. inversion Hs as [|? ? Hs' Hall]; subst. apply IH in Hs' as (H1 & H2 & H3).
    rewrite Forall_app, !Forall_forall in Hall. destruct Hall as [Ha Hb].
    split_and!; [constructor; [done|by apply Forall_forall]|done|].
    intros x y [->|Hx]%elem_of_cons Hy; auto.
  - intros (H1 & H2 & H3). inversion H1 as [|? ? H1' Hall]; subst. constructor.
    + apply IH. split_and!; auto. intros; apply H3; [by right|done].
    + rewrite Forall_app. split; [done|]. apply Forall_forall. intros y Hy.
      apply H3; [by left|done].
Qed.

Lemma sorted_nodup_keys xs : sorted xs -> NoDup (key <$> xs).
Proof.
  induction 1 as [|a xs Hs IH Hall]; simpl; constructor; [|done].
  intros (b & Hb & Hin)%list_elem_of_fmap. rewrite Forall_forall in Hall.
  specialize (Hall b Hin). lia.
Qed.

Lemma sorted_elem_inj xs x y : sorted xs -> x ∈ xs -> y ∈ xs -> key x = key y -> x = y.
Proof.
  intros Hs [i Hi]%list_elem_of_lookup [j Hj]%list_elem_of_lookup Heq.
  pose proof (sorted_lookup_inj xs i j x y Hs Hi Hj Heq). congruence.
Qed.

(** Where a key belongs: everything before is smaller, everything from there
    on is greater. *)
Definition insertion_point xs k (j : nat) : Prop :=
  (j <= length xs)%nat /\
  (forall i x, xs !! i = Some x -> (i < j)%nat -> key x < k) /\
  (forall i x, xs !! i = Some x -> (j <= i)%nat -> k < key x).

Lemma search_spec fuel xs k l r :
  sorted xs -> (r <= length xs)%nat -> (l <= r)%nat -> (r - l <= fuel)%nat ->
  (forall i x, xs !! i = Some x -> (i < l)%nat -> key x < k) ->
  (forall i x, xs !! i = Some x -> (r <= i)%nat -> k < key x) ->
  (exists i x, search fuel xs k l r = (Z.of_nat i, -1) /\ xs !! i = Some x /\ key x = k) \/
  (exists j, search fuel xs k l r = (-1, Z.of_nat j) /\ insertion_point xs k j).
Proof.
  intros Hs. revert l r. induction fuel as [|fuel IH]; intros l r Hr Hlr Hf Hlo Hhi; cbn [search].
  { right. exists r. assert (l = r) as -> by lia. done. }
  case_decide as Hd; [|right; exists r; assert (l = r) as -> by lia; done].
  assert (l <= (l + r) / 2 < r)%nat as [Hm1 Hm2].
  { split; [apply Nat.div_le_lower_bound|apply Nat.Div0.div_lt_upper_bound]; lia. }
  generalize dependent ((l + r) / 2)%nat. intros m Hm1 Hm2.
  destruct (lookup_lt_is_Some_2 xs m ltac:(lia)) as [x Hx]. rewrite Hx.
  destruct (Z.ltb_spec k (key x)).
  { apply IH; try lia; [done|]. intros i y Hi Hge.
    destruct (decide (i = m)) as [->|]; [by simplify_eq|].
    pose proof (sorted_lookup_lt xs m i x y Hs Hx Hi ltac:(lia)). lia. }
  destruct (Z.ltb_spec (key x) k).
  { apply IH; try lia; [|done]. intros i y Hi Hlt.
    destruct (decide (i = m)) as [->|]; [by simplify_eq|].
    pose proof (sorted_lookup_lt xs i m y x Hs Hi Hx ltac:(lia)). lia. }
  left. exists m, x. split_and!; [done|done|lia].
Qed.

Lemma indexOf_cases xs k :
  sorted xs ->
  (exists i x, indexOf xs k = (Z.of_nat i, -1) /\ xs !! i = Some x /\ key x = k) \/
  (exists j, indexOf xs k = (-1, Z.of_nat j) /\ insertion_point xs k j).
Proof.
  intros Hs. unfold indexOf. case_decide as Hd.
  - right. exists 0%nat. split; [done|]. destruct xs; [|simpl in Hd; lia].
    repeat split; [simpl; lia|intros ? ? Hl; inversion Hl..].
  - apply search_spec; try lia; [done|].
    intros i x Hi Hge. apply lookup_lt_Some in Hi. lia.
Qed.

Lemma insertion_point_notin xs k j : insertion_point xs k j -> k ∉ (key <$> xs).
Proof.
  intros (_ & Hlo & Hhi) (x & -> & Hin)%list_elem_of_fmap.
  apply list_elem_of_lookup in Hin as [i Hi].
  destruct (decide (i < j)%nat) as [Hlt|Hge];
    [specialize (Hlo i x Hi Hlt)|specialize (Hhi i x Hi ltac:(lia))]; lia.
Qed.

(** *** Get *)

Lemma to_map_lookup xs k x :
  sorted xs -> to_map xs !! k = Some x <-> x ∈ xs /\ key x = k.
Proof.
  intros Hs. unfold to_map. rewrite <- elem_of_list_to_map.
  - rewrite list_elem_of_fmap. split; [intros (y & ? & ?); by simplify_eq|].
    intros [Hin <-]. eauto.
  - rewrite <- list_fmap_compose. apply (sorted_nodup_keys xs Hs).
Qed.

Lemma to_map_lookup_None xs k : to_map xs !! k = None <-> k ∉ (key <$> xs).
Proof.
  unfold to_map. rewrite <- not_elem_of_list_to_map. by rewrite <- list_fmap_compose.
Qed.

Lemma Get_refines xs k : sorted xs -> Get xs k = to_map xs !! k.
Proof.
  intros Hs. unfold Get. destruct (indexOf_cases xs k Hs) as [(i & x & -> & Hi & Hk)|(j & -> & Hj)].
  - replace (0 <=? Z.of_nat i) with true by lia. rewrite Nat2Z.id, Hi. symmetry.
    apply to_map_lookup; [done|]. split; [by eapply list_elem_of_lookup_2|done].
  - symmetry. apply to_map_lookup_None. by eapply insertion_point_notin.
Qed.

Lemma Get_Some xs k x : sorted xs -> Get xs k = Some x <-> x ∈ xs /\ key x = k.
Proof. intros Hs. rewrite Get_refines by done. by apply to_map_lookup. Qed.

Lemma Get_None xs k : sorted xs -> Get xs k = None <-> k ∉ (key <$> xs).
Proof. intros Hs. rewrite Get_refines by done. apply to_map_lookup_None. Qed.

Lemma Exist_Get xs k : sorted xs -> Exist xs k = bool_decide (is_Some (Get xs k)).
Proof.
  intros Hs. unfold Exist, Get.
  destruct (indexOf_cases xs k Hs) as [(i & x & -> & Hi & Hk)|(j & -> & Hj)]; [|done].
  replace (0 <=? Z.of_nat i) with true by lia. by rewrite Nat2Z.id, Hi.
Qed.

(** *** Add *)

(** [Add] either replaces the element with the same key in place, or inserts
    at the insertion point. *)
Lemma Add_cases xs b :
  sorted xs ->
  (exists i x, xs !! i = Some x /\ key x = key b /\ Get xs (key b) = Some x /\
     Add xs b = <[i:=b]> xs) \/
  (exists j, insertion_point xs (key b) j /\ Get xs (key b) = None /\
     Add xs b = take j xs ++ b :: drop j xs).
Proof.
  intros Hs. unfold Add, Get.
  destruct (indexOf_cases xs (key b) Hs) as [(i & x & -> & Hi & Hk)|(j & -> & Hj)].
  - left. exists i, x. replace (Z.of_nat i <? 0) with false by lia.
    replace (0 <=? Z.of_nat i) with true by lia. by rewrite Nat2Z.id.
  - right. exists j. rewrite Nat2Z.id. split; [done|]. split; [done|].
    replace (-1 <? 0) with true by done. case_decide as Hd; [|done].
    apply nil_length_inv in Hd. subst. by rewrite take_nil, drop_nil.
Qed.

Lemma sorted_insert_at xs b j :
  sorted xs -> insertion_point xs (key b) j -> sorted (take j xs ++ b :: drop j xs).
Proof.
  intros Hs (Hj & Hlo & Hhi). pose proof Hs as Hs'.
  rewrite <- (take_drop j xs) in Hs'. apply sorted_app in Hs' as (H1 & H2 & H3).
  apply sorted_app. split_and!; [done| |].
  - constructor; [done|]. apply Forall_forall. intros y [i Hi]%list_elem_of_lookup.
    rewrite lookup_drop in Hi. eapply Hhi; [done|lia].
  - intros x y [i Hi]%list_elem_of_lookup Hy.
    apply lookup_take_Some in Hi as [Hi Hlt].
    apply elem_of_cons in Hy as [->|Hy]; [eauto|].
    apply H3; [|done]. apply list_elem_of_lookup. exists i. by apply lookup_take_Some.
Qed.

Lemma sorted_replace xs i x b :
  sorted xs -> xs !! i = Some x -> key x = key b -> sorted (<[i:=b]> xs).
Proof.
  intros Hs Hi Hk. rewrite insert_take_drop by eauto using lookup_lt_Some.
  rewrite <- (take_drop_middle xs i x Hi) in Hs.
  apply sorted_app in Hs as (H1 & H2 & H3). inversion H2 as [|? ? H2' Hall]; subst.
  rewrite Forall_forall in Hall. apply sorted_app. split_and!; [done| |].
  - constructor; [done|]. apply Forall_forall. intros y Hy. rewrite <- Hk. auto.
  - intros y z Hy [->|Hz]%elem_of_cons; [rewrite <- Hk; apply H3; [done|by left]|].
    apply H3; [done|by right].
Qed.

Lemma Add_sorted xs b : sorted xs -> sorted (Add xs b).
Proof.
  intros Hs. destruct (Add_cases xs b Hs) as [(i & x & Hi & Hk & _ & ->)|(j & Hj & _ & ->)].
  - by eapply sorted_replace.
  - by apply sorted_insert_at.
Qed.

Lemma Add_perm_new xs b : sorted xs -> Get xs (key b) = None -> Add xs b ≡ₚ b :: xs.
Proof.
  intros Hs Hn. destruct (Add_cases xs b Hs) as [(i & x & _ & _ & Hg & _)|(j & _ & _ & ->)].
  - congruence.
  - rewrite <- (take_drop j xs) at 3. apply Permutation_sym, Permutation_middle.
Qed.

Lemma elem_of_insert_same xs i x b y :
  sorted xs -> xs !! i = Some x -> key x = key b ->
  y ∈ <[i:=b]> xs <-> y = b \/ (y ∈ xs /\ key y <> key b).
Proof.
  intros Hs Hi Hk. pose proof (lookup_lt_Some _ _ _ Hi) as Hlt.
  rewrite !list_elem_of_lookup. split.
  - intros [j Hj]. destruct (decide (i = j)) as [<-|Hne].
    + rewrite list_lookup_insert_eq in Hj by done. left. congruence.
    + rewrite list_lookup_insert_ne in Hj by done. right. split; [eauto|].
      intros Heq. apply Hne. eapply sorted_lookup_inj; eauto. congruence.
  - intros [->|[[j Hj] Hne]]; [exists i; by apply list_lookup_insert_eq|].
    exists j. rewrite list_lookup_insert_ne; [done|]. intros <-. congruence.
Qed.

Lemma elem_of_Add xs b y :
  sorted xs -> y ∈ Add xs b <-> y = b \/ (y ∈ xs /\ key y <> key b).
Proof.
  intros Hs. destruct (Add_cases xs b Hs) as [(i & x & Hi & Hk & _ & ->)|(j & Hj & _ & Heq)].
  - by eapply elem_of_insert_same.
  - rewrite Heq. rewrite elem_of_app, elem_of_cons.
    assert (y ∈ xs <-> y ∈ take j xs \/ y ∈ drop j xs) as ->
      by (by rewrite <- elem_of_app, take_drop).
    assert (y ∈ take j xs \/ y ∈ drop j xs -> key y <> key b) as Hne; [|tauto].
    rewrite <- elem_of_app, take_drop. intros Hin Hk.
    apply (insertion_point_notin _ _ _ Hj). rewrite <- Hk. by apply list_elem_of_fmap_2.
Qed.

Lemma Get_Add xs b k :
  sorted xs -> Get (Add xs b) k = if decide (k = key b) then Some b else Get xs k.
Proof.
  intros Hs. pose proof (Add_sorted xs b Hs) as Hs'. case_decide as Hd.
  - subst. apply Get_Some; [done|]. rewrite elem_of_Add by done. eauto.
  - destruct (Get xs k) as [x|] eqn:Hg.
    + apply Get_Some in Hg as [Hin <-]; [|done]. apply Get_Some; [done|].
      rewrite elem_of_Add by done. auto.
    + apply Get_None in Hg; [|done]. apply Get_None; [done|].
      intros (x & -> & Hx)%list_elem_of_fmap. apply elem_of_Add in Hx; [|done].
      destruct Hx as [->|[Hx _]]; [done|]. apply Hg. by apply list_elem_of_fmap_2.
Qed.

Lemma Add_refines xs b : sorted xs -> to_map (Add xs b) = <[key b := b]> (to_map xs).
Proof.
  intros Hs. apply map_eq. intros k. rewrite <- Get_refines by by apply Add_sorted.
  rewrite Get_Add by done. case_decide; subst; [by rewrite lookup_insert_eq|].
  rewrite lookup_insert_ne by done. by apply Get_refines.
Qed.

(** *** Remove *)

Lemma Remove_cases xs k :
  sorted xs ->
  (exists i x, xs !! i = Some x /\ key x = k /\ Get xs k = Some x /\
     Remove xs k = delete i xs) \/
  (Get xs k = None /\ Remove xs k = xs).
Proof.
  intros Hs. unfold Remove, Get.
  destruct (indexOf_cases xs k Hs) as [(i & x & -> & Hi & Hk)|(j & -> & Hj)]; [left|by right].
  exists i, x. replace (0 <=? Z.of_nat i) with true by lia.
  by rewrite Nat2Z.id, delete_take_drop.
Qed.

Lemma Remove_sorted xs k : sorted xs -> sorted (Remove xs k).
Proof.
  intros Hs. destruct (Remove_cases xs k Hs) as [(i & x & Hi & _ & _ & ->)|[_ ->]]; [|done].
  rewrite delete_take_drop. rewrite <- (take_drop_middle xs i x Hi) in Hs.
  apply sorted_app in Hs as (H1 & H2 & H3). inversion H2; subst.
  apply sorted_app. split_and!; [done|done|]. intros y z Hy Hz. apply H3; [done|by right].
Qed.

Lemma Remove_perm xs k x : sorted xs -> Get xs k = Some x -> xs ≡ₚ x :: Remove xs k.
Proof.
  intros Hs Hg. destruct (Remove_cases xs k Hs) as [(i & y & Hi & _ & Hg' & ->)|[Hn _]];
    [|congruence].
  assert (y = x) as -> by congruence. by apply delete_Permutation.
Qed.

Lemma elem_of_Remove xs k y : sorted xs -> y ∈ Remove xs k <-> y ∈ xs /\ key y <> k.
Proof.
  intros Hs. destruct (Get xs k) as [x|] eqn:Hg.
  - pose proof (Remove_perm xs k x Hs Hg) as Hp. pose proof (sorted_nodup_keys xs Hs) as Hnd.
    apply Get_Some in Hg as [Hin Hk]; [|done].
    rewrite Hp in Hnd. simpl in Hnd. apply NoDup_cons in Hnd as [Hni _].
    assert (y ∈ xs <-> y = x \/ y ∈ Remove xs k) as ->
      by (rewrite <- elem_of_cons; by split; rewrite <- Hp || rewrite Hp).
    split.
    + intros Hy. split; [by right|]. intros Heq. apply Hni.
      replace (key x) with (key y) by congruence. by apply list_elem_of_fmap_2.
    + intros [[->|Hy] Hne]; [congruence|done].
  - destruct (Remove_cases xs k Hs) as [(i & x & _ & _ & Hg' & _)|[_ ->]]; [congruence|].
    apply Get_None in Hg; [|done]. split; [|tauto]. intros Hy. split; [done|].
    intros <-. apply Hg. by apply list_elem_of_fmap_2.
Qed.

Lemma Get_Remove xs k k' :
  sorted xs -> Get (Remove xs k) k' = if decide (k' = k) then None else Get xs k'.
Proof.
  intros Hs. pose proof (Remove_sorted xs k Hs) as Hs'. case_decide as Hd.
  - subst. apply Get_None; [done|]. intros (x & Hk & Hx)%list_elem_of_fmap.
    apply elem_of_Remove in Hx as [_ Hne]; [|done]. congruence.
  - destruct (Get xs k') as [x|] eqn:Hg.
    + apply Get_Some in Hg as [Hin <-]; [|done]. apply Get_Some; [done|].
      by rewrite elem_of_Remove.
    + apply Get_None in Hg; [|done]. apply Get_None; [done|].
      intros (x & -> & Hx)%list_elem_of_fmap. apply elem_of_Remove in Hx; [|done].
      apply Hg. apply list_elem_of_fmap_2. tauto.
Qed.

Lemma Remove_refines xs k : sorted xs -> to_map (Remove xs k) = delete k (to_map xs).
Proof.
  intros Hs. apply map_eq. intros k'. rewrite <- Get_refines by by apply Remove_sorted.
  rewrite Get_Remove by done. case_decide; subst; [by rewrite lookup_delete_eq|].
  rewrite lookup_delete_ne by done. by apply Get_refines.
Qed.

(** *** Modify *)

Lemma Modify_cases (f : A -> A) xs k :
  sorted xs ->
  (exists i x, xs !! i = Some x /\ key x = k /\ Get xs k = Some x /\
     Modify f xs k = <[i := f x]> xs) \/
  (Get xs k = None /\ Modify f xs k = xs).
Proof.
  intros Hs. unfold Modify, Get.
  destruct (indexOf_cases xs k Hs) as [(i & x & -> & Hi & Hk)|(j & -> & Hj)]; [left|by right].
  exists i, x. replace (0 <=? Z.of_nat i) with true by lia.
  rewrite Nat2Z.id. split_and!; [done..|].
  rewrite list_insert_alter. apply list_alter_ext; [|done]. intros y Hy. congruence.
Qed.

(** A write that keeps the key is the insertion of the written element. *)
Lemma Modify_Add (f : A -> A) xs k x :
  sorted xs -> Get xs k = Some x -> key (f x) = k -> Modify f xs k = Add xs (f x).
Proof.
  intros Hs Hg Hk. destruct (Modify_cases f xs k Hs) as [(i & y & Hi & Hy & Hg' & ->)|[? _]];
    [|congruence].
  assert (y = x) as -> by congruence.
  destruct (Add_cases xs (f x) Hs) as [(j & z & Hj & Hz & _ & ->)|(j & _ & Hn & _)].
  - f_equal. eapply sorted_lookup_inj; eauto. congruence.
  - rewrite Hk in Hn. congruence.
Qed.

Lemma Modify_None (f : A -> A) xs k : sorted xs -> Get xs k = None -> Modify f xs k = xs.
Proof.
  intros Hs Hn. destruct (Modify_cases f xs k Hs) as [(i & y & _ & _ & Hg' & _)|[_ ?]];
    [congruence|done].
Qed.

Lemma Modify_sorted (f : A -> A) xs k :
  sorted xs -> (forall x, Get xs k = Some x -> key (f x) = k) -> sorted (Modify f xs k).
Proof.
  intros Hs Hf. destruct (Get xs k) as [x|] eqn:Hg.
  - rewrite (Modify_Add f xs k x) by auto. by apply Add_sorted.
  - by rewrite Modify_None.
Qed.

Lemma Get_Modify (f : A -> A) xs k k' :
  sorted xs -> (forall x, Get xs k = Some x -> key (f x) = k) ->
  Get (Modify f xs k) k' = if decide (k' = k) then f <$> Get xs k else Get xs k'.
Proof.
  intros Hs Hf. destruct (Get xs k) as [x|] eqn:Hg.
  - rewrite (Modify_Add f xs k x) by auto. rewrite Get_Add by done.
    rewrite (Hf x) by done. done.
  - rewrite Modify_None by done. case_decide; [by subst|done].
Qed.

Lemma elem_of_Modify (f : A -> A) xs k y :
  sorted xs -> (forall x, Get xs k = Some x -> key (f x) = k) ->
  y ∈ Modify f xs k <-> (exists x, Get xs k = Some x /\ y = f x) \/ (y ∈ xs /\ key y <> k).
Proof.
  intros Hs Hf. destruct (Get xs k) as [x|] eqn:Hg.
  - rewrite (Modify_Add f xs k x), elem_of_Add, (Hf x) by auto. naive_solver.
  - rewrite Modify_None by done. apply Get_None in Hg; [|done].
    split; [|naive_solver]. intros Hy. right. split; [done|].
    intros <-. apply Hg. by apply list_elem_of_fmap_2.
Qed.

Lemma sum_of_Modify (w : A -> Z) (f : A -> A) xs k x :
  sorted xs -> Get xs k = Some x ->
  sum_of w (Modify f xs k) = sum_of w xs - w x + w (f x).
Proof.
  intros Hs Hg. destruct (Modify_cases f xs k Hs) as [(i & y & Hi & _ & Hg' & ->)|[? _]];
    [|congruence].
  assert (y = x) as -> by congruence. by apply sum_of_insert.
Qed.

Lemma sum_of_Add_new (w : A -> Z) xs b :
  sorted xs -> Get xs (key b) = None -> sum_of w (Add xs b) = sum_of w xs + w b.
Proof. intros Hs Hn. rewrite Add_perm_new by done. simpl. lia. Qed.

Lemma sum_of_Remove (w : A -> Z) xs k x :
  sorted xs -> Get xs k = Some x -> sum_of w (Remove xs k) = sum_of w xs - w x.
Proof. intros Hs Hg. rewrite (Remove_perm xs k x Hs Hg) at 2. simpl. lia. Qed.

(** *** Sorting *)

Lemma sift_perm x acc : sift x acc ≡ₚ x :: acc.
Proof.
  induction acc as [|y t IH]; simpl; [done|]. destruct (_ <=? _); [|done].
  rewrite IH. apply Permutation_swap.
Qed.

Lemma SliceStable_perm xs : SliceStable xs ≡ₚ xs.
Proof.
  unfold SliceStable. rewrite reverse_Permutation.
  enough (forall acc, foldl (fun acc x => sift x acc) acc xs ≡ₚ acc ++ xs) as Hx by apply Hx.
  induction xs as [|x xs IH]; intros acc; simpl; [by rewrite app_nil_r|].
  rewrite IH, sift_perm. by rewrite <- Permutation_middle.
Qed.

Lemma sift_greatest x acc : Forall (fun y => key y < key x) acc -> sift x acc = x :: acc.
Proof.
  intros Hall. destruct acc as [|y t]; simpl; [done|].
  inversion Hall; subst. by replace (key x <=? key y) with false by lia.
Qed.

Lemma SliceStable_id xs : sorted xs -> SliceStable xs = xs.
Proof.
  unfold SliceStable. intros Hs.
  enough (forall acc, sorted (reverse acc ++ xs) ->
    foldl (fun acc x => sift x acc) acc xs = reverse xs ++ acc) as Hx.
  { rewrite Hx by done. by rewrite app_nil_r, reverse_involutive. }
  clear Hs. induction xs as [|x xs IH]; intros acc Hs; simpl; [done|].
  rewrite sift_greatest.
  - rewrite IH; [by rewrite reverse_cons, <- app_assoc|].
    rewrite reverse_cons, <- app_assoc. done.
  - apply sorted_app in Hs as (_ & _ & Hs). apply Forall_forall. intros y Hy.
    apply Hs; [by rewrite elem_of_reverse|by left].
Qed.

(** The reversed accumulator of the sort is strictly decreasing. *)
Lemma sift_sorted x acc :
  StronglySorted (fun a b => key b < key a) acc -> key x ∉ (key <$> acc) ->
  StronglySorted (fun a b => key b < key a) (sift x acc).
Proof.
  induction 1 as [|y t Hs IH Hall]; simpl; intros Hni; [repeat constructor|].
  rewrite elem_of_cons in Hni. rewrite Forall_forall in Hall.
  destruct (Z.leb_spec (key x) (key y)).
  - constructor; [apply IH; tauto|]. apply Forall_forall. intros z. rewrite sift_perm.
    intros [->|Hz]%elem_of_cons; [|auto]. assert (key x <> key y) by tauto. lia.
  - constructor; [by constructor; [|apply Forall_forall]|]. apply Forall_forall.
    intros z [->|Hz]%elem_of_cons; [done|]. specialize (Hall z Hz). lia.
Qed.

Lemma SliceStable_sorted xs : NoDup (key <$> xs) -> sorted (SliceStable xs).
Proof.
  intros Hnd. unfold SliceStable, sorted.
  enough (forall acc, StronglySorted (fun a b => key b < key a) acc ->
    NoDup (key <$> (acc ++ xs)) ->
    StronglySorted (fun a b => key b < key a) (foldl (fun acc x => sift x acc) acc xs)) as Hx.
  { specialize (Hx [] ltac:(constructor) Hnd). revert Hx.
    generalize (foldl (fun acc x => sift x acc) [] xs). intros l Hl.
    induction Hl as [|a l Hl IH Hall]; [constructor|]. rewrite reverse_cons.
    rewrite Forall_forall in Hall.
    apply sorted_app. split_and!; [done|repeat constructor|].
    intros x y Hx ->%list_elem_of_singleton. apply Hall. by rewrite <- elem_of_reverse. }
  clear Hnd. induction xs as [|x xs IH]; intros acc Hs Hnd; simpl; [done|].
  apply IH.
  - apply sift_sorted; [done|]. rewrite fmap_app in Hnd.
    apply NoDup_app in Hnd as (_ & Hd & _). intros Hin. apply (Hd _ Hin). by left.
  - rewrite sift_perm. by rewrite <- Permutation_middle in Hnd.
Qed.
End Theory.

#[export] Hint Resolve sorted_nil Add_sorted Remove_sorted : keyed.
#[export] Hint Rewrite @SliceStable_id using (eauto with keyed) : keyed.

Lemma sift_by_perm {A} (less : A -> A -> bool) x l : sift_by less x l ≡ₚ x :: l.
Proof.
  induction l as [|y l IH]; simpl; [done|]. destruct (less x y); [|done].
  rewrite IH. apply Permutation_swap.
Qed.

Lemma sort_by_perm {A} (less : A -> A -> bool) l : sort_by less l ≡ₚ l.
Proof.
  unfold sort_by. rewrite reverse_Permutation.
  enough (forall acc, foldl (fun p x => sift_by less x p) acc l ≡ₚ acc ++ l) as E;
    [by rewrite E|].
  induction l as [|x l IH]; intros acc; simpl; [by rewrite app_nil_r|].
  rewrite IH, sift_by_perm. apply Permutation_middle.
Qed.

Section Extensionality.
Context {A : Type} `{Keyed A}.

Lemma sorted_ext (xs ys : list A) :
  sorted xs -> sorted ys -> (forall k, Get xs k = Get ys k) -> xs = ys.
Proof.
  intros Hx Hy Hg.
  assert (AntiSymm (=) (fun a b : A => key a < key b)) by (intros ???; lia).
  apply (StronglySorted_unique (fun a b : A => key a < key b)); [done..|].
  apply NoDup_Permutation.
  - by eapply NoDup_fmap_1, sorted_nodup_keys.
  - by eapply NoDup_fmap_1, sorted_nodup_keys.
  - intros x. specialize (Hg (key x)). split; intros Hin.
    + assert (Get xs (key x) = Some x) as E by by apply Get_Some.
      rewrite Hg in E. by apply Get_Some in E as [? _].
    + assert (Get ys (key x) = Some x) as E by by apply Get_Some.
      rewrite <- Hg in E. by apply Get_Some in E as [? _].
Qed.

(** Writing an element is removing it and adding the new one. *)
Lemma Modify_Remove_Add (xs : list A) k x x' :
  sorted xs -> Get xs k = Some x -> key x' = k ->
  Modify (fun _ => x') xs k = Add (Remove xs k) x'.
Proof.
  intros Hs Hg Hk. pose proof (Remove_sorted xs k Hs) as Hr. apply sorted_ext.
  - by apply Modify_sorted.
  - by apply Add_sorted.
  - intros k'. rewrite Get_Modify, Get_Add, Get_Remove, Hg, Hk by done.
    by destruct (decide (k' = k)).
Qed.
Lemma Modify_const (f : A -> A) (xs : list A) k x :
  sorted xs -> Get xs k = Some x -> Modify f xs k = Modify (fun _ => f x) xs k.
Proof.
  intros Hs Hg.
  destruct (Modify_cases f xs k Hs) as [(i & y & Hi & _ & Hy & ->)|[? _]]; [|congruence].
  destruct (Modify_cases (fun _ => f x) xs k Hs) as [(j & z & Hj & _ & Hz & ->)|[? _]];
    [|congruence].
  assert (y = x) as -> by congruence. assert (z = x) as -> by congruence.
  assert (i = j) as ->; [|done].
  destruct (decide (i < j)%nat) as [Hij|].
  { pose proof (sorted_lookup_lt _ _ _ _ _ Hs Hi Hj Hij). lia. }
  destruct (decide (j < i)%nat) as [Hji|]; [|lia].
  pose proof (sorted_lookup_lt _ _ _ _ _ Hs Hj Hi Hji). lia.
Qed.

Lemma Remove_Modify (f : A -> A) (xs : list A) k :
  sorted xs -> (forall x, Get xs k = Some x -> key (f x) = k) ->
  Remove (Modify f xs k) k = Remove xs k.
Proof.
  intros Hs Hf. pose proof (Modify_sorted f xs k Hs Hf) as Hs1. apply sorted_ext.
  - by apply Remove_sorted.
  - by apply Remove_sorted.
  - intros k'. rewrite !Get_Remove, Get_Modify by done. by destruct (decide (k' = k)).
Qed.

Lemma Modify_Modify (f g : A -> A) (xs : list A) k :
  sorted xs -> (forall x, key (f x) = key x) -> (forall x, key (g x) = key x) ->
  Modify g (Modify f xs k) k = Modify (fun x => g (f x)) xs k.
Proof.
  intros Hs Hf Hg.
  assert (forall h, (forall x, key (h x) = key x) -> forall x, Get xs k = Some x -> key (h x) = k)
    as Hk. { intros h Hh x [_ <-]%Get_Some; [|done]. apply Hh. }
  assert (forall x, Get (Modify f xs k) k = Some x -> key (g x) = k) as Hk2.
  { intros x. rewrite Get_Modify, decide_True by eauto. intros (y & Hy & ->)%fmap_Some_1.
    rewrite Hg. eauto. }
  assert (forall x, key (g (f x)) = key x) as Hgf by (intros x; by rewrite Hg).
  pose proof (Modify_sorted f xs k Hs (Hk f Hf)) as Hs1.
  apply sorted_ext.
  - by apply Modify_sorted.
  - apply Modify_sorted; [done|]. by apply (Hk (fun x => g (f x))).
  - intros k'. rewrite !Get_Modify; try done; [|by apply (Hk (fun x => g (f x)))|by apply Hk..].
    destruct (decide (k' = k)); [|done]. rewrite decide_True by done.
    by destruct (Get xs k).
Qed.

Lemma Modify_ext (f g : A -> A) (xs : list A) k :
  (forall x, f x = g x) -> Modify f xs k = Modify g xs k.
Proof.
  intros Hfg. unfold Modify. destruct (indexOf xs k) as [i j]. case_match; [|done].
  by apply list_alter_ext.
Qed.

Lemma Remove_Modify_ne (f : A -> A) (xs : list A) k k' :
  sorted xs -> k <> k' -> (forall x, Get xs k = Some x -> key (f x) = k) ->
  Remove (Modify f xs k) k' = Modify f (Remove xs k') k.
Proof.
  intros Hs Hne Hf.
  assert (forall x, Get (Remove xs k') k = Some x -> key (f x) = k) as Hf'.
  { intros x. rewrite Get_Remove by done. case_decide; [done|]. apply Hf. }
  pose proof (Modify_sorted f xs k Hs Hf). pose proof (Remove_sorted xs k' Hs). apply sorted_ext.
  - by apply Remove_sorted.
  - by apply Modify_sorted.
  - intros i. rewrite Get_Remove, !Get_Modify, !Get_Remove by done.
    repeat case_decide; congruence.
Qed.

(** *** Filters *)

Lemma sorted_filter (P : A -> Prop) `{forall x, Decision (P x)} (xs : list A) :
  sorted xs -> sorted (filter P xs).
Proof.
  unfold sorted. induction 1 as [|x xs Hs IH Hall]; [constructor|].
  rewrite filter_cons. case_decide; [|done]. constructor; [done|].
  rewrite Forall_forall in *. intros y [_ Hy]%list_elem_of_filter. auto.
Qed.

Lemma sorted_Removes (ks : list Z) (xs : list A) : sorted xs -> sorted (foldl Remove xs ks).
Proof.
  revert xs. induction ks as [|k ks IH]; intros xs Hs; [done|]. by apply IH, Remove_sorted.
Qed.

Lemma elem_of_Removes (ks : list Z) (xs : list A) x :
  sorted xs -> x ∈ foldl Remove xs ks <-> x ∈ xs /\ key x ∉ ks.
Proof.
  revert xs. induction ks as [|k ks IH]; intros xs Hs; simpl; [set_solver|].
  rewrite IH by by apply Remove_sorted. rewrite elem_of_Remove by done.
  rewrite not_elem_of_cons. naive_solver.
Qed.

(** Removing the elements to drop one after the other is a filter. *)
Lemma Removes_filter (P : A -> Prop) `{forall x, Decision (P x)} (xs : list A) :
  sorted xs -> foldl Remove xs (key <$> filter P xs) = filter (fun x => ~ P x) xs.
Proof.
  intros Hs. pose proof (sorted_Removes (key <$> filter P xs) xs Hs) as Hr.
  pose proof (sorted_filter (fun x => ~ P x) xs Hs) as Hf.
  apply sorted_ext; [done|done|]. intros k. apply option_eq. intros x.
  rewrite !Get_Some, elem_of_Removes, list_elem_of_filter by done.
  split; [|intros [[HP Hin] <-]; split_and!; try done].
  - intros [[Hin Hk] <-]. split_and!; try done. intros HP. apply Hk.
    apply list_elem_of_fmap. exists x. by rewrite list_elem_of_filter.
  - intros (y & Hy & [HPy Hiny]%list_elem_of_filter)%list_elem_of_fmap.
    by rewrite (sorted_elem_inj xs x y) in HP.
Qed.
End Extensionality.

(** On a slice that is strictly sorted by key, the list operations are
    those of a finite map: [Get] looks up, [Exist] tests, [Add] inserts or
    replaces and [Remove] deletes exactly the given key, the result is again
    strictly sorted, and sorting it anew, as is done when it is read back from
    the state, changes nothing. *)
Theorem keyed_list_refines_map {A} `{Keyed A} (xs : list A) (k : Z) (b : A) :
  sorted xs ->
  Get xs k = to_map xs !! k /\ Exist xs k = bool_decide (is_Some (to_map xs !! k)) /\
  to_map (Add xs b) = <[key b := b]> (to_map xs) /\ sorted (Add xs b) /\
  to_map (Remove xs k) = delete k (to_map xs) /\ sorted (Remove xs k) /\
  SliceStable (Add xs b) = Add xs b /\ SliceStable (Remove xs k) = Remove xs k.
Proof.
  intros Hs. rewrite Exist_Get, Get_refines by done.
  pose proof (Add_sorted xs b Hs). pose proof (Remove_sorted xs k Hs).
  split_and!; auto using Add_refines, Remove_refines, SliceStable_id.
Qed.

#[local] Instance keyed_pair : Keyed (Z * string) := fst.

Lemma keyed_list_refines_map_witness :
  let xs := [(2, "two"); (5, "five"); (9, "nine")] in
  Get xs 5 = Some (5, "five") /\
  to_map (Add xs (7, "seven")) = <[7 := (7, "seven")]> (to_map xs) /\
  Add xs (7, "seven") = [(2, "two"); (5, "five"); (7, "seven"); (9, "nine")].
Proof.
  intros xs. split; [vm_compute; reflexivity|]. split; [|vm_compute; reflexivity].
  destruct (keyed_list_refines_map xs 5 (7, "seven")) as (_ & _ & Ha & _); [|exact Ha].
  unfold sorted. repeat constructor.
Defined.
