(* ===== verification/ChainParam.v ===== *)
(** * Chain parameters

    The network selector and hard-fork switches of [meter/chain_param.go], the
    constants of [meter/params.go] and [meter/staking_params.go], and the lock
    options of a staking bucket. *)

From S2P Require Import Prelude.

(** ** Addresses and hashes

    An [Address] (20 bytes) and a [Bytes32] are the numbers their bytes spell
    in big-endian order; the zero value is 0. *)

Definition Address := Z.
Definition Bytes32 := Z.

Definition IsZero (a : Z) : bool := a =? 0.

(** The big-endian number of a byte string, cropped from the left. *)
Fixpoint bytes_value (acc : Z) (s : string) : Z :=
  match s with
  | EmptyString => acc
  | String c s => bytes_value (acc * 256 + Z.of_N (Ascii.N_of_ascii c)) s
  end.

Definition BytesToAddress (s : string) : Address := bytes_value 0 s mod 2 ^ 160.

Definition AccountLockModuleAddr : Address := BytesToAddress "account-lock-address".
Definition AuctionModuleAddr : Address := BytesToAddress "auction-account-address".
Definition StakingModuleAddr : Address := BytesToAddress "staking-module-address".
Definition ValidatorBenefitAddr : Address := BytesToAddress "validator-benefit-address".
Definition AuctionLeftOverAccount : Address := 0xe852f654dfaee0e2b60842657379a56e1cafa292.
Definition ZeroAddress : Address := 0.

Definition MTR : Z := 0.
Definition MTRG : Z := 1.

Definition BaseTxGas : Z := 21000.
Definition TxGas : Z := 5000.
Definition ClauseGas : Z := BaseTxGas - TxGas.

(** ** Networks and forks *)

Module ChainConfig.
Record t := mk { ChainFlag : string; Initialized : bool }.

Definition IsMainnet (c : t) : bool :=
  if negb (Initialized c) then false
  else if (ChainFlag c =? "main")%string then true
  else if (ChainFlag c =? "staging")%string then true
  else false.

Definition IsStaging (c : t) : bool :=
  if negb (Initialized c) then false else (ChainFlag c =? "staging")%string.

Definition IsTestnet (c : t) : bool :=
  if negb (Initialized c) then false
  else if (ChainFlag c =? "test")%string then true
  else if (ChainFlag c =? "warringstakes")%string then true
  else false.

Definition InitBlockChainConfig (chainFlag : string) : t := mk chainFlag true.
End ChainConfig.

(** The process-wide [BlockChainConfig]. *)
Class BlockChain : Type := BlockChainConfig : ChainConfig.t.

Section Forks.
Context `{BlockChain}.

Definition IsMainNet : bool := ChainConfig.IsMainnet BlockChainConfig.
Definition IsTestNet : bool := ChainConfig.IsTestnet BlockChainConfig.
Definition IsStaging : bool := ChainConfig.IsStaging BlockChainConfig.

(** Every fork test after Tesla itself has this shape: past the start number
    of the network the node runs on. *)
Definition after_fork (mainnetStart testnetStart blockNum : Z) : bool :=
  (IsMainNet && (mainnetStart <? blockNum)) || (IsTestNet && (testnetStart <? blockNum)).

Definition IsTesla (blockNum : Z) : bool :=
  (IsMainNet && (9470000 <? blockNum)) || (IsTestNet && (0 <=? blockNum)).
Definition IsTeslaFork1 (blockNum : Z) : bool := after_fork 9680000 0 blockNum.
Definition IsTeslaFork2 (blockNum : Z) : bool := after_fork 10382000 682000 blockNum.
Definition IsTeslaFork3 (blockNum : Z) : bool := after_fork 14875500 4220000 blockNum.
Definition IsTeslaFork4 (blockNum : Z) : bool := after_fork 15138000 4932000 blockNum.
Definition IsTeslaFork5 (blockNum : Z) : bool := after_fork 25650000 4932000 blockNum.
Definition IsTeslaFork6 (blockNum : Z) : bool := after_fork 33023000 25836347 blockNum.
Definition IsTeslaFork7 (blockNum : Z) : bool := after_fork 33274000 25836347 blockNum.
Definition IsTeslaFork8 (blockNum : Z) : bool := after_fork 34975000 27902500 blockNum.
Definition IsTeslaFork9 (blockNum : Z) : bool := after_fork 36427000 31556000 blockNum.
Definition IsTeslaFork10 (blockNum : Z) : bool := after_fork 40093000 36782600 blockNum.
Definition IsTeslaFork11 (blockNum : Z) : bool := after_fork 51786600 55245500 blockNum.
Definition IsTeslaFork12 (blockNum : Z) : bool := after_fork 74769000 75867200 blockNum.
Definition IsTeslaFork13 (blockNum : Z) : bool := after_fork 74838000 99999999 blockNum.
Definition IsTeslaFork14 (blockNum : Z) : bool := after_fork 95627400 99056000 blockNum.

(** The forks in the order they were introduced. *)
Definition fork_schedule : list (Z -> bool) :=
  [IsTesla; IsTeslaFork1; IsTeslaFork2; IsTeslaFork3; IsTeslaFork4; IsTeslaFork5;
   IsTeslaFork6; IsTeslaFork7; IsTeslaFork8; IsTeslaFork9; IsTeslaFork10;
   IsTeslaFork11; IsTeslaFork12].

Lemma after_fork_mono m t m' t' n :
  m <= m' -> t <= t' -> after_fork m' t' n = true -> after_fork m t n = true.
Proof. unfold after_fork. destruct IsMainNet, IsTestNet; lia. Qed.

Lemma fork9_fork5 n : IsTeslaFork9 n = true -> IsTeslaFork5 n = true.
Proof. apply after_fork_mono; lia. Qed.

Lemma fork9_fork6 n : IsTeslaFork9 n = true -> IsTeslaFork6 n = true.
Proof. apply after_fork_mono; lia. Qed.

Lemma fork9_fork7 n : IsTeslaFork9 n = true -> IsTeslaFork7 n = true.
Proof. apply after_fork_mono; lia. Qed.

Lemma fork9_fork8 n : IsTeslaFork9 n = true -> IsTeslaFork8 n = true.
Proof. apply after_fork_mono; lia. Qed.

Lemma fork13_fork9 n : IsTeslaFork13 n = true -> IsTeslaFork9 n = true.
Proof. apply after_fork_mono; lia. Qed.

Lemma Tesla_after_fork n : IsTeslaFork1 n = true -> IsTesla n = true.
Proof. unfold IsTeslaFork1, after_fork, IsTesla. destruct IsMainNet, IsTestNet; lia. Qed.

Lemma schedule_sorted :
  StronglySorted (fun f g : Z -> bool => forall n, g n = true -> f n = true) fork_schedule.
Proof.
  unfold fork_schedule. constructor.
  - repeat (constructor; [|repeat constructor; intros n; by apply after_fork_mono]). constructor.
  - repeat constructor; intros n Hf; apply Tesla_after_fork; revert Hf; by apply after_fork_mono.
Qed.

Lemma schedule_mono f n m : f ∈ fork_schedule -> n <= m -> f n = true -> f m = true.
Proof.
  intros Hf Hn. unfold fork_schedule in Hf.
  repeat (apply elem_of_cons in Hf as [->|Hf]; [unfold IsTesla, IsTeslaFork1, IsTeslaFork2,
    IsTeslaFork3, IsTeslaFork4, IsTeslaFork5, IsTeslaFork6, IsTeslaFork7, IsTeslaFork8,
    IsTeslaFork9, IsTeslaFork10, IsTeslaFork11, IsTeslaFork12, after_fork; lia|]).
  by apply not_elem_of_nil in Hf.
Qed.
End Forks.

Lemma sorted_lookup {A} (R : A -> A -> Prop) (l : list A) i j x y :
  StronglySorted R l -> l !! i = Some x -> l !! j = Some y -> (i < j)%nat -> R x y.
Proof.
  intros Hs. revert i j. induction Hs as [|a l Hs IH Hall]; intros i j Hi Hj Hij; [done|].
  destruct j as [|j]; [lia|]. destruct i as [|i]; simpl in *.
  - simplify_eq. rewrite Forall_forall in Hall. apply Hall. by eapply list_elem_of_lookup_2.
  - apply (IH i j); done || lia.
Qed.

(** On every network the forks from Tesla to fork 12 take effect in order
    and for good: where a fork is active the earlier ones are, and it stays
    active in every later block. *)
Theorem forks_in_order `{BlockChain} i j f g n m :
  fork_schedule !! i = Some f -> fork_schedule !! j = Some g -> (i < j)%nat -> n <= m ->
  g n = true -> f n = true /\ g m = true.
Proof.
  intros Hf Hg Hij Hn Hgn. split; [|by apply (schedule_mono g n m); [eapply list_elem_of_lookup_2|..]].
  by apply (sorted_lookup _ _ i j f g schedule_sorted Hf Hg Hij).
Qed.

Lemma forks_in_order_witness :
  let chain := ChainConfig.mk "test" true in
  @IsTeslaFork5 chain 31556001 = true /\ @IsTeslaFork9 chain 40000000 = true.
Proof.
  intros chain.
  apply (@forks_in_order chain 5 9 (@IsTeslaFork5 chain) (@IsTeslaFork9 chain) 31556001 40000000);
    [reflexivity|reflexivity|lia|lia|reflexivity].
Defined.

(** ** Staking parameters *)

Definition MIN_CANDIDATE_UPDATE_INTV : Z := 3600 * 24.
Definition TESLA1_0_SELF_VOTE_RATIO : Z := 10.
Definition TESLA1_1_SELF_VOTE_RATIO : Z := 100.

Definition e18 : Z := 10 ^ 18.
Definition MIN_BOUND_BALANCE : Z := 100 * e18.
Definition MIN_REQUIRED_BY_DELEGATE : Z := 2000 * e18.
Definition BAIL_FOR_EXIT_JAIL : Z := 10 * e18.

Definition BUCKET_ADD_OPT : Z := 0.
Definition BUCKET_SUB_OPT : Z := 1.

Definition ONE_DAY_LOCK : Z := 0.
Definition ONE_WEEK_LOCK : Z := 1.
Definition TWO_WEEK_LOCK : Z := 2.
Definition THREE_WEEK_LOCK : Z := 3.
Definition FOUR_WEEK_LOCK : Z := 4.
Definition FOREVER_LOCK : Z := 1000.

Definition day : Z := 60 * 60 * 24.

(** The chosen lock option, its bonus rate in percent and its lock time. *)
Definition GetBoundLockOption (chose : Z) : Z * Z * Z :=
  if chose =? ONE_DAY_LOCK then (ONE_DAY_LOCK, 0, day)
  else if chose =? ONE_WEEK_LOCK then (ONE_WEEK_LOCK, 5, day * 7)
  else if chose =? TWO_WEEK_LOCK then (TWO_WEEK_LOCK, 6, day * 14)
  else if chose =? THREE_WEEK_LOCK then (THREE_WEEK_LOCK, 7, day * 21)
  else if chose =? FOUR_WEEK_LOCK then (FOUR_WEEK_LOCK, 8, day * 28)
  else if chose =? FOREVER_LOCK then (FOREVER_LOCK, 5, 0)
  else (ONE_DAY_LOCK, 0, day).

Definition GetBoundLocktime (opt : Z) : Z :=
  if opt =? ONE_DAY_LOCK then day
  else if opt =? ONE_WEEK_LOCK then day * 7
  else if opt =? TWO_WEEK_LOCK then day * 14
  else if opt =? THREE_WEEK_LOCK then day * 21
  else if opt =? FOUR_WEEK_LOCK then day * 28
  else if opt =? FOREVER_LOCK then 0
  else day.

Definition COMMISSION_RATE_MAX : Z := 100 * 10 ^ 7.
Definition COMMISSION_RATE_MIN : Z := 1 * 10 ^ 7.
Definition COMMISSION_RATE_DEFAULT : Z := 10 * 10 ^ 7.

Definition GetCommissionRate (opt : Z) : Z :=
  let commission := u64 opt in
  if (COMMISSION_RATE_MAX <? commission) || (commission <? COMMISSION_RATE_MIN)
  then COMMISSION_RATE_DEFAULT else commission.

Lemma GetBoundLockOption_locktime chose :
  let '(opt, rate, lock) := GetBoundLockOption chose in
  GetBoundLocktime opt = lock /\ 0 <= rate <= 8 /\ 0 <= lock <= day * 28 /\
  (lock = 0 <-> chose = FOREVER_LOCK).
Proof.
  unfold GetBoundLockOption, GetBoundLocktime, day, ONE_DAY_LOCK, ONE_WEEK_LOCK, TWO_WEEK_LOCK,
    THREE_WEEK_LOCK, FOUR_WEEK_LOCK, FOREVER_LOCK in *.
  repeat match goal with |- context [?a =? ?b] => destruct (Z.eqb_spec a b) end;
    subst; simpl; lia.
Qed.

Lemma GetCommissionRate_range opt :
  COMMISSION_RATE_MIN <= GetCommissionRate opt <= COMMISSION_RATE_MAX.
Proof.
  unfold GetCommissionRate, COMMISSION_RATE_MIN, COMMISSION_RATE_MAX, COMMISSION_RATE_DEFAULT.
  destruct ((_ <? _) || (_ <? _)) eqn:E; lia.
Qed.
