(* ===== verification/ForkData.v ===== *)
(** * Tables of the fork corrections

    The buckets corrected at fork 1 ([script/script_tesla.go]) and the accounts
    whose supply records are gathered at fork 8 ([meter/fork8_params.go]).  The
    text of the tables is parsed: an address or hash is its number. *)

From S2P Require Import Prelude ChainParam.

(** Bucket, owner and amount. *)
Definition TeslaFork_1_1_Correction : list (Bytes32 * Address * Z) :=
  [(0x5703b719f6e5d57962f92da1e8ad9c45b59457c079f5b6ed2df76a915888569b,
    0x1ce46b7bf47e144e3aa0203e5de1395e85fce087, 78000);
   (0x5703b719f6e5d57962f92da1e8ad9c45b59457c079f5b6ed2df76a915888569b,
    0x1ce46b7bf47e144e3aa0203e5de1395e85fce087, 78000);
   (0x5703b719f6e5d57962f92da1e8ad9c45b59457c079f5b6ed2df76a915888569b,
    0x1ce46b7bf47e144e3aa0203e5de1395e85fce087, 78423);
   (0x5703b719f6e5d57962f92da1e8ad9c45b59457c079f5b6ed2df76a915888569b,
    0x1ce46b7bf47e144e3aa0203e5de1395e85fce087, 78000);
   (0x8bf74bfc7021e2dbd205a0d87388cf3f3c7521248ffdb4044a76a506c7fea5f0,
    0x16fb7dc58954fc1fa65318b752fc91f2824115b6, 2000);
   (0x5703b719f6e5d57962f92da1e8ad9c45b59457c079f5b6ed2df76a915888569b,
    0x1ce46b7bf47e144e3aa0203e5de1395e85fce087, 2000);
   (0x285dfdd2dd03c5b064cb9b189fa9d9d2c5ae75dbf782e2bad2ce55aa6a9caa17,
    0xa13e81b67938821e0df2d7057f0d1345a1ed7253, 12);
   (0x8231c3fe911c22334628690ec47ecc1b0143b5402de32c444d37f1637bb9bc5c,
    0xce0fb318f31afb6d616ec58f8fa9c1aae206f4a8, 129);
   (0x14f4085a3171fc649e7cb397e86eaaf61b549974a56456874a621c1bf88f944e,
    0xdf33800a566f993ea50c409a5d85b7170b60c0fd, 50);
   (0xfc99c5d451adafdf87aa426e4bf902072c91f39b25ea4b123771cf1f12f76032,
    0xe2aa22be6d1c042bbbbc96f9284ef48750627a4d, 20);
   (0x3e0df027ebe98051f11e3b5684ed174e00024a83c757e994c856ef86c8faf796,
    0xf2c4b0b9c08cd870ec11636d5e028424b6796b12, 395);
   (0xfc99c5d451adafdf87aa426e4bf902072c91f39b25ea4b123771cf1f12f76032,
    0xe2aa22be6d1c042bbbbc96f9284ef48750627a4d, 20);
   (0xa21f2d103ac2d873d2ac023fe2431ea102ac921aab63c029e8be13a7c0d23130,
    0x0f8684f6dc76617d6831b4546381eb6cfb1c559f, 13900);
   (0x285dfdd2dd03c5b064cb9b189fa9d9d2c5ae75dbf782e2bad2ce55aa6a9caa17,
    0xa13e81b67938821e0df2d7057f0d1345a1ed7253, 12);
   (0xa21f2d103ac2d873d2ac023fe2431ea102ac921aab63c029e8be13a7c0d23130,
    0x0f8684f6dc76617d6831b4546381eb6cfb1c559f, 13900);
   (0x285dfdd2dd03c5b064cb9b189fa9d9d2c5ae75dbf782e2bad2ce55aa6a9caa17,
    0xa13e81b67938821e0df2d7057f0d1345a1ed7253, 12);
   (0xa21f2d103ac2d873d2ac023fe2431ea102ac921aab63c029e8be13a7c0d23130,
    0x0f8684f6dc76617d6831b4546381eb6cfb1c559f, 100);
   (0xdab0fbcd5d66bbd4fb974e82e173dbecde327e170c2281bcb58e8707e9736d71,
    0x353fdd79dd9a6fbc70a59178d602ad1f020ea52f, 3000);
   (0xfc99c5d451adafdf87aa426e4bf902072c91f39b25ea4b123771cf1f12f76032,
    0xe2aa22be6d1c042bbbbc96f9284ef48750627a4d, 20);
   (0x9994d436d8c8a9ac0729d4bbd04dea6d22abbe688fe29b6f8a53a390905fb9fc,
    0x8cddd94f4ff868111b4fed54d149a791e91099fb, 88);
   (0x9994d436d8c8a9ac0729d4bbd04dea6d22abbe688fe29b6f8a53a390905fb9fc,
    0x8cddd94f4ff868111b4fed54d149a791e91099fb, 105);
   (0x3d66e24ebfe0323633a94b0fa587892f14459338958dbdecd632bbbbd4a1f29d,
    0xbf85ef4216340eb5cd3c57b550aae7a2712d48d2, 1);
   (0x3d66e24ebfe0323633a94b0fa587892f14459338958dbdecd632bbbbd4a1f29d,
    0xbf85ef4216340eb5cd3c57b550aae7a2712d48d2, 1000000000000000000);
   (0xea65a1fd67b511fefc4ed08e2fd52c02525617dca80b92895603fe95b5fe4cc8,
    0x5bfef0997ce0ea62cb29fffb28ad2e187e51af26, 100);
   (0x285dfdd2dd03c5b064cb9b189fa9d9d2c5ae75dbf782e2bad2ce55aa6a9caa17,
    0xa13e81b67938821e0df2d7057f0d1345a1ed7253, 12);
   (0xa21f2d103ac2d873d2ac023fe2431ea102ac921aab63c029e8be13a7c0d23130,
    0x0f8684f6dc76617d6831b4546381eb6cfb1c559f, 13900);
   (0x8f2d5c6e22dece3782bf59b0025bac2e4c083770ff5f56df1c924df2bf04c5f8,
    0x848ec68f3221ee18a85e7117a1deb2f8c74e5795, 7784);
   (0x8f2d5c6e22dece3782bf59b0025bac2e4c083770ff5f56df1c924df2bf04c5f8,
    0x848ec68f3221ee18a85e7117a1deb2f8c74e5795, 7784);
   (0xa21f2d103ac2d873d2ac023fe2431ea102ac921aab63c029e8be13a7c0d23130,
    0x0f8684f6dc76617d6831b4546381eb6cfb1c559f, 1000);
   (0xaa43da1be521ed86dee4a0aa8a697b5ad61561456b16616093c038d88bf0c2c2,
    0xc885536c2b688859c13505f2f076bdfec204a880, 11);
   (0xdfe33278c1fe11f943db9b8cc6367c377fd52b41fc1c5ebb28f00e07da8346dd,
    0x71cd50ba682de704fa0010a2da238fddbc958697, 4000000000000000000);
   (0x5703b719f6e5d57962f92da1e8ad9c45b59457c079f5b6ed2df76a915888569b,
    0x1ce46b7bf47e144e3aa0203e5de1395e85fce087, 36000000000000000000);
   (0x562dc8d8a27da3b29ecec89b8cb4b4d18854f7f6c7c37b8dc4451607ca025bc5,
    0xfb00059194cc3810e87adfa810e61bd61543a2c6, 977021483000000000000);
   (0x5703b719f6e5d57962f92da1e8ad9c45b59457c079f5b6ed2df76a915888569b,
    0x1ce46b7bf47e144e3aa0203e5de1395e85fce087, 80000000000000000000000);
   (0x13a75bb68592621eb1ba66c48107efaee2f40a1da7b531e0a021bf70de7c798e,
    0xf6959e47b94c82b93867fc876b4c99f37e496897, 6000000000000000000);
   (0xdfe33278c1fe11f943db9b8cc6367c377fd52b41fc1c5ebb28f00e07da8346dd,
    0x71cd50ba682de704fa0010a2da238fddbc958697, 4000000000000000000);
   (0x04e26e966a6d4359c46e80d5446dd0a6237c89ccf316b8e9e5bb22f566aa49d4,
    0x27cabef682992686a34e260574594aaf50aec80a, 278);
   (0x04e26e966a6d4359c46e80d5446dd0a6237c89ccf316b8e9e5bb22f566aa49d4,
    0x27cabef682992686a34e260574594aaf50aec80a, 278);
   (0x46a14f30a002647d60441089019706ff7bdca31d1d70c5bdb1719be19e3b8cb3,
    0x7db6ac6fa3c8aa2c6fb9bdcd4800e8baacdd2ee8, 1000000000000000000000);
   (0x46a14f30a002647d60441089019706ff7bdca31d1d70c5bdb1719be19e3b8cb3,
    0x7db6ac6fa3c8aa2c6fb9bdcd4800e8baacdd2ee8, 1000000000000000000000);
   (0x338acce17c0f07c26d6c6355f7a512b80a0e2761783b7cde4a856bb710760881,
    0xbd51fc2e0f304bf33eb532a4f98dcfafba0377b6, 60993377000000000000);
   (0x01a310324e1812cab7bf76521b64cf4c4cfb5a2b9a684066dd058447dd1aa330,
    0x86f22c3eba0ce82f590e82a28d1838c891fc5cd6, 6000000000000000000);
   (0x7e11b8d844a216237b559bcabc18c82ac0c77225c68cc6aee72aee7583a240de,
    0x81fc21bfccf416aa19672ef32cc5144598945664, 1000000000000000000)].

Definition DevAccounts : list Address :=
  [0x7567d83b7b8d80addcb281a71d54fc7b3364ffed; 0xd3ae78222beadb038203be21ed5ce7c9b1bff602;
   0x733b7269443c70de16bbf9b0615307884bcc5636; 0x115eabb4f62973d0dba138ab7df5c0375ec87256;
   0x199b836d8a57365baccd4f371c1fabb7be77d389; 0x5e4efedf3d71232340280d8bc475421352994b63;
   0x29f72dc07224a4c6270407bfd6b8fec559d29f6c; 0x47109a193c49862c89bd76fe2de3585743dd2bb0;
   0xa5e255d4c65af201b97210ff4cd9521a46427654; 0x0489a3fff1930b85f1d73eff8a4699281aadb558].

Definition MTRAddSubAccounts : list Address :=
  [0x48ed07213005e2ef81a2c400f7ef6593d5a0be3d; 0xe2a6a0866f307502bb34a3f5430355047bc67975;
   0xf2df34e2053211f29128e8b692d2822025089fbf; 0xfa9c7149416e8cca36994193b0a341e4e72acb88;
   0x1234b0151e6d294f3a8744c065cbc41c2528fcd2; 0x0a05c2d862ca051010698b69b54278cbaf945ccb;
   0x872f291b99b37d090bd2add53d46e36d80cc77b1; 0xd7374fbdb755eb31a28d61bbc045fa7d82095565;
   0x8d322a634c002eaafa6fb7f2e2166ce693f952a5; 0x1f9f8d59e732372f1d9dad9c7bd4573795056926;
   0xb3dddd23965590ba66c065063d356335134326b2; 0x8012c9818b727d2f119b1dc012c7b5fadbe549f7;
   0x8db97c7cece249c2b98bdc0226cc4c2a57bf52fc; 0xd66b3bcc5cbbf20c49a9467b4fbef8e7fd46d628;
   0xf5fe4e9c5d2e008934cfca559dd61921d3c19184; 0x0205c2d862ca051010698b69b54278cbaf945c0b;
   0x51c7df367d6f5ad2c8410490443215b35fc35b3e; 0x4a65ffe8f563866abe33002a6161c026ef0a5f14;
   0x6666b912fb63068e1465939c46fc6c2e300e0620; 0xcef65d58d09c9c5d39e0bb28f7a4c502322132a5;
   0x769259eff91d99c0194fd02ccedabb0e45875a8d; 0x262c5aa90dad51abf3cfdb83f25578ca10937e83;
   0xd9127060599e86db69c02049638efed74aa47e71; 0x0ab5dda6f096e127af74d4b64a101ac6c43fa128].

Definition MTRGAddSubAccounts : list Address :=
  [0x7c9b6f1ef661e166eb7658fb18f9c4a94e644821; 0xd84c450cfe23e11dfbab852b4dde3b120ae88fd2;
   0x0374f5867ab2effd2277c895e7d1088b10ec9452; 0x3be11a515814f5295723bc6794ece88ae31aa690;
   0x128d0d1bb156054181390c4ad9e30d39942aac57; 0xf2262c6ffcc3d47fa580e4dea0522b3aac9877fe;
   0x129fe481b2e9a8aca0ac01c7361c58cda3191b52; 0x44a635f96cf2d58b5c230264568216df91dea1a5;
   0x38063c0fca288ed7c4986fd5d2ba5f475dd5f8a5; 0xdfd0d78207f61efa88d54140f8d855fc8f078b17;
   0x567821dbcf69fc406ce2f20cc245f62dabe729bf; 0xf84e156263460b85aa04754cbd233cb3700bf206;
   0x618b05602f8dab1cb3da4a845e49bce4d0d921c9; 0x0a8c95bd05505771a78b0daab3ba28cac18a8459;
   0xb15a11842955e9f891b59c0c1ed6e44ca25fa518; 0xb18ce9f418efb94aab45d1d00938d04741a04f79;
   0x1bff4c3eb0aa9fbfb68c8b2633d295fed3ba7354; 0xdbde8ceccb747dfd0d799f70bf2426310173a38b;
   0xdc141a6b8f9caa2c54b06d49a9edc42a3fe8a228; 0xf6b33b143631237df679a954d0f83fa293d716af;
   0xaa502666ede1bfd4400bd582056e90d74feea85f; 0xe763a6e0e1ef8025431d80cc1295cf289d143b5c;
   0x39486406511eb968ad45297a22fcc300d551f0de; 0x22591a660b1cd30b7d65504c1d439d985e5f695c;
   0x56058710c1947b445cb31ac593a785653e2defe7; 0x9f57f9b4303dc455bb85e02989d5da3e8b245838;
   0x4d3b936a466913c295fe24ef7aa1d5a8bba48771; 0xb138a440c5d19061c938276fc078c27e4ae85a3b;
   0xe5b9f9d5980bb19f71eb858164c4e53e8f346a0d; 0x859da443e4cc63d02bf3df7de56000a6cc72a77f;
   0xa40d2d4cf2eff086ba681c8b221d6383cfbd5d41; 0x824fb717b01b624ac0abbdb3519e6936019d1c2e;
   0xf7baa4846df56c922c0d9b364f2bb5a361b6425e; 0x27f8a17128efb4c7db4cd46f66c6c130d8ea7a0a;
   0x56eb57cea026f80f364937bc63e4013984a63efb; 0x85e05bb15d3fc6fb50b54821761eac764cff8716;
   0xdb18738f1f62da79421509b56f6ef7c755112d0d; 0x787c150d14f70ffbb0db0e58cb372dd2997cf02d;
   0xe28be46e08cca3a38b3151a67e59af4e20d97a7a; 0x813df9e9496063e17357318d69dae274558d13c9;
   0x21caa3351430944cb7f31998b0eb199bc2c3112c; 0xce36a6c636ad9511460e80b1751931e1bb4c82aa;
   0xc1047b43383dda14677a80a3a18bb3b4cccea7e1; 0xffae8aca19ef3b950bfafebc62b99200e57c7aa6;
   0xbe5f557c984c19018ed4072cb13bd6809e125f9e; 0x5db9d04adcd95172dec1316fcaaf0809dae1d60f;
   0x855a1a261d4c0f0885370a0a736d1da77998a77b; 0x3da4daad2f23a53546f65df602be6359fb285be1;
   0xd4d3dbbca6c12cc2bc9c0c116c63118d2f663507; 0xaf3c158aa19f751a5204765c120b783097d78dc0;
   0x6d8534944a3bbc558f1fb9f865b9897c57ffdcfe; 0x197c4da05eb4fa5bbb5c4fbe354501138d23f608;
   0x427dbdcc596463bfb1c04cc63d7558afd79e5105; 0x1fc94c42ed185bfdb26881b59f2a2948b3354aba;
   0xb463a6874df1be82d59a32e166424266af76b612; 0x5cd20ca8232536a041c609871335cd8f7a220b9c;
   0x31fd309348067b68a4e8b294ab18307a9c73e155; 0x9e26622cf2e902e06a740fca6ea7f99f8d5f0b3b;
   0x478986ff955a06a78024a91b3f07773dd1d58ce7; 0xeacb638e7a87065adffb3c82abb67b7edab126e6;
   0x99c00993820309abf71a64bdc2aeec2b198703eb; 0x45c7d77703218e35dc7f71e0db90a7605be1a68d;
   0xf71852f0418150ddecd6f3183a021d226ba43596; 0x0b6d1a8c686885bf94436b53aff068bc9d149283;
   0xca473d7f246dd069bd1244081fe2e84eeb495aa5; 0xfb553c445b62d493228ab47a0763e0a413177aac;
   0x9fd3b7d109f0d296bdb491c50b827dc4d231cc9f; 0x7f3193ded79da9bf2dce7c3d7da48f0996facf0f;
   0x504e7d71e685fc0c8db0b19c8c32df2a4c8b357c; 0xaa066a15cc4f60b67f4187acdc66104fce2da0c0;
   0x80336e49eb059eda5143ce9ab6b0b6c75352834d; 0x46c4539205d02b7b8cc0a4630c60629c41a45859;
   0x5e2fe249198128de2d767c9d4b925e4929324801; 0xd5b7a93d6c8e1b17a46fc4c319653945a054bfba;
   0x4e56248a9bda09e72ff30b32b78122a45ff967a0; 0x7d2f04cafbcf027eba3a08587875c6cb25b76bae;
   0x5fdb6709d5c1b74f4e6f74e5d9ea4c0beeec7fce; 0xefee31549ea157d2191edb42956e661284378ed9;
   0xebb86150862250654e8ff50401e30503d9ae272e; 0x69fa3383c10376ef82039955580bb1d84aa890d2;
   0x7dccee5f1e67c2bd35bfabff340cb52b1e4c37e1; 0x953269ecf19a1fd0a26bcb74b0afe5db7acdc013;
   0x2cc38f30445bfaf800fa6d207759233bdc208aa6; 0x10c261f9f657a12cfa4bca4ace4cf43684bcd1f9;
   0xdca10c3aff9321493f07654a6de33747a42f3888; 0x9e98c64a830ebed9fdb5c713aae60a46e484bd1f;
   0x706bbce61c0db04f04eb327bf7515e01b03ecb18; 0x51bbfa880cbe8de3aa28dd44fc2ba8595f394914;
   0x1bbcb72c5a112aea1d615559186d1d12d75c523f; 0x869ce8d31c010fffc576c45c3ed1c0fefe3518a0;
   0x4a26dbd7fd0ef75e5ec506bf359b93236aebf650; 0x14b0c31f1334f19e0ef9ed57f041c100c5136824;
   0x82befa037c14292d546a9b9605107512865a4ad9; 0x4056df71543e76ba224602d9286b4c68e5d66f27;
   0x6ec418984de94ae45159021e8bb1a97bdf8ca4dc; 0xc03b83fefcdc26c5064159bcdff288d43ae71c3f;
   0xb085f0ae23494ab58eba0f10635785fda045dff0; 0xfd9c8b26aaa22de53eff813cd0b19a8ef6163fbb;
   0x42e8580041e935028af626b46a51a08df563eba2; 0x8cddd94f4ff868111b4fed54d149a791e91099fb;
   0x31a645d4303216feccf15e3408cd934deaa11961; 0xad24b7bc8c23ba722134ac984f564e65a0a166c2;
   0x1cf8fb075e697155eb8b34ab5d0420a3f2cd6fc2; 0x4a2614680cb3bc1acb71014fb6296e3d4e668dc9;
   0x305a5b8d468c934908c5f0505ea309ba9093b967; 0xf6959e47b94c82b93867fc876b4c99f37e496897;
   0x07e99ee6676a1f58e335dc71614d40fcb645e024; 0x0066413d152d8ba60f282acff08a666edca9c074;
   0x125b2938847fdea1cc0d8d13375ef20575034dae; 0xf6ded1edef359b81019c166f3c0e4ff48562f3aa;
   0x616e51abf83b29d915bb1f732612e9d67377efaa; 0x874bb0d395c85513e84b9ddc58dc5e380509bdde;
   0xc4a6d309f6f755d0eecde320423896d42e545fd9; 0x5cd80494e4dc98a67bee3ad67531c547d510f375;
   0xb7300a5a1f409468c74a55374da4a35d28ecc42c; 0x98fe66a59715f7e6350fe7e4446d101187d93ac1;
   0xeafbc004748824d31df7cc785852f34f90ad22e3; 0xe77f0428e33786de22c3b8c789ac44787309da35;
   0xc733f75bc26243f5e611e1520205e0fab637528a; 0xfda3114e78fad5d33d628c6e895e23c216c67ee0;
   0xe3e0835f32911551f7e8c49d632f4910e5237a24; 0x9ba8eac7d4f77d90a1bdbd4768e90cb27e7b2be7;
   0xeeb771b07002afb86b81bd90ff238b19faf5e1b2; 0x77d82d21191b8b0fb6373eb17215d7fdf626ad02;
   0xfcb4819aa35a4d93251d92482b35afb6d5fbfdc6; 0x639f73988f7af9496a9c2a8b12659d80b49a10a2;
   0xce32d65f4cca3694053e84d162a525a5dc4fa753; 0xf3a935a406c7727c052d7526804507935323d7d8;
   0xe36c3d7853cb4d0db2c9b7fa04c5f022d73fa9d0; 0x5c6dff20f2929369417e2797836f3298363dfb89;
   0x386d0d12134bd649d877fb4ddeaec700c2cb2537; 0xe135af414ef577807d85f292dce067cf20964971;
   0xb980ff36a99c0c3b408279e025d8e2da7ef65105; 0x7dae3f448d2e1c577ca008f84050079c02985ebf;
   0x7c22dd57bf4712ad4d26afb69c99a407ec5176f3; 0x398cc7fcc679d392a3d9f58b717daebaefdd07d1;
   0x77433c2c9cd1f0a162ca72d3c5379cb8513697d5; 0xe4c950c573678256219ee449d724787033f0003f;
   0x8b206256563e269de6aa37a80271305493f7474d; 0x94ecab9c63c9cc4246d639c6c1fd9b07a2224763;
   0x3927e339cc38e96bd871e6d772d5f00165ab6771; 0xe66893147a730ddaf9e0ae42ad7ec8456d1fc50d;
   0xa9e3ac784db15472d16aee912bd0cd976c6cfe78; 0x903f577c60796bac2bab28c71d1cb1fdc6c4c409;
   0x192ad8e8bbc84dffcc23aedb7d3b32f57f3348f0; 0xbe44bc3494b55e7e28f91f557c03c4e4c36c5fea;
   0xfe2109912a824a14aa6d5c4e4a9fcb41f69079f5; 0x058c41beb615413678c7beb75f54672c93ef0942;
   0x5202d9722275641859aba76cd378274fb4c4d3da; 0xcfdd0dcd6aa9fe40ad18a5be8b9601a3df21c622;
   0xedabe7d32194fca9fec27f8066b811d0d226c4c5; 0x12e16dc6c7ad5c9e10ca14109cdf4a46da290580;
   0xd35bb532b501d40e50de10b885f97bf68ba50eb9; 0xad8b1e4e7a003fdf7c3586641b0c79d75df29200;
   0xa8a99ca7fd656330ae9794212923503533dcfe03; 0x110a9ee3d0e2cf1143d4165a602ee7d9d7ae75b0;
   0x4579f22edfaabef2163ff9be7cacac94e2e8a76f; 0x43bcba5f2f57c3e5b88c124cb2ae12bd50d52dbc;
   0x7ff3a4c50ae0f52550447a26134eab33c1d11d91; 0xacfa5ab65fe929c2b88824bb38cef2b33383b5be;
   0xff27124fb80aacf10ef04ebedeca587f80f5b308; 0xbb10140ae5a921bde21ff3cab6ee187039330618;
   0x885226bf815e2a7450d3bc5e21e51afed460e086; 0xc0a9dd6e1088c33881f3c83bc9c88f273da8d058;
   0x8576e03871033bb925fcc22540b29cd726f3e19a; 0x7e5b890f80ad9a9f0973ac9749967aab3215aa1b;
   0x184a15f57f43fb88c500b28530470f8ba8b394e6; 0x28f8d3bff1d9ec9fd55793dce8f26b89718f55e4;
   0xd19cc63bb8e97feec3eeb62afad8b8e2a2f3b0f5; 0xcba3309e70b2f6a3e9aa10d9d060a8845348778a;
   0x5957f1556f8785948dafaf19cbb4059a1bcfe93d; 0xa1b1b24f1e5b0ffbd778ffc1f249a85a5a2aacd0;
   0xca0676a0e27a1e3d133dd9f99c7529309f194155; 0xed9a912182745fe101ecb4291d00b802d982ba0f;
   0x3a192107370cab6df1d35b640fdf01cec9ac1e33; 0x8b4cd7f94c4aa5a347751c184f5697ea0e2099cc;
   0x6c814a9176922f462f0d21dcb512693212ca5a88; 0xef10cad53f02156b91a895b7bc231ab035ff9a9b;
   0xc5819585131a72b197d8042539b9f810db552e79; 0xf5a352417469bb487fe430ad5bec11232e485094;
   0xf712b9b486475adeeda1d298b15a7774ef0b9a26; 0x80bd14693cce7624fd8189dd44f9d2d32dfc7bc4;
   0xa014591884e3157f03035cf48cca84ce875038c3; 0x9394d41dfa531724273b1c9aaaa751b21d35f110;
   0x58548da3a18ffc66ac708c00062f64ebb4639e3b; 0x3277aeda0859849f87759963d94cb8445e3b12fe;
   0xc817815ab519e9a6031f6b2e69351f28efca13d1; 0xe748771b034126e8143424c5fbc6e19da008bfeb;
   0x9a43aa53a7241b88b0c9e2b95e517834261ebe93; 0x741cc07f5e585f8830661fd9d70f6d85fd1d5727;
   0x6a7c708fc89d9d6f2426c4180fc50a7671b02ed6; 0xf5b67d41c1ecda8839a7013cff1efc622af8a6f3;
   0x82d038e252023158c4e54d73bb2f2c3c229cb55f; 0x310374ab8fd5b9ff6032af8cd7cec8748d7888ec;
   0x4b27dce3426d733c17b7f33c75aa659500e14cd9; 0xe3640763fc1069358dbc76948b5a38077e79b11a;
   0xd5843f19fcf8e74e60032561d4246f16704e77ec; 0x6d6f80cc28dc6e936e3db0e5d77725c9b01339a1;
   0x8453d3d0175a4bafa954cd43d5a47647ad533078; 0x5308b6f26f21238963d0ea0b391eafa9be53c78e;
   0x7a78a14ae0b2b58e6dd3ccc5cdb6abacb1a1d3e0; 0xd8fc5b886cfac06a5304db46d0523d3c038c18e3;
   0x9f7f45eb459ab0fd8f2e58ce9172524b550209d0; 0x31386e4b622ad37db10246e32932dbf03b175354;
   0x9c19ab748dc8636974f7adad443f897e222cc183; 0x205dd905791a31a64cf6c606c0df6f195411bd1c;
   0xa84a39f23b3b63725aec682f6b7759c0954b8ddd; 0xcfbecdb708899c307ed9927ca4ce0a16a893d8ba;
   0xbfdc90836149d0c3dec9fcc09c5cb8e36d177270; 0x6dd07adb7802ae3fa8a7cfe23245e472890a96df;
   0x3ff5912ab1134038a60e949cef98c02631a168c8; 0x4f377ae2c43f648449e8e98d56ef56c519edb280;
   0xb720493b4d5eb2e1b3dc47806da17fc0510e1a78; 0x4a4a13dfb0744098c27205cef69c6c78a8bcedcc;
   0x45c68c278047095d5d438debf63b7c84b94e92ce; 0x59c59c58fbcff3ee1e550a23a537aea791885733;
   0xb8428c1ec9f05372586db1be6070430c097f6b8e; 0x5c8efc0ade4c4d4c17b855a42a60c2d41a30c0e8;
   0x5bfef0997ce0ea62cb29fffb28ad2e187e51af26; 0x17b618152bd6689b0dd371092832210ba37c1daf;
   0x734e3c5e1130c4378cc7be37e775178883364a0c; 0xd8a1a8b6a747aa3bbc65e0b89a4811cc5f1d8f95;
   0xe016cbfb8b21b7b111368d3698938d5921a95f1b; 0xdb5d85d48d7ea5ea4564bf8c420eacc496e746bb;
   0x8b0f826dd4afc69df39d15e807e62ec0456460a1; 0x77f6e6b240a7fe6b2670713ec39d824403f011ef;
   0xbbca3d47f409637e049057b3834dad929497b4d0; 0xbb40bab0c72ce348e997862f7f4b8df48f1ef899;
   0x01f2e3abfc77764a84aea850af60cff1b869bd6d; 0x6ae2b7d7c6d6f3eaf27e8e6f973504b3b34604fc;
   0x5899eae89457265a5853bf76ef8cb7280b7c7810; 0x3062b11b778ae3413a97346af8385b826b17d773;
   0xbccf20720d06d91ea6e463ec50c6f64186066b25; 0x42abec81b1cf45825c9dbf4d695051df90ce75ca;
   0x6bb4d11bdea178dd274b555df1e9a44980b94440; 0x44e2f4a3eda093b64790fac457f57f0db7c3773e;
   0x49facc2a540d6e1509ff09391c2eab0218677378; 0x56d5e48a27ad442a02201150e4dfb134d7bf618d;
   0x4a179a005dcbe770c6970ee390a43d2284f67527; 0xddbf301b38a0f8ef193c8345853b0326bceddcfe;
   0xbd51fc2e0f304bf33eb532a4f98dcfafba0377b6; 0xcd4b9bfcfa7919b3569b47bc237c3e48c58bb52c;
   0xc840add11133c9c0e459bb2058315ebba8643c46; 0x93d686eb1f67c28f57b54385455129a707e69817;
   0xf182a0f9dfd542a06e0d1d6c0f505de40cbd398e; 0xa3ada39be21e947d0655d9c61b92d0a6156d9337;
   0x86e549d398b3fe427ceaa93605ecc3039e1e8192; 0x190bcaf6506accf97385b6d116098a6bdf30c796;
   0xa226eab304910caed965026edfd9b8d1bf800d50; 0x78ce63b90d12cbc1d99a377f657705505da6cca5;
   0xcb6efb8c6bf90fd7461c3242fb8d7852b72d18ed; 0xa024c191c19636b85729f097582b7cc612726ebb;
   0xd37c95937495ec70913a5a1d7d828c02d0f8b686; 0x58ef3adda8e29b863f90e4d559878299060f18eb;
   0x7a25b16def085674ab3f88e136e2bcf92d31c815; 0x74c5fc54e45ba53dbea0b80920ce15a5bed8e189;
   0x3560580bbe7411a963b859f5017320790901a4fb; 0xe3c035506e364336b4fc117dbf939b81ae67626e;
   0xb0346f7ed509209db761685235fd8ca7c6206fcf; 0xe4d5fc4e263aa9517c31ea845f47c7dbbb3ad211;
   0x9255165279e680f41d698e53b4a30169f85cfa2d; 0x5249474a1e67c75fe15625a5eb6067aab4b7a28d;
   0xfebe0bba16486c4ae41597f993773a28fd3b3894; 0xe613fa228b8aee179c87bfaa1def16cac2f2c52c;
   0x98397ea1ca1d9a1f41d4b471822777612b03d44f; 0xc81b74c2bb1b8c9b99311be3351a975b0c32bce7;
   0x93b89be9cf685cf7ce6148560a35b6785ee02373; 0xe513fbe88aea3cffb5bfaa328846f9a1c1619072;
   0x5f08d79f019a7aa4dca83ba526bd833b86af4ba8; 0xbbf1d45a3e73a14d893dfd967837e263feb39812;
   0x570f56275c530b3e620b9720c6e39fcb3cd0f58a; 0xd2dbdc9183ccb4017ab8d5b3b5aa4e5d53013ac7;
   0x03f12378c53ad29698c789687a6c97240d911624; 0xf6f12058caf379414999dd7f01edbba334381ad0;
   0x3ce815ba9281104ed2c6601041dcb0e875343541; 0x70808f413700d64a61b57c61460eaa2d9a221537;
   0xb3e4ba8dbc8cf8c4ff74b6bd90d4650e5a3150d2; 0xea4a9c5dfc537337dab120780a9eddadc2b097ed;
   0xd74a18c697f4adea105e4b7575fe842d8d39e4ee; 0x90fdae33cace65888c86639fa3f1e1045326faf4;
   0x05ac338a1e5b02d218d03b18f0ae9446abdec316; 0xccbafbdff05aa2c0a00f65af18fcb1a41fe88d35;
   0x1613540067a947505eabbc7a67abcdd93a32fc5a; 0x30bc0ffb975e7b9f81a386aec05b1cc4795d851a;
   0xcaeeaecc1214e349bd4794cce28d7a81c69ad4f7; 0x8371c1c656b0135fce4440dcf1ada6d0fe89f121;
   0x0de073fc2c105f890ed2ff6f70f3518b5d7fc231; 0xcfae94a427b6e4d592647a7c3486bb027a0bee8c;
   0x5dd26361a0376e91c68b23209b624aa451dabb8d; 0xee763ead4b11e330efaf8dc7e4ae08dabc4d7837;
   0xb1b6a8a5572e38734c81f7e890623e33aa9dca0b; 0xebb45a083f358628fa7c8c23e5eafdf0c9318c85;
   0x8a5642bf863e732253ffb16490a404875e939aac; 0xe3aa575d47e435468060e9f9bc488665bd9bc32a;
   0xd2d8e0cf1da9903e6958f5b6f60380f2f3105e02; 0x43eac63addd92cde50dfe13308d91e334e92567c;
   0x7b02341d7f08a1c010d2b54183d7d2c0fbce8d4e; 0x020c26d54547380445e8bcad81dad4d7a3f369c6;
   0x97f2e282b5f712bedd7a2f43a4fca607e20a9881; 0xfb8c2ed6300f9df732a833ff147dde2a22b1b1f2;
   0xf27f6ceb21b828862ba5ff21cf23a92ba11b3665; 0xfddfff2c1a376ccec92d9efc11ec81bbd73bf7f0;
   0xedac3e40148250c98391bdd12a38fb05b9b6c274; 0xd6305d28142f6534946ddae44ba00eb942c60077;
   0x5b6795c6cc79470532fa3d555ea3d513f420726e; 0xbb3a40ee2499dfe3ced2f2ddacdf61cddf6854bd;
   0x0cb93d500d1d5587923978d6dba8c0f2cd5535dd; 0xd689a1f3f30d31d62c312153a0c0576d919c2d9b;
   0xac77e820a8a45d9a63e6b6f4f13f6a3bfc4b4c8e; 0x638f12ab368293e41667486d176fd46bc507635c;
   0x2968d83b7fa1da5fc9d6ff8b0cea1440dbe33890; 0xd39b69fb2fb80e8fafb8e5cbe5a543003b980658;
   0xfb4219bbab6e3f14262dbec3a1f9d9e77e0cd89e; 0x832f1d9ca610e8d6b5c6c090a56f1ffa41fdfce0;
   0xafdee197a58add3da13c253cec0b04d4c1d40197; 0x7e9d830c777f4bffd1f2137df68e84ee1e7a6e20;
   0x30cb38295acb02f557bf982a640114b71272868e; 0xf2c1edc8a90a8c989773306a7e04cab0ab24b47d;
   0x26705612546292241c81f6ff572dcf3f76576343; 0xf9d2710c4e5504b6c0777f98be8c12c43f7a7448;
   0xd7374fbdb755eb31a28d61bbc045fa7d82095565; 0x318854325eea331d3dbf24a5c0926acd7c9bd1e7;
   0x64790a1f9171fbc955b2070f4619ac7ced0bda4a; 0x05340fcba1aab2db3573e7f00a75d16342bb4255;
   0xbec4594e05154f7c1a269401a0df4c5354f1ce75; 0x7b0ef6d49b380b2fe33290f9a25f7eaec218826a;
   0x3e3ae4028853fe1277c36bc5e2c0024b9d8f81fb; 0xbb54a8ae7b8113ba7ca435ff22cf6c7c1c2288a4;
   0x6ab3bde7794b113254da80306f87fdb55c148a9d; 0xc94ab73e3ef7aa716a8bf0e988b955454286d908;
   0x2fb58d01afd17b9ef00defc819f66449aba30c14; 0xa975f5920802a69b8bec62ec01f9e5474ce43598;
   0x180126d1f3b5420733c68f9dcb48b6cbafc2909f; 0xd7445e54fdced780606291a79694d90c68c12f27;
   0x59454cad57bc9494cfef180655c7b38fba0c371e; 0xf254b70954b9aef2bc9106f09f9fd23c1cb34654;
   0x3256443cf7c7c6c9bf9c874f5f239225e0b3487e; 0xa9463d57c8c2608be13671f0dd92fc500440c165;
   0x442e0b56f5161d2d186d58f3fb43e1141c9a5606; 0xbf32b54a1dc25630304799395a392978c281218b;
   0x06d5ba8d6180138c1a483459d553e2a05aff7551; 0x3319e2154fc1988b14d9f5f8243b34d9bdd7508d;
   0xdf33800a566f993ea50c409a5d85b7170b60c0fd; 0x2f9e3c621bf0a3f6d35aa1b6471cf926e6bb6032;
   0xd9c7684a13578af19b05fcbac7bcf914158f5e32; 0x4d4c1980cb29bf7115bf95d429648d8c496ec35c;
   0xe0fe783214de95e8a4bbfc43afe87895be3be2b2; 0x26cc168d3cfe0ea3a7704ef76cfc246d87cc4b89;
   0xafd22915e876ebfc1123fa9d7e62e007ef1f5209; 0x707f96995d3976b3f12e949d3e7ae411ca9e2667;
   0x19d823775e2d6095070c8a5e8e2cbdce1b02db61; 0xc1e46c206a63e9a196820264fa213beb06667c20;
   0x10ea011d8392f5fde79386894c1f2620383faa8c; 0x6cbe76b58afd66176588640df8495bb769e36432;
   0xe2efa9975de1cfb78d0784ac6e40db46a0d07290; 0xd6a6d3ea931a6d0788b8a4d637c64a7ae03d2bea;
   0x141ac2d77d505348709e0a7ffca5526e7111c204; 0xbd09660376d262d73a40a85ba99286ced2708b20;
   0xea586a497dabad61a672c07ee0342f0f42bd0676; 0xfe149e54b31d86e48800443abe2a6d38431ab99f;
   0x2e9b5f6ecfe3b7b2b0b4a2dc3b285ea0f10c2d90; 0x278d25bbd45370949540d80dfbd09beef78548aa;
   0x0805902001d37fbd64c7caabd1a7aa663cca925c; 0xdfec029cb4e59750d1546673d33fa3133e16cfd4;
   0x753bbc57ccb90f812e87821e5ef1a1be74c769c2; 0x8ba6a8a1a43bcea971c0c5f278532d3e39e591af;
   0xd8f71297ef20fe843c7693903462be20da524461; 0xa30ee390813be065ffcb0880471fcec8794c106d;
   0x9314f1eb0b388b811c0684215d12ccf6af1af6e5; 0x1db7cc413ff658ec09871877e68e2e951234499f;
   0xddb28b39d66b18d171800088e06cad5ec28d8726; 0x2f3ff79cb7c0a67296a24c04d57a8e119e9eba8a;
   0xf5b9c07608aa19cd479a6d5a792097db3cc14ac5; 0xe8bb16ca8901aa931ad180b4cfe838da86824f43;
   0xd85a9562fa9438e3bd575391813b3998ff4cc106; 0x08d9259c24933a4e675b692e8b26ad5671e5d621;
   0x9e9a88fb8df6d9419e4563a357aa40280c88020b; 0x5f36afe0ac649d597dacafd653c2344089b40b92;
   0x7aff0ef58de139a44a462231f27faf77a450bac6; 0xdd5296899e9667839e4756ced0c6ea6ae21dcdec;
   0xcd874fc67901fc7cd4c0c5c66f03c61fb658045b; 0x42f2b8c49ffba51b71c29655815e4ba30d6f981a;
   0x99886a8dcf3807b2000f137ea6679652caf36936; 0xf0b56b8af62bb2fb9209a04b0ada795140c5d2b1;
   0x1b9746a7a2b0be6c9e40d4479f8766054b80d8b6; 0x51d996a1b544563658778ba85520843b9beb2839;
   0x927495f329ab083e6cff350d6e9d8652d76f90f7; 0x62ff77f86ff5e933151013b3ef3fbf92aec832cd;
   0xf6ec29964691935bd55ceb75448d203d9255ebb3; 0xebb065492b1dbda77e61f0e683b43428682572ff;
   0x72dc2b09116c6055d62b789bb8eaa29e8d848461; 0xc41a02cec11dcd23d4d640a32fd310d633a281f9;
   0x29c3fa7effe40d23cd93a8c8a308c33e57b3c8c0; 0x8d03a395cd9e68409967e4957d6b85adaf288687;
   0x405838f0ec0c1572289628508ca652464fdaba1d; 0xd66a1f743b415dd034cc68eb444b6dd8cb6d6112;
   0x7a26254dd7ce465cca7d3ce0bef6439227052c5a; 0x010add53a062767ac48a09be02cd3066eb3afb4c;
   0x9b9a47c4e39cc10674f69451a1a5738f832dc0ef; 0x2909dc7c36dda392a17a085eab7d467f81b4ce80;
   0x9e4b0fc015f5c775bcff1e0963ec812d6486cf83; 0x010140a9af01352b217f5e74327d8c2a0cc2238f;
   0xe88e80781efba61bc4bb2c5bdbab80d33eb5079f; 0x8a4116d9838569a8d018ab90f6f6e260cb513b0d;
   0x0aefa236bf176989c89e55e22d9b07d4167769c1; 0xf049f4e0bb8aafe14b354fcc902905cac565356a;
   0x95401474a199c2a1b376e0ad41931531363e1a79; 0x4cbe18d76f660c21e3c820870dd0930a60a6bfe0;
   0x8100ec273e38b80062e914d8cce8e9eca69848a5; 0x791a513e1f176a78d7d98b52a91c1dfb494a56c0;
   0xefa1b807edbcb7f7e5b5cf2f3774dfa7e574985a; 0x68c4f0f62f3ae4a67d2242f1ba9b91a7258e43de;
   0x57e7e16a2326dc41d02402103a73b4464a8b3eeb; 0x7b66447a43cf82731c51f9faa19703dc050a711f;
   0x323f02c508fe9786ca8ac79301aec467efb9caff; 0x6c9ec80dccaa33e00a0711804cfa9b0d94e25da3;
   0xb79618596d85eaf6bf9acf9088ab51fc86275478; 0x27cabef682992686a34e260574594aaf50aec80a;
   0x06a8d1d6d6ac9b9d6db5f5f6e04166df1dd7e458; 0x54c9ca6c4897f2ddf4a237f4e6bc01f9b1118c3e;
   0x6e1f8fa7945736c4ee219f7512593be4c2bd964c; 0x17a8792ab6a8bcbd321a95e2daed78adff9c154c;
   0x7f22065b70425f2988b05de3a7cf92ce24378c08; 0x091e26376f89d0c6a97467cb57eae050a43821dd;
   0x958ea017b2fe449c9c647e2baadb0eea14e82221; 0xab00814385fe2516f7822eff30eff81bace3e4c8;
   0xd39e528eaa3af4ec6b9c3cb4d1f02e40d8bb530b; 0xe2409b073222d563e2813592f7136f340f083044;
   0x68460f273250555d0680b58ebd149424c2fc8fd6; 0x195551dff2e96252a9b158fc529457b44a641c08;
   0x56de18a6ee3a5b33b8cc2ab8739818fc1290c442; 0x5bbbd1932582967530b111614361abc24e330edd;
   0x83df25118b819b603244d9863cfbc72bb164ea35; 0xab5c0df4b8f026929e21c715db09504787f562d2;
   0x4db53f0b23018294b783ad1d5f3dce803f3528c1; 0xe1939c4eb18377d1ce9e1699454721513722464c;
   0xd2f2834ce01352f8a454ff7903f85e6d99cae4e9; 0xf4df5fd6b752cc490d58f66754ac393d1d5bface;
   0x9583a04c9fbcee9ce239525c6ce1fba8196f930d; 0x3b3c2b83e14de0440a673760dc470d7387187450;
   0x28c13e0904be99bf486315e75463ddfd111398bd; 0xb7e493f22fe5abd4cb596f38207f84ee482d9338;
   0xc8eaa673f905fbeddb1d6c9448a802d7f5bc3a3b; 0xb9328ae4ffadfad326eb39aa25429760ea28d043;
   0xa8c83b1b30291a3a1a118058b5445cc83041cd9d; 0xe6eac0f55e3f5ecefae3877015fb8631c95a3a45;
   0x60b86d39f7a7c55eb0b3b65a13182886ea1a31df; 0x6ffce98521d49780b31161bb9466b75d33fe1ab8;
   0xd23f28207c037481cb1122e59b22b3e44a461bb7; 0x613057918d633c80db414e5f5f5e21a93851220e;
   0x5db639dd70c3de216b77182ed71c1fb90f52edc9; 0x866dfbaaa9e33361cf0c54b8d4bec978edcc0c02;
   0xa986541845e0fc42de11cbc25f25ba708bbf70e7; 0xc95944fa3887685b782e812f1ad0e2a8237d30e6;
   0x2ae72279a2b4d043e81e3ffeca28f4bcc6baece3; 0x61a03e1395f370ac23cd0d524d086eea587f9721;
   0x40c166cedeec0b248e690a3184af4a19b2bf2607; 0x694dee11fbca14c8a8808b888ba6c05cf78a8c7d;
   0xfda402fd5006d4a42ea9dd097ef4c8df9cdbe3f7; 0x957f8c406aaf8d63a76d832393da0b0d56e88859;
   0xde3bd9cbef784c45410930f549e2c1b9055a0b61; 0x284770bd795dfc02b4248141f032a888daff9bea;
   0xd32c3d2f050d6d8c45328548370c87c09ad05c14; 0xda131e64716f83a92b73094b165cd1ab388953f6;
   0xead3820fcd66f381a0ac235dcec490f60e925a8b; 0xb0ca82d18caaa3ad8fe2fa34fa22d5e080a51ed3;
   0x8227af0562a091ec7cc9123ae5bb4028f394bc15; 0x626f68511be197546481354a5f5992e3906ab639;
   0xf62f853194b13792c710aa5274b55aa3f9ccd84f; 0x3ece69bddc4418b3780d8e17f0aac9220f567c05;
   0x6598a5e6c91852b9a1393a5319cfbe954eb3ae6d; 0xe123d95b701f3e53356bfa4be1bb6de474b35e19;
   0xa54a5eb4045183e1506254592249f4ced619c7de; 0x279b7e99f81da9fadb6e1866a160369eb72ba5db;
   0x5ca4e3405be06b6756ee3b25213e42eb081ff3ee; 0xa5c4747cbd3121b532deb516c41a341a361e83c9;
   0x1bdedf6ffea7c0e07d5e0b2c35cd45adf2868508; 0x68dfceb2f64ecb8c0d7c030c37a93540ff523277;
   0x8d057c5068e3d105933610827fb4e09ffa2a924e; 0x101f859609b333271c8d783a2456a415d96e4984;
   0x51b5dbeb756f7f7982683ecfdb19b8f739539093; 0xcf9f61f8283136ff644f0600b607008b0fc97c1e;
   0xa930066c355bd4de0cbe0715c1d47419ef8ba168; 0x7d4ae3cf5426f5dfafb6f5d295ef45b81b3047d3;
   0x19c77f64dbfd75ddd278471791d7ce5c1023e307; 0xe6fd6c8213e97684023dc5f22284f9ed7b6bff39;
   0xc95320a56b4a2f2674b3fa77caf2780ee2f1d21f; 0x3d59d09653e4f2541e7b48c5e178de06ed558fde;
   0x4dab006de59faecaae33ce472c2bbb9604c867e8; 0x93489dbb4197a26d1c49bffceffadf231981c3d8;
   0x0181703fe6f3d00484f01e0f74563db3745ec032; 0xd06ea3b301a5b7d00b69591b69766688d78b639c;
   0x23499aa14cc3d1badf4dfef10248fe86b8a42d1c; 0xf3a01669247aba5c28ced77186452be6be90698f;
   0xc79af6bdcf1378bfcd7282562cf2faa20a396fc5; 0xd62609a5832b02211004e053b6d0eff7ff412098;
   0xaff86beafcb9c468e1af4b7bee1100377e36e264; 0xe13c4769a71f000cc1d466dca4e5fcd4e81d8ba9;
   0xef0810f06888531977e3261c3b630892d82aad38; 0x16e4e708691fe8a3aa09f392be7c62a17ea769b5;
   0xb1269b89c1a43a8ddde39dd9c08c7d5489e1a483; 0x749ca2ebdf2bd7475283ce78bb18908e1b068c97;
   0x551450ac576f687b6eee03fee60e5c17b50d4deb; 0x12d8834336c7f15ceb79e6f6c612f2c22897edd8;
   0x0b46e665b1ea4414476e556eb0b219b1ff09968e; 0xccd17c1eaaed8daec1ec36bca1c98a147706ab16;
   0x8201b752c8d7bc3a864d3f210f46434ef5a3e8a0; 0x30066a6bfd06b17aa6835433cb980a0cf70158bb;
   0x0c594faa346ada8176095d99cdc226085631c742; 0x4b3f3687b36f4bed17fc09396c15a85f3af99b36;
   0x7c28d2340565aa059fdc61c9b4338326230ff88d; 0x5948c8846b03425fb120d7da70d3de50d913d8fb;
   0x5356c173937e6e27b772acc31a7938ec1be69d5b; 0x877da72488727313ea2f52319b0cbe251bb0031b;
   0x69458fd2659a764c3e75c362c37d1ce48e9c5b6e; 0x85f420b72e0ef555ae0271e40e8d9c15adcb7759;
   0x1603b4f37605ff8ae722a8001ae5e2bf3d3aff94; 0xaf06fd2636c0509ee4d7cac3cd928d8a22f4e1b3;
   0xac70c512ee5222df3ea2d95cc206d950e8c5ebd5; 0xf6b5fd8e2cac43987de603ce7942e09e2dc8a2c9;
   0xb93fef49ec53dc8e1a8b1fae6571cb82e9125057; 0x41f2ac06cc1505f701208018507fd5cff9941f10;
   0x1cec410816015be9fbddf9e35a2a134f9d0f8490; 0xf8be177c7932c11117a96b54af405d3bfb5f7ea2;
   0x821b25b25e7227240861ee6422a152abb182751f; 0x33fcd3851bb6439a898a55f6c8468238f3cda60a;
   0x4852a8c4aafb9bb657d39204ab5c4d39cadf453b; 0x9b25bd58db8e40cc7d785ed0c6dd93d544565a18;
   0x267ab804f79d15b8ecc19b337c23284e8891001f; 0x33f2ed3909d2ce75e11cbe85c69fd73e92f07482;
   0x562870977137c808b2032d1138d66f128b5ab037; 0x5bdbd0c97edb2c4a72a4ad9d721568040eacd29b;
   0xc8b95916aa5c4b1052e61e695e23c1786e3392e9; 0x44b721fca9d9a9c8e3426d2347ddf4b398e459f1;
   0x0a04b488a5a84c6d4a5d4c9de6add2314a784f89; 0xf478911571c9a8e29b4069a47f26f2db540ec827;
   0x74c2134441b902ceaaa1eb9233c3a6aca484470f; 0x5eec0a496b3f6a4c60ddb9a9cef0cb396a986c34;
   0xaad350ed1ddf1dd667c2911eab1d27abcb9ba05f; 0xf8f074511df0f272c360ce48f342184ef42a825f;
   0x32948217c4b78be13879837f032a41c1556f153b; 0xda44a0d38655133e2a6e45b4d4d3214b57e8d149;
   0xcf09f6fabafcf64218421148babde7b4a0971e97; 0x3b34113a346f7468fefadee04d42ae7fa91d55ef;
   0xfeb8f9108944df512febf29fefef89d454b2bdb3; 0x3ea7736a5a0cddb2ac1955453d455a6178d3bb62;
   0x6f65f7db1aff078b96671a06875879c082fe787a; 0x946294d28b60bc23a680ab7598b804e996638c86;
   0xeb79bf1c0b55d2b852a8ad8b8fa5e8128a209e0b; 0xde8bfcc781e39962fb1636aa64d5441a31700c30;
   0x6a24a0dd88c659ec844d425414f6a1b769e559f4; 0xde8614fc181271abc5362c364e008dec60695d8d;
   0x3ca0c67ab2a95bf44dad72aa5a15302c41a702e0; 0x353fdd79dd9a6fbc70a59178d602ad1f020ea52f;
   0x052909c2030afaafad284e014ac102f7af279d01; 0x5c453b594036baa0ac36b7968d0c9e0968ef525f;
   0x9b851798d14b4ba41e4b2a68c28a26453fc56c72; 0x08bd4ee3ee9480cb69d5bf6cf6f1c76162344892;
   0x5e03c855b0ec16b0fccc3062aaed708582ce8559; 0xcf84719f1e6ec211887176a3e46b678447b92d24;
   0x0d1352139900b3214e9259360705cd8929247a95; 0x6ded589d282c0699762d2fe0a76197f4e0019116;
   0xf6ffc1d4a7e4ee72ef969743a0e30a9d52cf3719; 0x15e7ec8fa2797987de30902317af0f9fe98d4a3d;
   0xab950438cf0dc5c2f98039731b9630358cc0deb9; 0x0b59f6a38b97650bc57a618f2103a6ec81dc46be;
   0xcedd52ce3f6fbddd5b604b1643c05dff30a6cd1e; 0xbfecdadf522dde96bbab4b983778ca971f8eb38a;
   0x48f450d5f51b5340f8d7ebd9a8417625ea5df531; 0x17c9f9bc3abd502d68f9d7a2098c1ce161ec7be2;
   0xf3c69175cb24ff525024e55587f20268b0523fb5; 0x06a2f05b3ac5ffb7f9aa27f7fc76c69fcd4684d8;
   0x0464408d54bd52ac1ee5ba2e7e9640485eb6007a; 0xe68970ba8355813375085aa7e14230ebb3813225;
   0x088c821b6fe052678b642737e0fab3a231907cdf; 0x023ee797750381c03b950c3f9d8db2b6396b7c03;
   0xe43f7fd9b3df0248f65ccfe4748a16612b8ed6c3; 0x2f425bc6e98a6981b262511131b25fad406f64e6;
   0xf4a6b129ab36b322eb79ae8ab155e6638d2ca36d; 0x3455b14d384365beeaec02688a536b62ba0d0b91;
   0x9bbdab19b3d1c0e5498e13403a8ea40d94ca71c5; 0xcc79e77273e6d4e9c2eb078bbe11a8071ed08a47;
   0x720ab481646a685d1062ec31437bb5fbdaf2c893; 0xf887bd34d36c60b76d461b064c1fe247206f275b;
   0xd6389e37f7c2db6de56b92f430735d08d702111e; 0xa632bbe79c851a360ff758862cfdd98e8d4031a9;
   0x0f456cd7cdc806496972ea89db250b76b98171c7; 0xd65649def2f91c90e06613852749efd3a25b71c9;
   0x78970f800d398137445c1b24a11b133ab1f74c8d; 0x0179b7808d1cb55203c2b2bdf26efab04b6e5a91;
   0x9556947c8744652856c3a1f0de42272490440cac; 0x7e2a32f951f94790b7464db7b91484daa67fa363;
   0x6e5c15c40ccb1ba0076dad63cc8b6f74371da68a; 0x97f70b9d432414b4004c3f54976d38eaf5497619;
   0x24c4463ba5e8446b4d1d6bff696c2291f177e8f8; 0x987379cdcd66aa721537cc9300779700685cfda8;
   0x87c2b452cf39bf02ff1d148b692d9da808217825; 0x9aa4e3794c1364f8a731ee18560fabab93162d3a;
   0xe4558497490b7c0c99f461f4fc2a7f5c7ad74006; 0x9dd032b037ca51815ff73988d4bcbf6451be8abe;
   0xce0fb318f31afb6d616ec58f8fa9c1aae206f4a8; 0x442a05bf40fc6ebadc1d4eaf37d01ae9e4be23b6;
   0x95a55ba61bfc237736e7c97dda8acb61dd8c345a; 0x7eb7c8838a3227291632096c83e33216dc7345be;
   0xda44c6c232ddbb9cc6d7c905ebccd6f719085378; 0x27a2e1bdd2d64df31e1323be3d5429f9b47e68f1;
   0x9d877087bbbb20692eeb974b5c5fe2a3b3140f60; 0xfb349002e856ecf3446937833c40364839513dbb;
   0x2740029049cf5d991202deed75965c6f34aa36b9; 0xe608a182aeca79601e92850d8abe31bdced30340;
   0xeb8feb41131fe094b6c195324f93a50139efc8ae; 0xc2b113d6374d76a08c60a665e8633c148fdfb0b2;
   0x8c2786c3efd9b1e15b8c9c55d658b556777fcbb9; 0xe005ec62cd32e372e56756abce36b87bd060be94;
   0xe23e61d9b42393feb094b581feb94cfc33418cc8; 0x903c7f0e22e8afa8a8f3eb0b542642c02e0cd7ab;
   0xe3e0145de4bd4cb72597e66163ca8283aaf8387b; 0x675ef04d7c85d74dadb4ac228e6cf335eb7c841c;
   0x47e6e2f77fe51b7cf28b3a0163417a3a0a4d9896; 0xfec164e910535f9dcdf2ade163f6571f764f9e0b;
   0xa81d6d70185fab8e2c019b4570e3ecf4c88f6b55; 0x022d11ac84234b4400054392f2af274fb6e05047;
   0x8535bd063f144548669f8879d55cc88c902a0347; 0xa606c5d830784eaa8865917dc2716b44d5c4e1b6;
   0xf12f1b5bf3fa7c0a6c093cb2c741ab6fad69135a; 0x314aba55e9a3034dc7244b12743dd2ce9e2a4e86;
   0xa9b5077a27a9821ca82bcbffe1e5c1f3515709ed; 0xfcb847336ef17c43229a65522a231997c9a63767;
   0x7768260760bebafbf99dafd9a2c20e81f4d8c9ff; 0x78cdb3057011e6c45f80196d3df09be2e575dfa4;
   0x45e303fecbfd7ff99bae0fdd2cdacba25f41f81e; 0xea964674cc9752bbab9ee797c4f2a4fd180af3d7;
   0xeb53000385e5b5f70f27293310623b76ffb09b20; 0x16fb7dc58954fc1fa65318b752fc91f2824115b6;
   0x78730d992ef91d4f6a76fa9edc72702e67f46fc8; 0xea12a496a9bc024b3b753e26c5f532ac1170d998;
   0x9c9f1712ab840eabcec171f05e9de07c951a3bcd; 0x4c12830a5b3c8645408eee7522dd84091e3bd9bd;
   0x92363f61456b7885a825d4d60cd05429dc96f6eb; 0x0054b4a38103bb0cd294f1dee9f2c431b95867c9;
   0x4aee597f59513d015a729c3399b04ce381374efe; 0xb87d8c8ca1d9db287bd1e4fb906295bce1ad4ac9;
   0xddf956271d4940bd58d249ad775461c36c4bf8c5; 0x19ee7bceba6181b0486d23b53e6e4ce0088ef3c7;
   0x93dda9a8d20346533ef7867741061ae41d112118; 0xf56d6d2c9d1f726548d7cee38db363d1ab99db3f;
   0xc885536c2b688859c13505f2f076bdfec204a880; 0x27c0478343f84a62600d4da4b7d3f52269f6e4f8;
   0x090cd1797d1bc2dd35b0dcf7036db3cce275c7b6; 0xb9a23146711331c0a8f94d01a610c1b505bd17b7;
   0x824ee67e582e80ed45742eba6b7f2814c74648c0; 0x5b56d735fe36885b77c6b5292a86bb5e6f13e83f;
   0x991f3775c81d6f8331b9a812eda34ea48a7ea76d; 0x53d0164b52969922c187c27b1c57e7f09b699d23;
   0xbabcdec1ab34369befca6888edcdff523d8bb693; 0x005fa0341a829055175c548e8ad48d7abe4c11cb;
   0x513d92a637fdba3ed8e3a6a099c93f9084079bc8; 0x9e86d4f7a6d6621be852c01bf0668d855ede1fdd;
   0x5dba80ff0f565ac2b9c2376b64bdfc6726698f6c; 0xf5fe4e9c5d2e008934cfca559dd61921d3c19184;
   0xf2fd68a0fb5901f0b774adfbe25cd92f36b584ab; 0x68a06993e5c5a2b7fc88260285e1a03df2e10a1f;
   0x619c918f314f34a6f25b877ddeb8ca9fd077462e; 0x78e6f3af2bf71afa209c6e81b161c6a41d2da79d;
   0xe205b659e255c02edddb72e173c815fc74c94bd7; 0x7db6ac6fa3c8aa2c6fb9bdcd4800e8baacdd2ee8;
   0x4e54e645d0f079865caaafc1930d8a59c81abe10; 0xa98a175166e4f9e8487356471c575f57ac10cc93;
   0x9cfbf229d5ce8a54c0897dd7e77867d1f872b06b; 0x02aa319b5ce28294b7207bdce3bbcf4bf514c05b;
   0x1e3fe4ad6b7e16efe7bd72479bec3a3267c47db2; 0xf450f6bb0e91b62078cef3c450ab8d0ee8a84632;
   0xba3cc41b18e78f161b240f661cec02315e7e1847; 0xd02b4e340f10864e9cc73be3ad45f18a298aadfb;
   0x461abb509f2d017d4a2091a7c91b583282fd148d; 0x82b00401b4b3939ad5f46522da7c9910d170db4c;
   0x3b15b124136941298f08e1ef9c7ca3886d812be6; 0xec2125eb96f25a7eae80f0351bab8b95a009c9a5;
   0x3c07bda8b73303921b5d0732d48a4cfd7e1ae821; 0xbf85ef4216340eb5cd3c57b550aae7a2712d48d2;
   0x33caf4f7aff51f122d1096fd3465ecb93144c8d7; 0x478ea8ad1c037ccb8e3016ca724f1313b2c90a55;
   0x8fb56390709daf6cb41f4dcc06d82eb57b840607; 0x572e48b6d54d7933344a5b49750423049e703e43;
   0xf9ef725cf6fcfea2fd18273f15dff282a74fad12; 0xf15227ed784070ada6a5ab12caa45571d502659b;
   0x4f0363f651568b0cf57fe94b831fc8792a1fbc6c; 0xe6a212ffbcc9813c832ac8ef832a4cf40ec8125f;
   0xa32ad39dece579ae138811fcb819781e3a0ba241; 0xabc6c60317456cb6a97276d581153610effd29ed;
   0xd50ade20430d8ce4ef2fe361ed7aad9b0f998c81; 0x4cd209eef1308eedd8f0406e887942e236af7cf6;
   0x51c7df367d6f5ad2c8410490443215b35fc35b3e; 0xb534eff185ee0453382cc892bf41d9e6c0dd8240;
   0xe520fdeaa091326bee356d2bdd6cd543881430fe; 0xeb38de22e73c5b64606d581824b8970da50bd39d;
   0xed01607ca28305ddd4462a90b16173945fdf0062; 0xeb83607f0afe105172b287ed60feb3cc5b275880;
   0xc52947d2e7b4b7d2302b6b039023a925df2c2a34; 0x7e6392b773b07b71336398ec15eaa6541871f373;
   0x6f02cfee6048c6300e37519239e9ba3313980492; 0x3a47ed2ca8005c2339a62827761b93aaf4818c7f;
   0x97f57160c654999a79770dca9c09460d915ed3f9; 0xb535c815d234bb2e9b61c456dbb7607baaf9f3b2;
   0xe7e655b222068242def2fd2971fd7a95495ace14; 0x105b68993f38a366ce1fcc8458f2d79d0fa58f04;
   0x2f326867db8217ce288df3f5e9ce65a15c51232e; 0xebc806f9b4adae80b46c65426e08dc6fe04ef8e0;
   0x2d8508dee21033977592bd050241503dea0f0d13; 0xc4f07aceb81ade85f84dff2481a8cabb5b3eb914;
   0x7b1f2d3e670a13ec4bdae7fa8696d7eeb5781899; 0x4c4cfdf9fff89a983dec387020f2c8060facea12;
   0x1b2817372874b9d743e9f62ffe6fcf8303326ad1; 0x4d0514f3916a2e92c06fe041c95953427ca4b58d;
   0x410a6c7d7e4bdf6b6e8a63614c8ff30bb24fd72d; 0x8761cd3680e595684db758a15d9b2d5606bb27e7;
   0x282594dc8d8f198c7ac320cbb451a01fec5737e5; 0x00708f68bdacf412e2ef7d01faa3e8039df46f3b;
   0x52abe26cc3b265805dd34345b871c4d84421e089; 0x2d10a5cf474828b22ac89423a812b08fd41dc1b4;
   0x20bf7b518c0b71ff8e4b7ab15da5d1b6d5ea6dd4; 0x316845d74319befa1d32e6e34a0358cb2ffb2341;
   0x1c22610dff465d051221a2081bd85bc37bf34899; 0xb2b92641dc43d597d166d9c3f7ffbe1273ae3847;
   0x7acd43327f5d77fd6fe546ee3cd1d0cc69bb02c8; 0xbef6e00e5003a425cc15134d6d5eb5f2d1a4f44e;
   0xa6b49397ce21bb62200e914f41bf371e5940bb41; 0xf87a840964765138b0e311cbf666af9f17be95e6;
   0x0e057a28e36e327e54e591ab078479ef566b6643; 0x27c15ddd1551d35a6685b388f3ae6e43d8a3eeaf;
   0xf1759a4eff338c330327f0662f9c8e85100f20f8; 0xefa3acdc595c681a8229363cb02511fa2ad76783;
   0xb2e37baf3ac5e20deba43e0aa6ca505cdc494fa9; 0x6eea19e134bc846a9eddfe6f780490cde27f65de;
   0x0112c1c4afc75aee6af171808319dea484c65963; 0xf6fb1223ca582355f742ff89400ef77627197b88;
   0x230065b04ec6ce6c1b188e6e4c3fe0891af88219; 0xe9d9322e7069bb15646632240946856de5349b7e;
   0xbb3b5ea29bda11cbb4cdf9d7623b018e92c7e2fa; 0x0434a7f71945451f446297688e468efa716443bf;
   0x1e2eab740dda58576be9b58a0134209726214112; 0x36fa9f93adc25daae2cce661f795364e5f6771e1;
   0xe92e755add5c43f55c587f1e864add5d380e5c06; 0xa704e240cb6e7ac5b5af994b2bcab0e3b6522976;
   0x045df1ef32d6db371f1857bb60551ef2e43abb1e; 0x7f13b66a616bcda6761be437db10597bfb2424e5;
   0xad2b2f10edeac77525323a914e584aa4bb56be95; 0xbb28e3212cf0df458cb3ba2cf2fd14888b2d7da7;
   0x47e6a9a2f46db41b5a49149e71ff4a1ab500dad5; 0xb2b9e6de39058896190798fa0354b7cee6c23a0e;
   0xc34064e35b6b1cc6734ef11283c8ccb1965f3554; 0xe2ed1b60bfc0fbb09b000be20c4877a35c0c7d43;
   0xea59452eb42051865b03dfa4974e76f2ec74e3a1; 0x2fa2d56e312c47709537acb198446205736022aa;
   0xa8b616fcbd9e80e84b6783babbdc3e547a6ec5c0; 0x83e55f419c7e69d41e9a82e8183306676a91c001;
   0x1e79f36bf0be87696880f91835176ba3d60d1a4a; 0x9fc74bb974d6fc9965bdf84e44bf2b4720b9d738;
   0x5845ee9d7862eceea9f93ab499dd10dc5f06f918; 0x85974bea9505c7dbd99cecb54f6ed1e45b038daf;
   0x8f195ed7bff2d46d35d5c0ec3f356610a4147f49; 0x66daa1f705fb39d308cf4e0cb8536b4c851cff1d;
   0x75f2a0581d794921f1d3d446aaf2795e00d48adc; 0xb08b050f1caac760f662c527c02ad59138bd4992;
   0xef67f4d7980774375076c8e5e72e830fc6a69ff6; 0xd8c48a70b62f1931fd57d603ce215208674073f2;
   0x1bbe7620c91c09e5cfc181cd739e3460685fddfa; 0xc33b3c920282bc8ef71f08098ee071798bd8f913;
   0xe8e06ee4aae5f9ec4a5ff926fea0de4facc03e16; 0x63723217e860bc409e29b46eec70101cd03d8242;
   0xd370326427640ae46e274219486ffaf18e5f2227; 0xfb00059194cc3810e87adfa810e61bd61543a2c6;
   0xca69acc9d3cbc5ea252aab92845f04977646a1fa; 0xac56af53422ca5d51f77d55ab70a18eddc5c38a0;
   0x78af751546851c368d48fd0e7d4a25db0f152d25; 0xa13e81b67938821e0df2d7057f0d1345a1ed7253;
   0x8ffd3e95e71c1b975eda461e54af27d10bedab44; 0x7777282c8b083ff4d1a87aac6a26a961ae55b061;
   0xf10d8f71fec8ec180a67a9d3b5a4f227a5321e04; 0xbbea04a3a8303e4f8543c7037720846abefc526b;
   0x03d5b2244b0a003cd748030f80c27be44cc587ab; 0xe69e2e5010d3f14a9337b437143d11ba8b120b20;
   0x7bebdba9aba1fe903ac8169bde80a5d5d347bd1c; 0x55a40a1e61d41c58af90f9ea9885e56d72183e7c;
   0xea6185b1a21139699a4cafefca659b48c090673b; 0xb7475f3748d173fa7ab6af35e1872d561c259242;
   0x571f08d865b06333a1a2062da231053ed6dc1bbc; 0x5577c9427e330e1ad355a0475dc7cf8edcbe4ed7;
   0xec8bf70c6879c602c54b94c41181023248a8b14d; 0xc9de59e8c2e34ec1d08a999e68479e7ac667d228;
   0xcb7d6e8e5fbbdbaf84a8c078571e492c73164d19; 0x5d95b4944e7ee49a53c9d6d8d3cec685579bdfde;
   0x0a1774c65e32f6eaa4ea55e943d73eacaeb4f348; 0x3d19f6bbebc7eca951761542b5babba547adb59c;
   0x88d155f1f5a061b457dd453986bc66c20c1bf58c; 0x0e9079d2029d2fa3c28c3ae5ea252636f19b413c;
   0x0b5668d72624cb2d5b1119418c75f9ce1f976e08; 0x122a4cfdd4a4c942a9f2419265bc3dfd262e320d;
   0xb06e2807328a0a36a8027350129822dc168fbbb7; 0x40555eae0d968e78ef30892ec48dfa0f813cb0b9;
   0xeb71bc9e518cc22b3610307a682e307d499f1dd0; 0x10dc36923fc2ff3d4bf83615d0a8b6714955a28f;
   0x471d4d5efb9c15c4092efed761dd4da0c236f699; 0xa2f0d470b710ed4f0397107faf3c5e09b8f1f85b;
   0xafe1ae54ba2b0a1de994c81c4617f882ee7bfff9; 0x75974ec3772b0489e6d19e93ef5062c18e01eb9e;
   0xf2913d3e85a5210c347ff7983417b79f57aee175; 0x51d7b1aa2f4a90389c216812acf8179b6c7ff13e;
   0x48a8991dc20d4bf5da5577282801e6ab52a84626; 0xd66086a632adafd95867102696d9426b5b9c7176;
   0x86f22c3eba0ce82f590e82a28d1838c891fc5cd6; 0x447d93fb7675df5bfc55c802ba8b14058dda8c9c;
   0x012ee90231e54c7c4e0abc0d154b759c2efa7617; 0x2fd199f36a228784605fc8f84cc469af0744320b;
   0x456c66d496847fc822683430a3394807807f20db; 0xdd6bf1e8ad1f6e93a4ddd254cf4b0204c1b820a4;
   0xdef562f731c2c700d18332d58f275d418efedba0; 0x870d06641d73f39196b1efb3bc4abcc4a6650797;
   0x818e779aeed585399b3622880596aa7691d4026c; 0xaeb5913ca8f026adc827e17334b3d5cf722d1242;
   0x59fb16c10c52ce120e513f232af141901ad18d9b; 0xcd577352bc89e5b96b49708c50e374abb17384c4;
   0xda87a298a91181bb50c40f42a9075f4c54b8674f; 0xa0484161ec4416f835372525dde2ed7e3ebaa69b;
   0x12585ce51a3db7fe05eec3e875220e6534b9ab84; 0xecfbb90d03563e6a9dbed346a39e089d6154757c;
   0x21951a16230e76e6598e906d7696f051eeb283a6; 0xb723db682b070fee3c18160f3945edff8d50b41e;
   0xf2cbb00d6778cd06c31ade17b92fd0ce6f4008fd; 0x8eb2e0f104a8b403e0f7aaa413544c1b87c84003;
   0x615e1759b3f317e79e557902be999e5bf499ec8b; 0xe65b2e6f5438ccd11dd1a09e62c4b4a1a7710ad1;
   0xa7f96f024ab22a0ca21bacd40afbc59141e321ce; 0xdb8577473475bcc51aadb1eeee601a91c0cba453;
   0x32893043b087e2e15158b52bbf272d3ff067dfdd; 0xbc19b47747bd40c063ec012dcfe27b8d38bb8401;
   0xe85184cd6da5b1a30b4e363ed9978eeb368ab289; 0xf382cb0396d307947796e54d3a5fe08351d54981;
   0x35d5cfa5dc09ae81c2e8a22025f06326c5846da0; 0x33c5c1b1cb887dc6f2537ad1344c3619cdffa17e;
   0xbaba85c7ea4c1ff79f86bcbbf66778bf40bfd42e; 0x6309a53e7a2bc3ff0d63c16f4df5bbe26ec9b88a;
   0x9cf7adeb14c2884a37546de3f15cbdd832d4e05d; 0x05e2db00c5b5839dbbdfed8cfa0297dfeca12f82;
   0xa83b3c331d031bf7246256b6b7de0b38b36a9475; 0xb4dc29cd4fe600d38772cf520dc0ae6129f400ec;
   0xbbdddd54fedd41c7ec14a77fd3736ef99172136f; 0x6d0d71f6199839f28121bdd5594739ec3770f05f;
   0x3b09c913792bbdf5d2b08e31db3ce0a5bb8fc826; 0x3ac8a450de964ae8daddd12de9e48e5e0fb51059;
   0xcd52c46b329cfb078889133d5ce1d32444340f0e; 0x1731a4a1b4d711eff56f835342ad5f43c9453886;
   0x32e4067473ed8e097558f6978b108666d374db75; 0x9b3a1f0b8ad46bb732284d126e2057377d1b0a44;
   0xe579f55cb79d2cec5dab5a5f083e9532c0cad17f; 0xca5d6e7776e25d0e426256c0c895e904ae9cb6e3;
   0x43caa333d69f25944173ab6de2025ca2db086b80; 0x311f74599b16a614b8c8ba9d7cc8c3244c5f2818;
   0x0ab8ec48de808ed10ac020fa544036729bc055a4; 0x2c9ba24ec87f40dc95d427c97cf5d3aaa85e2acb;
   0xf300f80f91c420d38e4712b8d6cacd70b36a2941; 0xe56b6273bebcd15ba960b5f632022a9d1d9b2327;
   0xfa0b0fb3d61874487f1abc2737d0564ab1a4c6f5; 0xef3e9267c612b8bc573904386ac66442888f4a46;
   0xb873a2c52026fabf10430cef54674a924532fd6f; 0xd364d506720c7891823c5f9920f04f5f448e1128;
   0x84517ab6f85c6c3fe07e782e41c608f76bde5b94; 0x49850914fe4a694201ad955791c02b6759fc7f23;
   0x8c333c04fccffe5e2c642fcf92b8db1feb1d44bf; 0x29c98113a240d0ce9c5e7c83229b128f94d2b100;
   0x150b4febe7b197c4b2b455dc2629f1366ea84bd7; 0x6755227f4cd701ae647b60884527effbde9911f1;
   0x6f1002664394b3be21352396e13f4970f006fcc3; 0x6aa615f8df23f10603653769e19bf37458ec50d4;
   0x5cde0ccb7e21ac91dcd4eb4b73fc0ac32612b453; 0xd59551a032c70c47ab202eb834500a07c1d31d98;
   0xcc715f4adc022b1db972e43cfb881ad0678f4a8b; 0x96e65158721b90a105a75eb7aa6b23341d400666;
   0xa21f0dc86f150f9aad628cdaa49cb7a2ad67031e; 0xbf3b29a4dd3710a944a162f97246ba428ab7dc48;
   0x31801cc97ab652e5c968a57564e80de3f919ab99; 0x08ebea6584b3d9bf6fbcacf1a1507d00a61d95b7;
   0xc814a2f9fe71f35b8810c9e3968223defe9a2cac; 0xbaaaf35742d6588cbce8e899177ff22ad0276d92;
   0x559d2506baba89f0139a2fe0be131d702cd0099c; 0x11a01c0e46a42ef50159ffa72e0535a099a6a703;
   0x76766ab55c355aea546cb189c0cfecfc3d05bfa4; 0xd7c2edb33b8509e1e7cbab03e43e38835cf269ee;
   0x33af6e86eb58b0d5f354ce275d67825fb13479d0; 0xab35b9423deef8bf7d56ffe6d57d2ff4be970837;
   0xedf4c63fa2f3ab594318300c6914b0c9ae9d8612; 0x134d689477277dd204a2daafa1c07f2ee282c469;
   0x63f97e36d14680f795e19a62a8efb2c49aaee84f; 0x1b12103a396bd5d8f7d7f1265c5c04264255f555;
   0xa81f293c342441959ed575de1617c9b364f00ce9; 0x0f8684f6dc76617d6831b4546381eb6cfb1c559f;
   0x940459a510b2f4ad950795d4a47941391628bf0d; 0xa694bc4b69cee40cb0f5f630394bb73b09718fb8;
   0x8e1b30444abedaeacbd89cfe307982f410e82ce4; 0x0e1fccdf5025e66b470bd2c1e34e80074f2fe766;
   0x25e23c4c55374a8ccfefd8a902b6e98c967a51b9; 0x029321f57ee8f587ed56bd0a7c04c2bbc33e4a6b;
   0x4e050387ecd75b3f01cfc0c7adf1488ecab67a4f; 0x9f3f7e05aab600242c7ff00679347cd485d95ede;
   0xa621454e8d427d979aece75e2878a227db673db1; 0x3808a3194e2a8c24e2d5e732d3f3e69c63bd63f2;
   0x6b18696c96104beac4f651b735d3d302b64ffd41; 0x947fe3e1e9e1e1a539f980b15555dad74e0e9cad;
   0xadab380b91ef61c402ce6a8ef14dfdbaefaa1751; 0xa155063099ffd63f49a6e7bac9e68561a64b9256;
   0x98a058fc915151c16a4c2a762ae2c78f42815101; 0x12ac856f75401f57b5c04e8b03499a1af455dd09;
   0x61e54879cf26d7dd1a67ee7137b17a958386068e; 0xe2efb1576c7be371b900ba24e8143497f6c56888;
   0x0ae72609b7b6269bb1a289761120d490150b04a3; 0x20d6016f90cbd05e9d0ca996d9eaaa3a7330315e;
   0xc3723d43c42ab85209a86a6af9c6921b77dea5aa; 0xdd7a1aaa75076e487ccd7f5af83ab741d6ca9ae2;
   0xf41e060194220e8f2c0a4c77b549d4d82b362715; 0x0bdc4222a7ec8e0f37a97961c1ad58d6f7b49351;
   0x8622294effd18db494244360e486784febadafe0; 0x2e356a3dfe9d70fd266f2570345e98224af81336;
   0xd9ed1bd18ff7393de7233d91ad1d565a687d756c; 0x05cb24bdf186425a5feb33e4fdec9af41876c6c8;
   0x2ac8c6a686d3db80acedc1e8804ccbb57fdde64f; 0x4cbf097d5dc388042db18599b066ccd83050e46b;
   0xe2b5b4a7722a6c817e5778c84c899b0a094a382f; 0xae0d59a2bbc6a1d69b09d1d6c30d24d4a8a84072;
   0x083dea83dbe0f3ffe62b574fc4a9ccdb3817bd21; 0x08dc22e7d42cd1300ea5431617cd6db07ca3ca10;
   0x6c3742dcc00a2c0ee8882c7d7966c26ab794660c; 0x14702fdac28d83ee210a11f9907bf7c77738564c;
   0xf9fb28f6868cb8e7afcc0aff46dadf0a4d7fc83f; 0x6bcb2acef180da4cbf10c5d706a1c091e9e9a42a;
   0xe8192f973a6baf51ca104ecffa05bec848934e39; 0xc108ce5cae743399e7ac8f6849b632dc62afc4b4;
   0x9d7457c4942f8eac6df8188b5b6d61143c00bf13; 0x1bc7d34f2e1ec5e2bd6aa0aadc23b5db7fbf303c;
   0x8e7935f88b08ffa9cbb2c0dedffb454bd2480312; 0x3109b3b436486321b64b8e5d98044d7c77a5b2a0;
   0xff3b7d05ed4e7852837572a9c798094b7a52e97d; 0xfcd2cf865bdf9b87aa1e13e1fc994f253095301f;
   0x182e1ff8cb23c8362bbb8ace6e7acf00186d13bb; 0x45d66aea70e68909066c1f289f71571735514d06;
   0x06c9e70bfc11a6cdaf73ee2b602424448ebca4ec; 0x48da7f0e04047a9e60918314d3574d57a875f113;
   0x05435c1acf8e50751c1316a58834ab2cda0f88aa; 0xfaf1dfb630efed2fd0b9693051533c083f2ce529;
   0xdd521ea14c7cb0868936f121027603f45c449245; 0x39f3ce4ae3c153e9cb3aa9b2f9067e0f0172f246;
   0xb6b6ab0556345854ef5e2de5d6cdc4a26bab5c68; 0x94587a95917188b338c822de2d1e77074131589f;
   0x4a99f2fa189daa3863341a634ac3b85881f2a238; 0xd7cd35f019d2a8821f5b47485b30f8c0edc027de;
   0x83d1e5ad7c56ba726caa367d8d917e2af3b54306; 0x72fa3ed41af07841f140d507ef6e15f42f596eaa;
   0x28bf58e2610fb3ca6e1e64457e5e1255f7f46e65; 0x1264f5e144f147a6e1ec2249e03e7407f3eb9b0a;
   0x64c99af2016b06d8ec25e7ecc6a25045baef01a6; 0x42208b9fc73caf3706ca1bd705dfc9f3a81b08d0;
   0x80da2d0f385e153082bd2f6bcec942369857f5b9; 0xaba6a6082d8bd9fc13c50232cb2004ee849a56a7;
   0x00edc2963bff10b523a0938c202db90f9b5147a8; 0x7094741c8187911b6134b7f90fcac8fab62f80af;
   0x0a09b5046a3de8b02812d295b51eb2f62e28556b; 0xba60d419877451c721a364e45833fbb84d2e864e;
   0xc2e1fe1c55f831758af560232046779e49daa498; 0x90fd4ba9c29a0433cfc5e52a4ba329c2425ce06e;
   0x37ab76f590b9924193364305f0550a70ec499dab; 0xf2fd8712c54e43458b0b9e9a680c0c0f411b7494;
   0x99fe93ddefafd31f6258844fc82ad406f7442f1c; 0x3a87eae486c641820b13a476e67005a455ae7c34;
   0x396ddbab45d94f52aec815b7bda4635211c0bd85; 0x9885eedeff262953026a6bdfcfec9f81f3daa006;
   0xd8bb8d3760ffdbc721e4da0a0cd1121c1ee03d2a; 0x65f322c51b633341bd5d0ba377444602d12fee86;
   0x82e8936b187d83fd6eb2b7dab5b19556e9deff1c; 0xba5a776b497a5e53e2535ab6fe662d76288aa264;
   0x756cd664c25f63772fd53ea26c30049a61cffa67; 0x0f488dcd3e3205030fbd1926809bb98df30c5756;
   0x1cc897185440f6e223eb9eac6af2e6e3641267ef; 0x4aca1e189a604bf53fce5a4c69234bff769e670d;
   0x95294635a282666744916d8388efcf79a75d667f; 0xd969c6fbdcdcb4b548f260fd3e965bdc8471129a;
   0x47f0a063e5e5add2daacf76689f994365566fd7a; 0x37148f6b237bc37d617392d4edc63f92802e6743;
   0xd8c5d96d654c78aa5111b3800b55c1d048fc73d0; 0x03004a8736fb9dcb136fc5f719f6ced2e9509f5e;
   0x67f393ffd13c57af007d1a5d315a8a33345100a6; 0xb9015c3894a995ee4e538be9847665ac2d30661f;
   0x5ea9ff6345f423ea66905c5930ead14fe1747684; 0xd52ebdd4626e1f1eb829abcbad358a6f649c8ffd;
   0x669625aa7e158117fcb26463622893172a5a701b; 0x19bc3f1de99a043f08e838f4d976b6d9e0d2d353;
   0x801100c7f48dfb8755b0ed6a818eb0d8f9366579; 0x16596873348261f41fb08502e70396bf37335069;
   0x836d073f8cb8ff2b8279386fcb7fb075bae4273a; 0x15f50c91869fe69c73b2392a1f2ae1113e688188;
   0xee1f65c97c256cb424d9aee8cc8cefef9d8375fa; 0x96df53d9a19d70a199c3af0eb412f3e7c5f2b767;
   0x287fdfc715cc676abeb5583689d856f675ab44e3; 0x7fe8da0b854956526eb1540eb7068eb2668e3b35;
   0x42bc327db877964276df49ddcbc59035f2267199; 0x4276fa441c95f36d3d95316297539fd229567430;
   0x8339c600c21b914814812f509d3d21fdcac86ac3; 0x59d9d7fc7b5b4bc37c513420353a8a1d3fb6b46f;
   0xb9a57a854710f837661b31c35a9d2f8b94fc03f3; 0x3333c5134f6842b85fbeee01b69bdca6a2da4c62;
   0x94f56705b3a776f08728604b0fb7a642774f825b; 0x651381a1d075d918d6f864130db7bd6be6bc81d3;
   0x3ab0ed9f847788e9373b835fb82dbf3ac042e25b; 0xbd44999904c59b87403a1824b3d199d520e4fa46;
   0x0d0628076238b734759c29e575fba331de2a9f09; 0x29b91c5427e06f6b690c97aef7aabba5f1efb788;
   0xe2f7141247dbbaa71776563001e46ec16573f1cd; 0x4ce0720d5be63067b19d895c5906742ff78ea31f;
   0x62ed8acfb037f2f032d2007a389099b6b2987fa9; 0x5cdd7d799bbfe72287a0ac316fa2b6e311fdab83;
   0xe083c8f046f96fadc926705fe1dd1ba2ab3e9a63; 0xf785246b640ab0b502c0331aebd87024c1920fa4;
   0x833c213af8bb4ac626ca5913f174ca97dbcd9d57; 0xff65bf59cc4fe5cbaa30179540c3ede966388451;
   0xf6fd7cca64b0f820ac22cb45eff73caf3d45bff3; 0xe2aa22be6d1c042bbbbc96f9284ef48750627a4d;
   0xb9acf5bbbbcb0804f5cc5a4e41e34e4532a0d460; 0x69bc29d277e43f0a253ca7bb79a72da6da4bcba1;
   0x6666b912fb63068e1465939c46fc6c2e300e0620; 0x71cd50ba682de704fa0010a2da238fddbc958697;
   0xec190235fe6d05b352826da07e12324b358906d7; 0xc3da1e332dc1de729b1ae2aa94821046be4ff1a4;
   0x5113ec6adfc0ef0f848fba47b31be8eae44fbf1d; 0xd41c6e0a37f964eba7e71d47f634ac5a7c44a409;
   0xb5f6e945223fe9eb173db01846024cb69fbc729a; 0xf2c4b0b9c08cd870ec11636d5e028424b6796b12;
   0xbe790a97479831b5dfc7132e52f9810990417e37; 0x50a33ddfba6d91d106f666efba57b87d4ee1d729;
   0xed09e336ec6b64ad1e792e284aaf8d0b43e3e333; 0xa9d813547686ddb7dc199ed0f567b3f8bc04179a;
   0xcb609819b419d250026b595ab62db9be680bf24b; 0xd4184145aa539624e663a686819e5a4da4f1f8e9;
   0x5913ab6179430a1660ffba7e2228f5cbf00a57c8; 0xd1d78ba4dbcec5825e451bae171ee3c7960110b6;
   0xb3599118b8eee74d009c43c95af4c20e9a35a8db; 0xd2839749b28a048e6a82257b4292515165e0eada;
   0x46a6b768f76668d2afd63a99e71d1cf5718f97c5; 0xbc257b445078fdb766468279f4844cb754e1a508;
   0xe2efb17daf81b81c89ce56b08f764c915a8e7edb; 0xab18f9590fcc73a300dea11d167498b5660a4362;
   0x164f91accd8246b7494615db0cdb4763b504ee7d; 0x398f471ada182538cc9a91e5cfa3b162ed420107;
   0xd79c5179b281f72f609fdc23bdc0d7e3b7afb5ea; 0xe852f654dfaee0e2b60842657379a56e1cafa292;
   0xff36ea060569afaf1be16526c7696aa0f5e9f571; 0x1e180d121eff6cd1b376af9318d4128093c46032;
   0x997b1454b0e843406d1f2ad1f25ef92125c45c90; 0x5fb951298ebdecd399c01e3a74919e445c094237;
   0x44a32b51e2553c0434ecdb43a4bed4b4b2e6b41f; 0xcefcca169357a18eb8c3f230f92b58562e48cae5;
   0xfe76517b987f66b786ab05c1d445e246cec5b38d; 0xb8114421f9a5b87f5e59ddabba303e7ab60bf7c8;
   0x153bcc457bb61fe7c888ba968ad3c82166a2428e; 0xc58439f7d84a61cac65a7f59e42ade934f8d4e59;
   0xd1ede7b4e1b91af49d370e69d8471d24707a1456; 0x4df40833d56bb5c95ec8a5963f9ded662cec425b;
   0x718808345fd7da9260ff0074b8733316e3b098ab; 0x4b97b8e54f5dad36b02f557f3e6b974da9e89241;
   0x75aa60a7080b4ceaa54dcc97afbd87ef4ec7d43a; 0xbffd20daf6d7696a289917edcc48f75b19cfcf51;
   0x0413a36a327625c60774d53c7bb452e01122e1a6; 0x5f1619d49193fbdcb9e409fd213700656288bf36;
   0xbd7f703918502b8c5724c49cc8ed8214b0046049; 0xa02c6c3b3be52438f66b3970e6d729d1805d96c3;
   0x5e8126458b3f13d488d482adc00a8c4b9df5d3b6; 0x848ec68f3221ee18a85e7117a1deb2f8c74e5795;
   0xf73a7053167c175552393610996516ecde7631a9; 0xbc32e7e83e5272da9721d3adc9d9f1953ec5a601;
   0x46041bd1bb42a34a59cb99e585310a61db065bca; 0x4aab4babb932086100a20e16d96937bd6898af7f;
   0x80a63a848c2b945275c4d49c6554edf35e13a656; 0x3355365bfe29b0e04d7c4f4856c232c9c32c4705;
   0x735c2311d9872615812aa18206ff65b79f1b06f0; 0xf49ff287d22a8c3cb578f0ea27a54bd13c29e5f5;
   0xef01faf03e976c3e5fbc6fcc21fdbe3741ab1ed4; 0xb55fc2c8ff8cfde68eb00b902a6324462943ba78;
   0xfead5511bda968516b6629d189c391f79e554b60; 0xffd316715c055f00adfb68059dbcf9641ced2238;
   0x0276996fdd754ca1b043e72c760f4f2b8c034595; 0x49a0ad50ab8b5cae51a1cb155a323029723b81e7;
   0x26954f80cdcf384b7ad06ddbb9b19b62c542ec9d; 0xa7c178aae0c70c424a3882751cec495f6110dd0e;
   0x0e9ab07a56576f8ab8d4508c729600a587b249d5; 0xba959ed4f4acb3b495c132378fa09190ef80b2d8;
   0x48ab4feba1bd3a324ed5236d4467e7f407324a3f; 0xdff1ef2b977b3e1c1c32068820f36584003cbdd3;
   0xaf00da8de458932ca7a2de0ad90f89efd8d78192; 0x9b7f77a7e3d41112d5a03282b36f6b75ca9c7ccf;
   0x4ece62124441dac7090ba575221f7b5d37bfc71d; 0xf44c558e1df1142b3b705fdd90ade6077ddca062;
   0x919a5def0b7b4d2915e50da19f7db300a8bf7760; 0x4b1070635c679410648f4d9390a14343a96b5053;
   0x78b7ce2c3e3dfa1a1fa6544d6337aeda56f2c5da; 0x6f3de7c4822ac6f2cac470d450882e70114bafcd;
   0x86479a6e294d3b27f608a5b16ec3fc22cf582c70; 0x1ce46b7bf47e144e3aa0203e5de1395e85fce087;
   0xe3ebfd96d7522ffedc8955278cce5398a8447182; 0xa5838a1834dec705e4fe50b5be1566f8838a379f;
   0x1ce37036084bcca59af47cabd95a3bdb79508e20; 0xa3b43dae25c4a232afff1486177719d82b1a1a01;
   0x12fd1aa0a54d2b8ab244d5d600213dd5d80e0d0a; 0x883e0fa9a660e8d7b31667fa66dc444ccbb75cc3;
   0x72e26404a26104b63256c262b999a9a5b7c35cc2; 0xb07cb8afe59f230f5445db2af95b58f3bb98008b;
   0x7188babb7612daab83c19462110b699a20eb1264; 0x2b3ea8dda64f80c122af2396fdce52845b8e3b00;
   0x95c2661ba148e6db5e858ec75aa9bf156773db9f; 0x0d3b1fa8d870326f8a2375b3fbffb3b70f0c4800;
   0x16265cdd56a5d6d906eb76637c63e8567a28c6c5; 0x67315df1fc8124be82c1236f695628f64a2f453b;
   0xda76ffdb5dfcd35840ce6d951c55e4b9fc3cd7f3; 0x6923973e6f913cd449107fee68ac9265335ec1a4;
   0x15839e413da3b061806fd5f19cc1557d184ea499; 0xaf87a093ff36174d3b3f06ec469c380db643d534;
   0x226b124c9d2605c35bb24ea4e607e882818852aa; 0x2c6c87c763bc962746358eaeadcfeed840252f5b;
   0x190703ad7133193c2274f96e91f503b8a01d0f2f; 0x32294ac59a41ec22702d98b36c87d39c910cef9f;
   0x52a91a1f184eaf57e104ab4924cb512590487b11; 0x03ac1eff3bee5fd8d761f7f2a5a0e45c332b15a9;
   0xa5a1016eef53b8097cf6a256869a7338bbad4049; 0xb5a4907482cb79dc36323f710f58f643c8f2b85e;
   0x67c7a2630c67db40ef190e72949df40310a932ab; 0x448ea71dadb389c8cd94cf7f34ad58aaed317536;
   0x62eff1e3de2b3caceb5b95f7fd5980c17ced0dca; 0xa0b0ace25cc157a5403e562b11e7fef2e5aa69d5;
   0xa5b85a14d86b86dceba869e381bb6d25d62d4082; 0x01fe7d2130dcbb47da8c3fa5f0caf41e033ce6cf;
   0x5002b316ce785262ad5e98df37ec0a433f68c57c; 0xccb8a32739579b704474c3988278457637a2fca8;
   0xc981631cd196bc324a6466dc3fa11d9c96c25ed3; 0x790ca8e194ba72a868e55e9638ee6e92e733a460;
   0x2ef59a53ba6741decb0ccba1c0034d89c932faa8; 0xe16d8f377440b0e95f84ae2960ceb10872326eb5;
   0xbe7acad0aa02ed06c7f3c27c6172b36e93d70662; 0x1165927636849c87680951c38f59d12a1049e76c;
   0x776b7ca762b1f3713853f03ea2bbbe0d644bf53f; 0x4b6a7c6154250e7b4076dfd566ef9701cb1959b7;
   0x651edc6943b83287991de6506805b272fcb74f68; 0xc846ca0e3f3117d44f78bead61db0a9573bcbd5a;
   0x6000b0c987a60fa600038336468cfca07d87472d; 0xc0d059f7b4db726314238105f4a69e25050f283d;
   0xc315fcf319a00ef06e2e4d7bbe99907091e1e9f1; 0x5bef3cd067d67e98ac0736c3c6e89174e223fb7e;
   0x70680774cac8562299106badcf7afc1d47a8a8e4; 0xcbee32e657ddfb4eb0c9693e3bcedcc30a6082e0;
   0x85320afdec9db950b6f443472f6aaa1079750f28; 0x5d1792eedfccc053e84c3c428922e90641864d31;
   0x1c75acf3ed5bc306bd5341b28a6085e87b98f944; 0x1c172c8b0272d95f2611097ec6c839f89d10d626;
   0x3af205ccec62a1eed976ebd4de850e43821602ba; 0x81fc21bfccf416aa19672ef32cc5144598945664;
   0x5b16543c283dcb8d3c42585a4a479d4c97eefae7; 0x8a0a06911887fbb441e88864ed97b80d7c439b24;
   0x793208d2d5776c63a7105ea3011b53b7e8b1b174; 0xd82f67af2f436c046c0b28743f8949db3909e835;
   0x4e1b3f19a9014ad309d8ecf7fb1979a72af7baa6; 0x990baeedd63fe67ac05cf5717d4774923e8173ec;
   0xe353ddb0bfa58a7ee5f29356b745dd21c5c21336; 0x04ec46b882298789cee2a1f774b23246bed8d7bd;
   0x38c3d791907dfa5112cf8699d36a89a560e966f2; 0xdf3a86093845d39bf5bd1102f2abc5f844359677;
   0x2400ac2b8860cdb2528421d6b49fe87f237e078d; 0xf8f85c9ed32574f4de3a4a8447f8ac689982e57b;
   0x2befaabee26cb6ab642a28a8fc16c78c60dce402; 0x4819da611933e182d798c88cdd283e54ac9b96b2;
   0xa51653ff0e1fce85d8d3f1460c58726aba0b2035; 0xc9d2eccf30157fe00a37c0e75ab09b804a8ce2f5;
   0xe6d3dc7e34483b541457975d319d23f21af2f247; 0x71f60cecdb60be5ec2d081ebc1fd7abab73a01d6;
   0xb3a232d50ca037144b8313eb18d8fb9e2ad3549f; 0x5f2721c9786767388f1199e0f3a282a6cc2630b5;
   0x3a36e9c777176cba8850dab93dfbae69c7f49130; 0xe2a9dd34e32b519b61f644e96fd5766289b4b87b;
   0x7e28fa6f1e2e7e01dff459cbdc29a92ad6ff20f4; 0xf19aeb0f2d0f53e6e2f015a7c531f6c271858ba4;
   0xb34088b535c66346496259f04cb0437e2fb9ec67; 0x2ad6a8bf907e9e44fdca8b51e0a6a6cfdddf303e;
   0xede707c892cd485f69d9f0356a8de798e5dd630e; 0xbe790e879dd2991d7579c9764580dbee9573fca8;
   0x41e8e0beae637255cbe592a09478f88d67c2b291; 0x8d10d894e99c76cbfa77f29af1d8ba1c7b9c02ec;
   0x0e580ec9f2f36c80d3019c8440fd5c7b6922d5df; 0x7c6b4ffd788037c9da981c5dedda9e5fa26f4f86;
   0x8978aa9ce267d9097673893feeeb403f024bc662; 0x821906f583649ccf971506e8825c2ab4cddc97fa;
   0x294436e2be89d67ae6449847abb4f412d9e89c7c; 0x0fc14eb3f1abf5ebda1c917ba86430e20068f630;
   0x65b9cd122f60c23c3b082468ea576b2a44c93813; 0x516440cfcdb87697993ae6a2db914b70ad1777d5;
   0x51059c80743bbb24d9d8a10840fd21b256547612; 0xd2a021c33ea0479dc220d6e01a2b06ea579cdd34;
   0x8bf565ee17d866b500f7418b98d669e586fdc544; 0xc3ba930c33376dc9091dcfa98fcd46490829fd0c;
   0x566af7f8a838029ed09e70fd3b0371f0b9e4cda8; 0x13fc458e30be023f4d8a0a9c6afe681ef5a48b44;
   0x98c2822dccf86ff87ea7cde92a651036267e9d24; 0xcfb25ed1f1b433f274bc1e0640c8380421d0b9cf;
   0x295a4c5c5b1fd76314399d5fd83f2cd7d3c3eeca; 0xe73e1fb6ffe2ba55e05a4a99070a5ade2aa1d093;
   0xce2a748bf2b4baa7a7776af737a3151f7feb9f53; 0xf4b882bf2832f87b3bc5a691f79a6cbb14e552c4;
   0x7025a5be7f23c469c1a8f1480914fdada7f4a374; 0x243182372d45e5b6986fa4f6586e0eb17da651c5;
   0x1b7cfd4732d1c04d792710373baa23f15472d771; 0x45fd1092856b136f5c259e326abf40d275dee992;
   0x74c7343db71d9d76720c2c1772c6338f87e7e2cf; 0x8e26530e1d3ce2e31322ff12ddf27a65cc2bd92a;
   0xc5227c50671d7243bed8b3df31bf8fd4d008c86f; 0x5f496e7f1f18bbddc2fa98b36483ae1c138c87a6;
   0x700f4911cb5102e364bfdb5e2f24c701b104130a; 0x3b3717c1432beb2d75bd638cf21c1ee4e29b9ce8;
   0xa984982913e35b2f3920db5c32c912c9cb0431c5; 0xc081ecf5fbf96745eab0611660254ec1aa318c0e;
   0x69d4a18dc3f13c9e8e3725a50cca0c1d287a33d2; 0xf0ad79db078b24a30da65fa88e4e3afefcc9d965;
   0x005090ffae353557ed9d604befb2091c9b920dd9; 0x037a2ea3155c088005524038df61f1fd794696c8;
   0x0c228a7cc9f7ee7956b30bdf914d65751cd2f132; 0xbeb3e4c38ca75b0ded06f70f5e2cbd9e7f55a472;
   0x71e0e515b418a870c125efbac180ee450f9fe4ed; 0xda21628b0edd5a38f0035e4843841b5ab0703688;
   0xbe5d8c97c512aa03dffb29b4a94a1cafd0d0a426; 0x7939c47e71d21191eedbe501bd5404058c8a5060;
   0xefad8808aeed83897d17a8fe8b41e64b9646a151; 0xde647d750e03226ccbea44d43abe4d27da81971a;
   0xee78a1b40d9f5624f901ebd3d9fc9eea119ae49f; 0xac31a141c27fa4885b67c2d399eb18c09cf7576d;
   0xcd999a86c54e935ce9e6b0b12b079b5f0bf9d16b; 0x4da7255ae7de67b8f7e9f680bf29e2c3f1f68138;
   0xa7725dfd2a7c93d5cd41d0802384d2702792f84f; 0xe8cd049fa6765e0d66e2080e529d2e90a985da44;
   0x99669d9c7823bd84a1c937cf86c074ff73477707; 0x592da7c1b8b9cca9a20ece5d6070f8140895de6a;
   0x5ea861872592804ff69847dd73eef2bd01a0dde0; 0x78be5b7a6b54e54a6d84900d4470d66e30a0f5e0;
   0x24f62c2df1d9c321985a3581561f8ba22961635c; 0x54b7204deb0799bf5fadec27e37d8985252e33d9;
   0xd0e146cf30fe174036c0b7cc262ba3af331e1230; 0x0c6672db9e89f6fcfabd51930041e5a27a46fe17;
   0xd4410a348663be23d0672a3538640ae82d0be728; 0x794dcf9411d0edf4be0154002a09227241b44eb2;
   0x06528e0053a32e67089752af30014de06beff1b7; 0x4174fe60fbd6efce299a33521df2dab3434233e4;
   0x6e1e0bc330d301585cfed449263aa90852f9acc6; 0x3a7169139a8f658aa05199f485b8670221265261;
   0xa13a2be982af468b9030495a020aa5f1765c059a; 0x3e879ff2f407804041cfb23dd72b77ec2f2c97b5;
   0x32b5bec6ac86fc269b87d9e7533e7a24143edd0c; 0x27974b8dedfd300c7841348a0e1b46049a4b23d9;
   0x2871c15ae3bf14a0cb50f668547c9ba67d133c22; 0x550fd4cea17e129504a04622a79a62ad6992e7b6;
   0xf761c91bb6a0efc1bb55127f0b40f2ef25a7c1ec; 0x0ab5dda6f096e127af74d4b64a101ac6c43fa128;
   0x8be2191d7ce01dbbe93c87fcd889a428a317d919; 0xd9f5e8f2d2262853b7c38f1c44feb4f39842e9c4;
   0xe17acf13bdd7d2ef5a9c8b9f43a1aa03b8333e94; 0xb6474b2266ce86c5e9e8bf700fe328566f65d4d2].
