(* ===== verification/VMConfig.v ===== *)
(** * The configuration of the virtual machine

    [params/protocol_params.go] and [params/gas_table.go]: the prices of the
    machine.  [params/config.go] and [vm/chain_config.go]: the blocks at which
    its rule sets take effect. *)

From S2P Require Import Prelude.

(** ** Prices *)

Definition CallValueTransferGas : Z := 9000.
Definition CallNewAccountGas : Z := 25000.
Definition QuadCoeffDiv : Z := 512.
Definition LogDataGas : Z := 8.
Definition CallStipend : Z := 2300.
Definition Sha3Gas : Z := 30.
Definition Sha3WordGas : Z := 6.
Definition SstoreSetGas : Z := 20000.
Definition SstoreResetGas : Z := 5000.
Definition SstoreClearGas : Z := 5000.
Definition SstoreRefundGas : Z := 15000.
Definition InitCodeWordGas : Z := 2.
Definition WarmStorageReadCostEIP2929 : Z := 100.
Definition JumpdestGas : Z := 1.
Definition CallCreateDepth : Z := 1024.
Definition CreateDataGas : Z := 200.
Definition LogGas : Z := 375.
Definition CopyGas : Z := 3.
Definition StackLimit : Z := 1024.
Definition LogTopicGas : Z := 375.
Definition CreateGas : Z := 32000.
Definition Create2Gas : Z := 32000.
Definition SuicideRefundGas : Z := 24000.
Definition MemoryGas : Z := 3.
Definition MaxCodeSize : Z := 24576.
Definition MaxInitCodeSize : Z := 2 * MaxCodeSize.
Definition Keccak256WordGas : Z := 6.

Module GasTable.
Record t := mk {
  ExtcodeSize : Z;
  ExtcodeCopy : Z;
  ExtcodeHash : Z;
  Balance : Z;
  SLoad : Z;
  Calls : Z;
  Suicide : Z;
  ExpByte : Z;
  CreateBySuicide : Z
}.
Definition Homestead : t := mk 20 20 0 20 50 40 0 10 0.
Definition EIP150 : t := mk 700 700 0 400 200 700 5000 10 25000.
Definition EIP158 : t := mk 700 700 0 400 200 700 5000 50 25000.
Definition Constantinople : t := mk 700 700 400 400 200 700 5000 50 25000.
End GasTable.

(** ** Rule sets *)

(** A rule set without a block never takes effect. *)
Definition isForked (s : option Z) (head : Z) : bool :=
  match s with Some b => b <=? head | None => false end.

Module VMChainConfig.
Record t := mk {
  ChainID : Z;
  HomesteadBlock : option Z;
  EIP150Block : option Z;
  EIP158Block : option Z;
  ByzantiumBlock : option Z;
  ConstantinopleBlock : option Z;
  IstanbulBlock : option Z;
  LondonBlock : option Z;
  ParisBlock : option Z;
  LastPowNonce : Z;
  BaseFee : Z
}.
Implicit Types (c : t) (num : Z).

Definition IsHomestead c num : bool := isForked (HomesteadBlock c) num.
Definition IsEIP150 c num : bool := isForked (EIP150Block c) num.
Definition IsEIP158 c num : bool := isForked (EIP158Block c) num.
Definition IsByzantium c num : bool := isForked (ByzantiumBlock c) num.
Definition IsConstantinople c num : bool := isForked (ConstantinopleBlock c) num.
Definition IsIstanbul c num : bool := isForked (IstanbulBlock c) num.
Definition IsLondon c num : bool := isForked (LondonBlock c) num.
Definition IsParis c num : bool := isForked (ParisBlock c) num.

Definition GasTable c num : GasTable.t :=
  if IsConstantinople c num then GasTable.Constantinople
  else if IsEIP158 c num then GasTable.EIP158
  else if IsEIP150 c num then GasTable.EIP150
  else GasTable.Homestead.
End VMChainConfig.
