(* ===== verification/Words.v ===== *)
(** * Machine words

    The words of the virtual machine are [*big.Int] values below [2 ^ 256];
    this file has the functions on them that [vm/] takes from the standard
    library and from go-ethereum's [common] packages, and the big-endian byte
    strings they are read from and written to. *)

From S2P Require Import Prelude.
From Stdlib Require Import Ascii Zpow_facts.
From stdpp Require Import list.
Open Scope Z_scope.

(** ** Integers *)

Definition word (x : Z) : Prop := 0 <= x < 2 ^ 256.

(** [math.U256] and [math.S256]: the value modulo [2 ^ 256], and a word read as
    a two's complement number. *)
Definition U256 (x : Z) : Z := x mod 2 ^ 256.
Definition S256 (x : Z) : Z := if x <? 2 ^ 255 then x else x - 2 ^ 256.

(** [math.Exp]: the power modulo [2 ^ 256], by squaring. *)
Definition Exp (base exponent : Z) : Z := Zpow_mod base exponent (2 ^ 256).

(** [big.Int.BitLen], and [Uint64] of a [big.Int] that is not negative. *)
Definition BitLen (x : Z) : Z := if x =? 0 then 0 else Z.log2 (Z.abs x) + 1.
Definition Uint64 (x : Z) : Z := u64 x.
Definition Int64 (x : Z) : Z := i64 x.

(** ** Bytes *)

Definition byte_val (c : ascii) : Z := Z.of_N (N_of_ascii c).
Definition val_byte (x : Z) : ascii := ascii_of_N (Z.to_N (u8 x)).

(** [big.Int.SetBytes]. *)
Definition SetBytes (bs : list ascii) : Z := foldl (fun acc c => 256 * acc + byte_val c) 0 bs.

(** The low [n] bytes of a number, most significant first. *)
Fixpoint be_bytes (n : nat) (x : Z) : list ascii :=
  match n with
  | O => []
  | S n => be_bytes n (x / 256) ++ [val_byte x]
  end.

(** [math.Byte] on a word of 32 bytes: the byte at a position, counted from the
    most significant one. *)
Definition Byte (x n : Z) : Z := u8 (Z.shiftr x (8 * (31 - n))).

(** [common.RightPadBytes] and [LeftPadBytes]. *)
Definition RightPadBytes (bs : list ascii) (l : Z) : list ascii :=
  if l <=? Z.of_nat (length bs) then bs
  else bs ++ replicate (Z.to_nat l - length bs) zero.
Definition LeftPadBytes (bs : list ascii) (l : Z) : list ascii :=
  if l <=? Z.of_nat (length bs) then bs
  else replicate (Z.to_nat l - length bs) zero ++ bs.

(** [data[a:b]] of a slice; out of range it panics. *)
Definition slice (data : list ascii) (a b : Z) : outcome (list ascii) :=
  if (0 <=? a) && (a <=? b) && (b <=? Z.of_nat (length data))
  then Ret (take (Z.to_nat (b - a)) (drop (Z.to_nat a) data)) else Panic.

(** [common.BigToAddress] and [common.BigToHash] keep the low bytes. *)
Definition BigToAddress (x : Z) : Z := x mod 2 ^ 160.
Definition BigToHash (x : Z) : Z := x mod 2 ^ 256.

(** ** Ranges *)

Lemma byte_val_range c : 0 <= byte_val c < 256.
Proof.
  unfold byte_val. pose proof (N_ascii_bounded c). lia.
Qed.

Lemma SetBytes_app a b : SetBytes (a ++ b) = SetBytes a * 256 ^ Z.of_nat (length b) + SetBytes b.
Proof.
  unfold SetBytes. rewrite foldl_app. generalize (foldl (fun acc c => 256 * acc + byte_val c) 0 a).
  induction b as [|c b IH]; intros x; cbn [foldl length]; [by rewrite Z.mul_1_r, Z.add_0_r|].
  rewrite (IH (256 * x + byte_val c)), (IH (256 * 0 + byte_val c)).
  rewrite Nat2Z.inj_succ, Z.pow_succ_r by lia. ring.
Qed.

Lemma SetBytes_range bs : 0 <= SetBytes bs < 256 ^ Z.of_nat (length bs).
Proof.
  induction bs as [|c bs IH] using rev_ind; [by vm_compute|].
  rewrite SetBytes_app, length_app. simpl (length [c]).
  replace (Z.of_nat (length bs + 1)) with (Z.succ (Z.of_nat (length bs))) by lia.
  rewrite Z.pow_succ_r by lia. pose proof (byte_val_range c).
  change (SetBytes [c]) with (256 * 0 + byte_val c). change (256 ^ Z.of_nat 1) with 256. lia.
Qed.

Lemma SetBytes_nonneg bs : 0 <= SetBytes bs.
Proof. apply SetBytes_range. Qed.

Lemma length_bytes s : length (String.list_ascii_of_string s) = String.length s.
Proof. induction s; simpl; auto. Qed.
Lemma length_string l : String.length (String.string_of_list_ascii l) = length l.
Proof. induction l; simpl; auto. Qed.
