(* ===== verification/Memory.v ===== *)
(** * Memory of the virtual machine

    [vm/memory.go]: the byte store that grows in words, and [vm/common.go]:
    the sizes and padded reads the instructions use.  Reading a slice behind
    the length of the store panics in the model; the interpreter resizes the
    store first, so that no access is behind it. *)

From S2P Require Import Prelude Words.
From Stdlib Require Import Ascii.
From stdpp Require Import list.
Open Scope Z_scope.

Module Memory.
Record t := mk { store : list ascii; lastGasCost : Z }.
#[global] Instance eta : Settable t := fun m => mk (store m) (lastGasCost m).
Implicit Types (m : t) (value : list ascii).

Definition NewMemory : t := mk [] 0.
Definition Len m : Z := Z.of_nat (length (store m)).

(** Go's [copy] into [store[offset:offset+n]], of at most [n] bytes. *)
Definition write (offset : nat) (value : list ascii) (s : list ascii) : list ascii :=
  take offset s ++ value ++ drop (offset + length value) s.

(** The sum is a [uint64]; when it wraps, the slice panics. *)
Definition Set_ (offset size : Z) value m : outcome t :=
  if 0 <? size then
    let end_ := u64 (offset + size) in
    if (Len m <? end_) || (end_ <? offset) then Panic
    else Ret (m <| store ::= write (Z.to_nat offset) (take (Z.to_nat size) value) |>)
  else Ret m.

(** The bytes of the value, most significant first. *)
Definition Set32 (offset val : Z) m : outcome t :=
  let end_ := u64 (offset + 32) in
  if (Len m <? end_) || (end_ <? offset) then Panic
  else Ret (m <| store ::= write (Z.to_nat offset) (be_bytes 32 val) |>).

Definition Resize (size : Z) m : t :=
  if Len m <? size then m <| store ::= fun s => s ++ replicate (Z.to_nat (size - Len m)) zero |>
  else m.

(** [Get] copies and [GetPtr] does not; nothing writes to the store after a
    [GetPtr], which ends the run. *)
Definition Get (offset size : Z) m : outcome (list ascii) :=
  if size =? 0 then Ret []
  else if offset <? Len m then slice (store m) offset (i64 (offset + size))
  else Ret [].
Definition GetPtr (offset size : Z) m : outcome (list ascii) :=
  if size =? 0 then Ret []
  else if offset <? Len m then slice (store m) offset (i64 (offset + size))
  else Ret [].

(** Go's [copy] moves no more than fits. *)
Definition Copy (dst src len : Z) m : outcome t :=
  if len =? 0 then Ret m
  else
    value ← slice (store m) src (u64 (src + len));
    if Len m <? dst then Panic
    else Ret (m <| store ::= write (Z.to_nat dst) (take (Z.to_nat (Len m - dst)) value) |>).
End Memory.

(** ** Sizes and reads *)

Definition calcMemSize (off l : Z) : Z := if l =? 0 then 0 else off + l.

(** Bytes behind the data are zero. *)
Definition getData (data : list ascii) (start size : Z) : outcome (list ascii) :=
  let length := Z.of_nat (length data) in
  let start := if length <? start then length else start in
  let end_ := u64 (start + size) in
  let end_ := if length <? end_ then length else end_ in
  d ← slice data start end_; Ret (RightPadBytes d (i64 size)).

Definition getDataBig (data : list ascii) (start size : Z) : outcome (list ascii) :=
  let dlen := Z.of_nat (length data) in
  let s := Z.min start dlen in
  let e := Z.min (s + size) dlen in
  d ← slice data (Uint64 s) (Uint64 e); Ret (RightPadBytes d (Int64 (Uint64 size))).

Definition bigUint64 (v : Z) : Z * bool := (Uint64 v, 64 <? BitLen v).

Definition toWordSize (size : Z) : Z :=
  if MaxUint64 - 31 <? size then MaxUint64 / 32 + 1 else (size + 31) / 32.

Definition allZero (b : list ascii) : bool := forallb (fun c => byte_val c =? 0) b.
