(* ===== verification/Analysis.v ===== *)
(** * Jump destinations

    [vm/analysis.go]: the bitmap of the positions of a code that are data of a
    push instruction, built eight bits at a time, and the test of a jump.  The
    code keeps the bitmaps in a cache under the hash of the code; here they are
    computed. *)

From S2P Require Import Prelude Words.
From Stdlib Require Import Ascii.
From stdpp Require Import list.
Open Scope Z_scope.

Definition JUMPDEST : Z := 0x5b.
Definition PUSH1 : Z := 0x60.
Definition PUSH32 : Z := 0x7f.

(** A slice of bytes, written in place; an index out of range panics. *)
Definition bitvec : Type := list Z.
Definition or_at (i : Z) (x : Z) (bits : bitvec) : outcome bitvec :=
  b ← deref (bits !! Z.to_nat i); Ret (<[Z.to_nat i := Z.lor b x]> bits).

Definition set (pos : Z) (bits : bitvec) : outcome bitvec :=
  or_at (pos / 8) (Z.shiftr 0x80 (pos mod 8)) bits.
Definition set8 (pos : Z) (bits : bitvec) : outcome bitvec :=
  bits ← or_at (pos / 8) (Z.shiftr 0xff (pos mod 8)) bits;
  or_at (pos / 8 + 1) (0xff - Z.shiftr 0xff (pos mod 8)) bits.

Definition codeSegment (pos : Z) (bits : bitvec) : outcome bool :=
  b ← deref (bits !! Z.to_nat (pos / 8)); Ret (Z.land b (Z.shiftr 0x80 (pos mod 8)) =? 0).

(** The two loops over the data of a push: eight bits at once, then one. *)
Fixpoint mark1 (n : nat) (pc : Z) (bits : bitvec) : outcome (bitvec * Z) :=
  match n with
  | O => Ret (bits, pc)
  | S n => bits ← set pc bits; mark1 n (pc + 1) bits
  end.
Fixpoint mark8 (n : nat) (pc : Z) (bits : bitvec) : outcome (bitvec * Z) :=
  match n with
  | O => Ret (bits, pc)
  | S n => bits ← set8 pc bits; mark8 n (pc + 8) bits
  end.
Definition mark (numbits : Z) (pc : Z) (bits : bitvec) : outcome (bitvec * Z) :=
  '(bits, pc) ← mark8 (Z.to_nat (numbits / 8)) pc bits;
  mark1 (Z.to_nat (numbits mod 8)) pc bits.

(** The loop over the code, which advances by at least one: [fuel] is the
    length of the code. *)
Fixpoint bitmap_loop (fuel : nat) (code : list ascii) (pc : Z) (bits : bitvec) : outcome bitvec :=
  match fuel with
  | O => Ret bits
  | S fuel =>
    match code !! Z.to_nat pc with
    | None => Ret bits
    | Some c =>
      let op := byte_val c in
      if (PUSH1 <=? op) && (op <=? PUSH32) then
        '(bits, pc) ← mark (op - PUSH1 + 1) (pc + 1) bits;
        bitmap_loop fuel code pc bits
      else bitmap_loop fuel code (pc + 1) bits
    end
  end.
Definition codeBitmap (code : list ascii) : outcome bitvec :=
  bitmap_loop (length code) code 0 (replicate (length code / 8 + 1 + 4) 0).

(** [destinations.has]. *)
Definition has (code : list ascii) (dest : Z) : outcome bool :=
  let udest := Uint64 dest in
  if (63 <=? BitLen dest) || (Z.of_nat (length code) <=? udest) then Ret false
  else
    m ← codeBitmap code;
    c ← deref (code !! Z.to_nat udest);
    if byte_val c =? JUMPDEST then codeSegment udest m else Ret false.
