(* ===== verification/AnalysisTheorems.v ===== *)
(** * The jump analysis is exact

    [codeBitmap] marks, eight bits at a time, exactly the bytes that are data of
    a push instruction, without leaving its bitmap, so that [has] accepts exactly
    the [JUMPDEST] instructions.  The reference is [segments], which walks over
    the code byte by byte. *)

From S2P Require Import Prelude Words Analysis.
From Stdlib Require Import Ascii.
From stdpp Require Import list.
Open Scope Z_scope.
Implicit Types (bits : list Z).

(** How many bytes of data follow an instruction. *)
Definition push_size (c : ascii) : nat :=
  let op := byte_val c in
  if (PUSH1 <=? op) && (op <=? PUSH32) then Z.to_nat (op - PUSH1 + 1) else 0.

(** For each byte whether it is an instruction; [skip] bytes of data come first. *)
Fixpoint segments (skip : nat) (code : list ascii) : list bool :=
  match code with
  | [] => []
  | c :: code =>
    match skip with
    | O => true :: segments (push_size c) code
    | S skip => false :: segments skip code
    end
  end.

(** ** Bits *)

Definition marked (bits : list Z) (i : Z) : bool :=
  match bits !! Z.to_nat (i / 8) with Some b => Z.testbit b (7 - i mod 8) | None => false end.

Lemma or_at_spec i x (bits : list Z) : 0 <= i < Z.of_nat (length bits) ->
  exists bits', or_at i x bits = Ret bits' /\ length bits' = length bits /\
    forall j, 0 <= j -> marked bits' j = marked bits j || ((j / 8 =? i) && Z.testbit x (7 - j mod 8)).
Proof.
  intros Hi. destruct (lookup_lt_is_Some_2 bits (Z.to_nat i)) as [b Hb]; [lia|].
  unfold or_at, bitvec in *. rewrite Hb. cbn. eexists. split; [done|]. split; [apply length_insert|].
  intros j Hj. unfold marked. assert (0 <= j / 8) by (apply Z.div_pos; lia).
  destruct (Z.eqb_spec (j / 8) i) as [->|Hne].
  - rewrite list_lookup_insert_eq, Hb by lia. by rewrite Z.lor_spec.
  - rewrite list_lookup_insert_ne by lia. cbn. by rewrite orb_false_r.
Qed.

Lemma top_bit k n : 0 <= k < 8 -> 0 <= n < 8 -> Z.testbit (Z.shiftr 0x80 k) (7 - n) = (n =? k).
Proof.
  intros Hk Hn. rewrite Z.shiftr_spec by lia. change 0x80 with (2 ^ 7).
  rewrite Z.pow2_bits_eqb by lia. destruct (Z.eqb_spec n k), (Z.eqb_spec 7 (7 - n + k)); lia.
Qed.

Lemma low_bits k n : 0 <= k < 8 -> 0 <= n < 8 -> Z.testbit (Z.shiftr 0xff k) (7 - n) = (k <=? n).
Proof.
  intros Hk Hn. rewrite Z.shiftr_spec by lia. change 0xff with (Z.ones 8).
  destruct (Z.leb_spec k n); [rewrite Z.ones_spec_low by lia|rewrite Z.ones_spec_high by lia]; done.
Qed.

Lemma high_bits k n : 0 <= k < 8 -> 0 <= n < 8 ->
  Z.testbit (0xff - Z.shiftr 0xff k) (7 - n) = (n <? k).
Proof.
  intros Hk Hn.
  assert (k = 0 \/ k = 1 \/ k = 2 \/ k = 3 \/ k = 4 \/ k = 5 \/ k = 6 \/ k = 7) as Hc by lia.
  assert (n = 0 \/ n = 1 \/ n = 2 \/ n = 3 \/ n = 4 \/ n = 5 \/ n = 6 \/ n = 7) as Hd by lia.
  destruct_or! Hc; destruct_or! Hd; subst; reflexivity.
Qed.

(** ** Marking *)

(** Bits of a range are added. *)
Definition adds (bits bits' : list Z) (a b : Z) : Prop :=
  length bits' = length bits /\
  forall j, 0 <= j -> marked bits' j = marked bits j || ((a <=? j) && (j <? b)).

Lemma adds_trans b0 b1 b2 x y z : x <= y -> y <= z -> adds b0 b1 x y -> adds b1 b2 y z -> adds b0 b2 x z.
Proof.
  intros Hx Hy [L1 M1] [L2 M2]. split; [congruence|]. intros j Hj. rewrite M2, M1 by done.
  destruct (marked b0 j); simpl; [done|].
  destruct (Z.leb_spec x j), (Z.ltb_spec j y), (Z.leb_spec y j), (Z.ltb_spec j z); simpl; try done; lia.
Qed.

Lemma set_spec pos bits : 0 <= pos -> pos / 8 < Z.of_nat (length bits) ->
  exists bits', set pos bits = Ret bits' /\ adds bits bits' pos (pos + 1).
Proof.
  intros Hp Hl. destruct (or_at_spec (pos / 8) (Z.shiftr 0x80 (pos mod 8)) bits) as (b & E & L & M).
  { split; [apply Z.div_pos; lia|done]. }
  exists b. split; [done|]. split; [done|]. intros j Hj. rewrite M by done. f_equal.
  pose proof (Z.mod_pos_bound pos 8). pose proof (Z.mod_pos_bound j 8).
  rewrite top_bit by lia.
  destruct (Z.eqb_spec (j / 8) (pos / 8)), (Z.eqb_spec (j mod 8) (pos mod 8)),
    (Z.leb_spec pos j), (Z.ltb_spec j (pos + 1)); simpl; try done;
    pose proof (Z.div_mod j 8); pose proof (Z.div_mod pos 8); nia.
Qed.

Lemma set8_spec pos bits : 0 <= pos -> pos / 8 + 1 < Z.of_nat (length bits) ->
  exists bits', set8 pos bits = Ret bits' /\ adds bits bits' pos (pos + 8).
Proof.
  intros Hp Hl. assert (0 <= pos / 8) by (apply Z.div_pos; lia).
  destruct (or_at_spec (pos / 8) (Z.shiftr 0xff (pos mod 8)) bits) as (b1 & E1 & L1 & M1); [lia|].
  destruct (or_at_spec (pos / 8 + 1) (0xff - Z.shiftr 0xff (pos mod 8)) b1) as (b2 & E2 & L2 & M2); [lia|].
  exists b2. unfold set8. rewrite E1. cbn. split; [done|]. split; [congruence|].
  intros j Hj. rewrite M2, M1 by done. rewrite <- orb_assoc. f_equal.
  pose proof (Z.mod_pos_bound pos 8). pose proof (Z.mod_pos_bound j 8).
  rewrite low_bits, high_bits by lia. pose proof (Z.div_mod j 8). pose proof (Z.div_mod pos 8).
  destruct (Z.eqb_spec (j / 8) (pos / 8)), (Z.eqb_spec (j / 8) (pos / 8 + 1)),
    (Z.leb_spec (pos mod 8) (j mod 8)), (Z.ltb_spec (j mod 8) (pos mod 8)),
    (Z.leb_spec pos j), (Z.ltb_spec j (pos + 8)); simpl; try done; nia.
Qed.

Lemma mark1_spec n pc bits : 0 <= pc -> (pc + Z.of_nat n) / 8 < Z.of_nat (length bits) ->
  exists bits', mark1 n pc bits = Ret (bits', pc + Z.of_nat n) /\ adds bits bits' pc (pc + Z.of_nat n).
Proof.
  revert pc bits. induction n as [|n IH]; intros pc bits Hp Hl; cbn [mark1].
  - rewrite Z.add_0_r. exists bits. split; [done|]. split; [done|]. intros j Hj.
    destruct (Z.leb_spec pc j), (Z.ltb_spec j pc); simpl; rewrite ?orb_false_r; try done; lia.
  - assert (pc / 8 <= (pc + Z.of_nat (S n)) / 8) by (apply Z.div_le_mono; lia).
    destruct (set_spec pc bits Hp) as (b1 & E1 & A1); [lia|]. rewrite E1. cbn.
    destruct (IH (pc + 1) b1) as (b2 & E2 & A2); [lia|destruct A1 as [-> _]; by replace (pc + 1 + Z.of_nat n) with (pc + Z.of_nat (S n)) by lia|].
    rewrite E2. exists b2. replace (pc + Z.of_nat (S n)) with (pc + 1 + Z.of_nat n) by lia.
    split; [done|]. eapply adds_trans; [| |exact A1|exact A2]; lia.
Qed.

Lemma mark8_spec n pc bits : 0 <= pc -> (pc + 8 * Z.of_nat n) / 8 < Z.of_nat (length bits) ->
  exists bits', mark8 n pc bits = Ret (bits', pc + 8 * Z.of_nat n) /\ adds bits bits' pc (pc + 8 * Z.of_nat n).
Proof.
  revert pc bits. induction n as [|n IH]; intros pc bits Hp Hl; cbn [mark8].
  - replace (pc + 8 * Z.of_nat 0) with pc by lia. exists bits. split; [done|]. split; [done|].
    intros j Hj. destruct (Z.leb_spec pc j), (Z.ltb_spec j pc); simpl; rewrite ?orb_false_r; try done; lia.
  - assert (pc / 8 + 1 <= (pc + 8 * Z.of_nat (S n)) / 8).
    { replace (pc / 8 + 1) with ((pc + 1 * 8) / 8) by (by rewrite Z.div_add). apply Z.div_le_mono; lia. }
    destruct (set8_spec pc bits Hp) as (b1 & E1 & A1); [lia|]. rewrite E1. cbn.
    destruct (IH (pc + 8) b1) as (b2 & E2 & A2); [lia|destruct A1 as [-> _]; by replace (pc + 8 + 8 * Z.of_nat n) with (pc + 8 * Z.of_nat (S n)) by lia|].
    rewrite E2. exists b2. replace (pc + 8 * Z.of_nat (S n)) with (pc + 8 + 8 * Z.of_nat n) by lia.
    split; [done|]. eapply adds_trans; [| |exact A1|exact A2]; lia.
Qed.

Lemma mark_spec n pc bits : 0 <= pc -> 0 <= n -> (pc + n) / 8 < Z.of_nat (length bits) ->
  exists bits', mark n pc bits = Ret (bits', pc + n) /\ adds bits bits' pc (pc + n).
Proof.
  intros Hp Hn Hl. pose proof (Z.div_mod n 8) as Hd. pose proof (Z.mod_pos_bound n 8) as Hm.
  assert (0 <= n / 8) by (apply Z.div_pos; lia). unfold mark.
  assert ((pc + 8 * (n / 8)) / 8 <= (pc + n) / 8) by (apply Z.div_le_mono; lia).
  destruct (mark8_spec (Z.to_nat (n / 8)) pc bits Hp) as (b1 & E1 & A1); [rewrite Z2Nat.id; lia|].
  rewrite Z2Nat.id in * by lia. rewrite E1. cbn.
  destruct (mark1_spec (Z.to_nat (n mod 8)) (pc + 8 * (n / 8)) b1) as (b2 & E2 & A2); [lia|..].
  { rewrite Z2Nat.id by lia. destruct A1 as [-> _]. by replace (pc + 8 * (n / 8) + n mod 8) with (pc + n) by lia. }
  rewrite Z2Nat.id in * by lia. replace (pc + 8 * (n / 8) + n mod 8) with (pc + n) in * by lia.
  exists b2. split; [done|]. eapply adds_trans; [| |exact A1|exact A2]; lia.
Qed.

(** ** The loop *)

Lemma segments_skip n code :
  segments n code = replicate (Nat.min n (length code)) false ++ segments 0 (drop n code).
Proof.
  revert n. induction code as [|c code IH]; intros [|n]; cbn [segments drop length]; try done.
  rewrite IH. done.
Qed.

Lemma length_segments n code : length (segments n code) = length code.
Proof. revert n. induction code as [|c code IH]; intros [|n]; simpl; auto. Qed.

Lemma push_size_bound c : (push_size c <= 32)%nat.
Proof.
  unfold push_size, PUSH1, PUSH32.
  destruct (Z.leb_spec 0x60 (byte_val c)), (Z.leb_spec (byte_val c) 0x7f); simpl; lia.
Qed.

(** An instruction with its data. *)
Lemma bitmap_loop_push fuel code pc bits c : code !! Z.to_nat pc = Some c ->
  bitmap_loop (S fuel) code pc bits =
  '(bits, pc) ← mark (Z.of_nat (push_size c)) (pc + 1) bits; bitmap_loop fuel code pc bits.
Proof.
  intros Hc. cbn [bitmap_loop]. rewrite Hc. unfold push_size.
  destruct (Z.leb_spec PUSH1 (byte_val c)), (Z.leb_spec (byte_val c) PUSH32); cbn [andb].
  2-4: unfold mark; cbn; by rewrite ?Z.add_0_r.
  by rewrite Z2Nat.id by lia.
Qed.

Lemma bitmap_loop_spec fuel code pc bits :
  0 <= pc -> Z.of_nat (length code) - pc <= Z.of_nat fuel ->
  (Z.of_nat (length code) + 32) / 8 < Z.of_nat (length bits) ->
  (forall j, pc <= j -> marked bits j = false) ->
  exists bits', bitmap_loop fuel code pc bits = Ret bits' /\
    (forall j, 0 <= j < pc -> marked bits' j = marked bits j) /\
    (length bits' = length bits) /\
    (forall i, pc + Z.of_nat i < Z.of_nat (length code) ->
       segments 0 (drop (Z.to_nat pc) code) !! i = Some (negb (marked bits' (pc + Z.of_nat i)))).
Proof.
  revert pc bits. induction fuel as [|fuel IH]; intros pc bits Hp Hf Hl Hm.
  { exists bits. split; [done|]. split; [done|]. split; [done|]. lia. }
  destruct (code !! Z.to_nat pc) as [c|] eqn:Hc.
  2:{ cbn [bitmap_loop]. rewrite Hc. apply lookup_ge_None in Hc. exists bits. split_and!; [done..|]. lia. }
  rewrite (bitmap_loop_push _ _ _ _ c Hc). pose proof (push_size_bound c) as Hn.
  pose proof (lookup_lt_Some _ _ _ Hc) as Hlt. set (n := Z.of_nat (push_size c)).
  assert ((pc + 1 + n) / 8 <= (Z.of_nat (length code) + 32) / 8) by (apply Z.div_le_mono; lia).
  destruct (mark_spec n (pc + 1) bits) as (b1 & E1 & L1 & A1); [lia..|]. rewrite E1. cbn.
  destruct (IH (pc + 1 + n) b1) as (b2 & E2 & Hlow & L2 & Hseg); [lia|lia|lia| |].
  { intros j Hj. rewrite A1, Hm by lia. destruct (Z.ltb_spec j (pc + 1 + n)); [lia|]. by rewrite andb_false_r. }
  exists b2. split; [done|]. split.
  { intros j Hj. rewrite Hlow, A1 by lia. destruct (Z.leb_spec (pc + 1) j); [lia|]. by rewrite orb_false_r. }
  split; [congruence|].
  intros i Hi. rewrite (drop_S _ c (Z.to_nat pc) Hc). cbn [segments].
  rewrite lookup_cons. destruct i as [|i].
  - rewrite Z.add_0_r, Hlow, A1, Hm by lia. destruct (Z.leb_spec (pc + 1) pc); [lia|done].
  - rewrite segments_skip, drop_drop. destruct (decide (i < push_size c)%nat) as [Hd|Hd].
    + rewrite lookup_app_l by (rewrite length_replicate, length_drop; lia).
      rewrite lookup_replicate_2 by (rewrite length_drop; lia).
      rewrite Hlow, A1, Hm by lia.
      destruct (Z.leb_spec (pc + 1) (pc + Z.of_nat (S i))), (Z.ltb_spec (pc + Z.of_nat (S i)) (pc + 1 + n)); [done|lia..].
    + rewrite lookup_app_r by (rewrite length_replicate, length_drop; lia).
      rewrite length_replicate, length_drop, Nat.min_l by lia.
      replace (S (Z.to_nat pc) + push_size c)%nat with (Z.to_nat (pc + 1 + n)) by lia.
      rewrite Hseg by lia. do 2 f_equal. f_equal. lia.
Qed.

Lemma marked_fresh n j : marked (replicate n 0) j = false.
Proof.
  unfold marked. destruct (replicate n 0 !! _) as [b|] eqn:E; [|done].
  apply lookup_replicate in E as [-> _]. apply Z.testbit_0_l.
Qed.

Lemma codeBitmap_spec code :
  exists bits, codeBitmap code = Ret bits /\ (length code / 8 < length bits)%nat /\
    forall i, (i < length code)%nat -> segments 0 code !! i = Some (negb (marked bits (Z.of_nat i))).
Proof.
  destruct (bitmap_loop_spec (length code) code 0 (replicate (length code / 8 + 1 + 4) 0))
    as (bits & E & _ & L & Hs); [lia|lia| |intros; apply marked_fresh|].
  { rewrite length_replicate. replace (Z.of_nat (length code) + 32) with (Z.of_nat (length code) + 4 * 8) by lia.
    rewrite Z.div_add by lia. rewrite !Nat2Z.inj_add, Nat2Z.inj_div. lia. }
  exists bits. split; [exact E|]. split; [rewrite L, length_replicate; lia|].
  intros i Hi. by apply Hs; lia.
Qed.

Lemma codeSegment_spec pos bits : 0 <= pos -> (Z.to_nat (pos / 8) < length bits)%nat ->
  codeSegment pos bits = Ret (negb (marked bits pos)).
Proof.
  intros Hp Hl. destruct (lookup_lt_is_Some_2 bits _ Hl) as [b Hb].
  unfold codeSegment, marked, bitvec in *. rewrite Hb. cbn. f_equal.
  pose proof (Z.mod_pos_bound pos 8). set (k := pos mod 8) in *.
  assert (Z.shiftr 0x80 k = 2 ^ (7 - k)) as ->.
  { apply Z.bits_inj'. intros n Hn. rewrite Z.shiftr_spec, Z.pow2_bits_eqb by lia.
    change 0x80 with (2 ^ 7). rewrite Z.pow2_bits_eqb by lia.
    destruct (Z.eqb_spec 7 (n + k)), (Z.eqb_spec (7 - k) n); lia. }
  destruct (Z.testbit b (7 - k)) eqn:Et; cbn.
  - apply Z.eqb_neq. intros Hz. assert (Z.testbit (Z.land b (2 ^ (7 - k))) (7 - k) = true) as Hx.
    { rewrite Z.land_spec, Et, Z.pow2_bits_true by lia. done. }
    by rewrite Hz, Z.testbit_0_l in Hx.
  - apply Z.eqb_eq. apply Z.bits_inj'. intros n Hn. rewrite Z.land_spec, Z.testbit_0_l, Z.pow2_bits_eqb by lia.
    destruct (Z.eqb_spec (7 - k) n) as [<-|]; [by rewrite Et|apply andb_false_r].
Qed.

(** The reference: a destination is a [JUMPDEST] that is an instruction. *)
Definition valid_jump (code : list ascii) (dest : Z) : bool :=
  match code !! Z.to_nat dest, segments 0 code !! Z.to_nat dest with
  | Some c, Some true => byte_val c =? JUMPDEST
  | _, _ => false
  end.

Lemma BitLen_small x n : 0 <= n -> 0 <= x < 2 ^ n -> BitLen x <= n.
Proof.
  intros Hn Hx. unfold BitLen. destruct (Z.eqb_spec x 0); [done|].
  rewrite Z.abs_eq by lia. assert (Z.log2 x < n) by (apply Z.log2_lt_pow2; lia). lia.
Qed.
Lemma BitLen_large x n : 0 <= x -> BitLen x <= n -> x < 2 ^ n.
Proof.
  intros Hx. unfold BitLen. destruct (Z.eqb_spec x 0) as [->|]; intros Hl.
  - apply Z.pow_pos_nonneg; lia.
  - rewrite Z.abs_eq in Hl by lia. apply Z.log2_lt_pow2; lia.
Qed.

Lemma has_spec code dest : 0 <= dest -> Z.of_nat (length code) < 2 ^ 62 ->
  has code dest = Ret (valid_jump code dest).
Proof.
  intros Hd Hl. unfold has, Uint64, valid_jump.
  destruct (Z.leb_spec 63 (BitLen dest)) as [Hb|Hb]; cbn [orb].
  { rewrite lookup_ge_None_2; [done|]. apply Z.nlt_ge in Hb. apply Nat2Z.inj_le. rewrite Z2Nat.id by done.
    apply Z.nlt_ge. intros Hlt. apply Hb. pose proof (BitLen_small dest 62). lia. }
  assert (dest < 2 ^ 62) by (apply BitLen_large; lia). rewrite u64_small by lia.
  destruct (Z.leb_spec (Z.of_nat (length code)) dest) as [Hge|Hlt].
  { by rewrite lookup_ge_None_2 by lia. }
  destruct (lookup_lt_is_Some_2 code (Z.to_nat dest)) as [c Hc]; [lia|].
  destruct (codeBitmap_spec code) as (bits & -> & Hlen & Hs). rewrite Hc. cbn.
  specialize (Hs (Z.to_nat dest)). rewrite Z2Nat.id in Hs by done. rewrite Hs by lia.
  destruct (byte_val c =? JUMPDEST); [|by destruct (marked bits dest)].
  rewrite codeSegment_spec; [by destruct (marked bits dest)|done|].
  assert (dest / 8 <= Z.of_nat (length code) / 8) by (apply Z.div_le_mono; lia).
  pose proof (Nat2Z.inj_div (length code) 8). lia.
Qed.

(** C27: the jump analysis is exact.  [has], which looks a destination up in the
    bitmap that [codeBitmap] fills eight bits at a time, never reads or writes
    outside the bitmap, and accepts a destination exactly when a walk over the
    code, instruction by instruction, reaches it at a [JUMPDEST]. *)
Theorem jump_analysis_exact code dest :
  0 <= dest -> Z.of_nat (length code) < 2 ^ 62 -> has code dest = Ret (valid_jump code dest).
Proof. apply has_spec. Qed.

(** PUSH2 0x5b5b JUMPDEST: only the last byte is a destination. *)
Definition ex_code : list ascii := map val_byte [0x61; 0x5b; 0x5b; 0x5b].
Lemma jump_analysis_exact_witness : has ex_code 2 = Ret false /\ has ex_code 3 = Ret true.
Proof. split; (rewrite jump_analysis_exact; [by vm_compute|done|done]). Defined.
