(* ===== verification/BitArray.v ===== *)
(** * Bit arrays

    [libs/common/bit_array.go]: the array of bits in which a certificate names
    its voters, its text form, and the parser of that form.  A nil array is
    [None]; the mutex is left out. *)


From S2P Require Import Prelude Text.
From Stdlib Require Import Ascii.
From stdpp Require Import pretty list.
Open Scope Z_scope.

Module BitArray.
Record t := mk { Bits : Z; Elems : list Z }.
#[global] Instance eta : Settable t := fun b => mk (Bits b) (Elems b).
#[global] Instance eq_dec : EqDecision t.
Proof. solve_decision. Defined.

Definition NewBitArray (bits : Z) : option t :=
  if bits <=? 0 then None else Some (mk (u32 bits) (replicate (Z.to_nat ((bits + 63) / 64)) 0)).

Definition Size (b : option t) : Z := from_option Bits 0 b.

(** [Elems] covers the bits in every array that is built, see [wf]. *)
Definition elem (b : t) (k : Z) : Z := default 0 (Elems b !! Z.to_nat k).
Definition getIndex (b : t) (i : Z) : bool :=
  if Bits b <=? i then false else 0 <? Z.land (elem b (i / 64)) (Z.shiftl 1 (i mod 64)).
Definition GetIndex (b : option t) (i : Z) : bool :=
  match b with None => false | Some b => getIndex b i end.

Definition setIndex (i : Z) (v : bool) (b : t) : t * bool :=
  if Bits b <=? i then (b, false)
  else
    let e := elem b (i / 64) in
    let e := if v then Z.lor e (Z.shiftl 1 (i mod 64)) else Z.ldiff e (Z.shiftl 1 (i mod 64)) in
    (b <| Elems ::= <[Z.to_nat (i / 64) := e]> |>, true).
Definition SetIndex (i : Z) (v : bool) (b : option t) : option t * bool :=
  match b with
  | None => (None, false)
  | Some b => let (b, ok) := setIndex i v b in (Some b, ok)
  end.

(** [copyBits]: the elements up to the new size, padded with zeros. *)
Definition copyBits (bits : Z) (b : t) : t :=
  let n := Z.to_nat ((bits + 63) / 64) in
  mk (u32 bits) (take n (Elems b ++ replicate n 0)).

(** Elementwise, panicking where the other array is shorter. *)
Fixpoint zip_elems (f : Z -> Z -> Z) (xs ys : list Z) : outcome (list Z) :=
  match xs, ys with
  | [], _ => Ret []
  | _ :: _, [] => Panic
  | x :: xs, y :: ys => r ← zip_elems f xs ys; Ret (f x y :: r)
  end.

Definition Or (b o : option t) : outcome (option t) :=
  match b, o with
  | None, o => Ret o
  | b, None => Ret b
  | Some b, Some o =>
    let c := copyBits (Z.max (Bits b) (Bits o)) b in
    es ← zip_elems Z.lor (Elems c) (Elems o); Ret (Some (c <| Elems := es |>))
  end.
Definition and (b o : t) : outcome t :=
  let c := copyBits (Z.min (Bits b) (Bits o)) b in
  es ← zip_elems Z.land (Elems c) (Elems o); Ret (c <| Elems := es |>).
Definition And (b o : option t) : outcome (option t) :=
  match b, o with
  | Some b, Some o => c ← and b o; Ret (Some c)
  | _, _ => Ret None
  end.
(** The complement of all the bits of the elements, also those behind [Bits]. *)
Definition not (b : t) : t := b <| Elems ::= fmap (fun e => 2 ^ 64 - 1 - e) |>.
Definition Not (b : option t) : option t := not <$> b.

(** The elements of a longer array in front of the last one of [o] are
    cleared, not masked with the complement of [o]. *)
Definition Sub (b o : option t) : outcome (option t) :=
  match b, o with
  | Some b, Some o =>
    if Bits o <? Bits b then
      let k := (length (Elems o) - 1)%nat in
      let c := b <| Elems ::= fun es => replicate (Nat.min k (length es)) 0 ++ drop k es |> in
      let c := foldl (fun c i =>
        fst (setIndex i (getIndex c i && negb (getIndex o i)) c)) c
        (seqZ (Z.of_nat k * 64) (Bits o - Z.of_nat k * 64)) in
      Ret (Some c)
    else c ← and b (not o); Ret (Some c)
  | _, _ => Ret None
  end.

Definition IsEmpty (b : option t) : bool :=
  match b with None => true | Some b => forallb (fun e => negb (0 <? e)) (Elems b) end.

(** The bits as characters, [x] for one and [_] for zero. *)
Definition bit_char (v : bool) : Ascii.ascii := if v then "x"%char else "_"%char.
Definition bit_chars (b : t) : string :=
  String.string_of_list_ascii ((fun i => bit_char (getIndex b i)) <$> seqZ 0 (Bits b)).

(** [String], with the empty indentation. *)
Definition String_ (b : option t) : string :=
  match b with
  | None => "nil-BitArray"
  | Some b => "BA{" +:+ pretty (Bits b) +:+ ":" +:+ bit_chars b +:+ "}"
  end.

Definition quote : string := String (ascii_of_nat 34) "".
Definition MarshalJSON (b : option t) : string :=
  match b with None => "null" | Some b => quote +:+ bit_chars b +:+ quote end.

(** What the pattern of the parser captures: the bits between two quotes. *)
Definition parse_bit (c : ascii) : option bool :=
  if Ascii.eqb c "x"%char then Some true else if Ascii.eqb c "_"%char then Some false else None.
Definition unquote (s : string) : option (list ascii) :=
  match String.list_ascii_of_string s with
  | q :: l =>
    match last l with
    | Some q' => if Ascii.eqb q (ascii_of_nat 34) && Ascii.eqb q' (ascii_of_nat 34)
                 then Some (removelast l) else None
    | None => None
    end
  | [] => None
  end.

(** [None] is the error of a text that does not match.  A text without bits
    dereferences the nil array of [NewBitArray]. *)
Definition UnmarshalJSON (b : string) : outcome (option t) :=
  if (b =? "null")%string then Ret (Some (mk 0 []))
  else
    match unquote b ≫= mapM parse_bit with
    | None => Ret None
    | Some vs =>
      b ← deref (NewBitArray (Z.of_nat (length vs)));
      Ret (Some (foldl (fun b '(i, v) => if (v : bool) then fst (setIndex (Z.of_nat i) true b) else b)
                       b (imap pair vs)))
    end.

Definition Count (b : t) : Z :=
  Z.of_nat (length (filter (fun i => getIndex b i = true) (seqZ 0 (Bits b)))).
End BitArray.

(** ** Reading and writing bits *)

Module BitArrayFacts.
Import BitArray.
Implicit Types (b : t) (i j k : Z) (v : bool).

(** Every bit has its place in an element. *)
Definition wf b : Prop := 0 <= Bits b <= 64 * Z.of_nat (length (Elems b)).

Lemma land_bit e k : 0 <= k -> (0 <? Z.land e (Z.shiftl 1 k)) = Z.testbit e k.
Proof.
  intros Hk. rewrite Z.shiftl_1_l.
  replace (Z.land e (2 ^ k)) with (if Z.testbit e k then 2 ^ k else 0).
  - destruct (Z.testbit e k); [|done]. apply Z.ltb_lt. by apply Z.pow_pos_nonneg.
  - apply Z.bits_inj'. intros n Hn. rewrite Z.land_spec, Z.pow2_bits_eqb by done.
    destruct (Z.eqb_spec k n) as [<-|Hne].
    + rewrite andb_true_r. destruct (Z.testbit e k) eqn:E; [by rewrite Z.pow2_bits_true|by rewrite Z.bits_0].
    + rewrite andb_false_r. destruct (Z.testbit e k); [by rewrite Z.pow2_bits_false|by rewrite Z.bits_0].
Qed.

Lemma getIndex_bit b i :
  0 <= i < Bits b -> getIndex b i = Z.testbit (elem b (i / 64)) (i mod 64).
Proof.
  intros Hi. unfold getIndex. destruct (Z.leb_spec (Bits b) i); [lia|]. apply land_bit.
  by apply Z.mod_pos_bound.
Qed.

Lemma getIndex_range b i : getIndex b i = true -> i < Bits b.
Proof. unfold getIndex. by destruct (Z.leb_spec (Bits b) i). Qed.

Lemma setIndex_Bits i v b : Bits (fst (setIndex i v b)) = Bits b.
Proof. unfold setIndex. by destruct (Bits b <=? i). Qed.

Lemma setIndex_wf i v b : wf b -> wf (fst (setIndex i v b)).
Proof.
  unfold wf. rewrite setIndex_Bits. unfold setIndex. destruct (Bits b <=? i); [done|].
  simpl. by rewrite length_insert.
Qed.

Lemma getIndex_setIndex i v b j :
  wf b -> 0 <= i -> 0 <= j ->
  getIndex (fst (setIndex i v b)) j = if (j =? i) && (i <? Bits b) then v else getIndex b j.
Proof.
  intros Hwf Hi Hj. destruct (Z.ltb_spec j (Bits b)) as [Hjb|Hjb].
  2: { unfold getIndex. rewrite setIndex_Bits. destruct (Z.leb_spec (Bits b) j); [|lia].
       destruct (Z.eqb_spec j i) as [->|]; [|done]. destruct (Z.ltb_spec i (Bits b)); [lia|done]. }
  rewrite !getIndex_bit by (rewrite ?setIndex_Bits; lia).
  unfold setIndex. destruct (Z.leb_spec (Bits b) i) as [Hib|Hib].
  { destruct (Z.ltb_spec i (Bits b)); [lia|]. by rewrite andb_false_r. }
  destruct (Z.ltb_spec i (Bits b)); [|lia]. rewrite andb_true_r. unfold wf in Hwf.
  pose proof (Z.mod_pos_bound i 64 eq_refl). pose proof (Z.mod_pos_bound j 64 eq_refl).
  pose proof (Z.div_mod i 64 ltac:(lia)). pose proof (Z.div_mod j 64 ltac:(lia)).
  unfold elem at 1. cbn [fst Elems update_field]. unfold update_field; simpl.
  destruct (decide (j / 64 = i / 64)) as [E|E].
  - rewrite E, list_lookup_insert_eq by (apply Nat2Z.inj_lt; rewrite Z2Nat.id; nia). simpl.
    replace (j =? i) with (j mod 64 =? i mod 64) by (destruct (Z.eqb_spec j i), (Z.eqb_spec (j mod 64) (i mod 64)); lia).
    destruct v.
    + rewrite Z.lor_spec, Z.shiftl_1_l, Z.pow2_bits_eqb, (Z.eqb_sym (i mod 64)) by lia.
      by destruct (_ =? _); rewrite ?orb_true_r, ?orb_false_r.
    + rewrite Z.ldiff_spec, Z.shiftl_1_l, Z.pow2_bits_eqb, (Z.eqb_sym (i mod 64)) by lia.
      by destruct (_ =? _); rewrite ?andb_true_r, ?andb_false_r.
  - rewrite list_lookup_insert_ne by (intros F; apply E; apply Z2Nat.inj in F; nia).
    destruct (Z.eqb_spec j i); [subst; done|done].
Qed.

Lemma NewBitArray_spec n :
  0 < n < 2 ^ 32 -> exists b, NewBitArray n = Some b /\ Bits b = n /\ wf b /\
    forall i, 0 <= i -> getIndex b i = false.
Proof.
  intros Hn. unfold NewBitArray. destruct (Z.leb_spec n 0); [lia|]. eexists. split; [done|].
  assert (u32 n = n) as Hu by (apply Z.mod_small; lia).
  split; [done|]. split.
  - unfold wf. simpl. rewrite Hu, length_replicate.
    pose proof (Z.div_mod (n + 63) 64 ltac:(lia)). pose proof (Z.mod_pos_bound (n + 63) 64 eq_refl).
    rewrite Z2Nat.id; lia.
  - intros i Hi. unfold getIndex. destruct (_ <=? i); [done|]. unfold elem. simpl.
    destruct (replicate _ 0 !! _) as [e|] eqn:E; [|done].
    apply lookup_replicate in E as [-> _]. done.
Qed.
End BitArrayFacts.

(** ** The text form *)

Module BitArrayText.
Import BitArray BitArrayFacts.

Definition bits_of (b : t) : list bool := getIndex b <$> seqZ 0 (Bits b).

Lemma parse_bit_char v : parse_bit (bit_char v) = Some v.
Proof. by destruct v. Qed.
Lemma parse_bits vs : mapM parse_bit (bit_char <$> vs) = Some vs.
Proof. induction vs as [|v vs IH]; [done|].
  cbn [fmap list_fmap mapM]. fold (mapM parse_bit). rewrite parse_bit_char. simpl.
  by rewrite IH.
Qed.

Lemma list_ascii_app s s' :
  String.list_ascii_of_string (s +:+ s')
  = String.list_ascii_of_string s ++ String.list_ascii_of_string s'.
Proof. induction s as [|c s IH]; [done|]. simpl. by rewrite IH. Qed.

Lemma unquote_quoted s : unquote (quote +:+ s +:+ quote) = Some (String.list_ascii_of_string s).
Proof.
  unfold unquote. rewrite !list_ascii_app. simpl. rewrite last_snoc. simpl.
  by rewrite removelast_last.
Qed.

Lemma quoted_not_null s : (quote +:+ s =? "null")%string = false.
Proof. done. Qed.

(** Setting the bits of a list, one after the other. *)
Definition set_bits (vs : list bool) (b : t) : t :=
  foldl (fun b '(i, v) => if (v : bool) then fst (setIndex (Z.of_nat i) true b) else b) b (imap pair vs).

Lemma set_bits_spec vs b :
  wf b -> Z.of_nat (length vs) <= Bits b -> (forall i, 0 <= i -> getIndex b i = false) ->
  Bits (set_bits vs b) = Bits b /\ wf (set_bits vs b) /\
  forall i, 0 <= i -> getIndex (set_bits vs b) i = default false (vs !! Z.to_nat i).
Proof.
  intros Hwf Hlen Hb. induction vs as [|v vs IH] using rev_ind.
  - split_and!; [done..|]. intros i Hi. by rewrite lookup_nil, Hb.
  - rewrite length_app in Hlen; simpl in Hlen. destruct IH as (HB & Hw & Hg); [lia|].
    assert (set_bits (vs ++ [v]) b = if v then fst (setIndex (Z.of_nat (length vs)) true (set_bits vs b))
      else set_bits vs b) as ->.
    { unfold set_bits. rewrite imap_app, foldl_app. simpl. by rewrite Nat.add_0_r. }
    split_and!.
    + destruct v; [by rewrite setIndex_Bits|done].
    + destruct v; [by apply setIndex_wf|done].
    + intros i Hi. destruct (decide (i < Z.of_nat (length vs))) as [Hlt|Hge].
      * rewrite lookup_app_l by lia. destruct v; [|by apply Hg].
        rewrite getIndex_setIndex by (done || lia). destruct (Z.eqb_spec i (Z.of_nat (length vs))); [lia|].
        by apply Hg.
      * rewrite lookup_app_r by lia. destruct v.
        -- rewrite getIndex_setIndex, HB by (done || lia).
           destruct (Z.eqb_spec i (Z.of_nat (length vs))) as [->|Hne].
           ++ destruct (Z.ltb_spec (Z.of_nat (length vs)) (Bits b)); [|lia].
              by rewrite Nat2Z.id, Nat.sub_diag.
           ++ simpl. rewrite Hg, lookup_ge_None_2 by lia. rewrite lookup_ge_None_2; [done|simpl; lia].
        -- rewrite Hg, lookup_ge_None_2 by lia.
           destruct (Z.to_nat i - length vs)%nat as [|n]; done.
Qed.

Lemma UnmarshalJSON_quoted vs :
  (0 < length vs)%nat -> Z.of_nat (length vs) < 2 ^ 32 ->
  exists b, UnmarshalJSON (quote +:+ String.string_of_list_ascii (bit_char <$> vs) +:+ quote)
      = Ret (Some b) /\
    Bits b = Z.of_nat (length vs) /\ wf b /\
    forall i, 0 <= i -> getIndex b i = default false (vs !! Z.to_nat i).
Proof.
  intros Hpos Hlt. unfold UnmarshalJSON. rewrite quoted_not_null, unquote_quoted.
  rewrite String.list_ascii_of_string_of_list_ascii.
  replace (Some _ ≫= mapM parse_bit) with (Some vs) by (symmetry; apply parse_bits).
  destruct (NewBitArray_spec (Z.of_nat (length vs))) as (b & -> & HB & Hw & Hg); [lia|].
  destruct (set_bits_spec vs b Hw) as (HB' & Hw' & Hg'); [lia|done|].
  exists (set_bits vs b). split_and!; [done|congruence|done..].
Qed.

Lemma bits_of_lookup b i :
  0 <= i -> default false ((getIndex b <$> seqZ 0 (Bits b)) !! Z.to_nat i) = getIndex b i.
Proof.
  intros Hi. rewrite list_lookup_fmap. destruct (decide (i < Bits b)) as [Hi'|Hi'].
  - rewrite lookup_seqZ_lt by lia. simpl. f_equal. lia.
  - rewrite lookup_seqZ_ge by lia. simpl. unfold getIndex. by destruct (Z.leb_spec (Bits b) i); [|lia].
Qed.

Lemma UnmarshalJSON_MarshalJSON b :
  0 < Bits b < 2 ^ 32 ->
  exists b', UnmarshalJSON (MarshalJSON (Some b)) = Ret (Some b') /\ Bits b' = Bits b /\
    forall i, 0 <= i -> getIndex b' i = getIndex b i.
Proof.
  intros Hb. destruct (UnmarshalJSON_quoted (bits_of b)) as (b' & Hu & HB & _ & Hg).
  - unfold bits_of. rewrite length_fmap, length_seqZ. lia.
  - unfold bits_of. rewrite length_fmap, length_seqZ. lia.
  - exists b'. unfold MarshalJSON, bit_chars. unfold bits_of in *. rewrite <- list_fmap_compose in Hu.
    split; [exact Hu|]. rewrite length_fmap, length_seqZ in HB. split; [lia|].
    intros i Hi. rewrite Hg by done. by apply bits_of_lookup.
Qed.
End BitArrayText.
