(* ===== verification/StakingTypes.v ===== *)
(** * Staking data

    The records of [meter/bucket.go], [meter/candidate.go],
    [meter/stakeholder.go], [meter/injail.go], [meter/infraction.go],
    [meter/delegate_stats.go], [meter/delegate.go] and
    [meter/validator_reward.go], their sorted lists as instances of
    [KeyedList], and the operations that keep a candidate's votes and a
    stakeholder's stake. *)

From S2P Require Import Prelude KeyedList ChainParam.

(** The identifiers below are hashes (BLAKE2b of an RLP list) of the listed
    fields.  Hash and encoding are parameters. *)
Class Hashing : Type := {
  bucket_hash : Address -> Z -> Z -> Bytes32;
  auction_hash : Z -> Z -> Z -> Z -> Z -> Z -> Z -> Z -> Bytes32;
  auctiontx_hash : Address -> Z -> Z -> Z -> Z -> Bytes32
}.

(** ** Buckets *)

Module Bucket.
Record t := mk {
  BucketID : Bytes32;
  Owner : Address;
  Nonce : Z;
  CreateTime : Z;
  Value : Z;
  Token : Z;
  Unbounded : bool;
  Candidate : Address;
  Rate : Z;
  Autobid : Z;
  Option : Z;
  BonusVotes : Z;
  TotalVotes : Z;
  MatureTime : Z;
  CalcLastTime : Z
}.

#[global] Instance eta : Settable t := fun b =>
  mk (BucketID b) (Owner b) (Nonce b) (CreateTime b) (Value b) (Token b) (Unbounded b)
     (Candidate b) (Rate b) (Autobid b) (Option b) (BonusVotes b) (TotalVotes b)
     (MatureTime b) (CalcLastTime b).

#[global] Instance keyed : Keyed t := BucketID.

Section Ops.
Context `{Hashing}.

Definition ID (b : t) : Bytes32 := bucket_hash (Owner b) (Nonce b) (CreateTime b).

(** [value.Add(0, value)] returns [value] itself: the new bucket's
    [TotalVotes] and [Value] are one number until the list is stored. *)
Definition NewBucket (owner cand : Address) (value token opt rate autobid create nonce : Z) : t :=
  let b := {| BucketID := 0; Owner := owner; Nonce := nonce; CreateTime := create;
              Value := value; Token := token; Unbounded := false; Candidate := cand;
              Rate := rate; Autobid := autobid; Option := opt; BonusVotes := 0;
              TotalVotes := value; MatureTime := 0; CalcLastTime := create |} in
  b <| BucketID := ID b |>.
End Ops.

Definition IsForeverLock (b : t) : bool :=
  if Option b =? FOREVER_LOCK then true else false.

Definition UpdateLockOption (opt rate : Z) (b : t) : t :=
  b <| Option := opt |> <| Rate := rate |>.
End Bucket.

Module BucketList.
Abbreviation t := (list Bucket.t).

(** [NewBucketList] sorts by the recomputed [ID()], [indexOf] searches by the
    stored [BucketID]. *)
Section New.
Context `{Hashing}.
Definition by_ID : Keyed Bucket.t := Bucket.ID.
Definition NewBucketList (buckets : t) : t := @SliceStable _ by_ID buckets.
End New.

Definition indexOf : t -> Bytes32 -> Z * Z := KeyedList.indexOf.
Definition Get : t -> Bytes32 -> option Bucket.t := KeyedList.Get.
Definition GetByOwner (l : t) (owner : Address) : t :=
  filter (fun b => Bucket.Owner b = owner) l.
Definition Exist : t -> Bytes32 -> bool := KeyedList.Exist.
Definition Add : t -> Bucket.t -> t := KeyedList.Add.
Definition Remove : t -> Bytes32 -> t := KeyedList.Remove.
End BucketList.

(** ** Candidates *)

(** The loop of [RemoveBucket]: cut the first occurrence of the id, or nil
    when it does not occur. *)
Fixpoint cut_first (id : Bytes32) (ids : list Bytes32) : option (list Bytes32) :=
  match ids with
  | [] => None
  | x :: rest => if x =? id then Some rest else cons x <$> cut_first id rest
  end.

Module Candidate.
Record t := mk {
  Addr : Address;
  Name : string;
  Description : string;
  PubKey : string;
  IPAddr : string;
  Port : Z;
  Commission : Z;
  Timestamp : Z;
  TotalVotes : Z;
  Buckets : list Bytes32
}.

#[global] Instance eta : Settable t := fun c =>
  mk (Addr c) (Name c) (Description c) (PubKey c) (IPAddr c) (Port c) (Commission c)
     (Timestamp c) (TotalVotes c) (Buckets c).

#[global] Instance keyed : Keyed t := Addr.

Definition NewCandidate (addr : Address) (name desc pubKey ip : string)
    (port commission timeStamp : Z) : t :=
  {| Addr := addr; Name := name; Description := desc; PubKey := pubKey; IPAddr := ip;
     Port := port; Commission := commission; Timestamp := timeStamp;
     TotalVotes := 0; Buckets := [] |}.

Definition AddBucket (bucket : Bucket.t) (c : t) : t :=
  c <| Buckets ::= fun l => l ++ [Bucket.BucketID bucket] |>
    <| TotalVotes ::= fun v => v + Bucket.TotalVotes bucket |>.

Definition RemoveBucket (bucket : Bucket.t) (c : t) : t :=
  match cut_first (Bucket.BucketID bucket) (Buckets c) with
  | None => c
  | Some rest =>
    let votes := TotalVotes c - Bucket.TotalVotes bucket in
    c <| Buckets := rest |> <| TotalVotes := if votes <? 0 then 0 else votes |>
  end.
End Candidate.

Module CandidateList.
Abbreviation t := (list Candidate.t).
Definition NewCandidateList : t -> t := SliceStable.
Definition indexOf : t -> Address -> Z * Z := KeyedList.indexOf.
Definition Get : t -> Address -> option Candidate.t := KeyedList.Get.
Definition Exist : t -> Address -> bool := KeyedList.Exist.
Definition Add : t -> Candidate.t -> t := KeyedList.Add.
Definition Remove : t -> Address -> t := KeyedList.Remove.
End CandidateList.

(** ** Stakeholders *)

Module Stakeholder.
Record t := mk {
  Holder : Address;
  TotalStake : Z;
  Buckets : list Bytes32
}.

#[global] Instance eta : Settable t := fun s => mk (Holder s) (TotalStake s) (Buckets s).
#[global] Instance keyed : Keyed t := Holder.

Definition NewStakeholder (holder : Address) : t :=
  {| Holder := holder; TotalStake := 0; Buckets := [] |}.

Definition AddBucket (bucket : Bucket.t) (s : t) : t :=
  s <| Buckets ::= fun l => l ++ [Bucket.BucketID bucket] |>
    <| TotalStake ::= fun v => v + Bucket.Value bucket |>.

Definition RemoveBucket (bucket : Bucket.t) (s : t) : t :=
  match cut_first (Bucket.BucketID bucket) (Buckets s) with
  | None => s
  | Some rest =>
    let stake := TotalStake s - Bucket.Value bucket in
    s <| Buckets := rest |> <| TotalStake := if stake <? 0 then 0 else stake |>
  end.
End Stakeholder.

Module StakeholderList.
Abbreviation t := (list Stakeholder.t).
Definition NewStakeholderList : t -> t := SliceStable.
Definition indexOf : t -> Address -> Z * Z := KeyedList.indexOf.
Definition Get : t -> Address -> option Stakeholder.t := KeyedList.Get.
Definition Exist : t -> Address -> bool := KeyedList.Exist.
Definition Add : t -> Stakeholder.t -> t := KeyedList.Add.
Definition Remove : t -> Address -> t := KeyedList.Remove.
End StakeholderList.

(** ** Infractions

    The four kinds of infraction carry the epoch and the round or height they
    were observed at, and a counter. *)

Module Infraction.
Record info := mkInfo { Epoch : Z; At : Z }.
Record count := mkCount { Counter : Z; Info : list info }.
Record t := mk {
  MissingLeaders : count;
  MissingProposers : count;
  MissingVoters : count;
  DoubleSigners : count
}.
Definition none : count := mkCount 0 [].
Definition empty : t := mk none none none none.
#[global] Instance eta_count : Settable count := fun c => mkCount (Counter c) (Info c).
#[global] Instance eta : Settable t := fun i =>
  mk (MissingLeaders i) (MissingProposers i) (MissingVoters i) (DoubleSigners i).
End Infraction.

Module InJail.
Record t := mk {
  Addr : Address;
  Name : string;
  PubKey : string;
  TotalPts : Z;
  Infractions : Infraction.t;
  BailAmount : Z;
  JailedTime : Z
}.
#[global] Instance eta : Settable t := fun j =>
  mk (Addr j) (Name j) (PubKey j) (TotalPts j) (Infractions j) (BailAmount j) (JailedTime j).
#[global] Instance keyed : Keyed t := Addr.

Definition NewInJail (addr : Address) (name pubKey : string) (pts : Z) (inf : Infraction.t)
    (bail timeStamp : Z) : t :=
  {| Addr := addr; Name := name; PubKey := pubKey; TotalPts := pts; Infractions := inf;
     BailAmount := bail; JailedTime := timeStamp |}.
End InJail.

Module InJailList.
Abbreviation t := (list InJail.t).
Definition NewInJailList : t -> t := SliceStable.
Definition indexOf : t -> Address -> Z * Z := KeyedList.indexOf.
Definition Get : t -> Address -> option InJail.t := KeyedList.Get.
Definition Exist : t -> Address -> bool := KeyedList.Exist.
Definition Add : t -> InJail.t -> t := KeyedList.Add.
Definition Remove : t -> Address -> t := KeyedList.Remove.
End InJailList.

(** ** Delegates and rewards *)

Module Distributor.
Record t := mk { Address_ : Address; Autobid : Z; Shares : Z }.
Definition NewDistributor (addr : Address) (autobid shares : Z) : t := mk addr autobid shares.
End Distributor.

Module Delegate.
Record t := mk {
  Address_ : Address;
  PubKey : string;
  Name : string;
  VotingPower : Z;
  IPAddr : string;
  Port : Z;
  Commission : Z;
  DistList : list Distributor.t
}.
#[global] Instance eta : Settable t := fun d =>
  mk (Address_ d) (PubKey d) (Name d) (VotingPower d) (IPAddr d) (Port d) (Commission d)
     (DistList d).
End Delegate.

Module RewardInfo.
Record t := mk { Address_ : Address; Amount : Z }.
End RewardInfo.

Module RewardInfoV2.
Record t := mk { Address_ : Address; DistAmount : Z; AutobidAmount : Z }.
End RewardInfoV2.

Module ValidatorReward.
Record t := mk {
  Epoch : Z;
  BaseReward : Z;
  TotalReward : Z;
  Rewards : list RewardInfo.t
}.
End ValidatorReward.

Definition STAKING_MAX_VALIDATOR_REWARDS : Z := 32.

(** ** Lemmas on votes and stake *)

Lemma cut_first_Some id ids rest :
  cut_first id ids = Some rest -> ids ≡ₚ id :: rest.
Proof.
  revert rest. induction ids as [|x ids IH]; intros rest; simpl; [done|].
  destruct (Z.eqb_spec x id) as [->|]; [by intros [= ->]|].
  destruct (cut_first id ids) as [r|]; simpl; [|done]. intros [= <-].
  rewrite (IH r eq_refl). apply Permutation_swap.
Qed.

Lemma cut_first_None id ids : cut_first id ids = None <-> id ∉ ids.
Proof.
  induction ids as [|x ids IH]; simpl; [set_solver|].
  rewrite elem_of_cons. destruct (Z.eqb_spec x id) as [->|Hne]; [naive_solver|].
  rewrite fmap_None, IH. naive_solver.
Qed.

Lemma cut_first_elem id ids : id ∈ ids -> exists rest, cut_first id ids = Some rest.
Proof.
  intros Hin. destruct (cut_first id ids) eqn:E; [eauto|]. by apply cut_first_None in E.
Qed.

Lemma cut_first_NoDup id ids rest :
  NoDup ids -> cut_first id ids = Some rest -> NoDup rest /\ id ∉ rest.
Proof.
  intros Hnd Hc%cut_first_Some. rewrite Hc in Hnd. apply NoDup_cons in Hnd. tauto.
Qed.

Lemma Candidate_key_AddBucket b c : key (Candidate.AddBucket b c) = key c.
Proof. done. Qed.

Lemma Candidate_key_RemoveBucket b c : key (Candidate.RemoveBucket b c) = key c.
Proof. unfold Candidate.RemoveBucket. by destruct (cut_first _ _). Qed.

Lemma Stakeholder_key_AddBucket b s : key (Stakeholder.AddBucket b s) = key s.
Proof. done. Qed.

Lemma Stakeholder_key_RemoveBucket b s : key (Stakeholder.RemoveBucket b s) = key s.
Proof. unfold Stakeholder.RemoveBucket. by destruct (cut_first _ _). Qed.

#[export] Hint Resolve Candidate_key_AddBucket Candidate_key_RemoveBucket
  Stakeholder_key_AddBucket Stakeholder_key_RemoveBucket : keyed.

(** Adding a bucket and removing it again restores the candidate, when the
    bucket's votes are not negative. *)
Lemma Candidate_add_remove b c :
  Bucket.BucketID b ∉ Candidate.Buckets c -> 0 <= Candidate.TotalVotes c ->
  Candidate.RemoveBucket b (Candidate.AddBucket b c) = c.
Proof.
  intros Hni Hv. unfold Candidate.RemoveBucket, Candidate.AddBucket. simpl.
  assert (cut_first (Bucket.BucketID b) (Candidate.Buckets c ++ [Bucket.BucketID b])
    = Some (Candidate.Buckets c)) as ->.
  { revert Hni. generalize (Candidate.Buckets c). intros l.
    induction l as [|x l IH]; simpl; intros Hni; [by rewrite Z.eqb_refl|].
    destruct (Z.eqb_spec x (Bucket.BucketID b)); [set_solver|].
    rewrite IH by set_solver. done. }
  destruct c; simpl in *. unfold update_field; simpl. f_equal.
  destruct (_ <? _) eqn:E; lia.
Qed.
