(* ===== verification/Transaction.v ===== *)
(** * Transactions and clauses

    [tx/clause.go], [tx/transaction.go], [tx/work_eval.go],
    [tx/block_ref.go] and [tx/origin_blacklist.go]: the body of a
    transaction, who signed it, the intrinsic gas, the gas price with the
    credit for proved work, and the wrapping of an Ethereum transaction.  The
    hashes, the recovery of a public key and go-ethereum's transaction type
    are parameters. *)

From S2P Require Import Prelude ChainParam VMConfig.

Definition MaxBig256 : Z := 2 ^ 256 - 1.

Definition ClauseGasContractCreation : Z := 53000 - TxGas.
Definition TxDataZeroGas : Z := 4.
Definition TxDataNonZeroGas : Z := 68.
Definition TxDataNonZeroGasEIP2028 : Z := 16.
Definition MaxTxWorkDelay : Z := 30.
Definition BlockInterval : Z := 10.

Definition errIntrinsicGasOverflow : string := "intrinsic gas overflow".

(** ** Clauses *)

Module Clause.
Record t := mk { To : option Address; Value : Z; Token : Z; Data : string }.
#[global] Instance eta : Settable t := fun c => mk (To c) (Value c) (Token c) (Data c).
Definition NewClause (to : option Address) : t := mk to 0 MTR "".
Definition WithValue (value : Z) (c : t) : t := c <| Value := value |>.
Definition WithData (data : string) (c : t) : t := c <| Data := data |>.
Definition WithToken (token : Z) (c : t) : t := c <| Token := token |>.
Definition IsCreatingContract (c : t) : bool :=
  match To c with None => true | Some _ => false end.
End Clause.

(** ** Transactions *)

(** A value of type [interface{}] decoded by RLP: a byte string or a list. *)
#[warnings="-register-all"] Inductive reserved := RBytes (b : string) | RList (l : list reserved).

(** The type assertion [v.([]byte)]. *)
Definition as_bytes (v : reserved) : outcome string :=
  match v with RBytes b => Ret b | RList _ => Panic end.

(** Go's [b[0]]. *)
Definition first_byte (b : string) : outcome Z :=
  match b with
  | EmptyString => Panic
  | String c _ => Ret (Z.of_N (Ascii.N_of_ascii c))
  end.

Module Transaction.
Record t := mk {
  ChainTag : Z;
  BlockRef : Z;
  Expiration : Z;
  Clauses : list Clause.t;
  GasPriceCoef : Z;
  Gas : Z;
  DependsOn : option Bytes32;
  Nonce : Z;
  Reserved : list reserved;
  Signature : string
}.
#[global] Instance eta : Settable t := fun t =>
  mk (ChainTag t) (BlockRef t) (Expiration t) (Clauses t) (GasPriceCoef t) (Gas t)
     (DependsOn t) (Nonce t) (Reserved t) (Signature t).

(** The first four of the eight bytes of the reference. *)
Definition RefNumber (t : t) : Z := BlockRef t / 2 ^ 32.

Definition IsExpired (t : t) (blockNum : Z) : bool := RefNumber t + Expiration t <? blockNum.

Definition WithSignature (sig : string) (t : t) : Transaction.t := t <| Signature := sig |>.

Definition HasReservedFields (t : t) : bool := negb (length (Reserved t) =? 0)%nat.
End Transaction.
Import Transaction.
Implicit Types (t : Transaction.t).

(** The bytes of [RESERVED_PREFIX]. *)
Definition byte (n : N) (s : string) : string := String (Ascii.ascii_of_N n) s.
Definition RESERVED_PREFIX : string := byte 0xee (byte 0xff "").

(** Every field is read before the conjunction is computed. *)
Definition IsEthTx t : outcome bool :=
  match Reserved t with
  | [r0; r1; r2] =>
    prefix ← as_bytes r0;
    raw ← as_bytes r2;
    kind ← first_byte raw;
    let sigLen := String.length (Signature t) in
    let typedTx := (0 <? kind) && (kind <? 3) in
    Ret ((String.length prefix =? String.length RESERVED_PREFIX)%nat
         && (prefix =? RESERVED_PREFIX)%string
         && ((typedTx && (64 <=? sigLen)%nat) || (65 <=? sigLen)%nat))
  | _ => Ret false
  end.

(** What the package takes from its dependencies: the hash of a body without
    signature, the transaction identifier made of that hash and the signer, the
    hash that measures work, and go-ethereum's [crypto.SigToPub]. *)
Class TxCrypto : Type := {
  SigningHash : Transaction.t -> Bytes32;
  id_hash : Bytes32 -> Address -> Bytes32;
  work_hash : Transaction.t -> Address -> Z -> Bytes32;
  SigToPub : Bytes32 -> string -> option Address
}.

(** go-ethereum's [types.Transaction]. *)
Class EthTypes : Type := {
  EthTx : Type;
  UnmarshalBinary : string -> option EthTx;
  MarshalBinary : EthTx -> option string;
  eth_Sender : EthTx -> option Address;
  eth_ChainId : EthTx -> Z;
  eth_To : EthTx -> option Address;
  eth_Value : EthTx -> Z;
  eth_Data : EthTx -> string;
  eth_Gas : EthTx -> Z;
  eth_Nonce : EthTx -> Z;
  eth_Hash : EthTx -> Bytes32;
  RawSignatureValues : EthTx -> Z * Z * Z
}.

Definition bytes_of_address (a : Address) : string :=
  foldr (fun i s => byte (Z.to_N (Z.shiftr a (8 * (19 - Z.of_nat i)) mod 256)) s) "" (seq 0 20).

(** [ParseAddress] of the hexadecimal text of some bytes. *)
Definition ParseAddress_hex (b : string) : string + Address :=
  if (String.length b =? 20)%nat then inr (bytes_value 0 b) else inl "invalid length".

(** [big.Int.Bytes]: the shortest big-endian form. *)
Fixpoint big_bytes_loop (fuel : nat) (x : Z) (acc : string) : string :=
  match fuel with
  | O => acc
  | S fuel =>
    if x =? 0 then acc else big_bytes_loop fuel (x / 256) (byte (Z.to_N (x mod 256)) acc)
  end.
Definition big_bytes (x : Z) : string := big_bytes_loop (Z.to_nat (Z.log2 x / 8 + 1)) x "".

(** Zero bytes in front, up to 32 in all. *)
Definition pad32 (b : string) : string :=
  String.append (foldr (fun _ s => byte 0 s) "" (seq 0 (32 - String.length b))) b.

Definition blacklistedOrigins : list Address := [0x0e369a2e02912dba872e72d6c0b661e9617e0d9c].
Definition IsOriginBlacklisted (origin : Address) : bool := bool_decide (origin ∈ blacklistedOrigins).

Section Signed.
Context `{BlockChain} `{TxCrypto} `{EthTypes}.

(** The origin of a transaction; it is zero when there is no signature. *)
Definition Signer t : outcome (string + Address) :=
  if (String.length (Signature t) =? 0)%nat then Ret (inr ZeroAddress)
  else
    eth ← IsEthTx t;
    if eth : bool then
      r1 ← deref (Reserved t !! 1%nat);
      b ← as_bytes r1;
      Ret (ParseAddress_hex b)
    else
      Ret (match SigToPub (SigningHash t) (Signature t) with
           | Some signer => inr signer
           | None => inl "recovery failed"
           end).

Definition GetEthTx t : outcome (string + EthTx) :=
  eth ← IsEthTx t;
  if eth : bool then
    r2 ← deref (Reserved t !! 2%nat);
    raw ← as_bytes r2;
    Ret (match UnmarshalBinary raw with Some e => inr e | None => inl "unmarshal failed" end)
  else Ret (inl "not a tx from ethereum").

Definition MeterID t : outcome Bytes32 :=
  signer ← Signer t;
  Ret (match signer with inl _ => 0 | inr a => id_hash (SigningHash t) a end).

Definition ID t : outcome Bytes32 :=
  eth ← IsEthTx t;
  if eth && IsTesla (RefNumber t) then
    e ← GetEthTx t;
    Ret (match e with inl _ => 0 | inr e => eth_Hash e end)
  else MeterID t.

(** The work divides the largest 256-bit number by the hash. *)
Definition UnprovedWork t : outcome Z :=
  signer ← Signer t;
  match signer with
  | inl _ => Ret 0
  | inr a => big_div MaxBig256 (work_hash t a (Nonce t))
  end.

(** ** Ethereum transactions *)

Definition NewTransactionFromEthTx (e : EthTx) (chainTag blockRef : Z)
    : outcome (string + Transaction.t) :=
  (* the first error of [types.Sender] is overwritten *)
  let ethFrom := default ZeroAddress (eth_Sender e) in
  if IsOriginBlacklisted ethFrom then Ret (inl "blacklisted address, not allowed")
  else
    let to := default ZeroAddress (eth_To e) in
    match MarshalBinary e with
    | None => Ret (inl "marshal failed")
    | Some raw =>
      let '(v, r, s) := RawSignatureValues e in
      let ethSignature :=
        String.append (String.append (pad32 (big_bytes r)) (pad32 (big_bytes s))) (big_bytes v) in
      match eth_Sender e with
      | None => Ret (inl "invalid sender")
      | Some sender =>
        if negb (sender =? ethFrom)
        then Ret (inl "invalid ethereum tx: origin is not the same as from")
        else
          let actualTo := if to =? ZeroAddress then None else Some to in
          let tx := Transaction.mk chainTag blockRef 320
            [Clause.mk actualTo (eth_Value e) MTR (eth_Data e)] 0 (eth_Gas e) None (eth_Nonce e)
            [RBytes RESERVED_PREFIX; RBytes (bytes_of_address ethFrom); RBytes raw] ethSignature in
          id ← ID tx;
          if negb (id =? eth_Hash e) then Ret (inl "tx.id not matching ethTx.Hash")
          else Ret (inr tx)
      end
    end.

Definition MainnetChainID : Z := 82.
Definition TestnetChainID : Z := 83.
Definition ChainIdValidate (chainId : Z) : option string :=
  if IsMainNet && negb (chainId =? MainnetChainID) then Some "wrong mainNet chainId"
  else if IsTestNet && negb (chainId =? TestnetChainID) then Some "wrong testNet chainId"
  else None.

(** The error, if any. *)
Definition EthTxValidate t : outcome (option string) :=
  eth ← IsEthTx t;
  if eth : bool then
    e ← GetEthTx t;
    match e with
    | inl err => Ret (Some err)
    | inr e =>
      match ChainIdValidate (eth_ChainId e) with
      | Some err => Ret (Some err)
      | None =>
        r ← NewTransactionFromEthTx e (ChainTag t) (BlockRef t);
        match r with
        | inl err => Ret (Some err)
        | inr reverseTx =>
          txID ← MeterID t;
          reverseTxID ← MeterID reverseTx;
          Ret (if negb (txID =? reverseTxID) then Some "reverseTx err" else None)
        end
      end
    end
  else Ret None.
End Signed.

(** ** Intrinsic gas *)

Definition dataGas (data : string) (isEIP2028 : bool) : string + Z :=
  if (String.length data =? 0)%nat then inr 0
  else
    let bytes := String.list_ascii_of_string data in
    let z := Z.of_nat (length (filter (fun c => c = Ascii.zero) bytes)) in
    let nz := Z.of_nat (length (filter (fun c => c <> Ascii.zero) bytes)) in
    let '(zgas, overflow) := SafeMul TxDataZeroGas z in
    if overflow : bool then inl errIntrinsicGasOverflow
    else
      let nonZeroGas := if isEIP2028 then TxDataNonZeroGasEIP2028 else TxDataNonZeroGas in
      let '(nzgas, overflow) := SafeMul nonZeroGas nz in
      if overflow : bool then inl errIntrinsicGasOverflow
      else
        let '(gas, overflow) := SafeAdd zgas nzgas in
        if overflow : bool then inl errIntrinsicGasOverflow else inr gas.

Definition toWordSize (size : Z) : Z :=
  if MaxUint64 - 31 <? size then MaxUint64 / 32 + 1 else u64 (size + 31) / 32.

(** One round of the loop.  The word gas of the init code is added to [gas],
    which is not read again. *)
Definition clause_gas (isEIP2028 isEIP3860 : bool) (total : Z) (c : Clause.t) : string + Z :=
  match dataGas (Clause.Data c) isEIP2028 with
  | inl err => inl err
  | inr gas =>
    let '(total, overflow) := SafeAdd total gas in
    if overflow : bool then inl errIntrinsicGasOverflow
    else
      let isCreatingContract := Clause.IsCreatingContract c in
      let cgas := if isCreatingContract then ClauseGasContractCreation else ClauseGas in
      let '(total, overflow) := SafeAdd total cgas in
      if overflow : bool then inl errIntrinsicGasOverflow
      else if isCreatingContract && isEIP3860 then
        let lenWords := toWordSize (Z.of_nat (String.length (Clause.Data c))) in
        if (MaxUint64 - gas) / InitCodeWordGas <? lenWords then inl errIntrinsicGasOverflow
        else let gas := u64 (gas + lenWords * InitCodeWordGas) in inr total
      else inr total
  end.

Fixpoint gas_loop (isEIP2028 isEIP3860 : bool) (total : Z) (clauses : list Clause.t)
    : string + Z :=
  match clauses with
  | [] => inr total
  | c :: clauses =>
    match clause_gas isEIP2028 isEIP3860 total c with
    | inl err => inl err
    | inr total => gas_loop isEIP2028 isEIP3860 total clauses
    end
  end.

Definition IntrinsicGas (isEIP2028 isEIP3860 : bool) (clauses : list Clause.t) : string + Z :=
  if (length clauses =? 0)%nat then inr (TxGas + ClauseGas)
  else gas_loop isEIP2028 isEIP3860 TxGas clauses.

Definition Transaction_IntrinsicGas `{BlockChain} t : string + Z :=
  IntrinsicGas (IsTeslaFork11 (RefNumber t)) (IsTeslaFork11 (RefNumber t)) (Clauses t).

(** ** Gas prices *)

Definition GasPrice t (baseGasPrice : Z) : Z :=
  GasPriceCoef t * baseGasPrice / 255 + baseGasPrice.

(** [bytes.HasPrefix(id[:], ref[:])]: the first 8 of 32 bytes. *)
Definition has_prefix (id ref : Z) : bool := Z.shiftr id 192 =? ref.

Definition workToGas (work blockNum : Z) : Z :=
  let gas := work / 1000 in
  if gas =? 0 then 0
  else
    let months := u64 (blockNum * BlockInterval) / 3600 / 24 / 30 in
    let gas := if months =? 0 then gas else gas * 100 ^ months / 104 ^ months in
    if 2 ^ 64 <=? gas then MaxUint64 else gas.

Section Work.
Context `{BlockChain} `{TxCrypto} `{EthTypes}.
Context (getBlockID : Z -> Bytes32).

Definition ProvedWork t (headBlockNum : Z) : outcome Z :=
  let refNum := RefNumber t in
  if headBlockNum <=? refNum then Ret 0
  else if MaxTxWorkDelay <? headBlockNum - refNum then Ret 0
  else if has_prefix (getBlockID refNum) (BlockRef t) then UnprovedWork t else Ret 0.

Definition OverallGasPrice t (baseGasPrice headBlockNum : Z) : outcome Z :=
  let gasPrice := GasPrice t baseGasPrice in
  provedWork ← ProvedWork t headBlockNum;
  if provedWork =? 0 then Ret gasPrice
  else
    let wgas := workToGas provedWork (RefNumber t) in
    if wgas =? 0 then Ret gasPrice
    else
      let wgas := if Gas t <? wgas then Gas t else wgas in
      x ← big_div (wgas * baseGasPrice) (Gas t);
      Ret (x + gasPrice).
End Work.
