(* ===== verification/Block.v ===== *)
(** * Blocks

    [block/]: headers and their identifiers, the gas limit, blocks, builders,
    quorum certificates and their verification.  Hashes, roots and signatures
    are the class [BlockCrypto]. *)

From S2P Require Import Prelude Text BitArray KeyedList ChainParam Transaction.

(** ** Gas limit *)

Definition MinGasLimit : Z := 1000 * 1000.
Definition GasLimitBoundDivisor : Z := 1024.

Module GasLimit.
Definition min64 (a b : Z) : Z := if b <? a then b else a.

Definition IsValid (gl parentGasLimit : Z) : bool :=
  if gl <? MinGasLimit then false
  else
    let diff := if parentGasLimit <? gl then gl - parentGasLimit else parentGasLimit - gl in
    diff <=? parentGasLimit / GasLimitBoundDivisor.

(** [delta] is an [int64]. *)
Definition Adjust (gl delta : Z) : Z :=
  let maxDiff := gl / GasLimitBoundDivisor in
  if 0 <? delta then
    let diff := min64 (u64 delta) maxDiff in
    if MaxUint64 - diff <? gl then MaxUint64 else gl + diff
  else
    let diff := min64 (u64 (- delta)) maxDiff in
    if gl <? u64 (MinGasLimit + diff) then MinGasLimit else gl - diff.

Definition Qualify (gl parentGasLimit : Z) : Z :=
  let maxDiff := parentGasLimit / GasLimitBoundDivisor in
  if parentGasLimit <? gl
  then Adjust parentGasLimit (i64 (min64 (gl - parentGasLimit) maxDiff))
  else Adjust parentGasLimit (i64 (- i64 (min64 (parentGasLimit - gl) maxDiff))).
End GasLimit.

(** ** Headers *)

Definition KBlockType : Z := 1.
Definition MBlockType : Z := 2.
Definition SBlockType : Z := 255.

(** The number in the first four bytes of an identifier. *)
Definition Number (blockID : Bytes32) : Z := blockID / 2 ^ 224.

Module Header.
Record t := mk {
  ParentID : Bytes32;
  Timestamp : Z;
  GasLimit : Z;
  LastKBlockHeight : Z;
  BlockType : Z;
  Beneficiary : Address;
  Proposer : Address;
  GasUsed : Z;
  TotalScore : Z;
  TxsRoot : Bytes32;
  StateRoot : Bytes32;
  ReceiptsRoot : Bytes32;
  EvidenceDataRoot : Bytes32;
  Signature : string
}.
#[global] Instance eta : Settable t := fun h =>
  mk (ParentID h) (Timestamp h) (GasLimit h) (LastKBlockHeight h) (BlockType h) (Beneficiary h)
     (Proposer h) (GasUsed h) (TotalScore h) (TxsRoot h) (StateRoot h) (ReceiptsRoot h)
     (EvidenceDataRoot h) (Signature h).

Definition zero : t := mk 0 0 0 0 0 0 0 0 0 0 0 0 0 "".

Definition Number (h : t) : Z := u32 (Number (ParentID h) + 1).
Definition withSignature (sig : string) (h : t) : t := h <| Signature := sig |>.
End Header.

(** Hashing of RLP lists and of concatenations, ECDSA and BLS keys. *)
Class BlockCrypto : Type := {
  blake2b_rlp : list Z -> Bytes32;
  blake2b_signed : Bytes32 -> Address -> Bytes32;
  PrivateKey : Type;
  PubkeyToAddress : PrivateKey -> Address;
  Sign : Bytes32 -> PrivateKey -> string + string;
  SigToPub : Bytes32 -> string -> string + Address;
  (** The SHA-256 of the text of a vote. *)
  voting_sha256 : Z -> Z -> Bytes32 -> Bytes32 -> Bytes32 -> Bytes32
}.

Section Headers.
Context `{BlockCrypto}.
Implicit Types (h : Header.t).

(** Every field but the signature and the deprecated proposer. *)
Definition SigningHash h : Bytes32 :=
  blake2b_rlp [Header.ParentID h; Header.Timestamp h; Header.GasLimit h; Header.Beneficiary h;
    Header.BlockType h; Header.LastKBlockHeight h; Header.GasUsed h; Header.TotalScore h;
    Header.TxsRoot h; Header.StateRoot h; Header.ReceiptsRoot h; Header.EvidenceDataRoot h].

Definition Header_Signer h : string + Address :=
  if Header.Number h =? 0 then inr ZeroAddress else SigToPub (SigningHash h) (Header.Signature h).

(** The first four bytes of the hash give way to the number. *)
Definition Header_ID h : Bytes32 :=
  let id := match Header_Signer h with
            | inl _ => 0
            | inr signer => blake2b_signed (SigningHash h) signer
            end in
  Header.Number h * 2 ^ 224 + id mod 2 ^ 224.
End Headers.

Lemma Number_ID `{BlockCrypto} (h : Header.t) : Number (Header_ID h) = Header.Number h.
Proof.
  unfold Number, Header_ID. rewrite Z.div_add_l by done.
  rewrite Z.div_small; [lia|]. by apply Z.mod_pos_bound.
Qed.

(** ** Quorum certificates *)

Module QuorumCert.
Record t := mk {
  QCHeight : Z;
  QCRound : Z;
  EpochID : Z;
  VoterBitArrayStr : string;
  VoterMsgHash : Bytes32;
  VoterAggSig : string
}.

(** The text is [BA{n:bits}]: the first three bytes and the last are cut off,
    and the second part is parsed.  A text too short, or without a colon,
    panics. *)
Definition VoterBitArray (qc : t) : outcome (option BitArray.t) :=
  let s := VoterBitArrayStr qc in
  if (String.length s =? 0)%nat then Ret None
  else if (String.length s <? 4)%nat then Panic
  else
    bits ← deref (Split (String.substring 3 (String.length s - 4) s) ":" !! 1%nat);
    BitArray.UnmarshalJSON (BitArray.quote +:+ bits +:+ BitArray.quote).

Definition GenesisQC : t := mk 0 0 0 "" 0 "".
End QuorumCert.

(** ** Blocks *)

Module Block.
Record t := mk {
  BlockHeader : Header.t;
  Txs : list Transaction.t;
  QC : option QuorumCert.t;
  CommitteeEpoch : Z;
  Nonce : Z;
  Magic : Z
}.
#[global] Instance eta : Settable t := fun b =>
  mk (BlockHeader b) (Txs b) (QC b) (CommitteeEpoch b) (Nonce b) (Magic b).

Definition IsKBlock (b : t) : bool := Header.BlockType (BlockHeader b) =? KBlockType.
Definition IsSBlock (b : t) : bool := Header.BlockType (BlockHeader b) =? SBlockType.
Definition Number (b : t) : Z := Header.Number (BlockHeader b).
Definition ParentID (b : t) : Bytes32 := Header.ParentID (BlockHeader b).
Definition ID `{BlockCrypto} (b : t) : Bytes32 := Header_ID (BlockHeader b).

(** The epoch of the committee for the first block behind a K-block, that of the
    certificate for the others. *)
Definition GetBlockEpoch (b : t) : outcome Z :=
  let height := Number b in
  let next := u32 (Header.LastKBlockHeight (BlockHeader b) + 1) in
  if height =? 0 then Ret 0
  else if next <? height then qc ← deref (QC b); Ret (QuorumCert.EpochID qc)
  else if height =? next then
    if IsKBlock b then qc ← deref (QC b); Ret (u64 (QuorumCert.EpochID qc + 1))
    else Ret (CommitteeEpoch b)
  else Panic.

Definition VotingHash `{BlockCrypto} (b : t) : Bytes32 :=
  voting_sha256 (Header.BlockType (BlockHeader b)) (Number b) (ID b)
    (Header.TxsRoot (BlockHeader b)) (Header.StateRoot (BlockHeader b)).
End Block.

Definition BlockMagicVersion1 : Z := 0x76010000.

(** ** Verification of a certificate *)

(** At least two thirds, rounded up.  The Go code divides [float64] values: a
    product below [2 ^ 33] divided by three rounds to no other integer. *)
Definition MajorityTwoThird (voterNum committeeSize : Z) : bool :=
  if committeeSize <? 1 then false else (2 * committeeSize + 2) / 3 <=? voterNum.

(** BLS signatures: decoding, and verification against an aggregate of keys. *)
Class BlsSystem : Type := {
  BlsPubKey : Type;
  BlsSig : Type;
  SigFromBytes : string -> string + BlsSig;
  SigToBytes : BlsSig -> string;
  bls_Aggregate : list BlsSig -> string + BlsSig;
  bls_AggregatePubkeys : list BlsPubKey -> string + BlsPubKey;
  bls_Verify : BlsSig -> Bytes32 -> BlsPubKey -> bool
}.

Section VerifyQC.
Context `{BlockCrypto} `{BlsSystem}.

Definition ThresholdVerify (sig : BlsSig) (hash : Bytes32) (pubKeys : list BlsPubKey) : string + bool :=
  if (length pubKeys =? 0)%nat then inl "pubkeys are empty"
  else
    match bls_AggregatePubkeys pubKeys with
    | inl err => inl err
    | inr key => inr (bls_Verify sig hash key)
    end.

(** The keys of the members whose bit is set. *)
Definition voters (bits : option BitArray.t) (committee : list BlsPubKey) : list BlsPubKey :=
  (filter (fun p => BitArray.GetIndex bits (Z.of_nat p.1) = true) (imap pair committee)).*2.

(** The votes are counted over the whole array, the keys taken of the
    committee.  A certificate without an array panics in [Count]. *)
Definition VerifyQC (b : Block.t) (escortQC : QuorumCert.t) (committee : list BlsPubKey)
    : outcome (string + bool) :=
  let number := Block.Number b in
  if (number =? QuorumCert.QCHeight escortQC) && ((number =? 0) || (number =? 1)) then Ret (inr true)
  else if negb (QuorumCert.VoterMsgHash escortQC =? Block.VotingHash b)
  then Ret (inl "voting hash mismatch")
  else
    bits ← QuorumCert.VoterBitArray escortQC;
    array ← deref bits;
    if negb (MajorityTwoThird (u32 (BitArray.Count array)) (u32 (Z.of_nat (length committee))))
    then Ret (inl "not enough votes")
    else
      match SigFromBytes (QuorumCert.VoterAggSig escortQC) with
      | inl err => Ret (inl err)
      | inr sig => Ret (ThresholdVerify sig (QuorumCert.VoterMsgHash escortQC) (voters bits committee))
      end.
End VerifyQC.
