(* ===== verification/QuorumTheorems.v ===== *)
(** * Theorems on quorum certificates

    The text form of the voters reads back, two accepted certificates share
    more members than may be faulty as long as their arrays are no longer than
    the committee, and what happens when they are longer. *)

From S2P Require Import Prelude Text BitArray KeyedList ChainParam Transaction Block.
From Stdlib Require Import Ascii.
From stdpp Require Import pretty list.
Open Scope Z_scope.
#[local] Arguments String.append : simpl nomatch.

(** ** The text form *)

Section Text.
Import BitArray BitArrayFacts BitArrayText.

Fixpoint no_colon (s : string) : bool :=
  match s with EmptyString => true | String c s => negb (Ascii.eqb c ":"%char) && no_colon s end.

Lemma no_colon_app s s' : no_colon (s +:+ s') = no_colon s && no_colon s'.
Proof. induction s as [|c s IH]; [done|]. simpl. rewrite IH. by rewrite andb_assoc. Qed.

Lemma append_assoc s1 s2 s3 : (s1 +:+ s2) +:+ s3 = s1 +:+ (s2 +:+ s3).
Proof. induction s1 as [|c s1 IH]; [done|]. simpl. by rewrite IH. Qed.
Lemma append_length s s' : String.length (s +:+ s') = (String.length s + String.length s')%nat.
Proof. induction s as [|c s IH]; [done|]. simpl. by rewrite IH. Qed.
Lemma append_nil s : s +:+ "" = s.
Proof. induction s as [|c s IH]; [done|]. simpl. by rewrite IH. Qed.

Lemma substring_all m s : (String.length s <= m)%nat -> String.substring 0 m s = s.
Proof. revert m. induction s as [|c s IH]; intros [|m]; simpl; try done; try lia. intros Hm. rewrite IH; [done|lia]. Qed.
Lemma substring_app s s' : String.substring 0 (String.length s) (s +:+ s') = s.
Proof. induction s as [|c s IH]; simpl; [by destruct s'|]. by rewrite IH. Qed.

Lemma prefix_colon c s : String.prefix ":" (String c s) = Ascii.eqb c ":".
Proof.
  cbn [String.prefix]. destruct (ascii_dec ":" c) as [<-|Hne]; [by destruct s|].
  symmetry. apply Ascii.eqb_neq. congruence.
Qed.

Lemma split_go_cons fuel acc c s :
  split_go (S fuel) ":" acc (String c s) =
    if Ascii.eqb c ":" then acc :: split_go fuel ":" "" s
    else split_go fuel ":" (acc +:+ String c "") s.
Proof.
  cbn [split_go]. rewrite prefix_colon. destruct (Ascii.eqb c ":"); [|done].
  cbn [String.length String.substring]. by rewrite substring_all by lia.
Qed.

Lemma split_go_no_colon fuel acc s :
  (String.length s <= fuel)%nat -> no_colon s = true -> split_go fuel ":" acc s = [acc +:+ s].
Proof.
  revert acc s. induction fuel as [|fuel IH]; intros acc [|c s] Hf Hs; simpl in Hf; try lia;
    [done|by rewrite append_nil|].
  simpl in Hs. apply andb_true_iff in Hs as [Hc%negb_true_iff Hs].
  rewrite split_go_cons, Hc, IH by (done || lia). by rewrite append_assoc.
Qed.

Lemma split_go_colon fuel acc s s' :
  (String.length (s +:+ ":" +:+ s') <= fuel)%nat -> no_colon s = true -> no_colon s' = true ->
  split_go fuel ":" acc (s +:+ ":" +:+ s') = [acc +:+ s; s'].
Proof.
  revert acc s. induction fuel as [|fuel IH]; intros acc [|c s] Hf Hs Hs'; simpl in Hf; try lia.
  - change ("" +:+ ":" +:+ s') with (String ":" s'). rewrite split_go_cons, append_nil.
    change (Ascii.eqb ":" ":") with true. cbn iota.
    rewrite split_go_no_colon; [done|lia|done].
  - simpl in Hs. apply andb_true_iff in Hs as [Hc%negb_true_iff Hs].
    change (String c s +:+ ":" +:+ s') with (String c (s +:+ ":" +:+ s')).
    rewrite split_go_cons, Hc, IH by first [done|simpl; lia]. by rewrite append_assoc.
Qed.

Lemma Split_colon s s' :
  no_colon s = true -> no_colon s' = true -> Split (s +:+ ":" +:+ s') ":" = [s; s'].
Proof. intros Hs Hs'. unfold Split. by rewrite split_go_colon. Qed.

Lemma no_colon_pretty_N x s : no_colon s = true -> no_colon (pretty_N_go x s) = true.
Proof.
  revert s. induction (N.lt_wf_0 x) as [x _ IH]; intros s Hs.
  destruct (decide (0 < x)%N) as [Hx|Hx].
  - rewrite pretty_N_go_step by done. apply IH; [by apply N.div_lt|].
    simpl. rewrite Hs, andb_true_r.
    assert (x `mod` 10 < 10)%N by (by apply N.mod_lt).
    destruct (x `mod` 10)%N as [|p]; [done|]. by do 4 (destruct p as [p|p|]; try done; try lia).
  - assert (x = 0%N) as -> by lia. done.
Qed.
Lemma no_colon_pretty x : 0 <= x -> no_colon (pretty x) = true.
Proof. intros Hx. destruct x; [done|by apply no_colon_pretty_N|lia]. Qed.

Lemma no_colon_bits vs : no_colon (String.string_of_list_ascii (bit_char <$> vs)) = true.
Proof. induction vs as [|[] vs IH]; [done|..]; simpl; exact IH. Qed.

Lemma filter_ext_in {A} (P Q : A -> Prop) `{forall x, Decision (P x)} `{forall x, Decision (Q x)} (l : list A) :
  (forall x, x ∈ l -> P x <-> Q x) -> filter P l = filter Q l.
Proof.
  induction l as [|x l IH]; intros Hx; [done|]. rewrite !filter_cons.
  rewrite IH by (intros y Hy; apply Hx; by right). pose proof (Hx x ltac:(by left)).
  by repeat case_decide; try tauto.
Qed.

Lemma VoterBitArray_text n vs qc :
  0 <= n -> (0 < length vs)%nat -> Z.of_nat (length vs) < 2 ^ 32 ->
  QuorumCert.VoterBitArrayStr qc
    = "BA{" +:+ pretty n +:+ ":" +:+ String.string_of_list_ascii (bit_char <$> vs) +:+ "}" ->
  exists b, QuorumCert.VoterBitArray qc = Ret (Some b) /\
    Bits b = Z.of_nat (length vs) /\ wf b /\
    forall i, 0 <= i -> getIndex b i = default false (vs !! Z.to_nat i).
Proof.
  intros Hn Hpos Hlt Hs. set (bits := String.string_of_list_ascii (bit_char <$> vs)) in *.
  set (body := pretty n +:+ ":" +:+ bits).
  assert (QuorumCert.VoterBitArrayStr qc = "BA{" +:+ (body +:+ "}")) as Hs'
    by (rewrite Hs; unfold body; by rewrite !append_assoc).
  unfold QuorumCert.VoterBitArray. rewrite Hs'.
  assert (String.length ("BA{" +:+ (body +:+ "}")) = (4 + String.length body)%nat) as Hl
    by (rewrite !append_length; simpl; lia).
  rewrite Hl. change (4 + String.length body =? 0)%nat with false.
  destruct (Nat.ltb_spec (4 + String.length body) 4); [lia|]. cbn iota.
  replace (4 + String.length body - 4)%nat with (String.length body) by lia.
  change (String.substring 3 (String.length body) ("BA{" +:+ (body +:+ "}")))
    with (String.substring 0 (String.length body) (body +:+ "}")).
  rewrite substring_app. unfold body.
  rewrite Split_colon by (by apply no_colon_pretty || apply no_colon_bits). simpl.
  by apply UnmarshalJSON_quoted.
Qed.

Lemma read_back b qc :
  0 < Bits b < 2 ^ 32 -> QuorumCert.VoterBitArrayStr qc = String_ (Some b) ->
  exists b', QuorumCert.VoterBitArray qc = Ret (Some b') /\ Bits b' = Bits b /\
    Count b' = Count b /\ forall i, 0 <= i -> getIndex b' i = getIndex b i.
Proof.
  intros Hb Hs. destruct (VoterBitArray_text (Bits b) (bits_of b) qc) as (b' & Hv & HB & _ & Hg).
  1: lia. 1,2: unfold bits_of; rewrite length_fmap, length_seqZ; lia.
  { rewrite Hs. unfold String_, bit_chars, bits_of. by rewrite <- list_fmap_compose. }
  unfold bits_of in HB. rewrite length_fmap, length_seqZ in HB.
  assert (forall i, 0 <= i -> getIndex b' i = getIndex b i) as Hi.
  { intros i Hi. rewrite Hg by done. by apply bits_of_lookup. }
  exists b'. split_and!; [done|lia| |done].
  unfold Count. replace (Bits b') with (Bits b) by lia. do 2 f_equal.
  apply filter_ext_in. intros i Hin. rewrite Hi; [done|]. apply elem_of_seqZ in Hin. lia.
Qed.

(** C40: the voters of a certificate survive their text form: reading the array
    that [String] printed gives an array of the same size with the same bits, for
    every array that is not empty. *)
Theorem voter_bits_roundtrip b qc :
  0 < Bits b < 2 ^ 32 -> QuorumCert.VoterBitArrayStr qc = String_ (Some b) ->
  exists b', QuorumCert.VoterBitArray qc = Ret (Some b') /\ Bits b' = Bits b /\
    Count b' = Count b /\ forall i, 0 <= i -> getIndex b' i = getIndex b i.
Proof. exact (read_back b qc). Qed.
End Text.

(** ** Quorums *)

Lemma MajorityTwoThird_spec v n :
  MajorityTwoThird v n = true <-> 1 <= n /\ 2 * n <= 3 * v.
Proof.
  unfold MajorityTwoThird. destruct (Z.ltb_spec n 1); [split; [done|lia]|].
  rewrite Z.leb_le. pose proof (Z.div_mod (2 * n + 2) 3 ltac:(lia)).
  pose proof (Z.mod_pos_bound (2 * n + 2) 3 eq_refl). lia.
Qed.

Lemma filter_overlap {A} (P Q : A -> Prop) `{forall x, Decision (P x)} `{forall x, Decision (Q x)}
    (l : list A) :
  (length (filter P l) + length (filter Q l)
     <= length l + length (filter (fun x => P x /\ Q x) l))%nat.
Proof.
  induction l as [|x l IH]; [done|]. rewrite !filter_cons. repeat case_decide; simpl; (tauto || lia).
Qed.

Section Quorum.
Context `{BlockCrypto} `{BlsSystem}.
Implicit Types (b : Block.t) (qc : QuorumCert.t) (committee : list BlsPubKey).

(** What is assumed of the signature scheme: a signature that verifies against
    an aggregate of keys was made by every one of them. *)
Definition bls_sound (signed : BlsPubKey -> Bytes32 -> Prop) : Prop :=
  forall keys key sig hash, bls_AggregatePubkeys keys = inr key -> bls_Verify sig hash key = true ->
    Forall (fun k => signed k hash) keys.

(** The members of a committee of [n] whose bit is set. *)
Definition quorum (bits : option BitArray.t) (n : nat) : list nat :=
  filter (fun k => BitArray.GetIndex bits (Z.of_nat k) = true) (seq 0 n).

Lemma elem_of_voters bits committee k key :
  committee !! k = Some key -> k ∈ quorum bits (length committee) ->
  key ∈ voters bits committee.
Proof.
  intros Hk Hq. apply list_elem_of_filter in Hq as [Hb _]. unfold voters.
  apply list_elem_of_fmap. exists (k, key). split; [done|]. apply list_elem_of_filter. split; [done|].
  apply elem_of_lookup_imap. eauto.
Qed.

Lemma Count_quorum array n :
  BitArray.Bits array <= Z.of_nat n ->
  BitArray.Count array <= Z.of_nat (length (quorum (Some array) n)).
Proof.
  intros Hn. unfold BitArray.Count, quorum. apply inj_le.
  rewrite <- (length_fmap Z.of_nat (filter _ (seq 0 n))). apply submseteq_length.
  apply NoDup_submseteq; [apply NoDup_filter, NoDup_seqZ|].
  intros i [Hi Hin]%list_elem_of_filter. apply elem_of_seqZ in Hin.
  apply list_elem_of_fmap. exists (Z.to_nat i). rewrite Z2Nat.id by lia. split; [done|].
  apply list_elem_of_filter. rewrite Z2Nat.id by lia. split; [done|]. apply elem_of_seq. lia.
Qed.

(** An accepted certificate for a block behind the first: its array, the
    majority, and the signatures. *)
Lemma VerifyQC_inv signed b qc committee :
  bls_sound signed -> 1 < Block.Number b -> VerifyQC b qc committee = Ret (inr true) ->
  Z.of_nat (length committee) < 2 ^ 32 ->
  exists array, QuorumCert.VoterBitArray qc = Ret (Some array) /\
    MajorityTwoThird (u32 (BitArray.Count array)) (Z.of_nat (length committee)) = true /\
    Forall (fun k => signed k (Block.VotingHash b)) (voters (Some array) committee).
Proof.
  intros Hs Hn Hv Hlen. unfold VerifyQC in Hv.
  destruct (Z.eqb_spec (Block.Number b) 0); [lia|]. destruct (Z.eqb_spec (Block.Number b) 1); [lia|].
  rewrite andb_false_r in Hv.
  destruct (Z.eqb_spec (QuorumCert.VoterMsgHash qc) (Block.VotingHash b)) as [Eh|]; [|done]. simpl in Hv.
  destruct (QuorumCert.VoterBitArray qc) as [[array|]|]; [|done..]. simpl in Hv.
  unfold u32 at 2 in Hv. rewrite Z.mod_small in Hv by lia.
  destruct (MajorityTwoThird _ _) eqn:Em; [|done]. simpl in Hv.
  destruct (SigFromBytes _) as [|sig]; [done|]. injection Hv as Hv. unfold ThresholdVerify in Hv.
  destruct (length _ =? 0)%nat; [done|].
  destruct (bls_AggregatePubkeys _) as [|key] eqn:Ek; [done|]. injection Hv as Hv.
  exists array. split_and!; [done..|]. rewrite <- Eh. by eapply Hs.
Qed.
End Quorum.

(** C14: two certificates of blocks above number 1 that verify against one
    committee, with arrays no longer than the committee, share at least a third of
    the members, and those members signed both blocks; so a conflict of two certified blocks takes more
    faulty members than [(n - 1) / 3]. *)
Theorem certificates_share_signers `{BlockCrypto} `{BlsSystem} signed b1 qc1 b2 qc2 committee a1 a2 :
  bls_sound signed -> 1 < Block.Number b1 -> 1 < Block.Number b2 ->
  Z.of_nat (length committee) < 2 ^ 32 ->
  VerifyQC b1 qc1 committee = Ret (inr true) -> VerifyQC b2 qc2 committee = Ret (inr true) ->
  QuorumCert.VoterBitArray qc1 = Ret (Some a1) -> QuorumCert.VoterBitArray qc2 = Ret (Some a2) ->
  BitArray.Bits a1 <= Z.of_nat (length committee) ->
  BitArray.Bits a2 <= Z.of_nat (length committee) ->
  exists common : list nat, NoDup common /\ (length committee <= 3 * length common)%nat /\
    forall k, k ∈ common -> exists key, committee !! k = Some key /\
      signed key (Block.VotingHash b1) /\ signed key (Block.VotingHash b2).
Proof.
  intros Hs Hn1 Hn2 Hlen Hv1 Hv2 Ha1 Ha2 Hb1 Hb2. set (n := length committee) in *.
  destruct (VerifyQC_inv _ _ _ _ Hs Hn1 Hv1 Hlen) as (a1' & Ha1' & Hm1 & Hf1).
  destruct (VerifyQC_inv _ _ _ _ Hs Hn2 Hv2 Hlen) as (a2' & Ha2' & Hm2 & Hf2).
  rewrite Ha1 in Ha1'. injection Ha1' as <-. rewrite Ha2 in Ha2'. injection Ha2' as <-.
  exists (filter (fun k => BitArray.GetIndex (Some a1) (Z.of_nat k) = true /\
                           BitArray.GetIndex (Some a2) (Z.of_nat k) = true) (seq 0 n)).
  split_and!.
  - apply NoDup_filter, NoDup_seq.
  - apply MajorityTwoThird_spec in Hm1 as [_ Hm1]. apply MajorityTwoThird_spec in Hm2 as [_ Hm2].
    pose proof (Count_quorum a1 n Hb1). pose proof (Count_quorum a2 n Hb2).
    pose proof (filter_overlap (fun k => BitArray.GetIndex (Some a1) (Z.of_nat k) = true)
      (fun k => BitArray.GetIndex (Some a2) (Z.of_nat k) = true) (seq 0 n)) as Ho.
    rewrite length_seq in Ho. unfold quorum in *.
    assert (u32 (BitArray.Count a1) <= BitArray.Count a1) by (apply Z.mod_le; [unfold BitArray.Count; lia|done]).
    assert (u32 (BitArray.Count a2) <= BitArray.Count a2) by (apply Z.mod_le; [unfold BitArray.Count; lia|done]).
    lia.
  - intros k [[H1 H2] Hk%elem_of_seq]%list_elem_of_filter.
    destruct (lookup_lt_is_Some_2 committee k) as [key Hkey]; [subst n; lia|]. exists key. split; [done|].
    rewrite Forall_forall in Hf1, Hf2.
    split; [apply Hf1|apply Hf2]; (eapply elem_of_voters; [done|]); apply list_elem_of_filter;
      (split; [done|apply elem_of_seq; subst n; lia]).
Qed.

(** ** Arrays longer than the committee *)

Lemma filter_none {A} (P : A -> Prop) `{forall x, Decision (P x)} (l : list A) :
  (forall x, x ∈ l -> ~ P x) -> filter P l = [].
Proof.
  induction l as [|x l IH]; intros Hx; [done|]. rewrite filter_cons_False by (apply Hx; by left).
  apply IH. intros y Hy. apply Hx. by right.
Qed.

Lemma filter_index {A} (l : list A) i x :
  l !! i = Some x -> filter (fun p : nat * A => p.1 = i) (imap pair l) = [(i, x)].
Proof.
  intros Hi. rewrite <- (take_drop_middle l i x Hi), imap_app. apply lookup_lt_Some in Hi as Hl.
  rewrite filter_app. replace (filter _ (imap pair (take i l))) with (@nil (nat * A)).
  - cbn [imap]. rewrite filter_cons_True by (simpl; rewrite length_take; lia). simpl.
    rewrite length_take, Nat.add_0_r, Nat.min_l by lia. f_equal.
    apply filter_none. intros p Hp.
    apply elem_of_lookup_imap in Hp as (j & y & -> & _). simpl. lia.
  - symmetry. apply filter_none. intros p Hp.
    apply elem_of_lookup_imap in Hp as (j & y & -> & Hj). simpl.
    apply lookup_lt_Some in Hj. rewrite length_take in Hj. lia.
Qed.

(** The bits of an array twice as long as the committee: of its members only
    [i], and every bit behind. *)
Definition long_bits (n i : nat) : list bool :=
  ((fun k => bool_decide (k = i)) <$> seq 0 n) ++ replicate n true.

Lemma long_bits_length n i : length (long_bits n i) = (2 * n)%nat.
Proof. unfold long_bits. rewrite length_app, length_fmap, length_seq, length_replicate. lia. Qed.
Lemma long_bits_member n i k :
  (k < n)%nat -> default false (long_bits n i !! k) = bool_decide (k = i).
Proof.
  intros Hk. unfold long_bits. rewrite lookup_app_l by (rewrite length_fmap, length_seq; lia).
  rewrite list_lookup_fmap, lookup_seq_lt by lia. done.
Qed.
Lemma long_bits_behind n i k :
  (n <= k < 2 * n)%nat -> default false (long_bits n i !! k) = true.
Proof.
  intros Hk. unfold long_bits. rewrite lookup_app_r by (rewrite length_fmap, length_seq; lia).
  rewrite length_fmap, length_seq. by rewrite lookup_replicate_2 by lia.
Qed.

Section LongArray.
Context `{BlockCrypto} `{BlsSystem}.
Variables (n i : nat) (array : BitArray.t).
Hypothesis (Hsize : BitArray.Bits array = Z.of_nat (2 * n)).
Hypothesis (Hbits : forall k, 0 <= k ->
  BitArray.getIndex array k = default false (long_bits n i !! Z.to_nat k)).

Lemma long_count : Z.of_nat n <= BitArray.Count array <= Z.of_nat (2 * n).
Proof.
  unfold BitArray.Count. split; apply inj_le.
  - transitivity (length (seqZ (Z.of_nat n) (Z.of_nat n))); [rewrite length_seqZ; lia|].
    apply submseteq_length, NoDup_submseteq; [apply NoDup_seqZ|].
    intros k Hk%elem_of_seqZ. apply list_elem_of_filter. split; [|apply elem_of_seqZ; lia].
    rewrite Hbits by lia. apply long_bits_behind. lia.
  - etransitivity; [apply length_filter|]. rewrite length_seqZ. lia.
Qed.

Lemma long_voters committee key :
  length committee = n -> committee !! i = Some key -> voters (Some array) committee = [key].
Proof.
  intros Hn Hi. unfold voters. erewrite filter_ext_in; [by rewrite (filter_index _ _ _ Hi)|].
  intros p Hp. apply elem_of_lookup_imap in Hp as (k & x & -> & Hk). simpl.
  apply lookup_lt_Some in Hk. rewrite Hbits, Nat2Z.id, long_bits_member by lia.
  by rewrite bool_decide_eq_true.
Qed.
End LongArray.

(** C30: one member of the committee can certify any block alone.  The votes are
    counted over the whole array of the certificate and the keys are taken of
    the committee, so with an array longer than the committee the bits behind
    it count as votes of nobody: the certificate verifies although its only
    signer is that member. *)
Theorem certificate_of_one_member `{BlockCrypto} `{BlsSystem} b committee i key raw sig agg :
  1 < Block.Number b -> (0 < length committee)%nat -> 2 * Z.of_nat (length committee) < 2 ^ 32 ->
  committee !! i = Some key -> SigFromBytes raw = inr sig ->
  bls_AggregatePubkeys [key] = inr agg -> bls_Verify sig (Block.VotingHash b) agg = true ->
  exists qc array, QuorumCert.VoterBitArray qc = Ret (Some array) /\
    voters (Some array) committee = [key] /\ VerifyQC b qc committee = Ret (inr true).
Proof.
  intros Hn Hpos Hlen Hi Hraw Hagg Hver. set (n := length committee) in *.
  set (qc := QuorumCert.mk (Block.Number b) 0 0
    ("BA{" +:+ pretty 0 +:+ ":" +:+
      String.string_of_list_ascii (BitArray.bit_char <$> long_bits n i) +:+ "}")
    (Block.VotingHash b) raw).
  destruct (VoterBitArray_text 0 (long_bits n i) qc) as (array & Ha & Hs & _ & Hb);
    [done|rewrite long_bits_length; lia..|done|].
  rewrite long_bits_length in Hs. exists qc, array.
  assert (voters (Some array) committee = [key]) as Hvot by (by eapply long_voters).
  split_and!; [done..|]. unfold VerifyQC.
  destruct (Z.eqb_spec (Block.Number b) 0); [lia|]. destruct (Z.eqb_spec (Block.Number b) 1); [lia|].
  rewrite andb_false_r. change (QuorumCert.VoterMsgHash qc) with (Block.VotingHash b).
  rewrite Z.eqb_refl. cbn [negb]. rewrite Ha. cbn [outcome_bind mbind deref].
  assert (Z.of_nat n <= BitArray.Count array <= Z.of_nat (2 * n)) by (by eapply long_count).
  replace (MajorityTwoThird _ _) with true.
  - cbn. rewrite Hraw. unfold ThresholdVerify. rewrite Hvot. simpl. by rewrite Hagg, Hver.
  - symmetry. apply MajorityTwoThird_spec. unfold u32. rewrite !Z.mod_small by lia. lia.
Qed.

(** ** A concrete committee *)

Module SampleQC.
#[export] Instance block_crypto : BlockCrypto := {|
  blake2b_rlp := foldr (fun x acc => (x + 31 * acc) mod 2 ^ 256) 7;
  blake2b_signed := fun h a => h + a;
  PrivateKey := bool;
  PubkeyToAddress := fun k => if k then 1 else 2;
  Sign := fun _ k => inr (if k then "1" else "2");
  SigToPub := fun _ s => if (s =? "1")%string then inr 1 else if (s =? "2")%string then inr 2
                         else inl "invalid signature";
  voting_sha256 := fun t n id txs st => (t + n + id + txs + st) mod 2 ^ 256
|}.
(** A key stands for a list of members; the one signature there is was made by
    the members 1, 2 and 3. *)
#[export] Instance bls : BlsSystem := {|
  BlsPubKey := list Z;
  BlsSig := unit;
  SigFromBytes := fun s => if (s =? "sig")%string then inr tt else inl "bad signature";
  SigToBytes := fun _ => "sig";
  bls_Aggregate := fun _ => inr tt;
  bls_AggregatePubkeys := fun keys => inr (concat keys);
  bls_Verify := fun _ _ key => forallb (fun k => bool_decide (k ∈ [1; 2; 3])) key
|}.
Definition signed (key : list Z) (_ : Bytes32) : Prop := forall k, k ∈ key -> k ∈ [1; 2; 3].

Lemma sound : @bls_sound bls signed.
Proof.
  intros keys key sig hash [=<-] Hv. apply Forall_forall. intros k Hk x Hx.
  simpl in Hv. rewrite forallb_forall in Hv. specialize (Hv x).
  rewrite bool_decide_eq_true in Hv. apply Hv. apply list_elem_of_In.
  apply list_elem_of_In, in_concat. exists k. by split; apply list_elem_of_In.
Qed.

Definition committee : list (list Z) := [[1]; [2]; [3]; [4]].
Definition block (score : Z) : Block.t :=
  Block.mk (Header.zero <| Header.ParentID := 2 ^ 224 |> <| Header.TotalScore := score |>) [] None 0 0
    BlockMagicVersion1.
Definition array : BitArray.t := BitArray.mk 4 [7].
Definition qc (b : Block.t) : QuorumCert.t :=
  QuorumCert.mk 2 0 0 (BitArray.String_ (Some array)) (Block.VotingHash b) "sig".
End SampleQC.
#[local] Existing Instance SampleQC.block_crypto.
#[local] Existing Instance SampleQC.bls.

Lemma voter_bits_roundtrip_witness :
  exists b', QuorumCert.VoterBitArray (SampleQC.qc (SampleQC.block 1)) = Ret (Some b') /\
    BitArray.Bits b' = 4 /\ BitArray.Count b' = 3 /\
    forall i, 0 <= i -> BitArray.getIndex b' i = BitArray.getIndex SampleQC.array i.
Proof.
  apply (voter_bits_roundtrip SampleQC.array); [by split|reflexivity].
Defined.

Lemma certificates_share_signers_witness :
  exists common : list nat, NoDup common /\ (4 <= 3 * length common)%nat /\
    forall k : nat, k ∈ common -> exists key : list Z, SampleQC.committee !! k = Some key /\
      SampleQC.signed key (Block.VotingHash (SampleQC.block 1)) /\
      SampleQC.signed key (Block.VotingHash (SampleQC.block 2)).
Proof.
  apply (@certificates_share_signers SampleQC.block_crypto SampleQC.bls SampleQC.signed (SampleQC.block 1) (SampleQC.qc (SampleQC.block 1))
    (SampleQC.block 2) (SampleQC.qc (SampleQC.block 2)) SampleQC.committee SampleQC.array SampleQC.array);
    try (vm_compute; reflexivity); try (vm_compute; discriminate).
  apply SampleQC.sound.
Defined.

Lemma certificate_of_one_member_witness :
  exists qc array, QuorumCert.VoterBitArray qc = Ret (Some array) /\
    voters (Some array) SampleQC.committee = [[1]] /\
    VerifyQC (SampleQC.block 1) qc SampleQC.committee = Ret (inr true).
Proof.
  apply (@certificate_of_one_member SampleQC.block_crypto SampleQC.bls (SampleQC.block 1) SampleQC.committee 0 [1] "sig" tt [1]);
    try (vm_compute; reflexivity).
  simpl. lia.
Defined.

(** A certificate with the right hash and no array makes its verification
    panic. *)
Lemma empty_array_panics `{BlockCrypto} `{BlsSystem} b qc committee :
  1 < Block.Number b -> QuorumCert.VoterMsgHash qc = Block.VotingHash b ->
  QuorumCert.VoterBitArrayStr qc = "" -> VerifyQC b qc committee = Panic.
Proof.
  intros Hn Hh Hs. unfold VerifyQC, QuorumCert.VoterBitArray. rewrite Hh, Hs, Z.eqb_refl.
  destruct (Z.eqb_spec (Block.Number b) 0); [lia|]. destruct (Z.eqb_spec (Block.Number b) 1); [lia|].
  by rewrite andb_false_r.
Qed.
