(* ===== verification/Votes.v ===== *)
(** * Votes

    [consensus/qc_vote_manager.go], [consensus/tc_vote_manager.go] and
    [types/timeout_cert.go]: the books in which the leader of a round collects
    the votes on a proposal and on the timeout of a round, the certificates
    built of them, and the check of a timeout certificate in
    [consensus/pacemaker_assist.go].  The BLS library is the class
    [BlsSystem]; the order in which Go ranges over a map is the argument
    [range] of what depends on it. *)

From S2P Require Import Prelude Text BitArray KeyedList ChainParam Transaction Block.
From stdpp Require Import gmap.
Open Scope Z_scope.

(** ** Timeout certificates *)

Module TimeoutCert.
Record t := mk {
  Epoch : Z;
  Round : Z;
  BitArray_ : option BitArray.t;
  MsgHash : Bytes32;
  AggSig : string
}.
End TimeoutCert.

(** The SHA-256 of the text of a vote for the timeout of a round. *)
Class TimeoutHash : Type := { timeout_sha256 : Z -> Z -> Bytes32 }.

Definition BuildTimeoutVotingHash `{TimeoutHash} (epoch round : Z) : Bytes32 := timeout_sha256 epoch round.

Section VerifyTC.
Context `{BlockCrypto} `{BlsSystem} `{TimeoutHash}.

(** [curEpoch], [committeeSize] and [committee] are the reactor's.  The bits
    are counted over the whole array, which panics when there is none. *)
Definition verifyTC (curEpoch committeeSize : Z) (committee : list BlsPubKey)
    (tc : option TimeoutCert.t) (round : Z) : outcome bool :=
  match tc with
  | None => Ret false
  | Some tc =>
    let voteHash := BuildTimeoutVotingHash (TimeoutCert.Epoch tc) (TimeoutCert.Round tc) in
    if negb (TimeoutCert.Epoch tc =? curEpoch) || negb (TimeoutCert.Round tc =? round) then Ret false
    else if negb (TimeoutCert.MsgHash tc =? voteHash) then Ret false
    else
      array ← deref (TimeoutCert.BitArray_ tc);
      if negb (MajorityTwoThird (u32 (BitArray.Count array)) committeeSize) then Ret false
      else
        match SigFromBytes (TimeoutCert.AggSig tc) with
        | inl _ => Ret false
        | inr sig =>
          match ThresholdVerify sig (TimeoutCert.MsgHash tc)
                  (voters (TimeoutCert.BitArray_ tc) committee) with
          | inl _ => Ret false
          | inr valid => Ret valid
          end
        end
  end.
End VerifyTC.

(** ** The two books *)

Section Votes.
Context `{BlsSystem}.

Record vote := mk_vote {
  Signature : string;
  Hash : Bytes32;
  BlsSig_ : BlsSig
}.

(** The state of a manager: the votes of a key by the index of the member,
    and the keys that have their certificate. *)
Record VoteManager (K : Type) `{Countable K} := mk_manager {
  votes : gmap K (gmap Z vote);
  sealed : gset K;
  committeeSize : Z
}.
#[global] Arguments mk_manager {K _ _} _ _ _.
#[global] Arguments votes {K _ _} _.
#[global] Arguments sealed {K _ _} _.
#[global] Arguments committeeSize {K _ _} _.
#[global] Instance eta_manager (K : Type) `{Countable K} : Settable (VoteManager K) := fun m =>
  mk_manager (votes m) (sealed m) (committeeSize m).

Section Book.
Context {K : Type} `{Countable K}.
Implicit Types (m : VoteManager K) (key : K).

Definition votes_of m key : gmap Z vote := default ∅ (votes m !! key).
(** The map of a key is made on the first vote, also when that vote is refused. *)
Definition open_key key m : VoteManager K := m <| votes ::= <[key := votes_of m key]> |>.
Definition put_vote key (index : Z) (v : vote) m : VoteManager K :=
  m <| votes ::= <[key := <[index := v]> (votes_of m key)]> |>.
Definition seal_key key m : VoteManager K := m <| sealed ::= union {[key]} |>.
Definition voteCount m key : Z := u32 (Z.of_nat (size (votes_of m key))).

(** The loop over the votes: the signatures, the bits, and the hash of the vote
    that comes last. *)
Definition tally (size : Z) (vs : list (Z * vote)) : list BlsSig * option BitArray.t * Bytes32 :=
  foldl (fun '(sigs, bits, _) '(index, v) =>
           (sigs ++ [BlsSig_ v], fst (BitArray.SetIndex index true bits), Hash v))
        ([], BitArray.NewBitArray size, 0) vs.

(** What [CleanUpTo] removes: the keys that are [old]. *)
Definition clean (old : K -> bool) m : VoteManager K :=
  m <| votes ::= filter (fun p => old p.1 = false) |>
    <| sealed ::= filter (fun key => old key = false \/ votes m !! key = None) |>.
End Book.

Section Managers.
Variable range : gmap Z vote -> list (Z * vote).

(** *** Votes on proposals *)

(** A round and the identifier of a block. *)
Definition voteKey : Type := Z * Bytes32.
Definition QCVoteManager : Type := VoteManager voteKey.
Implicit Types (m : QCVoteManager).

Definition NewQCVoteManager (committeeSize : Z) : QCVoteManager := mk_manager ∅ ∅ committeeSize.

Definition Aggregate (round : Z) (blockID : Bytes32) (epoch : Z) m
    : QCVoteManager * option QuorumCert.t :=
  let key := (round, blockID) in
  let m := seal_key key m in
  let '(sigs, bitArray, msgHash) := tally (committeeSize m) (range (votes_of m key)) in
  match bls_Aggregate sigs with
  | inl _ => (m, None)
  | inr sigAgg =>
    (m, Some (QuorumCert.mk (Number blockID) round epoch (BitArray.String_ bitArray) msgHash
                (SigToBytes sigAgg)))
  end.

Definition AddVote (index epoch round : Z) (blockID : Bytes32) (sig : string) (hash : Bytes32) m
    : QCVoteManager * option QuorumCert.t :=
  let key := (round, blockID) in
  let m := open_key key m in
  if bool_decide (key ∈ sealed m) then (m, None)
  else if (String.length sig =? 0)%nat then (m, None)
  else
    match SigFromBytes sig with
    | inl _ => (m, None)
    | inr blsSig =>
      let m := put_vote key index (mk_vote sig hash blsSig) m in
      if MajorityTwoThird (voteCount m key) (committeeSize m)
      then Aggregate round blockID epoch (seal_key key m)
      else (m, None)
    end.

Definition Count (round : Z) (blockID : Bytes32) m : Z := voteCount m (round, blockID).
Definition CleanUpTo (blockNum : Z) m : QCVoteManager :=
  clean (fun key => Number key.2 <? blockNum) m.

(** *** Votes on timeouts *)

(** An epoch and a round. *)
Definition timeoutVoteKey : Type := Z * Z.
Definition TCVoteManager : Type := VoteManager timeoutVoteKey.

Definition NewTCVoteManager (committeeSize : Z) : TCVoteManager := mk_manager ∅ ∅ committeeSize.

Definition TC_Aggregate (epoch round : Z) (m : TCVoteManager) : TCVoteManager * option TimeoutCert.t :=
  let key := (epoch, round) in
  let m := seal_key key m in
  let '(sigs, bitArray, msgHash) := tally (committeeSize m) (range (votes_of m key)) in
  match bls_Aggregate sigs with
  | inl _ => (m, None)
  | inr sigAgg => (m, Some (TimeoutCert.mk epoch round bitArray msgHash (SigToBytes sigAgg)))
  end.

(** An empty signature is left to the decoder. *)
Definition TC_AddVote (index epoch round : Z) (sig : string) (hash : Bytes32) (m : TCVoteManager)
    : TCVoteManager * option TimeoutCert.t :=
  let key := (epoch, round) in
  let m := open_key key m in
  if bool_decide (key ∈ sealed m) then (m, None)
  else
    match SigFromBytes sig with
    | inl _ => (m, None)
    | inr blsSig =>
      let m := put_vote key index (mk_vote sig hash blsSig) m in
      if MajorityTwoThird (voteCount m key) (committeeSize m)
      then TC_Aggregate epoch round (seal_key key m)
      else (m, None)
    end.

Definition TC_Count (epoch round : Z) (m : TCVoteManager) : Z := voteCount m (epoch, round).
Definition TC_CleanUpTo (epoch : Z) (m : TCVoteManager) : TCVoteManager :=
  clean (fun key => key.1 <? epoch) m.
End Managers.
End Votes.
