(* ===== verification/VoteTheorems.v ===== *)
(** * Theorems on votes

    The votes on a proposal make exactly one certificate, as soon as two thirds
    of the members voted, and it verifies; the same for timeouts; and one vote
    that its member did not sign spoils the certificate, since votes are not
    checked when they are entered. *)

From S2P Require Import Prelude Text BitArray KeyedList ChainParam Transaction Block QuorumTheorems Votes.
From stdpp Require Import gmap pretty.
Open Scope Z_scope.

(** ** The tally *)

Section Tally.
Context `{BlsSystem}.
Implicit Types (vs : list (Z * vote)).

Lemma tally_app n vs i v :
  tally n (vs ++ [(i, v)]) =
    (let '(sigs, bits, _) := tally n vs in
     (sigs ++ [BlsSig_ v], fst (BitArray.SetIndex i true bits), Hash v)).
Proof. unfold tally. rewrite foldl_app. simpl. by destruct (foldl _ _ vs) as [[? ?] ?]. Qed.

(** The array has the size of the committee and the bits of the voters. *)
Lemma tally_spec n vs :
  0 < n < 2 ^ 32 -> Forall (fun p => 0 <= p.1) vs ->
  exists b, (tally n vs).1 = (BlsSig_ <$> vs.*2, Some b) /\
    (tally n vs).2 = from_option Hash 0 (last vs.*2) /\
    BitArray.Bits b = n /\ BitArrayFacts.wf b /\
    forall i, 0 <= i < n -> BitArray.getIndex b i = bool_decide (i ∈ vs.*1).
Proof.
  intros Hn. induction vs as [|[i v] vs IH] using rev_ind; intros Hvs.
  - destruct (BitArrayFacts.NewBitArray_spec n Hn) as (b & Hb & HB & Hwf & Hg).
    exists b. unfold tally. simpl. rewrite Hb. split_and!; [done..|].
    intros i Hi. by rewrite Hg by lia.
  - apply Forall_app in Hvs as [Hvs [Hi _]%Forall_cons].
    destruct (IH Hvs) as (b & H1 & _ & HB & Hwf & Hg). simpl in Hi.
    rewrite tally_app. destruct (tally n vs) as [[sigs bits] h]. simpl in H1. injection H1 as -> ->.
    exists (fst (BitArray.setIndex i true b)). rewrite !fmap_app.
    change ([(i, v)].*2) with [v]. change ([(i, v)].*1) with [i]. rewrite last_snoc.
    assert (fst (BitArray.SetIndex i true (Some b)) = Some (fst (BitArray.setIndex i true b))) as ->
      by (unfold BitArray.SetIndex; by destruct (BitArray.setIndex i true b)).
    split_and!; [done..|by rewrite BitArrayFacts.setIndex_Bits|by apply BitArrayFacts.setIndex_wf|].
    intros j Hj. rewrite BitArrayFacts.getIndex_setIndex by (done || lia).
    rewrite Hg by done. destruct (Z.eqb_spec j i) as [->|Hne]; simpl.
    + rewrite (proj2 (Z.ltb_lt i _)) by lia. symmetry. apply bool_decide_eq_true. set_solver.
    + apply bool_decide_ext. set_solver.
Qed.

(** As many bits as voters, when the voters are members. *)
Lemma Count_members n (ids : list Z) b :
  BitArray.Bits b = n -> NoDup ids -> Forall (fun i => 0 <= i < n) ids ->
  (forall i, 0 <= i < n -> BitArray.getIndex b i = bool_decide (i ∈ ids)) ->
  BitArray.Count b = Z.of_nat (length ids).
Proof.
  intros HB Hnd His Hg. unfold BitArray.Count. rewrite HB. f_equal.
  apply Permutation_length, NoDup_Permutation; [apply NoDup_filter, NoDup_seqZ|done|].
  intros i. rewrite list_elem_of_filter, elem_of_seqZ. rewrite Forall_forall in His. split.
  - intros [Hi Hin]. rewrite Hg in Hi by lia. by apply bool_decide_eq_true in Hi.
  - intros Hi. pose proof (His i Hi). rewrite Hg by lia. split; [by apply bool_decide_eq_true|lia].
Qed.

(** The keys of the bits are those of the voters, in the committee's order. *)
Lemma voters_members (committee : list BlsPubKey) (ids : list Z) b :
  NoDup ids -> Forall (fun i => 0 <= i < Z.of_nat (length committee)) ids ->
  (forall i, 0 <= i < Z.of_nat (length committee) -> BitArray.getIndex b i = bool_decide (i ∈ ids)) ->
  voters (Some b) committee ≡ₚ omap (fun i => committee !! Z.to_nat i) ids.
Proof.
  intros Hnd His Hg. unfold voters.
  assert (omap (fun i => committee !! Z.to_nat i) ids
    = (omap (fun i => pair (Z.to_nat i) <$> committee !! Z.to_nat i) ids).*2) as ->.
  { clear. induction ids as [|i ids IH]; [done|]. csimpl. destruct (committee !! _); csimpl; by rewrite IH. }
  apply Permutation_map, NoDup_Permutation.
  - apply NoDup_filter. apply (NoDup_fmap_1 fst).
    assert ((imap pair committee).*1 = seq 0 (length committee)) as ->; [|apply NoDup_seq].
    apply list_eq. intros k. rewrite list_lookup_fmap, list_lookup_imap.
    destruct (committee !! k) eqn:E; simpl.
    + symmetry. apply lookup_seq. split; [done|]. by apply lookup_lt_Some in E.
    + symmetry. apply lookup_seq_ge. by apply lookup_ge_None in E.
  - apply (NoDup_fmap_1 fst).
    assert ((omap (fun i => pair (Z.to_nat i) <$> committee !! Z.to_nat i) ids).*1 = Z.to_nat <$> ids) as ->.
    { clear Hg Hnd. induction ids as [|i ids IH]; [done|]. apply Forall_cons in His as [Hi His]. csimpl.
      destruct (lookup_lt_is_Some_2 committee (Z.to_nat i)) as [k Hk]; [lia|].
      rewrite Hk. csimpl. by rewrite IH. }
    clear Hg. induction ids as [|i ids IH]; simpl; [constructor|].
    apply NoDup_cons in Hnd as [Hni Hnd]. apply Forall_cons in His as [Hi His].
    constructor; [|by apply IH]. intros (j & Hj & Hin)%list_elem_of_fmap.
    rewrite Forall_forall in His. pose proof (His j Hin). apply Z2Nat.inj in Hj; [|lia..]. by subst.
  - intros [k key]. rewrite list_elem_of_filter, elem_of_lookup_imap, list_elem_of_omap. simpl. split.
    + intros [Hb (k' & key' & [= <- <-] & Hk)]. pose proof (lookup_lt_Some _ _ _ Hk).
      rewrite Hg in Hb by lia. apply bool_decide_eq_true in Hb.
      exists (Z.of_nat k). rewrite Nat2Z.id, Hk. done.
    + intros (i & Hi & E). rewrite Forall_forall in His. pose proof (His i Hi).
      destruct (committee !! Z.to_nat i) as [key'|] eqn:Ek; [|done]. injection E as <- <-.
      rewrite Z2Nat.id by lia. split; [|by eauto].
      rewrite Hg by lia. by apply bool_decide_eq_true.
Qed.
End Tally.

(** ** Certificates of valid votes *)

Section Valid.
Context `{BlockCrypto} `{BlsSystem} `{TimeoutHash}.

Definition signature_valid (key : BlsPubKey) (sig : BlsSig) (hash : Bytes32) : Prop :=
  exists k, bls_AggregatePubkeys [key] = inr k /\ bls_Verify sig hash k = true.

(** What is assumed of the signature scheme here: the aggregate of signatures
    that are valid for their keys verifies against the aggregate of the same
    keys, in any order, and survives its encoding. *)
Definition bls_complete : Prop :=
  forall (signers : list (BlsPubKey * BlsSig)) keys hash,
    signers <> [] -> Forall (fun p => signature_valid p.1 p.2 hash) signers -> keys ≡ₚ signers.*1 ->
    exists sig key, bls_Aggregate signers.*2 = inr sig /\ SigFromBytes (SigToBytes sig) = inr sig /\
      bls_AggregatePubkeys keys = inr key /\ bls_Verify sig hash key = true.

Variable committee : list BlsPubKey.
Abbreviation n := (Z.of_nat (length committee)).

(** A vote of a member for [hash]. *)
Definition good_vote (hash : Bytes32) (p : Z * vote) : Prop :=
  Hash p.2 = hash /\ 0 <= p.1 /\
  exists key, committee !! Z.to_nat p.1 = Some key /\ signature_valid key (BlsSig_ p.2) hash.

Lemma good_vote_range hash p : good_vote hash p -> 0 <= p.1 < n.
Proof. intros (_ & Hp & key & Hk & _). apply lookup_lt_Some in Hk. lia. Qed.

Lemma good_signers hash (vs : list (Z * vote)) :
  Forall (good_vote hash) vs ->
  exists signers : list (BlsPubKey * BlsSig), signers.*2 = BlsSig_ <$> vs.*2 /\
    signers.*1 = omap (fun i => committee !! Z.to_nat i) vs.*1 /\
    Forall (fun p => signature_valid p.1 p.2 hash) signers.
Proof.
  induction 1 as [|[i v] vs (_ & Hi & key & Hk & Hv) _ (signers & Hx1 & Hx2 & Hx3)].
  - by exists [].
  - simpl in Hk. exists ((key, BlsSig_ v) :: signers). csimpl. rewrite Hk, Hx1. csimpl. rewrite Hx2.
    split_and!; [done..|]. by constructor.
Qed.

Lemma good_tally hash (vs : list (Z * vote)) :
  bls_complete -> n < 2 ^ 32 -> vs <> [] -> NoDup vs.*1 -> Forall (good_vote hash) vs ->
  exists sigs b sig, tally n vs = (sigs, Some b, hash) /\ bls_Aggregate sigs = inr sig /\
    SigFromBytes (SigToBytes sig) = inr sig /\
    BitArray.Bits b = n /\ BitArray.Count b = Z.of_nat (length vs) /\
    forall b', (forall i, 0 <= i -> BitArray.getIndex b' i = BitArray.getIndex b i) ->
      ThresholdVerify sig hash (voters (Some b') committee) = inr true.
Proof.
  intros Hbls Hn Hne Hnd Hvs.
  assert (Forall (fun i => 0 <= i < n) vs.*1) as Hr.
  { apply Forall_fmap. by eapply Forall_impl; [exact Hvs|apply good_vote_range]. }
  assert (0 < n) by (destruct vs as [|p vs]; [done|]; apply Forall_cons in Hr as [? _]; lia).
  destruct (tally_spec n vs) as (b & Hx1 & Hx2 & HB & _ & Hg); [lia| |].
  { eapply Forall_impl; [exact Hvs|]. intros p Hp. apply good_vote_range in Hp. lia. }
  destruct (good_signers hash vs Hvs) as (signers & Hs2 & Hs1 & Hs).
  assert (signers <> []) as Hsne.
  { intros ->. apply Hne. apply length_zero_iff_nil. by rewrite <- (length_fmap snd), <- (length_fmap BlsSig_), <- Hs2. }
  destruct (Hbls signers signers.*1 hash Hsne Hs) as (sig & _ & Hagg & Hdec & _); [done|].
  exists (BlsSig_ <$> vs.*2), b, sig. split_and!.
  - destruct (tally n vs) as [[? ?] ?]. simpl in Hx1, Hx2. injection Hx1 as -> ->. f_equal. rewrite Hx2.
    destruct (last vs.*2) as [v|] eqn:El.
    + apply last_Some_elem_of in El. apply list_elem_of_fmap in El as (p & -> & Hp).
      rewrite Forall_forall in Hvs. by destruct (Hvs p Hp).
    + apply last_None in El. destruct vs; done.
  - by rewrite <- Hs2.
  - done.
  - done.
  - rewrite (Count_members n vs.*1 b) by done. by rewrite length_fmap.
  - intros b' Hb'. assert (voters (Some b') committee ≡ₚ signers.*1) as Hp.
    { rewrite Hs1. apply voters_members; [done..|]. intros i Hi. rewrite Hb' by lia. by apply Hg. }
    unfold ThresholdVerify. destruct (length _ =? 0)%nat eqn:E.
    { apply Nat.eqb_eq in E. rewrite Hp, length_fmap in E. by apply length_zero_iff_nil in E. }
    destruct (Hbls signers _ hash Hsne Hs Hp) as (sig' & key & Hagg' & _ & -> & Hv).
    rewrite Hagg in Hagg'. injection Hagg' as <-. by rewrite Hv.
Qed.
End Valid.

(** ** The book of a key *)

Section Books.
Context `{BlsSystem} {K : Type} `{Countable K}.
Implicit Types (m : VoteManager K) (key : K).

Lemma votes_of_open key m k : votes_of (open_key key m) k = votes_of m k.
Proof.
  unfold votes_of, open_key, update_field. simpl.
  destruct (decide (key = k)) as [<-|Hne]; [by rewrite lookup_insert_eq|by rewrite lookup_insert_ne].
Qed.
Lemma votes_of_put key i v m k :
  votes_of (put_vote key i v m) k = if decide (key = k) then <[i := v]> (votes_of m k) else votes_of m k.
Proof.
  unfold votes_of at 1, put_vote, update_field. simpl.
  case_decide; [subst; by rewrite lookup_insert_eq|by rewrite lookup_insert_ne].
Qed.
End Books.

(** ** A poll *)

Section Poll.
Context `{BlockCrypto} `{BlsSystem}.
Variable range : gmap Z vote -> list (Z * vote).
Implicit Types (m : QCVoteManager).

(** The arguments of one call of [AddVote]. *)
Record ballot := mk_ballot {
  b_index : Z;
  b_epoch : Z;
  b_key : voteKey;
  b_sig : string;
  b_hash : Bytes32
}.
Definition cast (bt : ballot) m : QCVoteManager * option QuorumCert.t :=
  AddVote range (b_index bt) (b_epoch bt) (b_key bt).1 (b_key bt).2 (b_sig bt) (b_hash bt) m.

(** The certificates of a sequence of votes, each with its round and block. *)
Fixpoint poll (bts : list ballot) m : list (voteKey * QuorumCert.t) :=
  match bts with
  | [] => []
  | bt :: bts =>
    let '(m, qc) := cast bt m in
    match qc with
    | Some qc => (b_key bt, qc) :: poll bts m
    | None => poll bts m
    end
  end.

Definition certificates (key : voteKey) (bts : list ballot) m : list QuorumCert.t :=
  (filter (fun p => p.1 = key) (poll bts m)).*2.
Definition voted (key : voteKey) (bts : list ballot) : gset Z :=
  list_to_set (b_index <$> filter (fun bt => b_key bt = key) bts).

Lemma cast_other bt m key :
  b_key bt <> key ->
  let m' := (cast bt m).1 in
  votes_of m' key = votes_of m key /\ (key ∈ sealed m' <-> key ∈ sealed m) /\
  committeeSize m' = committeeSize m.
Proof.
  intros Hne. destruct bt as [i e [r id] sg h]. unfold cast, AddVote. simpl in *.
  assert (forall v, votes_of (put_vote (r, id) i v (open_key (r, id) m)) key = votes_of m key) as Hp.
  { intros v. rewrite votes_of_put, votes_of_open. by case_decide. }
  assert (votes_of (open_key (r, id) m) key = votes_of m key) as Ho by (by rewrite votes_of_open).
  case_bool_decide; [done|]. destruct (_ =? 0)%nat; [done|]. destruct (SigFromBytes sg) as [|s]; [done|].
  destruct (MajorityTwoThird _ _); [|by split_and!; [apply Hp|..]].
  unfold Aggregate. destruct (tally _ _) as [[? ?] ?].
  destruct (bls_Aggregate _); (split_and!; [apply Hp| |done]); simpl; set_solver.
Qed.

Variable committee : list BlsPubKey.
Abbreviation n := (Z.of_nat (length committee)).
Variables (b : Block.t) (round : Z).
Abbreviation key := (round, Block.ID b).
Hypothesis (Hrange : forall vm, range vm ≡ₚ map_to_list vm).
Hypothesis (Hbls : bls_complete).
Hypothesis (Hn : n < 2 ^ 32).

(** A vote of a member on [b] in [round]. *)
Definition honest (bt : ballot) : Prop :=
  b_hash bt = Block.VotingHash b /\ b_sig bt <> "" /\ 0 <= b_index bt /\
  exists pk sig, committee !! Z.to_nat (b_index bt) = Some pk /\ SigFromBytes (b_sig bt) = inr sig /\
    signature_valid pk sig (Block.VotingHash b).

(** The book of the block while [D] are the members that voted. *)
Definition book (D : gset Z) m : Prop :=
  committeeSize m = n /\ D ⊆ list_to_set (seqZ 0 n) /\
  if MajorityTwoThird (Z.of_nat (size D)) n then key ∈ sealed m
  else (key ∉ sealed m) /\ dom (votes_of m key) = D /\
       map_Forall (fun i v => good_vote committee (Block.VotingHash b) (i, v)) (votes_of m key).

Lemma book_size (D : gset Z) : D ⊆ list_to_set (seqZ 0 n) -> Z.of_nat (size D) <= n.
Proof.
  intros HD. apply subseteq_size in HD. rewrite size_list_to_set in HD by apply NoDup_seqZ.
  rewrite length_seqZ in HD. lia.
Qed.

Lemma Majority_mono v v' k : MajorityTwoThird v k = true -> v <= v' -> MajorityTwoThird v' k = true.
Proof. rewrite !MajorityTwoThird_spec. lia. Qed.

(** The certificate made of the votes that reach the majority. *)
Lemma Aggregate_good epoch m :
  committeeSize m = n -> votes_of m key <> ∅ ->
  map_Forall (fun i v => good_vote committee (Block.VotingHash b) (i, v)) (votes_of m key) ->
  MajorityTwoThird (Z.of_nat (size (votes_of m key))) n = true ->
  exists qc, (Aggregate range round (Block.ID b) epoch m).2 = Some qc /\
    VerifyQC b qc committee = Ret (inr true).
Proof.
  intros Hsz Hne Hgood Hmaj. unfold Aggregate.
  change (committeeSize (seal_key key m)) with (committeeSize m).
  change (votes_of (seal_key key m) key) with (votes_of m key). rewrite Hsz.
  set (vs := range (votes_of m key)).
  assert (vs ≡ₚ map_to_list (votes_of m key)) as Hvs by apply Hrange.
  assert (length vs = size (votes_of m key)) as Hlen by (by rewrite Hvs, length_map_to_list).
  destruct (good_tally committee (Block.VotingHash b) vs) as (sigs & a & sig & -> & -> & Hdec & HB & HC & Hv).
  1,2: done.
  { intros E. rewrite E in Hlen. symmetry in Hlen. by apply map_size_empty_iff in Hlen. }
  { rewrite Hvs. apply NoDup_fst_map_to_list. }
  { apply Forall_forall. intros [i v] Hin. rewrite Hvs in Hin. apply elem_of_map_to_list in Hin. by apply Hgood. }
  eexists. split; [done|].
  assert (0 < n) as Hpos by (apply MajorityTwoThird_spec in Hmaj; lia).
  destruct (read_back a (QuorumCert.mk (Number (Block.ID b)) round epoch (BitArray.String_ (Some a))
    (Block.VotingHash b) (SigToBytes sig))) as (a' & Ha' & HB' & HC' & Hg'); [lia|done|].
  unfold VerifyQC. destruct (_ && _); [done|]. cbn [QuorumCert.VoterMsgHash QuorumCert.VoterAggSig].
  rewrite Z.eqb_refl, Ha'. cbn. rewrite HC', HC, Hlen.
  assert (Z.of_nat (size (votes_of m key)) <= n) as Hle.
  { rewrite <- Hlen, <- HC. pose proof (Count_quorum a (length committee) ltac:(lia)).
    unfold quorum in *. pose proof (length_filter (fun k => BitArray.GetIndex (Some a) (Z.of_nat k) = true) (seq 0 (length committee))).
    rewrite length_seq in *. lia. }
  unfold u32. rewrite !Z.mod_small by lia. rewrite Hmaj, Hdec. simpl. by rewrite (Hv a' Hg').
Qed.

(** One vote: the certificate is made by the vote that reaches the majority. *)
Lemma cast_book D bt m :
  b_key bt = key -> honest bt -> book D m ->
  let D' := {[b_index bt]} ∪ D in
  book D' (cast bt m).1 /\
  if MajorityTwoThird (Z.of_nat (size D)) n then (cast bt m).2 = None
  else if MajorityTwoThird (Z.of_nat (size D')) n
  then exists qc, (cast bt m).2 = Some qc /\ VerifyQC b qc committee = Ret (inr true)
  else (cast bt m).2 = None.
Proof.
  intros Hk (Hh & Hs & Hi & pk & sig & Hpk & Hsig & Hval) (Hsz & HD & Hb). intros D'.
  destruct bt as [i e k sg h]. simpl in *. subst k h.
  assert (D' ⊆ list_to_set (seqZ 0 n)) as HD'.
  { apply lookup_lt_Some in Hpk. unfold D'. apply union_least; [|done].
    apply singleton_subseteq_l, elem_of_list_to_set, elem_of_seqZ. lia. }
  assert (size D <= size D')%nat as Hmono by (apply subseteq_size; set_solver).
  unfold cast, AddVote. cbn [b_index b_epoch b_key b_sig b_hash fst snd].
  set (m0 := open_key key m). change (sealed m0) with (sealed m).
  destruct (MajorityTwoThird (Z.of_nat (size D)) n) eqn:Em.
  { rewrite bool_decide_eq_true_2 by done. split; [|done]. split_and!; [done..|].
    by rewrite (Majority_mono _ (Z.of_nat (size D')) _ Em ltac:(lia)). }
  destruct Hb as (Hns & Hdom & Hgood). rewrite bool_decide_eq_false_2 by done.
  destruct (String.length sg =? 0)%nat eqn:El; [destruct sg; done|]. rewrite Hsig.
  set (m1 := put_vote key i _ m0).
  assert (votes_of m1 key = <[i := mk_vote sg (Block.VotingHash b) sig]> (votes_of m key)) as Hv1.
  { unfold m1. rewrite votes_of_put, decide_True by done. unfold m0. by rewrite votes_of_open. }
  assert (dom (votes_of m1 key) = D') as Hd1 by (rewrite Hv1, dom_insert_L, Hdom; done).
  assert (map_Forall (fun i v => good_vote committee (Block.VotingHash b) (i, v)) (votes_of m1 key)) as Hg1.
  { rewrite Hv1. apply map_Forall_insert_2; [|done]. split; [done|]. simpl. eauto. }
  assert (size (votes_of m1 key) = size D') as Hs1 by (by rewrite <- Hd1, size_dom).
  pose proof (book_size D' HD').
  assert (voteCount m1 key = Z.of_nat (size D')) as ->
    by (unfold voteCount; rewrite Hs1; apply Z.mod_small; lia).
  change (committeeSize m1) with (committeeSize m). rewrite Hsz.
  destruct (MajorityTwoThird (Z.of_nat (size D')) n) eqn:Em'.
  - destruct (Aggregate_good e (seal_key key m1)) as (qc & Hqc & Hver); [done| |done| |].
    { intros E. change (votes_of (seal_key key m1) key) with (votes_of m1 key) in E.
      rewrite Hv1 in E. by apply insert_non_empty in E. }
    { change (votes_of (seal_key key m1) key) with (votes_of m1 key). by rewrite Hs1. }
    split; [|by eauto]. unfold Aggregate in *. destruct (tally _ _) as [[? ?] ?].
    destruct (bls_Aggregate _); [done|]. split_and!; [done..|]. rewrite Em'. simpl. set_solver.
  - split; [|done]. split_and!; [done..|]. by rewrite Em'.
Qed.

Lemma certificates_cons bt bts m :
  certificates key (bt :: bts) m =
    (if decide (b_key bt = key) then option_list (cast bt m).2 else [])
      ++ certificates key bts (cast bt m).1.
Proof.
  unfold certificates. cbn [poll]. destruct (cast bt m) as [m' [qc|]], (decide (b_key bt = key)); try done.
  - by rewrite filter_cons_True.
  - by rewrite filter_cons_False.
Qed.

Lemma poll_book bts D m :
  book D m -> Forall (fun bt => b_key bt = key -> honest bt) bts ->
  if MajorityTwoThird (Z.of_nat (size D)) n then certificates key bts m = []
  else if MajorityTwoThird (Z.of_nat (size (voted key bts ∪ D))) n
  then exists qc, certificates key bts m = [qc] /\ VerifyQC b qc committee = Ret (inr true)
  else certificates key bts m = [].
Proof.
  revert D m. induction bts as [|bt bts IH]; intros D m Hb Hbts.
  { replace (voted key [] ∪ D) with D by (unfold voted; simpl; set_solver).
    by destruct (MajorityTwoThird _ _). }
  apply Forall_cons in Hbts as [Hbt Hbts]. rewrite certificates_cons. case_decide as Hk.
  - destruct (cast_book D bt m Hk (Hbt Hk) Hb) as [Hb' Hc]. specialize (IH _ _ Hb' Hbts).
    replace (voted key (bt :: bts) ∪ D) with (voted key bts ∪ ({[b_index bt]} ∪ D))
      by (unfold voted; rewrite filter_cons, decide_True by done; csimpl; set_solver).
    assert (size D <= size ({[b_index bt]} ∪ D))%nat by (apply subseteq_size; set_solver).
    assert (size ({[b_index bt]} ∪ D) <= size (voted key bts ∪ ({[b_index bt]} ∪ D)))%nat
      by (apply subseteq_size; set_solver).
    destruct (MajorityTwoThird (Z.of_nat (size D)) n) eqn:E1.
    { rewrite (Majority_mono _ (Z.of_nat (size ({[b_index bt]} ∪ D))) _ E1 ltac:(lia)) in IH.
      by rewrite Hc, IH. }
    destruct (MajorityTwoThird (Z.of_nat (size ({[b_index bt]} ∪ D))) n) eqn:E2.
    { destruct Hc as (qc & -> & Hv). rewrite (Majority_mono _ (Z.of_nat (size (voted key bts ∪ ({[b_index bt]} ∪ D)))) _ E2 ltac:(lia)), IH. simpl. eauto. }
    by rewrite Hc.
  - destruct (cast_other bt m key Hk) as (Hv & Hs & Hc).
    replace (voted key (bt :: bts)) with (voted key bts)
      by (unfold voted; by rewrite filter_cons, decide_False).
    apply IH; [|done]. destruct Hb as (Hsz & HD & Hb). split_and!; [congruence|done|].
    destruct (MajorityTwoThird _ _); [by apply Hs|]. rewrite Hv, Hs. done.
Qed.
End Poll.

(** C7: the leader makes exactly one certificate of a proposal, and it holds.
    Whatever sequence of votes is entered, on any proposals and in any order, if
    those on block [b] in [round] are valid votes of members, then one certificate
    of that proposal comes out when the members that voted are two thirds, none
    when they are fewer, never a second one, and the certificate verifies. *)
Theorem one_valid_certificate `{BlockCrypto} `{BlsSystem} range committee b round bts :
  let key := (round, Block.ID b) in
  let n := Z.of_nat (length committee) in
  (forall vm, range vm ≡ₚ map_to_list vm) -> bls_complete -> n < 2 ^ 32 ->
  Forall (fun bt => b_key bt = key -> honest committee b bt) bts ->
  if MajorityTwoThird (Z.of_nat (size (voted key bts))) n
  then exists qc, certificates range key bts (NewQCVoteManager n) = [qc] /\
    VerifyQC b qc committee = Ret (inr true)
  else certificates range key bts (NewQCVoteManager n) = [].
Proof.
  intros key n Hr Hb Hn Hbts.
  pose proof (poll_book range committee b round Hr Hb Hn bts ∅ (NewQCVoteManager n)) as Hp.
  rewrite (right_id_L ∅ (∪)) in Hp. rewrite size_empty in Hp.
  fold n key in Hp. destruct (MajorityTwoThird (Z.of_nat 0) n) eqn:E0.
  { apply MajorityTwoThird_spec in E0. lia. }
  apply Hp; [|done]. split_and!; [done|set_solver|]. rewrite size_empty. fold n. rewrite E0.
  split_and!; [set_solver|done|apply map_Forall_empty].
Qed.

(** ** Votes that were not signed *)

Section Spoil.
Context `{BlockCrypto} `{BlsSystem}.
Variable range : gmap Z vote -> list (Z * vote).
Implicit Types (m : QCVoteManager).

(** A certificate comes with the seal of its key and is the tally of the book. *)
Lemma cast_certificate bt m m' qc :
  cast range bt m = (m', Some qc) ->
  b_key bt ∈ sealed m' /\ committeeSize m' = committeeSize m /\
  QuorumCert.VoterBitArrayStr qc
    = BitArray.String_ (tally (committeeSize m) (range (votes_of m' (b_key bt)))).1.2.
Proof.
  destruct bt as [i e [r id] sg h]. unfold cast, AddVote. cbn [b_index b_epoch b_key b_sig b_hash fst snd].
  case_bool_decide; [done|]. destruct (_ =? 0)%nat; [done|]. destruct (SigFromBytes sg) as [|s]; [done|].
  destruct (MajorityTwoThird _ _); [|done].
  set (m1 := put_vote (r, id) i _ _). unfold Aggregate.
  destruct (tally _ _) as [[sigs bits] hash] eqn:Et. destruct (bls_Aggregate _); [done|].
  intros [= <- <-]. split_and!; [simpl; set_solver|done|].
  change (committeeSize (seal_key (r, id) (seal_key (r, id) m1))) with (committeeSize m) in Et.
  change (votes_of (seal_key (r, id) (seal_key (r, id) m1)) (r, id)) with (votes_of m1 (r, id)) in *.
  by rewrite Et.
Qed.

Lemma cast_sealed bt m : b_key bt ∈ sealed m -> (cast range bt m).2 = None /\ sealed (cast range bt m).1 = sealed m.
Proof.
  intros Hs. destruct bt as [i e [r id] sg h]. unfold cast, AddVote. simpl in *.
  by rewrite bool_decide_eq_true_2.
Qed.

Lemma sealed_silent key bts m : key ∈ sealed m -> certificates range key bts m = [].
Proof.
  revert m. induction bts as [|bt bts IH]; intros m Hs; [done|].
  unfold certificates. cbn [poll]. pose proof (cast_other range bt m key) as Ho.
  destruct (decide (b_key bt = key)) as [E|E].
  - rewrite <- E in Hs. destruct (cast_sealed bt m Hs) as [Hn Hk].
    destruct (cast range bt m) as [m' qc]. simpl in Hn, Hk. subst qc. apply IH. by rewrite Hk, <- E.
  - destruct (Ho E) as (_ & Hk & _). destruct (cast range bt m) as [m' [qc|]]; simpl in Hk.
    + rewrite filter_cons_False by done. apply IH. by apply Hk.
    + apply IH. by apply Hk.
Qed.
End Spoil.

(** C32: one vote that its member did not sign spoils the proposal.  [AddVote]
    does not check the signature it stores: when the votes with that one among
    them reach the majority, the certificate does not verify, and the proposal
    is sealed, so no votes that follow make another certificate of it. *)
Theorem unsigned_vote_spoils `{BlockCrypto} `{BlsSystem} range signed committee b bt m m' qc i key :
  (forall vm, range vm ≡ₚ map_to_list vm) -> bls_sound signed ->
  1 < Block.Number b -> 0 < Z.of_nat (length committee) < 2 ^ 32 ->
  committeeSize m = Z.of_nat (length committee) ->
  (b_key bt).2 = Block.ID b -> cast range bt m = (m', Some qc) ->
  map_Forall (fun j _ => 0 <= j) (votes_of m' (b_key bt)) ->
  Z.of_nat i ∈ dom (votes_of m' (b_key bt)) ->
  committee !! i = Some key -> ~ signed key (Block.VotingHash b) ->
  VerifyQC b qc committee <> Ret (inr true) /\
  forall bts, certificates range (b_key bt) bts m' = [].
Proof.
  intros Hr Hs Hb Hn Hsz Hid Hc Hpos Hi Hk Hns.
  destruct (cast_certificate range bt m m' qc Hc) as (Hseal & _ & Hstr).
  split; [|intros bts; by apply sealed_silent]. intros Hv.
  destruct (VerifyQC_inv signed b qc committee Hs Hb Hv ltac:(lia)) as (a' & Ha' & _ & Hf).
  set (vs := range (votes_of m' (b_key bt))) in *. rewrite Hsz in Hstr.
  assert (vs ≡ₚ map_to_list (votes_of m' (b_key bt))) as Hvs by apply Hr.
  destruct (tally_spec (Z.of_nat (length committee)) vs Hn) as (a & H1' & _ & HB & _ & Hg).
  { apply Forall_forall. intros [j v] Hj. rewrite Hvs in Hj. apply elem_of_map_to_list in Hj. by eapply (Hpos j v). }
  rewrite H1' in Hstr. destruct (read_back a qc) as (a2 & Ha2 & _ & _ & Hg2); [lia|done|].
  rewrite Ha' in Ha2. injection Ha2 as <-. apply Hns. rewrite Forall_forall in Hf. apply Hf.
  pose proof (lookup_lt_Some _ _ _ Hk). eapply elem_of_voters; [done|].
  apply list_elem_of_filter. split; [|apply elem_of_seq; lia]. simpl. rewrite Hg2, Hg by lia.
  apply bool_decide_eq_true. apply elem_of_dom in Hi as [v Hi].
  apply list_elem_of_fmap. exists (Z.of_nat i, v). split; [done|]. rewrite Hvs. by apply elem_of_map_to_list.
Qed.

(** ** Timeouts *)

(** A timeout certificate made of valid votes verifies for the round they are
    about. *)
Lemma timeout_certificate_verifies `{BlsSystem} `{TimeoutHash} range committee
    epoch round index raw sig key (m : TCVoteManager) :
  let n := Z.of_nat (length committee) in
  let hash := BuildTimeoutVotingHash epoch round in
  let vm := <[index := mk_vote raw hash sig]> (votes_of m (epoch, round)) in
  (forall vm, range vm ≡ₚ map_to_list vm) -> bls_complete -> n < 2 ^ 32 -> committeeSize m = n ->
  (epoch, round) ∉ sealed m ->
  map_Forall (fun i v => good_vote committee hash (i, v)) (votes_of m (epoch, round)) ->
  0 <= index -> committee !! Z.to_nat index = Some key -> SigFromBytes raw = inr sig ->
  signature_valid key sig hash ->
  if MajorityTwoThird (Z.of_nat (size vm)) n
  then exists tc, (TC_AddVote range index epoch round raw hash m).2 = Some tc /\
    verifyTC epoch n committee (Some tc) round = Ret true
  else (TC_AddVote range index epoch round raw hash m).2 = None.
Proof.
  intros n hash vm Hr Hbls Hn Hsz Hns Hgood Hi Hk Hsig Hval.
  unfold TC_AddVote. set (m0 := open_key (epoch, round) m). rewrite bool_decide_eq_false_2 by done. rewrite Hsig.
  set (m1 := put_vote (epoch, round) index _ m0).
  assert (votes_of m1 (epoch, round) = vm) as Hv1.
  { unfold m1. rewrite votes_of_put, decide_True by done. unfold m0. by rewrite votes_of_open. }
  assert (map_Forall (fun i v => good_vote committee hash (i, v)) vm) as Hg1.
  { apply map_Forall_insert_2; [|done]. split; [done|]. simpl. eauto. }
  set (vs := range vm). assert (vs ≡ₚ map_to_list vm) as Hvs by apply Hr.
  assert (length vs = size vm) as Hlen by (by rewrite Hvs, length_map_to_list).
  destruct (good_tally committee hash vs Hbls Hn) as (sigs & a & agg & Ht & Hagg & Hdec & HB & HC & Hver).
  { intros E. rewrite E in Hlen. symmetry in Hlen. apply map_size_empty_iff in Hlen.
    by apply insert_non_empty in Hlen. }
  { rewrite Hvs. apply NoDup_fst_map_to_list. }
  { apply Forall_forall. intros [j v] Hin. rewrite Hvs in Hin. apply elem_of_map_to_list in Hin. by apply Hg1. }
  assert (Z.of_nat (size vm) <= n) as Hle.
  { rewrite <- Hlen, <- HC. pose proof (Count_quorum a (length committee) ltac:(lia)).
    pose proof (length_filter (fun k => BitArray.GetIndex (Some a) (Z.of_nat k) = true) (seq 0 (length committee))).
    unfold quorum in *. rewrite length_seq in *. lia. }
  assert (voteCount m1 (epoch, round) = Z.of_nat (size vm)) as ->
    by (unfold voteCount; rewrite Hv1; apply Z.mod_small; lia).
  change (committeeSize m1) with (committeeSize m). rewrite Hsz.
  destruct (MajorityTwoThird _ _) eqn:Em; [|done]. unfold TC_Aggregate.
  change (votes_of (seal_key (epoch, round) (seal_key (epoch, round) m1)) (epoch, round)) with (votes_of m1 (epoch, round)).
  change (committeeSize (seal_key (epoch, round) (seal_key (epoch, round) m1))) with (committeeSize m).
  rewrite Hv1, Hsz. fold vs. unfold n. rewrite Ht, Hagg. eexists. split; [done|].
  unfold verifyTC. simpl. rewrite !Z.eqb_refl. simpl.
  rewrite HC, Hlen. unfold u32. rewrite Z.mod_small by lia. fold n. rewrite Em, Hdec. simpl.
  by rewrite (Hver a).
Qed.

(** A certificate that names no voters makes its verification panic. *)
Lemma timeout_without_array_panics `{BlsSystem} `{TimeoutHash} epoch round size committee sig :
  verifyTC epoch size committee
    (Some (TimeoutCert.mk epoch round None (BuildTimeoutVotingHash epoch round) sig)) round = Panic.
Proof. unfold verifyTC. simpl. by rewrite !Z.eqb_refl. Qed.

(** ** A concrete committee *)

(** The signature of a member is its character, an aggregate is the
    concatenation; member 4 never signs. *)
#[local] Existing Instance SampleQC.block_crypto.

Module SampleVotes.
Definition letter (k : Z) : Ascii.ascii := Ascii.ascii_of_N (Z.to_N k).
Definition letters (s : string) : list Ascii.ascii := String.list_ascii_of_string s.
#[export] Instance bls : BlsSystem := {|
  BlsPubKey := list Z;
  BlsSig := string;
  SigFromBytes := inr;
  SigToBytes := fun s => s;
  bls_Aggregate := fun sigs => inr (String.concat "" sigs);
  bls_AggregatePubkeys := fun keys => inr (concat keys);
  bls_Verify := fun sig _ key =>
    bool_decide (letters sig ≡ₚ letter <$> key) && forallb (fun k => bool_decide (k ∈ [1; 2; 3])) key
|}.
Definition signed (key : list Z) (_ : Bytes32) : Prop := forall k, k ∈ key -> k ∈ [1; 2; 3].

Lemma Verify_spec sig hash key :
  bls_Verify sig hash key = true <-> letters sig ≡ₚ letter <$> key /\ signed key hash.
Proof.
  simpl. rewrite andb_true_iff, bool_decide_eq_true, forallb_forall. apply and_iff_compat_l.
  unfold signed. split; intros Hk k Hin.
  - apply list_elem_of_In in Hin. exact (proj1 (bool_decide_eq_true _) (Hk k Hin)).
  - apply bool_decide_eq_true. apply Hk. by apply list_elem_of_In.
Qed.

Lemma votes_sound : @bls_sound bls signed.
Proof.
  intros keys key sig hash [=<-] Hv. apply Verify_spec in Hv as [_ Hv]. apply Forall_forall.
  intros k Hk x Hx. apply Hv. apply list_elem_of_In, in_concat. exists k. by split; apply list_elem_of_In.
Qed.

Lemma letters_concat sigs : letters (String.concat "" sigs) = concat (letters <$> sigs).
Proof.
  induction sigs as [|s [|s' sigs] IH]; [done|simpl; by rewrite app_nil_r|].
  change (String.concat "" (s :: s' :: sigs)) with (s +:+ "" +:+ String.concat "" (s' :: sigs)).
  unfold letters in *. rewrite !BitArrayText.list_ascii_app, IH. done.
Qed.

Lemma votes_complete : @bls_complete bls.
Proof.
  intros signers keys hash _ Hs Hk. eexists _, _. split_and!; [done..|]. apply Verify_spec. split.
  - rewrite letters_concat. rewrite Hk. clear Hk.
    induction Hs as [|[pk sig] signers (k & [= <-] & Hv) _ IH]; [done|].
    apply Verify_spec in Hv as [Hv _]. simpl in Hv. rewrite app_nil_r in Hv. csimpl.
    rewrite fmap_app, IH. by apply Permutation_app_tail.
  - intros k Hin. apply list_elem_of_In, in_concat in Hin as (pk & Hpk & Hin).
    apply list_elem_of_In in Hpk, Hin. rewrite Hk in Hpk. apply list_elem_of_fmap in Hpk as ([pk' sig] & -> & Hp).
    rewrite Forall_forall in Hs. destruct (Hs _ Hp) as (k' & [= <-] & Hv).
    apply Verify_spec in Hv as [_ Hv]. apply Hv. simpl. rewrite app_nil_r. done.
Qed.

Definition block : Block.t := SampleQC.block 1.
Definition committee : list (list Z) := [[1]; [2]; [3]; [4]].
Definition vote_of (i : Z) (sig : string) : ballot :=
  mk_ballot i 0 (7, Block.ID block) sig (Block.VotingHash block).
Definition sig_of (k : Z) : string := String (letter k) "".
End SampleVotes.
Import SampleVotes.

Lemma one_valid_certificate_witness :
  let other := mk_ballot 9 0 (8, 5) "?" 0 in
  let bts := [vote_of 0 (sig_of 1); other; vote_of 0 (sig_of 1); vote_of 2 (sig_of 3);
              vote_of 1 (sig_of 2); vote_of 1 (sig_of 2)] in
  exists qc, certificates map_to_list (7, Block.ID block) bts (NewQCVoteManager 4) = [qc] /\
    VerifyQC block qc committee = Ret (inr true).
Proof.
  intros other bts.
  apply (@one_valid_certificate SampleQC.block_crypto SampleVotes.bls map_to_list committee block 7 bts); [done|apply votes_complete|done|].
  repeat (apply Forall_cons; split); [..|by apply Forall_nil].
  all: try (intros Hk; vm_compute in Hk; discriminate).
  all: intros _; split_and!; [done..|]; eexists _, _; split_and!; [reflexivity..|]; eexists; split; [reflexivity|].
  all: vm_compute; reflexivity.
Defined.

Definition spoiled : QCVoteManager :=
  (cast map_to_list (vote_of 3 "?") (cast map_to_list (vote_of 0 (sig_of 1)) (NewQCVoteManager 4)).1).1.
Lemma unsigned_vote_spoils_witness :
  exists m qc, cast map_to_list (vote_of 1 (sig_of 2)) spoiled = (m, Some qc) /\
    VerifyQC block qc committee <> Ret (inr true) /\
    forall bts, certificates map_to_list (7, Block.ID block) bts m = [].
Proof.
  destruct (cast map_to_list (vote_of 1 (sig_of 2)) spoiled) as [m [qc|]] eqn:E.
  2: { exfalso. apply (f_equal snd) in E. vm_compute in E. discriminate. }
  exists m, qc. split; [done|].
  assert (m = (cast map_to_list (vote_of 1 (sig_of 2)) spoiled).1) as Hm by (by rewrite E).
  refine (@unsigned_vote_spoils SampleQC.block_crypto SampleVotes.bls map_to_list signed committee block (vote_of 1 (sig_of 2)) spoiled m qc 3 [4]
    _ votes_sound eq_refl (conj eq_refl eq_refl) eq_refl eq_refl E _ _ eq_refl _); [done|..]; subst m.
  - apply (bool_decide_unpack _). vm_compute. reflexivity.
  - apply (bool_decide_unpack _). vm_compute. reflexivity.
  - intros Hs. specialize (Hs 4 ltac:(by left)). apply (bool_decide_pack _) in Hs. vm_compute in Hs. done.
Defined.
