(* ===== verification/TransactionTheorems.v ===== *)
(** * Theorems on transactions

    The exact intrinsic gas of a list of clauses, the range of the gas prices,
    and the inputs on which reading a transaction panics. *)

From S2P Require Import Prelude ChainParam VMConfig Transaction.
Import Transaction.
Implicit Types (t : Transaction.t).

(** ** Intrinsic gas *)

Definition nonzero_cost (isEIP2028 : bool) : Z := if isEIP2028 then 16 else 68.
Definition byte_cost (isEIP2028 : bool) (c : Ascii.ascii) : Z :=
  if decide (c = Ascii.zero) then 4 else nonzero_cost isEIP2028.
Definition data_cost (isEIP2028 : bool) (data : string) : Z :=
  sum_of (byte_cost isEIP2028) (String.list_ascii_of_string data).
Definition clause_cost (isEIP2028 : bool) (c : Clause.t) : Z :=
  data_cost isEIP2028 (Clause.Data c) + (if Clause.IsCreatingContract c then 48000 else 16000).
Definition intrinsic_cost (isEIP2028 : bool) (clauses : list Clause.t) : Z :=
  5000 + sum_of (clause_cost isEIP2028) clauses.

Section Gas.
Context (e : bool).

Lemma byte_cost_pos c : 4 <= byte_cost e c.
Proof. unfold byte_cost, nonzero_cost. case_decide; [lia|]. destruct e; lia. Qed.

Lemma data_cost_length d : 4 * Z.of_nat (String.length d) <= data_cost e d.
Proof.
  induction d as [|c d IH]; [done|].
  unfold data_cost in *. cbn [String.length String.list_ascii_of_string]. rewrite sum_of_cons.
  pose proof (byte_cost_pos c). lia.
Qed.

Lemma clause_cost_nonneg c : 0 <= clause_cost e c.
Proof.
  unfold clause_cost. pose proof (data_cost_length (Clause.Data c)).
  destruct (Clause.IsCreatingContract c); lia.
Qed.

Lemma byte_cost_count (l : list Ascii.ascii) :
  4 * Z.of_nat (length (filter (fun c => c = Ascii.zero) l))
  + nonzero_cost e * Z.of_nat (length (filter (fun c => c <> Ascii.zero) l))
  = sum_of (byte_cost e) l.
Proof.
  induction l as [|c l IH]; [simpl; lia|].
  rewrite !filter_cons, sum_of_cons. unfold byte_cost at 1.
  case_decide; case_decide; try (exfalso; tauto); cbn [length]; lia.
Qed.

Lemma u64_id x : 0 <= x <= MaxUint64 -> u64 x = x.
Proof. unfold u64, MaxUint64. intros. apply Z.mod_small. lia. Qed.

Lemma dataGas_spec d :
  dataGas d e = if data_cost e d <=? MaxUint64 then inr (data_cost e d)
                else inl errIntrinsicGasOverflow.
Proof.
  unfold dataGas, SafeMul, SafeAdd. destruct (Nat.eqb_spec (String.length d) 0) as [E|_].
  { destruct d; [|done]. done. }
  fold (nonzero_cost e). unfold TxDataZeroGas, TxDataNonZeroGasEIP2028, TxDataNonZeroGas.
  pose proof (byte_cost_count (String.list_ascii_of_string d)) as Hc.
  fold (data_cost e d) in Hc. unfold nonzero_cost in *.
  set (z := Z.of_nat (length (filter (fun c => c = Ascii.zero) _))) in *.
  set (nz := Z.of_nat (length (filter (fun c => c <> Ascii.zero) _))) in *.
  assert (0 <= z /\ 0 <= nz) as [Hz Hnz] by (subst z nz; lia).
  set (k := if e then 16 else 68) in *. assert (16 <= k) by (subst k; destruct e; lia).
  destruct (Z.ltb_spec MaxUint64 (4 * z)).
  { destruct (Z.leb_spec (data_cost e d) MaxUint64); [nia|done]. }
  destruct (Z.ltb_spec MaxUint64 (k * nz)).
  { destruct (Z.leb_spec (data_cost e d) MaxUint64); [nia|done]. }
  rewrite !(u64_id (_ * _)) by nia. rewrite Hc.
  destruct (Z.ltb_spec MaxUint64 (data_cost e d)), (Z.leb_spec (data_cost e d) MaxUint64);
    try lia; [done|]. by rewrite u64_id by nia.
Qed.

(** One round never wraps: it adds the exact cost or fails. *)
Lemma clause_gas_sound e3860 total c g :
  0 <= total -> clause_gas e e3860 total c = inr g ->
  g = total + clause_cost e c /\ g <= MaxUint64.
Proof.
  intros Ht. unfold clause_gas. rewrite dataGas_spec.
  pose proof (data_cost_length (Clause.Data c)).
  destruct (Z.leb_spec (data_cost e (Clause.Data c)) MaxUint64); [|discriminate].
  unfold SafeAdd. destruct (Z.ltb_spec MaxUint64 (total + data_cost e (Clause.Data c)));
    [discriminate|]. rewrite (u64_id (total + _)) by lia.
  unfold clause_cost, ClauseGasContractCreation, ClauseGas, BaseTxGas, TxGas.
  set (cgas := if Clause.IsCreatingContract c then 53000 - 5000 else 21000 - 5000).
  assert (cgas = if Clause.IsCreatingContract c then 48000 else 16000) as Hcg
    by (subst cgas; by destruct Clause.IsCreatingContract).
  rewrite <- Hcg. assert (0 <= cgas) by (rewrite Hcg; destruct Clause.IsCreatingContract; lia).
  destruct (Z.ltb_spec MaxUint64 (total + data_cost e (Clause.Data c) + cgas)); [discriminate|].
  rewrite u64_id by lia.
  destruct (Clause.IsCreatingContract c && e3860);
    [destruct (_ <? _); [discriminate|]|]; intros [=<-]; lia.
Qed.

Lemma clause_gas_complete e3860 total c :
  0 <= total -> total + clause_cost e c <= 2 ^ 63 ->
  clause_gas e e3860 total c = inr (total + clause_cost e c).
Proof.
  intros Ht Hle. unfold clause_gas. rewrite dataGas_spec.
  pose proof (data_cost_length (Clause.Data c)) as Hl.
  unfold clause_cost in *. unfold SafeAdd, ClauseGasContractCreation, ClauseGas, BaseTxGas, TxGas.
  set (d := data_cost e (Clause.Data c)) in *.
  assert (d <= 2 ^ 63 /\ 2 ^ 63 + 31 < MaxUint64) as [Hd HM]
    by (split; [destruct (Clause.IsCreatingContract c); lia|unfold MaxUint64; lia]).
  destruct (Z.leb_spec d MaxUint64); [|lia].
  destruct (Z.ltb_spec MaxUint64 (total + d)); [destruct (Clause.IsCreatingContract c); lia|].
  rewrite (u64_id (total + d)) by lia.
  destruct (Clause.IsCreatingContract c); cbn [andb];
    match goal with |- context [MaxUint64 <? ?x] => destruct (Z.ltb_spec MaxUint64 x); [lia|] end;
    rewrite u64_id by lia; [|f_equal; lia].
  destruct e3860; [|f_equal; lia].
  set (n := Z.of_nat (String.length (Clause.Data c))) in *.
  assert (((MaxUint64 - d) / InitCodeWordGas <? toWordSize n) = false) as ->.
  { unfold toWordSize, InitCodeWordGas. assert (0 <= n) by (subst n; lia).
    destruct (Z.ltb_spec (MaxUint64 - 31) n); [lia|].
    rewrite u64_id by lia. apply Z.ltb_ge. unfold MaxUint64 in *.
    assert (2 ^ 62 - 1 <= (2 ^ 64 - 1 - d) / 2) by (apply Z.div_le_lower_bound; lia).
    apply Z.div_le_upper_bound; lia. }
  f_equal; lia.
Qed.

Lemma gas_loop_sound e3860 cs total g :
  0 <= total <= MaxUint64 -> gas_loop e e3860 total cs = inr g ->
  g = total + sum_of (clause_cost e) cs /\ g <= MaxUint64.
Proof.
  revert total. induction cs as [|c cs IH]; simpl; intros total Ht.
  - intros [=<-]. lia.
  - destruct (clause_gas e e3860 total c) as [|g1] eqn:E; [discriminate|]. intros Hg.
    pose proof (clause_cost_nonneg c).
    apply clause_gas_sound in E as [-> Hle]; [|lia].
    apply IH in Hg as [-> Hle2]; lia.
Qed.

Lemma gas_loop_complete e3860 cs total :
  0 <= total -> total + sum_of (clause_cost e) cs <= 2 ^ 63 ->
  gas_loop e e3860 total cs = inr (total + sum_of (clause_cost e) cs).
Proof.
  revert total. induction cs as [|c cs IH]; simpl; intros total Ht Hle; [by rewrite Z.add_0_r|].
  pose proof (clause_cost_nonneg c).
  pose proof (sum_of_nonneg (clause_cost e) cs (fun a _ => clause_cost_nonneg a)).
  rewrite clause_gas_complete by lia. rewrite IH by lia. f_equal; lia.
Qed.
End Gas.

(** The intrinsic gas of a list of clauses is, whenever it is returned, the
    exact sum of 5000, of the bytes of the data and of 16000 or 48000 per
    clause, without wrapping; it is returned for every cost up to [2 ^ 63].  The
    word gas of init code (EIP-3860) is not part of it at any fork. *)
Theorem intrinsic_gas_exact e2028 e3860 clauses :
  clauses <> [] ->
  (forall g, IntrinsicGas e2028 e3860 clauses = inr g ->
    g = intrinsic_cost e2028 clauses /\ g <= MaxUint64) /\
  (intrinsic_cost e2028 clauses <= 2 ^ 63 ->
    IntrinsicGas e2028 e3860 clauses = inr (intrinsic_cost e2028 clauses)).
Proof.
  intros Hne. unfold IntrinsicGas. destruct clauses as [|c cs]; [done|]. cbn [length Nat.eqb].
  split.
  - intros g Hg. by apply gas_loop_sound in Hg.
  - intros Hle. by apply gas_loop_complete.
Qed.

Lemma intrinsic_gas_exact_witness :
  let creation := Clause.WithData "init code" (Clause.NewClause None) in
  IntrinsicGas true true [creation] = inr (5000 + (9 * 16 + 48000)).
Proof.
  intros creation.
  apply (proj2 (intrinsic_gas_exact true true [creation] ltac:(discriminate))). vm_compute. discriminate.
Defined.

(** ** Gas prices *)

Lemma GasPrice_range t base :
  0 <= GasPriceCoef t <= 255 -> 0 <= base -> base <= GasPrice t base <= 2 * base.
Proof.
  intros Hc Hb. unfold GasPrice.
  pose proof (Z.div_pos (GasPriceCoef t * base) 255 ltac:(nia) ltac:(lia)).
  pose proof (Z.div_le_upper_bound (GasPriceCoef t * base) 255 base ltac:(lia) ltac:(nia)). lia.
Qed.

(** Proved work adds at most the base price. *)
Lemma OverallGasPrice_range `{BlockChain} `{TxCrypto} `{EthTypes} getID t base head p :
  0 <= base -> 0 <= Gas t -> OverallGasPrice getID t base head = Ret p ->
  (forall w n, ProvedWork getID t n = Ret w -> 0 <= w) ->
  GasPrice t base <= p <= GasPrice t base + base.
Proof.
  intros Hb Hg. unfold OverallGasPrice.
  destruct (ProvedWork getID t head) as [w|] eqn:Ew; [|discriminate]. simpl.
  intros Hp Hw. specialize (Hw w head Ew). revert Hp.
  destruct (w =? 0); [intros [=<-]; lia|].
  assert (0 <= workToGas w (RefNumber t)) as Hwg.
  { unfold workToGas. case_match; [lia|]. cbv zeta. case_match; [unfold MaxUint64; lia|].
    assert (0 <= w / 1000) by (apply Z.div_pos; lia).
    case_match; [done|]. apply Z.div_pos; [|apply Z.pow_pos_nonneg; [lia|]].
    - apply Z.mul_nonneg_nonneg; [done|]. apply Z.pow_nonneg. lia.
    - repeat (apply Z.div_pos; [|lia]). unfold u64. apply Z.mod_pos_bound. lia. }
  destruct (workToGas w (RefNumber t) =? 0); [intros [=<-]; lia|].
  set (wg := if Gas t <? _ then _ else _). assert (0 <= wg <= Gas t) by (subst wg; case_match; lia).
  unfold big_div. destruct (Z.eqb_spec (Gas t) 0); [discriminate|].
  destruct (Z.ltb_spec (Gas t) 0); [lia|]. simpl. intros [=<-].
  pose proof (Z.div_pos (wg * base) (Gas t) ltac:(nia) ltac:(lia)).
  pose proof (Z.div_le_upper_bound (wg * base) (Gas t) base ltac:(lia) ltac:(nia)). lia.
Qed.

(** ** Reading the reserved fields *)

(** Three reserved fields are read as bytes, the third to its first byte. *)
Definition readable t : Prop :=
  match Reserved t with
  | [RBytes _; _; RBytes (String _ _)] => True
  | [_; _; _] => False
  | _ => True
  end.

Lemma IsEthTx_readable t : returns (IsEthTx t) = true <-> readable t.
Proof.
  unfold IsEthTx, readable.
  destruct (Reserved t) as [|[p|l0] [|r1 [|[[|c raw]|l2] [|r3 rest]]]]; simpl; by split.
Qed.

(** C37: a transaction with three reserved fields of which the first or the
    third is a list, or the third is empty, cannot be read: asking whether it
    is an Ethereum transaction, its identifier, its validation, and its signer
    when it carries a signature all panic.  Every other one is classified. *)
Theorem reserved_fields_panic `{BlockChain} `{TxCrypto} `{EthTypes} t :
  (readable t -> exists b, IsEthTx t = Ret b) /\
  (~ readable t -> IsEthTx t = Panic /\ ID t = Panic /\ EthTxValidate t = Panic /\
    (Signature t <> "" -> Signer t = Panic)).
Proof.
  rewrite <- IsEthTx_readable. unfold ID, EthTxValidate, Signer.
  destruct (IsEthTx t) as [b|]; simpl; split; try done; eauto.
  intros _. split_and!; try done. intros Hs. destruct (Nat.eqb_spec (String.length (Signature t)) 0); [|done].
  by destruct (Signature t).
Qed.

(** Concrete hashes and signatures: the signer is the length of the signature. *)
Module SampleTx.
#[export] Instance crypto : TxCrypto := {|
  SigningHash := fun t => 1 + Nonce t;
  id_hash := fun h a => 1000 * h + a;
  work_hash := fun _ _ _ => 1;
  SigToPub := fun h s => Some (Z.of_nat (String.length s))
|}.
#[export] Instance eth : EthTypes := {|
  EthTx := unit;
  UnmarshalBinary := fun _ => None;
  MarshalBinary := fun _ => None;
  eth_Sender := fun _ => None;
  eth_ChainId := fun _ => 0;
  eth_To := fun _ => None;
  eth_Value := fun _ => 0;
  eth_Data := fun _ => "";
  eth_Gas := fun _ => 0;
  eth_Nonce := fun _ => 0;
  eth_Hash := fun _ => 0;
  RawSignatureValues := fun _ => (0, 0, 0)
|}.
Definition chain : BlockChain := ChainConfig.mk "main" true.
(** A signed transaction with an empty third reserved field. *)
Definition broken : Transaction.t :=
  Transaction.mk 1 0 100 [] 0 21000 None 7 [RBytes ""; RBytes ""; RBytes ""] "sig".
End SampleTx.

Lemma reserved_fields_panic_witness :
  @ID SampleTx.chain SampleTx.crypto SampleTx.eth SampleTx.broken = Panic.
Proof.
  apply (proj2 (@reserved_fields_panic SampleTx.chain SampleTx.crypto SampleTx.eth SampleTx.broken)).
  intros H. exact H.
Defined.

(** The origin blacklist is also applied when a block is validated. *)
Lemma blacklist_in_validation `{BlockChain} `{TxCrypto} `{EthTypes} t e a :
  IsEthTx t = Ret true -> GetEthTx t = Ret (inr e) -> eth_Sender e = Some a ->
  IsOriginBlacklisted a = true -> exists err, EthTxValidate t = Ret (Some err).
Proof.
  intros Ht He Ha Hb. unfold EthTxValidate. rewrite Ht. simpl. rewrite He. simpl.
  destruct (ChainIdValidate _); [by eauto|].
  unfold NewTransactionFromEthTx. rewrite Ha. simpl. rewrite Hb. simpl. eauto.
Qed.
