(* ===== verification/Ledger.v ===== *)
(** * Entries that tally the buckets of a group

    A candidate lists the buckets that vote for it and their total votes; a
    stakeholder lists the buckets it owns and their total value.  Both are
    entries of the same kind: every bucket belongs to a group, an entry of a
    group lists its buckets and tallies their weights.  [Ledger] is the
    interface the two share; the lemmas say how the entries follow the
    bucket list through every kind of change. *)

From S2P Require Import Prelude KeyedList ChainParam StakingTypes.

Class Ledger (E : Type) `{Keyed E} : Type := {
  members : E -> list Bytes32;
  tally : E -> Z;
  group : Bucket.t -> Address;
  weigh : Bucket.t -> Z;
  exempt : Address -> Prop
}.

(** No candidate has the zero address: it stands for no vote. *)
#[global] Instance candidate_ledger : Ledger Candidate.t := {
  members := Candidate.Buckets;
  tally := Candidate.TotalVotes;
  group := Bucket.Candidate;
  weigh := Bucket.TotalVotes;
  exempt := fun a => a = ZeroAddress
}.

#[global] Instance stakeholder_ledger : Ledger Stakeholder.t := {
  members := Stakeholder.Buckets;
  tally := Stakeholder.TotalStake;
  group := Bucket.Owner;
  weigh := Bucket.Value;
  exempt := fun _ => False
}.

Section Theory.
Context {E : Type} {HK : Keyed E} {HL : @Ledger E HK}.
Implicit Types (bl : BucketList.t) (el : list E) (b : Bucket.t) (e : E).

Definition share (k : Address) b : Z := if group b =? k then weigh b else 0.
Definition group_total (k : Address) bl : Z := sum_of (share k) bl.

Record entry_ok bl e : Prop := {
  eo_nodup : NoDup (members e);
  eo_members : forall id, id ∈ members e <-> exists b, Get bl id = Some b /\ group b = key e;
  eo_tally : tally e = group_total (key e) bl
}.

Record ledger_ok el bl : Prop := {
  lo_sorted : sorted el;
  lo_entry : forall k e, Get el k = Some e -> entry_ok bl e;
  lo_covered : forall id b, Get bl id = Some b -> exempt (group b) \/ is_Some (Get el (group b));
  lo_exempt : forall k, exempt k -> Get el k = None
}.

Lemma Get_key (el : list E) k e : sorted el -> Get el k = Some e -> key e = k.
Proof. intros Hs Hg. by apply Get_Some in Hg as [_ ?]. Qed.

Lemma share_same k b : group b = k -> share k b = weigh b.
Proof. unfold share. intros ->. by rewrite Z.eqb_refl. Qed.

Lemma share_other k b : group b <> k -> share k b = 0.
Proof. unfold share. by intros ?%Z.eqb_neq; case_match. Qed.

(** ** Changing the weight of a bucket inside its group *)

Section Reweigh.
Context (bl : BucketList.t) (el : list E) (id : Bytes32) (b b' : Bucket.t).
Context (Hbl : sorted bl) (Hok : ledger_ok el bl) (Hb : Get bl id = Some b).
Context (Hid : key b' = id) (Hgroup : group b' = group b).

Lemma reweigh_entry e e' :
  entry_ok bl e -> key e' = key e -> members e' = members e ->
  tally e' = tally e + (share (key e) b' - share (key e) b) ->
  entry_ok (Modify (fun _ => b') bl id) e'.
Proof using Hbl Hb Hid Hgroup.
  intros [Hn Hm Ht] Hk Hms Htl. split.
  - by rewrite Hms.
  - intros id'. rewrite Hms, Hk, Hm, Get_Modify by done.
    destruct (decide (id' = id)) as [->|]; [|done]. rewrite Hb. simpl.
    split; intros (? & [= <-] & ?); eexists; (split; [done|congruence]).
  - unfold group_total. rewrite Hk, (sum_of_Modify _ _ _ _ b) by done.
    rewrite Htl, Ht. unfold group_total. lia.
Qed.

Lemma ledger_reweigh (f : E -> E) :
  (forall e, key e = group b -> key (f e) = key e /\ members (f e) = members e /\
     tally (f e) = tally e + (weigh b' - weigh b)) ->
  ledger_ok (Modify f el (group b)) (Modify (fun _ => b') bl id).
Proof using Hbl Hok Hb Hid Hgroup.
  intros Hf. destruct Hok as [Hs He Hc Hx].
  assert (forall e, Get el (group b) = Some e -> key (f e) = group b) as Hkf.
  { intros e Hg. pose proof (Get_key _ _ _ Hs Hg) as Hk. by rewrite (proj1 (Hf e Hk)). }
  split.
  - by apply Modify_sorted.
  - intros k e. rewrite Get_Modify by done. destruct (decide (k = group b)) as [->|Hne].
    + intros (e0 & Hg & ->)%fmap_Some_1. pose proof (Get_key _ _ _ Hs Hg) as Hk.
      destruct (Hf e0 Hk) as (Hfk & Hfm & Hft). apply (reweigh_entry e0); eauto.
      by rewrite Hk, !share_same.
    + intros Hg. pose proof (Get_key _ _ _ Hs Hg) as Hk. apply (reweigh_entry e); eauto.
      rewrite Hk, !share_other by congruence. lia.
  - intros id' b1. rewrite !Get_Modify by done.
    destruct (decide (id' = id)) as [->|].
    + rewrite Hb. simpl. intros [= <-]. rewrite Hgroup. destruct (Hc id b Hb) as [?|He0]; [by left|].
      right. rewrite decide_True by done. by rewrite fmap_is_Some.
    + intros Hg. destruct (Hc id' b1 Hg) as [?|He0]; [by left|right].
      case_decide as Hd; [|done]. rewrite fmap_is_Some. by rewrite <- Hd.
  - intros k Hk. rewrite Get_Modify by done. case_decide as Hd; [subst k|by apply Hx].
    rewrite Hx; done.
Qed.

(** A change that touches neither group nor weight leaves the entries alone. *)
Lemma ledger_neutral :
  weigh b' = weigh b -> ledger_ok el (Modify (fun _ => b') bl id).
Proof using Hbl Hok Hb Hid Hgroup.
  intros Hw. destruct Hok as [Hs He Hc Hx].
  split; [done| |intros id' b1|done].
  - intros k e Hg. apply (reweigh_entry e); eauto.
    assert (share (key e) b' = share (key e) b) by (unfold share; by rewrite Hgroup, Hw). lia.
  - rewrite Get_Modify by done. destruct (decide (id' = id)) as [->|]; [|eauto].
    rewrite Hb. simpl. intros [= <-]. rewrite Hgroup. eauto.
Qed.
End Reweigh.

(** ** Adding a bucket *)

Section Enroll.
Context (bl : BucketList.t) (el : list E) (b : Bucket.t).
Context (Hbl : sorted bl) (Hok : ledger_ok el bl) (Hnew : Get bl (key b) = None).

Lemma fresh_not_member e : entry_ok bl e -> key b ∉ members e.
Proof using Hnew. intros [_ Hm _] (b0 & Hg & _)%Hm. congruence. Qed.

Lemma enroll_other e : entry_ok bl e -> group b <> key e -> entry_ok (Add bl b) e.
Proof using Hbl Hnew.
  clear Hok el.
  intros He Hg. pose proof (fresh_not_member e He) as Hni. destruct He as [Hn Hm Ht].
  split; [done| |].
  - intros id. rewrite Hm, Get_Add by done. destruct (decide (id = key b)) as [->|]; [|done].
    split; [intros (?&?&?); congruence|]. intros (?&[= <-]&?). congruence.
  - unfold group_total. rewrite sum_of_Add_new by done. rewrite share_other, Ht by done.
    unfold group_total. lia.
Qed.

Lemma enroll_entry e e' :
  entry_ok bl e -> key e' = key e -> group b = key e -> members e' = members e ++ [key b] ->
  tally e' = tally e + weigh b -> entry_ok (Add bl b) e'.
Proof using Hbl Hnew.
  clear Hok el.
  intros He Hk Hg Hms Htl. pose proof (fresh_not_member e He) as Hni.
  destruct He as [Hn Hm Ht]. split.
  - rewrite Hms. apply NoDup_app. split_and!; [done| |apply NoDup_singleton]. set_solver.
  - intros id. rewrite Hms, Hk, elem_of_app, list_elem_of_singleton, Hm, Get_Add by done.
    destruct (decide (id = key b)) as [->|]; naive_solver.
  - unfold group_total. rewrite Hk, sum_of_Add_new, share_same, Htl, Ht by done. done.
Qed.

Lemma ledger_enroll (f : E -> E) :
  is_Some (Get el (group b)) ->
  (forall e, key (f e) = key e /\ members (f e) = members e ++ [key b] /\
     tally (f e) = tally e + weigh b) ->
  ledger_ok (Modify f el (group b)) (Add bl b).
Proof using Hbl Hok Hnew.
  intros Hin Hf. destruct Hok as [Hs He Hc Hx].
  assert (forall e, Get el (group b) = Some e -> key (f e) = group b) as Hkf.
  { intros e Hg. rewrite (proj1 (Hf e)). by apply (Get_key el). }
  split.
  - by apply Modify_sorted.
  - intros k e. rewrite Get_Modify by done. destruct (decide (k = group b)) as [->|Hne].
    + intros (e0 & Hg & ->)%fmap_Some_1. destruct (Hf e0) as (? & ? & ?).
      apply (enroll_entry e0); eauto. symmetry. by apply (Get_key el).
    + intros Hg. apply enroll_other; [eauto|]. rewrite (Get_key _ _ _ Hs Hg). done.
  - intros id b1. rewrite Get_Add, Get_Modify by done.
    destruct (decide (id = key b)) as [->|].
    + intros [= <-]. right. rewrite decide_True by done. by rewrite fmap_is_Some.
    + intros Hg. destruct (Hc id b1 Hg) as [?|]; [by left|right].
      case_decide; [by rewrite fmap_is_Some|done].
  - intros k Hk. rewrite Get_Modify by done. case_decide as Hd; [subst k|by apply Hx].
    rewrite Hx; done.
Qed.

Lemma ledger_enroll_exempt : exempt (group b) -> ledger_ok el (Add bl b).
Proof using Hbl Hok Hnew.
  intros Hxb. destruct Hok as [Hs He Hc Hx]. split; [done| |intros id b1|done].
  - intros k e Hg. apply enroll_other; [eauto|]. rewrite (Get_key _ _ _ Hs Hg).
    intros <-. rewrite Hx in Hg; done.
  - rewrite Get_Add by done. destruct (decide (id = key b)) as [->|]; [|eauto].
    intros [= <-]. by left.
Qed.
(** Also for a group that has no entry because it is exempt. *)
Lemma ledger_enroll_covered (f : E -> E) :
  exempt (group b) \/ is_Some (Get el (group b)) ->
  (forall e, key (f e) = key e /\ members (f e) = members e ++ [key b] /\
     tally (f e) = tally e + weigh b) ->
  ledger_ok (Modify f el (group b)) (Add bl b).
Proof using Hbl Hok Hnew.
  intros [Hx|Hin] Hf; [|by apply ledger_enroll].
  rewrite Modify_None; [by apply ledger_enroll_exempt|apply Hok|by apply Hok].
Qed.

Lemma ledger_enroll_new e0 :
  Get el (group b) = None -> ~ exempt (group b) ->
  key e0 = group b -> members e0 = [key b] -> tally e0 = weigh b ->
  ledger_ok (Add el e0) (Add bl b).
Proof using Hbl Hok Hnew.
  intros Hno Hne Hk Hm Ht. destruct Hok as [Hs He Hc Hx].
  assert (forall id b1, Get bl id = Some b1 -> group b1 <> group b) as Hnone.
  { intros id b1 Hg Heq. destruct (Hc id b1 Hg) as [|[e1 ?]]; congruence. }
  split.
  - by apply Add_sorted.
  - intros k e. rewrite Get_Add, Hk by done. destruct (decide (k = group b)) as [->|Hneq].
    + intros [= <-]. split.
      * rewrite Hm. apply NoDup_singleton.
      * intros id. rewrite Hm, list_elem_of_singleton, Hk, Get_Add by done.
        destruct (decide (id = key b)) as [->|]; [naive_solver|].
        split; [done|]. intros (b1 & Hg & Heq). by destruct (Hnone id b1 Hg).
      * unfold group_total. rewrite Hk, sum_of_Add_new, share_same, Ht by done.
        rewrite sum_of_zero; [done|]. intros b1 Hin. apply share_other.
        apply (Hnone (key b1)). by apply Get_Some.
    + intros Hg. apply enroll_other; [eauto|]. rewrite (Get_key _ _ _ Hs Hg). done.
  - intros id b1. rewrite !Get_Add, Hk by done. destruct (decide (id = key b)) as [->|].
    + intros [= <-]. right. rewrite decide_True by done. eauto.
    + intros Hg. destruct (Hc id b1 Hg) as [?|]; [by left|right]. case_decide; eauto.
  - intros k Hkx. rewrite Get_Add, Hk by done.
    case_decide; [by subst|by apply Hx].
Qed.

End Enroll.

(** ** Removing a bucket *)

Section Expel.
Context (bl : BucketList.t) (el : list E) (id : Bytes32) (b : Bucket.t).
Context (Hbl : sorted bl) (Hok : ledger_ok el bl) (Hb : Get bl id = Some b).

Lemma expel_other e : entry_ok bl e -> group b <> key e -> entry_ok (Remove bl id) e.
Proof using Hbl Hb.
  clear Hok el.
  intros [Hn Hm Ht] Hg. split; [done| |].
  - intros id'. rewrite Hm, Get_Remove by done. destruct (decide (id' = id)) as [->|]; [|done].
    rewrite Hb. naive_solver.
  - unfold group_total. rewrite (sum_of_Remove _ _ _ b) by done.
    rewrite share_other, Ht by done. unfold group_total. lia.
Qed.

Lemma expel_entry e e' :
  entry_ok bl e -> key e' = key e -> group b = key e -> members e ≡ₚ id :: members e' ->
  tally e' = tally e - weigh b -> entry_ok (Remove bl id) e'.
Proof using Hbl Hb.
  clear Hok el.
  intros [Hn Hm Ht] Hk Hg Hms Htl. rewrite Hms in Hn. apply NoDup_cons in Hn as [Hni Hn].
  split; [done| |].
  - intros id'. rewrite Get_Remove, Hk by done.
    assert (id' ∈ members e <-> id' = id \/ id' ∈ members e') as Hsp
      by (rewrite Hms; apply elem_of_cons).
    rewrite Hm in Hsp. destruct (decide (id' = id)) as [->|]; naive_solver.
  - unfold group_total. rewrite Hk, (sum_of_Remove _ _ _ b), share_same by done.
    rewrite Htl, Ht. done.
Qed.

Lemma ledger_expel e e' :
  Get el (group b) = Some e -> key e' = key e -> members e ≡ₚ id :: members e' ->
  tally e' = tally e - weigh b ->
  ledger_ok (Modify (fun _ => e') el (group b)) (Remove bl id).
Proof using Hbl Hok Hb.
  intros Hge Hk Hms Htl. destruct Hok as [Hs He Hc Hx].
  pose proof (Get_key _ _ _ Hs Hge) as Hke.
  assert (forall e1, Get el (group b) = Some e1 -> key e' = group b) by (intros; congruence).
  split.
  - by apply Modify_sorted.
  - intros k e1. rewrite Get_Modify by done. destruct (decide (k = group b)) as [->|Hne].
    + rewrite Hge. simpl. intros [= <-]. apply (expel_entry e); eauto.
    + intros Hg. apply expel_other; [eauto|]. rewrite (Get_key _ _ _ Hs Hg). done.
  - intros id' b1. rewrite Get_Remove, Get_Modify by done.
    destruct (decide (id' = id)); [done|]. intros Hg.
    destruct (Hc id' b1 Hg) as [?|]; [by left|right].
    case_decide; [by rewrite Hge|done].
  - intros k Hk'. rewrite Get_Modify by done. case_decide as Hd; [subst k|by apply Hx].
    rewrite Hx; done.
Qed.

(** The last bucket takes its entry with it. *)
Lemma ledger_expel_last e :
  Get el (group b) = Some e -> members e ≡ₚ [id] ->
  ledger_ok (Remove el (group b)) (Remove bl id).
Proof using Hbl Hok Hb.
  intros Hge Hms. destruct Hok as [Hs He Hc Hx]. split.
  - by apply Remove_sorted.
  - intros k e1. rewrite Get_Remove by done. destruct (decide (k = group b)) as [->|Hne]; [done|].
    intros Hg. apply expel_other; [eauto|]. rewrite (Get_key _ _ _ Hs Hg). done.
  - intros id' b1. rewrite !Get_Remove by done. destruct (decide (id' = id)) as [->|Hne]; [done|].
    intros Hg. destruct (Hc id' b1 Hg) as [?|Hs1]; [by left|right].
    case_decide as Heq; [exfalso|done].
    assert (id' ∈ members e) as Hin.
    { apply (eo_members _ _ (He _ _ Hge)). exists b1. split; [done|].
      by rewrite (Get_key _ _ _ Hs Hge). }
    rewrite Hms in Hin. set_solver.
  - intros k Hk'. rewrite Get_Remove by done. case_decide; [done|by apply Hx].
Qed.

Lemma ledger_expel_exempt : exempt (group b) -> ledger_ok el (Remove bl id).
Proof using Hbl Hok Hb.
  intros Hxb. destruct Hok as [Hs He Hc Hx]. split; [done| |intros id' b1|done].
  - intros k e Hg. apply expel_other; [eauto|]. rewrite (Get_key _ _ _ Hs Hg).
    intros <-. rewrite Hx in Hg; done.
  - rewrite Get_Remove by done. destruct (decide (id' = id)); [done|eauto].
Qed.
End Expel.

(** An entry may change in what the ledger does not read. *)
Lemma ledger_relabel bl el k e e' :
  ledger_ok el bl -> Get el k = Some e ->
  key e' = key e -> members e' = members e -> tally e' = tally e ->
  ledger_ok (Modify (fun _ => e') el k) bl.
Proof.
  intros [Hs He Hc Hx] Hg Hk Hm Ht.
  assert (forall x, Get el k = Some x -> key e' = k) as Hke.
  { intros x _. rewrite Hk. by eapply Get_key. }
  split.
  - by apply Modify_sorted.
  - intros k' e1. rewrite Get_Modify by done. case_decide; [|apply He].
    rewrite Hg. simpl. intros [= <-]. destruct (He _ _ Hg) as [Hn Hms Htl].
    split; rewrite ?Hm, ?Ht, ?Hk; done.
  - intros id b Hb. rewrite Get_Modify by done. destruct (Hc id b Hb) as [?|Hin]; [by left|right].
    case_decide; [by rewrite Hg|done].
  - intros k' Hk'. rewrite Get_Modify by done. case_decide; [|by apply Hx].
    subst k'. rewrite Hx in Hg; done.
Qed.

(** An entry without buckets can go. *)
Lemma ledger_drop_empty bl el k e :
  ledger_ok el bl -> Get el k = Some e -> members e = [] -> ledger_ok (Remove el k) bl.
Proof.
  intros [Hs He Hc Hx] Hg Hm. split.
  - by apply Remove_sorted.
  - intros k' e'. rewrite Get_Remove by done. case_decide; [done|apply He].
  - intros id b Hb. rewrite Get_Remove by done. destruct (Hc id b Hb) as [?|Hin]; [by left|right].
    case_decide as Hk; [exfalso|done]. assert (id ∈ members e) as Hid; [|rewrite Hm in Hid; set_solver].
    apply (eo_members _ _ (He _ _ Hg)). exists b. by rewrite (Get_key _ _ _ Hs Hg).
  - intros k' Hk'. rewrite Get_Remove by done. case_decide; [done|by apply Hx].
Qed.
End Theory.
