(* ===== verification/StackedMap.v ===== *)
(** * The revisioned map of the state

    [stackedmap/stackedmap.go]: a stack of maps over a source of data, with
    the index [keyRevisionMap] from a key to the levels that define it, and a
    journal of writes.  The state uses it for checkpoints and reverts.

    [Spec] is the contract: a plain stack of maps searched from the top.  The
    theorems show that the indexed structure implements it without ever
    panicking, that [PopTo] restores exactly the structure at the time of the
    matching [Push], whatever was done in between, and that replaying the
    journal gives the current contents. *)

From S2P Require Import Prelude.

(** ** Stack of interface values *)

Definition stack_top {A} (s : list A) : outcome A := deref (last s).
Definition stack_pop {A} (s : list A) : outcome (list A) :=
  if decide (s = []) then Panic else Ret (take (length s - 1) s).
Definition stack_push {A} (s : list A) (v : A) : list A := s ++ [v].

Module StackedMap.
Section Model.
Context {K V : Type} `{Countable K}.

Record level := mkLevel { kvs : gmap K V; journal : list (K * V) }.
Record t := mk { mapStack : list level; keyRevisionMap : gmap K (list nat) }.

#[global] Instance eta_level : Settable level := fun l => mkLevel (kvs l) (journal l).
#[global] Instance eta : Settable t := fun m => mk (mapStack m) (keyRevisionMap m).

(** [MapGetter]: the source below the stack. *)
Context (src : K -> option V).

Definition newLevel : level := mkLevel ∅ [].

Definition New : t := mk [newLevel] ∅.

Definition Depth (sm : t) : Z := Z.of_nat (length (mapStack sm)).

(** Returns the depth before the push. *)
Definition Push (sm : t) : t * Z :=
  let sm := sm <| mapStack ::= fun s => stack_push s newLevel |> in
  (sm, Z.of_nat (length (mapStack sm)) - 1).

(** One iteration of the loop of [Pop] over the keys of the top level. *)
Definition pop_revision (m : gmap K (list nat)) (k : K) : outcome (gmap K (list nat)) :=
  revs ← deref (m !! k);
  revs ← stack_pop revs;
  mret (if decide (revs = []) then delete k m else <[k := revs]> m).

Fixpoint pop_revisions (m : gmap K (list nat)) (keys : list K) : outcome (gmap K (list nat)) :=
  match keys with
  | [] => Ret m
  | k :: keys => m ← pop_revision m k; pop_revisions m keys
  end.

Definition Pop (sm : t) : outcome t :=
  top ← stack_top (mapStack sm);
  krm ← pop_revisions (keyRevisionMap sm) (map_to_list (kvs top)).*1;
  st ← stack_pop (mapStack sm);
  mret (mk st krm).

(** The loop pops at most one level per iteration, so [length + 1] rounds
    reach the exit or the panic of [Pop] on an empty stack. *)
Fixpoint pop_to (fuel : nat) (depth : Z) (sm : t) : outcome t :=
  match fuel with
  | O => Ret sm
  | S fuel =>
    if depth <? Z.of_nat (length (mapStack sm))
    then sm ← Pop sm; pop_to fuel depth sm
    else Ret sm
  end.

Definition PopTo (sm : t) (depth : Z) : outcome t :=
  pop_to (S (length (mapStack sm))) depth sm.

Definition Get (sm : t) (k : K) : outcome (option V) :=
  match keyRevisionMap sm !! k with
  | Some revs =>
    rev ← stack_top revs;
    lvl ← deref (mapStack sm !! rev);
    mret (match kvs lvl !! k with Some v => Some v | None => src k end)
  | None => Ret (src k)
  end.

Definition Put (sm : t) (k : K) (v : V) : outcome t :=
  top ← stack_top (mapStack sm);
  let top := top <| kvs ::= <[k := v]> |> <| journal ::= fun j => j ++ [(k, v)] |> in
  let rev := (length (mapStack sm) - 1)%nat in
  let st := <[rev := top]> (mapStack sm) in
  match keyRevisionMap sm !! k with
  | Some revs =>
    r ← stack_top revs;
    mret (mk st (if decide (r = rev) then keyRevisionMap sm
                 else <[k := stack_push revs rev]> (keyRevisionMap sm)))
  | None => mret (mk st (<[k := [rev]]> (keyRevisionMap sm)))
  end.

(** [Journal] threads the state of the callback; the callback's boolean says
    whether to go on. *)
Section Journal.
Context {S : Type} (cb : S -> K -> V -> S * bool).

Fixpoint journal_level (s : S) (j : list (K * V)) : S * bool :=
  match j with
  | [] => (s, true)
  | (k, v) :: j =>
    let '(s, ok) := cb s k v in if ok then journal_level s j else (s, false)
  end.

Fixpoint journal_levels (s : S) (ls : list level) : S :=
  match ls with
  | [] => s
  | l :: ls =>
    let '(s, ok) := journal_level s (journal l) in
    if ok then journal_levels s ls else s
  end.

Definition Journal (s : S) (sm : t) : S := journal_levels s (mapStack sm).
End Journal.

(** ** The contract *)

(** Lookup in a stack of maps, searched from the top (the last level). *)
Definition spec_get (st : list level) (k : K) : option V :=
  match last (omap (fun l => kvs l !! k) st) with
  | Some v => Some v
  | None => src k
  end.

(** The levels that define a key, ascending, the first one numbered [n]. *)
Fixpoint revisions (n : nat) (st : list level) (k : K) : list nat :=
  match st with
  | [] => []
  | l :: st =>
    (if decide (is_Some (kvs l !! k)) then [n] else []) ++ revisions (S n) st k
  end.

Definition non_nil {A} (l : list A) : option (list A) :=
  match l with [] => None | _ => Some l end.

(** The index agrees with the levels, and every level is its own journal. *)
Record wf (sm : t) : Prop := {
  wf_index : forall k, keyRevisionMap sm !! k = non_nil (revisions 0 (mapStack sm) k);
  wf_journal : forall l, l ∈ mapStack sm ->
    kvs l = foldl (fun m '(k, v) => <[k := v]> m) ∅ (journal l);
  wf_depth : mapStack sm <> []
}.
End Model.
Arguments level : clear implicits.
Arguments level K V {_ _}.
Arguments t : clear implicits.
Arguments t K V {_ _}.

Section Theory.
Context {K V : Type} `{Countable K}.
Implicit Types (src : K -> option V) (st : list (level K V)) (sm : t K V) (l : level K V) (k : K) (v : V).

Lemma stack_top_snoc {A} (s : list A) a : stack_top (s ++ [a]) = Ret a.
Proof. unfold stack_top. by rewrite last_snoc. Qed.

Lemma stack_pop_snoc {A} (s : list A) a : stack_pop (s ++ [a]) = Ret s.
Proof.
  unfold stack_pop. case_decide as Hd; [by destruct s|].
  rewrite length_app, Nat.add_sub. by rewrite take_app_length.
Qed.

Lemma revisions_app n st st' k :
  revisions n (st ++ st') k = revisions n st k ++ revisions (n + length st) st' k.
Proof.
  revert n. induction st as [|l st IH]; intros n; simpl; [by rewrite Nat.add_0_r|].
  rewrite IH, <- app_assoc. by rewrite Nat.add_succ_r.
Qed.

Lemma revisions_snoc n st l k :
  revisions n (st ++ [l]) k =
  revisions n st k ++ if decide (is_Some (kvs l !! k)) then [(n + length st)%nat] else [].
Proof. rewrite revisions_app. simpl. by rewrite app_nil_r. Qed.

Lemma revisions_bound n st k r : r ∈ revisions n st k -> (n <= r < n + length st)%nat.
Proof.
  revert n. induction st as [|l st IH]; intros n; simpl; [set_solver|].
  rewrite elem_of_app. intros [Hr|Hr%IH]; [|lia]. case_decide; [|set_solver].
  apply list_elem_of_singleton in Hr. lia.
Qed.

Lemma non_nil_snoc {A} (l : list A) a : non_nil (l ++ [a]) = Some (l ++ [a]).
Proof. by destruct l. Qed.

(** What the index finds is what the search from the top finds. *)
Lemma revisions_find st k :
  match non_nil (revisions 0 st k) with
  | Some revs => exists rev l v,
      last revs = Some rev /\ st !! rev = Some l /\ kvs l !! k = Some v /\
      last (omap (fun l => kvs l !! k) st) = Some v
  | None => last (omap (fun l => kvs l !! k) st) = None
  end.
Proof.
  induction st as [|l st IH] using rev_ind; [done|].
  rewrite revisions_snoc, omap_app. simpl. destruct (kvs l !! k) as [v|] eqn:E.
  - rewrite decide_True by eauto. rewrite non_nil_snoc. exists (length st), l, v.
    rewrite !last_snoc, lookup_app_r, Nat.sub_diag by lia. done.
  - rewrite decide_False by (intros [? ?]; congruence). rewrite !app_nil_r.
    destruct (non_nil _); [|done]. destruct IH as (rev & l' & v & ? & Hl & ?).
    exists rev, l', v. split_and!; try tauto. by apply lookup_app_l_Some.
Qed.

Lemma Get_spec src sm k : wf sm -> Get src sm k = Ret (spec_get src (mapStack sm) k).
Proof.
  intros [Hi _ _]. unfold Get, spec_get. rewrite Hi.
  pose proof (revisions_find (mapStack sm) k) as Hf.
  destruct (non_nil _) as [revs|]; [|by rewrite Hf].
  destruct Hf as (rev & l & v & Hl & Hr & Hv & ->).
  unfold stack_top. rewrite Hl. simpl. rewrite Hr. simpl. by rewrite Hv.
Qed.

Lemma wf_New : wf (@New K V _ _).
Proof.
  split; simpl; [|intros l ->%list_elem_of_singleton; done|done].
  intros k. rewrite lookup_empty. simpl. rewrite decide_False; [done|].
  rewrite lookup_empty. by intros [? ?].
Qed.

Lemma Push_eq sm :
  Push sm = (mk (mapStack sm ++ [newLevel]) (keyRevisionMap sm), Depth sm).
Proof.
  unfold Push, Depth, stack_push, update_field. simpl. f_equal. rewrite length_app. simpl. lia.
Qed.

Lemma wf_Push sm : wf sm -> wf (fst (Push sm)).
Proof.
  intros [Hi Hj Hd]. rewrite Push_eq. split; simpl.
  - intros k. rewrite Hi, revisions_snoc, decide_False; [by rewrite app_nil_r|].
    simpl. rewrite lookup_empty. by intros [? ?].
  - intros l [Hl| ->%list_elem_of_singleton]%elem_of_app; auto.
  - by destruct (mapStack sm).
Qed.

(** The new top level after a [Put]. *)
Definition put_level l k v : level K V := mkLevel (<[k := v]> (kvs l)) (journal l ++ [(k, v)]).

Lemma revisions_put n st l k v k' :
  revisions n (st ++ [put_level l k v]) k' =
  if decide (k' = k) then revisions n st k ++ [(n + length st)%nat]
  else revisions n (st ++ [l]) k'.
Proof.
  rewrite !revisions_snoc. simpl. destruct (decide (k' = k)) as [->|Hk].
  - rewrite lookup_insert_eq, decide_True by eauto. done.
  - by rewrite lookup_insert_ne.
Qed.

Lemma Put_spec st l m k v :
  wf (mk (st ++ [l]) m) ->
  exists m', Put (mk (st ++ [l]) m) k v = Ret (mk (st ++ [put_level l k v]) m') /\
             wf (mk (st ++ [put_level l k v]) m').
Proof.
  intros [Hi Hj Hd]. simpl in *.
  assert (forall m', (forall k', m' !! k' = non_nil (revisions 0 (st ++ [put_level l k v]) k')) ->
    wf (mk (st ++ [put_level l k v]) m')) as Hwf.
  { intros m' Hm. split; simpl; [done| |by destruct st].
    intros l' [Hl| ->%list_elem_of_singleton]%elem_of_app.
    - apply Hj. set_solver.
    - simpl. rewrite foldl_app. simpl. f_equal. apply Hj. set_solver. }
  unfold Put. simpl. rewrite stack_top_snoc. simpl.
  assert (length (st ++ [l]) - 1 = length st)%nat as -> by (rewrite length_app; simpl; lia).
  rewrite insert_app_r_alt, Nat.sub_diag by lia. simpl.
  specialize (Hi k) as Hk. rewrite Hk, revisions_snoc.
  case_decide as Hd1.
  - rewrite non_nil_snoc. simpl. rewrite stack_top_snoc. simpl. rewrite decide_True by done.
    eexists. split; [done|]. apply Hwf. intros k'. rewrite Hi, revisions_put.
    case_decide; subst; [|done]. by rewrite revisions_snoc, decide_True.
  - rewrite app_nil_r. destruct (non_nil (revisions 0 st k)) as [revs|] eqn:E.
    + assert (revs = revisions 0 st k) as -> by (by destruct (revisions 0 st k); simplify_eq/=).
      destruct (last (revisions 0 st k)) as [r|] eqn:El.
      2:{ apply last_None in El. by rewrite El in E. }
      assert (r < length st)%nat.
      { apply last_Some_elem_of, revisions_bound in El. lia. }
      unfold stack_top. rewrite El. simpl. rewrite decide_False by lia.
      eexists. split; [done|]. apply Hwf. intros k'. rewrite revisions_put.
      case_decide; subst; [|by rewrite lookup_insert_ne].
      rewrite lookup_insert_eq. by rewrite non_nil_snoc.
    + assert (revisions 0 st k = []) as Hn by (by destruct (revisions 0 st k)).
      eexists. split; [done|]. apply Hwf. intros k'. rewrite revisions_put.
      case_decide; subst; [|by rewrite lookup_insert_ne].
      rewrite lookup_insert_eq, Hn. done.
Qed.

Lemma pop_revisions_spec (f : K -> list nat) keys m :
  NoDup keys ->
  (forall k, k ∈ keys -> exists r, m !! k = Some (f k ++ [r])) ->
  exists m', pop_revisions m keys = Ret m' /\
    forall k, m' !! k = if decide (k ∈ keys) then non_nil (f k) else m !! k.
Proof.
  revert m. induction keys as [|k keys IH]; intros m Hnd Hm; cbn [pop_revisions].
  { exists m. split; [done|]. intros k. by rewrite decide_False by set_solver. }
  apply NoDup_cons in Hnd as [Hk Hnd]. destruct (Hm k) as [r Hr]; [set_solver|].
  unfold pop_revision. rewrite Hr. simpl. rewrite stack_pop_snoc. simpl.
  set (m1 := if decide (f k = []) then delete k m else <[k := f k]> m).
  assert (forall k', m1 !! k' = if decide (k' = k) then non_nil (f k) else m !! k') as Hm1.
  { intros k'. unfold m1. destruct (decide (f k = [])) as [E|E].
    - rewrite E. destruct (decide (k' = k)) as [->|]; [by rewrite lookup_delete_eq|].
      by rewrite lookup_delete_ne.
    - destruct (decide (k' = k)) as [->|]; [|by rewrite lookup_insert_ne].
      rewrite lookup_insert_eq. by destruct (f k). }
  destruct (IH m1 Hnd) as (m' & Hp & Hl).
  { intros k' Hk'. rewrite Hm1, decide_False by set_solver. apply Hm. set_solver. }
  exists m'. split; [done|]. intros k'. rewrite Hl, Hm1.
  destruct (decide (k' = k)) as [->|Hne].
  - rewrite decide_False by done. by rewrite decide_True by set_solver.
  - destruct (decide (k' ∈ keys)).
    + by rewrite decide_True by set_solver.
    + by rewrite decide_False by set_solver.
Qed.

Lemma Pop_spec st l m :
  wf (mk (st ++ [l]) m) ->
  exists m', Pop (mk (st ++ [l]) m) = Ret (mk st m') /\
    forall k, m' !! k = non_nil (revisions 0 st k).
Proof.
  intros [Hi _ _]. simpl in Hi. unfold Pop. simpl. rewrite stack_top_snoc. simpl.
  destruct (pop_revisions_spec (revisions 0 st) (map_to_list (kvs l)).*1 m) as (m' & -> & Hm').
  - apply NoDup_fst_map_to_list.
  - intros k ([k' v] & -> & Hv%elem_of_map_to_list)%list_elem_of_fmap. simpl.
    rewrite Hi, revisions_snoc, decide_True by eauto. rewrite non_nil_snoc. eauto.
  - simpl. rewrite stack_pop_snoc. simpl. exists m'. split; [done|].
    intros k. rewrite Hm'. case_decide as Hd; [done|].
    rewrite Hi, revisions_snoc, decide_False; [by rewrite app_nil_r|].
    intros [v Hv%elem_of_map_to_list]. apply Hd. apply list_elem_of_fmap. by exists (k, v).
Qed.

Lemma wf_index_unique st m1 m2 : wf (mk st m1) -> wf (mk st m2) -> m1 = m2.
Proof.
  intros [H1 _ _] [H2 _ _]. apply map_eq. intros k. simpl in *. by rewrite H1, H2.
Qed.

(** Popping the levels above a non-empty stack. *)
Lemma wf_Pop st l m :
  st <> [] -> wf (mk (st ++ [l]) m) ->
  exists m', Pop (mk (st ++ [l]) m) = Ret (mk st m') /\ wf (mk st m').
Proof.
  intros Hne Hwf. destruct (Pop_spec st l m Hwf) as (m' & HP & Hm').
  exists m'. split; [done|]. split; simpl; [done| |done].
  intros l' Hl. apply (wf_journal _ Hwf). simpl. set_solver.
Qed.

Lemma PopTo_levels st st' m :
  st <> [] -> wf (mk (st ++ st') m) ->
  exists m', PopTo (mk (st ++ st') m) (Z.of_nat (length st)) = Ret (mk st m') /\ wf (mk st m').
Proof.
  intros Hne. unfold PopTo. simpl.
  enough (forall fuel m, (length st' < fuel)%nat -> wf (mk (st ++ st') m) ->
    exists m', pop_to fuel (Z.of_nat (length st)) (mk (st ++ st') m) = Ret (mk st m') /\
      wf (mk st m')) as Hx.
  { intros Hwf. apply (Hx (S (length (st ++ st'))) m); [rewrite length_app; lia|done]. }
  induction st' as [|l st' IH] using rev_ind; intros fuel m' Hf Hwf.
  - rewrite app_nil_r in *. destruct fuel as [|fuel]; simpl in *; [lia|].
    rewrite Z.ltb_irrefl. eauto.
  - rewrite length_app in Hf. simpl in Hf. destruct fuel as [|fuel]; [lia|]. cbn [pop_to].
    rewrite app_assoc in *. simpl.
    destruct (Z.ltb_spec (Z.of_nat (length st)) (Z.of_nat (length ((st ++ st') ++ [l]))))
      as [_|Hlt]; [|rewrite !length_app in Hlt; simpl in Hlt; lia].
    destruct (wf_Pop (st ++ st') l m') as (m1 & -> & Hwf1); [by destruct st|done|].
    simpl. apply IH; [lia|done].
Qed.

(** ** Operations between a checkpoint and its revert

    One operation of a client that holds a checkpoint at depth [n]: it writes,
    takes further checkpoints, and pops or reverts only to depths above [n]. *)

Inductive step_above (n : nat) : t K V -> t K V -> Prop :=
| step_put sm k v sm' : Put sm k v = Ret sm' -> step_above n sm sm'
| step_push sm : step_above n sm (fst (Push sm))
| step_pop sm sm' :
    (n + 1 < length (mapStack sm))%nat -> Pop sm = Ret sm' -> step_above n sm sm'
| step_pop_to sm d sm' :
    Z.of_nat n + 1 <= d -> PopTo sm d = Ret sm' -> step_above n sm sm'.

(** The states of a map that is created and then used; the base level stays. *)
Definition reachable sm : Prop := rtc (step_above 0) New sm.

Lemma split_last st : st <> [] -> exists st0 l, st = st0 ++ [l].
Proof. intros Hne. destruct st using rev_ind; [done|eauto]. Qed.

Lemma PopTo_wf sm d :
  wf sm -> 1 <= d ->
  exists m', PopTo sm d = Ret (mk (take (Z.to_nat d) (mapStack sm)) m') /\
    wf (mk (take (Z.to_nat d) (mapStack sm)) m').
Proof.
  intros Hwf Hd. destruct sm as [st m]. simpl.
  destruct (decide (Z.to_nat d <= length st)%nat) as [Hle|Hgt].
  - destruct (PopTo_levels (take (Z.to_nat d) st) (drop (Z.to_nat d) st) m) as (m' & Hp & Hw).
    + pose proof (wf_depth _ Hwf) as Hne. simpl in Hne. destruct st; [done|].
      destruct (Z.to_nat d) eqn:E; [lia|done].
    + by rewrite take_drop.
    + exists m'. rewrite take_drop, length_take_le, Z2Nat.id in Hp by lia. done.
  - rewrite take_ge by lia. exists m. split; [|done].
    unfold PopTo. cbn [pop_to mapStack]. by destruct (Z.ltb_spec d (Z.of_nat (length st))); [lia|].
Qed.

Lemma step_above_inv n sm sm' :
  step_above n sm sm' -> wf sm -> (n < length (mapStack sm))%nat ->
  wf sm' /\ (n < length (mapStack sm'))%nat /\ take n (mapStack sm') = take n (mapStack sm).
Proof.
  intros Hstep Hwf Hlen. pose proof (wf_depth _ Hwf) as Hne.
  destruct sm as [st m]. simpl in *. destruct (split_last st Hne) as (st0 & l & ->).
  pose proof Hlen as Hlen'. rewrite length_app in Hlen'. simpl in Hlen'.
  inversion Hstep as [? k v ? HP|?|? ? Hn HP|? d ? Hd HP]; subst.
  - destruct (Put_spec st0 l m k v Hwf) as (m' & HP' & Hwf').
    rewrite HP' in HP. simplify_eq. simpl.
    rewrite length_app. simpl. rewrite !take_app_le by lia. split_and!; [done|lia|done].
  - pose proof (wf_Push _ Hwf) as Hwf'. rewrite Push_eq in *. simpl in *.
    split_and!; [done|rewrite !length_app; simpl; lia|].
    by rewrite <- app_assoc, !take_app_le by lia.
  - cbn [mapStack] in Hn. rewrite length_app in Hn. simpl in Hn.
    destruct (wf_Pop st0 l m) as (m' & HP' & Hwf'); [by destruct st0; simpl in *; [lia|]|done|].
    rewrite HP' in HP. simplify_eq. simpl. rewrite take_app_le by lia.
    split_and!; [done|lia|done].
  - destruct (PopTo_wf (mk (st0 ++ [l]) m) d Hwf) as (m' & HP' & Hwf'); [lia|].
    rewrite HP' in HP. simplify_eq. cbn [mapStack] in *.
    split_and!; [done|rewrite length_take; lia|]. by rewrite take_take, Nat.min_l by lia.
Qed.

Lemma steps_above_inv n sm sm' :
  rtc (step_above n) sm sm' -> wf sm -> (n < length (mapStack sm))%nat ->
  wf sm' /\ (n < length (mapStack sm'))%nat /\ take n (mapStack sm') = take n (mapStack sm).
Proof.
  induction 1 as [|sm1 sm2 sm3 Hs _ IH]; intros Hwf Hlen; [done|].
  destruct (step_above_inv n sm1 sm2 Hs Hwf Hlen) as (Hwf2 & Hlen2 & Ht2).
  destruct (IH Hwf2 Hlen2) as (? & ? & Ht3). split_and!; [done|done|congruence].
Qed.

Lemma reachable_wf sm : reachable sm -> wf sm.
Proof.
  intros Hr. eapply steps_above_inv; [exact Hr|apply wf_New|simpl; lia].
Qed.

(** Replaying the whole journal into an empty map. *)
Definition replay (m : gmap K V) k v : gmap K V * bool := (<[k := v]> m, true).

Lemma journal_level_replay m j :
  journal_level replay m j = (foldl (fun m '(k, v) => <[k := v]> m) m j, true).
Proof.
  revert m. induction j as [|[k v] j IH]; intros m; simpl; [done|]. apply IH.
Qed.

Lemma foldl_insert_union (m : gmap K V) j :
  foldl (fun m '(k, v) => <[k := v]> m) m j =
  foldl (fun m '(k, v) => <[k := v]> m) ∅ j ∪ m.
Proof.
  induction j as [|[k v] j IH] using rev_ind; simpl; [by rewrite map_empty_union|].
  rewrite !foldl_app. simpl. rewrite IH. by rewrite insert_union_l.
Qed.

Lemma journal_levels_replay st m k :
  (forall l, l ∈ st -> kvs l = foldl (fun m '(k, v) => <[k := v]> m) ∅ (journal l)) ->
  journal_levels replay m st !! k =
  match last (omap (fun l => kvs l !! k) st) with Some v => Some v | None => m !! k end.
Proof.
  revert m. induction st as [|l st IH]; intros m Hj; [done|]. cbn [journal_levels].
  rewrite journal_level_replay. rewrite IH by (intros; apply Hj; set_solver).
  rewrite foldl_insert_union, <- (Hj l) by set_solver. simpl.
  destruct (kvs l !! k) as [v|] eqn:E; simpl.
  - rewrite last_cons. destruct (last _); [done|]. by rewrite lookup_union, E, union_Some_l.
  - destruct (last _); [done|]. rewrite lookup_union, E. by destruct (m !! k).
Qed.

Lemma spec_get_put src st l k v k' :
  spec_get src (st ++ [put_level l k v]) k' =
  if decide (k' = k) then Some v else spec_get src (st ++ [l]) k'.
Proof.
  unfold spec_get. rewrite !omap_app. simpl. destruct (decide (k' = k)) as [->|Hne].
  - rewrite lookup_insert_eq. simpl. by rewrite last_snoc.
  - by rewrite lookup_insert_ne.
Qed.

(** In every reachable stacked map, [Get] returns (it never panics) and
    finds exactly what a search of the levels from the top would find, and
    [Put] returns a reachable map in which the key reads as the new value and
    every other key reads as before. *)
Theorem stackedmap_get_put_refine src sm k v :
  reachable sm ->
  Get src sm k = Ret (spec_get src (mapStack sm) k) /\
  exists sm', Put sm k v = Ret sm' /\ reachable sm' /\
    forall k', Get src sm' k' = if decide (k' = k) then Ret (Some v) else Get src sm k'.
Proof.
  intros Hr. pose proof (reachable_wf sm Hr) as Hwf. split; [by apply Get_spec|].
  destruct sm as [st m]. destruct (split_last st (wf_depth _ Hwf)) as (st0 & l & ->).
  destruct (Put_spec st0 l m k v Hwf) as (m' & HP & Hwf'). eexists. split; [done|]. split.
  - eapply rtc_r; [exact Hr|]. by eapply step_put.
  - intros k'. rewrite !Get_spec by done. simpl. rewrite spec_get_put. by case_decide.
Qed.

(** Popping back to the depth of a checkpoint restores the map. *)
Lemma PopTo_restores sm sm' :
  wf sm -> rtc (step_above (length (mapStack sm))) (fst (Push sm)) sm' ->
  PopTo sm' (Z.of_nat (length (mapStack sm))) = Ret sm.
Proof.
  intros Hwf Hsteps. pose proof (wf_Push sm Hwf) as Hwf0. rewrite Push_eq in *. simpl in *.
  destruct (steps_above_inv _ _ _ Hsteps Hwf0) as (Hwf' & Hlen & Htake).
  { simpl. rewrite length_app. simpl. lia. }
  pose proof (wf_depth _ Hwf) as Hne.
  assert (0 < length (mapStack sm))%nat by (destruct (mapStack sm); simpl in *; [done|lia]).
  destruct (PopTo_wf sm' (Z.of_nat (length (mapStack sm))) Hwf') as (m' & -> & Hwf''); [lia|].
  rewrite Nat2Z.id in *. simpl in Htake. rewrite take_app_length in Htake.
  rewrite Htake in *. destruct sm as [st m]. simpl in *.
  by rewrite (wf_index_unique st m' m Hwf'' Hwf).
Qed.

(** C12: a revert is exact.  Take a checkpoint of a reachable map, then do any
    writes, nested checkpoints, pops and reverts above it: [PopTo] the
    checkpoint returns the very map the checkpoint was taken of (levels,
    journals and key index). *)
Theorem stackedmap_revert_exact sm sm0 rev sm' :
  reachable sm -> Push sm = (sm0, rev) ->
  rtc (step_above (length (mapStack sm))) sm0 sm' ->
  PopTo sm' rev = Ret sm.
Proof.
  intros Hr HP Hsteps. pose proof (PopTo_restores sm sm' (reachable_wf sm Hr)) as Hp.
  rewrite HP in Hp. rewrite Push_eq in HP. injection HP as _ <-. by apply Hp.
Qed.

(** The journal is a faithful account of the map: replaying every entry
    from the bottom level to the top into an empty map, and falling back to
    the source for keys never written, gives what [Get] returns. *)
Theorem stackedmap_journal_replay src sm k :
  reachable sm ->
  Get src sm k =
  Ret (match Journal replay ∅ sm !! k with Some v => Some v | None => src k end).
Proof.
  intros Hr. pose proof (reachable_wf sm Hr) as Hwf. rewrite Get_spec by done.
  unfold Journal. rewrite journal_levels_replay by apply (wf_journal _ Hwf).
  rewrite lookup_empty. unfold spec_get. by destruct (last _).
Qed.
End Theory.

(** Witnesses on a map from numbers to numbers. *)
Definition ex_put (sm : t Z Z) (k v : Z) : t Z Z :=
  match Put sm k v with Ret sm' => sm' | Panic => sm end.
Definition ex0 : t Z Z := ex_put New 1 10.
Definition ex1 : t Z Z := ex_put (ex_put (fst (Push ex0)) 1 11) 2 20.

Lemma ex0_reachable : reachable ex0.
Proof. eapply rtc_l; [|apply rtc_refl]. by apply (step_put 0 New 1 10). Defined.

Lemma stackedmap_get_put_refine_witness :
  Get (fun _ => None) ex0 1 = Ret (Some 10).
Proof.
  destruct (stackedmap_get_put_refine (fun _ => None) ex0 1 5 ex0_reachable) as [-> _].
  vm_compute. reflexivity.
Defined.

Lemma stackedmap_revert_exact_witness : PopTo ex1 1 = Ret ex0.
Proof.
  apply (stackedmap_revert_exact ex0 (fst (Push ex0)) 1 ex1);
    [apply ex0_reachable|reflexivity|].
  eapply rtc_l; [by apply (step_put 1 (fst (Push ex0)) 1 11)|].
  eapply rtc_l; [|apply rtc_refl]. by apply (step_put 1 (ex_put (fst (Push ex0)) 1 11) 2 20).
Defined.

Lemma stackedmap_journal_replay_witness :
  Get (fun k => Some k) ex0 7 = Ret (Some 7).
Proof.
  rewrite (stackedmap_journal_replay (fun k => Some k) ex0 7 ex0_reachable).
  vm_compute. reflexivity.
Defined.
End StackedMap.
