(* ===== verification/AuctionTypes.v ===== *)
(** * Auction and account-lock data

    [meter/auction_tx.go], [meter/auction_cb.go], [meter/auction_summary.go]
    and [meter/profile.go]: a bid, the control block of the running auction
    with its sorted bids, the summary of a closed auction, and the lock
    profile of an account. *)

From S2P Require Import Prelude KeyedList ChainParam StakingTypes.

Definition OP_START : Z := 1.
Definition OP_STOP : Z := 2.
Definition OP_BID : Z := 3.
Definition USER_BID : Z := 0.
Definition AUTO_BID : Z := 1.
Definition AUCTION_MAX_SUMMARIES : Z := 32.

Module AuctionTx.
Record t := mk {
  TxID : Bytes32;
  Address_ : Address;
  Amount : Z;
  Type_ : Z;
  Timestamp : Z;
  Nonce : Z
}.
#[global] Instance eta : Settable t := fun a =>
  mk (TxID a) (Address_ a) (Amount a) (Type_ a) (Timestamp a) (Nonce a).
#[global] Instance keyed : Keyed t := TxID.

Section Ops.
Context `{Hashing}.
Definition ID (a : t) : Bytes32 :=
  auctiontx_hash (Address_ a) (Amount a) (Type_ a) (Timestamp a) (Nonce a).

Definition NewAuctionTx (addr : Address) (amount txtype time nonce : Z) : t :=
  let tx := mk 0 addr amount txtype time nonce in tx <| TxID := ID tx |>.
End Ops.
End AuctionTx.

(** A nil [big.Int] of an inactive control block is 0. *)
Module AuctionCB.
Record t := mk {
  AuctionID : Bytes32;
  StartHeight : Z;
  StartEpoch : Z;
  EndHeight : Z;
  EndEpoch : Z;
  Sequence : Z;
  RlsdMTRG : Z;
  RsvdMTRG : Z;
  RsvdPrice : Z;
  CreateTime : Z;
  RcvdMTR : Z;
  AuctionTxs : list AuctionTx.t
}.
#[global] Instance eta : Settable t := fun c =>
  mk (AuctionID c) (StartHeight c) (StartEpoch c) (EndHeight c) (EndEpoch c) (Sequence c)
     (RlsdMTRG c) (RsvdMTRG c) (RsvdPrice c) (CreateTime c) (RcvdMTR c) (AuctionTxs c).

Definition empty : t := mk 0 0 0 0 0 0 0 0 0 0 0 [].

Section Ops.
Context `{Hashing}.
Definition ID (cb : t) : Bytes32 :=
  auction_hash (StartHeight cb) (StartEpoch cb) (EndHeight cb) (EndEpoch cb)
    (RlsdMTRG cb) (RsvdMTRG cb) (RsvdPrice cb) (CreateTime cb).
End Ops.

Definition indexOf (cb : t) (id : Bytes32) : Z * Z := KeyedList.indexOf (AuctionTxs cb) id.
Definition Get (cb : t) (id : Bytes32) : option AuctionTx.t := KeyedList.Get (AuctionTxs cb) id.
Definition Exist (cb : t) (id : Bytes32) : bool := KeyedList.Exist (AuctionTxs cb) id.
Definition Add (cb : t) (tx : AuctionTx.t) : t :=
  cb <| AuctionTxs ::= fun l => KeyedList.Add l tx |>.
Definition Remove (cb : t) (id : Bytes32) : t :=
  cb <| AuctionTxs ::= fun l => KeyedList.Remove l id |>.

(** The control block after the call, and the error. *)
Definition AddAuctionTx (cb : t) (tx : AuctionTx.t) : t * option string :=
  match Get cb (AuctionTx.TxID tx) with
  | Some _ => (cb, Some "tx already exist")
  | None =>
    let cb := cb <| RcvdMTR ::= fun r => r + AuctionTx.Amount tx |> in
    (Add cb tx, None)
  end.

Definition RemoveAuctionTx (cb : t) (tx : AuctionTx.t) : t * option string :=
  match Get cb (AuctionTx.TxID tx) with
  | None => (cb, Some "tx does not exist")
  | Some _ =>
    let cb := cb <| RcvdMTR ::= fun r => r - AuctionTx.Amount tx |> in
    (Remove cb (AuctionTx.TxID tx), None)
  end.

Definition IsActive (cb : t) : bool := negb (IsZero (AuctionID cb)).
End AuctionCB.

Module DistMtrg.
Record t := mk { Addr : Address; Amount : Z }.
End DistMtrg.

Module AuctionSummary.
Record t := mk {
  AuctionID : Bytes32;
  StartHeight : Z;
  StartEpoch : Z;
  EndHeight : Z;
  EndEpoch : Z;
  Sequence : Z;
  RlsdMTRG : Z;
  RsvdMTRG : Z;
  RsvdPrice : Z;
  CreateTime : Z;
  RcvdMTR : Z;
  ActualPrice : Z;
  LeftoverMTRG : Z;
  AuctionTxs : list AuctionTx.t;
  DistMTRG : list DistMtrg.t
}.
#[global] Instance eta : Settable t := fun c =>
  mk (AuctionID c) (StartHeight c) (StartEpoch c) (EndHeight c) (EndEpoch c) (Sequence c)
     (RlsdMTRG c) (RsvdMTRG c) (RsvdPrice c) (CreateTime c) (RcvdMTR c) (ActualPrice c)
     (LeftoverMTRG c) (AuctionTxs c) (DistMTRG c).
End AuctionSummary.

Module Profile.
Record t := mk {
  Addr : Address;
  Memo : string;
  LockEpoch : Z;
  ReleaseEpoch : Z;
  MeterAmount : Z;
  MeterGovAmount : Z
}.
#[global] Instance eta : Settable t := fun p =>
  mk (Addr p) (Memo p) (LockEpoch p) (ReleaseEpoch p) (MeterAmount p) (MeterGovAmount p).
#[global] Instance keyed : Keyed t := Addr.
Definition NewProfile (addr : Address) (memo : string) (lock release mtr mtrg : Z) : t :=
  mk addr memo lock release mtr mtrg.
End Profile.

Module ProfileList.
Abbreviation t := (list Profile.t).
Definition NewProfileList : t -> t := SliceStable.
Definition indexOf : t -> Address -> Z * Z := KeyedList.indexOf.
Definition Get : t -> Address -> option Profile.t := KeyedList.Get.
Definition Exist : t -> Address -> bool := KeyedList.Exist.
Definition Add : t -> Profile.t -> t := KeyedList.Add.
Definition Remove : t -> Address -> t := KeyedList.Remove.
End ProfileList.

(** ** The running total of a control block *)

(** The received MTR is the sum of the bids, and the bids are sorted by id. *)
Record cb_wf (cb : AuctionCB.t) : Prop := {
  cb_sorted : sorted (AuctionCB.AuctionTxs cb);
  cb_total : AuctionCB.RcvdMTR cb = sum_of AuctionTx.Amount (AuctionCB.AuctionTxs cb)
}.

Lemma cb_wf_AddAuctionTx cb tx :
  cb_wf cb -> cb_wf (fst (AuctionCB.AddAuctionTx cb tx)).
Proof.
  intros [Hs Ht]. unfold AuctionCB.AddAuctionTx, AuctionCB.Get.
  destruct (Get _ _) eqn:E; [done|]. split; simpl; [by apply Add_sorted|].
  rewrite sum_of_Add_new by done. by rewrite Ht.
Qed.

Lemma cb_wf_RemoveAuctionTx cb tx :
  cb_wf cb ->
  (forall tx', AuctionCB.Get cb (AuctionTx.TxID tx) = Some tx' ->
    AuctionTx.Amount tx' = AuctionTx.Amount tx) ->
  cb_wf (fst (AuctionCB.RemoveAuctionTx cb tx)).
Proof.
  intros [Hs Ht] Heq. unfold AuctionCB.RemoveAuctionTx, AuctionCB.Get in *.
  destruct (Get _ _) as [tx'|] eqn:E; [|done]. split; simpl; [by apply Remove_sorted|].
  rewrite (sum_of_Remove _ _ _ tx') by done. rewrite Ht, (Heq tx' eq_refl). done.
Qed.
