(* ===== verification/Stats.v ===== *)
(** * Delegate statistics

    [meter/delegate_stats.go]: the infractions recorded against a delegate,
    how they phase out with the epochs, and how the violations that put a
    delegate in jail are counted. *)

From S2P Require Import Prelude KeyedList ChainParam StakingTypes.

Definition JailCriteria : Z := 2000.
Definition DoubleSignPts : Z := 2000.
Definition MissingLeaderPts : Z := 1000.
Definition MissingProposerPts : Z := 20.
Definition MissingVoterPts : Z := 2.
Definition PhaseOutEpochCount : Z := 4.
Definition PhaseOutDoubleSignPts : Z := DoubleSignPts / 2.
Definition PhaseOutLeaderPts : Z := MissingLeaderPts / 2.
Definition PhaseOutProposerPts : Z := MissingProposerPts / 2.
Definition PhaseOutVoterPts : Z := MissingVoterPts / 2.
Definition WipeOutEpochCount : Z := PhaseOutEpochCount * 2.
Definition NObservationEpochs : Z := 8.
Definition MaxMissingProposerPerEpoch : Z := 3.
Definition MaxMissingLeaderPerEpoch : Z := 2.
Definition MaxDoubleSignPerEpoch : Z := 1.
Definition JailCriteria_MissingProposerViolation : Z := 2.
Definition JailCriteria_MissingLeaderViolation : Z := 2.
Definition JailCriteria_DoubleSignViolation : Z := 1.

(** One of the four loops of [PhaseOut]: the records kept, and their points. *)
Definition phase_one (one two full half : Z) (acc : list Infraction.info * Z)
    (info : Infraction.info) : list Infraction.info * Z :=
  let (kept, pts) := acc in
  if one <=? Infraction.Epoch info then (kept ++ [info], u64 (pts + full))
  else if two <=? Infraction.Epoch info then (kept ++ [info], u64 (pts + half))
  else (kept, pts).

Definition phase_loop (one two full half : Z) (infos : list Infraction.info)
    : list Infraction.info * Z :=
  foldl (phase_one one two full half) ([], 0) infos.

Definition phased (kept : list Infraction.info) : Infraction.count :=
  Infraction.mkCount (u32 (Z.of_nat (length kept))) kept.

(** One of the three loops that count the infractions of each epoch in the
    window of observation: the Go map from epochs to counts. *)
Definition tally (epoch : Z) (infos : list Infraction.info) : gmap Z Z :=
  foldl (fun counter inf =>
    if Infraction.Epoch inf <? u32 (epoch - NObservationEpochs) then counter
    else
      let counter :=
        match counter !! Infraction.Epoch inf with
        | Some _ => counter
        | None => <[Infraction.Epoch inf := 1]> counter
        end in
      <[Infraction.Epoch inf := default 0 (counter !! Infraction.Epoch inf) + 1]> counter)
    ∅ infos.

Definition violations (limit : Z) (counter : gmap Z Z) : Z :=
  map_fold (fun _ count n => if limit <=? count then n + 1 else n) 0 counter.

Module DelegateStat.
Record t := mk {
  Addr : Address;
  Name : string;
  PubKey : string;
  TotalPts : Z;
  Infractions : Infraction.t
}.
#[global] Instance eta : Settable t := fun d =>
  mk (Addr d) (Name d) (PubKey d) (TotalPts d) (Infractions d).
#[global] Instance keyed : Keyed t := Addr.

Definition NewDelegateStat (addr : Address) (name pubKey : string) : t :=
  mk addr name pubKey 0 Infraction.empty.

Definition PhaseOut (curEpoch : Z) (ds : t) : t :=
  if curEpoch <=? PhaseOutEpochCount then ds
  else
    let one := u32 (curEpoch - PhaseOutEpochCount) in
    let two := if WipeOutEpochCount <=? curEpoch then u32 (curEpoch - WipeOutEpochCount) else 0 in
    let inf := Infractions ds in
    let (leaderInfo, leaderPts) := phase_loop one two MissingLeaderPts PhaseOutLeaderPts
      (Infraction.Info (Infraction.MissingLeaders inf)) in
    let (proposerInfo, proposerPts) := phase_loop one two MissingProposerPts PhaseOutProposerPts
      (Infraction.Info (Infraction.MissingProposers inf)) in
    let (voterInfo, voterPts) := phase_loop one two MissingVoterPts PhaseOutVoterPts
      (Infraction.Info (Infraction.MissingVoters inf)) in
    let (dsignInfo, dsignPts) := phase_loop one two DoubleSignPts PhaseOutDoubleSignPts
      (Infraction.Info (Infraction.DoubleSigners inf)) in
    ds <| Infractions := Infraction.mk (phased leaderInfo) (phased proposerInfo)
                           (phased voterInfo) (phased dsignInfo) |>
       <| TotalPts := u64 (leaderPts + proposerPts + voterPts + dsignPts) |>.

Definition extend (a b : Infraction.count) : Infraction.count :=
  Infraction.mkCount (u32 (Infraction.Counter a + Infraction.Counter b))
    (Infraction.Info a ++ Infraction.Info b).

Definition Update (incr : Infraction.t) (ds : t) : t :=
  let infr := Infractions ds in
  let pts := u32 (Infraction.Counter (Infraction.MissingLeaders incr) * MissingLeaderPts
    + Infraction.Counter (Infraction.MissingProposers incr) * MissingProposerPts
    + Infraction.Counter (Infraction.MissingVoters incr) * MissingVoterPts
    + Infraction.Counter (Infraction.DoubleSigners incr) * DoubleSignPts) in
  ds <| Infractions := Infraction.mk
          (extend (Infraction.MissingLeaders infr) (Infraction.MissingLeaders incr))
          (extend (Infraction.MissingProposers infr) (Infraction.MissingProposers incr))
          (extend (Infraction.MissingVoters infr) (Infraction.MissingVoters incr))
          (extend (Infraction.DoubleSigners infr) (Infraction.DoubleSigners incr)) |>
     <| TotalPts ::= fun p => u64 (p + pts) |>.

Definition CountMissingProposerViolation (epoch : Z) (ds : t) : Z :=
  violations MaxMissingProposerPerEpoch
    (tally epoch (Infraction.Info (Infraction.MissingProposers (Infractions ds)))).
Definition CountMissingLeaderViolation (epoch : Z) (ds : t) : Z :=
  violations MaxMissingLeaderPerEpoch
    (tally epoch (Infraction.Info (Infraction.MissingLeaders (Infractions ds)))).
Definition CountDoubleSignViolation (epoch : Z) (ds : t) : Z :=
  violations MaxDoubleSignPerEpoch
    (tally epoch (Infraction.Info (Infraction.DoubleSigners (Infractions ds)))).
End DelegateStat.

Module DelegateStatList.
Abbreviation t := (list DelegateStat.t).
Definition NewDelegateStatList : t -> t := SliceStable.
Definition indexOf : t -> Address -> Z * Z := KeyedList.indexOf.
Definition Get : t -> Address -> option DelegateStat.t := KeyedList.Get.
Definition Exist : t -> Address -> bool := KeyedList.Exist.
Definition Add : t -> DelegateStat.t -> t := KeyedList.Add.
Definition Remove : t -> Address -> t := KeyedList.Remove.
End DelegateStatList.

(** ** Phase-out *)

(** The points one record is worth, from the age of its epoch. *)
Definition weight (one two full half : Z) (info : Infraction.info) : Z :=
  if one <=? Infraction.Epoch info then full
  else if two <=? Infraction.Epoch info then half else 0.

Lemma u64_add_l a b : u64 (u64 a + b) = u64 (a + b).
Proof. unfold u64. by rewrite Zplus_mod_idemp_l. Qed.

Lemma u64_add4 a b c d : u64 (u64 a + u64 b + u64 c + u64 d) = u64 (a + b + c + d).
Proof.
  rewrite <- !Z.add_assoc, u64_add_l, Z.add_comm, <- !Z.add_assoc, u64_add_l.
  rewrite Z.add_comm, <- !Z.add_assoc, u64_add_l, Z.add_comm, <- !Z.add_assoc, u64_add_l.
  f_equal. lia.
Qed.

Lemma phase_loop_spec one two full half infos :
  two <= one ->
  phase_loop one two full half infos =
    (filter (fun i => two <= Infraction.Epoch i) infos,
     u64 (sum_of (weight one two full half) infos)).
Proof.
  intros Hle. unfold phase_loop.
  enough (forall kept n, foldl (phase_one one two full half) (kept, u64 n) infos =
    (kept ++ filter (fun i => two <= Infraction.Epoch i) infos,
     u64 (n + sum_of (weight one two full half) infos))) as Hgen; [apply (Hgen [] 0)|].
  induction infos as [|i infos IH]; intros kept n; cbn [foldl].
  { by rewrite filter_nil, app_nil_r, Z.add_0_r. }
  rewrite sum_of_cons, filter_cons. unfold weight at 1, phase_one at 2.
  destruct (one <=? _) eqn:E1; [|destruct (two <=? _) eqn:E2];
    destruct (decide _); try lia; cbv zeta beta; rewrite ?u64_add_l, IH, <- ?(assoc_L (++));
    simpl; do 2 f_equal; lia.
Qed.

(** ** Counting violations *)

Section Tally.
Context (epoch : Z).
Definition observed (inf : Infraction.info) : Prop :=
  u32 (epoch - NObservationEpochs) <= Infraction.Epoch inf.
#[global] Instance observed_dec inf : Decision (observed inf).
Proof. unfold observed. apply _. Defined.
Definition occurrences (e : Z) (infos : list Infraction.info) : nat :=
  length (filter (fun i => observed i /\ Infraction.Epoch i = e) infos).

(** The counter of an epoch is one more than the number of its records. *)
Lemma tally_lookup e infos :
  tally epoch infos !! e =
    if decide (occurrences e infos = 0%nat) then None else Some (1 + Z.of_nat (occurrences e infos)).
Proof.
  induction infos as [|i infos IH] using rev_ind; [done|].
  unfold tally, occurrences in *. rewrite foldl_snoc, filter_app, length_app.
  set (m := foldl _ _ infos) in *. clearbody m. cbn beta zeta.
  rewrite filter_cons, filter_nil.
  destruct (_ <? _) eqn:Ew.
  { rewrite (decide_False (P := observed i /\ _)) by (unfold observed; lia).
    simpl. by rewrite Nat.add_0_r. }
  assert (observed i) as Hobs by (unfold observed; lia).
  destruct (decide (Infraction.Epoch i = e)) as [<-|Hne].
  - rewrite (decide_True (P := observed i /\ _)) by done. simpl. rewrite decide_False by lia.
    rewrite IH. destruct (decide _) as [E0|E0].
    + rewrite !lookup_insert_eq. simpl. f_equal. lia.
    + rewrite lookup_insert_eq. rewrite IH. simpl. f_equal. lia.
  - rewrite (decide_False (P := observed i /\ _)) by naive_solver. simpl. rewrite Nat.add_0_r.
    rewrite lookup_insert_ne by done.
    destruct (m !! Infraction.Epoch i); [done|]. by rewrite lookup_insert_ne.
Qed.
End Tally.

Lemma violations_size limit (m : gmap Z Z) :
  violations limit m = Z.of_nat (size (filter (fun ec => limit <= ec.2) m)).
Proof.
  unfold violations. induction m as [|e c m Hn Hf IH] using map_first_key_ind; [done|].
  rewrite map_fold_insert_first_key by done. rewrite IH.
  destruct (_ <=? _) eqn:E.
  - rewrite map_filter_insert_True by (simpl; lia).
    rewrite map_size_insert_None; [lia|]. apply map_lookup_filter_None. by left.
  - rewrite map_filter_insert_False by (simpl; lia). by rewrite delete_id.
Qed.

(** The epochs with at least [n] records in the window of observation. *)
Definition busy_epochs (epoch : Z) (n : nat) (infos : list Infraction.info) : gset Z :=
  list_to_set (filter (fun e => (n <= occurrences epoch e infos)%nat)
    (Infraction.Epoch <$> infos)).

Lemma occurrences_elem epoch e infos :
  occurrences epoch e infos <> 0%nat -> e ∈ Infraction.Epoch <$> infos.
Proof.
  unfold occurrences. intros Hn. apply list_elem_of_fmap.
  destruct (filter _ infos) as [|i l] eqn:E; [done|].
  assert (i ∈ i :: l) as Hi by constructor. rewrite <- E in Hi.
  apply list_elem_of_filter in Hi. naive_solver.
Qed.

Lemma violations_tally limit epoch infos :
  0 <= limit ->
  violations limit (tally epoch infos) =
    Z.of_nat (size (busy_epochs epoch (Nat.max 1 (Z.to_nat (limit - 1))) infos)).
Proof.
  intros Hl. rewrite violations_size, <- (size_dom (D := gset Z)). do 2 f_equal.
  apply set_eq. intros e. unfold busy_epochs.
  rewrite elem_of_dom, elem_of_list_to_set, list_elem_of_filter.
  split.
  - intros [c [Hc Hle]%map_lookup_filter_Some]. rewrite tally_lookup in Hc.
    destruct (decide _) as [|Hn]; [done|]. simplify_eq/=.
    split; [lia|]. by eapply occurrences_elem.
  - intros [Hn _]. eexists. apply map_lookup_filter_Some.
    rewrite tally_lookup, decide_False by lia. split; [done|]. simpl. lia.
Qed.

(** The points left after phase-out, and when none are left. *)
Definition phase_bounds (curEpoch : Z) : Z * Z :=
  (curEpoch - PhaseOutEpochCount, Z.max 0 (curEpoch - WipeOutEpochCount)).

Lemma sum_weight_range one two full half infos :
  two <= one -> 0 < half <= full ->
  Z.of_nat (length (filter (fun i => two <= Infraction.Epoch i) infos)) <=
    sum_of (weight one two full half) infos <= full * Z.of_nat (length infos).
Proof.
  intros Hle Hp. induction infos as [|i infos IH]; [simpl; lia|].
  rewrite sum_of_cons, filter_cons. unfold weight at 1 3.
  destruct (one <=? _) eqn:E1; [|destruct (two <=? _) eqn:E2];
    destruct (decide _); cbn [length]; lia.
Qed.

Section PhaseOutSpec.
Context (ds : DelegateStat.t) (curEpoch : Z).
Context (Hepoch : PhaseOutEpochCount < curEpoch < 2 ^ 32).
Let inf := DelegateStat.Infractions ds.

Definition kept_infos (infos : list Infraction.info) : list Infraction.info :=
  filter (fun i => snd (phase_bounds curEpoch) <= Infraction.Epoch i) infos.
Definition left_pts (full half : Z) (infos : list Infraction.info) : Z :=
  sum_of (weight (fst (phase_bounds curEpoch)) (snd (phase_bounds curEpoch)) full half) infos.

Lemma phase_bounds_u32 :
  u32 (curEpoch - PhaseOutEpochCount) = fst (phase_bounds curEpoch) /\
  (if WipeOutEpochCount <=? curEpoch then u32 (curEpoch - WipeOutEpochCount) else 0) =
    snd (phase_bounds curEpoch).
Proof.
  unfold phase_bounds, u32, WipeOutEpochCount, PhaseOutEpochCount in *. simpl.
  split; [|destruct (_ <=? _) eqn:E]; try rewrite Z.mod_small; lia.
Qed.

Lemma PhaseOut_eq :
  DelegateStat.PhaseOut curEpoch ds =
  ds <| DelegateStat.Infractions := Infraction.mk
          (phased (kept_infos (Infraction.Info (Infraction.MissingLeaders inf))))
          (phased (kept_infos (Infraction.Info (Infraction.MissingProposers inf))))
          (phased (kept_infos (Infraction.Info (Infraction.MissingVoters inf))))
          (phased (kept_infos (Infraction.Info (Infraction.DoubleSigners inf)))) |>
     <| DelegateStat.TotalPts := u64
          (left_pts MissingLeaderPts PhaseOutLeaderPts
             (Infraction.Info (Infraction.MissingLeaders inf)) +
           left_pts MissingProposerPts PhaseOutProposerPts
             (Infraction.Info (Infraction.MissingProposers inf)) +
           left_pts MissingVoterPts PhaseOutVoterPts
             (Infraction.Info (Infraction.MissingVoters inf)) +
           left_pts DoubleSignPts PhaseOutDoubleSignPts
             (Infraction.Info (Infraction.DoubleSigners inf))) |>.
Proof using Hepoch.
  unfold DelegateStat.PhaseOut. destruct (curEpoch <=? _) eqn:E; [lia|].
  destruct phase_bounds_u32 as [-> ->].
  assert (snd (phase_bounds curEpoch) <= fst (phase_bounds curEpoch)).
  { unfold phase_bounds, WipeOutEpochCount, PhaseOutEpochCount in *. simpl. lia. }
  rewrite !phase_loop_spec by done. fold inf. by rewrite u64_add4.
Qed.

End PhaseOutSpec.

Definition all_infos (i : Infraction.t) : list Infraction.info :=
  Infraction.Info (Infraction.MissingLeaders i) ++ Infraction.Info (Infraction.MissingProposers i)
  ++ Infraction.Info (Infraction.MissingVoters i) ++ Infraction.Info (Infraction.DoubleSigners i).

Lemma left_pts_range curEpoch full half infos :
  PhaseOutEpochCount < curEpoch -> 0 < half <= full ->
  Z.of_nat (length (kept_infos curEpoch infos)) <= left_pts curEpoch full half infos
    <= full * Z.of_nat (length infos).
Proof.
  intros He Hp. apply sum_weight_range; [|done].
  unfold phase_bounds, WipeOutEpochCount, PhaseOutEpochCount in *. simpl. lia.
Qed.

(** Phase-out at epoch [cur] keeps exactly the records of the last eight
    epochs, in order, for each of the four kinds; the delegate is left with no
    points exactly when no record is left (so [DelegateStatHandler] drops a
    delegate's statistics only when nothing is held against it), and the
    points never exceed the full points of the records.  It holds as long as
    there are fewer than 2^50 records, where the uint64 sums cannot wrap. *)
Theorem phaseout_keeps_recent ds cur :
  PhaseOutEpochCount < cur < 2 ^ 32 ->
  Z.of_nat (length (all_infos (DelegateStat.Infractions ds))) < 2 ^ 50 ->
  let ds' := DelegateStat.PhaseOut cur ds in
  all_infos (DelegateStat.Infractions ds') =
    filter (fun i => Z.max 0 (cur - 8) <= Infraction.Epoch i)
      (all_infos (DelegateStat.Infractions ds)) /\
  (DelegateStat.TotalPts ds' = 0 <-> all_infos (DelegateStat.Infractions ds') = []) /\
  DelegateStat.TotalPts ds' <=
    DoubleSignPts * Z.of_nat (length (all_infos (DelegateStat.Infractions ds))).
Proof.
  intros He Hlen ds'. unfold ds'. rewrite PhaseOut_eq by done. unfold all_infos in *. simpl.
  rewrite !length_app in Hlen. rewrite !length_app.
  set (L := Infraction.Info (Infraction.MissingLeaders _)) in *.
  set (P := Infraction.Info (Infraction.MissingProposers _)) in *.
  set (V := Infraction.Info (Infraction.MissingVoters _)) in *.
  set (D := Infraction.Info (Infraction.DoubleSigners _)) in *.
  pose proof (left_pts_range cur MissingLeaderPts PhaseOutLeaderPts L ltac:(lia) ltac:(done)).
  pose proof (left_pts_range cur MissingProposerPts PhaseOutProposerPts P ltac:(lia) ltac:(done)).
  pose proof (left_pts_range cur MissingVoterPts PhaseOutVoterPts V ltac:(lia) ltac:(done)).
  pose proof (left_pts_range cur DoubleSignPts PhaseOutDoubleSignPts D ltac:(lia) ltac:(done)).
  unfold MissingLeaderPts, MissingProposerPts, MissingVoterPts, DoubleSignPts in *.
  unfold u64. rewrite Z.mod_small by lia.
  split; [|split; [split|]].
  - rewrite !filter_app. done.
  - intros Hz. rewrite <- length_zero_iff_nil, !length_app. lia.
  - rewrite !app_nil. intros (HL & HP & HV & HD).
    assert (forall full half infos, kept_infos cur infos = [] -> left_pts cur full half infos = 0)
      as Hz; [|rewrite !Hz by done; lia].
    intros full half infos Hk. unfold left_pts, kept_infos in *.
    apply sum_of_zero. intros i Hi.
    assert (~ snd (phase_bounds cur) <= Infraction.Epoch i) as Hn.
    { intros Hle. assert (i ∈ @nil Infraction.info) as Hi0; [|by apply elem_of_nil in Hi0].
      rewrite <- Hk. by apply list_elem_of_filter. }
    unfold weight, phase_bounds, WipeOutEpochCount, PhaseOutEpochCount in *. simpl in *.
    repeat case_match; lia.
  - lia.
Qed.

Definition sample_stat : DelegateStat.t :=
  DelegateStat.mk 7 "n" "k" 0 (Infraction.mk
    (Infraction.mkCount 2 [Infraction.mkInfo 3 1; Infraction.mkInfo 12 1])
    (Infraction.mkCount 3 [Infraction.mkInfo 19 4; Infraction.mkInfo 19 5; Infraction.mkInfo 20 6])
    Infraction.none Infraction.none).

Lemma phaseout_keeps_recent_witness :
  let ds' := DelegateStat.PhaseOut 20 sample_stat in
  DelegateStat.TotalPts ds' = 560 /\ (DelegateStat.TotalPts ds' = 0 <->
    all_infos (DelegateStat.Infractions ds') = []).
Proof.
  split; [vm_compute; reflexivity|].
  apply (phaseout_keeps_recent sample_stat 20); vm_compute; [split|]; reflexivity.
Defined.

(** The three violation counts are the number of epochs in the window of
    observation with at least two missing-proposer records, at least one
    missing-leader record and at least one double-sign record.  The counter
    starts from 1 before the first record is added, so the limits 3 and 2 of
    the constants are met by 2 and 1 records. *)
Theorem violation_counts ds epoch :
  let inf := DelegateStat.Infractions ds in
  DelegateStat.CountMissingProposerViolation epoch ds = Z.of_nat (size
    (busy_epochs epoch 2 (Infraction.Info (Infraction.MissingProposers inf)))) /\
  DelegateStat.CountMissingLeaderViolation epoch ds = Z.of_nat (size
    (busy_epochs epoch 1 (Infraction.Info (Infraction.MissingLeaders inf)))) /\
  DelegateStat.CountDoubleSignViolation epoch ds = Z.of_nat (size
    (busy_epochs epoch 1 (Infraction.Info (Infraction.DoubleSigners inf)))).
Proof. split; [|split]; by apply violations_tally. Qed.
