(* ===== verification/State.v ===== *)
(** * The world state seen by the native modules

    [state/account.go], [state/state.go], [state/script_state.go],
    [state/se_cache.go], [builtin/params/params.go] and the supply records of
    [builtin/metertracker/meter_tracker.go].  The state is what the accessors
    read: the accounts, the list kept in each storage slot of the modules, the
    parameters, the supply trackers, and the script-engine cache, which is not
    part of the journal.  A checkpoint is a copy of everything but the cache
    and the error (StackedMap shows that the journal restores it exactly). *)

From S2P Require Import Prelude KeyedList ChainParam StakingTypes AuctionTypes Stats.

(** [Master], [CodeHash] and [StorageRoot] are byte slices that are empty or
    hold one address or hash; the empty slice is [None]. *)
Module Account.
Record t := mk {
  Balance : Z; Energy : Z; BoundBalance : Z; BoundEnergy : Z;
  Master : option Address; CodeHash : option Bytes32; StorageRoot : option Bytes32
}.
#[global] Instance eta : Settable t := fun a =>
  mk (Balance a) (Energy a) (BoundBalance a) (BoundEnergy a) (Master a) (CodeHash a)
     (StorageRoot a).
Definition emptyAccount : t := mk 0 0 0 0 None None None.
(** An account that only holds tokens. *)
Definition holding (balance energy boundBalance boundEnergy : Z) : t :=
  mk balance energy boundBalance boundEnergy None None None.
Definition CalcEnergy (a : t) : Z := Energy a.
Definition absent {A} (o : option A) : bool := match o with None => true | Some _ => false end.
Definition IsEmpty (a : t) : bool :=
  (Balance a =? 0) && (Energy a =? 0) && (BoundBalance a =? 0) && (BoundEnergy a =? 0)
  && absent (Master a) && absent (CodeHash a) && absent (StorageRoot a).
End Account.

(** [builtin/prototype/types.go]: what a contract lets one user spend, and the
    plan that credits and restores it. *)
Module CreditPlan.
Record t := mk { Credit : Z; RecoveryRate : Z }.
Definition IsEmpty (u : t) : bool := (Credit u =? 0) && (RecoveryRate u =? 0).
Definition zero : t := mk 0 0.
End CreditPlan.
Module UserObject.
Record t := mk { UsedCredit : Z; BlockTime : Z }.
Definition IsEmpty (u : t) : bool := (UsedCredit u =? 0) && (BlockTime u =? 0).
Definition zero : t := mk 0 0.
End UserObject.

(** [initialSupply], [MeterTotalAddSub] and [MeterGovTotalAddSub] of one
    tracker address. *)
Module Supply.
Record t := mk {
  InitMeterGov : Z; InitMeter : Z;
  GovTotalAdd : Z; GovTotalSub : Z;
  MeterTotalAdd : Z; MeterTotalSub : Z
}.
#[global] Instance eta : Settable t := fun s =>
  mk (InitMeterGov s) (InitMeter s) (GovTotalAdd s) (GovTotalSub s)
     (MeterTotalAdd s) (MeterTotalSub s).
Definition zero : t := mk 0 0 0 0 0 0.
End Supply.

(** What RLP can encode: a big integer must not be negative. *)
Class Rlp (A : Type) := encodable : A -> bool.
Definition is_uint (z : Z) : bool := 0 <=? z.
#[global] Instance rlp_Z : Rlp Z := is_uint.
#[global] Instance rlp_list {A} `{Rlp A} : Rlp (list A) := forallb encodable.
#[global] Instance rlp_bucket : Rlp Bucket.t := fun b =>
  is_uint (Bucket.Value b) && is_uint (Bucket.TotalVotes b).
#[global] Instance rlp_candidate : Rlp Candidate.t := fun c => is_uint (Candidate.TotalVotes c).
#[global] Instance rlp_stakeholder : Rlp Stakeholder.t := fun s =>
  is_uint (Stakeholder.TotalStake s).
#[global] Instance rlp_injail : Rlp InJail.t := fun j => is_uint (InJail.BailAmount j).
#[global] Instance rlp_stat : Rlp DelegateStat.t := fun _ => true.
#[global] Instance rlp_delegate : Rlp Delegate.t := fun d => is_uint (Delegate.VotingPower d).
#[global] Instance rlp_rinfo : Rlp RewardInfo.t := fun r => is_uint (RewardInfo.Amount r).
#[global] Instance rlp_reward : Rlp ValidatorReward.t := fun r =>
  is_uint (ValidatorReward.BaseReward r) && is_uint (ValidatorReward.TotalReward r)
  && encodable (ValidatorReward.Rewards r).
#[global] Instance rlp_profile : Rlp Profile.t := fun p =>
  is_uint (Profile.MeterAmount p) && is_uint (Profile.MeterGovAmount p).
#[global] Instance rlp_atx : Rlp AuctionTx.t := fun a => is_uint (AuctionTx.Amount a).
#[global] Instance rlp_cb : Rlp AuctionCB.t := fun c =>
  is_uint (AuctionCB.RlsdMTRG c) && is_uint (AuctionCB.RsvdMTRG c)
  && is_uint (AuctionCB.RsvdPrice c) && is_uint (AuctionCB.RcvdMTR c)
  && encodable (AuctionCB.AuctionTxs c).
#[global] Instance rlp_dist : Rlp DistMtrg.t := fun d => is_uint (DistMtrg.Amount d).
#[global] Instance rlp_summary : Rlp AuctionSummary.t := fun s =>
  is_uint (AuctionSummary.RlsdMTRG s) && is_uint (AuctionSummary.RsvdMTRG s)
  && is_uint (AuctionSummary.RsvdPrice s) && is_uint (AuctionSummary.RcvdMTR s)
  && is_uint (AuctionSummary.ActualPrice s) && is_uint (AuctionSummary.LeftoverMTRG s)
  && encodable (AuctionSummary.AuctionTxs s) && encodable (AuctionSummary.DistMTRG s).

Module State.
Record t := mk {
  accounts : gmap Address Account.t;
  profiles : ProfileList.t;
  candidates : CandidateList.t;
  stakeholders : StakeholderList.t;
  buckets : BucketList.t;
  delegates : list Delegate.t;
  delegateStats : DelegateStatList.t;
  statisticsEpoch : Z;
  inJails : InJailList.t;
  validatorRewards : list ValidatorReward.t;
  storedCB : AuctionCB.t;
  storedSummaries : list AuctionSummary.t;
  params : gmap Bytes32 Z;
  trackers : gmap Address Supply.t;
  codes : gmap Address string;
  storage : gmap (Address * Bytes32) Bytes32;
  users : gmap (Address * Address) UserObject.t;
  creditPlans : gmap Address CreditPlan.t;
  sponsors : gmap (Address * Address) bool;
  curSponsors : gmap Address Address;
  cachedCB : option AuctionCB.t;
  cachedSummaries : option (list AuctionSummary.t);
  err : bool
}.
#[global] Instance eta : Settable t := fun s =>
  mk (accounts s) (profiles s) (candidates s) (stakeholders s) (buckets s) (delegates s)
     (delegateStats s) (statisticsEpoch s) (inJails s) (validatorRewards s) (storedCB s)
     (storedSummaries s) (params s) (trackers s) (codes s) (storage s) (users s) (creditPlans s)
     (sponsors s) (curSponsors s) (cachedCB s) (cachedSummaries s) (err s).

Definition New : t :=
  mk ∅ [] [] [] [] [] [] 0 [] [] AuctionCB.empty [] ∅ ∅ ∅ ∅ ∅ ∅ ∅ ∅ None None false.

Definition setError (s : t) : t := s <| err := true |>.

(** ** Accounts *)

Definition getAccount (s : t) (addr : Address) : Account.t :=
  default Account.emptyAccount (accounts s !! addr).
Definition updateAccount (addr : Address) (acc : Account.t) (s : t) : t :=
  s <| accounts ::= <[addr := acc]> |>.

Definition GetBalance (s : t) (addr : Address) : Z := Account.Balance (getAccount s addr).
Definition SetBalance (addr : Address) (balance : Z) (s : t) : t :=
  updateAccount addr (getAccount s addr <| Account.Balance := balance |>) s.
Definition GetEnergy (s : t) (addr : Address) : Z := Account.CalcEnergy (getAccount s addr).
Definition SetEnergy (addr : Address) (energy : Z) (s : t) : t :=
  updateAccount addr (getAccount s addr <| Account.Energy := energy |>) s.
Definition GetBoundedBalance (s : t) (addr : Address) : Z :=
  Account.BoundBalance (getAccount s addr).
Definition SetBoundedBalance (addr : Address) (balance : Z) (s : t) : t :=
  updateAccount addr (getAccount s addr <| Account.BoundBalance := balance |>) s.
Definition GetBoundedEnergy (s : t) (addr : Address) : Z :=
  Account.BoundEnergy (getAccount s addr).
Definition SetBoundedEnergy (addr : Address) (energy : Z) (s : t) : t :=
  updateAccount addr (getAccount s addr <| Account.BoundEnergy := energy |>) s.

Definition SubBalance (addr : Address) (amount : Z) (s : t) : t * bool :=
  if amount =? 0 then (s, true)
  else let balance := GetBalance s addr in
    if balance <? amount then (s, false) else (SetBalance addr (balance - amount) s, true).
Definition AddBalance (addr : Address) (amount : Z) (s : t) : t :=
  if amount =? 0 then s else SetBalance addr (GetBalance s addr + amount) s.
Definition SubEnergy (addr : Address) (amount : Z) (s : t) : t * bool :=
  if amount =? 0 then (s, true)
  else let balance := GetEnergy s addr in
    if balance <? amount then (s, false) else (SetEnergy addr (balance - amount) s, true).
Definition AddEnergy (addr : Address) (amount : Z) (s : t) : t :=
  if amount =? 0 then s else SetEnergy addr (GetEnergy s addr + amount) s.
Definition SubBoundedBalance (addr : Address) (amount : Z) (s : t) : t * bool :=
  if amount =? 0 then (s, true)
  else let balance := GetBoundedBalance s addr in
    if balance <? amount then (s, false) else (SetBoundedBalance addr (balance - amount) s, true).
Definition AddBoundedBalance (addr : Address) (amount : Z) (s : t) : t :=
  if amount =? 0 then s else SetBoundedBalance addr (GetBoundedBalance s addr + amount) s.
Definition SubBoundedEnergy (addr : Address) (amount : Z) (s : t) : t * bool :=
  if amount =? 0 then (s, true)
  else let balance := GetBoundedEnergy s addr in
    if balance <? amount then (s, false) else (SetBoundedEnergy addr (balance - amount) s, true).
Definition AddBoundedEnergy (addr : Address) (amount : Z) (s : t) : t :=
  if amount =? 0 then s else SetBoundedEnergy addr (GetBoundedEnergy s addr + amount) s.
Definition Exists (s : t) (addr : Address) : bool := negb (Account.IsEmpty (getAccount s addr)).

(** ** Contracts: masters, code and storage words *)

Definition GetMaster (s : t) (addr : Address) : Address :=
  default ZeroAddress (Account.Master (getAccount s addr)).
Definition SetMaster (addr master : Address) (s : t) : t :=
  updateAccount addr (getAccount s addr
    <| Account.Master := if master =? ZeroAddress then None else Some master |>) s.
Definition GetCode (s : t) (addr : Address) : string := default "" (codes s !! addr).
Definition GetCodeHash (s : t) (addr : Address) : Bytes32 :=
  default 0 (Account.CodeHash (getAccount s addr)).
(** [keccak] is the hash of go-ethereum's crypto package. *)
Definition SetCode (keccak : string -> Bytes32) (addr : Address) (code : string) (s : t) : t :=
  let codeHash := if (0 <? String.length code)%nat then Some (keccak code) else None in
  let s := s <| codes ::= <[addr := code]> |> in
  updateAccount addr (getAccount s addr <| Account.CodeHash := codeHash |>) s.
Definition Delete (addr : Address) (s : t) : t :=
  updateAccount addr Account.emptyAccount (s <| codes ::= <[addr := ""]> |>).

(** A contract's storage word; the slots the native code fills with records
    are the fields of the state. *)
Definition GetStorage (s : t) (addr : Address) (key : Bytes32) : Bytes32 :=
  default 0 (storage s !! (addr, key)).
Definition SetStorage (addr : Address) (key value : Bytes32) (s : t) : t :=
  s <| storage ::= <[(addr, key) := value]> |>.

(** ** The lists of the modules

    Reading decodes the stored list and sorts it; writing encodes it, and
    leaves the slot as it was, with the error set, when it cannot be encoded. *)

Definition EncodeStorage (ok : bool) (write : t -> t) (s : t) : t :=
  if ok then write s else setError s.

Definition GetProfileList (s : t) : ProfileList.t := ProfileList.NewProfileList (profiles s).
Definition SetProfileList (l : ProfileList.t) : t -> t :=
  EncodeStorage (encodable l) (fun s => s <| profiles := l |>).
Definition GetCandidateList (s : t) : CandidateList.t :=
  CandidateList.NewCandidateList (candidates s).
Definition SetCandidateList (l : CandidateList.t) : t -> t :=
  EncodeStorage (encodable l) (fun s => s <| candidates := l |>).
Definition GetStakeHolderList (s : t) : StakeholderList.t :=
  StakeholderList.NewStakeholderList (stakeholders s).
Definition SetStakeHolderList (l : StakeholderList.t) : t -> t :=
  EncodeStorage (encodable l) (fun s => s <| stakeholders := l |>).
Definition GetBucketList `{Hashing} (s : t) : BucketList.t := BucketList.NewBucketList (buckets s).
Definition SetBucketList (l : BucketList.t) : t -> t :=
  EncodeStorage (encodable l) (fun s => s <| buckets := l |>).
Definition GetDelegateList (s : t) : list Delegate.t := delegates s.
Definition SetDelegateList (l : list Delegate.t) : t -> t :=
  EncodeStorage (encodable l) (fun s => s <| delegates := l |>).
Definition GetDelegateStatList (s : t) : DelegateStatList.t :=
  DelegateStatList.NewDelegateStatList (delegateStats s).
Definition SetDelegateStatList (l : DelegateStatList.t) : t -> t :=
  EncodeStorage (encodable l) (fun s => s <| delegateStats := l |>).
Definition GetStatisticsEpoch (s : t) : Z := statisticsEpoch s.
Definition SetStatisticsEpoch (phaseOutEpoch : Z) : t -> t :=
  EncodeStorage true (fun s => s <| statisticsEpoch := phaseOutEpoch |>).
Definition GetInJailList (s : t) : InJailList.t := InJailList.NewInJailList (inJails s).
Definition SetInJailList (l : InJailList.t) : t -> t :=
  EncodeStorage (encodable l) (fun s => s <| inJails := l |>).
Definition GetValidatorRewardList (s : t) : list ValidatorReward.t := validatorRewards s.
Definition SetValidatorRewardList (l : list ValidatorReward.t) : t -> t :=
  EncodeStorage (encodable l) (fun s => s <| validatorRewards := l |>).

(** ** The script-engine cache

    [GetAuctionCB] hands out the cached block itself, so what a caller changes
    in it is in the cache whether or not [SetAuctionCB] follows. *)

Definition GetAuctionCB (s : t) : AuctionCB.t * t :=
  match cachedCB s with
  | Some cb => (cb, s)
  | None => (storedCB s, s <| cachedCB := Some (storedCB s) |>)
  end.
Definition SetAuctionCB (cb : AuctionCB.t) (s : t) : t := s <| cachedCB := Some cb |>.
Definition GetSummaryList (s : t) : list AuctionSummary.t * t :=
  match cachedSummaries s with
  | Some l => (l, s)
  | None => (storedSummaries s, s <| cachedSummaries := Some (storedSummaries s) |>)
  end.
Definition SetSummaryList (l : list AuctionSummary.t) (s : t) : t :=
  s <| cachedSummaries := Some l |>.

Definition CommitScriptEngineChanges (s : t) : t :=
  let s := match cachedCB s with
    | Some cb => EncodeStorage (encodable cb) (fun s => s <| storedCB := cb |>) s
    | None => s
    end in
  match cachedSummaries s with
  | Some l => EncodeStorage (encodable l) (fun s => s <| storedSummaries := l |>) s
  | None => s
  end.

(** ** Checkpoints *)

Definition NewCheckpoint (s : t) : t := s.
Definition RevertTo (revision : t) (s : t) : t :=
  revision <| cachedCB := cachedCB s |> <| cachedSummaries := cachedSummaries s |>
           <| err := err s |>.

(** ** Parameters and supply records *)

Definition Params_Get (s : t) (key : Bytes32) : Z := default 0 (params s !! key).
Definition Params_Set (key : Bytes32) (value : Z) : t -> t :=
  EncodeStorage (is_uint value) (fun s => s <| params ::= <[key := value]> |>).
Definition supply (s : t) (tracker : Address) : Supply.t :=
  default Supply.zero (trackers s !! tracker).
Definition set_supply (tracker : Address) (r : Supply.t) (s : t) : t :=
  s <| trackers ::= <[tracker := r]> |>.
End State.

(** ** Totals over the accounts *)

Import State.

Definition total (f : Account.t -> Z) (s : State.t) : Z :=
  sum_of (fun kv => f (snd kv)) (map_to_list (accounts s)).

(** All MTRG and all MTR in the accounts, spendable and bounded. *)
Definition mtrg_of (a : Account.t) : Z := Account.Balance a + Account.BoundBalance a.
Definition mtr_of (a : Account.t) : Z := Account.Energy a + Account.BoundEnergy a.
Definition total_mtrg : State.t -> Z := total mtrg_of.
Definition total_mtr : State.t -> Z := total mtr_of.

Lemma getAccount_update s a acc b :
  getAccount (updateAccount a acc s) b = if decide (a = b) then acc else getAccount s b.
Proof.
  unfold getAccount, updateAccount. simpl. unfold update_field. simpl.
  destruct (decide (a = b)) as [->|Hne]; [by rewrite lookup_insert_eq|].
  by rewrite lookup_insert_ne.
Qed.

Lemma getAccount_update_eq s a acc : getAccount (updateAccount a acc s) a = acc.
Proof. rewrite getAccount_update. by destruct (decide _). Qed.

Lemma getAccount_update_ne s a acc b :
  a <> b -> getAccount (updateAccount a acc s) b = getAccount s b.
Proof. rewrite getAccount_update. by destruct (decide _). Qed.

Lemma total_update f s a acc :
  f Account.emptyAccount = 0 ->
  total f (updateAccount a acc s) = total f s - f (getAccount s a) + f acc.
Proof.
  intros Hf. unfold total, getAccount, updateAccount. simpl.
  rewrite <- insert_delete_eq, map_to_list_insert by apply lookup_delete_eq.
  rewrite sum_of_cons. simpl.
  destruct (accounts s !! a) as [old|] eqn:E; simpl.
  - rewrite <- (insert_delete_id (accounts s) a old E) at 2.
    rewrite map_to_list_insert by apply lookup_delete_eq. rewrite sum_of_cons. simpl. lia.
  - rewrite delete_id by done. lia.
Qed.

Lemma total_mtrg_update s a acc :
  total_mtrg (updateAccount a acc s) = total_mtrg s - mtrg_of (getAccount s a) + mtrg_of acc.
Proof. by apply total_update. Qed.

Lemma total_mtr_update s a acc :
  total_mtr (updateAccount a acc s) = total_mtr s - mtr_of (getAccount s a) + mtr_of acc.
Proof. by apply total_update. Qed.

(** The slots other than the accounts do not move the totals. *)
Lemma total_slot f s s' : accounts s' = accounts s -> total f s' = total f s.
Proof. unfold total. by intros ->. Qed.

Lemma accounts_EncodeStorage ok w s :
  accounts (w s) = accounts s -> accounts (EncodeStorage ok w s) = accounts s.
Proof. by destruct ok. Qed.

(** The account updates as updates of one field. *)
Section Fields.
Context (s : State.t) (a : Address) (v : Z).
Lemma Balance_SetBalance b :
  GetBalance (SetBalance a v s) b = if decide (a = b) then v else GetBalance s b.
Proof.
  unfold GetBalance, SetBalance. rewrite getAccount_update. by destruct (decide _).
Qed.
Lemma Bounded_SetBalance b : GetBoundedBalance (SetBalance a v s) b = GetBoundedBalance s b.
Proof.
  unfold GetBoundedBalance, SetBalance. rewrite getAccount_update.
  by destruct (decide _) as [->|].
Qed.
Lemma Balance_SetBounded b : GetBalance (SetBoundedBalance a v s) b = GetBalance s b.
Proof.
  unfold GetBalance, SetBoundedBalance. rewrite getAccount_update.
  by destruct (decide _) as [->|].
Qed.
Lemma Bounded_SetBounded b :
  GetBoundedBalance (SetBoundedBalance a v s) b =
    if decide (a = b) then v else GetBoundedBalance s b.
Proof.
  unfold GetBoundedBalance, SetBoundedBalance. rewrite getAccount_update.
  by destruct (decide _).
Qed.
Lemma Energy_SetEnergy b :
  GetEnergy (SetEnergy a v s) b = if decide (a = b) then v else GetEnergy s b.
Proof.
  unfold GetEnergy, SetEnergy. rewrite getAccount_update. by destruct (decide _).
Qed.
Lemma Energy_SetBalance b : GetEnergy (SetBalance a v s) b = GetEnergy s b.
Proof.
  unfold GetEnergy, SetBalance. rewrite getAccount_update. by destruct (decide _) as [->|].
Qed.
Lemma Balance_SetEnergy b : GetBalance (SetEnergy a v s) b = GetBalance s b.
Proof.
  unfold GetBalance, SetEnergy. rewrite getAccount_update. by destruct (decide _) as [->|].
Qed.
Lemma Bounded_SetEnergy b : GetBoundedBalance (SetEnergy a v s) b = GetBoundedBalance s b.
Proof.
  unfold GetBoundedBalance, SetEnergy. rewrite getAccount_update. by destruct (decide _) as [->|].
Qed.

Lemma mtrg_SetBalance : total_mtrg (SetBalance a v s) = total_mtrg s - GetBalance s a + v.
Proof. unfold SetBalance. rewrite total_mtrg_update. unfold mtrg_of, GetBalance. simpl. lia. Qed.
Lemma mtrg_SetBounded :
  total_mtrg (SetBoundedBalance a v s) = total_mtrg s - GetBoundedBalance s a + v.
Proof.
  unfold SetBoundedBalance. rewrite total_mtrg_update.
  unfold mtrg_of, GetBoundedBalance. simpl. lia.
Qed.
Lemma mtrg_SetEnergy : total_mtrg (SetEnergy a v s) = total_mtrg s.
Proof. unfold SetEnergy. rewrite total_mtrg_update. unfold mtrg_of. simpl. lia. Qed.
Lemma mtrg_SetBoundedEnergy : total_mtrg (SetBoundedEnergy a v s) = total_mtrg s.
Proof. unfold SetBoundedEnergy. rewrite total_mtrg_update. unfold mtrg_of. simpl. lia. Qed.
Lemma mtr_SetEnergy : total_mtr (SetEnergy a v s) = total_mtr s - GetEnergy s a + v.
Proof.
  unfold SetEnergy. rewrite total_mtr_update.
  unfold mtr_of, GetEnergy, Account.CalcEnergy. simpl. lia.
Qed.
Lemma mtr_SetBoundedEnergy :
  total_mtr (SetBoundedEnergy a v s) = total_mtr s - GetBoundedEnergy s a + v.
Proof.
  unfold SetBoundedEnergy. rewrite total_mtr_update.
  unfold mtr_of, GetBoundedEnergy. simpl. lia.
Qed.
Lemma mtr_SetBalance : total_mtr (SetBalance a v s) = total_mtr s.
Proof. unfold SetBalance. rewrite total_mtr_update. unfold mtr_of. simpl. lia. Qed.
Lemma mtr_SetBounded : total_mtr (SetBoundedBalance a v s) = total_mtr s.
Proof. unfold SetBoundedBalance. rewrite total_mtr_update. unfold mtr_of. simpl. lia. Qed.
End Fields.

Lemma RevertTo_self s : State.RevertTo s s = s.
Proof. by destruct s. Qed.

Create Rewrite HintDb state.
#[export] Hint Rewrite Balance_SetBalance Bounded_SetBalance Balance_SetBounded
  Bounded_SetBounded Energy_SetEnergy Energy_SetBalance Balance_SetEnergy Bounded_SetEnergy
  mtrg_SetBalance mtrg_SetBounded mtrg_SetEnergy mtrg_SetBoundedEnergy
  mtr_SetEnergy mtr_SetBoundedEnergy mtr_SetBalance mtr_SetBounded : state.
