(* ===== verification/Prototype.v ===== *)
(** * The prototype of contracts: users, credits and sponsors

    [builtin/prototype/prototype.go] and [builtin/prototype/types.go]: a
    contract can credit its users with MTR for gas, restore the credit over
    time, and name a sponsor that pays in its place.  The storage keys are
    hashes of the addresses; a record is kept here under the addresses. *)

From S2P Require Import Prelude KeyedList ChainParam StakingTypes AuctionTypes Stats State.

Module Binding.
Section Binding.
Context (self : Address).
Implicit Types (s : State.t) (user sponsor : Address) (blockTime : Z).

Definition Credit (u : UserObject.t) (plan : CreditPlan.t) blockTime : Z :=
  if UserObject.UsedCredit u =? 0 then CreditPlan.Credit plan
  else
    let used :=
      if blockTime <=? UserObject.BlockTime u then UserObject.UsedCredit u
      else UserObject.UsedCredit u
           - (blockTime - UserObject.BlockTime u) * CreditPlan.RecoveryRate plan in
    if used <=? 0 then CreditPlan.Credit plan
    else if CreditPlan.Credit plan <=? used then 0
    else CreditPlan.Credit plan - used.

(** An empty record is stored as no bytes, which reads back as the zero one. *)
Definition getUserObject s user : UserObject.t :=
  default UserObject.zero (State.users s !! (self, user)).
Definition setUserObject user (uo : UserObject.t) : State.t -> State.t :=
  State.EncodeStorage (UserObject.IsEmpty uo || is_uint (UserObject.UsedCredit uo))
    (fun s => s <| State.users ::= <[(self, user) := uo]> |>).
Definition getCreditPlan s : CreditPlan.t :=
  default CreditPlan.zero (State.creditPlans s !! self).
Definition setCreditPlan (cp : CreditPlan.t) : State.t -> State.t :=
  State.EncodeStorage
    (CreditPlan.IsEmpty cp || (is_uint (CreditPlan.Credit cp) && is_uint (CreditPlan.RecoveryRate cp)))
    (fun s => s <| State.creditPlans ::= <[self := cp]> |>).

Definition IsUser s user : bool := negb (UserObject.IsEmpty (getUserObject s user)).
Definition AddUser user blockTime : State.t -> State.t :=
  setUserObject user (UserObject.mk 0 blockTime).
Definition RemoveUser user : State.t -> State.t := setUserObject user UserObject.zero.

Definition UserCredit s user blockTime : Z :=
  let uo := getUserObject s user in
  if UserObject.IsEmpty uo then 0 else Credit uo (getCreditPlan s) blockTime.

Definition SetUserCredit user (credit : Z) blockTime s : State.t :=
  let up := getCreditPlan s in
  let used := CreditPlan.Credit up - credit in
  let used := if used <? 0 then 0 else used in
  setUserObject user (UserObject.mk used blockTime) s.

Definition SetCreditPlan (credit recoveryRate : Z) : State.t -> State.t :=
  setCreditPlan (CreditPlan.mk credit recoveryRate).

Definition Sponsor sponsor (flag : bool) : State.t -> State.t :=
  State.EncodeStorage true (fun s => s <| State.sponsors ::= <[(self, sponsor) := flag]> |>).
Definition IsSponsor s sponsor : bool := default false (State.sponsors s !! (self, sponsor)).
Definition SelectSponsor sponsor s : State.t :=
  s <| State.curSponsors ::= <[self := sponsor]> |>.
Definition CurrentSponsor s : Address := default ZeroAddress (State.curSponsors s !! self).
End Binding.
End Binding.
Import Binding.

(** ** What the credit records do to the rest of the state *)

Lemma SetUserCredit_accounts self user c t s :
  State.accounts (SetUserCredit self user c t s) = State.accounts s.
Proof. unfold SetUserCredit, setUserObject. by apply accounts_EncodeStorage. Qed.

Lemma UserCredit_SetUserCredit self user c t s now :
  0 <= c <= CreditPlan.Credit (getCreditPlan self s) ->
  0 <= CreditPlan.RecoveryRate (getCreditPlan self s) -> 0 < t ->
  UserCredit self (SetUserCredit self user c t s) user now =
    Z.min (CreditPlan.Credit (getCreditPlan self s))
          (c + Z.max 0 (now - t) * CreditPlan.RecoveryRate (getCreditPlan self s)).
Proof.
  intros Hc Hr Ht. unfold SetUserCredit. set (plan := getCreditPlan self s) in *.
  destruct (Z.ltb_spec (CreditPlan.Credit plan - c) 0); [lia|].
  unfold setUserObject. cbn [UserObject.UsedCredit].
  assert (is_uint (CreditPlan.Credit plan - c) = true) as -> by (unfold is_uint; lia).
  rewrite orb_true_r. unfold UserCredit, getUserObject, State.EncodeStorage. simpl.
  unfold update_field; simpl. rewrite lookup_insert_eq. simpl.
  change (getCreditPlan self (State.mk _ _ _ _ _ _ _ _ _ _ _ _ _ _ _ _ _ _ _ _ _ _ _)) with plan.
  unfold UserObject.IsEmpty, Credit. cbn [UserObject.UsedCredit UserObject.BlockTime].
  destruct (Z.eqb_spec t 0); [lia|]. rewrite andb_false_r.
  destruct (Z.eqb_spec (CreditPlan.Credit plan - c) 0); [nia|].
  destruct (Z.leb_spec now t); repeat case_match; nia.
Qed.

(** A credit that is set within the plan reads back as set, and then
    recovers linearly with the plan's rate up to the plan's credit. *)
Theorem user_credit_roundtrip self user credit blockTime s now :
  let plan := getCreditPlan self s in
  0 <= credit <= CreditPlan.Credit plan -> 0 <= CreditPlan.RecoveryRate plan -> 0 < blockTime ->
  let s' := SetUserCredit self user credit blockTime s in
  UserCredit self s' user blockTime = credit /\
  UserCredit self s' user now =
    Z.min (CreditPlan.Credit plan) (credit + Z.max 0 (now - blockTime) * CreditPlan.RecoveryRate plan).
Proof.
  intros plan Hc Hr Ht s'. split; [|by apply UserCredit_SetUserCredit].
  subst s'. rewrite UserCredit_SetUserCredit by done. fold plan. nia.
Qed.

Lemma user_credit_roundtrip_witness :
  let s := SetCreditPlan 9 100 3 State.New in
  UserCredit 9 (SetUserCredit 9 5 40 1000 s) 5 1010 = 70.
Proof.
  intros s. apply (user_credit_roundtrip 9 5 40 1000 s 1010); vm_compute; repeat split; discriminate.
Defined.
