(* ===== verification/ScriptEnv.v ===== *)
(** * The environment of a script clause

    [script/types/script_env.go], [script/types/script_env_staking.go] and
    [script/types/script_env_auction.go]: the state with the block and
    transaction context, the transfers and events the clause emits, and the
    moves of MTR and MTRG the handlers use.  An event is kept as its name and
    arguments; its ABI encoding is not modelled. *)

From S2P Require Import Prelude KeyedList ChainParam StakingTypes AuctionTypes Stats State.

Module Transfer.
Record t := mk { Sender : Address; Recipient : Address; Amount : Z; Token : Z }.
End Transfer.

Inductive event :=
  | Bound (owner : Address) (amount token : Z)
  | Unbound (owner : Address) (amount token : Z)
  | NativeBucketOpen (owner : Address) (bucketID : Bytes32) (amount token : Z)
  | NativeBucketClose (owner : Address) (bucketID : Bytes32)
  | NativeBucketDeposit (owner : Address) (bucketID : Bytes32) (amount token : Z)
  | NativeBucketWithdraw (owner : Address) (fromBucketID : Bytes32) (amount token : Z)
      (recipient : Address) (newBucketID : Bytes32)
  | NativeBucketUpdateCandidate (owner : Address) (bucketID : Bytes32) (from to : Address)
  | NativeAuctionStart (id : Bytes32) (startHeight endHeight mtrgOnAuction reservedPrice : Z)
  | NativeAuctionEnd (id : Bytes32) (receivedMTR releasedMTRG actualPrice : Z).

Module ScriptEnv.
Record t := mk {
  state : State.t;
  blockNum : Z;
  blockTime : Z;
  txOrigin : Address;
  txNonce : Z;
  txCounter : Z;
  txHash : Bytes32;
  clauseIndex : Z;
  returnData : string;
  transfers : list Transfer.t;
  events : list (Address * event)
}.
#[global] Instance eta : Settable t := fun e =>
  mk (state e) (blockNum e) (blockTime e) (txOrigin e) (txNonce e) (txCounter e) (txHash e)
     (clauseIndex e) (returnData e) (transfers e) (events e).

Definition NewScriptEnv (s : State.t) (num time origin nonce counter hash index : Z) : t :=
  mk s num time origin nonce counter hash index "" [] [].

Definition SetReturnData (data : string) (env : t) : t := env <| returnData := data |>.
Definition AddTransfer (sender recipient : Address) (amount token : Z) (env : t) : t :=
  env <| transfers ::= fun l => l ++ [Transfer.mk sender recipient amount token] |>.
Definition AddEvent (addr : Address) (e : event) (env : t) : t :=
  env <| events ::= fun l => l ++ [(addr, e)] |>.

Definition AddNativeAuctionStart (id : Bytes32) (startHeight endHeight mtrg price : Z) : t -> t :=
  AddEvent AuctionModuleAddr (NativeAuctionStart id startHeight endHeight mtrg price).
Definition AddNativeAuctionEnd (id : Bytes32) (received released price : Z) : t -> t :=
  AddEvent AuctionModuleAddr (NativeAuctionEnd id received released price).
Definition AddNativeBucketUpdateCandidate (owner : Address) (id : Bytes32)
    (from to : Address) : t -> t :=
  AddEvent StakingModuleAddr (NativeBucketUpdateCandidate owner id from to).
Definition AddNativeBucketOpenEvent (owner : Address) (id : Bytes32) (amount token : Z) : t -> t :=
  AddEvent StakingModuleAddr (NativeBucketOpen owner id amount token).
Definition AddNativeBucketCloseEvent (owner : Address) (id : Bytes32) : t -> t :=
  AddEvent StakingModuleAddr (NativeBucketClose owner id).
Definition AddNativeBucketDepositEvent (owner : Address) (id : Bytes32) (amount token : Z) : t -> t :=
  AddEvent StakingModuleAddr (NativeBucketDeposit owner id amount token).
Definition AddNativeBucketWithdrawEvent (owner : Address) (from : Bytes32) (amount token : Z)
    (recipient : Address) (new : Bytes32) : t -> t :=
  AddEvent StakingModuleAddr (NativeBucketWithdraw owner from amount token recipient new).

Definition on_state (f : State.t -> State.t) (env : t) : t := env <| state ::= f |>.

(** ** Moves of MTR and MTRG: the environment after the call, and the error. *)

Definition BoundAccountMeter (addr : Address) (amount : Z) (env : t) : t * option string :=
  if amount =? 0 then (env, None)
  else
    let meterBalance := State.GetEnergy (state env) addr in
    let meterBounded := State.GetBoundedEnergy (state env) addr in
    if meterBalance <? amount then (env, Some "not enough meter balance")
    else
      let env := on_state (State.SetEnergy addr (meterBalance - amount)) env in
      let env := on_state (State.SetBoundedEnergy addr (meterBounded + amount)) env in
      (AddEvent StakingModuleAddr (Bound addr amount MTR) env, None).

Definition UnboundAccountMeter (addr : Address) (amount : Z) (env : t) : t * option string :=
  if amount =? 0 then (env, None)
  else
    let meterBalance := State.GetEnergy (state env) addr in
    let meterBounded := State.GetBoundedEnergy (state env) addr in
    if meterBounded <? amount then (env, Some "not enough bounded meter balance")
    else
      let env := on_state (State.SetEnergy addr (meterBalance + amount)) env in
      let env := on_state (State.SetBoundedEnergy addr (meterBounded - amount)) env in
      (AddEvent StakingModuleAddr (Unbound addr amount MTR) env, None).

Definition BoundAccountMeterGov (addr : Address) (amount : Z) (env : t) : t * option string :=
  if amount =? 0 then (env, None)
  else
    let meterGov := State.GetBalance (state env) addr in
    let meterGovBounded := State.GetBoundedBalance (state env) addr in
    if meterGov <? amount then (env, Some "not enough meter-gov balance")
    else
      let env := on_state (State.SetBalance addr (meterGov - amount)) env in
      let env := on_state (State.SetBoundedBalance addr (meterGovBounded + amount)) env in
      (AddEvent StakingModuleAddr (Bound addr amount MTRG) env, None).

Definition UnboundAccountMeterGov (addr : Address) (amount : Z) (env : t) : t * option string :=
  if amount =? 0 then (env, None)
  else
    let meterGov := State.GetBalance (state env) addr in
    let meterGovBounded := State.GetBoundedBalance (state env) addr in
    if meterGovBounded <? amount then (env, Some "not enough bounded meter-gov balance")
    else
      let env := on_state (State.SetBalance addr (meterGov + amount)) env in
      let env := on_state (State.SetBoundedBalance addr (meterGovBounded - amount)) env in
      (AddEvent StakingModuleAddr (Unbound addr amount MTRG) env, None).

Definition CollectBailMeterGov (addr : Address) (amount : Z) (env : t) : t * option string :=
  if amount =? 0 then (env, None)
  else if State.GetBalance (state env) addr <? amount
  then (env, Some "not enough meter-gov balance")
  else
    let env := on_state (fun s => fst (State.SubBalance addr amount s)) env in
    let env := on_state (State.AddBalance StakingModuleAddr amount) env in
    (AddTransfer addr StakingModuleAddr amount MTRG env, None).

(** The common shape of the four MTR transfers. *)
Definition move_mtr (from to : Address) (amount : Z) (msg : string) (env : t)
    : t * option string :=
  if amount =? 0 then (env, None)
  else if State.GetEnergy (state env) from <? amount then (env, Some msg)
  else
    let env := on_state (fun s => fst (State.SubEnergy from amount s)) env in
    let env := on_state (State.AddEnergy to amount) env in
    (AddTransfer from to amount MTR env, None).

Definition TransferValidatorReward (amount : Z) (addr : Address) : t -> t * option string :=
  move_mtr ValidatorBenefitAddr addr amount "not enough meter in validator benefit addr".
Definition TransferAutobidMTRToAuction (addr : Address) (amount : Z) : t -> t * option string :=
  move_mtr ValidatorBenefitAddr AuctionModuleAddr amount
    "not enough meter balance in validator benefit address".
Definition TransferMTRToAuction (addr : Address) (amount : Z) : t -> t * option string :=
  move_mtr addr AuctionModuleAddr amount "not enough meter".
Definition TransferMTRToValidatorBenefit (amount : Z) : t -> t * option string :=
  move_mtr AuctionModuleAddr ValidatorBenefitAddr amount "not enough meter".

(** The loop ignores the error of each transfer and adds the amount anyway. *)
Definition DistValidatorRewards (rinfo : list RewardInfo.t) (env : t) : t * Z :=
  foldl (fun (acc : t * Z) r =>
    let (env, sum) := acc in
    let (env, _) := TransferValidatorReward (RewardInfo.Amount r) (RewardInfo.Address_ r) env in
    (env, sum + RewardInfo.Amount r)) (env, 0) rinfo.
End ScriptEnv.
