(* ===== verification/StakingUtils.v ===== *)
(** * Staking: messages, checks and corrections

    [script/staking/staking_body.go], [script/staking/op.go],
    [script/staking/utils.go] and [validatePubKey] of
    [script/staking/handler.go]: the body of a staking clause, the checks on a
    candidate's own votes, the bonus of a bucket, and the corrections applied
    once at a fork. *)

From S2P Require Import Prelude Text KeyedList ChainParam StakingTypes AuctionTypes Stats State.

Definition OP_BOUND : Z := 1.
Definition OP_UNBOUND : Z := 2.
Definition OP_CANDIDATE : Z := 3.
Definition OP_UNCANDIDATE : Z := 4.
Definition OP_DELEGATE : Z := 5.
Definition OP_UNDELEGATE : Z := 6.
Definition OP_CANDIDATE_UPDT : Z := 7.
Definition OP_BUCKET_UPDT : Z := 8.
Definition OP_DELEGATE_STATISTICS : Z := 101.
Definition OP_DELEGATE_EXITJAIL : Z := 102.
Definition OP_FLUSH_ALL_STATISTICS : Z := 103.
Definition OP_GOVERNING : Z := 10001.

Definition errInvalidPubkey : string := "invalid public key".
Definition errInvalidIpAddress : string := "invalid ip address".
Definition errInvalidPort : string := "invalid port number".
Definition errInvalidToken : string := "invalid token".
Definition errInvalidParams : string := "invalid params".
Definition errBucketNotFound : string := "bucket not found".
Definition errBucketOwnerMismatch : string := "bucket owner mismatch".
Definition errBucketAmountMismatch : string := "bucket amount mismatch".
Definition errBucketTokenMismatch : string := "bucket token mismatch".
Definition errBucketInUse : string := "bucket in used (address is not zero)".
Definition errUpdateForeverBucket : string := "can't update forever bucket".
Definition errBucketAlreadyUnbounded : string := "bucket already unbounded".
Definition errLessThanMinimalBalance : string := "amount less than minimal balance (2000 MTRG)".
Definition errLessThanMinBoundBalance : string := "amount less than minimal balance (100 MTRG)".
Definition errNotEnoughMTRG : string := "not enough MTRG".
Definition errCandidateNotListed : string := "candidate address is not listed".
Definition errCandidateInJail : string := "candidate address is in jail".
Definition errPubKeyListed : string := "candidate with the same pubkey already listed".
Definition errIPListed : string := "candidate with the same ip already listed".
Definition errNameListed : string := "candidate with the same name already listed".
Definition errCandidateListed : string := "candidate info already listed".
Definition errUpdateTooFrequent : string := "update too frequent".
Definition errCandidateListedWithDiffInfo : string :=
  "candidate address already listed with different infomation (pubkey, ip, port)".
Definition errCandidateNotChanged : string := "candidate not changed".
Definition errCandidateNotEnoughSelfVotes : string :=
  "candidate's accumulated votes > 100x candidate's own vote".

Module StakingBody.
Record t := mk {
  Opcode : Z;
  Version : Z;
  Option : Z;
  HolderAddr : Address;
  CandAddr : Address;
  CandName : string;
  CandDescription : string;
  CandPubKey : string;
  CandIP : string;
  CandPort : Z;
  StakingID : Bytes32;
  Amount : Z;
  Token : Z;
  Autobid : Z;
  Timestamp : Z;
  Nonce : Z;
  ExtraData : string
}.
#[global] Instance eta : Settable t := fun b =>
  mk (Opcode b) (Version b) (Option b) (HolderAddr b) (CandAddr b) (CandName b)
     (CandDescription b) (CandPubKey b) (CandIP b) (CandPort b) (StakingID b) (Amount b)
     (Token b) (Autobid b) (Timestamp b) (Nonce b) (ExtraData b).
End StakingBody.

(** What the handlers take from RLP and from the secp256k1 library. *)
Class StakingCodec : Type := {
  decode_StakingBody : string -> option StakingBody.t;
  UnpackBytesToInfraction : string -> option Infraction.t;
  decode_RewardInfoV2s : string -> option (list RewardInfoV2.t);
  decode_RewardInfos : string -> option (list RewardInfo.t);
  UnmarshalPubkey : string -> bool
}.

(** ** A candidate's own votes *)

Fixpoint candidate_bucket (c : Candidate.t) (bl : BucketList.t) (ids : list Bytes32)
    : outcome (option Bucket.t) :=
  match ids with
  | [] => Ret None
  | id :: rest =>
    b ← deref (BucketList.Get bl id);
    if (Bucket.Owner b =? Candidate.Addr c) && (Bucket.Candidate b =? Candidate.Addr c)
       && (Bucket.Option b =? FOREVER_LOCK)
    then Ret (Some b) else candidate_bucket c bl rest
  end.
(** [None] is the error "not found". *)
Definition GetCandidateBucket (c : Candidate.t) (bl : BucketList.t) : outcome (option Bucket.t) :=
  candidate_bucket c bl (Candidate.Buckets c).

Fixpoint self_buckets (c : Candidate.t) (bl : BucketList.t) (ids : list Bytes32)
    : outcome (list Bucket.t) :=
  match ids with
  | [] => Ret []
  | id :: rest =>
    b ← deref (BucketList.Get bl id);
    self ← self_buckets c bl rest;
    if (Bucket.Owner b =? Candidate.Addr c) && (Bucket.Candidate b =? Candidate.Addr c)
    then Ret (b :: self) else Ret self
  end.
Definition GetCandidateSelfBuckets (c : Candidate.t) (bl : BucketList.t)
    : outcome (option (list Bucket.t)) :=
  self ← self_buckets c bl (Candidate.Buckets c);
  match self with [] => Ret None | _ => Ret (Some self) end.

(** A subtraction that stops at 0. *)
Definition sub_floor (x : Z) (sub : option Z) : Z :=
  match sub with
  | None => x
  | Some d => if d <? x then x - d else 0
  end.
Definition add_opt (x : Z) (add : option Z) : Z := x + default 0 add.

Definition is_self (addr : Address) (b : Bucket.t) : bool :=
  (Bucket.Owner b =? addr) && (Bucket.Candidate b =? addr) && Bucket.IsForeverLock b.

(** The candidate may be nil, which is dereferenced for the first bucket. *)
Definition CorrectCheckEnoughSelfVotes (c : option Candidate.t) (bl : BucketList.t)
    (selfVoteRatio : Z) (addSelfValue subSelfValue addTotalValue subTotalValue : option Z)
    : outcome bool :=
  sums ← match bl, c with
    | [], _ => Ret (0, 0)
    | _, None => Panic
    | _, Some c =>
      Ret (sum_of (fun b => if is_self (Candidate.Addr c) b then Bucket.Value b else 0) bl,
           sum_of (fun b => if Bucket.Candidate b =? Candidate.Addr c then Bucket.Value b else 0) bl)
    end;
  let selfValue := sub_floor (add_opt (fst sums) addSelfValue) subSelfValue in
  let totalValue := sub_floor (add_opt (snd sums) addTotalValue) subTotalValue in
  limitSelfTotalValue ← big_div totalValue selfVoteRatio;
  Ret (limitSelfTotalValue <=? selfValue).

Definition CheckCandEnoughSelfVotes (newVotes : Z) (c : Candidate.t) (bl : BucketList.t)
    (selfVoteRatio : Z) : outcome bool :=
  bkts ← GetCandidateSelfBuckets c bl;
  match bkts with
  | None => Ret false
  | Some bkts =>
    let self := sum_of Bucket.TotalVotes bkts in
    total ← big_div (Candidate.TotalVotes c + newVotes) selfVoteRatio;
    Ret (negb (self <? total))
  end.

Definition CheckEnoughSelfVotes (subVotes : Z) (c : Candidate.t) (bl : BucketList.t)
    (selfVoteRatio : Z) : outcome bool :=
  bkts ← GetCandidateSelfBuckets c bl;
  match bkts with
  | None => Ret false
  | Some bkts =>
    let selfTotal := sum_of Bucket.TotalVotes bkts - subVotes in
    limitMinTotal ← big_div (Candidate.TotalVotes c - subVotes) selfVoteRatio;
    Ret (negb (selfTotal <? limitMinTotal))
  end.

(** ** Bonus votes *)

Definition CalcBonus (fromTS toTS rate value : Z) : Z :=
  if toTS <? fromTS then 0
  else i64 (u64 (u64 (toTS - fromTS) * rate)) * value / (3600 * 24 * 365 * 100).

(** The bonus, and the bucket after the call. *)
Definition TouchBucketBonus (ts : Z) (bucket : Bucket.t) : Z * Bucket.t :=
  if ts <? Bucket.CalcLastTime bucket then (0, bucket)
  else
    let bonusDelta := CalcBonus (Bucket.CalcLastTime bucket) ts (Bucket.Rate bucket)
                        (Bucket.Value bucket) in
    (bonusDelta,
     bucket <| Bucket.BonusVotes ::= fun v => u64 (v + u64 (Z.abs bonusDelta)) |>
            <| Bucket.TotalVotes ::= fun v => v + bonusDelta |>
            <| Bucket.CalcLastTime := ts |>).

Definition InTimeSpan (ts now span : Z) : bool :=
  if now <=? ts then ts - now <=? span else now - ts <=? span.

(** ** Public keys *)

Section PubKey.
Context `{StakingCodec}.
Definition validatePubKey (comboPubKey : string) : option string :=
  let pubKey := TrimSuffix (Ascii.ascii_of_nat 10) comboPubKey in
  let pubKey := TrimSuffix (Ascii.ascii_of_nat 32) pubKey in
  match Split pubKey ":::" with
  | [ecdsa; bls] =>
    decoded ← b64_decode ecdsa;
    if UnmarshalPubkey decoded
    then match b64_decode bls with Some _ => Some pubKey | None => None end
    else None
  | _ => None
  end.
End PubKey.

(** ** Corrections applied at a fork *)

(** Add to the entry of a Go map, created at 0. *)
Definition accumulate (k : Address) (v : Z) (m : gmap Address Z) : gmap Address Z :=
  <[k := default 0 (m !! k) + v]> m.

(** Get the stakeholder or create it, and add the bucket to it. *)
Definition add_to_stakeholder (owner : Address) (bucket : Bucket.t) (l : StakeholderList.t)
    : StakeholderList.t :=
  match StakeholderList.Get l owner with
  | None => StakeholderList.Add l
      (Stakeholder.AddBucket bucket (Stakeholder.NewStakeholder owner))
  | Some _ => Modify (Stakeholder.AddBucket bucket) l owner
  end.

Section Corrections.
Context `{Hashing}.

Definition DoTeslaFork1_Correction (bid : Bytes32) (owner : Address) (amount ts : Z)
    (s : State.t) : State.t :=
  let candidateList := State.GetCandidateList s in
  let bucketList := State.GetBucketList s in
  match BucketList.Get bucketList bid with
  | None => s
  | Some bucket =>
    if negb (Bucket.Owner bucket =? owner) then s
    else if Bucket.Value bucket <? amount then s
    else
      let (bonus, bucket) := TouchBucketBonus ts bucket in
      let bucket := bucket <| Bucket.Value ::= fun v => v - amount |>
                           <| Bucket.TotalVotes ::= fun v => v - amount |> in
      let bucketList := Modify (fun _ => bucket) bucketList bid in
      let candidateList :=
        if IsZero (Bucket.Candidate bucket) then candidateList
        else Modify (fun c => c <| Candidate.TotalVotes ::= fun v => v - amount + bonus |>)
               candidateList (Bucket.Candidate bucket) in
      State.SetCandidateList candidateList (State.SetBucketList bucketList s)
  end.

(** One bucket of the fork-5 loop, with its recomputed votes. *)
Definition recalc_votes (bkt : Bucket.t) : Bucket.t :=
  let ts := Bucket.CalcLastTime bkt in
  (if Bucket.CreateTime bkt <? ts then
     let totalBonus := CalcBonus (Bucket.CreateTime bkt) ts (Bucket.Rate bkt) (Bucket.Value bkt) in
     bkt <| Bucket.TotalVotes := Bucket.Value bkt + totalBonus |> <| Bucket.CalcLastTime := ts |>
   else
     bkt <| Bucket.TotalVotes := Bucket.Value bkt |> <| Bucket.CalcLastTime := ts |>)
  <| Bucket.BonusVotes := 0 |>.

Definition set_total_votes (candTotalVotes : gmap Address Z) (l : CandidateList.t)
    : CandidateList.t :=
  map_fold (fun addr totalVotes l =>
    match CandidateList.Get l addr with
    | Some _ => Modify (fun c => c <| Candidate.TotalVotes := totalVotes |>) l addr
    | None => l
    end) l candTotalVotes.

Definition DoTeslaFork5_BonusCorrection (s : State.t) : State.t :=
  let candidateList := State.GetCandidateList s in
  let bucketList := State.GetBucketList s in
  let stakeholderList :=
    foldl (fun l bkt => add_to_stakeholder (Bucket.Owner bkt) bkt l)
      (StakeholderList.NewStakeholderList []) bucketList in
  let bucketList := recalc_votes <$> bucketList in
  let candTotalVotes :=
    foldl (fun m bkt => accumulate (Bucket.Candidate bkt) (Bucket.TotalVotes bkt) m)
      ∅ bucketList in
  let candidateList := set_total_votes candTotalVotes candidateList in
  State.SetStakeHolderList stakeholderList
    (State.SetCandidateList candidateList (State.SetBucketList bucketList s)).

Definition candidateIncorrectAddrs : list Address :=
  [0xe3aa575d47e435468060e9f9bc488665bd9bc32a; 0x0f8684f6dc76617d6831b4546381eb6cfb1c559f].
Definition balanceIncorrectAddrs : list Address :=
  [0x5308b6f26f21238963d0ea0b391eafa9be53c78e; 0x0f8684f6dc76617d6831b4546381eb6cfb1c559f;
   0x16fb7dc58954fc1fa65318b752fc91f2824115b6; 0x353fdd79dd9a6fbc70a59178d602ad1f020ea52f].

Definition clean_summary (a : AuctionSummary.t) : AuctionSummary.t :=
  a <| AuctionSummary.AuctionTxs := [] |> <| AuctionSummary.DistMTRG := [] |>.

(** Every summary but the last is cleaned. *)
Definition clean_summaries (l : list AuctionSummary.t) : list AuctionSummary.t :=
  (clean_summary <$> take (length l - 1) l) ++ drop (length l - 1) l.

Definition fix_balance (address : Address) (bucketsValue : Z) (s : State.t) : State.t :=
  let boundedBalance := State.GetBoundedBalance s address in
  if bucketsValue <? boundedBalance then
    if bool_decide (address ∈ balanceIncorrectAddrs) then
      let diff := boundedBalance - bucketsValue in
      let newBalance := State.GetBalance s address + diff in
      State.SetBalance address newBalance (State.SetBoundedBalance address bucketsValue s)
    else s
  else s.

Definition DoTeslaFork6_StakingCorrection (s : State.t) : State.t :=
  let candidateList := State.GetCandidateList s in
  let bucketList := State.GetBucketList s in
  let candidateMappingTotalVotes :=
    foldl (fun m b => accumulate (Bucket.Candidate b) (Bucket.TotalVotes b) m) ∅ bucketList in
  let bucketMappingValue :=
    foldl (fun m b => accumulate (Bucket.Owner b) (Bucket.Value b) m) ∅ bucketList in
  let candidateList :=
    foldl (fun l candidate =>
      let addr := Candidate.Addr candidate in
      match candidateMappingTotalVotes !! addr with
      | Some bucketsValue =>
        if Candidate.TotalVotes candidate =? bucketsValue then l
        else if bool_decide (addr ∈ candidateIncorrectAddrs)
        then Modify (fun c => c <| Candidate.TotalVotes := bucketsValue |>) l addr
        else l
      | None => l
      end) candidateList candidateList in
  let s := State.SetCandidateList candidateList s in
  let s := map_fold fix_balance s bucketMappingValue in
  let (summaryList, s) := State.GetSummaryList s in
  State.SetSummaryList (clean_summaries summaryList) s.
End Corrections.
