(* ===== verification/StakingBooks.v ===== *)
(** * The staking books

    The invariant that ties the three staking lists and the accounts together:
    the lists are strictly sorted and bucket ids are the hashes they claim to
    be; a candidate lists exactly the buckets that vote for it and its votes
    are their sum; a stakeholder lists exactly the buckets it owns and its
    stake is their value; and the bounded MTRG of every account is the value
    of its buckets.  One lemma per kind of change says how it is kept. *)

From S2P Require Import Prelude KeyedList ChainParam StakingTypes Ledger AuctionTypes Stats State ScriptEnv StakingUtils.

Definition votes_for (a : Address) (bl : BucketList.t) : Z := group_total (E := Candidate.t) a bl.
Definition stake_of (a : Address) (bl : BucketList.t) : Z := group_total (E := Stakeholder.t) a bl.

Section Books.
Context `{Hashing}.
Implicit Types (cl : CandidateList.t) (bl : BucketList.t) (sl : StakeholderList.t)
  (b : Bucket.t) (bounded : Address -> Z).

Record bucket_ok b : Prop := {
  bo_id : Bucket.BucketID b = Bucket.ID b;
  bo_value : 0 <= Bucket.Value b <= Bucket.TotalVotes b;
  bo_token : Bucket.Token b = MTRG;
  bo_rate : 0 <= Bucket.Rate b < 2 ^ 8;
  bo_last : 0 <= Bucket.CalcLastTime b
}.

Record books_wf cl bl sl bounded : Prop := {
  bw_sorted : sorted bl;
  bw_bucket : forall id b, Get bl id = Some b -> bucket_ok b;
  bw_cands : ledger_ok cl bl;
  bw_holders : ledger_ok sl bl;
  bw_bounded : forall a, bounded a = stake_of a bl
}.

Lemma NewBucket_ok owner cand value token opt rate autobid create nonce :
  0 <= value -> token = MTRG -> 0 <= rate < 2 ^ 8 -> 0 <= create ->
  bucket_ok (Bucket.NewBucket owner cand value token opt rate autobid create nonce).
Proof. intros. split; simpl; done || lia. Qed.

(** ** Consequences *)

Lemma wf_elem cl bl sl bounded b : books_wf cl bl sl bounded -> b ∈ bl -> bucket_ok b.
Proof. intros [Hs Hb _ _ _] Hin. apply (Hb (key b)). by apply Get_Some. Qed.

Lemma wf_key cl bl sl bounded id b :
  books_wf cl bl sl bounded -> Get bl id = Some b -> Bucket.BucketID b = id.
Proof. intros Hw Hg. by apply Get_Some in Hg as [_ ?]; [|apply Hw]. Qed.

Lemma votes_nonneg cl bl sl bounded a : books_wf cl bl sl bounded -> 0 <= votes_for a bl.
Proof.
  intros Hw. apply sum_of_nonneg. intros b Hin. unfold share. simpl.
  pose proof (bo_value _ (wf_elem _ _ _ _ _ Hw Hin)). case_match; lia.
Qed.

Lemma stake_nonneg cl bl sl bounded a : books_wf cl bl sl bounded -> 0 <= stake_of a bl.
Proof.
  intros Hw. apply sum_of_nonneg. intros b Hin. unfold share. simpl.
  pose proof (bo_value _ (wf_elem _ _ _ _ _ Hw Hin)). case_match; lia.
Qed.

Lemma share_le_total {E} `{Ledger E} bl id b k :
  sorted bl -> Get bl id = Some b -> (forall b, b ∈ bl -> 0 <= weigh (E := E) b) ->
  share (E := E) k b <= group_total (E := E) k bl.
Proof.
  intros Hs Hg Hn. unfold group_total.
  rewrite (sum_of_perm _ _ _ (Remove_perm bl id b Hs Hg)), sum_of_cons.
  assert (0 <= sum_of (share (E := E) k) (Remove bl id)); [|lia].
  apply sum_of_nonneg. intros b1 [Hin _]%elem_of_Remove; [|done].
  unfold share. case_match; [|lia]. by apply Hn.
Qed.

Lemma forallb_encodable {A} `{Rlp A} (l : list A) :
  (forall a, a ∈ l -> encodable a = true) -> encodable l = true.
Proof.
  intros Hl. unfold encodable, rlp_list. induction l as [|a l IH]; [done|].
  simpl. rewrite Hl by constructor. simpl. apply IH. intros. apply Hl. by constructor.
Qed.

Lemma wf_encodable cl bl sl bounded :
  books_wf cl bl sl bounded ->
  encodable cl = true /\ encodable bl = true /\ encodable sl = true.
Proof.
  intros Hw. split_and!; apply forallb_encodable; intros x Hin.
  - assert (Get cl (key x) = Some x) as Hg by (apply Get_Some; [apply Hw|done]).
    pose proof (eo_tally _ _ (lo_entry _ _ (bw_cands _ _ _ _ Hw) _ _ Hg)) as Ht. simpl in Ht.
    pose proof (votes_nonneg _ _ _ _ (key x) Hw). unfold votes_for in *.
    unfold encodable, rlp_candidate, is_uint. lia.
  - pose proof (bo_value _ (wf_elem _ _ _ _ _ Hw Hin)).
    unfold encodable, rlp_bucket, is_uint. lia.
  - assert (Get sl (key x) = Some x) as Hg by (apply Get_Some; [apply Hw|done]).
    pose proof (eo_tally _ _ (lo_entry _ _ (bw_holders _ _ _ _ Hw) _ _ Hg)) as Ht. simpl in Ht.
    pose proof (stake_nonneg _ _ _ _ (key x) Hw). unfold stake_of in *.
    unfold encodable, rlp_stakeholder, is_uint. lia.
Qed.

Lemma wf_ext cl bl sl f g :
  (forall a, f a = g a) -> books_wf cl bl sl f -> books_wf cl bl sl g.
Proof. intros Hfg [? ? ? ? Hb]. split; try done. intros a. by rewrite <- Hfg. Qed.

Lemma owner_share a b :
  share (E := Stakeholder.t) a b = if a =? Bucket.Owner b then Bucket.Value b else 0.
Proof. unfold share. simpl. by rewrite Z.eqb_sym. Qed.

Lemma stake_Modify bl id b b' a :
  sorted bl -> Get bl id = Some b ->
  stake_of a (Modify (fun _ => b') bl id) =
    stake_of a bl - share (E := Stakeholder.t) a b + share (E := Stakeholder.t) a b'.
Proof. intros Hs Hg. unfold stake_of, group_total. by rewrite (sum_of_Modify _ _ _ _ b). Qed.

(** ** A change of fields that carry neither votes nor value *)

Section Change.
Context (cl : CandidateList.t) (bl : BucketList.t) (sl : StakeholderList.t)
  (bounded : Address -> Z) (id : Bytes32) (b b' : Bucket.t).
Context (Hw : books_wf cl bl sl bounded) (Hb : Get bl id = Some b).
Context (Hid : Bucket.BucketID b' = id) (Hok : bucket_ok b').

Lemma bucket_ok_Modify :
  forall id' b1, Get (Modify (fun _ => b') bl id) id' = Some b1 -> bucket_ok b1.
Proof using Hw Hb Hid Hok.
  intros id' b1. rewrite Get_Modify; [|apply Hw|done].
  destruct (decide (id' = id)); [|apply Hw]. rewrite Hb. simpl. by intros [= <-].
Qed.

Lemma wf_neutral :
  Bucket.Owner b' = Bucket.Owner b -> Bucket.Candidate b' = Bucket.Candidate b ->
  Bucket.Value b' = Bucket.Value b -> Bucket.TotalVotes b' = Bucket.TotalVotes b ->
  books_wf cl (Modify (fun _ => b') bl id) sl bounded.
Proof using Hw Hb Hid Hok.
  intros Ho Hc Hv Ht. pose proof Hw as [Hs _ Hcl Hsl Hbd]. split.
  - by apply Modify_sorted.
  - apply bucket_ok_Modify.
  - by apply (ledger_neutral bl cl id b b').
  - by apply (ledger_neutral bl sl id b b').
  - intros a. rewrite (stake_Modify _ _ b), Hbd by done.
    unfold share. simpl. rewrite Ho, Hv. lia.
Qed.

(** Votes added to a bucket and to its candidate. *)
Lemma wf_bonus d :
  Bucket.Owner b' = Bucket.Owner b -> Bucket.Candidate b' = Bucket.Candidate b ->
  Bucket.Value b' = Bucket.Value b -> Bucket.TotalVotes b' = Bucket.TotalVotes b + d ->
  books_wf (Modify (fun c => c <| Candidate.TotalVotes ::= fun v => v + d |>) cl
              (Bucket.Candidate b))
    (Modify (fun _ => b') bl id) sl bounded.
Proof using Hw Hb Hid Hok.
  intros Ho Hc Hv Ht. pose proof Hw as [Hs _ Hcl Hsl Hbd]. split.
  - by apply Modify_sorted.
  - apply bucket_ok_Modify.
  - pose proof (ledger_reweigh (E := Candidate.t) bl cl id b b' Hs Hcl Hb Hid Hc) as Hl.
    apply Hl. intros c _. split_and!; try done. simpl. rewrite Ht. lia.
  - by apply (ledger_neutral bl sl id b b').
  - intros a. rewrite (stake_Modify _ _ b), Hbd by done.
    unfold share. simpl. rewrite Ho, Hv. lia.
Qed.

(** Value and votes added to a bucket, its candidate and its owner. *)
Lemma wf_deposit d :
  Bucket.Owner b' = Bucket.Owner b -> Bucket.Candidate b' = Bucket.Candidate b ->
  Bucket.Value b' = Bucket.Value b + d -> Bucket.TotalVotes b' = Bucket.TotalVotes b + d ->
  books_wf
    (Modify (fun c => c <| Candidate.TotalVotes ::= fun v => v + d |>) cl (Bucket.Candidate b))
    (Modify (fun _ => b') bl id)
    (Modify (fun h => h <| Stakeholder.TotalStake ::= fun v => v + d |>) sl (Bucket.Owner b))
    (fun a => if a =? Bucket.Owner b then bounded a + d else bounded a).
Proof using Hw Hb Hid Hok.
  intros Ho Hc Hv Ht. pose proof Hw as [Hs _ Hcl Hsl Hbd]. split.
  - by apply Modify_sorted.
  - apply bucket_ok_Modify.
  - pose proof (ledger_reweigh (E := Candidate.t) bl cl id b b' Hs Hcl Hb Hid Hc) as Hl.
    apply Hl. intros c _. split_and!; try done. simpl. rewrite Ht. lia.
  - pose proof (ledger_reweigh (E := Stakeholder.t) bl sl id b b' Hs Hsl Hb Hid Ho) as Hl.
    apply Hl. intros h _. split_and!; try done. simpl. rewrite Hv. lia.
  - intros a. rewrite (stake_Modify _ _ b), Hbd by done.
    unfold share. simpl. rewrite Ho, Hv. rewrite (Z.eqb_sym a). case_match; lia.
Qed.

(** A vote given: the bucket had no candidate. *)
Lemma wf_join :
  Bucket.Owner b' = Bucket.Owner b -> Bucket.Value b' = Bucket.Value b ->
  Bucket.Candidate b = ZeroAddress -> is_Some (Get cl (Bucket.Candidate b')) ->
  books_wf (Modify (Candidate.AddBucket b') cl (Bucket.Candidate b'))
    (Modify (fun _ => b') bl id) sl bounded.
Proof using Hw Hb Hid Hok.
  intros Ho Hv Hz Hl. pose proof Hw as [Hs _ Hcl Hsl Hbd]. split.
  - by apply Modify_sorted.
  - apply bucket_ok_Modify.
  - rewrite (Modify_Remove_Add _ _ b) by done.
    apply (ledger_enroll (HL := candidate_ledger) (Remove bl id) cl b').
    + by apply Remove_sorted.
    + by apply (ledger_expel_exempt bl cl id b).
    + rewrite Get_Remove by done. by rewrite decide_True.
    + done.
    + by intros c.
  - by apply (ledger_neutral bl sl id b b').
  - intros a. rewrite (stake_Modify _ _ b), Hbd by done.
    unfold share. simpl. rewrite Ho, Hv. lia.
Qed.

(** ** Taking a bucket off its candidate *)

Lemma votes_ge c :
  Get cl (Bucket.Candidate b) = Some c -> Bucket.TotalVotes b <= Candidate.TotalVotes c.
Proof using Hw Hb.
  intros Hg. pose proof (lo_entry _ _ (bw_cands _ _ _ _ Hw) _ _ Hg) as [_ _ Ht].
  simpl in Ht. rewrite Ht. pose proof (lo_sorted _ _ (bw_cands _ _ _ _ Hw)) as Hs.
  rewrite (Get_key _ _ _ Hs Hg).
  pose proof (share_same (E := Candidate.t) (Bucket.Candidate b) b eq_refl) as Hsh.
  simpl in Hsh. rewrite <- Hsh.
  apply (share_le_total bl id); [apply Hw|done|].
  intros b1 Hin. pose proof (bo_value _ (wf_elem _ _ _ _ _ Hw Hin)). simpl. lia.
Qed.

Lemma member_of_candidate c :
  Get cl (Bucket.Candidate b) = Some c -> id ∈ Candidate.Buckets c.
Proof using Hw Hb.
  intros Hg. pose proof (lo_entry _ _ (bw_cands _ _ _ _ Hw) _ _ Hg) as [_ Hm _].
  pose proof (lo_sorted _ _ (bw_cands _ _ _ _ Hw)) as Hs.
  apply Hm. exists b. by rewrite (Get_key _ _ _ Hs Hg).
Qed.

(** [RemoveBucket] of a listed bucket cuts it from the list and its votes from
    the total, which cannot go below zero. *)
Lemma RemoveBucket_spec c x :
  Get cl (Bucket.Candidate b) = Some c ->
  Bucket.BucketID x = id -> Bucket.TotalVotes x = Bucket.TotalVotes b ->
  let c' := Candidate.RemoveBucket x c in
  key c' = key c /\ Candidate.Buckets c ≡ₚ id :: Candidate.Buckets c' /\
  Candidate.TotalVotes c' = Candidate.TotalVotes c - Bucket.TotalVotes b.
Proof using Hw Hb.
  intros Hg Hx Ht. pose proof (votes_ge c Hg) as Hge.
  destruct (cut_first_elem _ _ (member_of_candidate c Hg)) as [rest Hcut].
  unfold Candidate.RemoveBucket. rewrite Hx, Hcut, Ht. simpl. split_and!; [done| |].
  - by apply cut_first_Some.
  - unfold update_field. simpl. destruct (_ <? _) eqn:E0; lia.
Qed.

Lemma wf_leave x :
  Bucket.Owner b' = Bucket.Owner b -> Bucket.Value b' = Bucket.Value b ->
  Bucket.Candidate b' = ZeroAddress -> is_Some (Get cl (Bucket.Candidate b)) ->
  Bucket.BucketID x = id -> Bucket.TotalVotes x = Bucket.TotalVotes b ->
  books_wf (Modify (Candidate.RemoveBucket x) cl (Bucket.Candidate b))
    (Modify (fun _ => b') bl id) sl bounded.
Proof using Hw Hb Hid Hok.
  intros Ho Hv Hz [c Hc] Hx Hxt. pose proof Hw as [Hs _ Hcl Hsl Hbd].
  destruct (RemoveBucket_spec c x Hc Hx Hxt) as (Hk & Hp & Ht). split.
  - by apply Modify_sorted.
  - apply bucket_ok_Modify.
  - rewrite (Modify_Remove_Add _ _ b) by done.
    apply (ledger_enroll_exempt (HL := candidate_ledger) (Remove bl id) _ b').
    + by apply Remove_sorted.
    + assert (Modify (Candidate.RemoveBucket x) cl (Bucket.Candidate b) =
        Modify (fun _ => Candidate.RemoveBucket x c) cl (Bucket.Candidate b)) as ->.
      { pose proof (lo_sorted _ _ Hcl). rewrite !(Modify_Add _ _ _ c); try done.
        - rewrite Hk. by eapply (Get_key cl).
        - rewrite Hk. by eapply (Get_key cl). }
      by apply (ledger_expel (HL := candidate_ledger) bl cl id b Hs Hcl Hb c).
    + rewrite Get_Remove by done. by rewrite decide_True.
    + done.
  - by apply (ledger_neutral bl sl id b b').
  - intros a. rewrite (stake_Modify _ _ b), Hbd by done.
    unfold share. simpl. rewrite Ho, Hv. lia.
Qed.
End Change.

Lemma wf_candidate_info cl bl sl bounded a c c' :
  books_wf cl bl sl bounded -> Get cl a = Some c ->
  Candidate.Addr c' = Candidate.Addr c -> Candidate.Buckets c' = Candidate.Buckets c ->
  Candidate.TotalVotes c' = Candidate.TotalVotes c ->
  books_wf (Modify (fun _ => c') cl a) bl sl bounded.
Proof.
  intros [? ? Hcl ? ?] Hg Ha Hb Ht. split; try done. by apply (ledger_relabel bl cl a c).
Qed.

Lemma wf_drop_candidate cl bl sl bounded a c :
  books_wf cl bl sl bounded -> Get cl a = Some c -> Candidate.Buckets c = [] ->
  books_wf (Remove cl a) bl sl bounded.
Proof.
  intros [? ? Hcl ? ?] Hg Hb. split; try done. by apply (ledger_drop_empty bl cl a c).
Qed.

(** ** Opening a bucket *)

Lemma enroll_holder bl sl b :
  sorted bl -> ledger_ok sl bl -> Get bl (Bucket.BucketID b) = None ->
  ledger_ok (add_to_stakeholder (Bucket.Owner b) b sl) (Add bl b).
Proof.
  intros Hs Hsl Hnew. unfold add_to_stakeholder, StakeholderList.Get.
  destruct (Get sl (Bucket.Owner b)) as [h|] eqn:E.
  - pose proof (ledger_enroll (HL := stakeholder_ledger) bl sl b Hs Hsl Hnew) as Hl.
    apply Hl; [by eexists|]. by intros e.
  - pose proof (ledger_enroll_new (HL := stakeholder_ledger) bl sl b Hs Hsl Hnew) as Hl.
    apply Hl; try done. by intros [].
Qed.

(** Every list of buckets has its stakeholders. *)
Lemma holders_exist bl : sorted bl -> exists sl : StakeholderList.t, ledger_ok sl bl.
Proof.
  intros Hs. induction bl as [|b bl IH].
  - exists []. split; [constructor|done..].
  - pose proof Hs as [Hs' Hall]%StronglySorted_inv. destruct (IH Hs') as [sl Hsl].
    assert (Get bl (Bucket.BucketID b) = None) as Hn.
    { apply Get_None; [done|]. intros (b' & Hk & Hin)%list_elem_of_fmap.
      rewrite Forall_forall in Hall. specialize (Hall _ Hin).
      unfold key, Bucket.keyed in *. lia. }
    exists (add_to_stakeholder (Bucket.Owner b) b sl).
    assert (b :: bl = Add bl b) as ->; [|by apply enroll_holder].
    apply sorted_ext; [done|by apply Add_sorted|]. intros k.
    rewrite !Get_refines, Add_refines by (done || by apply Add_sorted). done.
Qed.

Section Open.
Context (cl : CandidateList.t) (bl : BucketList.t) (sl : StakeholderList.t)
  (bounded : Address -> Z) (b : Bucket.t).
Context (Hw : books_wf cl bl sl bounded) (Hnew : Get bl (Bucket.BucketID b) = None).
Context (Hok : bucket_ok b).

Definition bound_more (o : Address) (v : Z) : Address -> Z :=
  fun a => if a =? o then bounded a + v else bounded a.

Lemma bucket_ok_Add : forall id' b1, Get (Add bl b) id' = Some b1 -> bucket_ok b1.
Proof using Hw Hok.
  intros id' b1. rewrite Get_Add by apply Hw. case_decide; [by intros [= <-]|apply Hw].
Qed.

Lemma stake_Add a : bound_more (Bucket.Owner b) (Bucket.Value b) a = stake_of a (Add bl b).
Proof using Hw Hnew.
  unfold bound_more, stake_of, group_total. rewrite (bw_bounded _ _ _ _ Hw a).
  rewrite sum_of_Add_new; [|apply Hw|done].
  rewrite owner_share. unfold stake_of, group_total. case_match; lia.
Qed.

Lemma holders_open : ledger_ok (add_to_stakeholder (Bucket.Owner b) b sl) (Add bl b).
Proof using Hw Hnew. apply enroll_holder; [apply Hw|apply Hw|done]. Qed.

Lemma wf_open :
  Bucket.Candidate b = ZeroAddress \/ is_Some (Get cl (Bucket.Candidate b)) ->
  books_wf (Modify (Candidate.AddBucket b) cl (Bucket.Candidate b)) (Add bl b)
    (add_to_stakeholder (Bucket.Owner b) b sl) (bound_more (Bucket.Owner b) (Bucket.Value b)).
Proof using Hw Hnew Hok.
  intros Hc. pose proof Hw as [Hs _ Hcl _ _]. split.
  - by apply Add_sorted.
  - apply bucket_ok_Add.
  - pose proof (ledger_enroll_covered (HL := candidate_ledger) bl cl b Hs Hcl Hnew) as Hl.
    apply Hl; [done|]. by intros c.
  - apply holders_open.
  - apply stake_Add.
Qed.

Lemma wf_open_candidate c0 :
  Get cl (Bucket.Candidate b) = None -> Bucket.Candidate b <> ZeroAddress ->
  Candidate.Addr c0 = Bucket.Candidate b -> Candidate.Buckets c0 = [] ->
  Candidate.TotalVotes c0 = 0 ->
  books_wf (Add cl (Candidate.AddBucket b c0)) (Add bl b)
    (add_to_stakeholder (Bucket.Owner b) b sl) (bound_more (Bucket.Owner b) (Bucket.Value b)).
Proof using Hw Hnew Hok.
  intros Hno Hz Ha Hb0 Ht0. pose proof Hw as [Hs _ Hcl _ _]. split.
  - by apply Add_sorted.
  - apply bucket_ok_Add.
  - pose proof (ledger_enroll_new (HL := candidate_ledger) bl cl b Hs Hcl Hnew) as Hl.
    apply Hl; try done; simpl; [by rewrite Hb0|by rewrite Ht0].
  - apply holders_open.
  - apply stake_Add.
Qed.
End Open.

(** ** Splitting a bucket *)

Section Split.
Context (cl : CandidateList.t) (bl : BucketList.t) (sl : StakeholderList.t)
  (bounded : Address -> Z) (id : Bytes32) (b b' n : Bucket.t) (x d : Z).
Context (Hw : books_wf cl bl sl bounded) (Hb : Get bl id = Some b).
Context (Hid : Bucket.BucketID b' = id) (Hok : bucket_ok b') (Hokn : bucket_ok n).
Context (Hnew : Get bl (Bucket.BucketID n) = None).
Context (Ho : Bucket.Owner b' = Bucket.Owner b) (Hc : Bucket.Candidate b' = Bucket.Candidate b).
Context (Hon : Bucket.Owner n = Bucket.Owner b) (Hcn : Bucket.Candidate n = Bucket.Candidate b).
Context (Hv : Bucket.Value b' = Bucket.Value b - x).
Context (Ht : Bucket.TotalVotes b' = Bucket.TotalVotes b - x - d).
Context (Hvn : Bucket.Value n = x) (Htn : Bucket.TotalVotes n = x).

Lemma Get_new : Get (Modify (fun _ => b') bl id) (key n) = None.
Proof using Hw Hb Hid Hnew.
  rewrite Get_Modify; [|apply Hw|done]. destruct (decide (key n = id)) as [E|]; [|done].
  unfold key, Bucket.keyed in E. congruence.
Qed.

Lemma split_cands :
  ledger_ok
    (Modify (fun c => c <| Candidate.TotalVotes ::= fun v => v - d |>
                        <| Candidate.Buckets ::= fun l => l ++ [Bucket.BucketID n] |>)
       cl (Bucket.Candidate b))
    (Add (Modify (fun _ => b') bl id) n).
Proof using Hw Hb Hid Hnew Hc Hcn Ht Htn.
  pose proof Hw as [Hs _ Hcl _ _].
  set (f := fun c => c <| Candidate.TotalVotes ::= fun v => v - x - d |>).
  set (g := fun c => c <| Candidate.TotalVotes ::= fun v => v + x |>
                       <| Candidate.Buckets ::= fun l => l ++ [Bucket.BucketID n] |>).
  assert (ledger_ok (Modify f cl (Bucket.Candidate b)) (Modify (fun _ => b') bl id)) as H1.
  { pose proof (ledger_reweigh (HL := candidate_ledger) bl cl id b b' Hs Hcl Hb Hid Hc) as Hl.
    apply Hl. intros c _. split_and!; try done. simpl. rewrite Ht. unfold update_field. simpl. lia. }
  pose proof (ledger_enroll_covered (HL := candidate_ledger) _ _ n
    (Modify_sorted _ _ _ Hs (fun _ _ => Hid)) H1 Get_new g) as H2. simpl in H2. rewrite Hcn in H2.
  rewrite Modify_Modify in H2 by (done || apply Hcl).
  assert (Modify (fun c => g (f c)) cl (Bucket.Candidate b) = Modify (fun c => c
      <| Candidate.TotalVotes ::= fun v => v - d |>
      <| Candidate.Buckets ::= fun l => l ++ [Bucket.BucketID n] |>) cl (Bucket.Candidate b)) as <-.
  { unfold Modify. destruct (KeyedList.indexOf _ _). case_match; [|done].
    apply list_alter_ext; [|done]. intros c _. unfold f, g, update_field. simpl. f_equal. lia. }
  apply H2.
  - assert (forall c, Get cl (Bucket.Candidate b) = Some c -> key (f c) = Bucket.Candidate b).
    { intros c Hg. apply (Get_key cl _ c (lo_sorted _ _ Hcl) Hg). }
    rewrite Get_Modify, decide_True; try done; [|apply Hcl].
    destruct (lo_covered _ _ Hcl id b Hb) as [?|Hs1]; [by left|right]. by rewrite fmap_is_Some.
  - intros c. split_and!; try done. simpl. by rewrite Htn.
Qed.

Lemma split_holders :
  ledger_ok
    (Modify (fun h => h <| Stakeholder.Buckets ::= fun l => l ++ [Bucket.BucketID n] |>)
       sl (Bucket.Owner b))
    (Add (Modify (fun _ => b') bl id) n).
Proof using Hw Hb Hid Hnew Ho Hon Hv Hvn.
  pose proof Hw as [Hs _ _ Hsl _].
  set (f := fun h => h <| Stakeholder.TotalStake ::= fun v => v - x |>).
  set (g := fun h => h <| Stakeholder.TotalStake ::= fun v => v + x |>
                       <| Stakeholder.Buckets ::= fun l => l ++ [Bucket.BucketID n] |>).
  assert (ledger_ok (Modify f sl (Bucket.Owner b)) (Modify (fun _ => b') bl id)) as H1.
  { pose proof (ledger_reweigh (HL := stakeholder_ledger) bl sl id b b' Hs Hsl Hb Hid Ho) as Hl.
    apply Hl. intros c _. split_and!; try done. simpl. rewrite Hv. unfold update_field. simpl. lia. }
  pose proof (ledger_enroll_covered (HL := stakeholder_ledger) _ _ n
    (Modify_sorted _ _ _ Hs (fun _ _ => Hid)) H1 Get_new g) as H2. simpl in H2. rewrite Hon in H2.
  rewrite Modify_Modify in H2 by (done || apply Hsl).
  assert (Modify (fun h => g (f h)) sl (Bucket.Owner b) = Modify (fun h => h
      <| Stakeholder.Buckets ::= fun l => l ++ [Bucket.BucketID n] |>) sl (Bucket.Owner b)) as <-.
  { unfold Modify. destruct (KeyedList.indexOf _ _). case_match; [|done].
    apply list_alter_ext; [|done]. intros h _. unfold f, g, update_field. simpl.
    destruct h. simpl. f_equal. lia. }
  apply H2.
  - assert (forall h, Get sl (Bucket.Owner b) = Some h -> key (f h) = Bucket.Owner b).
    { intros h Hg. apply (Get_key sl _ h (lo_sorted _ _ Hsl) Hg). }
    rewrite Get_Modify, decide_True; try done; [|apply Hsl].
    destruct (lo_covered _ _ Hsl id b Hb) as [?|Hs1]; [by left|right]. by rewrite fmap_is_Some.
  - intros h. split_and!; try done. simpl. by rewrite Hvn.
Qed.

Lemma wf_split :
  books_wf
    (Modify (fun c => c <| Candidate.TotalVotes ::= fun v => v - d |>
                        <| Candidate.Buckets ::= fun l => l ++ [Bucket.BucketID n] |>)
       cl (Bucket.Candidate b))
    (Add (Modify (fun _ => b') bl id) n)
    (Modify (fun h => h <| Stakeholder.Buckets ::= fun l => l ++ [Bucket.BucketID n] |>)
       sl (Bucket.Owner b))
    bounded.
Proof using All.
  pose proof Hw as [Hs _ Hcl Hsl Hbd].
  assert (sorted (Modify (fun _ => b') bl id)) as Hs1 by by apply Modify_sorted. split.
  - by apply Add_sorted.
  - intros id' b1. rewrite Get_Add by done. case_decide; [by intros [= <-]|].
    eapply bucket_ok_Modify; eauto.
  - apply split_cands.
  - apply split_holders.
  - intros a. unfold stake_of, group_total. rewrite sum_of_Add_new by (done || apply Get_new).
    fold (group_total (E := Stakeholder.t) a (Modify (fun _ => b') bl id)).
    fold (stake_of a (Modify (fun _ => b') bl id)). rewrite (stake_Modify _ _ b), Hbd by done.
    unfold share. simpl. rewrite Ho, Hon, Hv, Hvn. case_match; lia.
Qed.
End Split.
End Books.
