(* ===== verification/StakingHandlers.v ===== *)
(** * Staking handlers

    One definition per handler of [script/staking/handler_*.go] other than the
    governing one, which is in StakingGovern.  A handler takes the environment,
    the decoded body and the gas, and returns the environment, the gas left
    and the error; the deferred function sets the return data. *)

From S2P Require Import Prelude Text KeyedList ChainParam StakingTypes AuctionTypes Stats State ScriptEnv StakingUtils.
Import ScriptEnv StakingBody.

Definition result : Type := outcome (ScriptEnv.t * Z * option string).

Definition leftOver (gas : Z) : Z := if gas <? ClauseGas then 0 else gas - ClauseGas.

(** A return, with the deferred [SetReturnData]. *)
Definition finish (env : ScriptEnv.t) (gas : Z) (err : option string) : result :=
  Ret (SetReturnData (default "" err) env, leftOver gas, err).

(** [TxCtx.Inc]. *)
Definition inc_counter (env : ScriptEnv.t) : ScriptEnv.t :=
  env <| txCounter ::= fun c => u64 (c + 1) |>.

(** The three lists, stored one after the other. *)
Definition set_lists (cl : CandidateList.t) (bl : BucketList.t) (sl : StakeholderList.t)
    : ScriptEnv.t -> ScriptEnv.t :=
  on_state (fun s => State.SetStakeHolderList sl (State.SetBucketList bl
    (State.SetCandidateList cl s))).

Section Handlers.
Context `{Hashing} `{StakingCodec} `{BlockChain}.
Implicit Types (env : ScriptEnv.t) (sb : StakingBody.t) (gas : Z).

(** The timestamp and nonce of a new bucket: from fork 7 on the block's time
    and the transaction's nonce, clause index and counter. *)
Definition bucket_ts env sb : Z :=
  if IsTeslaFork7 (blockNum env) then blockTime env else Timestamp sb.
Definition bucket_nonce env sb : Z :=
  if IsTeslaFork7 (blockNum env) then u64 (txNonce env + clauseIndex env + txCounter env)
  else Nonce sb.

(** ** Bound *)

(** Whether a new bucket may vote for the candidate it names. *)
Definition bound_set_cand env sb (candidateList : CandidateList.t) (bucketList : BucketList.t)
    : outcome bool :=
  if IsZero (CandAddr sb) then Ret false
  else match CandidateList.Get candidateList (CandAddr sb) with
    | None => Ret false
    | Some c =>
      if IsTeslaFork8 (blockNum env)
      then CorrectCheckEnoughSelfVotes (Some c) bucketList TESLA1_1_SELF_VOTE_RATIO
             None None (Some (Amount sb)) None
      else if IsTeslaFork1 (blockNum env)
      then CheckCandEnoughSelfVotes (Amount sb) c bucketList TESLA1_1_SELF_VOTE_RATIO
      else CheckCandEnoughSelfVotes (Amount sb) c bucketList TESLA1_0_SELF_VOTE_RATIO
    end.

Definition BoundHandler env sb gas : result :=
  let candidateList := State.GetCandidateList (state env) in
  let bucketList := State.GetBucketList (state env) in
  let stakeholderList := State.GetStakeHolderList (state env) in
  if Amount sb <? MIN_BOUND_BALANCE then finish env gas (Some errLessThanMinBoundBalance)
  else if negb (Token sb =? MTRG) then finish env gas (Some errInvalidToken)
  else
    setCand ← bound_set_cand env sb candidateList bucketList;
    if State.GetBalance (state env) (HolderAddr sb) <? Amount sb
    then finish env gas (Some "not enough meter-gov balance")
    else if 100 <? Autobid sb then finish env gas None
    else
      let '(opt, rate, _) := GetBoundLockOption (Option sb) in
      let candAddr := if setCand : bool then CandAddr sb else ZeroAddress in
      let bucket := Bucket.NewBucket (HolderAddr sb) candAddr (Amount sb) (u8 (Token sb)) opt
                      rate (Autobid sb) (bucket_ts env sb) (bucket_nonce env sb) in
      let env := inc_counter env in
      let bucketList := BucketList.Add bucketList bucket in
      let stakeholderList := add_to_stakeholder (HolderAddr sb) bucket stakeholderList in
      if setCand && negb (CandidateList.Exist candidateList (CandAddr sb))
      then finish env gas (Some errCandidateNotListed)
      else
        let candidateList :=
          if setCand then Modify (Candidate.AddBucket bucket) candidateList (CandAddr sb)
          else candidateList in
        let (env, err) := BoundAccountMeterGov (HolderAddr sb) (Amount sb) env in
        let env :=
          if IsTeslaFork10 (blockNum env)
          then AddNativeBucketOpenEvent (Bucket.Owner bucket) (Bucket.BucketID bucket)
                 (Amount sb) (Token sb) env
          else env in
        finish (set_lists candidateList bucketList stakeholderList env) gas err.

(** ** Unbound *)

(** The checks on the bucket shared by unbound, delegate and undelegate. *)
Definition check_bucket sb (b : Bucket.t) : option string :=
  if negb (Bucket.Owner b =? HolderAddr sb) then Some errBucketOwnerMismatch
  else if negb (Bucket.Value b =? Amount sb) then Some errBucketAmountMismatch
  else if negb (Bucket.Token b =? Token sb) then Some errBucketTokenMismatch
  else None.

Definition UnBoundHandler env sb gas : result :=
  let candidateList := State.GetCandidateList (state env) in
  let bucketList := State.GetBucketList (state env) in
  let stakeholderList := State.GetStakeHolderList (state env) in
  match BucketList.Get bucketList (StakingID sb) with
  | None => finish env gas (Some errBucketNotFound)
  | Some b =>
    match check_bucket sb b with
    | Some e => finish env gas (Some e)
    | None =>
      if IsTeslaFork7 (blockNum env) && Bucket.Unbounded b
      then finish env gas (Some errBucketAlreadyUnbounded)
      else if Bucket.IsForeverLock b then finish env gas (Some errUpdateForeverBucket)
      else
        let mature := u64 (bucket_ts env sb + GetBoundLocktime (Bucket.Option b)) in
        let bucketList :=
          Modify (fun b => b <| Bucket.Unbounded := true |> <| Bucket.MatureTime := mature |>)
            bucketList (StakingID sb) in
        let env :=
          if IsTeslaFork10 (blockNum env)
          then AddNativeBucketCloseEvent (Bucket.Owner b) (Bucket.BucketID b) env else env in
        finish (set_lists candidateList bucketList stakeholderList env) gas None
    end
  end.

(** ** Candidate and uncandidate *)

(** The loop over the listed candidates: the first that shares the public key,
    the address or the name; [self] is the address that is skipped, if any. *)
Fixpoint listed_conflict (self : option Address) (pubKey : string) sb (l : CandidateList.t)
    : option string :=
  match l with
  | [] => None
  | record :: rest =>
    let other := negb (bool_decide (self = Some (Candidate.Addr record))) in
    if other && (Candidate.PubKey record =? pubKey)%string then Some errPubKeyListed
    else if other && (Candidate.IPAddr record =? CandIP sb)%string then Some errIPListed
    else if other && (Candidate.Name record =? CandName sb)%string then Some errNameListed
    else listed_conflict self pubKey sb rest
  end.

Definition CandidateHandler env sb gas : result :=
  let candidateList := State.GetCandidateList (state env) in
  let bucketList := State.GetBucketList (state env) in
  let stakeholderList := State.GetStakeHolderList (state env) in
  if Amount sb <? MIN_REQUIRED_BY_DELEGATE then finish env gas (Some errLessThanMinimalBalance)
  else if negb (Token sb =? MTRG) then finish env gas (Some errInvalidToken)
  else if State.GetBalance (state env) (CandAddr sb) <? Amount sb
  then finish env gas (Some errNotEnoughMTRG)
  else if 100 <? Autobid sb then finish env gas (Some "autobid > 100%")
  else match validatePubKey (CandPubKey sb) with
  | None => finish env gas (Some errInvalidPubkey)
  | Some candidatePubKey =>
    if (CandPort sb <? 1) || (65535 <? CandPort sb) then finish env gas (Some errInvalidPort)
    else if negb (ipPattern_MatchString (CandIP sb)) then finish env gas (Some errInvalidIpAddress)
    else match listed_conflict None candidatePubKey sb candidateList with
    | Some e => finish env gas (Some e)
    | None =>
      match CandidateList.Get candidateList (CandAddr sb) with
      | Some record =>
        if (Candidate.PubKey record =? candidatePubKey)%string
           && (Candidate.IPAddr record =? CandIP sb)%string && (Candidate.Port record =? CandPort sb)
        then finish env gas (Some errCandidateListed)
        else finish env gas (Some errCandidateListedWithDiffInfo)
      | None =>
        let '(opt, rate, _) := GetBoundLockOption FOREVER_LOCK in
        let commission := GetCommissionRate (Option sb) in
        let ts := bucket_ts env sb in
        let bucket := Bucket.NewBucket (CandAddr sb) (CandAddr sb) (Amount sb) (u8 (Token sb))
                        opt rate (Autobid sb) ts (bucket_nonce env sb) in
        let env := inc_counter env in
        let bucketList := BucketList.Add bucketList bucket in
        let candidate := Candidate.AddBucket bucket
          (Candidate.NewCandidate (CandAddr sb) (CandName sb) (CandDescription sb)
             candidatePubKey (CandIP sb) (CandPort sb) commission ts) in
        let candidateList := CandidateList.Add candidateList candidate in
        let stakeholderList := add_to_stakeholder (CandAddr sb) bucket stakeholderList in
        let (env, err) := BoundAccountMeterGov (CandAddr sb) (Amount sb) env in
        let env :=
          if IsTeslaFork10 (blockNum env)
          then AddNativeBucketOpenEvent (CandAddr sb) (Bucket.ID bucket) (Amount sb) (Token sb) env
          else env in
        finish (set_lists candidateList bucketList stakeholderList env) gas err
      end
    end
  end.

(** One bucket of the loop of [UnCandidateHandler]. *)
Definition release_bucket (addr : Address) (acc : BucketList.t * ScriptEnv.t) (id : Bytes32)
    : BucketList.t * ScriptEnv.t :=
  let (bucketList, env) := acc in
  match BucketList.Get bucketList id with
  | None => acc
  | Some b =>
    if negb (Bucket.Candidate b =? addr) then acc
    else
      let env :=
        if IsTeslaFork10 (blockNum env)
        then AddNativeBucketUpdateCandidate (Bucket.Owner b) (Bucket.BucketID b)
               (Bucket.Candidate b) ZeroAddress env
        else env in
      let b := b <| Bucket.Candidate := ZeroAddress |> in
      if Bucket.IsForeverLock b then
        let '(opt, rate, _) := GetBoundLockOption ONE_WEEK_LOCK in
        let b := Bucket.UpdateLockOption opt rate b in
        let env :=
          if IsTeslaFork10 (blockNum env)
          then AddNativeBucketCloseEvent (Bucket.Owner b) (Bucket.BucketID b) env else env in
        (Modify (fun _ => b) bucketList id, env)
      else (Modify (fun _ => b) bucketList id, env)
  end.

Definition UnCandidateHandler env sb gas : result :=
  let candidateList := State.GetCandidateList (state env) in
  let bucketList := State.GetBucketList (state env) in
  let stakeholderList := State.GetStakeHolderList (state env) in
  let inJailList := State.GetInJailList (state env) in
  match CandidateList.Get candidateList (CandAddr sb) with
  | None => finish env gas (Some errCandidateNotListed)
  | Some record =>
    if InJailList.Exist inJailList (CandAddr sb) then finish env gas (Some errCandidateInJail)
    else
      let (bucketList, env) :=
        foldl (release_bucket (Candidate.Addr record)) (bucketList, env)
          (Candidate.Buckets record) in
      let candidateList := CandidateList.Remove candidateList (Candidate.Addr record) in
      finish (set_lists candidateList bucketList stakeholderList env) gas None
  end.

(** ** Delegate and undelegate *)

Definition DelegateHandler env sb gas : result :=
  let candidateList := State.GetCandidateList (state env) in
  let bucketList := State.GetBucketList (state env) in
  let stakeholderList := State.GetStakeHolderList (state env) in
  match BucketList.Get bucketList (StakingID sb) with
  | None => finish env gas (Some errBucketNotFound)
  | Some b =>
    match check_bucket sb b with
    | Some e => finish env gas (Some e)
    | None =>
      if Bucket.IsForeverLock b then finish env gas (Some errUpdateForeverBucket)
      else if negb (IsZero (Bucket.Candidate b)) then finish env gas (Some errBucketInUse)
      else if 100 <? Autobid sb then finish env gas (Some "autobid > 100%")
      else match CandidateList.Get candidateList (CandAddr sb) with
      | None => finish env gas (Some errBucketNotFound)
      | Some cand =>
        selfRatioValid ←
          (if IsTeslaFork8 (blockNum env)
           then CorrectCheckEnoughSelfVotes (Some cand) bucketList TESLA1_1_SELF_VOTE_RATIO
                  None None (Some (Bucket.Value b)) None
           else if IsTeslaFork1 (blockNum env)
           then CheckCandEnoughSelfVotes (Amount sb) cand bucketList TESLA1_1_SELF_VOTE_RATIO
           else CheckCandEnoughSelfVotes (Bucket.TotalVotes b) cand bucketList
                  TESLA1_0_SELF_VOTE_RATIO);
        if negb selfRatioValid then finish env gas (Some errCandidateNotEnoughSelfVotes)
        else
          let env :=
            if IsTeslaFork10 (blockNum env)
            then AddNativeBucketUpdateCandidate (Bucket.Owner b) (Bucket.BucketID b)
                   (Bucket.Candidate b) (CandAddr sb) env
            else env in
          let b := b <| Bucket.Candidate := CandAddr sb |> <| Bucket.Autobid := Autobid sb |> in
          let bucketList := Modify (fun _ => b) bucketList (StakingID sb) in
          let candidateList := Modify (Candidate.AddBucket b) candidateList (CandAddr sb) in
          finish (set_lists candidateList bucketList stakeholderList env) gas None
      end
    end
  end.

Definition UnDelegateHandler env sb gas : result :=
  let candidateList := State.GetCandidateList (state env) in
  let bucketList := State.GetBucketList (state env) in
  let stakeholderList := State.GetStakeHolderList (state env) in
  match BucketList.Get bucketList (StakingID sb) with
  | None => finish env gas (Some errBucketNotFound)
  | Some b =>
    match check_bucket sb b with
    | Some e => finish env gas (Some e)
    | None =>
      if Bucket.IsForeverLock b then finish env gas (Some errUpdateForeverBucket)
      else if IsZero (Bucket.Candidate b) then finish env gas (Some errBucketInUse)
      else match CandidateList.Get candidateList (Bucket.Candidate b) with
      | None => finish env gas (Some errCandidateNotListed)
      | Some _ =>
        let env :=
          if IsTeslaFork10 (blockNum env)
          then AddNativeBucketUpdateCandidate (Bucket.Owner b) (Bucket.BucketID b)
                 (Bucket.Candidate b) ZeroAddress env
          else env in
        let candAddr := Bucket.Candidate b in
        let b := b <| Bucket.Candidate := ZeroAddress |> <| Bucket.Autobid := 0 |> in
        let bucketList := Modify (fun _ => b) bucketList (StakingID sb) in
        let candidateList := Modify (Candidate.RemoveBucket b) candidateList candAddr in
        finish (set_lists candidateList bucketList stakeholderList env) gas None
      end
    end
  end.

(** ** Bucket update *)

(** Withdraw part of a bucket into a new unbounded one (from fork 5). *)
Definition bucket_sub env sb gas (candidateList : CandidateList.t) (bucketList : BucketList.t)
    (stakeholderList : StakeholderList.t) (bucket : Bucket.t) : result :=
  let number := blockNum env in
  let cand := CandidateList.Get candidateList (Bucket.Candidate bucket) in
  if Bucket.Unbounded bucket then finish env gas (Some "can not update unbounded bucket")
  else
    let valueAfterSub := Bucket.Value bucket - Amount sb in
    refused ← (if Bucket.IsForeverLock bucket then
        if valueAfterSub <? MIN_REQUIRED_BY_DELEGATE
        then Ret (Some "limit MIN_REQUIRED_BY_DELEGATE")
        else match cand with
          | None => Ret (Some errCandidateNotListed)
          | Some c =>
            ratioValid ←
              (if IsTeslaFork8 number
               then CorrectCheckEnoughSelfVotes cand bucketList TESLA1_1_SELF_VOTE_RATIO
                      None (Some (Amount sb)) None (Some (Amount sb))
               else CheckEnoughSelfVotes (Amount sb) c bucketList TESLA1_1_SELF_VOTE_RATIO);
            Ret (if ratioValid : bool then None else Some errCandidateNotEnoughSelfVotes)
          end
      else if valueAfterSub <? MIN_BOUND_BALANCE then Ret (Some "limit MIN_BOUND_BALANCE")
      else Ret None);
    match refused with
    | Some e => finish env gas (Some e)
    | None =>
      let oldBonus := Bucket.TotalVotes bucket - Bucket.Value bucket in
      bonusDelta ← big_div (oldBonus * Amount sb) (Bucket.Value bucket);
      let bucket := bucket
        <| Bucket.BonusVotes := 0 |>
        <| Bucket.Value ::= fun v =>
             if IsTeslaFork6 number then v - Amount sb else v - Amount sb - bonusDelta |>
        <| Bucket.TotalVotes ::= fun v => v - Amount sb - bonusDelta |> in
      let bucketList := Modify (fun _ => bucket) bucketList (StakingID sb) in
      let ts := bucket_ts env sb in
      let newBucket := Bucket.NewBucket (Bucket.Owner bucket) (Bucket.Candidate bucket) (Amount sb)
        (u8 (Bucket.Token bucket)) ONE_WEEK_LOCK (Bucket.Rate bucket) (Bucket.Autobid bucket) ts
        (bucket_nonce env sb) in
      let env := inc_counter env in
      let newBucket := newBucket <| Bucket.Unbounded := true |>
        <| Bucket.MatureTime := u64 (ts + GetBoundLocktime (Bucket.Option newBucket)) |> in
      let newBucketID := Bucket.BucketID newBucket in
      let bucketList := BucketList.Add bucketList newBucket in
      let candidateList :=
        Modify (fun c => c
            <| Candidate.TotalVotes ::= fun v =>
                 (if IsTeslaFork9 number then v else v - Amount sb) - bonusDelta |>
            <| Candidate.Buckets ::= fun l => l ++ [newBucketID] |>)
          candidateList (Bucket.Candidate bucket) in
      let stakeholderList :=
        Modify (fun h => h <| Stakeholder.Buckets ::= fun l => l ++ [newBucketID] |>)
          stakeholderList (Bucket.Owner bucket) in
      let env :=
        if IsTeslaFork10 number
        then AddNativeBucketWithdrawEvent (Bucket.Owner bucket) (Bucket.BucketID bucket)
               (Amount sb) (Token sb) (Bucket.Owner newBucket) newBucketID env
        else env in
      finish (on_state (fun s => State.SetStakeHolderList stakeholderList
        (State.SetCandidateList candidateList (State.SetBucketList bucketList s))) env) gas None
    end.

(** Deposit into a bucket (from fork 5). *)
Definition bucket_add env sb gas (candidateList : CandidateList.t) (bucketList : BucketList.t)
    (stakeholderList : StakeholderList.t) (bucket : Bucket.t) : result :=
  let number := blockNum env in
  let cand := CandidateList.Get candidateList (Bucket.Candidate bucket) in
  if Bucket.Unbounded bucket then finish env gas (Some "can not update unbounded bucket")
  else if State.GetBalance (state env) (HolderAddr sb) <? Amount sb
  then finish env gas (Some "not enough meter-gov balance")
  else
    selfRatioValid ←
      (if IsTeslaFork8 number && negb (Bucket.IsForeverLock bucket)
       then CorrectCheckEnoughSelfVotes cand bucketList TESLA1_1_SELF_VOTE_RATIO
              None None (Some (Amount sb)) None
       else Ret true);
    if negb selfRatioValid then finish env gas (Some errCandidateNotEnoughSelfVotes)
    else
      match BoundAccountMeterGov (HolderAddr sb) (Amount sb) env with
      | (env, Some e) => finish env gas (Some e)
      | (env, None) =>
        let bucket := bucket <| Bucket.BonusVotes := 0 |>
          <| Bucket.Value ::= fun v => v + Amount sb |>
          <| Bucket.TotalVotes ::= fun v => v + Amount sb |> in
        let bucketList := Modify (fun _ => bucket) bucketList (StakingID sb) in
        let candidateList :=
          if IsZero (Bucket.Candidate bucket) then candidateList
          else Modify (fun c => c <| Candidate.TotalVotes ::= fun v => v + Amount sb |>)
                 candidateList (Bucket.Candidate bucket) in
        let stakeholderList :=
          Modify (fun h => h <| Stakeholder.TotalStake ::= fun v => v + Amount sb |>)
            stakeholderList (Bucket.Owner bucket) in
        let env :=
          if IsTeslaFork10 number
          then AddNativeBucketDepositEvent (Bucket.Owner bucket) (Bucket.BucketID bucket)
                 (Amount sb) (Token sb) env
          else env in
        finish (on_state (fun s => State.SetStakeHolderList stakeholderList
          (State.SetCandidateList candidateList (State.SetBucketList bucketList s))) env) gas None
      end.

(** Before fork 5: the deposit, once its checks are done. *)
Definition bucket_add_legacy env sb gas (err : option string) (candidateList : CandidateList.t)
    (bucketList : BucketList.t) (bucket : Bucket.t) : result :=
  let (bonus, bucket) := TouchBucketBonus (bucket_ts env sb) bucket in
  let bucket := bucket <| Bucket.Value ::= fun v => v + Amount sb |>
                       <| Bucket.TotalVotes ::= fun v => v + Amount sb |> in
  let bucketList := Modify (fun _ => bucket) bucketList (StakingID sb) in
  let candidateList :=
    if IsZero (Bucket.Candidate bucket) then candidateList
    else Modify (fun c => c <| Candidate.TotalVotes ::= fun v => v + bonus + Amount sb |>)
           candidateList (Bucket.Candidate bucket) in
  finish (on_state (fun s => State.SetCandidateList candidateList
    (State.SetBucketList bucketList s)) env) gas err.

Definition BucketUpdateHandler env sb gas : result :=
  let candidateList := State.GetCandidateList (state env) in
  let bucketList := State.GetBucketList (state env) in
  let stakeholderList := State.GetStakeHolderList (state env) in
  match BucketList.Get bucketList (StakingID sb) with
  | None => finish env gas (Some errBucketNotFound)
  | Some bucket =>
    if negb (Bucket.Owner bucket =? HolderAddr sb)
    then finish env gas (Some errBucketOwnerMismatch)
    else if IsTeslaFork5 (blockNum env) then
      if Option sb =? BUCKET_SUB_OPT
      then bucket_sub env sb gas candidateList bucketList stakeholderList bucket
      else if Option sb =? BUCKET_ADD_OPT
      then bucket_add env sb gas candidateList bucketList stakeholderList bucket
      else finish env gas (Some "unsupported option for bucket update")
    else if IsTeslaFork1 (blockNum env) then
      if Bucket.Unbounded bucket then finish env gas (Some "can not update unbounded bucket")
      else if State.GetBalance (state env) (HolderAddr sb) <? Amount sb
      then finish env gas (Some "not enough meter-gov balance")
      else match BoundAccountMeterGov (HolderAddr sb) (Amount sb) env with
      | (env, Some e) => finish env gas (Some e)
      | (env, None) => bucket_add_legacy env sb gas None candidateList bucketList bucket
      end
    else
      let err := if Bucket.IsForeverLock bucket then Some errUpdateForeverBucket else None in
      bucket_add_legacy env sb gas err candidateList bucketList bucket
  end.

(** ** Candidate update *)

(** The duplicate checks: none before fork 6, against every listed candidate
    until fork 8, against the others from fork 8 on. *)
Definition update_conflict env sb (pubKey : string) (candidateList : CandidateList.t)
    : option string :=
  if IsTeslaFork8 (blockNum env) then
    if CandidateList.Exist candidateList (CandAddr sb)
    then listed_conflict (Some (CandAddr sb)) pubKey sb candidateList
    else Some errCandidateNotListed
  else if IsTeslaFork6 (blockNum env) then listed_conflict None pubKey sb candidateList
  else None.

(** The new record, and whether a field changed; [ripe] says that the changes
    restricted by time are allowed. *)
Definition update_record sb (pubKey : string) (commission : Z) (ripe : bool)
    (record : Candidate.t) : Candidate.t * bool :=
  let set {T} (eqb : bool) (f : Candidate.t -> T -> Candidate.t) (v : T)
      (acc : Candidate.t * bool) : Candidate.t * bool :=
    if eqb then acc else (f (fst acc) v, true) in
  let acc := (record, false) in
  let acc := set (Candidate.PubKey record =? pubKey)%string
    (fun r v => r <| Candidate.PubKey := v |>) pubKey acc in
  let acc := set (Candidate.IPAddr record =? CandIP sb)%string
    (fun r v => r <| Candidate.IPAddr := v |>) (CandIP sb) acc in
  if ripe : bool then
    let acc := set (Candidate.Commission record =? commission)
      (fun r v => r <| Candidate.Commission := v |>) commission acc in
    let acc := set (Candidate.Name record =? CandName sb)%string
      (fun r v => r <| Candidate.Name := v |>) (CandName sb) acc in
    let acc := set (Candidate.Description record =? CandDescription sb)%string
      (fun r v => r <| Candidate.Description := v |>) (CandDescription sb) acc in
    set (Candidate.Port record =? CandPort sb)
      (fun r v => r <| Candidate.Port := v |>) (CandPort sb) acc
  else acc.

Definition CandidateUpdateHandler env sb gas : result :=
  let number := blockNum env in
  let candidateList := State.GetCandidateList (state env) in
  let inJailList := State.GetInJailList (state env) in
  let bucketList := State.GetBucketList (state env) in
  match validatePubKey (CandPubKey sb) with
  | None => finish env gas (Some errInvalidPubkey)
  | Some candidatePubKey =>
    if (CandPort sb <? 1) || (65535 <? CandPort sb) then finish env gas (Some errInvalidPort)
    else if negb (ipPattern_MatchString (CandIP sb)) then finish env gas (Some errInvalidIpAddress)
    else if 100 <? Autobid sb then finish env gas (Some errInvalidParams)
    else match update_conflict env sb candidatePubKey candidateList with
    | Some e => finish env gas (Some e)
    | None =>
      match CandidateList.Get candidateList (CandAddr sb) with
      | None => finish env gas (Some errCandidateNotListed)
      | Some record =>
        let jailed := InJailList.Exist inJailList (CandAddr sb) in
        if jailed && negb (IsTeslaFork5 number) then finish env gas (Some errCandidateInJail)
        else
          let inJailList :=
            if jailed
            then Modify (fun j => j <| InJail.Name := CandName sb |>
                                    <| InJail.PubKey := CandPubKey sb |>) inJailList (CandAddr sb)
            else inJailList in
          let commission := GetCommissionRate (Option sb) in
          candBucket ← GetCandidateBucket record bucketList;
          let err := match candBucket with None => Some "not found" | Some _ => None end in
          let autobidUpdated :=
            match candBucket with
            | Some b => negb (Autobid sb =? Bucket.Autobid b)
            | None => false
            end in
          let ts := if IsTeslaFork7 number then blockTime env else Timestamp sb in
          let ripe := MIN_CANDIDATE_UPDATE_INTV <=? u64 (ts - Candidate.Timestamp record) in
          if negb ripe && (Candidate.IPAddr record =? CandIP sb)%string
             && (Candidate.PubKey record =? candidatePubKey)%string
          then finish env gas (Some errUpdateTooFrequent)
          else
            let (record', changed) := update_record sb candidatePubKey commission ripe record in
            let candidateList := Modify (fun _ => record') candidateList (CandAddr sb) in
            let bucketList :=
              match candBucket with
              | Some b =>
                if ripe && autobidUpdated
                then Modify (fun b => b <| Bucket.Autobid := Autobid sb |>) bucketList
                       (Bucket.BucketID b)
                else bucketList
              | None => bucketList
              end in
            if negb (changed || (ripe && autobidUpdated))
            then finish env gas (Some errCandidateNotChanged)
            else
              let env :=
                if IsTeslaFork5 number then on_state (State.SetInJailList inJailList) env
                else env in
              finish (on_state (fun s => State.SetCandidateList candidateList
                (State.SetBucketList bucketList s)) env) gas err
      end
    end
  end.

(** ** Jail *)

Definition DelegateExitJailHandler env sb gas : result :=
  let inJailList := State.GetInJailList (state env) in
  let statisticsList := State.GetDelegateStatList (state env) in
  match InJailList.Get inJailList (CandAddr sb) with
  | None => finish env gas None
  | Some jailed =>
    if State.GetBalance (state env) (InJail.Addr jailed) <? InJail.BailAmount jailed
    then finish env gas (Some "not enough balance for bail")
    else match CollectBailMeterGov (InJail.Addr jailed) (InJail.BailAmount jailed) env with
    | (env, Some e) => finish env gas (Some e)
    | (env, None) =>
      let inJailList := InJailList.Remove inJailList (InJail.Addr jailed) in
      let statisticsList := DelegateStatList.Remove statisticsList (InJail.Addr jailed) in
      finish (on_state (fun s => State.SetDelegateStatList statisticsList
        (State.SetInJailList inJailList s)) env) gas None
    end
  end.

(** The phase-out loop of [DelegateStatHandler]: every delegate not in jail is
    phased out, and those left without points are removed. *)
Definition phase_out_all (epoch : Z) (inJailList : InJailList.t) (l : DelegateStatList.t)
    : DelegateStatList.t :=
  let phased := (fun d => if InJailList.Exist inJailList (DelegateStat.Addr d) then d
                          else DelegateStat.PhaseOut epoch d) <$> l in
  let removed := DelegateStat.Addr <$>
    filter (fun d => InJailList.Exist inJailList (DelegateStat.Addr d) = false
                     /\ DelegateStat.TotalPts d = 0) phased in
  foldl DelegateStatList.Remove phased removed.

Definition should_jail (epoch : Z) (stats : DelegateStat.t) : bool :=
  let proposerViolation := DelegateStat.CountMissingProposerViolation epoch stats in
  let leaderViolation := DelegateStat.CountMissingLeaderViolation epoch stats in
  let doubleSignViolation := DelegateStat.CountDoubleSignViolation epoch stats in
  (JailCriteria_MissingProposerViolation <=? proposerViolation)
  || (JailCriteria_MissingLeaderViolation <=? leaderViolation)
  || (JailCriteria_DoubleSignViolation <=? doubleSignViolation)
  || ((1 <=? proposerViolation) && (1 <=? leaderViolation)).

Definition DelegateStatHandler env sb gas : result :=
  let candidateList := State.GetCandidateList (state env) in
  let statisticsList := State.GetDelegateStatList (state env) in
  let inJailList := State.GetInJailList (state env) in
  let phaseOutEpoch := State.GetStatisticsEpoch (state env) in
  let epoch := Option sb in
  let statisticsList :=
    if phaseOutEpoch <? epoch then phase_out_all epoch inJailList statisticsList
    else statisticsList in
  let phaseOutEpoch := if phaseOutEpoch <? epoch then epoch else phaseOutEpoch in
  let save (statisticsList : DelegateStatList.t) (inJailList : InJailList.t) :=
    on_state (fun s => State.SetInJailList inJailList
      (State.SetDelegateStatList statisticsList (State.SetStatisticsEpoch phaseOutEpoch s))) env in
  if InJailList.Exist inJailList (CandAddr sb)
  then finish (save statisticsList inJailList) gas None
  else match UnpackBytesToInfraction (ExtraData sb) with
  | None => finish (save statisticsList inJailList) gas (Some "decode infraction failed")
  | Some incr =>
    let stats := DelegateStat.Update incr
      (default (DelegateStat.NewDelegateStat (CandAddr sb) (CandName sb) (CandPubKey sb))
         (DelegateStatList.Get statisticsList (CandAddr sb))) in
    let statisticsList := DelegateStatList.Add statisticsList stats in
    let inJailList :=
      if should_jail epoch stats && CandidateList.Exist candidateList (DelegateStat.Addr stats)
      then InJailList.Add inJailList
             (InJail.NewInJail (DelegateStat.Addr stats) (DelegateStat.Name stats)
                (DelegateStat.PubKey stats) (DelegateStat.TotalPts stats)
                (DelegateStat.Infractions stats) BAIL_FOR_EXIT_JAIL
                (if IsTeslaFork6 (blockNum env) then blockNum env else Timestamp sb))
      else inJailList in
    finish (save statisticsList inJailList) gas None
  end.

Definition DelegateStatFlushHandler env sb gas : result :=
  finish (on_state (fun s => State.SetInJailList [] (State.SetDelegateStatList [] s)) env) gas None.
End Handlers.
