(* ===== verification/AccountLock.v ===== *)
(** * Account locks

    [script/accountlock/*.go] and [IsExclusiveAccount] of [state/state.go]:
    the profiles that keep part of an account's tokens from being moved until
    an epoch, and the handlers that add, remove, transfer and release them.
    The epoch of the best block comes from the chain, so it is a parameter. *)

From S2P Require Import Prelude KeyedList ChainParam StakingTypes AuctionTypes Stats State ScriptEnv StakingUtils StakingHandlers.
Import ScriptEnv.

Definition OP_ADDLOCK : Z := 1.
Definition OP_REMOVELOCK : Z := 2.
Definition OP_TRANSFER : Z := 3.
Definition OP_LOCK_GOVERNING : Z := 100.

Module AccountLockBody.
Record t := mk {
  Opcode : Z; Version : Z; Option : Z; LockEpoch : Z; ReleaseEpoch : Z;
  FromAddr : Address; ToAddr : Address; MeterAmount : Z; MeterGovAmount : Z; Memo : string
}.
End AccountLockBody.
Import AccountLockBody.

(** ** Exempt accounts *)

(** The 32 bytes of a [Bytes32], and Go's slice expression [b[from:]]. *)
Definition bytes32 (x : Bytes32) : list Z :=
  (fun i => Z.shiftr x (8 * (31 - Z.of_nat i)) mod 256) <$> seq 0 32.
Definition slice_from (b : list Z) (from : Z) : outcome (list Z) :=
  if (from <? 0) || (Z.of_nat (length b) <? from) then Panic else Ret (drop (Z.to_nat from) b).

(** [MustParseAddress] of the hexadecimal string of these bytes. *)
Definition parse_hex (b : list Z) : outcome Address :=
  if (length b =? 20)%nat then Ret (foldl (fun a x => a * 256 + x) 0 b) else Panic.

Definition DFLTeamAccounts : list Address :=
  [0x2fa2d56e312c47709537acb198446205736022aa; 0x08ebea6584b3d9bf6fbcacf1a1507d00a61d95b7;
   0x045df1ef32d6db371f1857bb60551ef2e43abb1e; 0xde4f71f45ae821614e9dd1256fef06780b775216;
   0xab22ab75f8c42b6969c5d226f39aeb7be35bf24b; 0x63723217e860bc409e29b46eec70101cd03d8242;
   0x0374f5867ab2effd2277c895e7d1088b10ec9452; 0x5308b6f26f21238963d0ea0b391eafa9be53c78e].

Definition KeyExecutorAddress : Bytes32 := bytes_value 0 "executor".

Definition IsExclusiveAccount (s : State.t) (addr : Address) : outcome bool :=
  let val := bytes32 (State.Params_Get s KeyExecutorAddress) in
  executorBytes ← slice_from val (Z.of_nat (length val) - 40);
  executor ← parse_hex executorBytes;
  Ret ((addr =? executor) || bool_decide (addr ∈ DFLTeamAccounts)).

(** ** Handlers *)

Implicit Types (env : ScriptEnv.t) (ab : AccountLockBody.t) (gas : Z).

Definition HandleAccountLockAdd env ab gas : result :=
  let pList := State.GetProfileList (state env) in
  match ProfileList.Get pList (FromAddr ab) with
  | Some _ => finish env gas (Some "profile is already in state")
  | None =>
    let p := Profile.NewProfile (FromAddr ab) (Memo ab) (LockEpoch ab) (ReleaseEpoch ab)
               (MeterAmount ab) (MeterGovAmount ab) in
    finish (on_state (State.SetProfileList (ProfileList.Add pList p)) env) gas None
  end.

Definition HandleAccountLockRemove env ab gas : result :=
  let pList := State.GetProfileList (state env) in
  match ProfileList.Get pList (FromAddr ab) with
  | None => finish env gas (Some "profile is no in state")
  | Some _ =>
    finish (on_state (State.SetProfileList (ProfileList.Remove pList (FromAddr ab))) env) gas None
  end.

(** A move of MTR and of MTRG between accounts, both skipped at 0. *)
Definition lock_move env ab : ScriptEnv.t :=
  let env :=
    if MeterAmount ab =? 0 then env
    else
      AddTransfer (FromAddr ab) (ToAddr ab) (MeterAmount ab) MTR
        (on_state (fun s => State.AddEnergy (ToAddr ab) (MeterAmount ab)
           (fst (State.SubEnergy (FromAddr ab) (MeterAmount ab) s))) env) in
  if MeterGovAmount ab =? 0 then env
  else
    AddTransfer (FromAddr ab) (ToAddr ab) (MeterGovAmount ab) MTRG
      (on_state (fun s => State.AddBalance (ToAddr ab) (MeterGovAmount ab)
         (fst (State.SubBalance (FromAddr ab) (MeterGovAmount ab) s))) env).

Definition HandleAccountLockTransfer env ab gas : result :=
  let pList := State.GetProfileList (state env) in
  match ProfileList.Get pList (ToAddr ab) with
  | Some _ => finish env gas (Some "profile of ToAddr is already in state")
  | None =>
    let pFrom := ProfileList.Get pList (FromAddr ab) in
    exclusive ← match pFrom with
      | Some _ => IsExclusiveAccount (state env) (FromAddr ab)
      | None => Ret true
      end;
    if negb exclusive then finish env gas (Some "profile of FromAddr is already in state")
    else if negb (MeterAmount ab =? 0)
            && (State.GetEnergy (state env) (FromAddr ab) <? MeterAmount ab)
    then finish env gas (Some "not enough meter balance")
    else if negb (MeterGovAmount ab =? 0)
            && (State.GetBalance (state env) (FromAddr ab) <? MeterGovAmount ab)
    then finish env gas (Some "not enough meter-gov balance")
    else
      let release :=
        match pFrom with
        | None => ReleaseEpoch ab
        | Some p => if ReleaseEpoch ab <? Profile.ReleaseEpoch p then Profile.ReleaseEpoch p
                    else ReleaseEpoch ab
        end in
      let p := Profile.NewProfile (ToAddr ab) (Memo ab) (LockEpoch ab) release
                 (MeterAmount ab) (MeterGovAmount ab) in
      let pList := ProfileList.Add pList p in
      finish (on_state (State.SetProfileList pList) (lock_move env ab)) gas None
  end.

Section Epoch.
(** The epoch of the chain's best block, or [None] when the module has not
    been created. *)
Context (best_epoch : option Z).

Definition GetCurrentEpoch : outcome Z := e ← deref best_epoch; Ret (u32 e).

Definition GoverningHandler_lock env ab gas : result :=
  let pList := State.GetProfileList (state env) in
  curEpoch ← GetCurrentEpoch;
  let toRemove := Profile.Addr <$> filter (fun p => Profile.ReleaseEpoch p <= curEpoch) pList in
  finish (on_state (State.SetProfileList (foldl ProfileList.Remove pList toRemove)) env) gas None.

(** Whether the account is restricted, and the locked MTR and MTRG. *)
Definition RestrictByAccountLock (addr : Address) (s : State.t) : bool * Z * Z :=
  match best_epoch with
  | None => (false, 0, 0)
  | Some e =>
    match ProfileList.Get (State.GetProfileList s) addr with
    | None => (false, 0, 0)
    | Some p =>
      if Profile.ReleaseEpoch p <=? u32 e then (false, 0, 0)
      else (true, Profile.MeterAmount p, Profile.MeterGovAmount p)
    end
  end.

(** The dispatcher: a refusal leaves the environment and the gas alone.  The
    recipient is the clause's, and may be missing; [to.String()] then panics. *)
Definition AccountLock_Handle (decode : string -> option AccountLockBody.t) env
    (payload : string) (to : option Address) gas : result :=
  match decode payload with
  | None => Ret (env, gas, Some "decode")
  | Some ab =>
    if Opcode ab =? OP_ADDLOCK then
      if IsZero (txOrigin env) then HandleAccountLockAdd env ab gas
      else Ret (env, gas, Some "not from kblock")
    else if Opcode ab =? OP_REMOVELOCK then
      if IsZero (txOrigin env) then HandleAccountLockRemove env ab gas
      else Ret (env, gas, Some "not form kblock")
    else if Opcode ab =? OP_TRANSFER then
      if txOrigin env =? FromAddr ab then HandleAccountLockTransfer env ab gas
      else Ret (env, gas, Some "from address is not the same from transaction")
    else if Opcode ab =? OP_LOCK_GOVERNING then
      addr ← deref to;
      if addr =? AccountLockModuleAddr then GoverningHandler_lock env ab gas
      else Ret (env, gas, Some "to address is not the same from module address")
    else Ret (env, gas, Some "unknow AccountLock opcode")
  end.
End Epoch.
