(* ===== verification/MeterTracker.v ===== *)
(** * The MTR and MTRG ledger

    [builtin/metertracker/meter_tracker.go] and the mint and burn calls of
    [runtime/statedb/statedb.go]: minting and burning with the running totals
    of the tracker, plain adds and subs, and the MTRG sub that honours an
    account lock.  A tracker is the address its records are stored under. *)

From S2P Require Import Prelude KeyedList ChainParam StakingTypes AuctionTypes Stats State ScriptEnv StakingUtils StakingHandlers AccountLock.

(** The address of the native contract, [builtin.MeterTracker]. *)
Definition MeterNativeAddr : Address := BytesToAddress "MeterNative".

Module MeterTracker.
Section Tracker.
Context (e : Address).
Implicit Types (s : State.t) (addr : Address) (amount : Z).

Definition SetInitialSupply (meterGov meter : Z) s : State.t :=
  State.EncodeStorage (is_uint meterGov && is_uint meter)
    (fun s => State.set_supply e (State.supply s e <| Supply.InitMeterGov := meterGov |>
                                                   <| Supply.InitMeter := meter |>) s) s.

Definition GetMeterGovTotalSupply s : Z :=
  let r := State.supply s e in
  Supply.InitMeterGov r + (Supply.GovTotalAdd r - Supply.GovTotalSub r).
Definition GetMeterTotalSupply s : Z :=
  let r := State.supply s e in
  Supply.InitMeter r + (Supply.MeterTotalAdd r - Supply.MeterTotalSub r).
Definition GetMeterGovTotalBurned s : Z := Supply.GovTotalSub (State.supply s e).
Definition GetMeterTotalBurned s : Z := Supply.MeterTotalSub (State.supply s e).

(** The totals are written only when both can be encoded. *)
Definition SetMeterTotalAddSub (add sub : Z) s : State.t :=
  State.EncodeStorage (is_uint add && is_uint sub)
    (fun s => State.set_supply e (State.supply s e <| Supply.MeterTotalAdd := add |>
                                                   <| Supply.MeterTotalSub := sub |>) s) s.
Definition SetMeterGovTotalAddSub (add sub : Z) s : State.t :=
  State.EncodeStorage (is_uint add && is_uint sub)
    (fun s => State.set_supply e (State.supply s e <| Supply.GovTotalAdd := add |>
                                                   <| Supply.GovTotalSub := sub |>) s) s.

Definition AddMeter addr amount s : State.t :=
  if amount =? 0 then s else State.AddEnergy addr amount s.
Definition SubMeter addr amount s : State.t * bool :=
  if amount =? 0 then (s, true) else State.SubEnergy addr amount s.
Definition AddMeterLocked addr amount s : State.t :=
  if amount =? 0 then s else State.AddBoundedEnergy addr amount s.
Definition SubMeterLocked addr amount s : State.t * bool :=
  if amount =? 0 then (s, true) else State.SubBoundedEnergy addr amount s.
Definition AddMeterGov addr amount s : State.t :=
  if amount =? 0 then s else State.AddBalance addr amount s.
Definition Tesla1_0_SubMeterGov addr amount s : State.t * bool :=
  if amount =? 0 then (s, true) else State.SubBalance addr amount s.
Definition AddMeterGovLocked addr amount s : State.t :=
  if amount =? 0 then s else State.AddBoundedBalance addr amount s.
Definition SubMeterGovLocked addr amount s : State.t * bool :=
  if amount =? 0 then (s, true) else State.SubBoundedBalance addr amount s.

(** [best_epoch] is the chain's epoch, see AccountLock. *)
Definition SubMeterGov (best_epoch : option Z) addr amount s : State.t * bool :=
  if amount =? 0 then (s, true)
  else
    let '(restrict, _, lockMtrg) := RestrictByAccountLock best_epoch addr s in
    if restrict : bool then
      let balance := State.GetBalance s addr in
      if balance <? amount then (s, false)
      else
        let available := balance + State.GetBoundedBalance s addr in
        let needed := lockMtrg + amount in
        if available <? needed then (s, false) else State.SubBalance addr amount s
    else State.SubBalance addr amount s.

Definition MintMeter addr amount s : State.t :=
  if amount =? 0 then s
  else
    let meter := State.GetEnergy s addr in
    let r := State.supply s e in
    let s := SetMeterTotalAddSub (Supply.MeterTotalAdd r + amount) (Supply.MeterTotalSub r) s in
    State.SetEnergy addr (meter + amount) s.

Definition BurnMeter addr amount s : State.t * bool :=
  if amount =? 0 then (s, false)
  else
    let meter := State.GetEnergy s addr in
    if meter <? amount then (s, false)
    else
      let r := State.supply s e in
      let s := SetMeterTotalAddSub (Supply.MeterTotalAdd r) (Supply.MeterTotalSub r + amount) s in
      (State.SetEnergy addr (meter - amount) s, true).

Definition MintMeterGov addr amount s : State.t :=
  if amount =? 0 then s
  else
    let gov := State.GetBalance s addr in
    let r := State.supply s e in
    let s := SetMeterGovTotalAddSub (Supply.GovTotalAdd r + amount) (Supply.GovTotalSub r) s in
    State.SetBalance addr (gov + amount) s.

Definition BurnMeterGov addr amount s : State.t :=
  if amount =? 0 then s
  else
    let gov := State.GetBalance s addr in
    if gov <? amount then s
    else
      let r := State.supply s e in
      let s := SetMeterGovTotalAddSub (Supply.GovTotalAdd r) (Supply.GovTotalSub r + amount) s in
      State.SetBalance addr (gov - amount) s.
End Tracker.
End MeterTracker.

(** ** [StateDB]: before fork 8 the totals of a mint are recorded under the
    address that receives it, from fork 8 on under the native contract. *)

Module StateDB.
Definition MintBalance (addr : Address) (amount : Z) (s : State.t) : State.t :=
  MeterTracker.MintMeterGov addr addr amount s.
Definition MintBalanceAfterFork8 (addr : Address) (amount : Z) (s : State.t) : State.t :=
  MeterTracker.MintMeterGov MeterNativeAddr addr amount s.
Definition BurnBalance (addr : Address) (amount : Z) (s : State.t) : State.t :=
  MeterTracker.BurnMeterGov MeterNativeAddr addr amount s.
Definition MintEnergy (addr : Address) (amount : Z) (s : State.t) : State.t :=
  MeterTracker.MintMeter addr addr amount s.
Definition MintEnergyAfterFork8 (addr : Address) (amount : Z) (s : State.t) : State.t :=
  MeterTracker.MintMeter MeterNativeAddr addr amount s.
Definition BurnEnergy (addr : Address) (amount : Z) (s : State.t) : State.t :=
  fst (MeterTracker.BurnMeter MeterNativeAddr addr amount s).
End StateDB.
