(* ===== verification/TrackerStaking.v ===== *)
(** * Staking from contracts

    [builtin/metertracker/meter_tracker_staking.go],
    [meter_tracker_candidate_update.go] and [meter_tracker_uncandidate.go]:
    the staking operations that the native contract offers to other contracts
    next to the staking clauses of [script/staking/].  They work on the same
    lists, but not on the list of stakeholders. *)

From S2P Require Import Prelude Text KeyedList ChainParam StakingTypes AuctionTypes Stats State StakingUtils.

Module TrackerStaking.

Definition errLessThanMinBoundBalance : string := "bound amount < minimal 100 MTRG".
Definition errLessThanMinCandidateRequirement : string := "bound amount < minimal candidate require".
Definition errZeroAmount : string := "zero amount".
Definition errEmptyCandidate : string := "empty candidate address".
Definition errCandidateNotListed : string := "candidate not listed".
Definition errNotEnoughBalance : string := "not enough balance".
Definition errNotEnoughBoundedBalance : string := "not enough bounded balance".
Definition errSelfVoteNotAllowed : string := "self vote not allowed".
Definition errNotEnoughVotes : string := "not enough votes".
Definition errCandidateNotEnoughSelfVotes : string :=
  "candidate's accumulated votes > 100x candidate's own vote".
Definition errCandidateJailed : string := "candidate is jailed".
Definition errInvalidAutobid : string := "invalid autobid".
Definition errInvalidCommission : string := "invalid commission".
Definition errInvalidPubkey : string := "invalid pubkey".
Definition errCandidateInJail : string := "candidate in jail".
Definition errInvalidIP : string := "invalid IP".
Definition errInvalidPort : string := "invalid port".
Definition errPubkeyListed : string := "pubkey listed".
Definition errNameListed : string := "name listed".
Definition errIPListed : string := "ip listed".
Definition errCandidateListed : string := "candidate listed".
Definition errCandidateListedWithDiffInfo : string := "candidate listed with diff info".
Definition errBucketNotListed : string := "bucket not listed".
Definition errBucketNotOwned : string := "bucket not owned".
Definition errNoUpdateAllowedOnForeverBucket : string := "no update allowed on forever bucket".
Definition errBucketAlreadyUnbounded : string := "bucket already unbounded".
Definition errBucketNotEnoughValue : string := "not enough value".
Definition errBucketNotMergableToItself : string := "bucket not mergable to itself".
Definition errUpdateTooFrequent : string := "candidate update too frequent".
Definition errCandidateNotChanged : string := "candidate not changed".

Definition emptyBytes32 : Bytes32 := 0.
Definition ONE_WEEK_LOCK_RATE : Z := 5.

(** The state after an operation and its error; some also return the id of a
    bucket. *)
Definition reply : Type := outcome (State.t * option string).
Definition id_reply : Type := outcome (State.t * Bytes32 * option string).

(** ** Binding MTRG *)

Definition BoundMeterGov (addr : Address) (amount : Z) (s : State.t) : State.t * option string :=
  if amount =? 0 then (s, None)
  else
    let meterGov := State.GetBalance s addr in
    let meterGovBounded := State.GetBoundedBalance s addr in
    if meterGov <? amount then (s, Some errNotEnoughBalance)
    else
      (State.SetBoundedBalance addr (meterGovBounded + amount)
        (State.SetBalance addr (meterGov - amount) s), None).

(** The body is that of [BoundMeterGov]. *)
Definition UnboundMeterGov (addr : Address) (amount : Z) (s : State.t) : State.t * option string :=
  if amount =? 0 then (s, None)
  else
    let meterGov := State.GetBalance s addr in
    let meterGovBounded := State.GetBoundedBalance s addr in
    if meterGov <? amount then (s, Some errNotEnoughBalance)
    else
      (State.SetBoundedBalance addr (meterGovBounded + amount)
        (State.SetBalance addr (meterGov - amount) s), None).

Section Staking.
Context `{Hashing} `{StakingCodec}.
Implicit Types (s : State.t) (owner : Address) (id : Bytes32) (amount ts nonce : Z).

(** ** Checks *)

Definition checkBucket (b : option Bucket.t) owner : option string :=
  match b with
  | None => Some errBucketNotListed
  | Some b =>
    if Bucket.Unbounded b then Some errBucketAlreadyUnbounded
    else if negb (Bucket.Owner b =? owner) then Some errBucketNotOwned
    else if Bucket.IsForeverLock b then Some errNoUpdateAllowedOnForeverBucket
    else None
  end.

(** Whether a candidate may receive more votes; the callers only pass a value
    that is added to the total. *)
Definition CorrectCheckEnoughSelfVotes (c : Candidate.t) (bl : BucketList.t) (selfVoteRatio : Z)
    (addSelfValue subSelfValue addTotalValue subTotalValue : option Z) : outcome bool :=
  let selfValue :=
    sum_of (fun b => if (Bucket.Owner b =? Candidate.Addr c) && (Bucket.Candidate b =? Candidate.Addr c)
                        && Bucket.IsForeverLock b then Bucket.Value b else 0) bl in
  let totalValue :=
    sum_of (fun b => if Bucket.Candidate b =? Candidate.Addr c then Bucket.Value b else 0) bl in
  let selfValue := sub_floor (add_opt selfValue addSelfValue) subSelfValue in
  let totalValue := sub_floor (add_opt totalValue addTotalValue) subTotalValue in
  limitSelfTotalValue ← big_div totalValue selfVoteRatio;
  Ret (limitSelfTotalValue <=? selfValue).

(** The check of an optional candidate before it receives [amount]. *)
Definition votes_allowed (c : option Candidate.t) (bl : BucketList.t) amount : outcome bool :=
  match c with
  | Some c => CorrectCheckEnoughSelfVotes c bl TESLA1_1_SELF_VOTE_RATIO None None (Some amount) None
  | None => Ret true
  end.

Definition jailed (injailList : InJailList.t) (a : Address) : bool :=
  match InJailList.Get injailList a with Some _ => true | None => false end.

(** ** Deposit, open and close *)

Definition BucketDeposit owner id amount s : reply :=
  let candidateList := State.GetCandidateList s in
  let bucketList := State.GetBucketList s in
  let injailList := State.GetInJailList s in
  let found := BucketList.Get bucketList id in
  match checkBucket found owner with
  | Some e => Ret (s, Some e)
  | None =>
    b ← deref found;
    if State.GetBalance s owner <? amount then Ret (s, Some errNotEnoughBalance)
    else
      let cand := CandidateList.Get candidateList (Bucket.Candidate b) in
      selfRatioValid ← votes_allowed cand bucketList amount;
      if negb selfRatioValid then Ret (s, Some errCandidateNotEnoughSelfVotes)
      else if jailed injailList (Bucket.Candidate b) then Ret (s, Some errCandidateJailed)
      else match BoundMeterGov owner amount s with
      | (s, Some e) => Ret (s, Some e)
      | (s, None) =>
        let b := b <| Bucket.BonusVotes := 0 |>
                   <| Bucket.Value ::= fun v => v + amount |>
                   <| Bucket.TotalVotes ::= fun v => v + amount |> in
        let bucketList := Modify (fun _ => b) bucketList id in
        let candidateList :=
          if IsZero (Bucket.Candidate b) then candidateList
          else Modify (fun c => c <| Candidate.TotalVotes ::= fun v => v + amount |>)
                 candidateList (Bucket.Candidate b) in
        Ret (State.SetCandidateList candidateList (State.SetBucketList bucketList s), None)
      end
  end.

(** The first bucket of an owner that votes for a candidate. *)
Definition bucket_of owner (candAddr : Address) (bl : BucketList.t) : option Bucket.t :=
  snd <$> list_find (fun b => candAddr = Bucket.Candidate b /\ owner = Bucket.Owner b) bl.

Definition BucketOpen owner (candAddr : Address) amount ts nonce s : id_reply :=
  let injailList := State.GetInJailList s in
  if amount =? 0 then Ret (s, emptyBytes32, Some errZeroAmount)
  else if amount <? MIN_BOUND_BALANCE then Ret (s, emptyBytes32, Some errLessThanMinBoundBalance)
  else if IsZero candAddr then Ret (s, emptyBytes32, Some errEmptyCandidate)
  else if State.GetBalance s owner <? amount then Ret (s, emptyBytes32, Some errNotEnoughBalance)
  else if owner =? candAddr then Ret (s, emptyBytes32, Some errSelfVoteNotAllowed)
  else if jailed injailList candAddr then Ret (s, emptyBytes32, Some errCandidateJailed)
  else
    let candidateList := State.GetCandidateList s in
    let bucketList := State.GetBucketList s in
    match bucket_of owner candAddr bucketList with
    | Some bkt =>
      '(s, err) ← BucketDeposit owner (Bucket.ID bkt) amount s;
      Ret (s, Bucket.ID bkt, err)
    | None =>
      match CandidateList.Get candidateList candAddr with
      | None => Ret (s, emptyBytes32, Some errCandidateNotListed)
      | Some candidate =>
        selfRatioValid ← CorrectCheckEnoughSelfVotes candidate bucketList TESLA1_1_SELF_VOTE_RATIO
                           None None (Some amount) None;
        if negb selfRatioValid then Ret (s, emptyBytes32, Some errCandidateNotEnoughSelfVotes)
        else
          let meterGov := State.GetBalance s owner in
          let meterGovBounded := State.GetBoundedBalance s owner in
          let s := State.SetBoundedBalance owner (meterGovBounded + amount)
                     (State.SetBalance owner (meterGov - amount) s) in
          let newBucket := Bucket.NewBucket owner candAddr amount MTRG ONE_WEEK_LOCK
            ONE_WEEK_LOCK_RATE 100 ts nonce in
          let bucketList := BucketList.Add bucketList newBucket in
          let candidateList := Modify (Candidate.AddBucket newBucket) candidateList candAddr in
          Ret (State.SetBucketList bucketList (State.SetCandidateList candidateList s),
               Bucket.ID newBucket, None)
      end
    end.

Definition BucketClose owner id (timestamp : Z) s : reply :=
  let bucketList := State.GetBucketList s in
  let found := BucketList.Get bucketList id in
  match checkBucket found owner with
  | Some e => Ret (s, Some e)
  | None =>
    b ← deref found;
    let b := b <| Bucket.Unbounded := true |>
               <| Bucket.MatureTime := u64 (timestamp + GetBoundLocktime (Bucket.Option b)) |> in
    Ret (State.SetBucketList (Modify (fun _ => b) bucketList id) s, None)
  end.

(** ** Withdraw *)

Definition BucketWithdraw owner id amount (recipient : Address) ts nonce s : id_reply :=
  let candidateList := State.GetCandidateList s in
  let bucketList := State.GetBucketList s in
  let found := BucketList.Get bucketList id in
  match checkBucket found owner with
  | Some e => Ret (s, emptyBytes32, Some e)
  | None =>
    b ← deref found;
    if State.GetBoundedBalance s owner <? amount
    then Ret (s, emptyBytes32, Some errNotEnoughBoundedBalance)
    else if (Bucket.Value b <? amount) || (Bucket.TotalVotes b <? amount)
    then Ret (s, emptyBytes32, Some errBucketNotEnoughValue)
    else if Bucket.Value b - amount <? MIN_BOUND_BALANCE
    then Ret (s, emptyBytes32, Some errLessThanMinBoundBalance)
    else
      let oldBonus := Bucket.TotalVotes b - Bucket.Value b in
      bonusDelta ← big_div (oldBonus * amount) (Bucket.Value b);
      let b := b <| Bucket.BonusVotes := 0 |>
                 <| Bucket.Value ::= fun v => v - amount |>
                 <| Bucket.TotalVotes ::= fun v => v - amount - bonusDelta |> in
      let bucketList := Modify (fun _ => b) bucketList id in
      let s := State.SetBoundedBalance owner (State.GetBoundedBalance s owner - amount) s in
      let s := State.SetBoundedBalance recipient (State.GetBoundedBalance s recipient + amount) s in
      let newBucket := Bucket.NewBucket recipient (Bucket.Candidate b) amount (u8 (Bucket.Token b))
        ONE_WEEK_LOCK (Bucket.Rate b) (Bucket.Autobid b) ts nonce in
      let newBucket := newBucket <| Bucket.Unbounded := true |>
        <| Bucket.MatureTime := u64 (ts + GetBoundLocktime (Bucket.Option newBucket)) |> in
      let newBucketID := Bucket.BucketID newBucket in
      let candidateList :=
        Modify (fun c => c <| Candidate.TotalVotes ::= fun v => v - bonusDelta |>
                           <| Candidate.Buckets ::= fun l => l ++ [newBucketID] |>)
          candidateList (Bucket.Candidate b) in
      let bucketList := BucketList.Add bucketList newBucket in
      Ret (State.SetCandidateList candidateList (State.SetBucketList bucketList s), newBucketID, None)
  end.

(** ** Votes, merges and transfers *)

Definition BucketUpdateCandidate owner id (newCandidateAddr : Address) s : reply :=
  let candidateList := State.GetCandidateList s in
  let bucketList := State.GetBucketList s in
  let injailList := State.GetInJailList s in
  match BucketList.Get bucketList id with
  | None => Ret (s, Some errBucketNotListed)
  | Some b =>
    if negb (Bucket.Owner b =? owner) then Ret (s, Some errBucketNotOwned)
    else if Bucket.IsForeverLock b then Ret (s, Some errNoUpdateAllowedOnForeverBucket)
    else match CandidateList.Get candidateList newCandidateAddr with
    | None => Ret (s, Some errCandidateNotListed)
    | Some nc =>
      if jailed injailList newCandidateAddr then Ret (s, Some errCandidateJailed)
      else
        selfRatioValid ← CorrectCheckEnoughSelfVotes nc bucketList TESLA1_1_SELF_VOTE_RATIO
                           None None (Some (Bucket.TotalVotes b)) None;
        if negb selfRatioValid then Ret (s, Some errCandidateNotEnoughSelfVotes)
        else
          let c := CandidateList.Get candidateList (Bucket.Candidate b) in
          if match c with Some c => Candidate.TotalVotes c <? Bucket.TotalVotes b | None => false end
          then Ret (s, Some errNotEnoughVotes)
          else
            let candidateList := Modify (Candidate.RemoveBucket b) candidateList (Bucket.Candidate b) in
            let candidateList := Modify (Candidate.AddBucket b) candidateList newCandidateAddr in
            let b := b <| Bucket.Candidate := Candidate.Addr nc |> in
            let bucketList := Modify (fun _ => b) bucketList id in
            Ret (State.SetCandidateList candidateList (State.SetBucketList bucketList s), None)
    end
  end.

Definition BucketMerge owner (fromBucketID toBucketID : Bytes32) s : reply :=
  let candidateList := State.GetCandidateList s in
  let bucketList := State.GetBucketList s in
  let injailList := State.GetInJailList s in
  if fromBucketID =? toBucketID then Ret (s, Some errBucketNotMergableToItself)
  else
    let from_ := BucketList.Get bucketList fromBucketID in
    let to_ := BucketList.Get bucketList toBucketID in
    match checkBucket from_ owner, checkBucket to_ owner with
    | Some e, _ => Ret (s, Some e)
    | None, Some e => Ret (s, Some e)
    | None, None =>
      fromBkt ← deref from_;
      toBkt ← deref to_;
      let toCand := CandidateList.Get candidateList (Bucket.Candidate toBkt) in
      if jailed injailList (Bucket.Candidate toBkt) then Ret (s, Some errCandidateJailed)
      else
        selfRatioValid ← votes_allowed toCand bucketList (Bucket.TotalVotes fromBkt);
        if negb selfRatioValid then Ret (s, Some errCandidateNotEnoughSelfVotes)
        else
          let candidateList :=
            Modify (Candidate.RemoveBucket fromBkt) candidateList (Bucket.Candidate fromBkt) in
          let toBkt := toBkt
            <| Bucket.BonusVotes ::= fun v => u64 (v + Bucket.BonusVotes fromBkt) |>
            <| Bucket.Value ::= fun v => v + Bucket.Value fromBkt |>
            <| Bucket.TotalVotes ::= fun v => v + Bucket.TotalVotes fromBkt |> in
          let bucketList := Modify (fun _ => toBkt) bucketList toBucketID in
          let candidateList :=
            Modify (fun c => c <| Candidate.TotalVotes ::= fun v => v + Bucket.TotalVotes fromBkt |>)
              candidateList (Bucket.Candidate toBkt) in
          let bucketList := BucketList.Remove bucketList fromBucketID in
          Ret (State.SetCandidateList candidateList (State.SetBucketList bucketList s), None)
    end.

(** The candidate of the receiving bucket is read before the bucket is known to
    be listed. *)
Definition BucketTransferFund owner (fromBucketID toBucketID : Bytes32) amount s : reply :=
  let candidateList := State.GetCandidateList s in
  let bucketList := State.GetBucketList s in
  let injailList := State.GetInJailList s in
  let from_ := BucketList.Get bucketList fromBucketID in
  let to_ := BucketList.Get bucketList toBucketID in
  toBkt ← deref to_;
  if jailed injailList (Bucket.Candidate toBkt) then Ret (s, Some errCandidateJailed)
  else if fromBucketID =? toBucketID then Ret (s, Some errBucketNotMergableToItself)
  else match checkBucket from_ owner, checkBucket to_ owner with
  | Some e, _ => Ret (s, Some e)
  | None, Some e => Ret (s, Some e)
  | None, None =>
    fromBkt ← deref from_;
    let toCand := CandidateList.Get candidateList (Bucket.Candidate toBkt) in
    selfRatioValid ← votes_allowed toCand bucketList amount;
    if negb selfRatioValid then Ret (s, Some errCandidateNotEnoughSelfVotes)
    else if State.GetBoundedBalance s owner <? amount then Ret (s, Some errNotEnoughBoundedBalance)
    else if (Bucket.Value fromBkt <? amount) || (Bucket.TotalVotes fromBkt <? amount)
    then Ret (s, Some errBucketNotEnoughValue)
    else if Bucket.Value fromBkt - amount <? MIN_BOUND_BALANCE
    then Ret (s, Some errLessThanMinBoundBalance)
    else
      let fromBonus := Bucket.TotalVotes fromBkt - Bucket.Value fromBkt in
      bonusDelta ← big_div (fromBonus * amount) (Bucket.Value fromBkt);
      let fromBkt := fromBkt
        <| Bucket.BonusVotes := u64 (Z.abs (fromBonus - bonusDelta)) |>
        <| Bucket.Value ::= fun v => v - amount |>
        <| Bucket.TotalVotes ::= fun v => v - amount - bonusDelta |> in
      let toBkt := toBkt
        <| Bucket.BonusVotes ::= fun v => u64 (v + u64 (Z.abs bonusDelta)) |>
        <| Bucket.Value ::= fun v => v + amount |>
        <| Bucket.TotalVotes ::= fun v => v + amount + bonusDelta |> in
      let bucketList := Modify (fun _ => fromBkt) bucketList fromBucketID in
      let bucketList := Modify (fun _ => toBkt) bucketList toBucketID in
      let candidateList :=
        Modify (fun c => c <| Candidate.TotalVotes ::= fun v => v - amount - bonusDelta |>)
          candidateList (Bucket.Candidate fromBkt) in
      let candidateList :=
        Modify (fun c => c <| Candidate.TotalVotes ::= fun v => v + amount + bonusDelta |>)
          candidateList (Bucket.Candidate toBkt) in
      Ret (State.SetCandidateList candidateList (State.SetBucketList bucketList s), None)
  end.

Definition BucketValue id s : Z * option string :=
  match BucketList.Get (State.GetBucketList s) id with
  | None => (0, Some errBucketNotListed)
  | Some b => (Bucket.Value b, None)
  end.

(** ** Candidates *)

(** The first listed candidate, other than [self], that has the public key, the
    address or the name. *)
Fixpoint listed_conflict (self : option Address) (pubKey ip name : string) (l : CandidateList.t)
    : option string :=
  match l with
  | [] => None
  | record :: rest =>
    let other := negb (bool_decide (self = Some (Candidate.Addr record))) in
    if other && (Candidate.PubKey record =? pubKey)%string then Some errPubkeyListed
    else if other && (Candidate.IPAddr record =? ip)%string then Some errIPListed
    else if other && (Candidate.Name record =? name)%string then Some errNameListed
    else listed_conflict self pubKey ip name rest
  end.

Definition ListAsCandidate owner (name description pubkey ip : string) (port amount autobid
    commissionRate timestamp nonce : Z) s : id_reply :=
  let candidateList := State.GetCandidateList s in
  let bucketList := State.GetBucketList s in
  let stakeholderList := State.GetStakeHolderList s in
  if amount <? MIN_REQUIRED_BY_DELEGATE
  then Ret (s, emptyBytes32, Some errLessThanMinCandidateRequirement)
  else if 100 <? autobid then Ret (s, emptyBytes32, Some errInvalidAutobid)
  else match validatePubKey pubkey with
  | None => Ret (s, emptyBytes32, Some errInvalidPubkey)
  | Some candidatePubKey =>
    if (port <? 1) || (65535 <? port) then Ret (s, emptyBytes32, Some errInvalidPort)
    else if negb (ipPattern_MatchString ip) then Ret (s, emptyBytes32, Some errInvalidIP)
    else match listed_conflict None candidatePubKey ip name candidateList with
    | Some e => Ret (s, emptyBytes32, Some e)
    | None =>
      match CandidateList.Get candidateList owner with
      | Some record =>
        if (Candidate.PubKey record =? pubkey)%string && (Candidate.IPAddr record =? ip)%string
           && (Candidate.Port record =? port)
        then Ret (s, emptyBytes32, Some errCandidateListed)
        else Ret (s, emptyBytes32, Some errCandidateListedWithDiffInfo)
      | None =>
        let '(opt, rate, locktime) := GetBoundLockOption FOREVER_LOCK in
        let commission := GetCommissionRate commissionRate in
        let bucket := Bucket.NewBucket owner owner amount MTRG opt rate autobid timestamp nonce in
        let bucketList := BucketList.Add bucketList bucket in
        let candidate := Candidate.NewCandidate owner name description candidatePubKey ip port
          commission timestamp in
        let candidateList := CandidateList.Add candidateList (Candidate.AddBucket bucket candidate) in
        let stakeholderList := add_to_stakeholder owner bucket stakeholderList in
        match BoundMeterGov owner amount s with
        | (s, Some e) => Ret (s, emptyBytes32, Some e)
        | (s, None) =>
          Ret (State.SetStakeHolderList stakeholderList (State.SetBucketList bucketList
                 (State.SetCandidateList candidateList s)), Bucket.BucketID bucket, None)
        end
      end
    end
  end.

(** The new record, and whether a field changed; [ripe] says that the changes
    restricted by time are allowed. *)
Definition update_record (name description pubKey ip : string) (port commission : Z) (ripe : bool)
    (record : Candidate.t) : Candidate.t * bool :=
  let set {T} (same : bool) (f : Candidate.t -> T -> Candidate.t) (v : T)
      (acc : Candidate.t * bool) : Candidate.t * bool :=
    if same then acc else (f (fst acc) v, true) in
  let acc := (record, false) in
  let acc := set (Candidate.PubKey record =? pubKey)%string
    (fun r v => r <| Candidate.PubKey := v |>) pubKey acc in
  let acc := set (Candidate.IPAddr record =? ip)%string
    (fun r v => r <| Candidate.IPAddr := v |>) ip acc in
  if ripe : bool then
    let acc := set (Candidate.Commission record =? commission)
      (fun r v => r <| Candidate.Commission := v |>) commission acc in
    let acc := set (Candidate.Name record =? name)%string
      (fun r v => r <| Candidate.Name := v |>) name acc in
    let acc := set (Candidate.Description record =? description)%string
      (fun r v => r <| Candidate.Description := v |>) description acc in
    set (Candidate.Port record =? port) (fun r v => r <| Candidate.Port := v |>) port acc
  else acc.

(** The error of the search for the candidate's own bucket is also what the
    function returns after it has stored the lists. *)
Definition CandidateUpdate owner (name description pubkey ip : string) (port autobid commissionRate
    timestamp : Z) s : reply :=
  let candidateList := State.GetCandidateList s in
  let inJailList := State.GetInJailList s in
  let bucketList := State.GetBucketList s in
  match validatePubKey pubkey with
  | None => Ret (s, Some errInvalidPubkey)
  | Some candidatePubKey =>
    if (port <? 1) || (65535 <? port) then Ret (s, Some errInvalidPort)
    else if negb (ipPattern_MatchString ip) then Ret (s, Some errInvalidIP)
    else if 100 <? autobid then Ret (s, Some errInvalidAutobid)
    else if (COMMISSION_RATE_MAX <? commissionRate) || (commissionRate <? COMMISSION_RATE_MIN)
    then Ret (s, Some errInvalidCommission)
    else match CandidateList.Get candidateList owner with
    | None => Ret (s, Some errCandidateNotListed)
    | Some record =>
      match listed_conflict (Some owner) candidatePubKey ip name candidateList with
      | Some e => Ret (s, Some e)
      | None =>
        let inJailList :=
          if InJailList.Exist inJailList owner
          then Modify (fun j => j <| InJail.Name := name |> <| InJail.PubKey := pubkey |>)
                 inJailList owner
          else inJailList in
        let commission := GetCommissionRate commissionRate in
        candBucket ← GetCandidateBucket record bucketList;
        let err := match candBucket with None => Some "not found" | Some _ => None end in
        let autobidUpdated :=
          match candBucket with
          | Some b => negb (autobid =? Bucket.Autobid b)
          | None => false
          end in
        let ripe := MIN_CANDIDATE_UPDATE_INTV <=? u64 (timestamp - Candidate.Timestamp record) in
        if negb ripe && (Candidate.IPAddr record =? ip)%string
           && (Candidate.PubKey record =? candidatePubKey)%string
        then Ret (s, Some errUpdateTooFrequent)
        else
          let (record', changed) :=
            update_record name description candidatePubKey ip port commission ripe record in
          let candidateList := Modify (fun _ => record') candidateList owner in
          let bucketList :=
            match candBucket with
            | Some b =>
              if ripe && autobidUpdated
              then Modify (fun b => b <| Bucket.Autobid := autobid |>) bucketList (Bucket.BucketID b)
              else bucketList
            | None => bucketList
            end in
          if negb (changed || (ripe && autobidUpdated)) then Ret (s, Some errCandidateNotChanged)
          else
            Ret (State.SetCandidateList candidateList (State.SetBucketList bucketList
                   (State.SetInJailList inJailList s)), err)
      end
    end
  end.

(** One bucket of a candidate that leaves: it loses its candidate, and the
    forever lock becomes one of a week.  The result is the list and the id of
    the last forever bucket. *)
Definition free_bucket (addr : Address) (acc : BucketList.t * Bytes32) id : BucketList.t * Bytes32 :=
  let '(bucketList, bucketID) := acc in
  match BucketList.Get bucketList id with
  | None => acc
  | Some b =>
    if negb (Bucket.Candidate b =? addr) then acc
    else
      let b := b <| Bucket.Candidate := ZeroAddress |> in
      if Bucket.IsForeverLock b then
        let '(opt, rate, _) := GetBoundLockOption ONE_WEEK_LOCK in
        let b := Bucket.UpdateLockOption opt rate b in
        (Modify (fun _ => b) bucketList id, Bucket.BucketID b)
      else (Modify (fun _ => b) bucketList id, bucketID)
  end.

Definition UnCandidate owner s : id_reply :=
  let candidateList := State.GetCandidateList s in
  let bucketList := State.GetBucketList s in
  let stakeholderList := State.GetStakeHolderList s in
  let inJailList := State.GetInJailList s in
  match CandidateList.Get candidateList owner with
  | None => Ret (s, emptyBytes32, Some errCandidateNotListed)
  | Some record =>
    if InJailList.Exist inJailList owner then Ret (s, emptyBytes32, Some errCandidateInJail)
    else
      let (bucketList, bucketID) :=
        foldl (free_bucket (Candidate.Addr record)) (bucketList, emptyBytes32)
          (Candidate.Buckets record) in
      let candidateList := CandidateList.Remove candidateList (Candidate.Addr record) in
      Ret (State.SetStakeHolderList stakeholderList (State.SetBucketList bucketList
             (State.SetCandidateList candidateList s)), bucketID, None)
  end.
End Staking.
End TrackerStaking.
