(* ===== verification/EVM.v ===== *)
(** * The state seen by the virtual machine, and its outer calls

    [runtime/statedb/statedb.go]: the state together with a revisioned map of
    refunds, suicide flags, logs and transfers, and the transient storage.
    [vm/evm.go] and [vm/contract.go]: the calls and creations that move value,
    take the snapshot, run the code and revert.  Running the code itself is the
    operation [run] of the class [Machine], which the interpreter implements;
    what the runtime gives the machine is the class [Context]. *)

From S2P Require Import Prelude KeyedList ChainParam VMConfig Words StakingTypes AuctionTypes Stats StackedMap State ScriptEnv StakingUtils StakingHandlers AccountLock MeterTracker.

(** An Ethereum log, and the transaction event made of it. *)
Module Log.
Record t := mk { Address_ : Address; Topics : list Bytes32; Data : string }.
End Log.

(** ** The revisioned map behind the virtual machine *)

Inductive dbkey :=
  | suicideFlagKey (a : Address)
  | refundKey
  | preimageKey (h : Bytes32)
  | eventKey
  | transferKey
  | stateRevKey.

Inductive dbval :=
  | VFlag (b : bool)
  | VRefund (gas : Z)
  | VPreimage (b : string)
  | VLog (l : Log.t)
  | VTransfer (t : Transfer.t)
  | VRevision (s : State.t).

#[global] Instance dbkey_eq_dec : EqDecision dbkey.
Proof. solve_decision. Defined.

Definition dbkey_code (k : dbkey) : Z * Z :=
  match k with
  | suicideFlagKey a => (0, a)
  | refundKey => (1, 0)
  | preimageKey h => (2, h)
  | eventKey => (3, 0)
  | transferKey => (4, 0)
  | stateRevKey => (5, 0)
  end.
Definition dbkey_of (c : Z * Z) : option dbkey :=
  match c with
  | (0, a) => Some (suicideFlagKey a)
  | (1, _) => Some refundKey
  | (2, h) => Some (preimageKey h)
  | (3, _) => Some eventKey
  | (4, _) => Some transferKey
  | (5, _) => Some stateRevKey
  | _ => None
  end.
#[global] Instance dbkey_countable : Countable dbkey.
Proof. refine (inj_countable dbkey_code dbkey_of _). by intros []. Defined.

Module VMState.
Record t := mk {
  state : State.t;
  repo : StackedMap.t dbkey dbval;
  transientStorage : gmap (Address * Bytes32) Bytes32
}.
#[global] Instance eta : Settable t := fun s => mk (state s) (repo s) (transientStorage s).
Implicit Types (s : t).

(** The getter below the map panics on the other kinds of keys. *)
Definition getter (k : dbkey) : option dbval :=
  match k with
  | suicideFlagKey _ => Some (VFlag false)
  | refundKey => Some (VRefund 0)
  | _ => None
  end.
Definition repo_get s (k : dbkey) : outcome dbval :=
  v ← StackedMap.Get getter (repo s) k; deref v.
Definition repo_put (k : dbkey) (v : dbval) s : outcome t :=
  r ← StackedMap.Put (repo s) k v; Ret (s <| repo := r |>).

Definition New (st : State.t) : t := mk st StackedMap.New ∅.

(** The refund is a [uint64]. *)
Definition GetRefund s : outcome Z :=
  v ← repo_get s refundKey;
  match v with VRefund gas => Ret (u64 gas) | _ => Panic end.

Definition collect (acc : list Log.t * list Transfer.t) (k : dbkey) (v : dbval)
    : list Log.t * list Transfer.t * bool :=
  match k, v with
  | eventKey, VLog l => (fst acc ++ [l], snd acc, true)
  | transferKey, VTransfer t => (fst acc, snd acc ++ [t], true)
  | _, _ => (acc, true)
  end.
Definition GetLogs s : list Log.t * list Transfer.t :=
  StackedMap.Journal collect ([], []) (repo s).

Definition HasSuicided s (addr : Address) : outcome bool :=
  v ← repo_get s (suicideFlagKey addr);
  match v with VFlag b => Ret b | _ => Panic end.
Definition Suicide (addr : Address) s : outcome (t * bool) :=
  if negb (State.Exists (state s) addr) then Ret (s, false)
  else
    let s := s <| state ::= State.Delete addr |> in
    s ← repo_put (suicideFlagKey addr) (VFlag true) s;
    Ret (s, true).

Definition AddRefund (gas : Z) s : outcome t :=
  v ← GetRefund s; repo_put refundKey (VRefund (u64 (v + gas))) s.
Definition AddPreimage (h : Bytes32) (b : string) : t -> outcome t :=
  repo_put (preimageKey h) (VPreimage b).
Definition AddLog (l : Log.t) : t -> outcome t := repo_put eventKey (VLog l).
Definition AddTransfer (tr : Transfer.t) : t -> outcome t := repo_put transferKey (VTransfer tr).

(** A checkpoint of the state is the state itself, see [State.NewCheckpoint]. *)
Definition Snapshot s : outcome (t * Z) :=
  let srev := State.NewCheckpoint (state s) in
  s ← repo_put stateRevKey (VRevision srev) s;
  let (r, rev) := StackedMap.Push (repo s) in
  Ret (s <| repo := r |>, rev).
Definition RevertToSnapshot (rev : Z) s : outcome t :=
  r ← StackedMap.PopTo (repo s) rev;
  let s := s <| repo := r |> in
  v ← repo_get s stateRevKey;
  match v with
  | VRevision srev => Ret (s <| state ::= State.RevertTo srev |>)
  | _ => Panic
  end.

(** The transient storage is not part of the journal. *)
Definition GetTransientState s (addr : Address) (key : Bytes32) : Bytes32 :=
  default 0 (transientStorage s !! (addr, key)).
Definition SetTransientState (addr : Address) (key value : Bytes32) s : t :=
  if GetTransientState s addr key =? value then s
  else s <| transientStorage ::= <[(addr, key) := value]> |>.
End VMState.
Import VMState.

(** ** Contracts and machines *)

Module Contract.
Record t := mk {
  CallerAddress : Address;
  self : Address;
  Code : string;
  CodeHash : Bytes32;
  CodeAddr : Address;
  Input : string;
  Gas : Z;
  value : Z;
  DelegateCall : bool
}.
#[global] Instance eta : Settable t := fun c =>
  mk (CallerAddress c) (self c) (Code c) (CodeHash c) (CodeAddr c) (Input c) (Gas c) (value c)
     (DelegateCall c).
Definition UseGas (gas : Z) (c : t) : t * bool :=
  if Gas c <? gas then (c, false) else (c <| Gas := Gas c - gas |>, true).
End Contract.

Module EVM.
Record t := mk {
  StateDB : VMState.t;
  depth : Z;
  contractCreationCount : Z;
  callGasTemp : Z;
  readOnly : bool;
  returnData : string;
  NoRecursion : bool;
  EnablePreimageRecording : bool;
  lastNonNativeCallGas : Z;
  txCounter : Z
}.
#[global] Instance eta : Settable t := fun e =>
  mk (StateDB e) (depth e) (contractCreationCount e) (callGasTemp e) (readOnly e) (returnData e)
     (NoRecursion e) (EnablePreimageRecording e) (lastNonNativeCallGas e) (txCounter e).
(** [readOnly] and [returnData] belong to the interpreter, which the machine
    owns.  The last two fields are a variable the closures of the runtime share
    and the counter of the transaction context, which native code called by a
    contract advances. *)
Definition NewEVM (db : VMState.t) (counter : Z) : t :=
  mk db 0 0 0 false "" false false 0 counter.
End EVM.
Import EVM.
Implicit Types (evm : EVM.t).

Definition ErrDepth : string := "max call depth exceeded".
Definition ErrInsufficientBalance : string := "insufficient balance for transfer".
Definition ErrContractAddressCollision : string := "contract address collision".
Definition ErrCodeStoreOutOfGas : string := "contract creation code storage out of gas".
Definition errMaxCodeSizeExceeded : string := "evm: max code size exceeded".
Definition errExecutionReverted : string := "evm: execution reverted".

(** The message and the block the code runs in, and the rules of the chain. *)
Module VMInfo.
Record t := mk {
  Origin : Address;
  GasPrice : Z;
  Coinbase : Address;
  GasLimit : Z;
  BlockNumber : Z;
  Time : Z;
  Difficulty : Z;
  chainConfig : VMChainConfig.t
}.
End VMInfo.

(** What the runtime gives the machine: the closures [CanTransfer], [Transfer],
    [GetHash], [NewContractAddress], [InterceptContractCall],
    [OnCreateContract] and [OnSuicideContract], and the precompiled addresses
    of the block.  The interception answers with the result of a native method
    when it handled the call. *)
Class Context : Type := {
  CanTransfer : VMState.t -> Address -> Z -> Z -> bool;
  Transfer_ : Address -> Address -> Z -> Z -> VMState.t -> outcome VMState.t;
  NewContractAddress : VMState.t -> Address -> Z -> Address;
  OnCreateContract : Address -> Address -> VMState.t -> outcome VMState.t;
  OnSuicideContract : Address -> Address -> VMState.t -> outcome VMState.t;
  InterceptContractCall : EVM.t -> Contract.t -> bool ->
    outcome (EVM.t * Contract.t * option (string * option string));
  GetHash : Z -> Bytes32;
  vm_info : VMInfo.t;
  is_precompiled : Address -> bool
}.

(** The result of running code: the machine, the returned data, the gas left in
    the contract, and the error. *)
Definition run_result : Type := outcome (EVM.t * string * Z * option string).

(** What the calls take from elsewhere: go-ethereum's Keccak hash, and the
    execution of a contract's code by the interpreter or a precompiled
    contract. *)
Class Machine : Type := {
  keccak : string -> Bytes32;
  run : Context -> EVM.t -> Contract.t -> string -> run_result
}.

(** [CreateAddress2] of [vm/patch.go]: the last 20 bytes of a hash. *)
Definition CreateAddress2 `{Machine} (b : Address) (salt inithash : Bytes32) : Address :=
  BigToAddress (keccak (String.string_of_list_ascii
    (val_byte 0xff :: be_bytes 20 b ++ be_bytes 32 salt ++ be_bytes 32 inithash))).

(** ** The calls *)

Section Calls.
Context `{ctx : Context} `{Machine}.
Implicit Types (caller addr : Address) (input code : string) (gas value token : Z).

Definition on_db (f : VMState.t -> outcome VMState.t) evm : outcome EVM.t :=
  db ← f (StateDB evm); Ret (evm <| StateDB := db |>).
Definition snapshot evm : outcome (EVM.t * Z) :=
  '(db, rev) ← Snapshot (StateDB evm); Ret (evm <| StateDB := db |>, rev).

(** The end of every call: on an error the state is reverted, and the gas is
    lost unless the code asked for the revert. *)
Definition settle_call (rev : Z) (r : EVM.t * string * Z * option string) : run_result :=
  let '(evm, ret, gas, err) := r in
  match err with
  | None => Ret (evm, ret, gas, None)
  | Some e =>
    evm ← on_db (RevertToSnapshot rev) evm;
    Ret (evm, ret, if (e =? errExecutionReverted)%string then gas else 0, Some e)
  end.

Definition call_contract caller self addr value gas delegate evm : Contract.t :=
  let st := state (StateDB evm) in
  Contract.mk caller self (State.GetCode st addr) (State.GetCodeHash st addr) addr "" gas value delegate.

Definition call caller addr input gas value token evm : run_result :=
  if NoRecursion evm && (0 <? depth evm) then Ret (evm, "", gas, None)
  else if CallCreateDepth <? depth evm then Ret (evm, "", gas, Some ErrDepth)
  else if negb (CanTransfer (StateDB evm) caller value token)
  then Ret (evm, "", gas, Some ErrInsufficientBalance)
  else
    '(evm, rev) ← snapshot evm;
    if negb (State.Exists (state (StateDB evm)) addr) && negb (is_precompiled addr) && (value =? 0)
    then Ret (evm, "", gas, None)
    else
      evm ← on_db (Transfer_ caller addr value token) evm;
      r ← run ctx evm (call_contract caller addr addr value gas false evm) input;
      settle_call rev r.

(** Only tracing is left out of [Call]. *)
Definition Call := call.

Definition CallCode caller addr input gas value token evm : run_result :=
  if NoRecursion evm && (0 <? depth evm) then Ret (evm, "", gas, None)
  else if CallCreateDepth <? depth evm then Ret (evm, "", gas, Some ErrDepth)
  else if negb (CanTransfer (StateDB evm) caller value token)
  then Ret (evm, "", gas, Some ErrInsufficientBalance)
  else
    '(evm, rev) ← snapshot evm;
    r ← run ctx evm (call_contract caller caller addr value gas false evm) input;
    settle_call rev r.

(** The caller is a contract, whose own caller and value are passed on. *)
Definition DelegateCall (parent : Contract.t) addr input gas evm : run_result :=
  if NoRecursion evm && (0 <? depth evm) then Ret (evm, "", gas, None)
  else if CallCreateDepth <? depth evm then Ret (evm, "", gas, Some ErrDepth)
  else
    '(evm, rev) ← snapshot evm;
    r ← run ctx evm (call_contract (Contract.CallerAddress parent) (Contract.self parent) addr
                   (Contract.value parent) gas true evm) input;
    settle_call rev r.

Definition StaticCall caller addr input gas evm : run_result :=
  if NoRecursion evm && (0 <? depth evm) then Ret (evm, "", gas, None)
  else if CallCreateDepth <? depth evm then Ret (evm, "", gas, Some ErrDepth)
  else
    let outer := readOnly evm in
    let evm := evm <| readOnly := true |> in
    '(evm, rev) ← snapshot evm;
    r ← run ctx evm (call_contract caller addr addr 0 gas false evm) input;
    '(evm, ret, gas, err) ← settle_call rev r;
    Ret (if outer : bool then evm else evm <| readOnly := false |>, ret, gas, err).

(** The deployed code is stored when it is small enough and paid for. *)
Definition store_code contractAddr (r : EVM.t * string * Z * option string)
    : EVM.t * string * Z * option string * bool :=
  let '(evm, ret, gas, err) := r in
  let maxCodeSizeExceeded := MaxCodeSize <? Z.of_nat (String.length ret) in
  match err with
  | Some e => (evm, ret, gas, Some e, maxCodeSizeExceeded)
  | None =>
    if maxCodeSizeExceeded then (evm, ret, gas, None, true)
    else
      let createDataGas := u64 (Z.of_nat (String.length ret) * CreateDataGas) in
      if gas <? createDataGas then (evm, ret, gas, Some ErrCodeStoreOutOfGas, false)
      else (evm <| StateDB ::= fun db => db <| state ::= State.SetCode keccak contractAddr ret |> |>,
            ret, gas - createDataGas, None, false)
  end.

(** The address is the fourth component. *)
Definition create caller code gas value token contractAddr evm
    : outcome (EVM.t * string * Z * Address * option string) :=
  if CallCreateDepth <? depth evm then Ret (evm, "", gas, ZeroAddress, Some ErrDepth)
  else if negb (CanTransfer (StateDB evm) caller value token)
  then Ret (evm, "", gas, ZeroAddress, Some ErrInsufficientBalance)
  else
    let evm := evm <| contractCreationCount ::= fun n => u32 (n + 1) |> in
    let contractHash := State.GetCodeHash (state (StateDB evm)) contractAddr in
    if negb (contractHash =? 0) && negb (contractHash =? keccak "")
    then Ret (evm, "", 0, ZeroAddress, Some ErrContractAddressCollision)
    else
      '(evm, rev) ← snapshot evm;
      evm ← (if (0 <? String.length code)%nat
             then on_db (OnCreateContract contractAddr caller) evm else Ret evm);
      evm ← on_db (Transfer_ caller contractAddr value token) evm;
      if NoRecursion evm && (0 <? depth evm) then Ret (evm, "", gas, contractAddr, None)
      else
        r ← run ctx evm (Contract.mk caller contractAddr code (keccak code) contractAddr "" gas value false) "";
        let '(evm, ret, gas, err, maxCodeSizeExceeded) := store_code contractAddr r in
        if maxCodeSizeExceeded || bool_decide (err <> None) then
          evm ← on_db (RevertToSnapshot rev) evm;
          let gas := match err with
                     | Some e => if (e =? errExecutionReverted)%string then gas else 0
                     | None => 0
                     end in
          Ret (evm, ret, gas, contractAddr, Some (default errMaxCodeSizeExceeded err))
        else Ret (evm, ret, gas, contractAddr, None).

Definition Create caller code gas value token evm
    : outcome (EVM.t * string * Z * Address * option string) :=
  let contractAddr := NewContractAddress (StateDB evm) caller (contractCreationCount evm) in
  create caller code gas value token contractAddr evm.

Definition Create2 caller code gas endowment token (salt : Z) evm
    : outcome (EVM.t * string * Z * Address * option string) :=
  let contractAddr := CreateAddress2 caller (BigToHash salt) (keccak code) in
  create caller code gas endowment token contractAddr evm.
End Calls.
