(* ===== verification/Instructions.v ===== *)
(** * Instructions of the virtual machine

    [vm/stack.go] and [vm/instructions.go]: one definition per instruction, on
    a frame that holds what an instruction can read and write.  The stack is a
    list with its top in front.  An item of the stack is a value: the code
    recycles [big.Int] objects through a pool, but [dup] copies, and no object
    is put into the pool while the stack or a contract in use refers to it. *)

From S2P Require Import Prelude KeyedList ChainParam VMConfig Words Memory Analysis StakingTypes AuctionTypes Stats StackedMap State ScriptEnv StakingUtils StakingHandlers AccountLock MeterTracker EVM.
From Stdlib Require Import Ascii.
From stdpp Require Import list.
Open Scope Z_scope.

Module Frame.
Record t := mk {
  evm : EVM.t;
  contract : Contract.t;
  pc : Z;
  memory : Memory.t;
  stack : list Z
}.
#[global] Instance eta : Settable t := fun f => mk (evm f) (contract f) (pc f) (memory f) (stack f).
End Frame.
Import Frame.
Implicit Types (f : Frame.t).

Definition errWriteProtection : string := "evm: write protection".
Definition errReturnDataOutOfBounds : string := "evm: return data out of bounds".
Definition errInvalidJump : string := "invalid jump destination".

(** ** The stack *)

Definition pop f : outcome (Z * Frame.t) :=
  match stack f with [] => Panic | x :: s => Ret (x, f <| stack := s |>) end.
Definition push (x : Z) f : Frame.t := f <| stack ::= cons x |>.
Definition Back (n : nat) f : outcome Z := deref (stack f !! n).
Definition swap (n : nat) f : outcome Frame.t :=
  x ← Back (n - 1) f; y ← Back 0 f;
  Ret (f <| stack ::= fun s => <[(n - 1)%nat := y]> (<[0%nat := x]> s) |>).
Definition dup (n : nat) f : outcome Frame.t := x ← Back (n - 1) f; Ret (push x f).

Definition code_of (c : Contract.t) : list ascii := String.list_ascii_of_string (Contract.Code c).
Definition input_of (c : Contract.t) : list ascii := String.list_ascii_of_string (Contract.Input c).
Definition GetOp (c : Contract.t) (n : Z) : Z := from_option byte_val 0 (code_of c !! Z.to_nat n).
Definition set_gas (g : Z) f : Frame.t := f <| contract ::= fun c => c <| Contract.Gas := g |> |>.
Definition gas f : Z := Contract.Gas (contract f).
Definition self f : Address := Contract.self (contract f).
Definition db f : VMState.t := EVM.StateDB (evm f).
Definition chain_state f : State.t := VMState.state (db f).
Definition set_db (d : VMState.t) f : Frame.t := f <| evm ::= fun e => e <| EVM.StateDB := d |> |>.

(** An instruction gives the frame, the returned data and the error. *)
Definition executionFunc : Type := Frame.t -> outcome (Frame.t * string * option string).

Definition done_ f : Frame.t * string * option string := (f, "", None).
Definition bool_word (b : bool) : Z := if b then 1 else 0.

(** Instructions that replace the top items by a value. *)
Definition op0 (g : Frame.t -> Z) : executionFunc := fun f => Ret (done_ (push (g f) f)).
Definition op1 (g : Frame.t -> Z -> Z) : executionFunc := fun f =>
  '(x, f) ← pop f; Ret (done_ (push (g f x) f)).
Definition op2 (g : Z -> Z -> Z) : executionFunc := fun f =>
  '(x, f) ← pop f; '(y, f) ← pop f; Ret (done_ (push (g x y) f)).
Definition op3 (g : Z -> Z -> Z -> Z) : executionFunc := fun f =>
  '(x, f) ← pop f; '(y, f) ← pop f; '(z, f) ← pop f; Ret (done_ (push (g x y z) f)).

(** ** Arithmetic *)

Definition tt255 : Z := 2 ^ 255.

Definition add_word (x y : Z) : Z := U256 (x + y).
Definition sub_word (x y : Z) : Z := U256 (x - y).
Definition mul_word (x y : Z) : Z := U256 (x * y).
(** [Div] and [Mod] of [big.Int] are Euclidean: the remainder is not negative. *)
Definition div_word (x y : Z) : Z := if y =? 0 then 0 else U256 (Z.sgn y * (x / Z.abs y)).
Definition sdiv_word (x y : Z) : Z :=
  let x := S256 x in let y := S256 y in
  if (y =? 0) || (x =? 0) then 0
  else if negb (Z.sgn x =? Z.sgn y) then U256 (- (Z.abs x / Z.abs y))
  else U256 (Z.abs x / Z.abs y).
Definition mod_word (x y : Z) : Z := if y =? 0 then 0 else U256 (x mod Z.abs y).
Definition smod_word (x y : Z) : Z :=
  let x := S256 x in let y := S256 y in
  if y =? 0 then 0
  else if x <? 0 then U256 (- (Z.abs x mod Z.abs y))
  else U256 (Z.abs x mod Z.abs y).
Definition signextend_word (back num : Z) : Z :=
  if back <? 31 then
    let bit := back * 8 + 7 in
    let mask := Z.shiftl 1 bit - 1 in
    U256 (if Z.testbit num bit then Z.lor num (Z.lnot mask) else Z.land num mask)
  else num.
Definition slt_word (x y : Z) : Z :=
  if (tt255 <=? x) && (y <? tt255) then 1
  else if (x <? tt255) && (tt255 <=? y) then 0
  else bool_word (x <? y).
Definition sgt_word (x y : Z) : Z :=
  if (tt255 <=? x) && (y <? tt255) then 0
  else if (x <? tt255) && (tt255 <=? y) then 1
  else bool_word (y <? x).
Definition addmod_word (x y z : Z) : Z := if 0 <? z then U256 ((x + y) mod z) else 0.
Definition mulmod_word (x y z : Z) : Z := if 0 <? z then U256 ((x * y) mod z) else 0.
Definition shl_word (shift value : Z) : Z :=
  let shift := U256 shift in let value := U256 value in
  if 256 <=? shift then 0 else U256 (Z.shiftl value shift).
Definition shr_word (shift value : Z) : Z :=
  let shift := U256 shift in let value := U256 value in
  if 256 <=? shift then 0 else U256 (Z.shiftr value shift).
Definition sar_word (shift value : Z) : Z :=
  let shift := U256 shift in let value := S256 value in
  if 256 <=? shift then U256 (if 0 <? value then 0 else -1)
  else U256 (Z.shiftr value shift).

Definition opAdd := op2 add_word.
Definition opSub := op2 sub_word.
Definition opMul := op2 mul_word.
Definition opDiv := op2 div_word.
Definition opSdiv := op2 sdiv_word.
Definition opMod := op2 mod_word.
Definition opSmod := op2 smod_word.
Definition opExp := op2 Exp.
Definition opSignExtend := op2 signextend_word.
Definition opNot := op1 (fun _ x => U256 (Z.lnot x)).
Definition opLt := op2 (fun x y => bool_word (x <? y)).
Definition opGt := op2 (fun x y => bool_word (y <? x)).
Definition opSlt := op2 slt_word.
Definition opSgt := op2 sgt_word.
Definition opEq := op2 (fun x y => bool_word (x =? y)).
Definition opIszero := op1 (fun _ x => bool_word (x <=? 0)).
Definition opAnd := op2 Z.land.
Definition opOr := op2 Z.lor.
Definition opXor := op2 Z.lxor.
Definition opByte := op2 (fun th val => if th <? 32 then Byte val th else 0).
Definition opAddmod := op3 addmod_word.
Definition opMulmod := op3 mulmod_word.
Definition opSHL := op2 shl_word.
Definition opSHR := op2 shr_word.
Definition opSAR := op2 sar_word.

(** ** Instructions that read the message, the block and the accounts *)

Section Instructions.
Context `{ctx : Context} `{Machine}.
Definition to_bytes : string -> list ascii := String.list_ascii_of_string.
Definition of_bytes : list ascii -> string := String.string_of_list_ascii.
Definition info : VMInfo.t := vm_info.
Definition config : VMChainConfig.t := VMInfo.chainConfig info.
Definition BlockNumber : Z := VMInfo.BlockNumber info.

Definition opSha3 : executionFunc := fun f =>
  '(offset, f) ← pop f; '(size, f) ← pop f;
  data ← Memory.Get (Int64 offset) (Int64 size) (memory f);
  let hash := keccak (of_bytes data) in
  d ← (if EVM.EnablePreimageRecording (evm f) then VMState.AddPreimage hash (of_bytes data) (db f)
       else Ret (db f));
  Ret (done_ (push hash (set_db d f))).
Definition opAddress := op0 self.
Definition opBalance := op1 (fun f x => State.GetEnergy (chain_state f) (BigToAddress x)).
Definition opOrigin := op0 (fun _ => VMInfo.Origin info).
Definition opCaller := op0 (fun f => Contract.CallerAddress (contract f)).
Definition opCallValue := op0 (fun f => Contract.value (contract f)).
Definition opCallDataLoad : executionFunc := fun f =>
  '(x, f) ← pop f;
  data ← getDataBig (input_of (contract f)) x 32;
  Ret (done_ (push (SetBytes data) f)).
Definition opCallDataSize := op0 (fun f => Z.of_nat (length (input_of (contract f)))).

(** The copies pop the position in memory, the position in the data and the
    length. *)
Definition copy_data (data : Frame.t -> list ascii) : executionFunc := fun f =>
  '(memOffset, f) ← pop f; '(dataOffset, f) ← pop f; '(length, f) ← pop f;
  d ← getDataBig (data f) dataOffset length;
  mem ← Memory.Set_ (Uint64 memOffset) (Uint64 length) d (memory f);
  Ret (done_ (f <| memory := mem |>)).
Definition opCallDataCopy := copy_data (fun f => input_of (contract f)).
Definition opReturnDataSize := op0 (fun f => Z.of_nat (String.length (EVM.returnData (evm f)))).
Definition opReturnDataCopy : executionFunc := fun f =>
  '(memOffset, f) ← pop f; '(dataOffset, f) ← pop f; '(length, f) ← pop f;
  let end_ := dataOffset + length in
  let data := to_bytes (EVM.returnData (evm f)) in
  if (64 <? BitLen end_) || (Z.of_nat (List.length data) <? Uint64 end_)
  then Ret (f, "", Some errReturnDataOutOfBounds)
  else
    d ← slice data (Uint64 dataOffset) (Uint64 end_);
    mem ← Memory.Set_ (Uint64 memOffset) (Uint64 length) d (memory f);
    Ret (done_ (f <| memory := mem |>)).
(** [GetCodeSize]: an account without a code hash has size zero. *)
Definition GetCodeSize (s : State.t) (addr : Address) : Z :=
  if State.GetCodeHash s addr =? 0 then 0 else Z.of_nat (String.length (State.GetCode s addr)).
Definition opExtCodeSize := op1 (fun f x => GetCodeSize (chain_state f) (BigToAddress x)).
Definition opCodeSize := op0 (fun f => Z.of_nat (length (code_of (contract f)))).
Definition opCodeCopy := copy_data (fun f => code_of (contract f)).
Definition opExtCodeCopy : executionFunc := fun f =>
  '(addr, f) ← pop f;
  copy_data (fun f => to_bytes (State.GetCode (chain_state f) (BigToAddress addr))) f.
Definition opExtCodeHash := op1 (fun f x =>
  let address := BigToAddress x in
  if negb (State.Exists (chain_state f) address) then 0
  else
    let codeHash := State.GetCodeHash (chain_state f) address in
    if codeHash =? 0 then keccak "" else codeHash).
Definition opGasprice := op0 (fun _ => VMInfo.GasPrice info).
Definition opBlockhash := op1 (fun _ num =>
  if (BlockNumber - 257 <? num) && (num <? BlockNumber) then GetHash (Uint64 num) else 0).
Definition opCoinbase := op0 (fun _ => VMInfo.Coinbase info).
Definition opTimestamp := op0 (fun _ => U256 (VMInfo.Time info)).
Definition opNumber := op0 (fun _ => U256 BlockNumber).
Definition opDifficulty := op0 (fun _ => U256 (VMInfo.Difficulty info)).
Definition opGasLimit := op0 (fun _ => U256 (VMInfo.GasLimit info)).
Definition opChainID := op0 (fun _ => VMChainConfig.ChainID config).
Definition opSelfBalance := op0 (fun f => State.GetEnergy (chain_state f) (self f)).
Definition opBaseFee := op0 (fun _ => 500 * 10 ^ 9).
Definition opBaseFeeDynamic := op0 (fun _ => VMChainConfig.BaseFee config).
(** The nonce is converted to an [int64] first. *)
Definition opRandom := op0 (fun _ => i64 (VMChainConfig.LastPowNonce config)).

(** ** Stack, memory, storage and control *)

Definition opPop : executionFunc := fun f => '(_, f) ← pop f; Ret (done_ f).
Definition opMload : executionFunc := fun f =>
  '(offset, f) ← pop f;
  data ← Memory.Get (Int64 offset) 32 (memory f);
  Ret (done_ (push (SetBytes data) f)).
Definition opMstore : executionFunc := fun f =>
  '(mStart, f) ← pop f; '(val, f) ← pop f;
  mem ← Memory.Set32 (Uint64 mStart) val (memory f);
  Ret (done_ (f <| memory := mem |>)).
Definition opMstore8 : executionFunc := fun f =>
  '(off, f) ← pop f; '(val, f) ← pop f;
  let off := Int64 off in
  if (off <? 0) || (Memory.Len (memory f) <=? off) then Panic
  else Ret (done_ (f <| memory ::= fun m =>
    m <| Memory.store ::= <[Z.to_nat off := val_byte val]> |> |>)).
Definition opSload := op1 (fun f x => State.GetStorage (chain_state f) (self f) (BigToHash x)).
Definition opSstore : executionFunc := fun f =>
  '(loc, f) ← pop f; '(val, f) ← pop f;
  let d := db f <| VMState.state ::=
    State.SetStorage (self f) (BigToHash loc) (BigToHash val) |> in
  Ret (done_ (set_db d f)).

Definition jump_to (pos : Z) f : outcome (Frame.t * string * option string) :=
  ok ← has (code_of (contract f)) pos;
  if ok : bool then Ret (done_ (f <| pc := Uint64 pos |>)) else Ret (f, "", Some errInvalidJump).
Definition opJump : executionFunc := fun f => '(pos, f) ← pop f; jump_to pos f.
Definition opJumpi : executionFunc := fun f =>
  '(pos, f) ← pop f; '(cond, f) ← pop f;
  if negb (cond =? 0) then jump_to pos f else Ret (done_ (f <| pc ::= fun p => u64 (p + 1) |>)).
Definition opJumpdest : executionFunc := fun f => Ret (done_ f).
Definition opPc := op0 pc.
Definition opMsize := op0 (fun f => Memory.Len (memory f)).
Definition opGas := op0 gas.

(** ** Creations and calls *)

Definition opCreate : executionFunc := fun f =>
  '(value, f) ← pop f; '(offset, f) ← pop f; '(size, f) ← pop f;
  input ← Memory.Get (Int64 offset) (Int64 size) (memory f);
  let g := if VMChainConfig.IsEIP150 config BlockNumber then gas f - gas f / 64 else gas f in
  let f := set_gas (gas f - g) f in
  '(evm, res, returnGas, addr, suberr) ←
    Create (self f) (of_bytes input) g value MTR (evm f);
  let store_oog := bool_decide (suberr = Some ErrCodeStoreOutOfGas) in
  let pushed := if VMChainConfig.IsHomestead config BlockNumber && store_oog then 0
                else if bool_decide (suberr <> None) && negb store_oog then 0 else addr in
  let f := set_gas (u64 (gas f + returnGas)) (push pushed (f <| Frame.evm := evm |>)) in
  Ret (f, if bool_decide (suberr = Some errExecutionReverted) then res else "", None).
Definition opCreate2 : executionFunc := fun f =>
  '(endowment, f) ← pop f; '(offset, f) ← pop f; '(size, f) ← pop f; '(salt, f) ← pop f;
  input ← Memory.Get (Int64 offset) (Int64 size) (memory f);
  let g := gas f - gas f / 64 in
  let f := set_gas (gas f - g) f in
  '(evm, res, returnGas, addr, suberr) ←
    Create2 (self f) (of_bytes input) g endowment MTR salt (evm f);
  let pushed := if bool_decide (suberr <> None) then 0 else addr in
  let f := set_gas (u64 (gas f + returnGas)) (push pushed (f <| Frame.evm := evm |>)) in
  Ret (f, if bool_decide (suberr = Some errExecutionReverted) then res else "", None).

(** The end of every call: the flag, the returned data in memory, and the gas
    that is left. *)
Definition finish_call (retOffset retSize : Z) f (r : EVM.t * string * Z * option string)
    : outcome (Frame.t * string * option string) :=
  let '(evm, ret, returnGas, err) := r in
  let f := push (bool_word (bool_decide (err = None))) (f <| Frame.evm := evm |>) in
  mem ← (if bool_decide (err = None) || bool_decide (err = Some errExecutionReverted)
         then Memory.Set_ (Uint64 retOffset) (Uint64 retSize) (to_bytes ret) (memory f)
         else Ret (memory f));
  Ret (set_gas (u64 (gas f + returnGas)) (f <| memory := mem |>), ret, None).

Definition opCall : executionFunc := fun f =>
  '(_, f) ← pop f;
  let g := EVM.callGasTemp (evm f) in
  '(addr, f) ← pop f; '(value, f) ← pop f; '(inOffset, f) ← pop f; '(inSize, f) ← pop f;
  '(retOffset, f) ← pop f; '(retSize, f) ← pop f;
  let value := U256 value in
  args ← Memory.Get (Int64 inOffset) (Int64 inSize) (memory f);
  let g := if negb (value =? 0) then u64 (g + CallStipend) else g in
  r ← Call (self f) (BigToAddress addr) (of_bytes args) g value MTR (evm f);
  finish_call retOffset retSize f r.
Definition opCallCode : executionFunc := fun f =>
  '(_, f) ← pop f;
  let g := EVM.callGasTemp (evm f) in
  '(addr, f) ← pop f; '(value, f) ← pop f; '(inOffset, f) ← pop f; '(inSize, f) ← pop f;
  '(retOffset, f) ← pop f; '(retSize, f) ← pop f;
  let value := U256 value in
  args ← Memory.Get (Int64 inOffset) (Int64 inSize) (memory f);
  let g := if negb (value =? 0) then u64 (g + CallStipend) else g in
  r ← CallCode (self f) (BigToAddress addr) (of_bytes args) g value MTR (evm f);
  finish_call retOffset retSize f r.
Definition opDelegateCall : executionFunc := fun f =>
  '(_, f) ← pop f;
  let g := EVM.callGasTemp (evm f) in
  '(addr, f) ← pop f; '(inOffset, f) ← pop f; '(inSize, f) ← pop f;
  '(retOffset, f) ← pop f; '(retSize, f) ← pop f;
  args ← Memory.Get (Int64 inOffset) (Int64 inSize) (memory f);
  r ← EVM.DelegateCall (contract f) (BigToAddress addr) (of_bytes args) g (evm f);
  finish_call retOffset retSize f r.
Definition opStaticCall : executionFunc := fun f =>
  '(_, f) ← pop f;
  let g := EVM.callGasTemp (evm f) in
  '(addr, f) ← pop f; '(inOffset, f) ← pop f; '(inSize, f) ← pop f;
  '(retOffset, f) ← pop f; '(retSize, f) ← pop f;
  args ← Memory.Get (Int64 inOffset) (Int64 inSize) (memory f);
  r ← StaticCall (self f) (BigToAddress addr) (of_bytes args) g (evm f);
  finish_call retOffset retSize f r.

Definition opReturn : executionFunc := fun f =>
  '(offset, f) ← pop f; '(size, f) ← pop f;
  ret ← Memory.GetPtr (Int64 offset) (Int64 size) (memory f);
  Ret (f, of_bytes ret, None).
Definition opRevert : executionFunc := fun f =>
  '(offset, f) ← pop f; '(size, f) ← pop f;
  ret ← Memory.GetPtr (Int64 offset) (Int64 size) (memory f);
  Ret (f, of_bytes ret, None).
Definition opStop : executionFunc := fun f => Ret (done_ f).
Definition opSuicide : executionFunc := fun f =>
  '(receiver, f) ← pop f;
  d ← OnSuicideContract (self f) (BigToAddress receiver) (db f);
  '(d, _) ← VMState.Suicide (self f) d;
  Ret (done_ (set_db d f)).

(** ** Families *)

Fixpoint pop_topics (n : nat) f : outcome (list Bytes32 * Frame.t) :=
  match n with
  | O => Ret ([], f)
  | S n => '(x, f) ← pop f; '(topics, f) ← pop_topics n f; Ret (BigToHash x :: topics, f)
  end.
Definition makeLog (size : nat) : executionFunc := fun f =>
  '(mStart, f) ← pop f; '(mSize, f) ← pop f;
  '(topics, f) ← pop_topics size f;
  d ← Memory.Get (Int64 mStart) (Int64 mSize) (memory f);
  d ← VMState.AddLog (Log.mk (self f) topics (of_bytes d)) (db f);
  Ret (done_ (set_db d f)).
Definition makePush (size pushByteSize : Z) : executionFunc := fun f =>
  let codeLen := Z.of_nat (length (code_of (contract f))) in
  let startMin := if i64 (u64 (pc f + 1)) <? codeLen then i64 (u64 (pc f + 1)) else codeLen in
  let endMin := if startMin + pushByteSize <? codeLen then startMin + pushByteSize else codeLen in
  data ← slice (code_of (contract f)) startMin endMin;
  let f := push (SetBytes (RightPadBytes data pushByteSize)) f in
  Ret (done_ (f <| pc ::= fun p => u64 (p + size) |>)).
Definition makeDup (size : nat) : executionFunc := fun f => f ← dup size f; Ret (done_ f).
Definition makeSwap (size : nat) : executionFunc := fun f => f ← swap (size + 1) f; Ret (done_ f).
Definition opPush0 := op0 (fun _ => 0).

(** ** Instructions of a set that no block enables yet *)

Definition opMcopy : executionFunc := fun f =>
  '(dst, f) ← pop f; '(src, f) ← pop f; '(length, f) ← pop f;
  mem ← Memory.Copy (Uint64 dst) (Uint64 src) (Uint64 length) (memory f);
  Ret (done_ (f <| memory := mem |>)).
Definition opTload := op1 (fun f x => VMState.GetTransientState (db f) (self f) (BigToHash x)).
Definition opTstore : executionFunc := fun f =>
  '(loc, f) ← pop f; '(val, f) ← pop f;
  Ret (done_ (set_db (VMState.SetTransientState (self f) (BigToHash loc) (BigToHash val) (db f)) f)).
End Instructions.
