(* ===== verification/GasFuncs.v ===== *)
(** * Gas of the instructions

    [vm/gas.go] and [vm/gas_table.go]: the cost of each instruction before it
    runs.  A gas function can also change the frame: the cost of memory already
    paid, the gas set aside for a call, and the refund. *)

From S2P Require Import Prelude KeyedList ChainParam VMConfig Words Memory Analysis StakingTypes AuctionTypes Stats StackedMap State ScriptEnv StakingUtils StakingHandlers AccountLock MeterTracker EVM Instructions.
From Stdlib Require Import Ascii.
From stdpp Require Import list.
Import Frame.
Open Scope Z_scope.
Implicit Types (f : Frame.t).

Definition GasQuickStep : Z := 2.
Definition GasFastestStep : Z := 3.
Definition GasFastStep : Z := 5.
Definition GasMidStep : Z := 8.
Definition GasSlowStep : Z := 10.
Definition GasExtStep : Z := 20.
Definition errGasUintOverflow : string := "gas uint64 overflow".

(** The frame and the size memory will have; the cost or an error. *)
Definition gasFunc : Type := Frame.t -> Z -> outcome (Frame.t * (string + Z)).

(** [math.SafeAdd] of a cost that may already be an error. *)
Definition add_gas (g : string + Z) (x : Z) : string + Z :=
  match g with
  | inl err => inl err
  | inr g => let '(sum, overflow) := SafeAdd g x in if overflow : bool then inl errGasUintOverflow else inr sum
  end.
(** The cost of the words of a length. *)
Definition add_words (g : string + Z) (l price : Z) : string + Z :=
  match g with
  | inl err => inl err
  | inr g =>
    let '(words, overflow) := bigUint64 l in
    if overflow : bool then inl errGasUintOverflow
    else
      let '(words, overflow) := SafeMul (toWordSize words) price in
      if overflow : bool then inl errGasUintOverflow else add_gas (inr g) words
  end.

Definition memoryGasCost (mem : Memory.t) (newMemSize : Z) : Memory.t * (string + Z) :=
  if newMemSize =? 0 then (mem, inr 0)
  else if 0xffffffffe0 <? newMemSize then (mem, inl errGasUintOverflow)
  else
    let newMemSizeWords := toWordSize newMemSize in
    let newMemSize := u64 (newMemSizeWords * 32) in
    if Memory.Len mem <? newMemSize then
      let square := u64 (newMemSizeWords * newMemSizeWords) in
      let linCoef := u64 (newMemSizeWords * MemoryGas) in
      let quadCoef := square / QuadCoeffDiv in
      let newTotalFee := u64 (linCoef + quadCoef) in
      let fee := u64 (newTotalFee - Memory.lastGasCost mem) in
      (mem <| Memory.lastGasCost := newTotalFee |>, inr fee)
    else (mem, inr 0).

(** The cost of the memory, in a frame that remembers it. *)
Definition memory_gas f (memorySize : Z) : Frame.t * (string + Z) :=
  let '(mem, g) := memoryGasCost (memory f) memorySize in (f <| memory := mem |>, g).

Definition callGas (gt : GasTable.t) (availableGas base callCost : Z) : string + Z :=
  if 0 <? GasTable.CreateBySuicide gt then
    let availableGas := u64 (availableGas - base) in
    let gas := availableGas - availableGas / 64 in
    if (64 <? BitLen callCost) || (gas <? Uint64 callCost) then inr gas else inr (Uint64 callCost)
  else if 64 <? BitLen callCost then inl errGasUintOverflow
  else inr (Uint64 callCost).

Definition constGasFunc (gas : Z) : gasFunc := fun f _ => Ret (f, inr gas).
(** Memory and a constant. *)
Definition memory_and (price : Z) : gasFunc := fun f ms =>
  let '(f, g) := memory_gas f ms in Ret (f, add_gas g price).
(** Memory, a constant, and a price for each word of the length at a position of
    the stack. *)
Definition memory_words (price : Z) (at_ : nat) (wordPrice : Z) : gasFunc := fun f ms =>
  l ← Back at_ f;
  let '(f, g) := memory_gas f ms in
  Ret (f, add_words (add_gas g price) l wordPrice).

Definition gasCallDataCopy := memory_words GasFastestStep 2 CopyGas.
Definition gasReturnDataCopy := memory_words GasFastestStep 2 CopyGas.
Definition gasCodeCopy := memory_words GasFastestStep 2 CopyGas.
Definition gasSha3 := memory_words Sha3Gas 1 Sha3WordGas.
Definition gasCreate2 := memory_words Create2Gas 2 Sha3WordGas.
Definition gasMLoad := memory_and GasFastestStep.
Definition gasMStore8 := memory_and GasFastestStep.
Definition gasMStore := memory_and GasFastestStep.
Definition gasCreate := memory_and CreateGas.
Definition gasReturn : gasFunc := fun f ms => Ret (memory_gas f ms).
Definition gasRevert : gasFunc := fun f ms => Ret (memory_gas f ms).
Definition gasPush := constGasFunc GasFastestStep.
Definition gasSwap := constGasFunc GasFastestStep.
Definition gasDup := constGasFunc GasFastestStep.

(** From Paris on the creations pay for the words of their code, but no longer
    the price of a creation. *)
Definition create_words (wordPrice : Z) : gasFunc := fun f ms =>
  size ← Back 2 f;
  let '(f, g) := memory_gas f ms in
  match g with
  | inl err => Ret (f, inl err)
  | inr g =>
    let '(size, overflow) := bigUint64 size in
    if overflow || (MaxInitCodeSize <? size) then Ret (f, inl errGasUintOverflow)
    else Ret (f, add_gas (inr g) (wordPrice * ((size + 31) / 32)))
  end.
Definition gasCreateEip3860 := create_words InitCodeWordGas.
Definition gasCreate2Eip3860 := create_words (InitCodeWordGas + Keccak256WordGas).

Definition makeGasLog (n : Z) : gasFunc := fun f ms =>
  l ← Back 1 f;
  let '(requestedSize, overflow) := bigUint64 l in
  if overflow : bool then Ret (f, inl errGasUintOverflow)
  else
    let '(f, g) := memory_gas f ms in
    let g := add_gas (add_gas g LogGas) (n * LogTopicGas) in
    match g with
    | inl err => Ret (f, inl err)
    | inr g =>
      let '(memorySizeGas, overflow) := SafeMul requestedSize LogDataGas in
      if overflow : bool then Ret (f, inl errGasUintOverflow) else Ret (f, add_gas (inr g) memorySizeGas)
    end.

Definition gasSStore : gasFunc := fun f _ =>
  y ← Back 1 f; x ← Back 0 f;
  let val := State.GetStorage (chain_state f) (self f) (BigToHash x) in
  if (val =? 0) && negb (y =? 0) then Ret (f, inr SstoreSetGas)
  else if negb (val =? 0) && (y =? 0) then
    d ← VMState.AddRefund SstoreRefundGas (db f); Ret (set_db d f, inr SstoreClearGas)
  else Ret (f, inr SstoreResetGas).

Section GasFuncs.
Context `{ctx : Context}.
Definition gt : GasTable.t := VMChainConfig.GasTable config BlockNumber.

Definition gasExtCodeCopy : gasFunc := memory_words (GasTable.ExtcodeCopy gt) 3 CopyGas.
Definition gasExtCodeHash : gasFunc := constGasFunc (GasTable.ExtcodeHash gt).
Definition gasBalance : gasFunc := constGasFunc (GasTable.Balance gt).
Definition gasExtCodeSize : gasFunc := constGasFunc (GasTable.ExtcodeSize gt).
Definition gasSLoad : gasFunc := constGasFunc (GasTable.SLoad gt).
Definition gasExp : gasFunc := fun f _ =>
  x ← Back 1 f;
  let expByteLen := (BitLen x + 7) / 8 in
  Ret (f, add_gas (inr (u64 (expByteLen * GasTable.ExpByte gt))) GasSlowStep).

(** What is set aside for the call is kept in the machine and added. *)
Definition set_aside (g : string + Z) f : outcome (Frame.t * (string + Z)) :=
  callCost ← Back 0 f;
  match g with
  | inl err => Ret (f, inl err)
  | inr g =>
    match callGas gt (gas f) g callCost with
    | inl err => Ret (f, inl err)
    | inr temp => Ret (f <| evm ::= fun e => e <| EVM.callGasTemp := temp |> |>, add_gas (inr g) temp)
    end
  end.

(** The fixed part of a call; a new account is paid for when the rules of EIP 158
    say so. *)
Definition call_price (transfersValue : bool) (address : Address) f : Z :=
  let exists_ := State.Exists (chain_state f) address in
  let fresh := if VMChainConfig.IsEIP158 config BlockNumber then transfersValue && negb exists_
               else negb exists_ in
  GasTable.Calls gt + (if fresh then CallNewAccountGas else 0)
  + (if transfersValue then CallValueTransferGas else 0).
Definition gasCall : gasFunc := fun f ms =>
  value ← Back 2 f; addr ← Back 1 f;
  let price := call_price (negb (value =? 0)) (BigToAddress addr) f in
  let '(f, m) := memory_gas f ms in
  set_aside (match m with inl err => inl err | inr m => add_gas (inr price) m end) f.
Definition gasCallCode : gasFunc := fun f ms =>
  value ← Back 2 f;
  let price := GasTable.Calls gt + (if negb (value =? 0) then CallValueTransferGas else 0) in
  let '(f, m) := memory_gas f ms in
  set_aside (match m with inl err => inl err | inr m => add_gas (inr price) m end) f.
Definition gasDelegateCall : gasFunc := fun f ms =>
  let '(f, m) := memory_gas f ms in set_aside (add_gas m (GasTable.Calls gt)) f.
Definition gasStaticCall : gasFunc := fun f ms =>
  let '(f, m) := memory_gas f ms in set_aside (add_gas m (GasTable.Calls gt)) f.

Definition suicide_price f : outcome Z :=
  x ← Back 0 f;
  Ret (if VMChainConfig.IsEIP150 config BlockNumber then
         let exists_ := State.Exists (chain_state f) (BigToAddress x) in
         let fresh :=
           if VMChainConfig.IsEIP158 config BlockNumber
           then negb exists_ && negb (State.GetBalance (chain_state f) (self f) =? 0)
           else negb exists_ in
         GasTable.Suicide gt + (if fresh then GasTable.CreateBySuicide gt else 0)
       else 0).
Definition gasSuicide : gasFunc := fun f _ =>
  g ← suicide_price f;
  suicided ← VMState.HasSuicided (db f) (self f);
  d ← (if suicided : bool then Ret (db f) else VMState.AddRefund SuicideRefundGas (db f));
  Ret (set_db d f, inr g).
Definition gasSuicideEIP3529 : gasFunc := fun f _ => g ← suicide_price f; Ret (f, inr g).
End GasFuncs.
