(* ===== verification/JumpTable.v ===== *)
(** * The instruction sets

    [vm/opcodes.go], [vm/stack_table.go], [vm/memory_table.go] and
    [vm/jump_table.go]: the numbers of the instructions, the stack and memory
    they need, and the table of each rule set, built on the one before. *)

From S2P Require Import Prelude KeyedList ChainParam VMConfig Words Memory Analysis StakingTypes AuctionTypes Stats StackedMap State ScriptEnv StakingUtils StakingHandlers AccountLock MeterTracker EVM Instructions GasFuncs.
From Stdlib Require Import Ascii.
From stdpp Require Import list.
Import Frame.
Open Scope Z_scope.
Implicit Types (f : Frame.t).

Module OpCode.
Definition STOP : Z := 0x0.
Definition ADD : Z := 0x1.
Definition MUL : Z := 0x2.
Definition SUB : Z := 0x3.
Definition DIV : Z := 0x4.
Definition SDIV : Z := 0x5.
Definition MOD : Z := 0x6.
Definition SMOD : Z := 0x7.
Definition ADDMOD : Z := 0x8.
Definition MULMOD : Z := 0x9.
Definition EXP : Z := 0xa.
Definition SIGNEXTEND : Z := 0xb.
Definition LT : Z := 0x10.
Definition GT : Z := 0x11.
Definition SLT : Z := 0x12.
Definition SGT : Z := 0x13.
Definition EQ : Z := 0x14.
Definition ISZERO : Z := 0x15.
Definition AND : Z := 0x16.
Definition OR : Z := 0x17.
Definition XOR : Z := 0x18.
Definition NOT : Z := 0x19.
Definition BYTE : Z := 0x1a.
Definition SHL : Z := 0x1b.
Definition SHR : Z := 0x1c.
Definition SAR : Z := 0x1d.
Definition SHA3 : Z := 0x20.
Definition ADDRESS : Z := 0x30.
Definition BALANCE : Z := 0x31.
Definition ORIGIN : Z := 0x32.
Definition CALLER : Z := 0x33.
Definition CALLVALUE : Z := 0x34.
Definition CALLDATALOAD : Z := 0x35.
Definition CALLDATASIZE : Z := 0x36.
Definition CALLDATACOPY : Z := 0x37.
Definition CODESIZE : Z := 0x38.
Definition CODECOPY : Z := 0x39.
Definition GASPRICE : Z := 0x3a.
Definition EXTCODESIZE : Z := 0x3b.
Definition EXTCODECOPY : Z := 0x3c.
Definition RETURNDATASIZE : Z := 0x3d.
Definition RETURNDATACOPY : Z := 0x3e.
Definition EXTCODEHASH : Z := 0x3f.
Definition BLOCKHASH : Z := 0x40.
Definition COINBASE : Z := 0x41.
Definition TIMESTAMP : Z := 0x42.
Definition NUMBER : Z := 0x43.
Definition DIFFICULTY : Z := 0x44.
Definition RANDOM : Z := 0x44.
Definition PREVRANDAO : Z := 0x44.
Definition GASLIMIT : Z := 0x45.
Definition CHAINID : Z := 0x46.
Definition SELFBALANCE : Z := 0x47.
Definition BASEFEE : Z := 0x48.
Definition BLOBHASH : Z := 0x49.
Definition BLOBBASEFEE : Z := 0x4a.
Definition POP : Z := 0x50.
Definition MLOAD : Z := 0x51.
Definition MSTORE : Z := 0x52.
Definition MSTORE8 : Z := 0x53.
Definition SLOAD : Z := 0x54.
Definition SSTORE : Z := 0x55.
Definition JUMP : Z := 0x56.
Definition JUMPI : Z := 0x57.
Definition PC : Z := 0x58.
Definition MSIZE : Z := 0x59.
Definition GAS : Z := 0x5a.
Definition JUMPDEST : Z := 0x5b.
Definition TLOAD : Z := 0x5c.
Definition TSTORE : Z := 0x5d.
Definition MCOPY : Z := 0x5e.
Definition PUSH0 : Z := 0x5f.
Definition PUSH1 : Z := 0x60.
Definition DUP1 : Z := 0x80.
Definition SWAP1 : Z := 0x90.
Definition LOG0 : Z := 0xa0.
Definition LOG1 : Z := 0xa1.
Definition LOG2 : Z := 0xa2.
Definition LOG3 : Z := 0xa3.
Definition LOG4 : Z := 0xa4.
Definition CREATE : Z := 0xf0.
Definition CALL : Z := 0xf1.
Definition CALLCODE : Z := 0xf2.
Definition RETURN : Z := 0xf3.
Definition DELEGATECALL : Z := 0xf4.
Definition CREATE2 : Z := 0xf5.
Definition STATICCALL : Z := 0xfa.
Definition REVERT : Z := 0xfd.
Definition SELFDESTRUCT : Z := 0xff.
End OpCode.

(** ** Stack and memory needs *)

Definition errStackUnderflow : string := "stack underflow".
Definition errStackLimit : string := "stack limit reached".

Definition makeStackFunc (pop push : Z) (stack : list Z) : option string :=
  let len := Z.of_nat (length stack) in
  if len <? pop then Some errStackUnderflow
  else if StackLimit <? len + push - pop then Some errStackLimit
  else None.
Definition makeDupStackFunc (n : Z) := makeStackFunc n (n + 1).
Definition makeSwapStackFunc (n : Z) := makeStackFunc n n.

(** The bytes of memory an instruction reaches, from items of the stack. *)
Definition memorySizeFunc : Type := Frame.t -> outcome Z.
Definition mem_at (off l : nat) : memorySizeFunc := fun f =>
  o ← Back off f; n ← Back l f; Ret (calcMemSize o n).
Definition mem_const (off : nat) (l : Z) : memorySizeFunc := fun f =>
  o ← Back off f; Ret (calcMemSize o l).
Definition mem_max (a b : memorySizeFunc) : memorySizeFunc := fun f =>
  x ← a f; y ← b f; Ret (Z.max x y).

Definition memorySha3 := mem_at 0 1.
Definition memoryCallDataCopy := mem_at 0 2.
Definition memoryReturnDataCopy := mem_at 0 2.
Definition memoryCodeCopy := mem_at 0 2.
Definition memoryExtCodeCopy := mem_at 1 3.
Definition memoryMLoad := mem_const 0 32.
Definition memoryMStore8 := mem_const 0 1.
Definition memoryMStore := mem_const 0 32.
Definition memoryCreate := mem_at 1 2.
Definition memoryCreate2 := mem_at 1 2.
Definition memoryCall := mem_max (mem_at 5 6) (mem_at 3 4).
Definition memoryDelegateCall := mem_max (mem_at 4 5) (mem_at 2 3).
Definition memoryStaticCall := mem_max (mem_at 4 5) (mem_at 2 3).
Definition memoryReturn := mem_at 0 1.
Definition memoryRevert := mem_at 0 1.
Definition memoryLog := mem_at 0 1.

(** ** Operations *)

Module operation.
Record t := mk {
  execute : executionFunc;
  gasCost : gasFunc;
  validateStack : list Z -> option string;
  memorySize : option memorySizeFunc;
  halts : bool;
  jumps : bool;
  writes : bool;
  reverts : bool;
  returns : bool
}.
#[global] Instance eta : Settable t := fun o =>
  mk (execute o) (gasCost o) (validateStack o) (memorySize o) (halts o) (jumps o) (writes o)
     (reverts o) (returns o).
End operation.
Import operation.

(** Only the valid operations are in a table. *)
Definition InstructionSet : Type := gmap Z operation.t.
Definition plain (execute : executionFunc) (gasCost : gasFunc) (pop push : Z) : operation.t :=
  operation.mk execute gasCost (makeStackFunc pop push) None false false false false false.

Section JumpTable.
Context `{ctx : Context} `{Machine}.

Definition frontier_arithmetic : list (Z * operation.t) := [
  (OpCode.STOP, plain opStop (constGasFunc 0) 0 0 <| halts := true |>);
  (OpCode.ADD, plain opAdd (constGasFunc GasFastestStep) 2 1);
  (OpCode.MUL, plain opMul (constGasFunc GasFastStep) 2 1);
  (OpCode.SUB, plain opSub (constGasFunc GasFastestStep) 2 1);
  (OpCode.DIV, plain opDiv (constGasFunc GasFastStep) 2 1);
  (OpCode.SDIV, plain opSdiv (constGasFunc GasFastStep) 2 1);
  (OpCode.MOD, plain opMod (constGasFunc GasFastStep) 2 1);
  (OpCode.SMOD, plain opSmod (constGasFunc GasFastStep) 2 1);
  (OpCode.ADDMOD, plain opAddmod (constGasFunc GasMidStep) 3 1);
  (OpCode.MULMOD, plain opMulmod (constGasFunc GasMidStep) 3 1);
  (OpCode.EXP, plain opExp gasExp 2 1);
  (OpCode.SIGNEXTEND, plain opSignExtend (constGasFunc GasFastStep) 2 1)
].

Definition frontier_comparisons : list (Z * operation.t) := [
  (OpCode.LT, plain opLt (constGasFunc GasFastestStep) 2 1);
  (OpCode.GT, plain opGt (constGasFunc GasFastestStep) 2 1);
  (OpCode.SLT, plain opSlt (constGasFunc GasFastestStep) 2 1);
  (OpCode.SGT, plain opSgt (constGasFunc GasFastestStep) 2 1);
  (OpCode.EQ, plain opEq (constGasFunc GasFastestStep) 2 1);
  (OpCode.ISZERO, plain opIszero (constGasFunc GasFastestStep) 1 1);
  (OpCode.AND, plain opAnd (constGasFunc GasFastestStep) 2 1);
  (OpCode.XOR, plain opXor (constGasFunc GasFastestStep) 2 1);
  (OpCode.OR, plain opOr (constGasFunc GasFastestStep) 2 1);
  (OpCode.NOT, plain opNot (constGasFunc GasFastestStep) 1 1);
  (OpCode.BYTE, plain opByte (constGasFunc GasFastestStep) 2 1);
  (OpCode.SHA3, plain opSha3 gasSha3 2 1 <| memorySize := Some memorySha3 |>)
].

Definition frontier_environment : list (Z * operation.t) := [
  (OpCode.ADDRESS, plain opAddress (constGasFunc GasQuickStep) 0 1);
  (OpCode.BALANCE, plain opBalance gasBalance 1 1);
  (OpCode.ORIGIN, plain opOrigin (constGasFunc GasQuickStep) 0 1);
  (OpCode.CALLER, plain opCaller (constGasFunc GasQuickStep) 0 1);
  (OpCode.CALLVALUE, plain opCallValue (constGasFunc GasQuickStep) 0 1);
  (OpCode.CALLDATALOAD, plain opCallDataLoad (constGasFunc GasFastestStep) 1 1);
  (OpCode.CALLDATASIZE, plain opCallDataSize (constGasFunc GasQuickStep) 0 1);
  (OpCode.CALLDATACOPY, plain opCallDataCopy gasCallDataCopy 3 0
    <| memorySize := Some memoryCallDataCopy |>);
  (OpCode.CODESIZE, plain opCodeSize (constGasFunc GasQuickStep) 0 1);
  (OpCode.CODECOPY, plain opCodeCopy gasCodeCopy 3 0 <| memorySize := Some memoryCodeCopy |>);
  (OpCode.GASPRICE, plain opGasprice (constGasFunc GasQuickStep) 0 1);
  (OpCode.EXTCODESIZE, plain opExtCodeSize gasExtCodeSize 1 1);
  (OpCode.EXTCODECOPY, plain opExtCodeCopy gasExtCodeCopy 4 0
    <| memorySize := Some memoryExtCodeCopy |>)
].

Definition frontier_block : list (Z * operation.t) := [
  (OpCode.BLOCKHASH, plain opBlockhash (constGasFunc GasExtStep) 1 1);
  (OpCode.COINBASE, plain opCoinbase (constGasFunc GasQuickStep) 0 1);
  (OpCode.TIMESTAMP, plain opTimestamp (constGasFunc GasQuickStep) 0 1);
  (OpCode.NUMBER, plain opNumber (constGasFunc GasQuickStep) 0 1);
  (OpCode.DIFFICULTY, plain opDifficulty (constGasFunc GasQuickStep) 0 1);
  (OpCode.GASLIMIT, plain opGasLimit (constGasFunc GasQuickStep) 0 1)
].

Definition frontier_flow : list (Z * operation.t) := [
  (OpCode.POP, plain opPop (constGasFunc GasQuickStep) 1 0);
  (OpCode.MLOAD, plain opMload gasMLoad 1 1 <| memorySize := Some memoryMLoad |>);
  (OpCode.MSTORE, plain opMstore gasMStore 2 0 <| memorySize := Some memoryMStore |>);
  (OpCode.MSTORE8, plain opMstore8 gasMStore8 2 0 <| memorySize := Some memoryMStore8 |>);
  (OpCode.SLOAD, plain opSload gasSLoad 1 1);
  (OpCode.SSTORE, plain opSstore gasSStore 2 0 <| writes := true |>);
  (OpCode.JUMP, plain opJump (constGasFunc GasMidStep) 1 0 <| jumps := true |>);
  (OpCode.JUMPI, plain opJumpi (constGasFunc GasSlowStep) 2 0 <| jumps := true |>);
  (OpCode.PC, plain opPc (constGasFunc GasQuickStep) 0 1);
  (OpCode.MSIZE, plain opMsize (constGasFunc GasQuickStep) 0 1);
  (OpCode.GAS, plain opGas (constGasFunc GasQuickStep) 0 1);
  (OpCode.JUMPDEST, plain opJumpdest (constGasFunc JumpdestGas) 0 0)
].

Definition frontier_logs : list (Z * operation.t) := [
  (OpCode.LOG0, plain (makeLog 0) (makeGasLog 0) 2 0
    <| memorySize := Some memoryLog |> <| writes := true |>);
  (OpCode.LOG1, plain (makeLog 1) (makeGasLog 1) 3 0
    <| memorySize := Some memoryLog |> <| writes := true |>);
  (OpCode.LOG2, plain (makeLog 2) (makeGasLog 2) 4 0
    <| memorySize := Some memoryLog |> <| writes := true |>);
  (OpCode.LOG3, plain (makeLog 3) (makeGasLog 3) 5 0
    <| memorySize := Some memoryLog |> <| writes := true |>);
  (OpCode.LOG4, plain (makeLog 4) (makeGasLog 4) 6 0
    <| memorySize := Some memoryLog |> <| writes := true |>)
].

Definition frontier_system : list (Z * operation.t) := [
  (OpCode.CREATE, plain opCreate gasCreate 3 1
    <| memorySize := Some memoryCreate |> <| writes := true |> <| returns := true |>);
  (OpCode.CALL, plain opCall gasCall 7 1 <| memorySize := Some memoryCall |> <| returns := true |>);
  (OpCode.CALLCODE, plain opCallCode gasCallCode 7 1
    <| memorySize := Some memoryCall |> <| returns := true |>);
  (OpCode.RETURN, plain opReturn gasReturn 2 0
    <| memorySize := Some memoryReturn |> <| halts := true |>);
  (OpCode.SELFDESTRUCT, plain opSuicide gasSuicide 1 0 <| halts := true |> <| writes := true |>)
].

(** The families differ in their size. *)
Definition frontier_push : list (Z * operation.t) :=
  (fun n => (OpCode.PUSH1 + n - 1, plain (makePush n n) gasPush 0 1)) <$> seqZ 1 32.
Definition frontier_dup : list (Z * operation.t) :=
  (fun n => (OpCode.DUP1 + n - 1,
     plain (makeDup (Z.to_nat n)) gasDup 0 0 <| validateStack := makeDupStackFunc n |>)) <$> seqZ 1 16.
Definition frontier_swap : list (Z * operation.t) :=
  (fun n => (OpCode.SWAP1 + n - 1,
     plain (makeSwap (Z.to_nat n)) gasSwap 0 0 <| validateStack := makeSwapStackFunc (n + 1) |>))
  <$> seqZ 1 16.

Definition NewFrontierInstructionSet : InstructionSet :=
  list_to_map (frontier_arithmetic ++ frontier_comparisons ++ frontier_environment ++ frontier_block
    ++ frontier_flow ++ frontier_push ++ frontier_dup ++ frontier_swap ++ frontier_logs
    ++ frontier_system).

(** ** Rule sets *)

Definition NewHomesteadInstructionSet : InstructionSet :=
  <[OpCode.DELEGATECALL := plain opDelegateCall gasDelegateCall 6 1
      <| memorySize := Some memoryDelegateCall |> <| returns := true |>]>
  NewFrontierInstructionSet.

Definition NewByzantiumInstructionSet : InstructionSet :=
  <[OpCode.REVERT := plain opRevert gasRevert 2 0
      <| memorySize := Some memoryRevert |> <| reverts := true |> <| returns := true |>]> (
  <[OpCode.RETURNDATACOPY := plain opReturnDataCopy gasReturnDataCopy 3 0
      <| memorySize := Some memoryReturnDataCopy |>]> (
  <[OpCode.RETURNDATASIZE := plain opReturnDataSize (constGasFunc GasQuickStep) 0 1]> (
  <[OpCode.STATICCALL := plain opStaticCall gasStaticCall 6 1
      <| memorySize := Some memoryStaticCall |> <| returns := true |>]>
  NewHomesteadInstructionSet))).

Definition NewConstantinopleInstructionSet : InstructionSet :=
  <[OpCode.CREATE2 := plain opCreate2 gasCreate2 4 1
      <| memorySize := Some memoryCreate2 |> <| writes := true |> <| returns := true |>]> (
  <[OpCode.EXTCODEHASH := plain opExtCodeHash gasExtCodeHash 1 1]> (
  <[OpCode.SAR := plain opSAR (constGasFunc GasFastestStep) 2 1]> (
  <[OpCode.SHR := plain opSHR (constGasFunc GasFastestStep) 2 1]> (
  <[OpCode.SHL := plain opSHL (constGasFunc GasFastestStep) 2 1]>
  NewByzantiumInstructionSet)))).

Definition NewIstanbulInstructionSet : InstructionSet :=
  <[OpCode.SELFBALANCE := plain opSelfBalance (constGasFunc GasFastStep) 0 1]> (
  <[OpCode.CHAINID := plain opChainID (constGasFunc GasQuickStep) 0 1]>
  NewConstantinopleInstructionSet).

Definition NewLondonInstructionSet : InstructionSet :=
  <[OpCode.BASEFEE := plain opBaseFee (constGasFunc GasFastStep) 0 1]> NewIstanbulInstructionSet.

(** A table lists [SELFDESTRUCT], [CREATE], [CREATE2] and [BASEFEE] before their
    fields are changed. *)
Definition newParisInstructionSet : InstructionSet :=
  alter (fun o => o <| execute := opBaseFeeDynamic |>) OpCode.BASEFEE (
  alter (fun o => o <| gasCost := gasCreate2Eip3860 |>) OpCode.CREATE2 (
  alter (fun o => o <| gasCost := gasCreateEip3860 |>) OpCode.CREATE (
  <[OpCode.PUSH0 := plain opPush0 (constGasFunc GasQuickStep) 0 1]> (
  <[OpCode.PREVRANDAO := plain opRandom (constGasFunc GasFastStep) 0 1]> (
  alter (fun o => o <| gasCost := gasSuicideEIP3529 |>) OpCode.SELFDESTRUCT
  NewLondonInstructionSet))))).

(** Not used by any block. *)
Definition newCancunInstructionSet : InstructionSet :=
  <[OpCode.TSTORE := plain opTstore (constGasFunc WarmStorageReadCostEIP2929) 2 0]> (
  <[OpCode.TLOAD := plain opTload (constGasFunc WarmStorageReadCostEIP2929) 1 1]> (
  <[OpCode.MCOPY := plain opMcopy (constGasFunc GasFastestStep) 3 0]>
  newParisInstructionSet)).
End JumpTable.
