(* ===== verification/Interpreter.v ===== *)
(** * The interpreter

    [vm/contracts.go], [vm/interpreter.go] and [run] of [vm/evm.go]: the
    precompiled contracts, the loop over the instructions of a code, and the
    choice between them.  The loop is given as many rounds as its gas and the
    length of its code allow; the calls nest as deep as [CallCreateDepth]
    allows. *)

From S2P Require Import Prelude KeyedList ChainParam VMConfig Words Memory Analysis StakingTypes AuctionTypes Stats StackedMap State ScriptEnv StakingUtils StakingHandlers AccountLock MeterTracker EVM Instructions GasFuncs JumpTable.
From Stdlib Require Import Ascii Zpow_facts.
From stdpp Require Import list.
Import Frame operation.
Open Scope Z_scope.
Implicit Types (f : Frame.t) (input : list ascii).

Definition ErrOutOfGas : string := "out of gas".
Definition errInvalidOpcode : string := "invalid opcode".

(** ** Precompiled contracts *)

(** Cryptography: recovery of a public key and the range of a signature, the two
    hashes, the points of the pairing curve and their operations, and the
    compression function of BLAKE2. *)
Class Precompiles : Type := {
  ValidateSignatureValues : Z -> Z -> Z -> bool;
  Ecrecover : list ascii -> list ascii -> option (list ascii);
  sha256_Sum : list ascii -> list ascii;
  ripemd160_Sum : list ascii -> list ascii;
  G1 : Type;
  G2 : Type;
  newCurvePoint : list ascii -> string + G1;
  newTwistPoint : list ascii -> string + G2;
  bn256_Add : G1 -> G1 -> G1;
  bn256_ScalarMult : G1 -> Z -> G1;
  G1_Marshal : G1 -> list ascii;
  bn256_PairingCheck : list G1 -> list G2 -> bool;
  blake2b_F : list Z -> list Z -> list Z -> bool -> Z -> list Z
}.

Module PrecompiledContract.
Record t := mk { RequiredGas : list ascii -> outcome Z; Run : list ascii -> outcome (string + list ascii) }.
End PrecompiledContract.

Section Precompiled.
Context `{Machine} `{Precompiles}.

Definition len input : Z := Z.of_nat (length input).
Definition word_price (base perWord : Z) input : Z := (len input + 31) / 32 * perWord + base.

(** The two versions differ in whether they write to the input: the one before
    Istanbul can put [v] over the byte behind the signature in the caller's
    buffer, which is not modelled. *)
Definition ecrecover_Run input : outcome (string + list ascii) :=
  let input := RightPadBytes input 128 in
  r ← slice input 64 96; s ← slice input 96 128; h ← slice input 0 32; sig ← slice input 64 128;
  z ← slice input 32 63; v ← deref (input !! 63%nat);
  let v := u8 (byte_val v - 27) in
  if negb (allZero z) || negb (ValidateSignatureValues v (SetBytes r) (SetBytes s)) then Ret (inr [])
  else
    match Ecrecover h (sig ++ [val_byte v]) with
    | None => Ret (inr [])
    | Some pubKey =>
      Ret (inr (be_bytes 32 (BigToAddress (keccak (String.string_of_list_ascii (drop 1 pubKey))))))
    end.

(** The lengths in front of the operands of the modular exponentiation. *)
Definition modexp_len (n : Z) input : outcome Z := d ← getData input n 32; Ret (SetBytes d).
(** The price grows with the square of the longer operand and with the bits of
    the exponent. *)
Definition adjusted_length (expLen expHead : Z) : Z :=
  let msb := if 0 <? BitLen expHead then BitLen expHead - 1 else 0 in
  (if 32 <? expLen then 8 * (expLen - 32) else 0) + msb.
Definition mult_complexity (x : Z) : Z :=
  if x <=? 64 then x * x
  else if x <=? 1024 then x * x / 4 + (96 * x - 3072)
  else x * x / 16 + (480 * x - 199680).
Definition modexp_RequiredGas input : outcome Z :=
  baseLen ← modexp_len 0 input; expLen ← modexp_len 32 input; modLen ← modexp_len 64 input;
  let input := drop 96 input in
  expHead ← (if len input <=? baseLen then Ret 0
             else d ← getData input (Uint64 baseLen) (if 32 <? expLen then 32 else Uint64 expLen);
                  Ret (SetBytes d));
  let gas := mult_complexity (Z.max modLen baseLen) * Z.max (adjusted_length expLen expHead) 1 / 20 in
  Ret (if 64 <? BitLen gas then MaxUint64 else Uint64 gas).
(** [big.Int.Bytes]: no leading zero. *)
Definition big_bytes (x : Z) : list ascii := be_bytes (Z.to_nat ((BitLen x + 7) / 8)) x.
Definition modexp_Run input : outcome (string + list ascii) :=
  baseLen ← modexp_len 0 input; expLen ← modexp_len 32 input; modLen ← modexp_len 64 input;
  let baseLen := Uint64 baseLen in let expLen := Uint64 expLen in let modLen := Uint64 modLen in
  let input := drop 96 input in
  if (baseLen =? 0) && (modLen =? 0) then Ret (inr [])
  else
    base ← getData input 0 baseLen; exp ← getData input baseLen expLen;
    mod_ ← getData input (u64 (baseLen + expLen)) modLen;
    let mod_ := SetBytes mod_ in
    if mod_ =? 0 then Ret (inr (LeftPadBytes [] (Int64 modLen)))
    else Ret (inr (LeftPadBytes (big_bytes (Zpow_mod (SetBytes base) (SetBytes exp) mod_)) (Int64 modLen))).

Definition bn256Add_Run input : outcome (string + list ascii) :=
  x ← getData input 0 64; y ← getData input 64 64;
  match newCurvePoint x, newCurvePoint y with
  | inl err, _ => Ret (inl err)
  | _, inl err => Ret (inl err)
  | inr x, inr y => Ret (inr (G1_Marshal (bn256_Add x y)))
  end.
Definition bn256ScalarMul_Run input : outcome (string + list ascii) :=
  p ← getData input 0 64; n ← getData input 64 32;
  match newCurvePoint p with
  | inl err => Ret (inl err)
  | inr p => Ret (inr (G1_Marshal (bn256_ScalarMult p (SetBytes n))))
  end.

(** The coordinates of a pairing, 192 bytes each. *)
Fixpoint coordinates (n : nat) input : string + list G1 * list G2 :=
  match n with
  | O => inr ([], [])
  | S n =>
    match newCurvePoint (take 64 input), newTwistPoint (take 128 (drop 64 input)) with
    | inl err, _ => inl err
    | _, inl err => inl err
    | inr c, inr t =>
      match coordinates n (drop 192 input) with
      | inl err => inl err
      | inr (cs, ts) => inr (c :: cs, t :: ts)
      end
    end
  end.
Definition bn256Pairing_Run input : outcome (string + list ascii) :=
  if 0 <? len input mod 192 then Ret (inl "bad elliptic curve pairing size")
  else
    match coordinates (length input / 192) input with
    | inl err => Ret (inl err)
    | inr (cs, ts) => Ret (inr (be_bytes 32 (if bn256_PairingCheck cs ts then 1 else 0)))
    end.

Definition blake2F_RequiredGas input : outcome Z :=
  if negb (len input =? 213) then Ret 0 else d ← slice input 0 4; Ret (SetBytes d).
(** [n] little-endian words from an offset. *)
Definition words (offset n : nat) input : list Z :=
  map (fun i => SetBytes (reverse (take 8 (drop (offset + 8 * i) input)))) (seq 0 n).
Definition blake2F_Run input : outcome (string + list ascii) :=
  if negb (len input =? 213) then Ret (inl "invalid input length")
  else
    final ← deref (input !! 212%nat);
    if negb (byte_val final =? 0) && negb (byte_val final =? 1) then Ret (inl "invalid final flag")
    else
      let h := blake2b_F (words 4 8 input) (words 68 16 input) (words 196 2 input)
                 (byte_val final =? 1) (SetBytes (take 4 input)) in
      Ret (inr (h ≫= fun w => reverse (be_bytes 8 w))).

Import PrecompiledContract.

Definition contract_at (addr : Address) : option PrecompiledContract.t :=
  match addr with
  | 1 => Some (mk (fun _ => Ret 3000) ecrecover_Run)
  | 2 => Some (mk (fun i => Ret (word_price 60 12 i)) (fun i => Ret (inr (sha256_Sum i))))
  | 3 => Some (mk (fun i => Ret (word_price 600 120 i)) (fun i => Ret (inr (LeftPadBytes (ripemd160_Sum i) 32))))
  | 4 => Some (mk (fun i => Ret (word_price 15 3 i)) (fun i => Ret (inr i)))
  | 5 => Some (mk modexp_RequiredGas modexp_Run)
  | 6 => Some (mk (fun _ => Ret 500) bn256Add_Run)
  | 7 => Some (mk (fun _ => Ret 40000) bn256ScalarMul_Run)
  | 8 => Some (mk (fun i => Ret (100000 + len i / 192 * 80000)) bn256Pairing_Run)
  | 9 => Some (mk blake2F_RequiredGas blake2F_Run)
  | _ => None
  end.

(** The contracts of a rule set are the first ones. *)
Definition precompiles (c : VMChainConfig.t) (number : Z) (addr : Address)
    : option PrecompiledContract.t :=
  let last := if VMChainConfig.IsIstanbul c number then 9
              else if VMChainConfig.IsByzantium c number then 8 else 4 in
  if addr <=? last then contract_at addr else None.

Definition RunPrecompiledContract (p : PrecompiledContract.t) input (c : Contract.t)
    : outcome (Contract.t * string * option string) :=
  g ← RequiredGas p input;
  let '(c, ok) := Contract.UseGas g c in
  if negb ok then Ret (c, "", Some ErrOutOfGas)
  else
    r ← Run p input;
    match r with
    | inl err => Ret (c, "", Some err)
    | inr ret => Ret (c, String.string_of_list_ascii ret, None)
    end.
End Precompiled.

(** ** The loop *)

Section Interpreter.
Context `{ctx : Context} `{Machine} `{Precompiles}.

(** The table [NewInterpreter] chooses. *)
Definition instruction_set : InstructionSet :=
  let c := config in let n := BlockNumber in
  if VMChainConfig.IsParis c n then newParisInstructionSet
  else if VMChainConfig.IsLondon c n then NewLondonInstructionSet
  else if VMChainConfig.IsIstanbul c n then NewIstanbulInstructionSet
  else if VMChainConfig.IsConstantinople c n then NewConstantinopleInstructionSet
  else if VMChainConfig.IsByzantium c n then NewByzantiumInstructionSet
  else if VMChainConfig.IsHomestead c n then NewHomesteadInstructionSet
  else NewFrontierInstructionSet.

Definition enforceRestrictions (op : Z) (o : operation.t) f : outcome (option string) :=
  if VMChainConfig.IsByzantium config BlockNumber && EVM.readOnly (evm f) then
    sends ← (if op =? OpCode.CALL then value ← Back 2 f; Ret (0 <? BitLen value) else Ret false);
    Ret (if (op =? OpCode.TSTORE) || writes o || sends then Some errWriteProtection else None)
  else Ret None.

(** The size memory must have, in whole words. *)
Definition required_memory (o : operation.t) f : outcome (string + Z) :=
  match memorySize o with
  | None => Ret (inr 0)
  | Some size =>
    s ← size f;
    let '(memSize, overflow) := bigUint64 s in
    if overflow : bool then Ret (inl errGasUintOverflow)
    else
      let '(memorySize, overflow) := SafeMul (toWordSize memSize) 32 in
      Ret (if overflow : bool then inl errGasUintOverflow else inr memorySize)
  end.

(** The end of a run: the machine, the returned data, the gas left and the error. *)
Definition stop f (ret : string) (err : option string)
    : Frame.t + (EVM.t * string * Z * option string) := inr (evm f, ret, gas f, err).

(** After an instruction was executed. *)
Definition advance (o : operation.t) (r : Frame.t * string * option string)
    : Frame.t + (EVM.t * string * Z * option string) :=
  let '(f, res, err) := r in
  let f := if returns o then f <| evm ::= fun e => e <| EVM.returnData := res |> |> else f in
  match err with
  | Some e => stop f "" (Some e)
  | None =>
    if reverts o then stop f res (Some errExecutionReverted)
    else if halts o then stop f res None
    else inl (if jumps o then f else f <| pc ::= fun p => u64 (p + 1) |>)
  end.

(** Gas is paid, memory grows, and the instruction runs. *)
Definition pay_and_execute (o : operation.t) (memorySize : Z) f
    : outcome (Frame.t + (EVM.t * string * Z * option string)) :=
  '(f, cost) ← gasCost o f memorySize;
  match cost with
  | inl _ => Ret (stop f "" (Some ErrOutOfGas))
  | inr cost =>
    let '(c, ok) := Contract.UseGas cost (contract f) in
    if negb ok then Ret (stop f "" (Some ErrOutOfGas))
    else
      let f := f <| contract := c |> in
      let f := if 0 <? memorySize then f <| memory ::= Memory.Resize memorySize |> else f in
      r ← execute o f; Ret (advance o r)
  end.

Definition step f : outcome (Frame.t + (EVM.t * string * Z * option string)) :=
  let op := GetOp (contract f) (pc f) in
  match instruction_set !! op with
  | None => Ret (stop f "" (Some errInvalidOpcode))
  | Some o =>
    match validateStack o (stack f) with
    | Some err => Ret (stop f "" (Some err))
    | None =>
      r ← enforceRestrictions op o f;
      match r with
      | Some err => Ret (stop f "" (Some err))
      | None =>
        m ← required_memory o f;
        match m with
        | inl err => Ret (stop f "" (Some err))
        | inr memorySize => pay_and_execute o memorySize f
        end
      end
    end
  end.

(** Between two jumps the position only grows, and a jump costs gas. *)
Definition bound (c : Contract.t) : positive :=
  Z.to_pos ((Contract.Gas c + 1) * (Z.of_nat (length (code_of c)) + 2)).
Definition run_code (evm : EVM.t) (c : Contract.t) : run_result :=
  r ← rounds step (bound c) (Frame.mk evm c 0 Memory.NewMemory []);
  match r with inl _ => Panic | inr r => Ret r end.

(** [Interpreter.Run].  Code that borrowed its code is not intercepted. *)
Definition Run (evm : EVM.t) (c : Contract.t) (input : string) : run_result :=
  let evm := evm <| EVM.depth ::= Z.succ |> <| EVM.returnData := "" |> in
  let c := c <| Contract.Input := input |> in
  '(evm, c, handled) ←
    (if Contract.CodeAddr c =? Contract.self c then InterceptContractCall evm c (EVM.readOnly evm)
     else Ret (evm, c, None));
  '(evm, ret, g, err) ←
    match handled with
    | Some (out, err) => Ret (evm, out, Contract.Gas c, err)
    | None =>
      if (String.length (Contract.Code c) =? 0)%nat then Ret (evm, "", Contract.Gas c, None)
      else run_code evm c
    end;
  Ret (evm <| EVM.depth ::= Z.pred |>, ret, g, err).

(** [run] of [vm/evm.go]. *)
Definition run_contract (evm : EVM.t) (c : Contract.t) (input : string) : run_result :=
  match precompiles config BlockNumber (Contract.CodeAddr c) with
  | Some p =>
    '(c, ret, err) ← RunPrecompiledContract p (String.list_ascii_of_string input) c;
    Ret (evm, ret, Contract.Gas c, err)
  | None => Run evm c input
  end.
End Interpreter.

(** ** The machine

    A code that calls runs on a machine with one level less; a call at a depth
    beyond [CallCreateDepth] runs nothing. *)

Section Machine.
Context `{Precompiles} (hash : string -> Bytes32).

Fixpoint interpreter (levels : nat) : Machine :=
  match levels with
  | O => {| keccak := hash; run := fun _ _ _ _ => Panic |}
  | S levels => {| keccak := hash; run := fun ctx => @run_contract ctx (interpreter levels) _ |}
  end.

Definition levels : nat := Z.to_nat (CallCreateDepth + 2).
Definition machine : Machine := interpreter levels.
End Machine.
