(* ===== verification/Evolution.v ===== *)
(** * How a run of code changes the machine

    What every run of code does to the machine, whatever it computes: it keeps
    the mode, it writes to the journal above every checkpoint that was open, and
    in a static call it changes nothing that can be seen.  The file shows it for
    the writes the state offers, for the bracket of a snapshot and a revert, and
    for the calls and creations, of a machine whose runs have the property; the
    interpreter's theorems close the circle. *)

From S2P Require Import Prelude KeyedList ChainParam VMConfig Words StakingTypes AuctionTypes Stats StackedMap State ScriptEnv StakingUtils StakingHandlers AccountLock MeterTracker EVM Instructions.
Import VMState StackedMap.
Implicit Types (d : VMState.t) (evm : EVM.t).

(** ** The journal *)

(** What can be seen of the revisioned map: not the checkpoints of the state, and
    not the preimages, which only a debugger reads. *)
Definition observed (k : dbkey) : bool :=
  match k with stateRevKey | preimageKey _ => false | _ => true end.
Definition seen d (k : dbkey) : option dbval := spec_get getter (mapStack (repo d)) k.

(** Nothing that can be seen has changed. *)
Record frozen d d' : Prop := {
  frozen_state : state d' = state d;
  frozen_transient : transientStorage d' = transientStorage d;
  frozen_logs : GetLogs d' = GetLogs d;
  frozen_seen k : observed k = true -> seen d' k = seen d k
}.

#[global] Instance frozen_preorder : PreOrder frozen.
Proof.
  split; [by intros d; split|]. intros d1 d2 d3 [? ? ? H1] [? ? ? H2].
  split; try congruence. intros k Hk. by rewrite H2, H1.
Qed.

(** The journal only grows above the checkpoints that are open. *)
Definition above d d' : Prop :=
  wf (repo d) -> forall n, (n < length (mapStack (repo d)))%nat ->
  rtc (step_above n) (repo d) (repo d').

Lemma above_wf d d' : wf (repo d) -> above d d' ->
  wf (repo d') /\ (length (mapStack (repo d)) <= length (mapStack (repo d')))%nat.
Proof.
  intros Hw Ha. pose proof (wf_depth _ Hw) as Hd.
  destruct (steps_above_inv (length (mapStack (repo d)) - 1) (repo d) (repo d')) as (? & ? & _);
    [apply Ha; [done|]|done| |split; [done|lia]]; destruct (mapStack (repo d)); simpl in *; try done; lia.
Qed.

#[global] Instance above_preorder : PreOrder above.
Proof.
  split; [intros d _ n _; apply rtc_refl|]. intros d1 d2 d3 H1 H2 Hw n Hn.
  destruct (above_wf d1 d2 Hw H1) as [Hw2 ?].
  etransitivity; [by apply H1|apply H2; [done|lia]].
Qed.

(** The two together; [P] is whether the call is static. *)
Record evolves_db (P : Prop) d d' : Prop := {
  ev_above : above d d';
  ev_frozen : P -> wf (repo d) -> frozen d d'
}.

#[global] Instance evolves_db_preorder P : PreOrder (evolves_db P).
Proof.
  split; [by intros d; split|]. intros d1 d2 d3 [A1 F1] [A2 F2]. split; [by etransitivity|].
  intros HP Hw. destruct (above_wf d1 d2 Hw A1) as [Hw2 _]. etransitivity; eauto.
Qed.

Lemma journal_put_unseen st l k v :
  observed k = false ->
  journal_levels collect ([], []) (st ++ [put_level l k v]) =
  journal_levels collect ([], []) (st ++ [l]).
Proof.
  intros Hk. assert (forall acc j, journal_level collect acc (j ++ [(k, v)]) =
    journal_level collect acc j) as Hj.
  { intros acc j. revert acc. induction j as [|[k' v'] j IH]; intros acc; simpl; [by destruct k|].
    destruct (collect acc k' v') as [acc' []]; [apply IH|done]. }
  generalize (@nil Log.t, @nil Transfer.t). induction st as [|l' st IH]; intros acc; simpl.
  - by rewrite Hj.
  - destruct (journal_level collect acc (journal l')) as [acc' []]; [apply IH|done].
Qed.

Lemma repo_put_ret k v d : wf (repo d) ->
  exists st l m r', repo d = StackedMap.mk (st ++ [l]) m /\
    repo_put k v d = Ret (d <| repo := r' |>) /\ Put (repo d) k v = Ret r' /\
    mapStack r' = st ++ [put_level l k v] /\ wf r'.
Proof.
  intros Hw. destruct (repo d) as [st0 m] eqn:E.
  destruct (split_last st0 (wf_depth _ Hw)) as (st & l & ->).
  destruct (Put_spec st l m k v Hw) as (m' & HP & Hw').
  eexists st, l, m, _. split_and!; [done|unfold repo_put; rewrite E, HP; done|exact HP|done|done].
Qed.

Lemma put_inv k v d d' : repo_put k v d = Ret d' ->
  exists r, Put (repo d) k v = Ret r /\ d' = d <| repo := r |>.
Proof. unfold repo_put. intros Hp. inv_bind Hp. injection Hp as <-. eauto. Qed.

Lemma put_evolves (P : Prop) k v d d' :
  (P -> observed k = false) -> repo_put k v d = Ret d' -> evolves_db P d d'.
Proof.
  intros Hk Hp. destruct (put_inv _ _ _ _ Hp) as (r & HP & ->). split.
  - intros _ n _. apply rtc_once. simpl. by eapply step_put.
  - intros HP' Hw. destruct (repo_put_ret k v d Hw) as (st & l & m & r' & E & _ & HPut & Hs & _).
    rewrite HPut in HP. injection HP as <-. split; simpl; [done|done| |].
    + unfold GetLogs, Journal. simpl. rewrite Hs, E. simpl. by apply journal_put_unseen, Hk.
    + intros k' Hk'. unfold seen. simpl. rewrite Hs, E. simpl. rewrite spec_get_put.
      destruct (decide (k' = k)) as [->|]; [|done]. by rewrite Hk in Hk'.
Qed.

(** A write to the state itself is not made in a static call. *)
Lemma state_evolves (P : Prop) d s : ~ P -> evolves_db P d (d <| state := s |>).
Proof. intros HP. split; [|tauto]. intros _ n _. apply rtc_refl. Qed.

(** ** Snapshots *)

Lemma Snapshot_inv d d1 rev : Snapshot d = Ret (d1, rev) ->
  exists d0, repo_put stateRevKey (VRevision (state d)) d = Ret d0 /\
    d1 = d0 <| repo := fst (Push (repo d0)) |> /\ rev = Depth (repo d0).
Proof.
  unfold Snapshot. intros Hs. inv_bind Hs. rewrite Push_eq in Hs. injection Hs as <- <-.
  exists r. by rewrite Push_eq.
Qed.

Lemma snapshot_evolves P d d1 rev : Snapshot d = Ret (d1, rev) -> evolves_db P d d1.
Proof.
  intros Hs. destruct (Snapshot_inv _ _ _ Hs) as (d0 & Hp & -> & _).
  etransitivity; [by apply (put_evolves P stateRevKey _ _ _ (fun _ => eq_refl) Hp)|]. split.
  - intros _ n _. simpl. apply rtc_once, step_push.
  - intros _ _. rewrite Push_eq. split; simpl; [done|done| |].
    + unfold GetLogs, Journal. simpl. generalize (@nil Log.t, @nil Transfer.t).
      induction (mapStack (repo d0)) as [|l st IH]; intros acc; simpl; [done|].
      destruct (journal_level collect acc (journal l)) as [acc' []]; [apply IH|done].
    + intros k _. unfold seen, spec_get. simpl. rewrite omap_app. simpl. rewrite lookup_empty.
      simpl. by rewrite app_nil_r.
Qed.

(** The revert of a snapshot restores the map and the state of the time of the
    snapshot, whatever happened in between.  What is left is the checkpoint
    itself, and what the state does not journal. *)
Lemma revert_exact d d1 rev d2 :
  wf (repo d) -> Snapshot d = Ret (d1, rev) -> above d1 d2 ->
  exists d0, repo_put stateRevKey (VRevision (state d)) d = Ret d0 /\
    RevertToSnapshot rev d2 =
    Ret (d2 <| repo := repo d0 |> <| state := State.RevertTo (state d) (state d2) |>).
Proof.
  intros Hw Hs Ha. destruct (Snapshot_inv _ _ _ Hs) as (d0 & Hp & -> & ->).
  exists d0. split; [done|].
  destruct (repo_put_ret stateRevKey (VRevision (state d)) d Hw) as (st & l & m & r' & E & Hp' & _ & Hm & Hw0).
  rewrite Hp' in Hp. injection Hp as <-. simpl in *.
  assert (PopTo (repo d2) (Depth r') = Ret r') as HP.
  { apply PopTo_restores; [done|]. apply Ha; simpl; [by apply wf_Push|].
    unfold stack_push. rewrite length_app. simpl. lia. }
  unfold RevertToSnapshot. rewrite HP. simpl. unfold repo_get. simpl.
  rewrite Get_spec by done. simpl. by rewrite Hm, spec_get_put, decide_True by done.
Qed.

Lemma bracket_evolves (P : Prop) d d1 rev d2 d3 :
  Snapshot d = Ret (d1, rev) -> evolves_db P d1 d2 -> RevertToSnapshot rev d2 = Ret d3 ->
  evolves_db P d d3.
Proof.
  intros Hs [Ha Hf] Hr. split.
  - intros Hw n Hn. destruct (revert_exact _ _ _ _ Hw Hs Ha) as (d0 & Hp & Hr'). rewrite Hr' in Hr. injection Hr as <-.
    destruct (put_inv _ _ _ _ Hp) as (r & HP & ->). apply rtc_once. simpl. by eapply step_put.
  - intros HP Hw. destruct (revert_exact _ _ _ _ Hw Hs Ha) as (d0 & Hp & Hr'). rewrite Hr' in Hr. injection Hr as <-.
    destruct (above_wf d d1 Hw (ev_above _ _ _ (snapshot_evolves P _ _ _ Hs))) as [Hw1 _].
    pose proof (ev_frozen _ _ _ (snapshot_evolves P _ _ _ Hs) HP Hw) as [S1 T1 _ _].
    pose proof (Hf HP Hw1) as [S2 T2 _ _].
    pose proof (ev_frozen _ _ _ (put_evolves P stateRevKey _ _ _ (fun _ => eq_refl) Hp) HP Hw) as [_ _ L0 V0].
    split; simpl; [|congruence|exact L0|exact V0].
    rewrite S2, S1. apply RevertTo_self.
Qed.

(** ** Gas of the calls *)

Section Gas.
Context `{ctx : Context} `{Machine}.

(** The code of a contract leaves at most the gas it was given. *)
Definition run_keeps_gas : Prop := forall evm c input evm' ret g err,
  0 <= Contract.Gas c -> run ctx evm c input = Ret (evm', ret, g, err) -> 0 <= g <= Contract.Gas c.

(** A native method gives back gas, so that a machine which has some promises
    only that the gas left is not negative; [frugal] says that it has none, and
    then a run leaves at most the gas it was given. *)
Definition run_gas (frugal : bool) : Prop := forall evm c input evm' ret g err,
  0 <= Contract.Gas c -> run ctx evm c input = Ret (evm', ret, g, err) ->
  0 <= g /\ (frugal = true -> g <= Contract.Gas c).
Lemma run_gas_frugal : run_gas true <-> run_keeps_gas.
Proof. split; intros Hr evm c input evm' ret g err Hg Hx; apply Hr in Hx; lia. Qed.

Context {frugal : bool}.
Hypothesis Hrun : run_gas frugal.

Lemma settle_call_gas rev evm ret gas err evm' ret' g err' :
  0 <= gas -> settle_call rev (evm, ret, gas, err) = Ret (evm', ret', g, err') -> 0 <= g <= gas.
Proof.
  intros Hg. unfold settle_call. destruct err as [e|]; [|intros [=]; lia].
  intros Hs. inv_bind Hs. injection Hs as _ _ <- _. case_match; lia.
Qed.

Lemma settle_run_gas rev evm c input evm' ret g err :
  0 <= Contract.Gas c -> (r ← run ctx evm c input; settle_call rev r) = Ret (evm', ret, g, err) ->
  0 <= g /\ (frugal = true -> g <= Contract.Gas c).
Proof.
  intros Hg Hc. inv_bind Hc. destruct r as [[[evm2 ret2] g2] err2].
  apply Hrun in E; [|done]. apply settle_call_gas in Hc; lia.
Qed.

Lemma call_gas caller addr input gas value token evm evm' ret g err :
  0 <= gas -> call caller addr input gas value token evm = Ret (evm', ret, g, err) ->
  0 <= g /\ (frugal = true -> g <= gas).
Proof.
  intros Hg. unfold call. repeat (case_match; [intros [=]; lia|]).
  intros Hc. inv_bind Hc. destruct r as [evm1 rev]. case_match; [injection Hc; lia|].
  inv_bind Hc. by apply settle_run_gas in Hc.
Qed.

Lemma CallCode_gas caller addr input gas value token evm evm' ret g err :
  0 <= gas -> CallCode caller addr input gas value token evm = Ret (evm', ret, g, err) ->
  0 <= g /\ (frugal = true -> g <= gas).
Proof.
  intros Hg. unfold CallCode. repeat (case_match; [intros [=]; lia|]).
  intros Hc. inv_bind Hc. destruct r as [evm1 rev]. by apply settle_run_gas in Hc.
Qed.

Lemma DelegateCall_gas parent addr input gas evm evm' ret g err :
  0 <= gas -> DelegateCall parent addr input gas evm = Ret (evm', ret, g, err) ->
  0 <= g /\ (frugal = true -> g <= gas).
Proof.
  intros Hg. unfold DelegateCall. repeat (case_match; [intros [=]; lia|]).
  intros Hc. inv_bind Hc. destruct r as [evm1 rev]. by apply settle_run_gas in Hc.
Qed.

Lemma StaticCall_gas caller addr input gas evm evm' ret g err :
  0 <= gas -> StaticCall caller addr input gas evm = Ret (evm', ret, g, err) ->
  0 <= g /\ (frugal = true -> g <= gas).
Proof.
  intros Hg. unfold StaticCall. repeat (case_match; [intros [=]; lia|]).
  intros Hc. inv_bind Hc. destruct r as [evm1 rev]. rewrite bind_assoc in Hc. inv_bind Hc.
  destruct r as [[[evm2 ret2] g2] err2]. injection Hc as _ _ <- _.
  by apply settle_run_gas in E0.
Qed.

Lemma create_gas caller code gas value token addr evm evm' ret g caddr err :
  0 <= gas -> create caller code gas value token addr evm = Ret (evm', ret, g, caddr, err) ->
  0 <= g /\ (frugal = true -> g <= gas).
Proof.
  intros Hg. unfold create. repeat (case_match; [intros [=]; lia|]).
  intros Hc. inv_bind Hc. destruct r as [evm1 rev]. inv_bind Hc. inv_bind Hc.
  case_match; [injection Hc; lia|].
  inv_bind Hc. destruct r1 as [[[evm2 ret2] g2] err2].
  apply Hrun in E2; [|done]. simpl in E2.
  destruct (store_code addr (evm2, ret2, g2, err2)) as [[[[evm3 ret3] g3] err3] big] eqn:Es.
  assert (0 <= g3 <= g2) as Hg3.
  { unfold store_code in Es. destruct err2; [injection Es; lia|].
    destruct (MaxCodeSize <? _); [injection Es; lia|].
    destruct (Z.ltb_spec g2 (u64 (Z.of_nat (String.length ret2) * CreateDataGas))); [injection Es; lia|].
    injection Es as _ _ <- _ _. unfold u64 in *.
    pose proof (Z.mod_pos_bound (Z.of_nat (String.length ret2) * CreateDataGas) (2 ^ 64)). lia. }
  case_match; [inv_bind Hc|]; injection Hc as _ _ <- _ _; repeat case_match; lia.
Qed.
End Gas.

(** ** The machine *)

Section Modes.
Context `{ctx : Context}.

Definition byzantium : Prop := VMChainConfig.IsByzantium config BlockNumber = true.
Definition static evm : Prop := byzantium /\ EVM.readOnly evm = true.

Record evolves evm evm' : Prop := {
  ev_depth : EVM.depth evm' = EVM.depth evm;
  ev_readOnly : EVM.readOnly evm' = EVM.readOnly evm;
  ev_db : evolves_db (static evm) (EVM.StateDB evm) (EVM.StateDB evm')
}.

Lemma evolves_db_weaken (P Q : Prop) d d' : (Q -> P) -> evolves_db P d d' -> evolves_db Q d d'.
Proof. intros HQ [Ha Hf]. split; auto. Qed.

#[global] Instance evolves_preorder : PreOrder evolves.
Proof.
  split; [intros evm; split; done|]. intros e1 e2 e3 [D1 R1 E1] [D2 R2 E2].
  split; [congruence|congruence|]. etransitivity; [done|].
  eapply evolves_db_weaken; [|exact E2]. unfold static. by rewrite R1.
Qed.
End Modes.

(** What the code that is not the machine's own promises it: the transfers, the
    hooks and the native methods write to the journal only, a transfer of nothing
    does nothing, and in a static call a native method changes nothing that can
    be seen.  In a [frugal] machine none gives back gas. *)
Class Tame (frugal : bool) (ctx : Context) : Prop := {
  tame_transfer (P : Prop) a b v t d d' :
    (P -> v = 0) -> Transfer_ a b v t d = Ret d' -> evolves_db P d d';
  tame_create (P : Prop) a b d d' : ~ P -> OnCreateContract a b d = Ret d' -> evolves_db P d d';
  tame_suicide (P : Prop) a b d d' : ~ P -> OnSuicideContract a b d = Ret d' -> evolves_db P d d';
  tame_intercept evm c evm' c' handled : 0 <= Contract.Gas c ->
    InterceptContractCall evm c (EVM.readOnly evm) = Ret (evm', c', handled) ->
    evolves evm evm' /\ 0 <= Contract.Gas c' /\ (frugal = true -> Contract.Gas c' <= Contract.Gas c)
}.

Section Machine.
Context `{ctx : Context} {frugal : bool} `{!Tame frugal ctx} `{Machine}.

Lemma on_db_evolves g evm evm' :
  (forall d', g (EVM.StateDB evm) = Ret d' -> evolves_db (static evm) (EVM.StateDB evm) d') ->
  on_db g evm = Ret evm' -> evolves evm evm'.
Proof. intros Hg. unfold on_db. intros Ho. inv_bind Ho. injection Ho as <-. split; eauto. Qed.

Lemma snapshot_inv evm evm1 rev : snapshot evm = Ret (evm1, rev) ->
  exists d1, Snapshot (EVM.StateDB evm) = Ret (d1, rev) /\ evm1 = evm <| EVM.StateDB := d1 |>.
Proof. unfold snapshot. intros Hs. inv_ret Hs. eauto. Qed.

Lemma snapshot_evm evm evm1 rev : snapshot evm = Ret (evm1, rev) -> evolves evm evm1.
Proof.
  intros Hs. destruct (snapshot_inv _ _ _ Hs) as (d1 & Hd & ->).
  split; [done|done|]. by eapply snapshot_evolves.
Qed.

Lemma revert_evm evm evm1 rev evm2 evm3 :
  snapshot evm = Ret (evm1, rev) -> evolves evm1 evm2 ->
  on_db (RevertToSnapshot rev) evm2 = Ret evm3 -> evolves evm evm3.
Proof.
  intros Hs [D R E] Ho. destruct (snapshot_inv _ _ _ Hs) as (d1 & Hd & ->).
  unfold on_db in Ho. inv_bind Ho. injection Ho as <-.
  split; [done|done|]. by eapply bracket_evolves.
Qed.

(** Every run of the machine evolves it. *)
Definition run_evolves : Prop := forall evm c input evm' ret g err,
  0 <= Contract.Gas c -> run ctx evm c input = Ret (evm', ret, g, err) -> evolves evm evm'.
Hypothesis Hrun : run_evolves.

Lemma settle_evolves evm evm1 rev evm2 ret2 g2 err2 evm' ret g err :
  snapshot evm = Ret (evm1, rev) -> evolves evm1 evm2 ->
  settle_call rev (evm2, ret2, g2, err2) = Ret (evm', ret, g, err) -> evolves evm evm'.
Proof.
  intros Hs He. unfold settle_call. destruct err2; intros Hx.
  - inv_bind Hx. injection Hx as <- _ _ _. by eapply revert_evm.
  - injection Hx as <- _ _ _. etransitivity; [by eapply snapshot_evm|done].
Qed.

Lemma call_evolves caller addr input gas value token evm evm' ret g err :
  0 <= gas -> (static evm -> value = 0) ->
  call caller addr input gas value token evm = Ret (evm', ret, g, err) -> evolves evm evm'.
Proof.
  intros Hg Hv. unfold call. repeat (case_match; [by intros [= <- _ _ _]|]).
  intros Hc. inv_bind Hc. destruct r as [evm1 rev].
  pose proof (snapshot_evm _ _ _ E) as He1. case_match; [by injection Hc as <- _ _ _|].
  inv_bind Hc. inv_bind Hc. destruct r0 as [[[evm2 ret2] g2] err2].
  eapply settle_evolves; [exact E| |exact Hc]. etransitivity; [|by eapply Hrun; [|exact E1]].
  eapply on_db_evolves; [|exact E0]. intros d'. apply tame_transfer.
  unfold static. by rewrite (ev_readOnly _ _ He1).
Qed.

Lemma CallCode_evolves caller addr input gas value token evm evm' ret g err :
  0 <= gas -> CallCode caller addr input gas value token evm = Ret (evm', ret, g, err) ->
  evolves evm evm'.
Proof.
  intros Hg. unfold CallCode. repeat (case_match; [by intros [= <- _ _ _]|]).
  intros Hc. inv_bind Hc. destruct r as [evm1 rev]. inv_bind Hc. destruct r as [[[evm2 ret2] g2] err2].
  eapply settle_evolves; [exact E| |exact Hc]. by eapply Hrun; [|exact E0].
Qed.

Lemma DelegateCall_evolves parent addr input gas evm evm' ret g err :
  0 <= gas -> DelegateCall parent addr input gas evm = Ret (evm', ret, g, err) -> evolves evm evm'.
Proof.
  intros Hg. unfold DelegateCall. repeat (case_match; [by intros [= <- _ _ _]|]).
  intros Hc. inv_bind Hc. destruct r as [evm1 rev]. inv_bind Hc. destruct r as [[[evm2 ret2] g2] err2].
  eapply settle_evolves; [exact E| |exact Hc]. by eapply Hrun; [|exact E0].
Qed.

(** A static call is static inside, also when the caller is not. *)
Lemma StaticCall_inv caller addr input gas evm evm' ret g err :
  0 <= gas -> StaticCall caller addr input gas evm = Ret (evm', ret, g, err) ->
  EVM.depth evm' = EVM.depth evm /\ EVM.readOnly evm' = EVM.readOnly evm /\
  evolves_db byzantium (EVM.StateDB evm) (EVM.StateDB evm').
Proof.
  intros Hg. unfold StaticCall. repeat (case_match; [by intros [= <- _ _ _]|]).
  intros Hc. inv_bind Hc. destruct r as [evm1 rev]. inv_bind Hc. destruct r as [[[evm2 ret2] g2] err2].
  inv_bind Hc. destruct r as [[[evm3 ret3] g3] err3].
  assert (evolves (evm <| EVM.readOnly := true |>) evm3) as [D R Ed].
  { eapply settle_evolves; [exact E| |exact E1]. by eapply Hrun; [|exact E0]. }
  assert (evolves_db byzantium (EVM.StateDB evm) (EVM.StateDB evm3)) as Hx.
  { eapply evolves_db_weaken; [|exact Ed]. by intros; split. }
  simpl in *. destruct (EVM.readOnly evm) eqn:Ero; injection Hc as <- _ _ _; auto.
Qed.

Lemma StaticCall_evolves caller addr input gas evm evm' ret g err :
  0 <= gas -> StaticCall caller addr input gas evm = Ret (evm', ret, g, err) -> evolves evm evm'.
Proof.
  intros Hg Hc. destruct (StaticCall_inv _ _ _ _ _ _ _ _ _ Hg Hc) as (D & R & Ed).
  split; [done|done|]. eapply evolves_db_weaken; [|exact Ed]. by intros [].
Qed.

Lemma create_evolves caller code gas value token addr evm evm' ret g caddr err :
  0 <= gas -> ~ static evm ->
  create caller code gas value token addr evm = Ret (evm', ret, g, caddr, err) -> evolves evm evm'.
Proof.
  intros Hg Hn. unfold create. do 2 (case_match; [by intros [= <- _ _ _ _]|]).
  case_match; [by intros [= <- _ _ _ _]; split|].
  set (evm0 := evm <| EVM.contractCreationCount ::= _ |>). intros Hc.
  enough (evolves evm0 evm') by (transitivity evm0; [by split|done]). inv_bind Hc. destruct r as [evm1 rev]. inv_bind Hc. inv_bind Hc.
  rename r into evm2, r0 into evm3.
  pose proof (snapshot_evm _ _ _ E) as He1.
  assert (~ static evm1) as Hn1 by (unfold static; by rewrite (ev_readOnly _ _ He1)).
  assert (evolves evm1 evm2) as He2.
  { destruct (0 <? String.length code)%nat; [|by injection E0 as <-].
    eapply on_db_evolves; [|exact E0]. intros d'. by apply tame_create. }
  assert (~ static evm2) as Hn2 by (unfold static; by rewrite (ev_readOnly _ _ He2)).
  assert (evolves evm1 evm3) as He3.
  { etransitivity; [exact He2|]. eapply on_db_evolves; [|exact E1]. intros d'. apply tame_transfer. tauto. }
  case_match; [injection Hc as <- _ _ _ _; by etransitivity|].
  inv_bind Hc. destruct r as [[[evm4 ret4] g4] err4].
  assert (evolves evm1 evm4) as He4 by (etransitivity; [exact He3|by eapply Hrun; [|exact E2]]).
  destruct (store_code addr (evm4, ret4, g4, err4)) as [[[[evm5 ret5] g5] err5] big] eqn:Es.
  assert (evolves evm1 evm5) as He5.
  { etransitivity; [exact He4|]. unfold store_code in Es.
    repeat case_match; simplify_eq; try done.
    all: split; [done|done|]; apply state_evolves; unfold static; by rewrite (ev_readOnly _ _ He4). }
  case_match; [inv_bind Hc; injection Hc as <- _ _ _ _; by eapply revert_evm|].
  injection Hc as <- _ _ _ _. by etransitivity.
Qed.

(** The depth and the mode are back after every call and creation. *)
Lemma settle_mode rev r evm' ret g err : settle_call rev r = Ret (evm', ret, g, err) ->
  let '(evm, _, _, _) := r in
  EVM.depth evm' = EVM.depth evm /\ EVM.readOnly evm' = EVM.readOnly evm.
Proof.
  destruct r as [[[evm ret0] g0] err0]. unfold settle_call. destruct err0; intros Hx.
  - inv_bind Hx. injection Hx as <- _ _ _. unfold on_db in E. inv_bind E. by injection E as <-.
  - by injection Hx as <- _ _ _.
Qed.

Lemma on_db_mode g evm evm' : on_db g evm = Ret evm' ->
  EVM.depth evm' = EVM.depth evm /\ EVM.readOnly evm' = EVM.readOnly evm.
Proof. unfold on_db. intros Ho. inv_bind Ho. by injection Ho as <-. Qed.

Lemma call_mode caller addr input gas value token evm evm' ret g err :
  0 <= gas -> call caller addr input gas value token evm = Ret (evm', ret, g, err) ->
  EVM.depth evm' = EVM.depth evm /\ EVM.readOnly evm' = EVM.readOnly evm.
Proof.
  intros Hg. unfold call. repeat (case_match; [by intros [= <- _ _ _]|]).
  intros Hc. inv_bind Hc. destruct r as [evm1 rev].
  destruct (snapshot_evm _ _ _ E) as [D1 R1 _]. case_match; [by injection Hc as <- _ _ _|].
  inv_bind Hc. inv_bind Hc. destruct r0 as [[[evm2 ret2] g2] err2].
  apply Hrun in E1 as [D2 R2 _]; [|done]. apply on_db_mode in E0 as [D3 R3].
  apply settle_mode in Hc as [D4 R4]. split; congruence.
Qed.

Lemma create_mode caller code gas value token addr evm evm' ret g caddr err :
  0 <= gas -> create caller code gas value token addr evm = Ret (evm', ret, g, caddr, err) ->
  EVM.depth evm' = EVM.depth evm /\ EVM.readOnly evm' = EVM.readOnly evm.
Proof.
  intros Hg. unfold create. do 3 (case_match; [by intros [= <- _ _ _ _]|]).
  intros Hc. inv_bind Hc. destruct r as [evm1 rev]. inv_bind Hc. inv_bind Hc.
  destruct (snapshot_evm _ _ _ E) as [D1 R1 _].
  apply on_db_mode in E1 as [D3 R3].
  assert (EVM.depth r = EVM.depth evm1 /\ EVM.readOnly r = EVM.readOnly evm1) as [D2 R2].
  { destruct (0 <? String.length code)%nat; [by eapply on_db_mode|by injection E0 as <-]. }
  case_match; [injection Hc as <- _ _ _ _; simpl in *; split; congruence|].
  inv_bind Hc. destruct r1 as [[[evm4 ret4] g4] err4]. apply Hrun in E1 as [D4 R4 _]; [|done].
  destruct (store_code addr (evm4, ret4, g4, err4)) as [[[[evm5 ret5] g5] err5] big] eqn:Es.
  assert (EVM.depth evm5 = EVM.depth evm4 /\ EVM.readOnly evm5 = EVM.readOnly evm4) as [D5 R5].
  { unfold store_code in Es. by repeat case_match; simplify_eq. }
  case_match; [inv_bind Hc; apply on_db_mode in E1 as [D6 R6]|];
    injection Hc as <- _ _ _ _; simpl in *; split; congruence.
Qed.
End Machine.
