(* ===== verification/Totality.v ===== *)
(** * The state under the machine, and the calls, never panic

    What keeps the code from a panic of the program: the journal is well formed
    and every entry has the type of its key, and the numbers the state hands out
    are not negative.  [db_ok] is this invariant; the writes, the snapshots and
    the reverts keep it, and the calls return when the runs they start do. *)

From S2P Require Import Prelude KeyedList ChainParam VMConfig Words Memory Analysis StakingTypes AuctionTypes Stats StackedMap State ScriptEnv StakingUtils StakingHandlers AccountLock MeterTracker EVM Instructions Evolution.
From Stdlib Require Import Ascii.
From stdpp Require Import list.
Import VMState StackedMap.
Open Scope Z_scope.
Implicit Types (d : VMState.t) (evm : EVM.t).

(** ** The invariant *)

Record state_ok (s : State.t) : Prop := {
  ok_energy a : 0 <= State.GetEnergy s a;
  ok_hash a : 0 <= State.GetCodeHash s a;
  ok_storage a k : 0 <= State.GetStorage s a k;
  ok_code a : Z.of_nat (String.length (State.GetCode s a)) < 2 ^ 62
}.

Definition typed (k : dbkey) (v : dbval) : Prop :=
  match k, v with
  | suicideFlagKey _, VFlag _ | refundKey, VRefund _ | preimageKey _, VPreimage _
  | eventKey, VLog _ | transferKey, VTransfer _ => True
  | stateRevKey, VRevision s => state_ok s
  | _, _ => False
  end.

Record db_ok d : Prop := {
  db_wf : wf (repo d);
  db_typed l k v : l ∈ mapStack (repo d) -> kvs l !! k = Some v -> typed k v;
  db_state : state_ok (state d)
}.

Lemma state_ok_revert s s' : state_ok s -> state_ok (State.RevertTo s s').
Proof. intros [H1 H2 H3 H4]. split; [exact H1|exact H2|exact H3|exact H4]. Qed.

Lemma state_ok_same s s' :
  State.accounts s' = State.accounts s -> State.codes s' = State.codes s ->
  State.storage s' = State.storage s -> state_ok s -> state_ok s'.
Proof.
  intros Ea Ec Es [H1 H2 H3 H4].
  split; unfold State.GetEnergy, State.GetCodeHash, State.GetStorage, State.GetCode, State.getAccount in *;
    rewrite ?Ea, ?Ec, ?Es; auto.
Qed.

Lemma state_ok_storage a k v s : state_ok s -> 0 <= v -> state_ok (State.SetStorage a k v s).
Proof.
  intros [H1 H2 H3 H4] Hv. split; [exact H1|exact H2| |exact H4].
  intros a' k'. unfold State.GetStorage, State.SetStorage. simpl.
  destruct (decide ((a', k') = (a, k))) as [->|]; [by rewrite lookup_insert_eq|].
  rewrite lookup_insert_ne by done. apply H3.
Qed.

(** A new account record; the code may change with it. *)
Lemma state_ok_account a acc s :
  state_ok s -> 0 <= Account.Energy acc -> 0 <= default 0 (Account.CodeHash acc) ->
  state_ok (State.updateAccount a acc s).
Proof.
  intros [H1 H2 H3 H4] He Hh.
  split; [| |exact H3|exact H4]; intros a'; specialize (H1 a'); specialize (H2 a');
    unfold State.GetEnergy, State.GetCodeHash, State.getAccount, Account.CalcEnergy in *; simpl;
    (destruct (decide (a' = a)) as [->|]; [by rewrite lookup_insert_eq|by rewrite lookup_insert_ne]).
Qed.

Lemma state_ok_codes a code s :
  state_ok s -> Z.of_nat (String.length code) < 2 ^ 62 -> state_ok (s <| State.codes ::= <[a := code]> |>).
Proof.
  intros [H1 H2 H3 H4] Hc. split; [exact H1|exact H2|exact H3|].
  intros a'. unfold State.GetCode. simpl.
  destruct (decide (a' = a)) as [->|]; [by rewrite lookup_insert_eq|].
  rewrite lookup_insert_ne by done. apply H4.
Qed.

Lemma state_ok_energy a e s : state_ok s -> 0 <= e -> state_ok (State.SetEnergy a e s).
Proof. intros Hs He. apply state_ok_account; [done|done|]. apply (ok_hash _ Hs a). Qed.
Lemma state_ok_balance a b s : state_ok s -> state_ok (State.SetBalance a b s).
Proof. intros Hs. apply state_ok_account; [done|apply (ok_energy _ Hs a)|apply (ok_hash _ Hs a)]. Qed.
Lemma state_ok_master a m s : state_ok s -> state_ok (State.SetMaster a m s).
Proof. intros Hs. apply state_ok_account; [done|apply (ok_energy _ Hs a)|apply (ok_hash _ Hs a)]. Qed.
Lemma state_ok_delete a s : state_ok s -> state_ok (State.Delete a s).
Proof. intros Hs. apply state_ok_account; [by apply state_ok_codes|done|done]. Qed.
Lemma state_ok_setcode hash a code s : (forall c, 0 <= hash c) ->
  state_ok s -> Z.of_nat (String.length code) < 2 ^ 62 -> state_ok (State.SetCode hash a code s).
Proof.
  intros Hh Hs Hc. pose proof (state_ok_codes a code s Hs Hc) as Hs'.
  apply state_ok_account; [done|apply (ok_energy _ Hs' a)|]. simpl. case_match; simpl; [apply Hh|done].
Qed.
Lemma state_ok_add_energy a v s : state_ok s -> 0 <= v -> state_ok (State.AddEnergy a v s).
Proof.
  intros Hs Hv. unfold State.AddEnergy. case_match; [done|]. apply state_ok_energy; [done|].
  pose proof (ok_energy _ Hs a). lia.
Qed.
Lemma state_ok_sub_energy a v s : state_ok s -> state_ok (fst (State.SubEnergy a v s)).
Proof.
  intros Hs. unfold State.SubEnergy. case_match; [done|].
  destruct (Z.ltb_spec (State.GetEnergy s a) v); simpl; [done|]. apply state_ok_energy; [done|lia].
Qed.
Lemma state_ok_add_balance a v s : state_ok s -> state_ok (State.AddBalance a v s).
Proof. intros Hs. unfold State.AddBalance. case_match; [done|]. by apply state_ok_balance. Qed.
Lemma state_ok_sub_balance a v s : state_ok s -> state_ok (fst (State.SubBalance a v s)).
Proof.
  intros Hs. unfold State.SubBalance. case_match; [done|]. case_match; simpl; [done|]. by apply state_ok_balance.
Qed.

(** ** The journal *)

Lemma put_ok k v d : db_ok d -> typed k v ->
  exists r, repo_put k v d = Ret (d <| repo := r |>) /\ db_ok (d <| repo := r |>).
Proof.
  intros [Hw Ht Hs] Hv. destruct (repo_put_ret k v d Hw) as (st & l & m & r & E & HP & _ & Hm & Hw').
  exists r. split; [done|]. split; simpl; [done| |done].
  intros l' k' v'. rewrite Hm. intros [Hl| ->%list_elem_of_singleton]%elem_of_app.
  - apply Ht. rewrite E. simpl. set_solver.
  - simpl. intros [[<- <-]|[_ Hl]]%lookup_insert_Some; [done|].
    eapply Ht; [|exact Hl]. rewrite E. simpl. set_solver.
Qed.

(** What is read has the type of its key. *)
Lemma seen_typed d k v : db_ok d -> seen d k = Some v -> typed k v \/ getter k = Some v.
Proof.
  intros Hd. unfold seen, spec_get. destruct (last _) as [x|] eqn:E; [|by right].
  intros [= ->]. left. apply last_Some_elem_of, list_elem_of_omap in E as (l & Hl & Hk).
  by eapply db_typed.
Qed.
Lemma repo_get_seen d k : db_ok d -> repo_get d k = deref (seen d k).
Proof. intros Hd. unfold repo_get. by rewrite Get_spec by apply db_wf, Hd. Qed.

Lemma refund_ret d : db_ok d -> exists g, GetRefund d = Ret g.
Proof.
  intros Hd. unfold GetRefund. rewrite repo_get_seen by done.
  destruct (seen d refundKey) as [v|] eqn:E.
  - destruct (seen_typed _ _ _ Hd E) as [Ht|[= <-]]; [destruct v; try done|]; simpl; eauto.
  - unfold seen, spec_get in E. destruct (last _); done.
Qed.
Lemma suicided_ret d a : db_ok d -> exists b, HasSuicided d a = Ret b.
Proof.
  intros Hd. unfold HasSuicided. rewrite repo_get_seen by done.
  destruct (seen d (suicideFlagKey a)) as [v|] eqn:E.
  - destruct (seen_typed _ _ _ Hd E) as [Ht|[= <-]]; [destruct v; try done|]; simpl; eauto.
  - unfold seen, spec_get in E. destruct (last _); done.
Qed.
Lemma add_refund_ok g d : db_ok d -> exists d', AddRefund g d = Ret d' /\ db_ok d'.
Proof.
  intros Hd. unfold AddRefund. destruct (refund_ret d Hd) as [v ->]. simpl.
  destruct (put_ok refundKey (VRefund (u64 (v + g))) d Hd I) as (r & -> & ?). eauto.
Qed.
Lemma put_ok' k v d : db_ok d -> typed k v -> exists d', repo_put k v d = Ret d' /\ db_ok d'.
Proof. intros Hd Ht. destruct (put_ok k v d Hd Ht) as (r & -> & ?). eauto. Qed.

Lemma db_ok_state d s : db_ok d -> state_ok s -> db_ok (d <| state := s |>).
Proof. intros [H1 H2 H3] Hs. by split. Qed.

(** ** Snapshots *)

Lemma snapshot_ok d : db_ok d -> exists d1 rev, Snapshot d = Ret (d1, rev) /\ db_ok d1.
Proof.
  intros Hd. unfold Snapshot.
  destruct (put_ok stateRevKey (VRevision (State.NewCheckpoint (state d))) d Hd) as (r & -> & Hr); [apply Hd|].
  simpl. eexists _, _. split; [done|]. destruct Hr as [Hw Ht Hs]. simpl in *.
  split; simpl; [exact (wf_Push _ Hw)| |done].
  intros l k v [Hl| ->%list_elem_of_singleton]%elem_of_app; [by apply Ht|]. simpl. by rewrite lookup_empty.
Qed.

Lemma revert_ok d d1 rev d2 : db_ok d -> Snapshot d = Ret (d1, rev) -> above d1 d2 ->
  exists d3, RevertToSnapshot rev d2 = Ret d3 /\ db_ok d3.
Proof.
  intros Hd Hs Ha. destruct (revert_exact d d1 rev d2 (db_wf _ Hd) Hs Ha) as (d0 & Hp & Hr).
  rewrite Hr. eexists. split; [done|].
  destruct (put_ok stateRevKey (VRevision (state d)) d Hd) as (r & Hp' & [Hw Ht _]); [apply Hd|].
  rewrite Hp' in Hp. injection Hp as <-. split; simpl; [exact Hw|exact Ht|].
  apply state_ok_revert, Hd.
Qed.

(** ** The calls *)

(** What the code that is not the machine's own must do for the machine never to
    panic: its hooks return and keep the invariant, and the numbers it gives are
    not negative. *)
Class Lively (ctx : Context) : Prop := {
  live_transfer a b v t d : db_ok d -> 0 <= v -> exists d', Transfer_ a b v t d = Ret d' /\ db_ok d';
  live_create a b d : db_ok d -> exists d', OnCreateContract a b d = Ret d' /\ db_ok d';
  live_suicide a b d : db_ok d -> exists d', OnSuicideContract a b d = Ret d' /\ db_ok d';
  live_intercept evm c ro : InterceptContractCall evm c ro =
    Ret (evm <| EVM.lastNonNativeCallGas := Contract.Gas c |>, c, None);
  live_address d a n : 0 <= NewContractAddress d a n;
  live_hash n : 0 <= GetHash n;
  live_info : 0 <= VMInfo.Origin vm_info /\ 0 <= VMInfo.GasPrice vm_info /\
    0 <= VMInfo.Coinbase vm_info /\ 0 <= VMChainConfig.ChainID (VMInfo.chainConfig vm_info) /\
    0 <= VMChainConfig.BaseFee (VMInfo.chainConfig vm_info) /\
    0 <= VMChainConfig.LastPowNonce (VMInfo.chainConfig vm_info) < 2 ^ 63
}.

(** The gas is below a limit far beyond any block: with more of it the modular
    exponentiation could be asked for operands longer than an [int]. *)
Definition GasBound : Z := 2 ^ 61.
Record contract_ok (c : Contract.t) : Prop := {
  co_gas : 0 <= Contract.Gas c < GasBound;
  co_self : 0 <= Contract.self c;
  co_caller : 0 <= Contract.CallerAddress c;
  co_value : 0 <= Contract.value c;
  co_code : Z.of_nat (String.length (Contract.Code c)) < 2 ^ 62;
  co_input : Z.of_nat (String.length (Contract.Input c)) < 2 ^ 62
}.
Record evm_ok evm : Prop := {
  eo_db : db_ok (EVM.StateDB evm);
  eo_temp : 0 <= EVM.callGasTemp evm
}.

Section Calls.
Context `{ctx : Context} `{!Tame true ctx} `{!Lively ctx} `{Machine}.
Hypothesis Hkeccak : forall c, 0 <= keccak c.
Hypothesis Hgas : run_gas true.
Hypothesis Hrun : run_evolves.

(** Runs that start at a depth return and keep the invariant. *)
Definition runs_at (depth : Z) : Prop := forall evm c input,
  EVM.depth evm = depth -> evm_ok evm -> contract_ok c ->
  Z.of_nat (String.length input) < 2 ^ 62 ->
  exists evm' ret g err, run ctx evm c input = Ret (evm', ret, g, err) /\ evm_ok evm'.

(** The calls made at [depth]: beyond the limit no run is started. *)
Context (depth : Z).
Hypothesis Hnest : depth <= CallCreateDepth -> runs_at depth.
Implicit Types (caller addr : Address) (input code : string) (gas value token : Z).

Definition returns_ok (r : run_result) : Prop :=
  exists evm' ret g err, r = Ret (evm', ret, g, err) /\ evm_ok evm'.

Lemma evm_ok_db evm d : evm_ok evm -> db_ok d -> evm_ok (evm <| EVM.StateDB := d |>).
Proof. intros [? ?] ?. by split. Qed.

Lemma snapshot_ret evm : evm_ok evm -> exists evm1 rev, snapshot evm = Ret (evm1, rev) /\ evm_ok evm1.
Proof.
  intros He. unfold snapshot. destruct (snapshot_ok _ (eo_db _ He)) as (d1 & rev & -> & Hd). simpl.
  eexists _, _. split; [done|]. by apply evm_ok_db.
Qed.

Lemma on_db_ret g evm : evm_ok evm ->
  (exists d, g (EVM.StateDB evm) = Ret d /\ db_ok d) ->
  exists evm', on_db g evm = Ret evm' /\ evm_ok evm' /\ EVM.depth evm' = EVM.depth evm.
Proof.
  intros He (d & Hd & Hok). unfold on_db. rewrite Hd. simpl. eexists.
  split; [done|]. split; [by apply evm_ok_db|done].
Qed.

(** Hooks write above the checkpoints, static or not. *)
Lemma on_db_above g evm evm' :
  (forall d d', g d = Ret d' -> evolves_db False d d') -> on_db g evm = Ret evm' ->
  above (EVM.StateDB evm) (EVM.StateDB evm').
Proof. intros Hg Ho. unfold on_db in Ho. inv_bind Ho. injection Ho as <-. by eapply ev_above, Hg. Qed.

Lemma revert_ret evm evm1 rev evm2 :
  evm_ok evm -> snapshot evm = Ret (evm1, rev) ->
  above (EVM.StateDB evm1) (EVM.StateDB evm2) -> evm_ok evm2 ->
  exists evm3, on_db (RevertToSnapshot rev) evm2 = Ret evm3 /\ evm_ok evm3.
Proof.
  intros He Hs Hv He2. destruct (snapshot_inv _ _ _ Hs) as (d1 & Hd & ->).
  destruct (on_db_ret (RevertToSnapshot rev) evm2 He2) as (evm3 & ? & ? & _); [|eauto].
  eapply revert_ok; [apply He|exact Hd|exact Hv].
Qed.

(** The bracket: a run between a snapshot and the end of the call. *)
Lemma settle_run_ret evm evm1 rev evm2 c input :
  evm_ok evm -> snapshot evm = Ret (evm1, rev) ->
  above (EVM.StateDB evm1) (EVM.StateDB evm2) -> evm_ok evm2 ->
  EVM.depth evm2 = depth -> depth <= CallCreateDepth -> contract_ok c ->
  Z.of_nat (String.length input) < 2 ^ 62 ->
  returns_ok (r ← run ctx evm2 c input; settle_call rev r).
Proof.
  intros He Hs Hv He2 Hd Hle Hc Hi.
  destruct (Hnest Hle evm2 c input Hd He2 Hc Hi) as (evm3 & ret & g & err & Hr & He3).
  rewrite Hr. simpl. unfold settle_call. destruct err as [e|]; [|by eexists _, _, _, _].
  destruct (revert_ret evm evm1 rev evm3) as (evm4 & -> & ?); [done|done| |done|by eexists _, _, _, _].
  etransitivity; [exact Hv|]. eapply ev_above, ev_db, Hrun; [apply Hc|exact Hr].
Qed.

Lemma call_contract_ok caller self addr value gas b evm :
  evm_ok evm -> 0 <= caller -> 0 <= self -> 0 <= value -> 0 <= gas < GasBound ->
  contract_ok (call_contract caller self addr value gas b evm).
Proof. intros He Hc Hs Hv Hg. split; simpl; try done. apply ok_code, He. Qed.

Lemma call_ret caller addr input gas value token evm :
  evm_ok evm -> EVM.depth evm = depth -> 0 <= caller -> 0 <= addr -> 0 <= gas < GasBound -> 0 <= value ->
  Z.of_nat (String.length input) < 2 ^ 62 ->
  returns_ok (call caller addr input gas value token evm).
Proof.
  intros He Hd Hca Ha Hg Hv Hi. unfold call.
  case_match; [by eexists _, _, _, _|].
  destruct (Z.ltb_spec CallCreateDepth (EVM.depth evm)); [by eexists _, _, _, _|].
  case_match; [by eexists _, _, _, _|].
  destruct (snapshot_ret evm He) as (evm1 & rev & Hs & He1). rewrite Hs. simpl.
  case_match; [by eexists _, _, _, _|].
  destruct (on_db_ret (Transfer_ caller addr value token) evm1 He1) as (evm2 & Ht & He2 & Hd2);
    [by apply live_transfer; [apply He1|]|]. rewrite Ht. simpl.
  pose proof (ev_depth _ _ (snapshot_evm _ _ _ Hs)).
  eapply settle_run_ret; [exact He|exact Hs| |exact He2|congruence|lia|by apply call_contract_ok|done].
  eapply on_db_above; [|exact Ht]. intros d d'. by apply tame_transfer.
Qed.

Lemma CallCode_ret caller addr input gas value token evm :
  evm_ok evm -> EVM.depth evm = depth -> 0 <= caller -> 0 <= addr -> 0 <= gas < GasBound -> 0 <= value ->
  Z.of_nat (String.length input) < 2 ^ 62 ->
  returns_ok (CallCode caller addr input gas value token evm).
Proof.
  intros He Hd Hca Ha Hg Hv Hi. unfold CallCode.
  case_match; [by eexists _, _, _, _|].
  destruct (Z.ltb_spec CallCreateDepth (EVM.depth evm)); [by eexists _, _, _, _|].
  case_match; [by eexists _, _, _, _|].
  destruct (snapshot_ret evm He) as (evm1 & rev & Hs & He1). rewrite Hs. simpl.
  pose proof (ev_depth _ _ (snapshot_evm _ _ _ Hs)).
  eapply settle_run_ret; [exact He|exact Hs|reflexivity|exact He1|congruence|lia|by apply call_contract_ok|done].
Qed.

Lemma DelegateCall_ret parent addr input gas evm :
  evm_ok evm -> EVM.depth evm = depth -> contract_ok parent -> 0 <= gas < GasBound ->
  Z.of_nat (String.length input) < 2 ^ 62 ->
  returns_ok (DelegateCall parent addr input gas evm).
Proof.
  intros He Hd Hp Hg Hi. unfold DelegateCall.
  case_match; [by eexists _, _, _, _|].
  destruct (Z.ltb_spec CallCreateDepth (EVM.depth evm)); [by eexists _, _, _, _|].
  destruct (snapshot_ret evm He) as (evm1 & rev & Hs & He1). rewrite Hs. simpl.
  pose proof (ev_depth _ _ (snapshot_evm _ _ _ Hs)).
  eapply settle_run_ret; [exact He|exact Hs|reflexivity|exact He1|congruence|lia| |done].
  apply call_contract_ok; [done|apply Hp..|done].
Qed.

Lemma StaticCall_ret caller addr input gas evm :
  evm_ok evm -> EVM.depth evm = depth -> 0 <= caller -> 0 <= addr -> 0 <= gas < GasBound ->
  Z.of_nat (String.length input) < 2 ^ 62 ->
  returns_ok (StaticCall caller addr input gas evm).
Proof.
  intros He Hd Hca Ha Hg Hi. unfold StaticCall.
  case_match; [by eexists _, _, _, _|].
  destruct (Z.ltb_spec CallCreateDepth (EVM.depth evm)); [by eexists _, _, _, _|].
  set (evm0 := evm <| EVM.readOnly := true |>).
  assert (evm_ok evm0) as He0 by (destruct He; by split).
  destruct (snapshot_ret evm0 He0) as (evm1 & rev & Hs & He1). rewrite Hs. simpl.
  pose proof (ev_depth _ _ (snapshot_evm _ _ _ Hs)) as Hd1. simpl in Hd1.
  destruct (settle_run_ret evm0 evm1 rev evm1 (call_contract caller addr addr 0 gas false evm1) input)
    as (evm2 & ret & g & err & Hr & He2); [done|done|reflexivity|done|congruence|lia|by apply call_contract_ok|done|].
  inv_bind Hr. rewrite E. simpl. rewrite Hr. simpl. eexists _, _, _, _. split; [done|]. case_match; [done|]. destruct He2. by split.
Qed.

Lemma store_code_above addr evm ret g err evm' ret' g' err' big :
  store_code addr (evm, ret, g, err) = (evm', ret', g', err', big) ->
  above (EVM.StateDB evm) (EVM.StateDB evm').
Proof.
  unfold store_code. intros Hs _ n _. destruct err; [simplify_eq; apply rtc_refl|].
  destruct (MaxCodeSize <? _); [simplify_eq; apply rtc_refl|].
  destruct (g <? u64 _); simplify_eq; apply rtc_refl.
Qed.
Lemma store_code_ok addr evm ret g err evm' ret' g' err' big :
  evm_ok evm -> store_code addr (evm, ret, g, err) = (evm', ret', g', err', big) -> evm_ok evm'.
Proof.
  intros He Hs. unfold store_code in Hs. destruct err; [by simplify_eq|].
  destruct (Z.ltb_spec MaxCodeSize (Z.of_nat (String.length ret))); [by simplify_eq|].
  destruct (g <? u64 _); simplify_eq; [done|].
  apply evm_ok_db; [done|]. apply db_ok_state; [apply He|]. apply state_ok_setcode; [done|apply He|].
  unfold MaxCodeSize in *. lia.
Qed.

Lemma create_ret caller code gas value token addr evm :
  evm_ok evm -> EVM.depth evm = depth -> 0 <= caller -> 0 <= addr -> 0 <= gas < GasBound -> 0 <= value ->
  Z.of_nat (String.length code) < 2 ^ 62 ->
  exists evm' ret g addr' err, create caller code gas value token addr evm = Ret (evm', ret, g, addr', err) /\
    evm_ok evm' /\ 0 <= addr'.
Proof.
  intros He Hd Hca Ha Hg Hv Hi. unfold create.
  destruct (Z.ltb_spec CallCreateDepth (EVM.depth evm)); [by eexists _, _, _, _, _|].
  case_match; [by eexists _, _, _, _, _|].
  set (evm0 := evm <| EVM.contractCreationCount ::= _ |>).
  assert (evm_ok evm0) as He0 by (destruct He; by split).
  case_match; [by eexists _, _, _, _, _|].
  destruct (snapshot_ret evm0 He0) as (evm1 & rev & Hs & He1). rewrite Hs. simpl.
  pose proof (ev_depth _ _ (snapshot_evm _ _ _ Hs)) as Hd1. simpl in Hd1.
  assert (exists evm2, (if (0 <? String.length code)%nat then on_db (OnCreateContract addr caller) evm1
    else Ret evm1) = Ret evm2 /\ evm_ok evm2 /\ EVM.depth evm2 = EVM.depth evm1 /\
    above (EVM.StateDB evm1) (EVM.StateDB evm2)) as (evm2 & E2 & He2 & Hd2 & Ab2).
  { destruct (0 <? String.length code)%nat; [|by eexists].
    destruct (on_db_ret (OnCreateContract addr caller) evm1 He1) as (evm2 & Ht & He2 & Hd2); [by apply live_create, He1|].
    exists evm2. split_and!; [done..|]. eapply on_db_above; [|exact Ht]. intros d d'. apply tame_create. tauto. }
  rewrite E2. simpl.
  destruct (on_db_ret (Transfer_ caller addr value token) evm2 He2) as (evm3 & Ht & He3 & Hd3);
    [by apply live_transfer; [apply He2|]|]. rewrite Ht. simpl.
  assert (above (EVM.StateDB evm1) (EVM.StateDB evm3)) as Ab3.
  { etransitivity; [exact Ab2|]. eapply on_db_above; [|exact Ht]. intros d d'. by apply tame_transfer. }
  destruct (EVM.NoRecursion evm3 && (0 <? EVM.depth evm3)); [by eexists _, _, _, _, _|].
  destruct (Hnest ltac:(lia) evm3 (Contract.mk caller addr code (keccak code) addr "" gas value false) "")
    as (evm4 & ret & g & err & Hr & He4); [congruence|done|by split|done|]. rewrite Hr. cbn [mbind outcome_bind].
  destruct (store_code addr (evm4, ret, g, err)) as [[[[evm5 ret5] g5] err5] big] eqn:Es.
  pose proof (store_code_ok _ _ _ _ _ _ _ _ _ _ He4 Es) as He5.
  pose proof (store_code_above _ _ _ _ _ _ _ _ _ _ Es) as Ab5.
  destruct (big || _); [|by eexists _, _, _, _, _].
  destruct (revert_ret evm0 evm1 rev evm5) as (evm6 & -> & ?); [done|done| |done|by eexists _, _, _, _, _].
  etransitivity; [exact Ab3|]. etransitivity; [|exact Ab5].
  eapply ev_above, ev_db, Hrun; [|exact Hr]. apply Hg.
Qed.
End Calls.
