(* ===== verification/InstructionTheorems.v ===== *)
(** * What an instruction does to its frame

    Every instruction of every table keeps the contract but its gas, never has
    more gas after it than before it was paid for unless a native method gave
    some back, evolves the machine, and moves
    the position forward unless it jumps, which costs gas.  [disciplined] says so
    of an operation together with its price: the calls give back gas, which their
    price has set aside. *)

From S2P Require Import Prelude KeyedList ChainParam VMConfig Words Memory Analysis StakingTypes AuctionTypes Stats StackedMap State ScriptEnv StakingUtils StakingHandlers AccountLock MeterTracker EVM Instructions GasFuncs JumpTable Interpreter Evolution.
From Stdlib Require Import Ascii.
From stdpp Require Import list.
Import Frame operation GasFuncs.
Open Scope Z_scope.
Implicit Types (f : Frame.t) (o : operation.t).

(** ** Moves that touch neither the machine nor the contract *)

Record kept f f' : Prop := {
  kept_evm : evm f' = evm f;
  kept_contract : contract f' = contract f;
  kept_pc : pc f' = pc f
}.

Lemma pop_kept f x f' : pop f = Ret (x, f') -> kept f f'.
Proof. unfold pop. destruct (stack f); [done|]. intros [= <- <-]. done. Qed.

Lemma dup_kept n f f' : dup n f = Ret f' -> kept f f'.
Proof. unfold dup. intros Hd. inv_bind Hd. by injection Hd as <-. Qed.

Lemma swap_kept n f f' : swap n f = Ret f' -> kept f f'.
Proof. unfold swap. intros Hd. inv_bind Hd. inv_bind Hd. by injection Hd as <-. Qed.

Lemma pop_topics_kept n f ts f' : pop_topics n f = Ret (ts, f') -> kept f f'.
Proof.
  revert f ts f'. induction n as [|n IH]; intros f ts f'; simpl; [by intros [= <- <-]|].
  intros Hp. inv_bind Hp. destruct r as [x f1]. apply pop_kept in E as [E1 E2 E3].
  inv_bind Hp. destruct r as [ts' f2]. apply IH in E as [? ? ?].
  injection Hp as <- <-. split; congruence.
Qed.

Lemma pop_stack f x f' : pop f = Ret (x, f') -> stack f = x :: stack f'.
Proof. unfold pop. destruct (stack f); [done|]. by intros [= <- <-]. Qed.

(** A pop in front of a sequence. *)
Ltac pop_one H :=
  let x := fresh "x" in let f := fresh "f" in let E := fresh "P" in
  apply bind_ret_inv in H as ([x f] & E & H).

(** All moves of the hypotheses. *)
Ltac kept_all :=
  repeat match goal with
  | E : pop _ = Ret _ |- _ => apply pop_kept in E; destruct E
  | E : dup _ _ = Ret _ |- _ => apply dup_kept in E; destruct E
  | E : swap _ _ = Ret _ |- _ => apply swap_kept in E; destruct E
  | E : pop_topics _ _ = Ret _ |- _ => apply pop_topics_kept in E; destruct E
  end.

(** Instructions that keep the contract, the machine and the position. *)
Definition pure (e : executionFunc) : Prop :=
  forall f f' r err, e f = Ret (f', r, err) -> kept f f'.

Ltac pure_tac :=
  let H := fresh "H" in intros ? ? ? ? H; inv_ret H; repeat case_match; simplify_eq/=;
  try inv_ret H; kept_all; split; simpl; congruence.

Lemma op0_pure g : pure (op0 g).
Proof. unfold op0. pure_tac. Qed.
Lemma op1_pure g : pure (op1 g).
Proof. unfold op1. pure_tac. Qed.
Lemma op2_pure g : pure (op2 g).
Proof. unfold op2. pure_tac. Qed.
Lemma op3_pure g : pure (op3 g).
Proof. unfold op3. pure_tac. Qed.
Lemma copy_data_pure g : pure (copy_data g).
Proof. unfold copy_data. pure_tac. Qed.

(** ** The operations of all tables *)

Section Operations.
Context `{ctx : Context} `{Machine}.

Definition later_operations : list (Z * operation.t) := [
  (OpCode.DELEGATECALL, plain opDelegateCall gasDelegateCall 6 1
    <| memorySize := Some memoryDelegateCall |> <| operation.returns := true |>);
  (OpCode.REVERT, plain opRevert gasRevert 2 0
    <| memorySize := Some memoryRevert |> <| reverts := true |> <| operation.returns := true |>);
  (OpCode.RETURNDATACOPY, plain opReturnDataCopy gasReturnDataCopy 3 0
    <| memorySize := Some memoryReturnDataCopy |>);
  (OpCode.RETURNDATASIZE, plain opReturnDataSize (constGasFunc GasQuickStep) 0 1);
  (OpCode.STATICCALL, plain opStaticCall gasStaticCall 6 1
    <| memorySize := Some memoryStaticCall |> <| operation.returns := true |>);
  (OpCode.CREATE2, plain opCreate2 gasCreate2 4 1
    <| memorySize := Some memoryCreate2 |> <| writes := true |> <| operation.returns := true |>);
  (OpCode.EXTCODEHASH, plain opExtCodeHash gasExtCodeHash 1 1);
  (OpCode.SAR, plain opSAR (constGasFunc GasFastestStep) 2 1);
  (OpCode.SHR, plain opSHR (constGasFunc GasFastestStep) 2 1);
  (OpCode.SHL, plain opSHL (constGasFunc GasFastestStep) 2 1);
  (OpCode.SELFBALANCE, plain opSelfBalance (constGasFunc GasFastStep) 0 1);
  (OpCode.CHAINID, plain opChainID (constGasFunc GasQuickStep) 0 1);
  (OpCode.BASEFEE, plain opBaseFee (constGasFunc GasFastStep) 0 1);
  (OpCode.BASEFEE, plain opBaseFeeDynamic (constGasFunc GasFastStep) 0 1);
  (OpCode.PUSH0, plain opPush0 (constGasFunc GasQuickStep) 0 1);
  (OpCode.PREVRANDAO, plain opRandom (constGasFunc GasFastStep) 0 1);
  (OpCode.SELFDESTRUCT, plain opSuicide gasSuicideEIP3529 1 0 <| halts := true |> <| writes := true |>);
  (OpCode.CREATE, plain opCreate gasCreateEip3860 3 1
    <| memorySize := Some memoryCreate |> <| writes := true |> <| operation.returns := true |>);
  (OpCode.CREATE2, plain opCreate2 gasCreate2Eip3860 4 1
    <| memorySize := Some memoryCreate2 |> <| writes := true |> <| operation.returns := true |>)
].
Definition operations : list (Z * operation.t) :=
  later_operations ++ frontier_arithmetic ++ frontier_comparisons ++ frontier_environment
  ++ frontier_block ++ frontier_flow ++ frontier_push ++ frontier_dup ++ frontier_swap
  ++ frontier_logs ++ frontier_system.

Definition within (t : InstructionSet) : Prop := forall op o, t !! op = Some o -> (op, o) ∈ operations.

Lemma within_insert op o t : (op, o) ∈ later_operations -> within t -> within (<[op := o]> t).
Proof.
  intros Ho Ht op' o' [[-> <-]|[_ ?]]%lookup_insert_Some; [|eauto]. apply elem_of_app. by left.
Qed.
Lemma within_alter g op t o : t !! op = Some o -> (op, g o) ∈ later_operations ->
  within t -> within (alter g op t).
Proof.
  intros Hop Hg Ht op' o' [(E & o1 & Ho & ->)|[_ ?]]%lookup_alter_Some; [|eauto].
  subst. pose proof (eq_trans (eq_sym Hop) Ho) as [= ->]. apply elem_of_app. by left.
Qed.

Ltac is_later := unfold later_operations; repeat first [apply list_elem_of_here | apply list_elem_of_further].

(** Every operation the interpreter can choose is one of them. *)
Lemma instruction_set_operations op o : instruction_set !! op = Some o -> (op, o) ∈ operations.
Proof.
  assert (within NewFrontierInstructionSet) as H0.
  { intros op' o' Ho%elem_of_list_to_map_2. apply elem_of_app. by right. }
  assert (within NewHomesteadInstructionSet) as H1 by (apply within_insert; [is_later|done]).
  assert (within NewByzantiumInstructionSet) as H2 by (do 4 (apply within_insert; [is_later|]); done).
  assert (within NewConstantinopleInstructionSet) as H3 by (do 5 (apply within_insert; [is_later|]); done).
  assert (within NewIstanbulInstructionSet) as H4 by (do 2 (apply within_insert; [is_later|]); done).
  assert (within NewLondonInstructionSet) as H5 by (apply within_insert; [is_later|done]).
  assert (within newParisInstructionSet) as H6.
  { do 3 (eapply within_alter; [reflexivity|is_later|]). do 2 (apply within_insert; [is_later|]).
    eapply within_alter; [reflexivity|is_later|done]. }
  unfold instruction_set. repeat case_match; eauto.
Qed.
End Operations.

(** ** Prices *)

Lemma u64_bound x : 0 <= x -> 0 <= u64 x <= x.
Proof. intros Hx. unfold u64. split; [by apply Z.mod_pos_bound|by apply Z.mod_le]. Qed.
Lemma u64_nonneg x : 0 <= u64 x.
Proof. by apply Z.mod_pos_bound. Qed.

(** A cost is not negative. *)
Definition cost_ok (r : string + Z) : Prop := match r with inl _ => True | inr c => 0 <= c end.

Lemma add_gas_inv g x c : add_gas g x = inr c -> cost_ok g -> 0 <= x ->
  exists g', g = inr g' /\ c = g' + x.
Proof.
  destruct g as [|g]; [done|]. simpl. case_match; [done|]. intros [= <-] Hg Hx. exists g.
  split; [done|]. apply u64_small. unfold MaxUint64 in *. lia.
Qed.
Lemma add_gas_ok g x : cost_ok (add_gas g x).
Proof. unfold add_gas. destruct g; simpl; [done|]. case_match; simpl; [done|]. apply u64_nonneg. Qed.
Lemma add_words_ok g l p : cost_ok (add_words g l p).
Proof.
  unfold add_words. destruct g; simpl; [done|]. repeat case_match; simplify_eq/=; try done.
  apply u64_nonneg.
Qed.

(** The cost of memory changes what the memory remembers of it. *)
Lemma memory_gas_spec f ms f1 g : memory_gas f ms = (f1, g) ->
  kept f f1 /\ stack f1 = stack f /\ Memory.store (memory f1) = Memory.store (memory f) /\ cost_ok g.
Proof.
  unfold memory_gas, memoryGasCost. repeat case_match; intros [= <- <-]; simplify_eq/=;
    split_and!; try done; apply u64_nonneg.
Qed.

Section Frames.
Context `{ctx : Context} {frugal : bool} `{!Tame frugal ctx} `{Machine}.
Hypothesis Hgas : run_gas frugal.
Hypothesis Hrun : run_evolves.

Lemma kept_evolves f f' : kept f f' -> evolves (evm f) (evm f').
Proof. intros [-> _ _]. reflexivity. Qed.

(** A price is not negative and touches only the machine and the memory. *)
Record priced_as f f1 (r : string + Z) : Prop := {
  priced_contract : contract f1 = contract f;
  priced_pc : pc f1 = pc f;
  priced_stack : stack f1 = stack f;
  priced_store : Memory.store (memory f1) = Memory.store (memory f);
  priced_evm : evolves (evm f) (evm f1);
  priced_cost : cost_ok r
}.
(** [w] is whether the operation writes: then it is not in a static call. *)
Definition priced (w : bool) (g : gasFunc) : Prop := forall f ms f1 r,
  (w = true -> ~ static (evm f)) -> g f ms = Ret (f1, r) -> priced_as f f1 r.

Lemma const_priced w c : 0 <= c -> priced w (constGasFunc c).
Proof. intros Hc f ms f1 r _ [= <- <-]. by split. Qed.

Lemma memory_priced f ms f1 g r :
  memory_gas f ms = (f1, g) -> cost_ok r -> priced_as f f1 r.
Proof.
  intros Hm Hr. apply memory_gas_spec in Hm as ([E1 E2 E3] & E4 & E5 & _).
  split; try done. rewrite E1. reflexivity.
Qed.

Lemma memory_only_priced w : priced w (fun f ms => Ret (memory_gas f ms)).
Proof.
  intros f ms f1 r _ [= Hm]. eapply memory_priced; [exact Hm|].
  by apply memory_gas_spec in Hm as (_ & _ & _ & ?).
Qed.

Lemma memory_and_priced w p : priced w (memory_and p).
Proof.
  intros f ms f1 r _. unfold memory_and. destruct (memory_gas f ms) as [f' g] eqn:E.
  intros [= <- <-]. eapply memory_priced; [exact E|apply add_gas_ok].
Qed.

Lemma memory_words_priced w p n q : priced w (memory_words p n q).
Proof.
  intros f ms f1 r _ Hm. unfold memory_words in Hm. inv_bind Hm.
  destruct (memory_gas f ms) as [f' g] eqn:E'. injection Hm as <- <-.
  eapply memory_priced; [exact E'|apply add_words_ok].
Qed.

Lemma create_words_priced w p : priced w (create_words p).
Proof.
  intros f ms f1 r _ Hm. unfold create_words in Hm. inv_bind Hm.
  destruct (memory_gas f ms) as [f' g] eqn:E'.
  destruct g; [|destruct (bigUint64 r0) as [size over], (over || _)]; injection Hm as <- <-;
    (eapply memory_priced; [exact E'|]); try exact I; apply (add_gas_ok (inr _)).
Qed.

Lemma makeGasLog_priced w n : priced w (makeGasLog n).
Proof.
  intros f ms f1 r _ Hm. unfold makeGasLog in Hm. inv_bind Hm.
  destruct (bigUint64 r0) as [size over], over; [by injection Hm as <- <-; split|].
  destruct (memory_gas f ms) as [f' g] eqn:E'.
  repeat case_match; simplify_eq; (eapply memory_priced; [exact E'|]); try exact I; apply (add_gas_ok (inr _)).
Qed.

Lemma gasExp_priced w : priced w gasExp.
Proof.
  intros f ms f1 r _ Hm. unfold gasExp in Hm. inv_bind Hm. injection Hm as <- <-.
  split; try done; apply (add_gas_ok (inr _)).
Qed.

(** The refund is written to the journal. *)
Lemma refund_evolves gas f d : ~ static (evm f) -> VMState.AddRefund gas (db f) = Ret d ->
  evolves (evm f) (evm (set_db d f)).
Proof.
  intros Hn Hd. split; [done|done|]. simpl. unfold VMState.AddRefund in Hd. inv_bind Hd.
  eapply put_evolves; [|exact Hd]. tauto.
Qed.

Lemma gasSStore_priced : priced true gasSStore.
Proof.
  intros f ms f1 r Hw Hm. unfold gasSStore in Hm. inv_bind Hm. inv_bind Hm.
  repeat case_match; try (injection Hm as <- <-; split; [done..|reflexivity|by vm_compute]).
  inv_bind Hm. injection Hm as <- <-. split; try done. by eapply refund_evolves; [apply Hw|].
Qed.

Lemma gt_nonneg : 0 <= GasTable.Calls gt /\ 0 <= GasTable.Suicide gt /\
  0 <= GasTable.CreateBySuicide gt /\ 0 <= GasTable.Balance gt /\ 0 <= GasTable.ExtcodeSize gt /\
  0 <= GasTable.SLoad gt /\ 0 <= GasTable.ExtcodeHash gt.
Proof. unfold gt, VMChainConfig.GasTable. repeat case_match; vm_compute; split_and!; discriminate. Qed.

Lemma suicide_price_nonneg f g : suicide_price f = Ret g -> 0 <= g.
Proof.
  unfold suicide_price. intros Hg. inv_bind Hg. injection Hg as <-.
  pose proof gt_nonneg. repeat case_match; lia.
Qed.

Lemma gasSuicide_priced : priced true gasSuicide.
Proof.
  intros f ms f1 r Hw Hm. unfold gasSuicide in Hm. inv_bind Hm. inv_bind Hm. inv_bind Hm.
  injection Hm as <- <-. apply suicide_price_nonneg in E. split; try done.
  destruct r1; [injection E1 as <-; by split|]. by eapply refund_evolves; [apply Hw|].
Qed.
Lemma gasSuicideEIP3529_priced w : priced w gasSuicideEIP3529.
Proof.
  intros f ms f1 r _ Hm. unfold gasSuicideEIP3529 in Hm. inv_bind Hm. injection Hm as <- <-.
  apply suicide_price_nonneg in E. by split.
Qed.

(** ** Discipline *)

(** After an operation that was paid for ran. *)
Record ran o f f' (err : option string) : Prop := {
  ran_contract : contract f' = contract f <| Contract.Gas := gas f' |>;
  ran_gas : 0 <= gas f' /\ (frugal = true -> gas f' <= gas f);
  ran_evm : evolves (evm f) (evm f');
  ran_pc : err = None -> halts o = false -> reverts o = false ->
    if jumps o then gas f' < gas f /\ 0 <= pc f'
    else pc f' = pc f \/ exists n, 1 <= n <= 32 /\ pc f' = u64 (pc f + n)
}.

(** What [enforceRestrictions] lets pass in a static call. *)
Definition allowed (op : Z) o f : Prop :=
  static (evm f) -> writes o = false /\ (op = OpCode.CALL -> Back 2 f = Ret 0).

Definition paid (cost : Z) (mem : Memory.t) f : Frame.t :=
  f <| contract ::= fun c => c <| Contract.Gas := Contract.Gas c - cost |> |> <| memory := mem |>.
Definition disciplined (op : Z) o : Prop := forall f ms f1 r,
  0 <= gas f -> allowed op o f -> gasCost o f ms = Ret (f1, r) ->
  priced_as f f1 r /\
  forall cost, r = inr cost -> cost <= gas f ->
  forall mem f' res err, execute o (paid cost mem f1) = Ret (f', res, err) -> ran o f f' err.

(** Operations that do not touch the gas. *)
Definition quiet o : Prop := forall f f' res err,
  (writes o = true -> ~ static (evm f)) -> execute o f = Ret (f', res, err) ->
  contract f' = contract f /\ evolves (evm f) (evm f') /\
  (err = None -> if jumps o then 0 <= pc f'
   else pc f' = pc f \/ exists n, 1 <= n <= 32 /\ pc f' = u64 (pc f + n)).

Lemma allowed_writes op o f : allowed op o f -> writes o = true -> ~ static (evm f).
Proof. intros Ha Hw Hs. destruct (Ha Hs). congruence. Qed.

Lemma quiet_disciplined op o :
  quiet o -> priced (writes o) (gasCost o) ->
  (jumps o = true -> forall f ms f1 cost, gasCost o f ms = Ret (f1, inr cost) -> 0 < cost) ->
  disciplined op o.
Proof.
  intros Hq Hp Hj f ms f1 r Hg Ha Hc. pose proof (allowed_writes _ _ _ Ha) as Hw.
  pose proof (Hp _ _ _ _ Hw Hc) as HP. split; [done|]. destruct HP as [P1 P2 _ _ P5 P6].
  intros cost -> Hle mem f' res err He. simpl in P6.
  destruct (Hq (paid cost mem f1) f' res err) as (Q1 & Q2 & Q3); [|done|].
  { intros Hx [Hb Hr]. simpl in Hr. rewrite (ev_readOnly _ _ P5) in Hr. by apply Hw. }
  simpl in *. assert (gas f' = gas f - cost) as Eg.
  { unfold gas. rewrite Q1. simpl. by rewrite P1. }
  split; [|lia|by etransitivity|].
  - rewrite Q1, Eg. simpl. by rewrite P1.
  - intros Herr _ _. specialize (Q3 Herr). rewrite P2 in Q3. destruct (jumps o) eqn:Ej; [|done].
    specialize (Hj eq_refl _ _ _ _ Hc). lia.
Qed.

(** A pure execution with a price that is always the same. *)
Lemma plain_disciplined op o :
  pure (execute o) -> jumps o = false -> priced (writes o) (gasCost o) -> disciplined op o.
Proof.
  intros Hpure Hj Hp. apply quiet_disciplined; [|done|congruence].
  intros f f' res err _ He. apply Hpure in He as [E1 E2 E3].
  rewrite Hj, E1, E2, E3. split_and!; [done|reflexivity|auto].
Qed.

(** ** Calls *)

Lemma set_aside_inv g f f1 r : cost_ok g -> set_aside g f = Ret (f1, r) ->
  (exists e, f1 = f /\ r = inl e) \/
  exists base temp, g = inr base /\ 0 <= temp /\
    f1 = f <| evm ::= fun e => e <| EVM.callGasTemp := temp |> |> /\
    forall cost, r = inr cost -> cost = base + temp.
Proof.
  intros Hg Hs. unfold set_aside in Hs. inv_bind Hs. destruct g as [|base]; [left; naive_solver|].
  destruct (callGas gt (gas f) base r0) as [|temp] eqn:Ec; [left; naive_solver|]. right.
  assert (0 <= temp) as Ht.
  { unfold callGas in Ec. repeat case_match; simplify_eq; try apply u64_nonneg.
    pose proof (u64_nonneg (gas f - base)) as Hu.
    pose proof (Z.div_le_upper_bound (u64 (gas f - base)) 64 (u64 (gas f - base))). lia. }
  injection Hs as <- Hr. exists base, temp. split_and!; [done..|].
  intros cost ->. destruct (add_gas_inv (inr base) temp cost) as (? & [= <-] & ?); naive_solver.
Qed.

Lemma set_aside_priced f f0 m g f1 r ms :
  memory_gas f ms = (f0, m) -> cost_ok g -> set_aside g f0 = Ret (f1, r) -> priced_as f f1 r.
Proof.
  intros Hm Hg Hs. apply memory_gas_spec in Hm as ([E1 E2 E3] & E4 & E5 & _).
  destruct (set_aside_inv _ _ _ _ Hg Hs) as [(e & -> & ->)|(base & temp & -> & Ht & -> & Hc)].
  - split; try done. rewrite E1. reflexivity.
  - split; simpl; try done; [rewrite E1; by split|].
    destruct r; simpl in *; [done|]. rewrite (Hc _ eq_refl). lia.
Qed.

(** The four calls: what was set aside pays for the call, the stipend of a
    transfer is below its price, and the rest comes back. *)
Lemma finish_call_inv a b f evm2 ret g err0 f' res err :
  finish_call a b f (evm2, ret, g, err0) = Ret (f', res, err) ->
  evm f' = evm2 /\ contract f' = contract f <| Contract.Gas := u64 (gas f + g) |> /\ pc f' = pc f.
Proof. unfold finish_call. intros Hf. inv_bind Hf. by injection Hf as <- _ _. Qed.

Definition price_of (m : string + Z) (price : Z) : string + Z :=
  match m with inl err => inl err | inr m => add_gas (inr price) m end.
Lemma price_of_inv m price base : cost_ok m -> 0 <= price -> price_of m price = inr base -> price <= base.
Proof.
  destruct m as [|m]; [done|]. intros Hm Hp Hb. unfold price_of in Hb.
  destruct (add_gas_inv (inr price) m base Hb Hp Hm) as (? & [= <-] & ->). simpl in Hm. lia.
Qed.
Lemma price_of_ok m price : cost_ok (price_of m price).
Proof. destruct m; [done|]. apply add_gas_ok. Qed.

Lemma call_ran o f f1 r base temp cost stipend mem f2 a b evm2 ret g2 err2 f' res err :
  jumps o = false -> priced_as f f1 r -> cost = base + temp -> cost <= gas f ->
  kept (paid cost mem f1) f2 -> evolves (evm f2) evm2 ->
  0 <= g2 /\ (frugal = true -> g2 <= temp + stipend) ->
  stipend <= base -> finish_call a b f2 (evm2, ret, g2, err2) = Ret (f', res, err) -> ran o f f' err.
Proof.
  intros Hj [P1 P2 _ _ P5 _] -> Hle [K1 K2 K3] He Hg Hs Hf.
  apply finish_call_inv in Hf as (F1 & F2 & F3). simpl in *.
  assert (gas f2 = gas f - (base + temp)) as Eg by (unfold gas; rewrite K2; simpl; by rewrite P1).
  rewrite Eg in F2.
  pose proof (u64_bound (gas f - (base + temp) + g2)).
  assert (gas f' = u64 (gas f - (base + temp) + g2)) as Eg' by (unfold gas at 1; by rewrite F2).
  split; [rewrite F2, K2, Eg'; simpl; by rewrite P1|lia| |].
  - rewrite F1. etransitivity; [exact P5|]. by rewrite <- K1.
  - rewrite Hj, F3, K3, P2. auto.
Qed.

Lemma value_price (value price base : Z) m :
  cost_ok m -> (value <> 0 -> CallStipend <= price) -> 0 <= price -> price_of m price = inr base ->
  (if negb (U256 value =? 0) then CallStipend else 0) <= base.
Proof.
  intros Hm Hv Hp Hb. apply price_of_inv in Hb; [|done..].
  destruct (Z.eqb_spec (U256 value) 0) as [|Hn]; simpl; [lia|].
  etransitivity; [|exact Hb]. apply Hv. intros ->. by apply Hn.
Qed.

(** The gas of a call with its stipend. *)
Lemma with_stipend temp value : 0 <= temp ->
  0 <= (if negb (U256 value =? 0) then u64 (temp + CallStipend) else temp) <=
  temp + (if negb (U256 value =? 0) then CallStipend else 0).
Proof.
  intros Ht. case_match; [|lia]. apply u64_bound. unfold CallStipend. lia.
Qed.

Lemma call_price_nonneg v a f : 0 <= call_price v a f.
Proof.
  pose proof gt_nonneg. unfold call_price, CallNewAccountGas, CallValueTransferGas. repeat case_match; lia.
Qed.

Lemma call_price_stipend a f : CallStipend <= call_price true a f.
Proof.
  pose proof gt_nonneg.
  unfold call_price, CallNewAccountGas, CallValueTransferGas, CallStipend. repeat case_match; lia.
Qed.

(** What the calls hand to the machine. *)
Definition call_gas_of f value : Z :=
  if negb (U256 value =? 0) then u64 (EVM.callGasTemp (evm f) + CallStipend) else EVM.callGasTemp (evm f).

Lemma opCall_inv f f' res err : opCall f = Ret (f', res, err) ->
  exists addr value args a b f2 r, Back 2 f = Ret value /\ kept f f2 /\
    Call (Instructions.self f2) addr args (call_gas_of f value) (U256 value) MTR (evm f2) = Ret r /\
    finish_call a b f2 r = Ret (f', res, err).
Proof.
  intros Hx. unfold opCall in Hx. do 7 pop_one Hx. inv_bind Hx. inv_bind Hx.
  eexists _, x1, _, _, _, f6, _. split_and!; [| |unfold call_gas_of|exact Hx].
  - apply pop_stack in P, P0, P1. unfold Back. by rewrite P, P0, P1.
  - kept_all; split; congruence.
  - assert (evm f0 = evm f) as <- by (kept_all; congruence). exact E0.
Qed.

Lemma opCallCode_inv f f' res err : opCallCode f = Ret (f', res, err) ->
  exists addr value args a b f2 r, Back 2 f = Ret value /\ kept f f2 /\
    CallCode (Instructions.self f2) addr args (call_gas_of f value) (U256 value) MTR (evm f2) = Ret r /\
    finish_call a b f2 r = Ret (f', res, err).
Proof.
  intros Hx. unfold opCallCode in Hx. do 7 pop_one Hx. inv_bind Hx. inv_bind Hx.
  eexists _, x1, _, _, _, f6, _. split_and!; [| |unfold call_gas_of|exact Hx].
  - apply pop_stack in P, P0, P1. unfold Back. by rewrite P, P0, P1.
  - kept_all; split; congruence.
  - assert (evm f0 = evm f) as <- by (kept_all; congruence). exact E0.
Qed.

Lemma opDelegateCall_inv f f' res err : opDelegateCall f = Ret (f', res, err) ->
  exists addr args a b f2 r, kept f f2 /\
    EVM.DelegateCall (contract f2) addr args (EVM.callGasTemp (evm f)) (evm f2) = Ret r /\
    finish_call a b f2 r = Ret (f', res, err).
Proof.
  intros Hx. unfold opDelegateCall in Hx. do 6 pop_one Hx. inv_bind Hx. inv_bind Hx.
  eexists _, _, _, _, f5, _. split_and!; [| |exact Hx].
  - kept_all; split; congruence.
  - assert (evm f0 = evm f) as <- by (kept_all; congruence). exact E0.
Qed.

Lemma opStaticCall_inv f f' res err : opStaticCall f = Ret (f', res, err) ->
  exists addr args a b f2 r, kept f f2 /\
    StaticCall (Instructions.self f2) addr args (EVM.callGasTemp (evm f)) (evm f2) = Ret r /\
    finish_call a b f2 r = Ret (f', res, err).
Proof.
  intros Hx. unfold opStaticCall in Hx. do 6 pop_one Hx. inv_bind Hx. inv_bind Hx.
  eexists _, _, _, _, f5, _. split_and!; [| |exact Hx].
  - kept_all; split; congruence.
  - assert (evm f0 = evm f) as <- by (kept_all; congruence). exact E0.
Qed.

(** The price of a call, with the two that have a value. *)
Lemma set_aside_disciplined o f ms f0 m g f1 r (stipend : Z) :
  jumps o = false -> memory_gas f ms = (f0, m) -> cost_ok g -> set_aside g f0 = Ret (f1, r) ->
  (forall base, g = inr base -> stipend <= base) ->
  (forall cost mem f' res err temp, EVM.callGasTemp (evm f1) = temp -> 0 <= temp ->
     execute o (paid cost mem f1) = Ret (f', res, err) ->
     exists a b f2 evm2 ret g2 err2, kept (paid cost mem f1) f2 /\ evolves (evm f2) evm2 /\
       (0 <= g2 /\ (frugal = true -> g2 <= temp + stipend)) /\ finish_call a b f2 (evm2, ret, g2, err2) = Ret (f', res, err)) ->
  priced_as f f1 r /\
  forall cost, r = inr cost -> cost <= gas f ->
  forall mem f' res err, execute o (paid cost mem f1) = Ret (f', res, err) -> ran o f f' err.
Proof.
  intros Hj Hm Hg Hs Hst Hx. pose proof (set_aside_priced _ _ _ _ _ _ _ Hm Hg Hs) as HP.
  split; [exact HP|]. intros cost -> Hle mem f' res err He.
  destruct (set_aside_inv _ _ _ _ Hg Hs) as [(? & _ & [=])|(base & temp & Hb & Ht & E1 & Ec)].
  destruct (Hx cost mem f' res err temp) as (a & b & f2 & evm2 & ret & g2 & err2 & K & He2 & Hg2 & Hf);
    [by rewrite E1|done|done|].
  eapply call_ran; [done|exact HP|by apply Ec|done|exact K|exact He2|exact Hg2|by apply Hst|exact Hf].
Qed.

Lemma static_kept f f1 r cost mem f2 :
  priced_as f f1 r -> kept (paid cost mem f1) f2 -> static (evm f2) -> static (evm f).
Proof.
  intros [_ _ _ _ P5 _] [K1 _ _]. unfold static. rewrite K1. simpl.
  by rewrite (ev_readOnly _ _ P5).
Qed.

Lemma call_disciplined o :
  execute o = opCall -> gasCost o = gasCall -> jumps o = false -> disciplined OpCode.CALL o.
Proof.
  intros He Hc Hj f ms f1 r Hg Ha Hs. rewrite Hc in Hs. unfold gasCall in Hs.
  inv_bind Hs. inv_bind Hs. rename r0 into value, E into Ev.
  destruct (memory_gas f ms) as [f0 m] eqn:Em.
  pose proof (memory_gas_spec _ _ _ _ Em) as (_ & _ & _ & Hm).
  fold (price_of m (call_price (negb (value =? 0)) (BigToAddress r1) f)) in Hs.
  pose proof (set_aside_priced _ _ _ _ _ _ _ Em (price_of_ok _ _) Hs) as HP.
  eapply (set_aside_disciplined _ _ _ _ _ _ _ _ (if negb (U256 value =? 0) then CallStipend else 0));
    [done|exact Em|apply price_of_ok|exact Hs| |].
  - intros base Hb. eapply value_price; [exact Hm| |apply call_price_nonneg|exact Hb].
    intros Hv. destruct (Z.eqb_spec value 0); [done|]. apply call_price_stipend.
  - intros cost mem f' res err temp Et Ht Hx. rewrite He in Hx.
    destruct (opCall_inv _ _ _ _ Hx) as (addr & v & args & a & b & f2 & [[[evm2 ret] g2] err2] & Hv & K & Hcall & Hf).
    assert (v = value) as ->.
    { unfold Back in Hv, Ev. simpl in Hv. rewrite (priced_stack _ _ _ HP) in Hv. congruence. }
    unfold call_gas_of in Hcall. simpl in Hcall. rewrite Et in Hcall.
    pose proof (with_stipend temp value Ht) as Hst.
    exists a, b, f2, evm2, ret, g2, err2. split_and!; [done| |..|done].
    + eapply (call_evolves Hrun); [|intros Hsf|exact Hcall]; [lia|].
      destruct (Ha (static_kept _ _ _ _ _ _ HP K Hsf)) as [_ Hz]. specialize (Hz eq_refl).
      rewrite Ev in Hz. injection Hz as ->. done.
    + eapply (call_gas Hgas) in Hcall; lia.
    + eapply (call_gas Hgas) in Hcall; lia.
Qed.

Lemma callcode_disciplined op o :
  execute o = opCallCode -> gasCost o = gasCallCode -> jumps o = false -> disciplined op o.
Proof.
  intros He Hc Hj f ms f1 r Hg Ha Hs. rewrite Hc in Hs. unfold gasCallCode in Hs.
  inv_bind Hs. rename r0 into value, E into Ev.
  destruct (memory_gas f ms) as [f0 m] eqn:Em.
  pose proof (memory_gas_spec _ _ _ _ Em) as (_ & _ & _ & Hm). pose proof gt_nonneg as Hgt.
  set (price := GasTable.Calls gt + _) in Hs. fold (price_of m price) in Hs.
  pose proof (set_aside_priced _ _ _ _ _ _ _ Em (price_of_ok _ _) Hs) as HP.
  eapply (set_aside_disciplined _ _ _ _ _ _ _ _ (if negb (U256 value =? 0) then CallStipend else 0));
    [done|exact Em|apply price_of_ok|exact Hs| |].
  - intros base Hb. unfold price, CallValueTransferGas in *. eapply value_price; [exact Hm| | |exact Hb].
    + intros Hv. destruct (Z.eqb_spec value 0); [done|]. unfold CallStipend. simpl. lia.
    + case_match; lia.
  - intros cost mem f' res err temp Et Ht Hx. rewrite He in Hx.
    destruct (opCallCode_inv _ _ _ _ Hx) as (addr & v & args & a & b & f2 & [[[evm2 ret] g2] err2] & Hv & K & Hcall & Hf).
    assert (v = value) as ->.
    { unfold Back in Hv, Ev. simpl in Hv. rewrite (priced_stack _ _ _ HP) in Hv. congruence. }
    unfold call_gas_of in Hcall. simpl in Hcall. rewrite Et in Hcall.
    pose proof (with_stipend temp value Ht) as Hst.
    exists a, b, f2, evm2, ret, g2, err2. split_and!; [done| |..|done].
    + eapply (CallCode_evolves Hrun); [|exact Hcall]. lia.
    + eapply (CallCode_gas Hgas) in Hcall; lia.
    + eapply (CallCode_gas Hgas) in Hcall; lia.
Qed.

Lemma delegatecall_disciplined op o :
  execute o = opDelegateCall -> gasCost o = gasDelegateCall -> jumps o = false -> disciplined op o.
Proof.
  intros He Hc Hj f ms f1 r Hg Ha Hs. rewrite Hc in Hs. unfold gasDelegateCall in Hs.
  destruct (memory_gas f ms) as [f0 m] eqn:Em.
  eapply (set_aside_disciplined _ _ _ _ _ _ _ _ 0); [done|exact Em|apply add_gas_ok|exact Hs| |].
  - intros base Hb. pose proof (add_gas_ok m (GasTable.Calls gt)) as Ho. by rewrite Hb in Ho.
  - intros cost mem f' res err temp Et Ht Hx. rewrite He in Hx.
    destruct (opDelegateCall_inv _ _ _ _ Hx) as (addr & args & a & b & f2 & [[[evm2 ret] g2] err2] & K & Hcall & Hf).
    simpl in Hcall. rewrite Et in Hcall. rewrite Z.add_0_r.
    exists a, b, f2, evm2, ret, g2, err2. split_and!; [done| |..|done].
    + by eapply (DelegateCall_evolves Hrun).
    + eapply (DelegateCall_gas Hgas) in Hcall; lia.
    + eapply (DelegateCall_gas Hgas) in Hcall; lia.
Qed.

Lemma staticcall_disciplined op o :
  execute o = opStaticCall -> gasCost o = gasStaticCall -> jumps o = false -> disciplined op o.
Proof.
  intros He Hc Hj f ms f1 r Hg Ha Hs. rewrite Hc in Hs. unfold gasStaticCall in Hs.
  destruct (memory_gas f ms) as [f0 m] eqn:Em.
  eapply (set_aside_disciplined _ _ _ _ _ _ _ _ 0); [done|exact Em|apply add_gas_ok|exact Hs| |].
  - intros base Hb. pose proof (add_gas_ok m (GasTable.Calls gt)) as Ho. by rewrite Hb in Ho.
  - intros cost mem f' res err temp Et Ht Hx. rewrite He in Hx.
    destruct (opStaticCall_inv _ _ _ _ Hx) as (addr & args & a & b & f2 & [[[evm2 ret] g2] err2] & K & Hcall & Hf).
    simpl in Hcall. rewrite Et in Hcall. rewrite Z.add_0_r.
    exists a, b, f2, evm2, ret, g2, err2. split_and!; [done| |..|done].
    + by eapply (StaticCall_evolves Hrun).
    + eapply (StaticCall_gas Hgas) in Hcall; lia.
    + eapply (StaticCall_gas Hgas) in Hcall; lia.
Qed.

(** ** Creations *)

(** A creation gets all but a 64th of the gas, or all of it, and what it leaves
    comes back. *)
Lemma create_inv (e : executionFunc) f f' res err :
  e = opCreate \/ e = opCreate2 -> 0 <= gas f -> e f = Ret (f', res, err) ->
  exists f2 g code value addr evm2 ret g2 addr2 err2, kept f f2 /\ 0 <= g <= gas f /\
    create (Instructions.self f2) code g value MTR addr (evm f2) = Ret (evm2, ret, g2, addr2, err2) /\
    evm f' = evm2 /\ contract f' = contract f <| Contract.Gas := u64 (gas f - g + g2) |> /\
    pc f' = pc f.
Proof.
  intros He Hg Hx.
  assert (0 <= gas f - gas f / 64 <= gas f) as Hd.
  { pose proof (Z.div_pos (gas f) 64). pose proof (Z.div_le_upper_bound (gas f) 64 (gas f)). lia. }
  destruct He as [-> | ->].
  - unfold opCreate in Hx. do 3 pop_one Hx. inv_bind Hx.
    set (g := if VMChainConfig.IsEIP150 _ _ then _ else _) in Hx. inv_bind Hx.
    destruct r0 as [[[[evm2 ret] g2] addr2] err2]. injection Hx as <- _ _.
    assert (kept f f2) as K by (kept_all; split; congruence). destruct K as [K1 K2 K3].
    assert (0 <= g <= gas f) as Hg' by (unfold g, gas in *; rewrite K2; case_match; lia).
    eexists f2, g, _, _, _, evm2, ret, g2, addr2, err2.
    split_and!; [done|lia|lia|exact E0|done| |done]. simpl. unfold gas. simpl. by rewrite K2.
  - unfold opCreate2 in Hx. do 4 pop_one Hx. inv_bind Hx. inv_bind Hx.
    destruct r0 as [[[[evm2 ret] g2] addr2] err2]. injection Hx as <- _ _.
    assert (kept f f3) as K by (kept_all; split; congruence). destruct K as [K1 K2 K3].
    assert (gas f3 = gas f) as Eg by (unfold gas; by rewrite K2). rewrite Eg in *.
    eexists f3, _, _, _, _, evm2, ret, g2, addr2, err2.
    split_and!; [done| | |exact E0|done| |done]; [lia|lia|]. simpl. unfold gas in *. simpl. by rewrite K2.
Qed.

Lemma create_disciplined op o :
  execute o = opCreate \/ execute o = opCreate2 -> priced (writes o) (gasCost o) ->
  writes o = true -> jumps o = false -> disciplined op o.
Proof.
  intros He Hp Hw Hj f ms f1 r Hg Ha Hc. pose proof (allowed_writes _ _ _ Ha) as Hn.
  pose proof (Hp _ _ _ _ Hn Hc) as HP. split; [done|].
  intros cost -> Hle mem f' res err Hx.
  assert (gas (paid cost mem f1) = gas f - cost) as Eg by (unfold gas; simpl; by rewrite (priced_contract _ _ _ HP)).
  destruct (create_inv _ (paid cost mem f1) f' res err He) as (f2 & g & code & value & addr & evm2 & ret & g2 & addr2 & err2 & K & Hg2 & Hcr & E1 & E2 & E3); [lia|done|].
  pose proof (create_gas Hgas _ _ _ _ _ _ _ _ _ _ _ _ (proj1 Hg2) Hcr) as Hb.
  apply (create_evolves Hrun) in Hcr; [|lia|intros Hs; by apply Hn, (static_kept _ _ _ _ _ _ HP K)].
  destruct K as [K1 _ _]. rewrite Eg in *. pose proof (priced_cost _ _ _ HP) as Hcost. simpl in Hcost.
  pose proof (u64_bound (gas f - cost - g + g2)).
  assert (gas f' = u64 (gas f - cost - g + g2)) as Eg' by (unfold gas at 1; by rewrite E2).
  split; [rewrite E2, Eg'; simpl; by rewrite (priced_contract _ _ _ HP)|lia| |].
  - rewrite E1. etransitivity; [exact (priced_evm _ _ _ HP)|]. by rewrite K1 in Hcr.
  - rewrite Hj, E3. simpl. rewrite (priced_pc _ _ _ HP). auto.
Qed.

(** ** The other instructions *)

Lemma opPop_pure : pure opPop.
Proof. unfold opPop. pure_tac. Qed.
Lemma opCallDataLoad_pure : pure opCallDataLoad.
Proof. unfold opCallDataLoad. pure_tac. Qed.
Lemma opReturnDataCopy_pure : pure opReturnDataCopy.
Proof. unfold opReturnDataCopy. pure_tac. Qed.
Lemma opExtCodeCopy_pure : pure opExtCodeCopy.
Proof. unfold opExtCodeCopy, copy_data. pure_tac. Qed.
Lemma opMload_pure : pure opMload.
Proof. unfold opMload. pure_tac. Qed.
Lemma opMstore_pure : pure opMstore.
Proof. unfold opMstore. pure_tac. Qed.
Lemma opMstore8_pure : pure opMstore8.
Proof. unfold opMstore8. pure_tac. Qed.
Lemma opReturn_pure : pure opReturn.
Proof. unfold opReturn. pure_tac. Qed.
Lemma opStop_pure : pure opStop.
Proof. unfold opStop. pure_tac. Qed.
Lemma makeDup_pure n : pure (makeDup n).
Proof. unfold makeDup. pure_tac. Qed.
Lemma makeSwap_pure n : pure (makeSwap n).
Proof. unfold makeSwap. pure_tac. Qed.

(** Instructions that write to the journal or the state. *)
Lemma set_db_quiet o f f2 d f' (err : option string) :
  jumps o = false -> kept f f2 -> contract f' = contract f2 -> pc f' = pc f2 ->
  evm f' = evm f2 <| EVM.StateDB := d |> -> evolves_db (static (evm f)) (db f) d ->
  contract f' = contract f /\ evolves (evm f) (evm f') /\
  (err = None -> if jumps o then 0 <= pc f'
   else pc f' = pc f \/ exists n, 1 <= n <= 32 /\ pc f' = u64 (pc f + n)).
Proof.
  intros -> [K1 K2 K3] -> -> -> Hd. rewrite K1, K2, K3. split_and!; [done|by split|auto].
Qed.

Lemma opSha3_disciplined op o : execute o = opSha3 -> jumps o = false ->
  priced (writes o) (gasCost o) -> disciplined op o.
Proof.
  intros He Hj Hp. apply quiet_disciplined; [|done|congruence]. intros f f' res err _ Hx.
  rewrite He in Hx. unfold opSha3 in Hx. do 2 pop_one Hx. inv_bind Hx. inv_bind Hx. injection Hx as <- _ _.
  assert (kept f f1) as K by (kept_all; split; congruence).
  assert (db f1 = db f) as Ed by (unfold db; by rewrite (kept_evm _ _ K)).
  eapply set_db_quiet; [done|exact K|done..|].
  rewrite Ed in E0. destruct (EVM.EnablePreimageRecording _); [|injection E0 as <-; reflexivity].
  eapply put_evolves; [|exact E0]. done.
Qed.

Lemma opSstore_disciplined op o : execute o = opSstore -> jumps o = false -> writes o = true ->
  priced (writes o) (gasCost o) -> disciplined op o.
Proof.
  intros He Hj Hw Hp. apply quiet_disciplined; [|done|congruence]. intros f f' res err Hn Hx.
  rewrite He in Hx. unfold opSstore in Hx. do 2 pop_one Hx. injection Hx as <- _ _.
  assert (kept f f1) as K by (kept_all; split; congruence).
  eapply set_db_quiet; [done|exact K|done..|].
  unfold db. rewrite (kept_evm _ _ K). apply state_evolves. auto.
Qed.

Lemma makeLog_disciplined op o n : execute o = makeLog n -> jumps o = false -> writes o = true ->
  priced (writes o) (gasCost o) -> disciplined op o.
Proof.
  intros He Hj Hw Hp. apply quiet_disciplined; [|done|congruence]. intros f f' res err Hn Hx.
  rewrite He in Hx. unfold makeLog in Hx. do 3 pop_one Hx. inv_bind Hx. inv_bind Hx. injection Hx as <- _ _.
  assert (kept f f2) as K by (kept_all; split; congruence).
  eapply set_db_quiet; [done|exact K|done..|].
  assert (db f2 = db f) as Ed by (unfold db; by rewrite (kept_evm _ _ K)).
  rewrite Ed in E0. eapply put_evolves; [|exact E0]. intros Hs. by destruct (Hn Hw).
Qed.

Lemma opSuicide_disciplined op o : execute o = opSuicide -> jumps o = false -> writes o = true ->
  priced (writes o) (gasCost o) -> disciplined op o.
Proof.
  intros He Hj Hw Hp. apply quiet_disciplined; [|done|congruence]. intros f f' res err Hn Hx.
  rewrite He in Hx. unfold opSuicide in Hx. pop_one Hx. inv_bind Hx. inv_bind Hx.
  destruct r0 as [d2 b]. injection Hx as <- _ _. apply pop_kept in P as K.
  assert (db f0 = db f) as Ed by (unfold db; by rewrite (kept_evm _ _ K)).
  specialize (Hn Hw).
  eapply set_db_quiet; [done|exact K|done..|].
  rewrite Ed in E. transitivity r; [by eapply tame_suicide|].
  unfold VMState.Suicide in E0. case_match; [by injection E0 as <- _|]. inv_bind E0.
  injection E0 as <- _. etransitivity; [by apply state_evolves|].
  eapply put_evolves; [|exact E1]. by intros.
Qed.

Lemma makePush_disciplined op o n : 1 <= n <= 32 -> execute o = makePush n n -> jumps o = false ->
  priced (writes o) (gasCost o) -> disciplined op o.
Proof.
  intros Hn He Hj Hp. apply quiet_disciplined; [|done|congruence]. intros f f' res err _ Hx.
  rewrite He in Hx. unfold makePush in Hx. inv_bind Hx. injection Hx as <- _ _.
  rewrite Hj. simpl. split_and!; [done|reflexivity|]. intros _. right. eauto.
Qed.

Lemma jump_to_inv pos f f' res err : jump_to pos f = Ret (f', res, err) ->
  evm f' = evm f /\ contract f' = contract f /\ (err = None -> 0 <= pc f').
Proof.
  unfold jump_to. intros Hx. inv_bind Hx. destruct r; injection Hx as <- _ <-; [|done].
  split_and!; [done|done|]. intros _. apply u64_nonneg.
Qed.

Lemma jump_disciplined op o c : execute o = opJump \/ execute o = opJumpi ->
  jumps o = true -> gasCost o = constGasFunc c -> 0 < c -> disciplined op o.
Proof.
  intros He Hj Hc Hpos. apply quiet_disciplined.
  - intros f f' res err _ Hx. rewrite Hj. destruct He as [He|He]; rewrite He in Hx.
    + unfold opJump in Hx. pop_one Hx. apply pop_kept in P as [K1 K2 K3].
      apply jump_to_inv in Hx as (-> & -> & ?). rewrite K1, K2. split_and!; [done|reflexivity|done].
    + unfold opJumpi in Hx. do 2 pop_one Hx.
      assert (kept f f1) as [K1 K2 K3] by (kept_all; split; congruence). rewrite <- K1, <- K2.
      case_match; [apply jump_to_inv in Hx as (-> & -> & ?)|injection Hx as <- _ <-; simpl].
      * split_and!; [done|reflexivity|done].
      * split_and!; [done|reflexivity|intros _; apply u64_nonneg].
  - rewrite Hc. apply const_priced. lia.
  - intros _ f ms f1 cost. rewrite Hc. by intros [= <- <-].
Qed.

(** ** All of them *)

Definition listed (p : Z * operation.t) : Prop := disciplined (fst p) (snd p).

(** The lemmas above by the shape of an operation. *)
Ltac is_pure :=
  first [apply op0_pure | apply op1_pure | apply op2_pure | apply op3_pure | apply copy_data_pure
        | apply opPop_pure | apply opCallDataLoad_pure | apply opReturnDataCopy_pure
        | apply opExtCodeCopy_pure | apply opMload_pure | apply opMstore_pure | apply opMstore8_pure
        | apply opReturn_pure | apply opStop_pure | apply makeDup_pure | apply makeSwap_pure].
Ltac is_priced :=
  first [apply const_priced; first [by vm_compute | apply gt_nonneg]
        | apply memory_only_priced | apply memory_and_priced | apply memory_words_priced
        | apply create_words_priced | apply makeGasLog_priced | apply gasExp_priced
        | apply gasSStore_priced | apply gasSuicide_priced | apply gasSuicideEIP3529_priced].
Ltac is_disciplined :=
  first
  [ apply plain_disciplined; [is_pure|reflexivity|is_priced]
  | apply call_disciplined; reflexivity
  | apply callcode_disciplined; reflexivity
  | apply delegatecall_disciplined; reflexivity
  | apply staticcall_disciplined; reflexivity
  | apply create_disciplined; [(left; reflexivity) || (right; reflexivity)|is_priced|reflexivity..]
  | eapply jump_disciplined; [(left; reflexivity) || (right; reflexivity)|reflexivity..|by vm_compute]
  | apply opSha3_disciplined; [reflexivity|reflexivity|is_priced]
  | apply opSstore_disciplined; [reflexivity..|is_priced]
  | eapply makeLog_disciplined; [reflexivity..|is_priced]
  | apply opSuicide_disciplined; [reflexivity..|is_priced] ].

Ltac each_disciplined := repeat apply Forall_cons_2; try apply Forall_nil_2; is_disciplined.

Lemma frontier_arithmetic_listed : Forall listed frontier_arithmetic.
Proof. each_disciplined. Qed.
Lemma frontier_comparisons_listed : Forall listed frontier_comparisons.
Proof. each_disciplined. Qed.
Lemma frontier_environment_listed : Forall listed frontier_environment.
Proof. each_disciplined. Qed.
Lemma frontier_block_listed : Forall listed frontier_block.
Proof. each_disciplined. Qed.
Lemma frontier_flow_listed : Forall listed frontier_flow.
Proof. each_disciplined. Qed.
Lemma frontier_logs_listed : Forall listed frontier_logs.
Proof. each_disciplined. Qed.
Lemma frontier_system_listed : Forall listed frontier_system.
Proof. each_disciplined. Qed.
Lemma frontier_push_listed : Forall listed frontier_push.
Proof.
  apply Forall_fmap, Forall_forall. intros n Hn%elem_of_seqZ.
  apply (makePush_disciplined _ _ n); [lia|reflexivity|reflexivity|is_priced].
Qed.
Lemma frontier_dup_listed : Forall listed frontier_dup.
Proof. apply Forall_fmap, Forall_forall. intros n _. is_disciplined. Qed.
Lemma frontier_swap_listed : Forall listed frontier_swap.
Proof. apply Forall_fmap, Forall_forall. intros n _. is_disciplined. Qed.

Lemma later_operations_listed : Forall listed later_operations.
Proof. each_disciplined. Qed.

(** Every instruction the interpreter can choose is disciplined. *)
Lemma instruction_set_disciplined op o : instruction_set !! op = Some o -> disciplined op o.
Proof.
  intros Ho%instruction_set_operations. revert Ho. apply (proj1 (Forall_forall listed operations)).
  unfold operations. repeat apply Forall_app_2;
    auto using later_operations_listed, frontier_arithmetic_listed, frontier_comparisons_listed,
      frontier_environment_listed, frontier_block_listed, frontier_flow_listed, frontier_push_listed,
      frontier_dup_listed, frontier_swap_listed, frontier_logs_listed, frontier_system_listed.
Qed.
End Frames.
