(* ===== verification/WordTheorems.v ===== *)
(** * Words

    The arithmetic of the virtual machine is that of numbers modulo [2 ^ 256],
    read as unsigned or as two's complement numbers; and every instruction
    leaves words on the stack, when what it reads from outside are words. *)

From S2P Require Import Prelude KeyedList ChainParam VMConfig Words Memory Analysis StakingTypes AuctionTypes Stats StackedMap State ScriptEnv StakingUtils StakingHandlers AccountLock MeterTracker EVM Instructions GasFuncs JumpTable Interpreter InstructionTheorems.
From Stdlib Require Import Ascii Zpow_facts Zquot.
From stdpp Require Import list.
Import Frame operation.
Open Scope Z_scope.
Implicit Types (f : Frame.t) (x y z : Z).

(** ** Signed and unsigned readings *)

Lemma U256_word x : word (U256 x).
Proof. by apply Z.mod_pos_bound. Qed.
Lemma U256_small x : word x -> U256 x = x.
Proof. intros Hx. by apply Z.mod_small. Qed.
Lemma S256_range x : word x -> - 2 ^ 255 <= S256 x < 2 ^ 255.
Proof. unfold word, S256. intros Hx. destruct (Z.ltb_spec x (2 ^ 255)); lia. Qed.
Lemma U256_S256 x : word x -> U256 (S256 x) = x.
Proof.
  intros Hx. unfold S256. destruct (Z.ltb_spec x (2 ^ 255)); [by apply U256_small|].
  unfold U256. replace (x - 2 ^ 256) with (x + -1 * 2 ^ 256) by lia.
  rewrite Z.mod_add by lia. by apply Z.mod_small.
Qed.
Lemma S256_zero x : word x -> S256 x = 0 <-> x = 0.
Proof. unfold word, S256. intros Hx. destruct (Z.ltb_spec x (2 ^ 255)); lia. Qed.

Lemma quot_signs a b : b <> 0 ->
  Z.quot a b = if Z.sgn a =? Z.sgn b then Z.abs a / Z.abs b else - (Z.abs a / Z.abs b).
Proof.
  intros Hb. destruct (Z.eq_dec a 0) as [->|Ha].
  { rewrite Z.quot_0_l by done. simpl. rewrite Z.div_0_l by lia. by case_match. }
  rewrite <- Z.quot_div_nonneg by lia.
  destruct (Z.abs_spec a) as [[? ->]|[? ->]], (Z.abs_spec b) as [[? ->]|[? ->]];
    rewrite ?Z.quot_opp_l, ?Z.quot_opp_r by lia;
    destruct (Z.eqb_spec (Z.sgn a) (Z.sgn b)); lia.
Qed.
Lemma rem_signs a b : b <> 0 ->
  Z.rem a b = if a <? 0 then - (Z.abs a mod Z.abs b) else Z.abs a mod Z.abs b.
Proof.
  intros Hb. rewrite <- Z.rem_mod_nonneg by lia. rewrite Z.rem_abs_r by done.
  destruct (Z.ltb_spec a 0).
  - rewrite Z.abs_neq by lia. rewrite Z.rem_opp_l by done. lia.
  - by rewrite Z.abs_eq.
Qed.

Lemma sdiv_spec x y : word y -> sdiv_word x y = U256 (Z.quot (S256 x) (S256 y)).
Proof.
  intros Hy. unfold sdiv_word. destruct (Z.eqb_spec (S256 y) 0) as [->|Hn]; [by rewrite Zquot_0_r|].
  destruct (Z.eqb_spec (S256 x) 0) as [->|]; [by rewrite Z.quot_0_l|].
  rewrite quot_signs by done. cbn [orb]. by destruct (Z.sgn _ =? Z.sgn _).
Qed.
Lemma smod_spec x y : word y -> smod_word x y = if y =? 0 then 0 else U256 (Z.rem (S256 x) (S256 y)).
Proof.
  intros Hy. unfold smod_word. pose proof (S256_zero y Hy).
  destruct (Z.eqb_spec (S256 y) 0), (Z.eqb_spec y 0); try tauto.
  rewrite rem_signs by done. by destruct (S256 x <? 0).
Qed.
Lemma slt_spec x y : word x -> word y -> slt_word x y = bool_word (S256 x <? S256 y).
Proof.
  unfold word, slt_word, S256, tt255. intros Hx Hy.
  destruct (Z.leb_spec (2 ^ 255) x), (Z.ltb_spec y (2 ^ 255)), (Z.ltb_spec x (2 ^ 255)),
    (Z.leb_spec (2 ^ 255) y); try lia; cbn -[Z.pow]; symmetry.
  all: try (rewrite (proj2 (Z.ltb_lt _ _)) by lia; done).
  all: try (rewrite (proj2 (Z.ltb_ge _ _)) by lia; done).
  all: f_equal; destruct (Z.ltb_spec x y), (Z.ltb_spec (x - 2 ^ 256) (y - 2 ^ 256)); (done || lia).
Qed.
Lemma sgt_spec x y : word x -> word y -> sgt_word x y = bool_word (S256 y <? S256 x).
Proof.
  intros Hx Hy. rewrite <- slt_spec by done. unfold sgt_word, slt_word, word in *.
  destruct (Z.leb_spec tt255 x), (Z.ltb_spec y tt255), (Z.ltb_spec x tt255), (Z.leb_spec tt255 y);
    try lia; done.
Qed.

(** The low [n] bits read as a two's complement number. *)
Definition signed_low (n x : Z) : Z :=
  let low := x mod 2 ^ n in if low <? 2 ^ (n - 1) then low else low - 2 ^ n.

Lemma mod_split x b : 0 <= b ->
  x mod 2 ^ (b + 1) = x mod 2 ^ b + (if Z.testbit x b then 2 ^ b else 0).
Proof.
  intros Hb. rewrite Z.pow_add_r, Z.pow_1_r by lia. rewrite Z.rem_mul_r by lia.
  rewrite <- Z.shiftr_div_pow2 by done. rewrite <- Z.bit0_mod, Z.shiftr_spec by lia.
  rewrite Z.add_0_l. destruct (Z.testbit x b); simpl; lia.
Qed.

Lemma signextend_spec back x : 0 <= back < 31 -> word x ->
  signextend_word back x = U256 (signed_low (8 * (back + 1)) x).
Proof.
  intros Hb Hx. unfold signextend_word, signed_low. destruct (Z.ltb_spec back 31); [|lia]. f_equal.
  set (b := back * 8 + 7). assert (0 <= b < 255) by (unfold b; lia).
  replace (8 * (back + 1)) with (b + 1) by (unfold b; lia). replace (b + 1 - 1) with b by lia.
  assert (Z.shiftl 1 b - 1 = Z.ones b) as ->
    by (rewrite Z.shiftl_1_l, Z.ones_equiv; lia).
  rewrite mod_split by lia. pose proof (Z.mod_pos_bound x (2 ^ b)) as Hm.
  assert (0 < 2 ^ b) by lia. specialize (Hm ltac:(lia)).
  assert (2 ^ (b + 1) = 2 * 2 ^ b) by (rewrite Z.pow_add_r by lia; lia).
  destruct (Z.testbit x b) eqn:Et.
  - destruct (Z.ltb_spec (x mod 2 ^ b + 2 ^ b) (2 ^ b)); [lia|].
    replace (x mod 2 ^ b + 2 ^ b - 2 ^ (b + 1)) with (x mod 2 ^ b + - 2 ^ b) by lia.
    rewrite <- Z.land_ones by lia.
    assert (- 2 ^ b = Z.lnot (Z.ones b)) as -> by (unfold Z.lnot; rewrite Z.ones_equiv; lia).
    rewrite Z.add_nocarry_lxor, Z.lxor_lor;
      try (rewrite <- Z.land_assoc, Z.land_lnot_diag, Z.land_0_r; done).
    apply Z.bits_inj'. intros n Hn. rewrite !Z.lor_spec, Z.land_spec, Z.lnot_spec by done.
    destruct (Z.testbit x n), (Z.testbit (Z.ones b) n); done.
  - destruct (Z.ltb_spec (x mod 2 ^ b + 0) (2 ^ b)); [|lia]. rewrite <- Z.land_ones by lia. lia.
Qed.

Lemma shiftr_sign v n : 256 <= n -> - 2 ^ 255 <= v < 2 ^ 255 -> v <> 0 ->
  v / 2 ^ n = if 0 <? v then 0 else -1.
Proof.
  intros Hn Hv H0. assert (2 ^ 256 <= 2 ^ n) by (apply Z.pow_le_mono_r; lia).
  destruct (Z.ltb_spec 0 v); [by apply Z.div_small; lia|].
  symmetry. apply Z.div_unique with (v + 2 ^ n); lia.
Qed.

Lemma sar_spec shift x : word shift -> word x -> shift < 256 \/ x <> 0 ->
  sar_word shift x = U256 (S256 x / 2 ^ shift).
Proof.
  intros Hs Hx Hor. unfold sar_word. rewrite U256_small by done. unfold word in Hs.
  destruct (Z.leb_spec 256 shift).
  - rewrite shiftr_sign; [done|lia|by apply S256_range|]. rewrite S256_zero by done. lia.
  - by rewrite Z.shiftr_div_pow2 by lia.
Qed.
Lemma shl_spec shift x : word shift -> word x -> shl_word shift x = U256 (x * 2 ^ shift).
Proof.
  intros Hs Hx. unfold shl_word. rewrite (U256_small shift), (U256_small x) by done. unfold word in Hs.
  destruct (Z.leb_spec 256 shift); [|by rewrite Z.shiftl_mul_pow2 by lia].
  assert (2 ^ shift = 2 ^ (shift - 256) * 2 ^ 256) as ->
    by (rewrite <- Z.pow_add_r by lia; f_equal; lia).
  unfold U256. by rewrite Z.mul_assoc, Z.mod_mul.
Qed.
Lemma shr_spec shift x : word shift -> word x -> shr_word shift x = x / 2 ^ shift.
Proof.
  intros Hs Hx. unfold shr_word. rewrite (U256_small shift), (U256_small x) by done. unfold word in *.
  assert (0 <= x / 2 ^ shift <= x).
  { split; [apply Z.div_pos; lia|]. apply Z.div_le_upper_bound; [lia|]. nia. }
  destruct (Z.leb_spec 256 shift); [|rewrite Z.shiftr_div_pow2 by lia; apply U256_small; unfold word; lia].
  assert (2 ^ 256 <= 2 ^ shift) by (apply Z.pow_le_mono_r; lia). by rewrite Z.div_small by lia.
Qed.
Lemma byte_spec th x : word th -> word x ->
  (if th <? 32 then Byte x th else 0) = if th <? 32 then x / 256 ^ (31 - th) mod 256 else 0.
Proof.
  unfold word. intros Ht Hx. destruct (Z.ltb_spec th 32); [|done]. unfold Byte, u8.
  rewrite Z.shiftr_div_pow2 by lia. rewrite Z.pow_mul_r by lia. done.
Qed.
Lemma div_spec x y : word x -> word y -> div_word x y = x / y.
Proof.
  unfold word, div_word. intros Hx Hy. destruct (Z.eqb_spec y 0) as [->|]; [by rewrite Z.div_0_r|].
  rewrite Z.sgn_pos, Z.abs_eq, Z.mul_1_l by lia.
  apply U256_small. split; [apply Z.div_pos; lia|]. apply Z.div_lt_upper_bound; [lia|]. nia.
Qed.
Lemma mod_spec x y : word y -> mod_word x y = if y =? 0 then 0 else x mod y.
Proof.
  unfold word, mod_word. intros Hy. destruct (Z.eqb_spec y 0); [done|].
  rewrite Z.abs_eq by lia. apply U256_small. pose proof (Z.mod_pos_bound x y). unfold word. lia.
Qed.
Lemma modulo_small v z : word z -> (if 0 <? z then U256 (v mod z) else 0) = if z =? 0 then 0 else v mod z.
Proof.
  unfold word. intros Hz. destruct (Z.ltb_spec 0 z), (Z.eqb_spec z 0); try lia; try done.
  apply U256_small. pose proof (Z.mod_pos_bound v z). unfold word. lia.
Qed.

(** ** The arithmetic instructions *)

(** An instruction replaces two or three words by a value of them. *)
Definition computes2 (e : executionFunc) (value : Z -> Z -> Z) : Prop :=
  forall f x y st, word x -> word y -> stack f = x :: y :: st ->
  e f = Ret (done_ (f <| stack := value x y :: st |>)).
Definition computes3 (e : executionFunc) (value : Z -> Z -> Z -> Z) : Prop :=
  forall f x y z st, word x -> word y -> word z -> stack f = x :: y :: z :: st ->
  e f = Ret (done_ (f <| stack := value x y z :: st |>)).

Lemma op2_computes g value : (forall x y, word x -> word y -> g x y = value x y) -> computes2 (op2 g) value.
Proof.
  intros Hg [e c p m st'] x y st Hx Hy Hs. simpl in Hs. subst st'. unfold op2, pop. simpl.
  by rewrite Hg.
Qed.
Lemma op3_computes g value :
  (forall x y z, word x -> word y -> word z -> g x y z = value x y z) -> computes3 (op3 g) value.
Proof.
  intros Hg [e c p m st'] x y z st Hx Hy Hz Hs. simpl in Hs. subst st'. unfold op3, pop. simpl.
  by rewrite Hg.
Qed.

(** C26: the arithmetic instructions compute what they stand for: sums, products
    and powers modulo 2^256; quotients and remainders of the unsigned numbers
    and, rounding toward zero, of the two's complement numbers, which wrap when
    they do not fit, and are zero when the divisor is; comparisons of the unsigned
    and of the two's complement numbers; the sum and the product modulo a third word, not
    truncated before; a byte of a word counted from its most significant one; a
    word extended by the sign of its low bytes; and shifts as products and
    quotients by powers of two.  One case departs: an arithmetic shift of zero by
    256 or more gives -1, as the code takes zero for a negative number there. *)
Theorem arithmetic_exact :
  computes2 opAdd (fun x y => (x + y) mod 2 ^ 256) /\
  computes2 opSub (fun x y => (x - y) mod 2 ^ 256) /\
  computes2 opMul (fun x y => (x * y) mod 2 ^ 256) /\
  computes2 opExp (fun x y => (x ^ y) mod 2 ^ 256) /\
  computes2 opDiv (fun x y => x / y) /\
  computes2 opMod (fun x y => if y =? 0 then 0 else x mod y) /\
  computes2 opSdiv (fun x y => U256 (Z.quot (S256 x) (S256 y))) /\
  computes2 opSmod (fun x y => if y =? 0 then 0 else U256 (Z.rem (S256 x) (S256 y))) /\
  computes2 opLt (fun x y => bool_word (x <? y)) /\
  computes2 opGt (fun x y => bool_word (y <? x)) /\
  computes2 opSlt (fun x y => bool_word (S256 x <? S256 y)) /\
  computes2 opSgt (fun x y => bool_word (S256 y <? S256 x)) /\
  computes3 opAddmod (fun x y z => if z =? 0 then 0 else (x + y) mod z) /\
  computes3 opMulmod (fun x y z => if z =? 0 then 0 else (x * y) mod z) /\
  computes2 opByte (fun th x => if th <? 32 then x / 256 ^ (31 - th) mod 256 else 0) /\
  computes2 opSignExtend (fun back x => if back <? 31 then U256 (signed_low (8 * (back + 1)) x) else x) /\
  computes2 opSHL (fun shift x => (x * 2 ^ shift) mod 2 ^ 256) /\
  computes2 opSHR (fun shift x => x / 2 ^ shift) /\
  computes2 opSAR (fun shift x => if (256 <=? shift) && (x =? 0) then 2 ^ 256 - 1
                                  else U256 (S256 x / 2 ^ shift)).
Proof.
  split_and!; first [apply op2_computes; intros x y Hx Hy|apply op3_computes; intros x y z Hx Hy Hz].
  1-3: done.
  - apply Zpow_mod_correct. lia.
  - by apply div_spec.
  - by apply mod_spec.
  - by apply sdiv_spec.
  - by apply smod_spec.
  - done.
  - done.
  - by apply slt_spec.
  - by apply sgt_spec.
  - by apply modulo_small.
  - by apply modulo_small.
  - by apply byte_spec.
  - destruct (Z.ltb_spec x 31) as [Hb|Hb]; [apply signextend_spec; [unfold word in Hx; lia|done]|].
    unfold signextend_word. by rewrite (proj2 (Z.ltb_ge _ _) Hb).
  - by apply shl_spec.
  - by apply shr_spec.
  - destruct (Z.leb_spec 256 x), (Z.eqb_spec y 0) as [->|]; cbn [andb];
      try (apply sar_spec; [done|done|lia]).
    unfold sar_word. rewrite U256_small by done. by rewrite (proj2 (Z.leb_le _ _) H).
Qed.

(** ** Stacks of words *)

Lemma word_le x y : 0 <= x <= y -> word y -> word x.
Proof. unfold word. lia. Qed.
Lemma word_bool b : word (bool_word b).
Proof. destruct b; unfold word, bool_word; lia. Qed.
Lemma word_bytes bs : (length bs <= 32)%nat -> word (SetBytes bs).
Proof.
  intros Hl. pose proof (SetBytes_range bs).
  assert (256 ^ Z.of_nat (length bs) <= 256 ^ 32) by (apply Z.pow_le_mono_r; lia).
  unfold word. change (2 ^ 256) with (256 ^ 32). lia.
Qed.
Lemma word_bits (g : Z -> Z -> Z) x y :
  (forall a b, 0 <= a -> 0 <= b -> 0 <= g a b) ->
  (forall a b n, Z.testbit a n = false -> Z.testbit b n = false -> Z.testbit (g a b) n = false) ->
  word x -> word y -> word (g x y).
Proof.
  intros Hn Hb [Hx1 Hx2] [Hy1 Hy2]. specialize (Hn x y Hx1 Hy1). split; [done|].
  destruct (Z.eq_dec (g x y) 0) as [->|]; [lia|].
  apply Z.log2_lt_pow2; [lia|]. destruct (Z.lt_ge_cases (Z.log2 (g x y)) 256) as [|Hl]; [done|].
  pose proof (Z.bit_log2 (g x y) ltac:(lia)) as Hbit.
  rewrite Hb in Hbit; [done| |]; (apply Z.testbit_false; [lia|]);
    rewrite Z.div_small; [done|pose proof (Z.pow_le_mono_r 2 256 (Z.log2 (g x y))); lia
    |done|pose proof (Z.pow_le_mono_r 2 256 (Z.log2 (g x y))); lia].
Qed.

Lemma word_zero : word 0.
Proof. unfold word. lia. Qed.
Lemma word_address x : word (BigToAddress x).
Proof. unfold word, BigToAddress. pose proof (Z.mod_pos_bound x (2 ^ 160)). lia. Qed.
Create HintDb words.
#[export] Hint Resolve U256_word word_bool word_zero word_address : words.
Lemma word_if (b : bool) x y : word x -> word y -> word (if b then x else y).
Proof. by destruct b. Qed.
Lemma word_Byte x n : word (Byte x n).
Proof. unfold word, Byte, u8. pose proof (Z.mod_pos_bound (Z.shiftr x (8 * (31 - n))) (2 ^ 8)). lia. Qed.
Lemma word_Exp x y : word (Exp x y).
Proof. unfold Exp. rewrite Zpow_mod_correct by lia. apply U256_word. Qed.
#[export] Hint Resolve word_if word_Byte word_Exp : words.
Ltac word_cases := intros; cbv zeta; repeat case_match; auto with words.
Lemma word_sdiv x y : word (sdiv_word x y).
Proof. unfold sdiv_word. word_cases. Qed.
Lemma word_smod x y : word (smod_word x y).
Proof. unfold smod_word. word_cases. Qed.
Lemma word_signextend x y : word y -> word (signextend_word x y).
Proof. unfold signextend_word. word_cases. Qed.
Lemma word_slt x y : word (slt_word x y).
Proof. unfold slt_word. repeat case_match; [unfold word; lia|auto with words..]. Qed.
Lemma word_sgt x y : word (sgt_word x y).
Proof. unfold sgt_word. repeat case_match; auto with words. unfold word; lia. Qed.
Lemma word_shl x y : word (shl_word x y).
Proof. unfold shl_word. word_cases. Qed.
Lemma word_shr x y : word (shr_word x y).
Proof. unfold shr_word. word_cases. Qed.
Lemma word_sar x y : word (sar_word x y).
Proof. unfold sar_word. word_cases. Qed.
Lemma word_land x y : word x -> word y -> word (Z.land x y).
Proof.
  apply word_bits; intros a b; [intros; apply Z.land_nonneg; auto|].
  intros n Ha Hb. by rewrite Z.land_spec, Ha.
Qed.
Lemma word_lor x y : word x -> word y -> word (Z.lor x y).
Proof.
  apply word_bits; intros a b; [intros; by apply Z.lor_nonneg|].
  intros n Ha Hb. by rewrite Z.lor_spec, Ha, Hb.
Qed.
Lemma word_lxor x y : word x -> word y -> word (Z.lxor x y).
Proof.
  apply word_bits; intros a b; [intros; by apply Z.lxor_nonneg|].
  intros n Ha Hb. by rewrite Z.lxor_spec, Ha, Hb.
Qed.
#[export] Hint Resolve word_sdiv word_smod word_signextend word_slt word_sgt word_shl word_shr word_sar
  word_land word_lor word_lxor : words.

Lemma i64_le x : 0 <= x -> i64 x <= x.
Proof. intros Hx. unfold i64. pose proof (u64_bound x Hx). case_match; lia. Qed.
Lemma slice_len data a b d : slice data a b = Ret d -> Z.of_nat (length d) <= b - a /\ 0 <= b - a.
Proof.
  unfold slice. destruct (Z.leb_spec 0 a), (Z.leb_spec a b); simpl; try done.
  case_match; [|done]. intros [= <-]. rewrite length_take. lia.
Qed.
Lemma RightPadBytes_len d n : Z.of_nat (length d) <= n -> Z.of_nat (length (RightPadBytes d n)) = n.
Proof.
  intros Hl. unfold RightPadBytes. destruct (Z.leb_spec n (Z.of_nat (length d))); [lia|].
  rewrite length_app, length_replicate. lia.
Qed.
Lemma getDataBig_len data start d : 0 <= start -> Z.of_nat (length data) < 2 ^ 62 ->
  getDataBig data start 32 = Ret d -> length d = 32%nat.
Proof.
  intros Hs Hl Hd. unfold getDataBig in Hd. inv_bind Hd. injection Hd as <-.
  apply slice_len in E as [E1 E2]. unfold Uint64 in E1, E2. rewrite !u64_small in E1, E2 by lia.
  change (Int64 (Uint64 32)) with 32. pose proof (RightPadBytes_len r 32). lia.
Qed.

Section Stacks.
Context `{ctx : Context} `{Machine}.

(** What the machine is told from outside are words. *)
Record outside : Prop := {
  out_keccak c : word (keccak c);
  out_hash n : word (GetHash n);
  out_address d a n : word (NewContractAddress d a n);
  out_origin : word (VMInfo.Origin vm_info);
  out_price : word (VMInfo.GasPrice vm_info);
  out_coinbase : word (VMInfo.Coinbase vm_info);
  out_chain : word (VMChainConfig.ChainID (VMInfo.chainConfig vm_info));
  out_fee : word (VMChainConfig.BaseFee (VMInfo.chainConfig vm_info));
  out_nonce : 0 <= VMChainConfig.LastPowNonce (VMInfo.chainConfig vm_info) < 2 ^ 63
}.
(** And so are the numbers of the contract and of the state it reads. *)
Record world f : Prop := {
  w_self : word (Contract.self (contract f));
  w_caller : word (Contract.CallerAddress (contract f));
  w_value : word (Contract.value (contract f));
  w_gas : word (gas f);
  w_pc : word (pc f);
  w_memory : word (Memory.Len (memory f));
  w_input : Z.of_nat (String.length (Contract.Input (contract f))) < 2 ^ 62;
  w_code : Z.of_nat (String.length (Contract.Code (contract f))) < 2 ^ 62;
  w_data : word (Z.of_nat (String.length (EVM.returnData (evm f))));
  w_energy a : word (State.GetEnergy (chain_state f) a);
  w_storage a k : word (State.GetStorage (chain_state f) a k);
  w_hash a : word (State.GetCodeHash (chain_state f) a);
  w_size a : word (Z.of_nat (String.length (State.GetCode (chain_state f) a)))
}.
Hypothesis Hout : outside.

(** An instruction takes [npop] words and leaves [npush]. *)
Definition stacks (npop npush : nat) (e : executionFunc) : Prop := forall f f' res err,
  world f -> Forall word (stack f) -> e f = Ret (f', res, err) ->
  exists new, stack f' = new ++ drop npop (stack f) /\ Forall word new /\ (err = None -> length new = npush).

Lemma op0_stacks g : (forall f, world f -> word (g f)) -> stacks 0 1 (op0 g).
Proof. intros Hg f f' res err Hw Hs [= <- _ <-]. exists [g f]. split_and!; auto. Qed.
Lemma op1_stacks g : (forall f x, world f -> word x -> word (g f x)) -> stacks 1 1 (op1 g).
Proof.
  intros Hg [e c p m st] f' res err Hw Hs He. unfold op1 in He. simpl in *.
  destruct st as [|x st]; [done|]. injection He as <- _ <-. apply Forall_cons in Hs as [Hx Hs].
  eexists [_]. split_and!; [reflexivity| |done]. apply Forall_singleton, Hg; [|done].
  destruct Hw. by split.
Qed.
Lemma op2_stacks g : (forall x y, word x -> word y -> word (g x y)) -> stacks 2 1 (op2 g).
Proof.
  intros Hg [e c p m st] f' res err Hw Hs He. unfold op2 in He. simpl in *.
  destruct st as [|x [|y st]]; [done..|]. injection He as <- _ <-.
  rewrite !Forall_cons in Hs. eexists [_]. split_and!; [reflexivity| |done].
  apply Forall_singleton, Hg; tauto.
Qed.
Lemma op3_stacks g : (forall x y z, word x -> word y -> word z -> word (g x y z)) -> stacks 3 1 (op3 g).
Proof.
  intros Hg [e c p m st] f' res err Hw Hs He. unfold op3 in He. simpl in *.
  destruct st as [|x [|y [|z st]]]; [done..|]. injection He as <- _ <-.
  rewrite !Forall_cons in Hs. eexists [_]. split_and!; [reflexivity| |done].
  apply Forall_singleton, Hg; tauto.
Qed.

(** A frame with its items in front, and what the rest of the instruction did. *)
Ltac open_frame e :=
  let c := fresh "c" in let p := fresh "p" in let m := fresh "m" in let st := fresh "st" in
  intros [e c p m st] f' res err Hw Hs He; cbn [stack] in *.
Ltac next_word x :=
  match goal with
  | Hs : Forall word ?st |- _ => is_var st; destruct st as [|x st]; [done|];
    apply Forall_cons in Hs as [? Hs]
  end.
Ltac leaves l := exists l; split_and!; [reflexivity|repeat apply Forall_cons_2; try apply Forall_nil_2; auto using word_bool|done].

Lemma copy_data_stacks g : stacks 3 0 (copy_data g).
Proof.
  open_frame e. unfold copy_data in He. cbn -[getDataBig Memory.Set_] in He.
  next_word x. next_word y. next_word z. cbn -[getDataBig Memory.Set_] in He.
  inv_bind He. inv_bind He. injection He as <- _ <-. leaves (@nil Z).
Qed.
Lemma opExtCodeCopy_stacks : stacks 4 0 opExtCodeCopy.
Proof.
  open_frame e. unfold opExtCodeCopy in He. cbn -[copy_data] in He. next_word a.
  cbn -[copy_data] in He. apply copy_data_stacks in He; [|by destruct Hw|done]. exact He.
Qed.
Lemma opReturnDataCopy_stacks : stacks 3 0 opReturnDataCopy.
Proof.
  open_frame e. unfold opReturnDataCopy in He. cbn -[slice Memory.Set_ BitLen] in He.
  next_word x. next_word y. next_word z. cbn -[slice Memory.Set_ BitLen] in He.
  destruct (_ || _); [injection He as <- _ <-; leaves (@nil Z)|].
  inv_bind He. inv_bind He. injection He as <- _ <-. leaves (@nil Z).
Qed.
Lemma opCallDataLoad_stacks : stacks 1 1 opCallDataLoad.
Proof.
  open_frame e. unfold opCallDataLoad in He. cbn -[getDataBig] in He. next_word x.
  cbn -[getDataBig input_of] in He. inv_bind He. injection He as <- _ <-. leaves [SetBytes r].
  apply word_bytes. apply getDataBig_len in E; [lia|unfold word in *; lia|].
  unfold input_of. rewrite length_bytes. apply (w_input _ Hw).
Qed.
Lemma opMload_stacks : stacks 1 1 opMload.
Proof.
  open_frame e. unfold opMload in He. cbn -[Memory.Get] in He. next_word x. cbn -[Memory.Get] in He.
  inv_bind He. injection He as <- _ <-. leaves [SetBytes r]. apply word_bytes.
  unfold Memory.Get in E. cbn -[slice Memory.Len Int64 i64] in E.
  destruct (_ <? _); [|injection E as <-; simpl; lia].
  assert (0 <= Int64 x) by (unfold slice in E; by destruct (Z.leb_spec 0 (Int64 x))).
  apply slice_len in E. pose proof (i64_le (Int64 x + 32)). lia.
Qed.
Lemma opPop_stacks : stacks 1 0 opPop.
Proof. open_frame e. unfold opPop in He. simpl in He. next_word x. injection He as <- _ <-. leaves (@nil Z). Qed.
Lemma opMstore_stacks : stacks 2 0 opMstore.
Proof.
  open_frame e. unfold opMstore in He. cbn -[Memory.Set32] in He. next_word x. next_word y.
  cbn -[Memory.Set32] in He. inv_bind He. injection He as <- _ <-. leaves (@nil Z).
Qed.
Lemma opMstore8_stacks : stacks 2 0 opMstore8.
Proof.
  open_frame e. unfold opMstore8 in He. cbn -[Memory.Len Int64] in He. next_word x. next_word y.
  cbn -[Memory.Len Int64] in He. destruct (_ || _); [done|]. injection He as <- _ <-. leaves (@nil Z).
Qed.
Lemma opSha3_stacks : stacks 2 1 opSha3.
Proof.
  open_frame e. unfold opSha3 in He. cbn -[Memory.Get VMState.AddPreimage] in He. next_word x. next_word y.
  cbn -[Memory.Get VMState.AddPreimage] in He. inv_bind He. inv_bind He. injection He as <- _ <-.
  leaves [keccak (of_bytes r)]. apply Hout.
Qed.
Lemma opSstore_stacks : stacks 2 0 opSstore.
Proof.
  open_frame e. unfold opSstore in He. simpl in He. next_word x. next_word y.
  injection He as <- _ <-. leaves (@nil Z).
Qed.
Lemma jump_to_stack pos f f' res err : jump_to pos f = Ret (f', res, err) -> stack f' = stack f.
Proof. unfold jump_to. intros Hx. inv_bind Hx. by destruct r; injection Hx as <- _ _. Qed.
Lemma opJump_stacks : stacks 1 0 opJump.
Proof.
  open_frame e. unfold opJump in He. cbn -[jump_to] in He. next_word x. cbn -[jump_to] in He.
  apply jump_to_stack in He. exists []. by rewrite He.
Qed.
Lemma opJumpi_stacks : stacks 2 0 opJumpi.
Proof.
  open_frame e. unfold opJumpi in He. cbn -[jump_to] in He. next_word x. next_word y. cbn -[jump_to] in He.
  destruct (negb _); [apply jump_to_stack in He; exists []; by rewrite He|].
  injection He as <- _ <-. leaves (@nil Z).
Qed.
Lemma opStop_stacks : stacks 0 0 opStop.
Proof. open_frame e. injection He as <- _ <-. leaves (@nil Z). Qed.
Lemma opReturn_stacks : stacks 2 0 opReturn.
Proof.
  open_frame e. unfold opReturn in He. cbn -[Memory.GetPtr] in He. next_word x. next_word y.
  cbn -[Memory.GetPtr] in He. inv_bind He. injection He as <- _ <-. leaves (@nil Z).
Qed.
Lemma opSuicide_stacks : stacks 1 0 opSuicide.
Proof.
  open_frame e. unfold opSuicide in He. cbn -[VMState.Suicide] in He. next_word x.
  cbn -[VMState.Suicide] in He. inv_bind He. inv_bind He. destruct r0 as [d b].
  injection He as <- _ <-. leaves (@nil Z).
Qed.
Lemma pop_topics_stack n f ts f' : pop_topics n f = Ret (ts, f') -> stack f' = drop n (stack f).
Proof.
  revert f ts f'. induction n as [|n IH]; intros f ts f' Hp; [by injection Hp as _ <-|].
  simpl in Hp. inv_bind Hp. destruct r as [x f1]. apply pop_stack in E. inv_bind Hp.
  destruct r as [ts' f2]. injection Hp as _ <-. apply IH in E0. by rewrite E0, E.
Qed.
Lemma makeLog_stacks n : stacks (2 + n) 0 (makeLog n).
Proof.
  open_frame e. unfold makeLog in He. cbn -[Memory.Get VMState.AddLog pop_topics] in He. next_word x. next_word y.
  cbn -[Memory.Get VMState.AddLog pop_topics] in He. inv_bind He. destruct r as [ts f1].
  inv_bind He. inv_bind He. injection He as <- _ <-. apply pop_topics_stack in E. exists [].
  split_and!; [|done|done]. cbn. by rewrite E.
Qed.
Lemma makePush_stacks n : 0 <= n <= 32 -> stacks 0 1 (makePush n n).
Proof.
  intros Hn f f' res err Hw Hs He. unfold makePush in He. inv_bind He. injection He as <- _ <-.
  leaves [SetBytes (RightPadBytes r n)]. apply word_bytes. apply slice_len in E as [E _].
  pose proof (RightPadBytes_len r n). revert E. repeat case_match; lia.
Qed.
Lemma makeDup_stacks n : (1 <= n)%nat -> stacks n (n + 1) (makeDup n).
Proof.
  intros Hn f f' res err Hw Hs He. unfold makeDup, dup, Back in He.
  destruct (stack f !! (n - 1)%nat) as [x|] eqn:Hx; [|done]. injection He as <- _ <-.
  apply lookup_lt_Some in Hx as Hl. exists (x :: take n (stack f)). cbn.
  split_and!; [by rewrite take_drop| |rewrite length_take; lia].
  apply Forall_cons_2; [by eapply Forall_lookup_1|by apply Forall_take].
Qed.
Lemma makeSwap_stacks n : stacks (n + 1) (n + 1) (makeSwap n).
Proof.
  intros f f' res err Hw Hs He. unfold makeSwap, swap, Back in He.
  replace (n + 1 - 1)%nat with n in He by lia.
  destruct (stack f !! n) as [x|] eqn:Hx; [|done]. destruct (stack f !! 0%nat) as [y|] eqn:Hy; [|done].
  injection He as <- _ <-. set (st' := <[n:=y]> (<[0%nat:=x]> (stack f))).
  apply lookup_lt_Some in Hx as Hl.
  assert (length st' = length (stack f)) by (unfold st'; by rewrite !length_insert).
  exists (take (n + 1) st'). split_and!.
  - change (st' = take (n + 1) st' ++ drop (n + 1) (stack f)).
    rewrite <- (take_drop (n + 1) st') at 1. f_equal. unfold st'. by rewrite !drop_insert_lt by lia.
  - apply Forall_take. unfold st'. repeat apply Forall_insert; try done; by eapply Forall_lookup_1.
  - rewrite length_take. lia.
Qed.

Lemma finish_call_stack a b f r f' res err : finish_call a b f r = Ret (f', res, err) ->
  exists ok, stack f' = bool_word ok :: stack f.
Proof.
  destruct r as [[[evm2 ret] g] err0]. unfold finish_call. intros Hf. inv_bind Hf.
  injection Hf as <- _ _. eexists. reflexivity.
Qed.
(** The words that were popped, in front of what is left. *)
Ltac popped :=
  repeat match goal with P : pop _ = Ret _ |- _ => apply pop_stack in P end;
  repeat match goal with P : stack ?f = _ |- context [stack ?f] => rewrite P; clear P end.
Ltac called He :=
  apply finish_call_stack in He as [ok He]; exists [bool_word ok]; rewrite He; popped;
  split_and!; [reflexivity|apply Forall_singleton, word_bool|done].

Lemma opCall_stacks : stacks 7 1 opCall.
Proof. intros f f' res err _ _ He. unfold opCall in He. do 7 pop_one He. inv_bind He. inv_bind He. called He. Qed.
Lemma opCallCode_stacks : stacks 7 1 opCallCode.
Proof. intros f f' res err _ _ He. unfold opCallCode in He. do 7 pop_one He. inv_bind He. inv_bind He. called He. Qed.
Lemma opDelegateCall_stacks : stacks 6 1 opDelegateCall.
Proof. intros f f' res err _ _ He. unfold opDelegateCall in He. do 6 pop_one He. inv_bind He. inv_bind He. called He. Qed.
Lemma opStaticCall_stacks : stacks 6 1 opStaticCall.
Proof. intros f f' res err _ _ He. unfold opStaticCall in He. do 6 pop_one He. inv_bind He. inv_bind He. called He. Qed.

Lemma create_address caller code g value token addr evm evm' ret g' a err :
  create caller code g value token addr evm = Ret (evm', ret, g', a, err) -> a = addr \/ a = 0.
Proof.
  unfold create. repeat (case_match; [intros [=]; by right|]). intros Hc.
  inv_bind Hc. destruct r as [evm1 rev]. inv_bind Hc. inv_bind Hc. case_match; [injection Hc; auto|].
  inv_bind Hc. destruct (store_code addr r1) as [[[[evm3 ret3] g3] err3] big].
  case_match; [inv_bind Hc|]; injection Hc; auto.
Qed.

Lemma opCreate_stacks : stacks 3 1 opCreate.
Proof.
  intros f f' res err _ _ He. unfold opCreate in He. do 3 pop_one He. inv_bind He. inv_bind He.
  destruct r0 as [[[[evm2 ret] g2] addr] suberr]. apply create_address in E0.
  assert (word addr) as Ha by (destruct E0 as [-> | ->]; [apply Hout|apply word_zero]).
  injection He as <- _ <-. eexists [_]. split_and!; [cbn; popped; reflexivity| |done].
  apply Forall_singleton. repeat case_match; auto using word_zero.
Qed.
Lemma opCreate2_stacks : stacks 4 1 opCreate2.
Proof.
  intros f f' res err _ _ He. unfold opCreate2 in He. do 4 pop_one He. inv_bind He. inv_bind He.
  destruct r0 as [[[[evm2 ret] g2] addr] suberr]. apply create_address in E0.
  assert (word addr) as Ha by (destruct E0 as [-> | ->]; [apply word_address|apply word_zero]).
  injection He as <- _ <-. eexists [_]. split_and!; [cbn; popped; reflexivity| |done].
  apply Forall_singleton. repeat case_match; auto using word_zero.
Qed.

(** ** All of them *)

(** What an entry of a table says of the stack is what its instruction does. *)
Definition well_typed (p : Z * operation.t) : Prop := exists npop npush : nat,
  validateStack (snd p) = makeStackFunc (Z.of_nat npop) (Z.of_nat npush) /\ stacks npop npush (execute (snd p)).

Lemma typed_as npop npush op o :
  validateStack o = makeStackFunc (Z.of_nat npop) (Z.of_nat npush) -> stacks npop npush (execute o) ->
  well_typed (op, o).
Proof. by exists npop, npush. Qed.

Ltac is_stacks :=
  first
  [ apply op0_stacks | apply op1_stacks | apply op2_stacks | apply op3_stacks
  | apply copy_data_stacks | apply opExtCodeCopy_stacks | apply opReturnDataCopy_stacks
  | apply opCallDataLoad_stacks | apply opMload_stacks | apply opPop_stacks | apply opMstore_stacks
  | apply opMstore8_stacks | apply opSha3_stacks | apply opSstore_stacks | apply opJump_stacks
  | apply opJumpi_stacks | apply opStop_stacks | apply opReturn_stacks | apply opSuicide_stacks
  | apply makeLog_stacks | apply opCall_stacks | apply opCallCode_stacks | apply opDelegateCall_stacks
  | apply opStaticCall_stacks | apply opCreate_stacks | apply opCreate2_stacks ].
Lemma word_size s : Z.of_nat (String.length s) < 2 ^ 62 -> word (Z.of_nat (length (to_bytes s))).
Proof. unfold to_bytes, word. rewrite length_bytes. lia. Qed.
Lemma word_codesize f a : world f -> word (GetCodeSize (chain_state f) a).
Proof. intros Hw. unfold GetCodeSize. apply word_if; [apply word_zero|apply Hw]. Qed.
Lemma word_nonce : word (i64 (VMChainConfig.LastPowNonce config)).
Proof. pose proof (out_nonce Hout). unfold word, config, info. rewrite i64_small; lia. Qed.

(** The values read from the frame and from outside. *)
Ltac read_word :=
  intros; cbv zeta; first [apply word_nonce | repeat apply word_if];
  first [ auto with words; fail
        | apply Hout
        | by match goal with Hw : world _ |- _ => first [apply Hw | apply word_size, Hw | apply word_codesize, Hw] end
        | unfold add_word, sub_word, mul_word, div_word, mod_word, addmod_word, mulmod_word;
          repeat apply word_if; auto with words; fail
        | unfold word; lia ].
Ltac each_typed :=
  repeat apply Forall_cons_2; try apply Forall_nil_2;
  (eapply (typed_as _ _); [|is_stacks]); try reflexivity; read_word.

Lemma frontier_arithmetic_typed : Forall well_typed frontier_arithmetic.
Proof. each_typed. Qed.
Lemma frontier_comparisons_typed : Forall well_typed frontier_comparisons.
Proof. each_typed. Qed.
Lemma frontier_environment_typed : Forall well_typed frontier_environment.
Proof. each_typed. Qed.
Lemma frontier_block_typed : Forall well_typed frontier_block.
Proof. each_typed. Qed.
Lemma frontier_flow_typed : Forall well_typed frontier_flow.
Proof. each_typed. Qed.
Lemma frontier_logs_typed : Forall well_typed frontier_logs.
Proof. each_typed. Qed.
Lemma frontier_system_typed : Forall well_typed frontier_system.
Proof. each_typed. Qed.
Lemma later_operations_typed : Forall well_typed later_operations.
Proof. each_typed. Qed.
Lemma frontier_push_typed : Forall well_typed frontier_push.
Proof.
  apply Forall_fmap, Forall_forall. intros n Hn%elem_of_seqZ.
  apply (typed_as 0 1); [reflexivity|apply makePush_stacks; lia].
Qed.
Lemma frontier_dup_typed : Forall well_typed frontier_dup.
Proof.
  apply Forall_fmap, Forall_forall. intros n Hn%elem_of_seqZ.
  apply (typed_as (Z.to_nat n) (Z.to_nat n + 1)); [|apply makeDup_stacks; lia].
  cbn -[Z.of_nat]. unfold makeDupStackFunc. f_equal; lia.
Qed.
Lemma frontier_swap_typed : Forall well_typed frontier_swap.
Proof.
  apply Forall_fmap, Forall_forall. intros n Hn%elem_of_seqZ.
  apply (typed_as (Z.to_nat n + 1) (Z.to_nat n + 1)); [|apply makeSwap_stacks].
  cbn -[Z.of_nat]. unfold makeSwapStackFunc. f_equal; lia.
Qed.

Lemma instruction_set_typed op o : instruction_set !! op = Some o -> well_typed (op, o).
Proof.
  intros Ho%instruction_set_operations. revert Ho. apply (proj1 (Forall_forall well_typed operations)).
  unfold operations. repeat apply Forall_app_2;
    auto using later_operations_typed, frontier_arithmetic_typed, frontier_comparisons_typed,
      frontier_environment_typed, frontier_block_typed, frontier_flow_typed, frontier_push_typed,
      frontier_dup_typed, frontier_swap_typed, frontier_logs_typed, frontier_system_typed.
Qed.
End Stacks.

(** C25: the stack of the machine is typed.  Of every instruction of every rule
    set, the table says how many items it takes and leaves, and this is what it
    does: once the table's check passed, the instruction leaves at most 1024
    items, keeps those below what it takes, and all are words below 2^256, when
    they were before and the numbers it reads from the block, the message and
    the state are. *)
Theorem stack_of_words `{ctx : Context} `{Machine} op o f f' res err :
  instruction_set !! op = Some o -> outside -> world f -> Forall word (stack f) ->
  validateStack o (stack f) = None -> execute o f = Ret (f', res, err) ->
  Forall word (stack f') /\
  exists npop npush, validateStack o = makeStackFunc (Z.of_nat npop) (Z.of_nat npush) /\
    (npop <= length (stack f))%nat /\ drop (length (stack f') - (length (stack f) - npop)) (stack f') = drop npop (stack f) /\
    (err = None -> length (stack f') = (length (stack f) - npop + npush)%nat /\
                   Z.of_nat (length (stack f')) <= StackLimit).
Proof.
  intros Ho Hout Hw Hs Hv He. destruct (instruction_set_typed Hout op o Ho) as (npop & npush & Ht & Hst).
  simpl in Ht, Hst.
  destruct (Hst f f' res err Hw Hs He) as (new & Hf & Hn & Hl). rewrite Ht in Hv. unfold makeStackFunc in Hv.
  destruct (Z.ltb_spec (Z.of_nat (length (stack f))) (Z.of_nat npop)); [done|].
  destruct (Z.ltb_spec StackLimit (Z.of_nat (length (stack f)) + Z.of_nat npush - Z.of_nat npop)); [done|].
  split; [rewrite Hf; apply Forall_app_2; [done|by apply Forall_drop]|].
  exists npop, npush. split; [done|]. split; [lia|].
  rewrite Hf, length_app, length_drop. split.
  - rewrite drop_app_length'; [done|lia].
  - intros Herr. specialize (Hl Herr). lia.
Qed.

(** A machine that is told nothing but zeros, in a block under the Paris rules. *)
Module SampleWords.
Definition machine : Machine := {| keccak := fun _ => 0; run := fun _ _ _ _ => Panic |}.
Definition context : Context := {|
  CanTransfer := fun _ _ _ _ => true; Transfer_ := fun _ _ _ _ d => Ret d;
  NewContractAddress := fun _ _ _ => 1; OnCreateContract := fun _ _ d => Ret d;
  OnSuicideContract := fun _ _ d => Ret d; InterceptContractCall := fun e c _ => Ret (e, c, None);
  GetHash := fun _ => 0;
  vm_info := VMInfo.mk 0 0 0 0 100 0 0
    (VMChainConfig.mk 82 (Some 0) (Some 0) (Some 0) (Some 0) (Some 0) (Some 0) (Some 0) (Some 0) 0 0);
  is_precompiled := fun _ => false
|}.
Definition frame : Frame.t :=
  Frame.mk (EVM.NewEVM (VMState.New State.New) 0)
    (Contract.mk 5 7 "" 0 7 "" 100 0 false) 0 Memory.NewMemory [2 ^ 256 - 1; 9].
Definition caller_entry : operation.t := plain opCaller (constGasFunc GasQuickStep) 0 1.
End SampleWords.

Lemma stack_of_words_witness :
  Forall word [5; 2 ^ 256 - 1; 9] /\ exists npop npush : nat,
    validateStack SampleWords.caller_entry = makeStackFunc (Z.of_nat npop) (Z.of_nat npush).
Proof.
  destruct (@stack_of_words SampleWords.context SampleWords.machine OpCode.CALLER SampleWords.caller_entry
    SampleWords.frame (SampleWords.frame <| stack := [5; 2 ^ 256 - 1; 9] |>) "" None) as [Hf (npop & npush & Hv & _)].
  - vm_compute. reflexivity.
  - split; intros; by vm_compute.
  - split; intros; by vm_compute.
  - repeat apply Forall_cons_2; try apply Forall_nil_2; by vm_compute.
  - reflexivity.
  - vm_compute. reflexivity.
  - split; [exact Hf|by exists npop, npush].
Defined.
