(* ===== verification/Progress.v ===== *)
(** * No instruction panics

    A frame whose stack holds no negative number and whose memory is below the
    limit that gas sets can run every instruction of every table: the stack check
    covers every pop, the memory paid for covers every access, and what the
    instruction leaves is such a frame again, with at most [StackLimit] items. *)

From S2P Require Import Prelude KeyedList ChainParam VMConfig Words Memory Analysis AnalysisTheorems StakingTypes AuctionTypes Stats StackedMap State ScriptEnv StakingUtils StakingHandlers AccountLock MeterTracker EVM Instructions GasFuncs JumpTable Interpreter Evolution Totality InstructionTheorems.
From Stdlib Require Import Ascii Zpow_facts.
From stdpp Require Import list.
Import Frame operation GasFuncs.
Open Scope Z_scope.
Implicit Types (f : Frame.t) (o : operation.t).

(** The largest memory that can be paid for. *)
Definition MemLimit : Z := 0xffffffffe0.

(** ** Memory *)

Lemma calcMemSize_nonneg a b : 0 <= a -> 0 <= b -> 0 <= calcMemSize a b.
Proof. intros. unfold calcMemSize. case_match; lia. Qed.

(** A range that the memory covers. *)
Lemma covered_range off n m :
  0 <= off -> 0 <= n -> calcMemSize off n <= Memory.Len m -> Memory.Len m <= MemLimit ->
  n = 0 \/ (0 < n /\ off + n <= Memory.Len m /\ Int64 off = off /\ Int64 n = n /\ Uint64 off = off /\ Uint64 n = n).
Proof.
  unfold calcMemSize, MemLimit, Int64, Uint64. intros Ho Hn Hc Hl.
  destruct (Z.eqb_spec n 0); [by left|]. right. rewrite !i64_small, !u64_small by lia. lia.
Qed.

Lemma slice_ret data a b : 0 <= a -> a <= b -> b <= Z.of_nat (length data) ->
  exists d, slice data a b = Ret d /\ Z.of_nat (length d) = b - a.
Proof.
  intros Ha Hb Hl. unfold slice.
  destruct (Z.leb_spec 0 a), (Z.leb_spec a b), (Z.leb_spec b (Z.of_nat (length data))); try lia.
  eexists. split; [done|]. rewrite length_take, length_drop. lia.
Qed.

Lemma Get_ret off n m :
  0 <= off -> 0 <= n -> calcMemSize off n <= Memory.Len m -> Memory.Len m <= MemLimit ->
  exists d, Memory.Get (Int64 off) (Int64 n) m = Ret d /\ Z.of_nat (length d) <= MemLimit.
Proof.
  intros Ho Hn Hc Hl. unfold Memory.Get.
  destruct (covered_range off n m Ho Hn Hc Hl) as [-> | (H0 & H1 & -> & -> & _)].
  - exists []. split; [done|]. unfold MemLimit. simpl. lia.
  - destruct (Z.eqb_spec n 0); [lia|]. destruct (Z.ltb_spec off (Memory.Len m)); [|lia].
    unfold Memory.Len in *. rewrite i64_small by (unfold MemLimit in *; lia).
    destruct (slice_ret (Memory.store m) off (off + n)) as (d & -> & Hd); [lia..|].
    exists d. split; [done|]. lia.
Qed.

Lemma write_len off v s : (off + length v <= length s)%nat -> length (Memory.write off v s) = length s.
Proof. intros Hl. unfold Memory.write. rewrite !length_app, length_take, length_drop. lia. Qed.

Lemma Set_ret off n v m :
  0 <= off -> 0 <= n -> calcMemSize off n <= Memory.Len m -> Memory.Len m <= MemLimit ->
  exists m', Memory.Set_ (Uint64 off) (Uint64 n) v m = Ret m' /\ Memory.Len m' = Memory.Len m.
Proof.
  intros Ho Hn Hc Hl. unfold Memory.Set_.
  destruct (covered_range off n m Ho Hn Hc Hl) as [-> | (H0 & H1 & _ & _ & -> & ->)]; [by exists m|].
  destruct (Z.ltb_spec 0 n); [|lia]. rewrite u64_small by (unfold MemLimit in *; lia).
  destruct (Z.ltb_spec (Memory.Len m) (off + n)), (Z.ltb_spec (off + n) off); try lia.
  eexists. split; [done|]. unfold Memory.Len in *. simpl. rewrite write_len; [done|].
  rewrite length_take. lia.
Qed.

Lemma be_bytes_len n x : length (be_bytes n x) = n.
Proof. revert x. induction n as [|n IH]; intros x; simpl; [done|]. rewrite length_app, IH. simpl. lia. Qed.

Lemma Set32_ret off v m :
  0 <= off -> off + 32 <= Memory.Len m -> Memory.Len m <= MemLimit ->
  exists m', Memory.Set32 (Uint64 off) v m = Ret m' /\ Memory.Len m' = Memory.Len m.
Proof.
  intros Ho Hc Hl. unfold Memory.Set32, Uint64. rewrite !u64_small by (rewrite ?u64_small; unfold MemLimit in *; lia).
  destruct (Z.ltb_spec (Memory.Len m) (off + 32)), (Z.ltb_spec (off + 32) off); try lia.
  eexists. split; [done|]. unfold Memory.Len in *. cbn -[be_bytes]. rewrite write_len; [done|].
  rewrite be_bytes_len. lia.
Qed.

Lemma Resize_len n m : Memory.Len (Memory.Resize n m) = Z.max (Memory.Len m) n.
Proof.
  unfold Memory.Resize. destruct (Z.ltb_spec (Memory.Len m) n); [|lia].
  unfold Memory.Len in *. simpl. rewrite length_app, length_replicate. lia.
Qed.

Lemma getDataBig_ret data start n :
  0 <= start -> 0 <= n -> Z.of_nat (length data) < 2 ^ 62 -> exists d, getDataBig data start n = Ret d.
Proof.
  intros Hs Hn Hl. unfold getDataBig, Uint64.
  rewrite (u64_small (Z.min start _)) by lia. rewrite (u64_small (Z.min (_ + n) _)) by lia.
  destruct (slice_ret data (Z.min start (Z.of_nat (length data)))
    (Z.min (Z.min start (Z.of_nat (length data)) + n) (Z.of_nat (length data)))) as (d & -> & _); [lia..|].
  simpl. eauto.
Qed.

(** ** Frames *)

Section Frames.
Context `{ctx : Context} `{!Tame true ctx} `{!Lively ctx} `{Machine}.
Hypothesis Hkeccak : forall c, 0 <= keccak c.
Hypothesis Hgas : run_gas true.
Hypothesis Hrun : run_evolves.
Context (depth : Z).
Hypothesis Hnest : depth <= CallCreateDepth -> runs_at depth.

Record frame_ok f : Prop := {
  fo_evm : evm_ok (evm f);
  fo_depth : EVM.depth (evm f) = depth;
  fo_contract : contract_ok (contract f);
  fo_stack : Forall (Z.le 0) (stack f);
  fo_memory : Memory.Len (memory f) <= MemLimit;
  fo_pc : 0 <= pc f
}.

(** What an instruction that pops [npop] and pushes [npush] items leaves. *)
Record landed (npop npush : nat) f f' : Prop := {
  ld_evm : evm_ok (evm f');
  ld_memory : Memory.Len (memory f') <= MemLimit;
  ld_stack : exists new, stack f' = new ++ drop npop (stack f) /\ Forall (Z.le 0) new /\ length new = npush
}.

(** The memory covers what the instruction reaches. *)
Definition covers (sz : option memorySizeFunc) f : Prop :=
  forall s n, sz = Some s -> s f = Ret n -> n <= Memory.Len (memory f).

(** [need] is what the price of the instruction has to ensure. *)
Definition executes_if (need : Frame.t -> Prop) (npop npush : nat) (sz : option memorySizeFunc)
    (e : executionFunc) : Prop :=
  forall f, frame_ok f -> pc f < 2 ^ 62 -> (npop <= length (stack f))%nat -> covers sz f -> need f ->
  exists f' res err, e f = Ret (f', res, err) /\ landed npop npush f f'.
Definition executes (npop npush : nat) (sz : option memorySizeFunc) (e : executionFunc) : Prop :=
  forall f, frame_ok f -> pc f < 2 ^ 62 -> (npop <= length (stack f))%nat -> covers sz f ->
  exists f' res err, e f = Ret (f', res, err) /\ landed npop npush f f'.

(** A frame with its items in front. *)
Ltac take_items f Hf :=
  let e := fresh "e" in let c := fresh "c" in let p := fresh "p" in
  let m := fresh "m" in let st := fresh "st" in
  destruct f as [e c p m st]; pose proof (fo_stack _ Hf) as Hst; pose proof (fo_evm _ Hf) as Hevm;
  pose proof (fo_memory _ Hf) as Hmem; cbn [evm contract pc memory stack] in *.
Ltac next_item x :=
  match goal with
  | Hl : (S _ <= length ?st)%nat, Hst : Forall _ ?st |- _ =>
    destruct st as [|x st]; cbn [length] in Hl; [lia|];
    apply Forall_cons in Hst as [? Hst]; apply le_S_n in Hl
  end.

Lemma op0_executes g sz : (forall f, frame_ok f -> 0 <= g f) -> executes 0 1 sz (op0 g).
Proof.
  intros Hg f Hf _ _ _. eexists _, _, _. split; [done|]. split; [apply Hf|apply Hf|].
  exists [g f]. split_and!; [done| |done]. apply Forall_singleton. by apply Hg.
Qed.

Lemma op1_executes g sz :
  (forall f x, evm_ok (evm f) -> contract_ok (contract f) -> 0 <= x -> 0 <= g f x) -> executes 1 1 sz (op1 g).
Proof.
  intros Hg f Hf _ Hl _. pose proof (fo_contract _ Hf) as Hc. take_items f Hf. next_item x.
  eexists _, _, _. split; [reflexivity|]. split; [done|done|]. eexists [_].
  split_and!; [reflexivity| |done]. apply Forall_singleton. by apply Hg.
Qed.

Lemma op2_executes g sz : (forall x y, 0 <= x -> 0 <= y -> 0 <= g x y) -> executes 2 1 sz (op2 g).
Proof.
  intros Hg f Hf _ Hl _. take_items f Hf. next_item x. next_item y.
  eexists _, _, _. split; [reflexivity|]. split; [done|done|]. eexists [_].
  split_and!; [reflexivity| |done]. apply Forall_singleton. by apply Hg.
Qed.

Lemma op3_executes g sz : (forall x y z, 0 <= x -> 0 <= y -> 0 <= z -> 0 <= g x y z) -> executes 3 1 sz (op3 g).
Proof.
  intros Hg f Hf _ Hl _. take_items f Hf. next_item x. next_item y. next_item z.
  eexists _, _, _. split; [reflexivity|]. split; [done|done|]. eexists [_].
  split_and!; [reflexivity| |done]. apply Forall_singleton. by apply Hg.
Qed.

(** ** Memory and data *)

Lemma mem_covers a b f st : covers (Some (mem_at a b)) f -> stack f = st ->
  forall x y, st !! a = Some x -> st !! b = Some y -> calcMemSize x y <= Memory.Len (memory f).
Proof.
  intros Hc Hs x y Hx Hy. apply (Hc (mem_at a b) _ eq_refl). unfold mem_at, Back.
  by rewrite Hs, Hx, Hy.
Qed.
Lemma mem_covers2 a b a' b' f st : covers (Some (mem_max (mem_at a b) (mem_at a' b'))) f -> stack f = st ->
  forall x y x' y', st !! a = Some x -> st !! b = Some y -> st !! a' = Some x' -> st !! b' = Some y' ->
  calcMemSize x y <= Memory.Len (memory f) /\ calcMemSize x' y' <= Memory.Len (memory f).
Proof.
  intros Hc Hs x y x' y' Hx Hy Hx' Hy'.
  assert (Z.max (calcMemSize x y) (calcMemSize x' y') <= Memory.Len (memory f)); [|lia].
  apply (Hc (mem_max (mem_at a b) (mem_at a' b')) _ eq_refl). unfold mem_max, mem_at, Back.
  by rewrite Hs, Hx, Hy, Hx', Hy'.
Qed.

(** What an instruction leaves when it pushes one item or none. *)
Ltac lands l := split; [try done|try done|exists l; split_and!; [reflexivity|repeat constructor; try done|reflexivity]].

Lemma copy_data_executes g : (forall f, frame_ok f -> Z.of_nat (length (g f)) < 2 ^ 62) ->
  (forall f st, g (f <| stack := st |>) = g f) ->
  executes 3 0 (Some (mem_at 0 2)) (copy_data g).
Proof.
  intros Hg Hs f Hf _ Hl Hc. specialize (Hg f Hf).
  pose proof (mem_covers _ _ _ _ Hc eq_refl) as Hm.
  take_items f Hf. next_item x. next_item y. next_item z. specialize (Hm _ _ eq_refl eq_refl).
  destruct (getDataBig_ret (g (Frame.mk e c p m (x :: y :: z :: st))) y z) as [d Hd]; [done..|].
  destruct (Set_ret x z d m) as (m' & Em & Hm'); [done..|].
  unfold copy_data. cbn -[getDataBig Memory.Set_]. rewrite !Hs, Hd. cbn -[Memory.Set_].
  rewrite Em. cbn. eexists _, _, _. split; [reflexivity|]. lands (@nil Z). cbn. by rewrite Hm'.
Qed.

Lemma opExtCodeCopy_executes : executes 4 0 (Some memoryExtCodeCopy) opExtCodeCopy.
Proof.
  intros f Hf _ Hl Hc. pose proof (mem_covers _ _ _ _ Hc eq_refl) as Hm.
  take_items f Hf. next_item a. next_item x. next_item y. next_item z. specialize (Hm _ _ eq_refl eq_refl).
  destruct (getDataBig_ret (to_bytes (State.GetCode (VMState.state (EVM.StateDB e)) (BigToAddress a))) y z)
    as [d Hd]; [done|done|unfold to_bytes; rewrite length_bytes; apply ok_code, Hevm|].
  destruct (Set_ret x z d m) as (m' & Em & Hm'); [done..|].
  unfold opExtCodeCopy, copy_data. cbn -[getDataBig Memory.Set_ to_bytes]. unfold chain_state, db. cbn -[getDataBig Memory.Set_ to_bytes].
  rewrite Hd. cbn -[Memory.Set_].
  rewrite Em. cbn. eexists _, _, _. split; [reflexivity|]. lands (@nil Z). cbn. by rewrite Hm'.
Qed.

Lemma opReturnDataCopy_executes : executes 3 0 (Some memoryReturnDataCopy) opReturnDataCopy.
Proof.
  intros f Hf _ Hl Hc. pose proof (mem_covers _ _ _ _ Hc eq_refl) as Hm.
  take_items f Hf. next_item x. next_item y. next_item z. specialize (Hm _ _ eq_refl eq_refl).
  unfold opReturnDataCopy. cbn -[slice Memory.Set_ to_bytes BitLen].
  set (data := to_bytes (EVM.returnData e)).
  destruct (Z.ltb_spec 64 (BitLen (y + z))) as [|Hb]; [eexists _, _, _; split; [reflexivity|]; lands (@nil Z)|].
  assert (y + z < 2 ^ 64) by (apply BitLen_large; lia).
  assert (Uint64 (y + z) = y + z) as -> by (apply u64_small; lia).
  assert (Uint64 y = y) as -> by (apply u64_small; lia).
  destruct (Z.ltb_spec (Z.of_nat (length data)) (y + z)); [eexists _, _, _; split; [reflexivity|]; lands (@nil Z)|].
  destruct (slice_ret data y (y + z)) as (d & Ed & _); [lia..|].
  destruct (Set_ret x z d m) as (m' & Em & Hm'); [done..|].
  cbn -[slice Memory.Set_]. rewrite Ed. cbn -[Memory.Set_]. rewrite Em. cbn.
  eexists _, _, _. split; [reflexivity|]. lands (@nil Z). cbn. by rewrite Hm'.
Qed.

Lemma opCallDataLoad_executes : executes 1 1 None opCallDataLoad.
Proof.
  intros f Hf _ Hl _. pose proof (co_input _ (fo_contract _ Hf)) as Hi. take_items f Hf. next_item x.
  destruct (getDataBig_ret (input_of c) x 32) as [d Hd];
    [done|done|unfold input_of; by rewrite length_bytes|].
  unfold opCallDataLoad. cbn -[getDataBig input_of]. rewrite Hd. cbn.
  eexists _, _, _. split; [reflexivity|]. lands [SetBytes d]. apply SetBytes_nonneg.
Qed.

Lemma opPop_executes : executes 1 0 None opPop.
Proof. intros f Hf _ Hl _. take_items f Hf. next_item x. eexists _, _, _. split; [reflexivity|]. lands (@nil Z). Qed.

Lemma opMload_executes : executes 1 1 (Some memoryMLoad) opMload.
Proof.
  intros f Hf _ Hl Hc. take_items f Hf. next_item x.
  pose proof (Hc memoryMLoad (x + 32) eq_refl eq_refl) as Hm. cbn in Hm.
  destruct (Get_ret x 32 m) as (d & Ed & _); [done..|].
  unfold opMload. cbn -[Memory.Get]. change (Int64 32) with 32 in Ed. rewrite Ed. cbn.
  eexists _, _, _. split; [reflexivity|]. lands [SetBytes d]. apply SetBytes_nonneg.
Qed.

Lemma opMstore_executes : executes 2 0 (Some memoryMStore) opMstore.
Proof.
  intros f Hf _ Hl Hc. take_items f Hf. next_item x. next_item y.
  pose proof (Hc memoryMStore (x + 32) eq_refl eq_refl) as Hm. cbn in Hm.
  destruct (Set32_ret x y m) as (m' & Em & Hm'); [done..|].
  unfold opMstore. cbn -[Memory.Set32]. rewrite Em. cbn.
  eexists _, _, _. split; [reflexivity|]. lands (@nil Z). cbn. by rewrite Hm'.
Qed.

Lemma opMstore8_executes : executes 2 0 (Some memoryMStore8) opMstore8.
Proof.
  intros f Hf _ Hl Hc. take_items f Hf. next_item x. next_item y.
  pose proof (Hc memoryMStore8 (x + 1) eq_refl eq_refl) as Hm. cbn in Hm.
  unfold opMstore8. cbn -[Memory.Len Int64]. unfold Int64. rewrite i64_small by (unfold MemLimit in *; lia).
  destruct (Z.ltb_spec x 0), (Z.leb_spec (Memory.Len m) x); try lia. cbn -[Memory.Len].
  eexists _, _, _. split; [reflexivity|]. lands (@nil Z). unfold Memory.Len in *. cbn. by rewrite length_insert.
Qed.

Lemma opSha3_executes : executes 2 1 (Some memorySha3) opSha3.
Proof.
  intros f Hf _ Hl Hc. pose proof (mem_covers _ _ _ _ Hc eq_refl) as Hm.
  take_items f Hf. next_item x. next_item y. specialize (Hm _ _ eq_refl eq_refl).
  destruct (Get_ret x y m) as (d & Ed & _); [done..|].
  unfold opSha3. cbn -[Memory.Get VMState.AddPreimage]. rewrite Ed. cbn -[VMState.AddPreimage].
  set (h := keccak (of_bytes d)).
  assert (exists db', (if EVM.EnablePreimageRecording e then VMState.AddPreimage h (of_bytes d) (EVM.StateDB e)
    else Ret (EVM.StateDB e)) = Ret db' /\ db_ok db') as (db' & E & Hdb).
  { destruct (EVM.EnablePreimageRecording e); [|eexists; split; [done|apply Hevm]]. apply put_ok'; [apply Hevm|done]. }
  unfold db. cbn -[VMState.AddPreimage]. rewrite E. cbn.
  eexists _, _, _. split; [reflexivity|]. lands [h]; [by apply evm_ok_db|apply Hkeccak].
Qed.

Lemma opSstore_executes : executes 2 0 None opSstore.
Proof.
  intros f Hf _ Hl _. take_items f Hf. next_item x. next_item y.
  eexists _, _, _. split; [reflexivity|]. lands (@nil Z). apply evm_ok_db; [done|].
  apply db_ok_state; [apply Hevm|]. apply state_ok_storage; [apply Hevm|]. by apply Z.mod_pos_bound.
Qed.

Lemma opStop_executes : executes 0 0 None opStop.
Proof. intros f Hf _ Hl _. take_items f Hf. eexists _, _, _. split; [reflexivity|]. lands (@nil Z). Qed.

Lemma jump_to_ret pos f : 0 <= pos -> contract_ok (contract f) ->
  exists f' res err, jump_to pos f = Ret (f', res, err) /\ evm f' = evm f /\ memory f' = memory f /\ stack f' = stack f.
Proof.
  intros Hp Hc. unfold jump_to. rewrite has_spec; [|done|].
  - cbn. destruct (valid_jump _ _); by eexists _, _, _.
  - unfold code_of. rewrite length_bytes. apply Hc.
Qed.
Lemma opJump_executes : executes 1 0 None opJump.
Proof.
  intros f Hf _ Hl _. pose proof (fo_contract _ Hf) as Hct. take_items f Hf. next_item x. unfold opJump. cbn -[jump_to].
  set (f1 := Frame.mk _ _ _ _ _ <| stack := _ |>). 
  destruct (jump_to_ret x f1) as (f' & res & err & -> & E1 & E2 & E3); [done|done|].
  eexists _, _, _. split; [reflexivity|]. split; [by rewrite E1|by rewrite E2|]. exists []. by rewrite E3.
Qed.
Lemma opJumpi_executes : executes 2 0 None opJumpi.
Proof.
  intros f Hf _ Hl _. pose proof (fo_contract _ Hf) as Hct. take_items f Hf. next_item x. next_item y. unfold opJumpi. cbn -[jump_to].
  destruct (y =? 0); cbn -[jump_to]; [eexists _, _, _; split; [reflexivity|]; lands (@nil Z)|].
  set (f1 := Frame.mk _ _ _ _ _ <| stack := _ |> <| stack := _ |>).
  destruct (jump_to_ret x f1) as (f' & res & err & -> & E1 & E2 & E3); [done|done|].
  eexists _, _, _. split; [reflexivity|]. split; [by rewrite E1|by rewrite E2|]. exists []. by rewrite E3.
Qed.

Lemma opReturn_executes : executes 2 0 (Some memoryReturn) opReturn.
Proof.
  intros f Hf _ Hl Hc. pose proof (mem_covers _ _ _ _ Hc eq_refl) as Hm.
  take_items f Hf. next_item x. next_item y. specialize (Hm _ _ eq_refl eq_refl).
  destruct (Get_ret x y m) as (d & Ed & _); [done..|].
  unfold opReturn. cbn -[Memory.Get Memory.GetPtr].
  change (Memory.GetPtr (Int64 x) (Int64 y) m) with (Memory.Get (Int64 x) (Int64 y) m). rewrite Ed. cbn.
  eexists _, _, _. split; [reflexivity|]. lands (@nil Z).
Qed.

Lemma opSuicide_executes : executes 1 0 None opSuicide.
Proof.
  intros f Hf _ Hl _. take_items f Hf. next_item x. unfold opSuicide. cbn -[VMState.Suicide]. unfold db, Instructions.self. cbn -[VMState.Suicide BigToAddress].
  destruct (live_suicide (Contract.self c) (BigToAddress x) (EVM.StateDB e)) as (d & -> & Hd); [apply Hevm|].
  cbn -[VMState.Suicide].
  assert (exists d' b, VMState.Suicide (Contract.self c) d = Ret (d', b) /\ db_ok d') as (d' & b & E & Hd').
  { unfold VMState.Suicide. case_match; [by eexists _, _|].
    destruct (put_ok' (suicideFlagKey (Contract.self c)) (VFlag true)
      (d <| VMState.state ::= State.Delete (Contract.self c) |>)) as (d' & E & Hd'); [|done|].
    - apply db_ok_state; [done|]. apply state_ok_delete, Hd.
    - rewrite E. by eexists _, _. }
  rewrite E. cbn. eexists _, _, _. split; [reflexivity|]. lands (@nil Z). by apply evm_ok_db.
Qed.

Lemma pop_topics_ret n e c p m st : (n <= length st)%nat ->
  exists ts, pop_topics n (Frame.mk e c p m st) = Ret (ts, Frame.mk e c p m (drop n st)).
Proof.
  revert st. induction n as [|n IH]; intros st Hl; [by exists []|].
  destruct st as [|x st]; [cbn in Hl; lia|]. cbn in *. change (update_field _ _ _) with (Frame.mk e c p m st).
  destruct (IH st) as [ts E]; [lia|]. rewrite E. cbn. eauto.
Qed.
Lemma makeLog_executes n : executes (2 + n) 0 (Some memoryLog) (makeLog n).
Proof.
  intros f Hf _ Hl Hc. pose proof (mem_covers _ _ _ _ Hc eq_refl) as Hm.
  take_items f Hf. simpl in Hl. next_item x. next_item y. specialize (Hm _ _ eq_refl eq_refl).
  destruct (Get_ret x y m) as (d & Ed & _); [done..|].
  destruct (pop_topics_ret n e c p m st Hl) as [ts Et].
  unfold makeLog. cbn -[Memory.Get VMState.AddLog pop_topics].
  change (update_field _ _ _) with (Frame.mk e c p m st). rewrite Et. cbn -[Memory.Get VMState.AddLog]. rewrite Ed.
  cbn -[VMState.AddLog]. unfold db. cbn -[VMState.AddLog].
  destruct (put_ok' eventKey (VLog (Log.mk (Contract.self c) ts (of_bytes d))) (EVM.StateDB e)) as (d' & E & Hd');
    [apply Hevm|done|]. unfold VMState.AddLog. unfold Instructions.self. cbn -[VMState.repo_put]. rewrite E. cbn.
  eexists _, _, _. split; [reflexivity|]. lands (@nil Z). by apply evm_ok_db.
Qed.

Lemma makePush_executes n : 0 <= n <= 32 -> executes 0 1 None (makePush n n).
Proof.
  intros Hn f Hf Hp Hl _. pose proof (co_code _ (fo_contract _ Hf)) as Hco. pose proof (fo_pc _ Hf) as Hpc.
  take_items f Hf. unfold makePush. cbn -[slice code_of].
  rewrite (u64_small (p + 1)), (i64_small (p + 1)) by lia.
  set (codeLen := Z.of_nat (length (code_of c))).
  set (startMin := if p + 1 <? codeLen then p + 1 else codeLen).
  set (endMin := if startMin + n <? codeLen then startMin + n else codeLen).
  assert (0 <= startMin <= codeLen) as Hs by (unfold startMin, codeLen; case_match; lia).
  destruct (slice_ret (code_of c) startMin endMin) as (d & Ed & _);
    [lia|unfold endMin; case_match; lia|unfold endMin, codeLen in *; case_match; lia|].
  rewrite Ed. cbn -[RightPadBytes]. eexists _, _, _. split; [reflexivity|].
  lands [SetBytes (RightPadBytes d n)]. apply SetBytes_nonneg.
Qed.

Lemma makeDup_executes n : (1 <= n)%nat -> executes n (n + 1) None (makeDup n).
Proof.
  intros Hn f Hf _ Hl _. take_items f Hf. unfold makeDup, dup, Back. cbn.
  destruct (lookup_lt_is_Some_2 st (n - 1)) as [x Hx]; [lia|]. rewrite Hx. cbn.
  eexists _, _, _. split; [reflexivity|]. split; [done|done|]. exists (x :: take n st). cbn.
  split_and!; [by rewrite take_drop| |rewrite length_take; lia].
  apply Forall_cons. split; [by eapply Forall_lookup_1|by apply Forall_take].
Qed.
Lemma makeSwap_executes n : executes (n + 1) (n + 1) None (makeSwap n).
Proof.
  intros f Hf _ Hl _. take_items f Hf. unfold makeSwap, swap, Back. cbn -[lookup insert].
  replace (n + 1 - 1)%nat with n by lia.
  destruct (lookup_lt_is_Some_2 st n) as [x Hx]; [lia|]. rewrite Hx. cbn -[lookup insert].
  destruct (lookup_lt_is_Some_2 st 0) as [y Hy]; [lia|]. rewrite Hy. cbn -[lookup insert].
  eexists _, _, _. split; [reflexivity|]. split; [done|done|].
  set (st' := <[n:=y]> (<[0%nat:=x]> st)). exists (take (n + 1) st'). cbn -[take drop lookup insert].
  assert (length st' = length st) as Hlen by (unfold st'; by rewrite !length_insert).
  split_and!.
  - change (st' = take (n + 1) st' ++ drop (n + 1) st).
    rewrite <- (take_drop (n + 1) st') at 1. f_equal. unfold st'. by rewrite !drop_insert_lt by lia.
  - apply Forall_take. unfold st'. repeat apply Forall_insert; try done; by eapply Forall_lookup_1.
  - rewrite length_take. lia.
Qed.

(** ** Calls and creations *)

Lemma MemLimit_small d : Z.of_nat (length d) <= MemLimit -> Z.of_nat (String.length (of_bytes d)) < 2 ^ 62.
Proof. unfold of_bytes, MemLimit. rewrite length_string. lia. Qed.

Lemma opCreate_executes : executes 3 1 (Some memoryCreate) opCreate.
Proof.
  intros f Hf _ Hl Hc. pose proof (mem_covers _ _ _ _ Hc eq_refl) as Hm. pose proof (fo_contract _ Hf) as Hct.
  pose proof (fo_depth _ Hf) as Hdep. take_items f Hf. next_item v. next_item x. next_item y. specialize (Hm _ _ eq_refl eq_refl).
  destruct (Get_ret x y m) as (d & Ed & Hd); [done..|].
  unfold opCreate. cbn -[Memory.Get Create]. rewrite Ed. cbn -[Create].
  set (g := if VMChainConfig.IsEIP150 _ _ then _ else _).
  assert (0 <= g < GasBound) as Hg.
  { unfold g, gas. cbn. pose proof (co_gas _ Hct). pose proof (Z.div_pos (Contract.Gas c) 64).
    pose proof (Z.div_le_upper_bound (Contract.Gas c) 64 (Contract.Gas c)). case_match; lia. }
  destruct (create_ret Hkeccak Hrun depth Hnest (Contract.self c) (of_bytes d) g v MTR
    (NewContractAddress (EVM.StateDB e) (Contract.self c) (EVM.contractCreationCount e)) e)
    as (e' & ret & g' & a' & err & Ecr & He' & Ha'); [done|done|apply Hct|apply live_address|done|done|by apply MemLimit_small|].
  unfold Create, Instructions.self. cbn -[create]. rewrite Ecr. cbn.
  eexists _, _, _. split; [reflexivity|]. eexists; [exact He'|done|]. eexists [_].
  split_and!; [reflexivity| |reflexivity]. apply Forall_singleton. repeat case_match; done.
Qed.

Lemma opCreate2_executes : executes 4 1 (Some memoryCreate2) opCreate2.
Proof.
  intros f Hf _ Hl Hc. pose proof (mem_covers _ _ _ _ Hc eq_refl) as Hm. pose proof (fo_contract _ Hf) as Hct.
  pose proof (fo_depth _ Hf) as Hdep. take_items f Hf. next_item v. next_item x. next_item y. next_item salt.
  specialize (Hm _ _ eq_refl eq_refl). destruct (Get_ret x y m) as (d & Ed & Hd); [done..|].
  unfold opCreate2. cbn -[Memory.Get Create2]. rewrite Ed. cbn -[Create2].
  set (g := gas _ - gas _ / 64).
  assert (0 <= g < GasBound) as Hg.
  { unfold g, gas. cbn. pose proof (co_gas _ Hct). pose proof (Z.div_pos (Contract.Gas c) 64).
    pose proof (Z.div_le_upper_bound (Contract.Gas c) 64 (Contract.Gas c)). lia. }
  destruct (create_ret Hkeccak Hrun depth Hnest (Contract.self c) (of_bytes d) g v MTR
    (CreateAddress2 (Contract.self c) (BigToHash salt) (keccak (of_bytes d))) e)
    as (e' & ret & g' & a' & err & Ecr & He' & Ha');
    [done|done|apply Hct|by apply Z.mod_pos_bound|done|done|by apply MemLimit_small|].
  unfold Create2, Instructions.self. cbn -[create CreateAddress2 BigToHash]. rewrite Ecr. cbn.
  eexists _, _, _. split; [reflexivity|]. eexists; [exact He'|done|]. eexists [_].
  split_and!; [reflexivity| |reflexivity]. apply Forall_singleton. repeat case_match; done.
Qed.

(** The flag is pushed and the data written to a range the memory covers. *)
Lemma finish_call_ret npop a b f f2 r : returns_ok r ->
  stack f2 = drop npop (stack f) -> memory f2 = memory f -> 0 <= a -> 0 <= b ->
  calcMemSize a b <= Memory.Len (memory f) -> Memory.Len (memory f) <= MemLimit ->
  exists f' res err, (x ← r; finish_call a b f2 x) = Ret (f', res, err) /\ landed npop 1 f f'.
Proof.
  intros (e' & ret & g & err & -> & He') Hs Hm Ha Hb Hc Hl. cbn -[Memory.Set_].
  destruct (Set_ret a b (to_bytes ret) (memory f)) as (m' & Em & Hm'); [done..|].
  assert (exists m2, (if bool_decide (err = None) || bool_decide (err = Some errExecutionReverted)
    then Memory.Set_ (Uint64 a) (Uint64 b) (to_bytes ret) (memory f2) else Ret (memory f2)) = Ret m2 /\
    Memory.Len m2 = Memory.Len (memory f)) as (m2 & E2 & Hm2).
  { rewrite Hm. destruct (_ || _); eauto. }
  change (memory (push _ _)) with (memory f2). rewrite E2. cbn.
  eexists _, _, _. split; [reflexivity|]. split; [exact He'|cbn; by rewrite Hm2|].
  eexists [_]. cbn. rewrite Hs. split_and!; [done| |done]. apply Forall_singleton. by case_bool_decide.
Qed.

(** What a call hands on is below the bound. *)
Definition funded_value f : Prop := forall v, Back 2 f = Ret v -> call_gas_of f v < GasBound.
Definition funded f : Prop := EVM.callGasTemp (evm f) < GasBound.

Lemma call_gas_of_nonneg f v : evm_ok (evm f) -> 0 <= call_gas_of f v.
Proof. intros He. unfold call_gas_of. case_match; [apply u64_nonneg|apply He]. Qed.

(** The seven items of a call with a value. *)
Lemma opCall_executes : executes_if funded_value 7 1 (Some memoryCall) opCall.
Proof.
  intros f Hf _ Hl Hc Hfund. pose proof (mem_covers2 _ _ _ _ _ _ Hc eq_refl) as Hm. pose proof (fo_contract _ Hf) as Hct.
  pose proof (fo_depth _ Hf) as Hdep. take_items f Hf.
  next_item g0. next_item a. next_item v. next_item x. next_item y. next_item ro. next_item rs.
  destruct (Hm _ _ _ _ eq_refl eq_refl eq_refl eq_refl) as [Hm1 Hm2]. cbn in Hm1, Hm2.
  destruct (Get_ret x y m) as (d & Ed & Hd); [done..|].
  unfold opCall, Call. cbn -[Memory.Get call finish_call BigToAddress U256]. rewrite Ed.
  cbn -[call finish_call BigToAddress U256]. unfold Instructions.self. cbn -[call finish_call BigToAddress U256].
  pose proof (conj (call_gas_of_nonneg _ v (fo_evm _ Hf)) (Hfund v eq_refl)) as Hg.
  apply finish_call_ret; try done.
  apply (call_ret Hrun depth Hnest); [done|done|apply Hct|by apply Z.mod_pos_bound|exact Hg|by apply Z.mod_pos_bound|by apply MemLimit_small].
Qed.

Lemma opCallCode_executes : executes_if funded_value 7 1 (Some memoryCall) opCallCode.
Proof.
  intros f Hf _ Hl Hc Hfund. pose proof (mem_covers2 _ _ _ _ _ _ Hc eq_refl) as Hm. pose proof (fo_contract _ Hf) as Hct.
  pose proof (fo_depth _ Hf) as Hdep. take_items f Hf.
  next_item g0. next_item a. next_item v. next_item x. next_item y. next_item ro. next_item rs.
  destruct (Hm _ _ _ _ eq_refl eq_refl eq_refl eq_refl) as [Hm1 Hm2]. cbn in Hm1, Hm2.
  destruct (Get_ret x y m) as (d & Ed & Hd); [done..|].
  unfold opCallCode. cbn -[Memory.Get CallCode finish_call BigToAddress U256]. rewrite Ed.
  cbn -[CallCode finish_call BigToAddress U256]. unfold Instructions.self. cbn -[CallCode finish_call BigToAddress U256].
  pose proof (conj (call_gas_of_nonneg _ v (fo_evm _ Hf)) (Hfund v eq_refl)) as Hg.
  apply finish_call_ret; try done.
  apply (CallCode_ret Hrun depth Hnest); [done|done|apply Hct|by apply Z.mod_pos_bound|exact Hg|by apply Z.mod_pos_bound|by apply MemLimit_small].
Qed.

Lemma opDelegateCall_executes : executes_if funded 6 1 (Some memoryDelegateCall) opDelegateCall.
Proof.
  intros f Hf _ Hl Hc Hfund. pose proof (mem_covers2 _ _ _ _ _ _ Hc eq_refl) as Hm. pose proof (fo_contract _ Hf) as Hct.
  pose proof (fo_depth _ Hf) as Hdep. take_items f Hf.
  next_item g0. next_item a. next_item x. next_item y. next_item ro. next_item rs.
  destruct (Hm _ _ _ _ eq_refl eq_refl eq_refl eq_refl) as [Hm1 Hm2]. cbn in Hm1, Hm2.
  destruct (Get_ret x y m) as (d & Ed & Hd); [done..|].
  unfold opDelegateCall. cbn -[Memory.Get EVM.DelegateCall finish_call BigToAddress]. rewrite Ed.
  cbn -[EVM.DelegateCall finish_call BigToAddress].
  apply finish_call_ret; try done.
  apply (DelegateCall_ret Hrun depth Hnest); [done|done|done|by split; [apply Hevm|]|by apply MemLimit_small].
Qed.

Lemma opStaticCall_executes : executes_if funded 6 1 (Some memoryStaticCall) opStaticCall.
Proof.
  intros f Hf _ Hl Hc Hfund. pose proof (mem_covers2 _ _ _ _ _ _ Hc eq_refl) as Hm. pose proof (fo_contract _ Hf) as Hct.
  pose proof (fo_depth _ Hf) as Hdep. take_items f Hf.
  next_item g0. next_item a. next_item x. next_item y. next_item ro. next_item rs.
  destruct (Hm _ _ _ _ eq_refl eq_refl eq_refl eq_refl) as [Hm1 Hm2]. cbn in Hm1, Hm2.
  destruct (Get_ret x y m) as (d & Ed & Hd); [done..|].
  unfold opStaticCall. cbn -[Memory.Get StaticCall finish_call BigToAddress]. rewrite Ed.
  cbn -[StaticCall finish_call BigToAddress]. unfold Instructions.self. cbn -[StaticCall finish_call BigToAddress].
  apply finish_call_ret; try done.
  apply (StaticCall_ret Hrun depth Hnest); [done|done|apply Hct|by apply Z.mod_pos_bound|by split; [apply Hevm|]|by apply MemLimit_small].
Qed.

(** ** Prices *)

(** A price returns, and with memory it refuses what is beyond the limit. *)
Definition prices (npop : nat) (mem : bool) (g : gasFunc) : Prop := forall f ms,
  frame_ok f -> (npop <= length (stack f))%nat ->
  exists f1 r, g f ms = Ret (f1, r) /\ evm_ok (evm f1) /\
    (mem = true -> forall cost, r = inr cost -> ms <= MemLimit).

Lemma Back_ret n f : frame_ok f -> (n < length (stack f))%nat -> exists x, Back n f = Ret x /\ 0 <= x.
Proof.
  intros Hf Hl. unfold Back. destruct (lookup_lt_is_Some_2 (stack f) n Hl) as [x Hx]. rewrite Hx.
  exists x. split; [done|]. by eapply Forall_lookup_1; [apply Hf|].
Qed.

Lemma memory_gas_limit f ms f1 g : memory_gas f ms = (f1, g) -> g <> inl errGasUintOverflow -> ms <= MemLimit.
Proof.
  unfold memory_gas, memoryGasCost, MemLimit. destruct (Z.eqb_spec ms 0); [intros; lia|].
  destruct (Z.ltb_spec 0xffffffffe0 ms); [|intros; lia]. by intros [= <- <-].
Qed.
(** The limit for every price that starts from the memory's. *)
Lemma memory_prices f ms f1 m (r : string + Z) : frame_ok f -> memory_gas f ms = (f1, m) ->
  (forall e, m = inl e -> exists e', r = inl e') ->
  evm_ok (evm f1) /\ (true = true -> forall cost : Z, r = inr cost -> ms <= MemLimit).
Proof.
  intros Hf Hm Hr. split.
  - destruct (memory_gas_spec _ _ _ _ Hm) as ([-> _ _] & _). apply Hf.
  - intros _ cost ->. eapply memory_gas_limit; [exact Hm|]. destruct m as [e|]; [|done].
    destruct (Hr e eq_refl) as [? [=]].
Qed.

Lemma const_prices n c : prices n false (constGasFunc c).
Proof. intros f ms Hf _. eexists _, _. split; [done|]. split; [apply Hf|done]. Qed.
Lemma memory_only_prices n : prices n true (fun f ms => Ret (memory_gas f ms)).
Proof.
  intros f ms Hf _. destruct (memory_gas f ms) as [f1 m] eqn:E. exists f1, m. split; [done|].
  eapply memory_prices; [done|exact E|eauto].
Qed.
Lemma memory_and_prices n c : prices n true (memory_and c).
Proof.
  intros f ms Hf _. unfold memory_and. destruct (memory_gas f ms) as [f1 m] eqn:E. eexists _, _. split; [done|].
  eapply memory_prices; [done|exact E|]. intros e ->. eauto.
Qed.
Lemma memory_words_prices n c i w : (i < n)%nat -> prices n true (memory_words c i w).
Proof.
  intros Hi f ms Hf Hl. unfold memory_words. destruct (Back_ret i f Hf) as (x & -> & _); [lia|]. cbn.
  destruct (memory_gas f ms) as [f1 m] eqn:E. eexists _, _. split; [done|].
  eapply memory_prices; [done|exact E|]. intros e ->. eauto.
Qed.
Lemma create_words_prices n w : (2 < n)%nat -> prices n true (create_words w).
Proof.
  intros Hi f ms Hf Hl. unfold create_words. destruct (Back_ret 2 f Hf) as (x & -> & _); [lia|]. cbn -[bigUint64].
  destruct (memory_gas f ms) as [f1 m] eqn:E. destruct (memory_prices f ms f1 m m Hf E) as [He Hlim]; [eauto|].
  destruct m as [e|g]; [by eexists _, _|]. specialize (Hlim eq_refl _ eq_refl).
  destruct (bigUint64 x) as [size over]. case_match; eexists _, _; (split; [done|]); by split; [|intros].
Qed.
Lemma makeGasLog_prices n k : (1 < n)%nat -> prices n true (makeGasLog k).
Proof.
  intros Hi f ms Hf Hl. unfold makeGasLog. destruct (Back_ret 1 f Hf) as (x & -> & _); [lia|]. cbn -[bigUint64].
  destruct (bigUint64 x) as [size over]. destruct over; [eexists _, _; split; [done|]; split; [apply Hf|done]|].
  destruct (memory_gas f ms) as [f1 m] eqn:E. destruct (memory_prices f ms f1 m m Hf E) as [He Hlim]; [eauto|].
  destruct m as [e|g]; [by eexists _, _|]. specialize (Hlim eq_refl _ eq_refl).
  repeat case_match; eexists _, _; (split; [done|]); by split; [|intros].
Qed.
Lemma gasExp_prices n : (1 < n)%nat -> prices n false gasExp.
Proof.
  intros Hi f ms Hf Hl. unfold gasExp. destruct (Back_ret 1 f Hf) as (x & -> & _); [lia|]. cbn.
  eexists _, _. split; [done|]. split; [apply Hf|done].
Qed.
Lemma set_db_ok d f : frame_ok f -> db_ok d -> evm_ok (evm (set_db d f)).
Proof. intros Hf Hd. by apply evm_ok_db; [apply Hf|]. Qed.

Lemma gasSStore_prices n : (1 < n)%nat -> prices n false gasSStore.
Proof.
  intros Hi f ms Hf Hl. unfold gasSStore. destruct (Back_ret 1 f Hf) as (y & -> & _); [lia|].
  destruct (Back_ret 0 f Hf) as (x & -> & _); [lia|]. cbn -[VMState.AddRefund].
  repeat case_match; try (eexists _, _; split; [done|]; split; [apply Hf|done]).
  destruct (add_refund_ok SstoreRefundGas (db f)) as (d & -> & Hd); [apply Hf|]. cbn.
  eexists _, _. split; [done|]. split; [by apply set_db_ok|done].
Qed.
Lemma suicide_price_ret f : frame_ok f -> (0 < length (stack f))%nat -> exists g, suicide_price f = Ret g.
Proof. intros Hf Hl. unfold suicide_price. destruct (Back_ret 0 f Hf Hl) as (x & -> & _). cbn. eauto. Qed.
Lemma gasSuicide_prices n : (0 < n)%nat -> prices n false gasSuicide.
Proof.
  intros Hi f ms Hf Hl. unfold gasSuicide. destruct (suicide_price_ret f Hf) as [g ->]; [lia|].
  cbn -[VMState.AddRefund VMState.HasSuicided].
  destruct (suicided_ret (db f) (Instructions.self f)) as [b ->]; [apply Hf|]. cbn -[VMState.AddRefund].
  assert (exists d, (if b then Ret (db f) else VMState.AddRefund SuicideRefundGas (db f)) = Ret d /\ db_ok d) as (d & -> & Hd).
  { destruct b; [eexists; split; [done|apply Hf]|]. apply add_refund_ok, Hf. }
  cbn. eexists _, _. split; [done|]. split; [by apply set_db_ok|done].
Qed.
Lemma gasSuicideEIP3529_prices n : (0 < n)%nat -> prices n false gasSuicideEIP3529.
Proof.
  intros Hi f ms Hf Hl. unfold gasSuicideEIP3529. destruct (suicide_price_ret f Hf) as [g ->]; [lia|]. cbn.
  eexists _, _. split; [done|]. split; [apply Hf|done].
Qed.

Lemma set_aside_prices f ms f0 m g : frame_ok f -> (0 < length (stack f))%nat ->
  memory_gas f ms = (f0, m) -> (forall e, m = inl e -> exists e', g = inl e') -> cost_ok g ->
  exists f1 r, set_aside g f0 = Ret (f1, r) /\ evm_ok (evm f1) /\
    (true = true -> forall cost, r = inr cost -> ms <= MemLimit).
Proof.
  intros Hf Hl Hm Hg Hok. destruct (memory_prices f ms f0 m g Hf Hm Hg) as [He Hlim].
  assert (exists x, Back 0 f0 = Ret x) as [x Hx].
  { destruct (Back_ret 0 f Hf Hl) as (x & Hx & _). exists x.
    destruct (memory_gas_spec _ _ _ _ Hm) as (_ & Es & _). unfold Back in *. by rewrite Es. }
  assert (exists f1 r, set_aside g f0 = Ret (f1, r)) as (f1 & r & E).
  { unfold set_aside. rewrite Hx. cbn -[callGas]. destruct g; [by eexists _, _|]. case_match; by eexists _, _. }
  exists f1, r. split; [done|].
  destruct (set_aside_inv _ _ _ _ Hok E) as [(e & -> & ->)|(base & temp & -> & Ht & -> & _)]; [done|].
  split; [destruct He; by split|]. intros _ cost _. by apply (Hlim eq_refl base).
Qed.

Lemma gasCall_prices n : (2 < n)%nat -> prices n true gasCall.
Proof.
  intros Hi f ms Hf Hl. unfold gasCall. destruct (Back_ret 2 f Hf) as (v & -> & _); [lia|].
  destruct (Back_ret 1 f Hf) as (a & -> & _); [lia|]. cbn -[set_aside call_price].
  destruct (memory_gas f ms) as [f0 m] eqn:E. eapply set_aside_prices; [done|lia|exact E|..].
  - intros e ->. eauto.
  - destruct m; [done|]. apply (add_gas_ok (inr _)).
Qed.
Lemma gasCallCode_prices n : (2 < n)%nat -> prices n true gasCallCode.
Proof.
  intros Hi f ms Hf Hl. unfold gasCallCode. destruct (Back_ret 2 f Hf) as (v & -> & _); [lia|]. cbn -[set_aside].
  destruct (memory_gas f ms) as [f0 m] eqn:E. eapply set_aside_prices; [done|lia|exact E|..].
  - intros e ->. eauto.
  - destruct m; [done|]. apply (add_gas_ok (inr _)).
Qed.
Lemma gasDelegateCall_prices n : (0 < n)%nat -> prices n true gasDelegateCall.
Proof.
  intros Hi f ms Hf Hl. unfold gasDelegateCall. destruct (memory_gas f ms) as [f0 m] eqn:E.
  eapply set_aside_prices; [done|lia|exact E| |apply add_gas_ok]. intros e ->. eauto.
Qed.

(** ** Operations *)

(** The size depends on the stack alone. *)
Definition sized (npop : nat) (sz : memorySizeFunc) : Prop :=
  (forall f, frame_ok f -> (npop <= length (stack f))%nat -> exists s, sz f = Ret s /\ 0 <= s) /\
  forall f f', stack f' = stack f -> sz f' = sz f.

(** The restrictions of a static call look at the value of a call. *)
Definition total (op : Z) o : Prop := exists npop npush : nat,
  (op = OpCode.CALL -> 2 < npop)%nat /\
  validateStack o = makeStackFunc (Z.of_nat npop) (Z.of_nat npush) /\
  (forall sz, memorySize o = Some sz -> sized npop sz) /\
  prices npop (match memorySize o with Some _ => true | None => false end) (gasCost o) /\
  exists need, executes_if need npop npush (memorySize o) (execute o) /\
    forall f ms f1 cost mem, frame_ok f -> gasCost o f ms = Ret (f1, inr cost) -> cost <= gas f ->
      need (paid cost mem f1).

Lemma executes_any npop npush sz e : executes npop npush sz e -> executes_if (fun _ => True) npop npush sz e.
Proof. intros He f Hf Hp Hl Hc _. by apply He. Qed.

Lemma mem_at_sized n a b : (a < n)%nat -> (b < n)%nat -> sized n (mem_at a b).
Proof.
  intros Ha Hb. split; [|intros f f' E; unfold mem_at, Back; by rewrite E]. intros f Hf Hl. unfold mem_at. destruct (Back_ret a f Hf) as (x & -> & ?); [lia|].
  destruct (Back_ret b f Hf) as (y & -> & ?); [lia|]. cbn. eexists. split; [done|]. by apply calcMemSize_nonneg.
Qed.
Lemma mem_const_sized n a c : (a < n)%nat -> 0 <= c -> sized n (mem_const a c).
Proof.
  intros Ha Hc. split; [|intros f f' E; unfold mem_const, Back; by rewrite E]. intros f Hf Hl. unfold mem_const. destruct (Back_ret a f Hf) as (x & -> & ?); [lia|].
  cbn. eexists. split; [done|]. by apply calcMemSize_nonneg.
Qed.
Lemma mem_max_sized n x y : sized n x -> sized n y -> sized n (mem_max x y).
Proof.
  intros [Hx Ex] [Hy Ey]. split; [|intros f f' E; unfold mem_max; by rewrite (Ex f f'), (Ey f f')].
  intros f Hf Hl. unfold mem_max. destruct (Hx f Hf Hl) as (a & -> & ?). destruct (Hy f Hf Hl) as (b & -> & ?).
  cbn. eexists. split; [done|]. lia.
Qed.

Lemma total_without op o (npop npush : nat) :
  (op = OpCode.CALL -> 2 < npop)%nat -> validateStack o = makeStackFunc (Z.of_nat npop) (Z.of_nat npush) -> memorySize o = None ->
  prices npop false (gasCost o) -> executes npop npush None (execute o) -> total op o.
Proof.
  intros Hop Hv Hm Hp He. exists npop, npush. rewrite Hm. split_and!; try done.
  exists (fun _ => True). split; [by apply executes_any|done].
Qed.
Lemma total_with op o (npop npush : nat) sz :
  (op = OpCode.CALL -> 2 < npop)%nat -> validateStack o = makeStackFunc (Z.of_nat npop) (Z.of_nat npush) -> memorySize o = Some sz ->
  sized npop sz -> prices npop true (gasCost o) -> executes npop npush (Some sz) (execute o) -> total op o.
Proof.
  intros Hop Hv Hm Hs Hp He. exists npop, npush. rewrite Hm. split_and!; [done|done|by intros ? [= <-]|done|].
  exists (fun _ => True). split; [by apply executes_any|done].
Qed.

(** The calls: their price covers what they hand on. *)
Lemma set_aside_covers f ms f0 m g f1 cost : frame_ok f -> memory_gas f ms = (f0, m) -> cost_ok g ->
  set_aside g f0 = Ret (f1, inr cost) ->
  stack f1 = stack f /\ exists base temp, g = inr base /\ 0 <= temp /\ EVM.callGasTemp (evm f1) = temp /\ cost = base + temp.
Proof.
  intros Hf Hm Hg Hs. destruct (memory_gas_spec _ _ _ _ Hm) as (_ & Es & _).
  destruct (set_aside_inv _ _ _ _ Hg Hs) as [(? & _ & [=])|(base & temp & -> & Ht & -> & Hc)].
  split; [done|]. exists base, temp. split_and!; try done. by apply Hc.
Qed.

Lemma value_funded v price m base temp f2 cost bound :
  cost_ok m -> 0 <= temp -> (v <> 0 -> CallStipend <= price) -> 0 <= price -> price_of m price = inr base ->
  EVM.callGasTemp (evm f2) = temp -> cost = base + temp -> cost < bound -> call_gas_of f2 v < bound.
Proof.
  intros Hm Ht Hv Hp Hb Et -> Hlt. pose proof (value_price v price base m Hm Hv Hp Hb) as Hst.
  pose proof (with_stipend temp v Ht) as Hw. unfold call_gas_of. rewrite Et. lia.
Qed.

Lemma gasCall_funds f ms f1 cost mem : frame_ok f -> gasCall f ms = Ret (f1, inr cost) -> cost <= gas f ->
  funded_value (paid cost mem f1).
Proof.
  intros Hf Hs Hle v Hv. unfold gasCall in Hs. inv_bind Hs. inv_bind Hs.
  destruct (memory_gas f ms) as [f0 m] eqn:Em. pose proof (memory_gas_spec _ _ _ _ Em) as (_ & _ & _ & Hm).
  fold (price_of m (call_price (negb (r =? 0)) (BigToAddress r0) f)) in Hs.
  destruct (set_aside_covers _ _ _ _ _ _ _ Hf Em (price_of_ok _ _) Hs) as (Es & base & temp & Hb & Ht & Et & Ec).
  unfold Back in Hv, E. simpl in Hv. rewrite Es, E in Hv. injection Hv as <-.
  eapply (value_funded r _ m base temp _ cost); [done|done| |apply call_price_nonneg|exact Hb|exact Et|done|].
  - intros Hr. destruct (Z.eqb_spec r 0); [done|]. apply call_price_stipend.
  - pose proof (co_gas _ (fo_contract _ Hf)). unfold gas in Hle. lia.
Qed.
Lemma gasCallCode_funds f ms f1 cost mem : frame_ok f -> gasCallCode f ms = Ret (f1, inr cost) -> cost <= gas f ->
  funded_value (paid cost mem f1).
Proof.
  intros Hf Hs Hle v Hv. unfold gasCallCode in Hs. inv_bind Hs.
  destruct (memory_gas f ms) as [f0 m] eqn:Em. pose proof (memory_gas_spec _ _ _ _ Em) as (_ & _ & _ & Hm).
  pose proof gt_nonneg as Hgt. set (price := GasTable.Calls gt + _) in Hs. fold (price_of m price) in Hs.
  destruct (set_aside_covers _ _ _ _ _ _ _ Hf Em (price_of_ok _ _) Hs) as (Es & base & temp & Hb & Ht & Et & Ec).
  unfold Back in Hv, E. simpl in Hv. rewrite Es, E in Hv. injection Hv as <-.
  unfold price, CallValueTransferGas in *.
  eapply (value_funded r _ m base temp _ cost); [done|done| | |exact Hb|exact Et|done|].
  - intros Hr. destruct (Z.eqb_spec r 0); [done|]. unfold CallStipend. simpl. lia.
  - case_match; lia.
  - pose proof (co_gas _ (fo_contract _ Hf)). unfold gas in Hle. lia.
Qed.
Lemma gasDelegateCall_funds f ms f1 cost mem : frame_ok f -> gasDelegateCall f ms = Ret (f1, inr cost) ->
  cost <= gas f -> funded (paid cost mem f1).
Proof.
  intros Hf Hs Hle. unfold gasDelegateCall in Hs. destruct (memory_gas f ms) as [f0 m] eqn:Em.
  destruct (set_aside_covers _ _ _ _ _ _ _ Hf Em (add_gas_ok _ _) Hs) as (Es & base & temp & Hb & Ht & Et & Ec).
  pose proof (add_gas_ok m (GasTable.Calls gt)) as Ho. rewrite Hb in Ho. simpl in Ho.
  unfold funded. simpl. rewrite Et. pose proof (co_gas _ (fo_contract _ Hf)). unfold gas in Hle. lia.
Qed.

Lemma total_call op o need (npop npush : nat) sz :
  (op = OpCode.CALL -> 2 < npop)%nat -> validateStack o = makeStackFunc (Z.of_nat npop) (Z.of_nat npush) ->
  memorySize o = Some sz -> sized npop sz -> prices npop true (gasCost o) ->
  executes_if need npop npush (Some sz) (execute o) ->
  (forall f ms f1 cost mem, frame_ok f -> gasCost o f ms = Ret (f1, inr cost) -> cost <= gas f ->
     need (paid cost mem f1)) -> total op o.
Proof.
  intros Hop Hv Hm Hs Hp He Hn. exists npop, npush. rewrite Hm. split_and!; [done|done|by intros ? [= <-]|done|].
  by exists need.
Qed.

(** ** The words instructions compute are not negative *)

Lemma U256_nonneg x : 0 <= U256 x.
Proof. by apply Z.mod_pos_bound. Qed.
Lemma bool_word_nonneg b : 0 <= bool_word b.
Proof. by destruct b. Qed.
Lemma Exp_nonneg x y : 0 <= Exp x y.
Proof. unfold Exp. rewrite Zpow_mod_correct by lia. by apply Z.mod_pos_bound. Qed.
Lemma signextend_nonneg x y : 0 <= y -> 0 <= signextend_word x y.
Proof. intros Hy. unfold signextend_word. case_match; [apply U256_nonneg|done]. Qed.

Ltac word_tac :=
  intros; unfold add_word, sub_word, mul_word, div_word, sdiv_word, mod_word, smod_word, slt_word, sgt_word,
    addmod_word, mulmod_word, shl_word, shr_word, sar_word, Byte;
  repeat case_match; first
  [ apply U256_nonneg | apply bool_word_nonneg | apply Exp_nonneg | by apply signextend_nonneg
  | by apply Z.land_nonneg; left | by apply Z.lor_nonneg | by apply Z.lxor_nonneg
  | by apply Z.mod_pos_bound | done ].

(** What the message, the block and the state give. *)
Ltac env_tac :=
  let f := fresh "f" in let Hf := fresh "Hf" in intros f Hf; pose proof live_info;
  pose proof (fo_contract _ Hf); pose proof (fo_evm _ Hf);
  first [ apply (ok_energy _ (db_state _ (eo_db _ (fo_evm _ Hf)))) | apply U256_nonneg
        | apply Nat2Z.is_nonneg | apply (co_self _ (fo_contract _ Hf)) | apply (co_caller _ (fo_contract _ Hf))
        | apply (co_value _ (fo_contract _ Hf)) | apply (co_gas _ (fo_contract _ Hf)) | apply (fo_pc _ Hf)
        | by vm_compute | apply live_info ].

Lemma opBalance_executes : executes 1 1 None opBalance.
Proof. apply op1_executes. intros f x He _ _. apply ok_energy, He. Qed.
Lemma opExtCodeSize_executes : executes 1 1 None opExtCodeSize.
Proof. apply op1_executes. intros f x He _ _. unfold GetCodeSize. case_match; lia. Qed.
Lemma opExtCodeHash_executes : executes 1 1 None opExtCodeHash.
Proof.
  apply op1_executes.
  intros f x He _ _. cbv beta zeta. destruct (negb (State.Exists _ _)); [done|].
  destruct (State.GetCodeHash _ _ =? 0); [apply Hkeccak|apply ok_hash, He].
Qed.
Lemma opBlockhash_executes : executes 1 1 None opBlockhash.
Proof. apply op1_executes. intros f x He _ _. case_match; [apply live_hash|done]. Qed.
Lemma opSload_executes : executes 1 1 None opSload.
Proof. apply op1_executes. intros f x He _ _. apply ok_storage, He. Qed.
Lemma opRandom_executes : executes 0 1 None opRandom.
Proof.
  apply op0_executes. intros f _. destruct live_info as (_ & _ & _ & _ & _ & Hn).
  unfold config, info. rewrite i64_small; lia.
Qed.
Lemma opCallDataCopy_executes : executes 3 0 (Some memoryCallDataCopy) opCallDataCopy.
Proof.
  apply copy_data_executes; [|done]. intros f Hf. unfold input_of. rewrite length_bytes. apply Hf.
Qed.
Lemma opCodeCopy_executes : executes 3 0 (Some memoryCodeCopy) opCodeCopy.
Proof.
  apply copy_data_executes; [|done]. intros f Hf. unfold code_of. rewrite length_bytes. apply Hf.
Qed.

Ltac is_sized :=
  first [apply mem_at_sized; lia | apply mem_const_sized; lia | apply mem_max_sized; apply mem_at_sized; lia].
Ltac is_price :=
  first [apply const_prices | apply memory_only_prices | apply memory_and_prices
        | apply memory_words_prices; lia | apply create_words_prices; lia | apply makeGasLog_prices; lia
        | apply gasExp_prices; lia | apply gasSStore_prices; lia | apply gasSuicide_prices; lia
        | apply gasSuicideEIP3529_prices; lia | apply gasCall_prices; lia | apply gasCallCode_prices; lia
        | apply gasDelegateCall_prices; lia].
Ltac executes_with :=
  first [apply opCallDataCopy_executes | apply opCodeCopy_executes | apply opExtCodeCopy_executes
        | apply opReturnDataCopy_executes | apply opMload_executes | apply opMstore_executes
        | apply opMstore8_executes | apply opSha3_executes | apply opCreate_executes | apply opCreate2_executes
        | apply opReturn_executes | apply makeLog_executes].
Ltac executes_without :=
  first [apply op2_executes; word_tac | apply op3_executes; word_tac | apply opRandom_executes
        | apply op0_executes; env_tac
        | apply opBalance_executes | apply opExtCodeSize_executes | apply opExtCodeHash_executes
        | apply opBlockhash_executes | apply opSload_executes | apply opCallDataLoad_executes
        | apply opPop_executes | apply opSstore_executes | apply opStop_executes | apply opJump_executes
        | apply opJumpi_executes | apply opSuicide_executes | apply op1_executes; word_tac].
Ltac not_call := first [discriminate | intros _; lia].
Ltac far_from_call := cbn; unfold OpCode.PUSH1, OpCode.DUP1, OpCode.SWAP1, OpCode.CALL; lia.
Ltac executes_call :=
  first [apply opCall_executes | apply opCallCode_executes | apply opDelegateCall_executes | apply opStaticCall_executes].
Ltac is_funded :=
  first [apply gasCall_funds | apply gasCallCode_funds | apply gasDelegateCall_funds].
Ltac is_total :=
  first [ eapply total_without; [| | | |solve [executes_without]]; [not_call|reflexivity|reflexivity|is_price]
        | eapply total_with; [| | | | |solve [executes_with]]; [not_call|reflexivity|reflexivity|is_sized|is_price]
        | eapply total_call; [| | | | |solve [executes_call]|]; [not_call|reflexivity|reflexivity|is_sized|is_price|is_funded] ].

Definition total_op (p : Z * operation.t) : Prop := total (fst p) (snd p).
Ltac each_total := repeat apply Forall_cons_2; try apply Forall_nil_2; is_total.

Lemma frontier_arithmetic_total : Forall total_op frontier_arithmetic.
Proof. each_total. Qed.
Lemma frontier_comparisons_total : Forall total_op frontier_comparisons.
Proof. each_total. Qed.
Lemma frontier_environment_total : Forall total_op frontier_environment.
Proof. each_total. Qed.
Lemma frontier_block_total : Forall total_op frontier_block.
Proof. each_total. Qed.
Lemma frontier_flow_total : Forall total_op frontier_flow.
Proof. each_total. Qed.
Lemma frontier_logs_total : Forall total_op frontier_logs.
Proof. each_total. Qed.
Lemma frontier_system_total : Forall total_op frontier_system.
Proof. each_total. Qed.
Lemma frontier_push_total : Forall total_op frontier_push.
Proof.
  apply Forall_fmap, Forall_forall. intros n Hn%elem_of_seqZ.
  apply (total_without _ _ 0 1); [far_from_call|reflexivity|reflexivity|is_price|apply makePush_executes; lia].
Qed.
Lemma frontier_dup_total : Forall total_op frontier_dup.
Proof.
  apply Forall_fmap, Forall_forall. intros n Hn%elem_of_seqZ.
  apply (total_without _ _ (Z.to_nat n) (Z.to_nat n + 1)); [far_from_call| |reflexivity|is_price|apply makeDup_executes; lia].
  cbn. unfold makeDupStackFunc. f_equal; lia.
Qed.
Lemma frontier_swap_total : Forall total_op frontier_swap.
Proof.
  apply Forall_fmap, Forall_forall. intros n Hn%elem_of_seqZ.
  apply (total_without _ _ (Z.to_nat n + 1) (Z.to_nat n + 1)); [far_from_call| |reflexivity|is_price|apply makeSwap_executes].
  cbn. unfold makeSwapStackFunc. f_equal; lia.
Qed.

Lemma later_operations_total : Forall total_op later_operations.
Proof. each_total. Qed.

Lemma instruction_set_total op o : instruction_set !! op = Some o -> total op o.
Proof.
  intros Ho%instruction_set_operations. revert Ho. apply (proj1 (Forall_forall total_op operations)).
  unfold operations. repeat apply Forall_app_2;
    auto using later_operations_total, frontier_arithmetic_total, frontier_comparisons_total,
      frontier_environment_total, frontier_block_total, frontier_flow_total, frontier_push_total,
      frontier_dup_total, frontier_swap_total, frontier_logs_total, frontier_system_total.
Qed.
End Frames.
