(* ===== verification/InterpreterTheorems.v ===== *)
(** * The interpreter keeps the machine's laws

    From the discipline of the instructions to the whole machine: a run evolves
    the machine; without native methods it never leaves more gas than it was
    given, and the loop ends within its bound; and by induction on the levels this holds for the
    interpreter itself, so that a failed call leaves no trace and a static call
    changes nothing. *)

From S2P Require Import Prelude KeyedList ChainParam VMConfig Words Memory Analysis AnalysisTheorems StakingTypes AuctionTypes Stats StackedMap State ScriptEnv StakingUtils StakingHandlers AccountLock MeterTracker EVM Instructions GasFuncs JumpTable Interpreter Evolution Totality InstructionTheorems Progress.
From Stdlib Require Import Ascii.
From stdpp Require Import list.
Import Frame operation GasFuncs.
Open Scope Z_scope.
Implicit Types (f : Frame.t) (o : operation.t).

Section Loop.
Context `{ctx : Context} {frugal : bool} `{!Tame frugal ctx} `{Machine} `{Precompiles}.
Hypothesis Hgas : run_gas frugal.
Hypothesis Hrun : run_evolves.

(** ** One step *)

Lemma enforce_allowed op o f : enforceRestrictions op o f = Ret None -> allowed op o f.
Proof.
  unfold enforceRestrictions. intros Hr [Hb Hro]. unfold byzantium in Hb. rewrite Hb, Hro in Hr. simpl in Hr.
  inv_bind Hr. destruct (op =? OpCode.TSTORE), (writes o), r; simpl in Hr; try discriminate.
  split; [done|]. intros ->. simpl in E. inv_bind E. injection E as E.
  apply Z.ltb_ge in E. rewrite E0. f_equal. unfold BitLen in E.
  destruct (Z.eqb_spec r 0); [done|]. pose proof (Z.log2_nonneg (Z.abs r)). lia.
Qed.

Lemma stop_listed :
  instruction_set !! OpCode.STOP = Some (plain opStop (constGasFunc 0) 0 0 <| halts := true |>).
Proof. unfold instruction_set. repeat case_match; reflexivity. Qed.
Lemma stop_halts o : instruction_set !! OpCode.STOP = Some o -> halts o = true.
Proof. rewrite stop_listed. by intros [= <-]. Qed.

(** The position and the gas decide how many steps are left. *)
Definition code_len f : Z := Z.of_nat (length (code_of (contract f))).
Definition measure f : Z := gas f * (code_len f + 2) + Z.max 0 (code_len f + 1 - pc f).

Lemma GetOp_behind f : code_len f <= pc f -> GetOp (contract f) (pc f) = OpCode.STOP.
Proof.
  unfold code_len, GetOp. intros Hl. rewrite lookup_ge_None_2; [done|lia].
Qed.

(** What a step keeps; in a frugal machine a step that goes on also brings the
    end nearer. *)
Record stepped f f' : Prop := {
  stepped_contract : contract f' = contract f <| Contract.Gas := gas f' |>;
  stepped_gas : 0 <= gas f' /\ (frugal = true -> gas f' <= gas f);
  stepped_evm : evolves (evm f) (evm f');
  stepped_pc : 0 <= pc f -> code_len f < 2 ^ 63 ->
    0 <= pc f' /\ (frugal = true -> measure f' < measure f)
}.
Definition stopped f (r : EVM.t * string * Z * option string) : Prop :=
  let '(evm', _, g, _) := r in
  (0 <= g /\ (frugal = true -> g <= gas f)) /\ evolves (evm f) evm'.

Lemma advance_spec op o f f' res err :
  instruction_set !! op = Some o -> op = GetOp (contract f) (pc f) -> ran (frugal := frugal) o f f' err ->
  match advance o (f', res, err) with inl f2 => stepped f f2 | inr r => stopped f r end.
Proof.
  clear Hgas Hrun. intros Ho Hop [R1 R2 R3 R4]. unfold advance.
  set (f3 := if operation.returns o then _ else _).
  assert (evolves (evm f) (evm f3)) as E3.
  { etransitivity; [exact R3|]. unfold f3. destruct (operation.returns o); by split. }
  assert (contract f3 = contract f') as C3 by (unfold f3; by destruct (operation.returns o)).
  assert (gas f3 = gas f') as G3 by (unfold gas; by rewrite C3).
  assert (pc f3 = pc f') as P3 by (unfold f3; by destruct (operation.returns o)).
  clearbody f3. destruct err as [e|]; [split; [by rewrite G3|done]|].
  destruct (reverts o) eqn:Er; [split; [by rewrite G3|done]|].
  destruct (halts o) eqn:Eh; [split; [by rewrite G3|done]|].
  specialize (R4 eq_refl eq_refl eq_refl).
  set (f4 := if jumps o then f3 else _).
  assert (contract f4 = contract f3) as C4 by (unfold f4; by destruct (jumps o)).
  assert (gas f4 = gas f') as G4 by (unfold gas in *; by rewrite C4).
  split; [by rewrite G4, C4, C3|by rewrite G4|unfold f4; by destruct (jumps o)|].
  intros Hpc Hlen. unfold measure.
  assert (code_len f4 = code_len f) as -> by (unfold code_len, code_of; by rewrite C4, C3, R1).
  rewrite G4. unfold f4. destruct (jumps o).
  - rewrite P3. destruct R4 as [Hlt Hp]. split; [lia|]. intros Hfr. specialize (proj2 R2 Hfr) as Hle. unfold code_len in *. nia.
  - simpl. rewrite P3.
    assert (pc f < code_len f) as Hin.
    { apply Z.nle_gt. intros Hle. rewrite Hop, GetOp_behind in Ho by done.
      apply stop_halts in Ho. congruence. }
    assert (pc f + 1 <= u64 (pc f' + 1)) as Hadv.
    { destruct R4 as [-> | (n & Hn & ->)]; [rewrite u64_small; lia|].
      rewrite (u64_small (pc f + n)) by lia. rewrite u64_small; lia. }
    split; [lia|]. intros Hfr. specialize (proj2 R2 Hfr) as Hle. unfold code_len in *. nia.
Qed.

Lemma step_spec f r : 0 <= gas f -> step f = Ret r ->
  match r with inl f' => stepped f f' | inr r => stopped f r end.
Proof.
  intros Hg Hs. unfold step in Hs. set (op := GetOp (contract f) (pc f)) in Hs.
  assert (forall ret err, stopped f (evm f, ret, gas f, err)) as Hstop by (intros; by split).
  destruct (instruction_set !! op) as [o|] eqn:Ho; [|injection Hs as <-; apply Hstop].
  destruct (validateStack o (stack f)); [injection Hs as <-; apply Hstop|].
  inv_bind Hs. destruct r0; [injection Hs as <-; apply Hstop|]. apply enforce_allowed in E.
  inv_bind Hs. destruct r0 as [|ms]; [injection Hs as <-; apply Hstop|].
  unfold pay_and_execute in Hs. inv_bind Hs. destruct r0 as [f1 cost].
  destruct (instruction_set_disciplined Hgas Hrun _ _ Ho _ _ _ _ Hg E E1) as [HP Hran].
  pose proof (priced_contract _ _ _ HP) as Ec.
  assert (forall ret err, stopped f (evm f1, ret, gas f1, err)) as Hstop1.
  { intros. split; [unfold gas; rewrite Ec; unfold gas in Hg; lia|apply HP]. }
  destruct cost as [|cost]; [injection Hs as <-; apply Hstop1|].
  destruct (Contract.UseGas cost (contract f1)) as [c ok] eqn:Eu. destruct ok; simpl in Hs; [|injection Hs as <-; apply Hstop1].
  unfold Contract.UseGas in Eu. rewrite Ec in Eu.
  destruct (Z.ltb_spec (Contract.Gas (contract f)) cost) as [|Hle]; [done|]. injection Eu as <-.
  inv_bind Hs. destruct r0 as [[f' res] err]. injection Hs as <-.
  eapply advance_spec; [exact Ho|done|].
  set (mem := if 0 <? ms then Memory.Resize ms (memory f1) else memory f1).
  apply (Hran cost eq_refl Hle mem f' res err). rewrite <- E2. f_equal.
  unfold paid, mem. destruct f1; simpl in *. subst. by case_match.
Qed.

(** ** A run *)

Definition start (evm : EVM.t) (c : Contract.t) : Frame.t := Frame.mk evm c 0 Memory.NewMemory [].

Lemma run_code_spec evm c r : 0 <= Contract.Gas c -> run_code evm c = Ret r ->
  stopped (start evm c) r.
Proof.
  intros Hg Hr. unfold run_code in Hr. inv_bind Hr. destruct r0 as [|b]; [done|]. injection Hr as ->.
  refine (rounds_inv step (fun f => (0 <= gas f /\ (frugal = true -> gas f <= Contract.Gas c)) /\ evolves evm (Frame.evm f))
    (stopped (start evm c)) _ _ (inr r) _ _ E).
  - intros f [f'|[[[evm' ret] g] err]] [Hf He] Hs; (apply step_spec in Hs; [|lia]).
    + split; [destruct (stepped_gas _ _ Hs); lia|]. etransitivity; [exact He|apply Hs].
    + destruct Hs as [? He']. split; [|by etransitivity]. change (gas (start evm c)) with (Contract.Gas c). lia.
  - split; [done|reflexivity].
Qed.

(** The bound is enough. *)
Lemma run_code_ends evm c f : frugal = true ->
  0 <= Contract.Gas c -> Z.of_nat (length (code_of c)) < 2 ^ 63 ->
  rounds step (bound c) (start evm c) <> Ret (inl f).
Proof.
  intros Hfr Hg Hl.
  apply (rounds_end step (fun f => 0 <= gas f /\ 0 <= pc f /\ code_len f < 2 ^ 63) measure).
  - intros a (Ha & Hp & _). unfold measure, code_len. nia.
  - intros a a' (Ha & Hp & Hc) Hs. apply step_spec in Hs as [S1 S2 _ S4]; [|done].
    destruct (S4 Hp Hc). split_and!; [lia|done| |by auto].
    unfold code_len, code_of in *. by rewrite S1.
  - split_and!; done.
  - unfold measure, bound, start, gas, code_len. simpl.
    rewrite Z2Pos.id by nia. nia.
Qed.

Lemma modexp_gas input g : modexp_RequiredGas input = Ret g -> 0 <= g.
Proof.
  assert (forall (b : bool) x y, Ret (if b then MaxUint64 else Uint64 x) = Ret y -> 0 <= y) as Hx.
  { intros [] x y [= <-]; [by vm_compute|apply u64_nonneg]. }
  unfold modexp_RequiredGas. intros Hr. do 4 inv_bind Hr. exact (Hx _ _ _ Hr).
Qed.
Lemma blake2F_gas input g : blake2F_RequiredGas input = Ret g -> 0 <= g.
Proof.
  unfold blake2F_RequiredGas. intros Hr. case_match; [by injection Hr as <-|].
  inv_bind Hr. injection Hr as <-. apply SetBytes_nonneg.
Qed.
Lemma word_price_nonneg base perWord input : 0 <= base -> 0 <= perWord -> 0 <= word_price base perWord input.
Proof. intros. unfold word_price, len. pose proof (Z.div_pos (Z.of_nat (length input) + 31) 32). nia. Qed.

Lemma required_gas p addr input g :
  contract_at addr = Some p -> PrecompiledContract.RequiredGas p input = Ret g -> 0 <= g.
Proof.
  assert (0 <= len input / 192) by (apply Z.div_pos; unfold len; lia).
  unfold contract_at. repeat case_match; intros [= <-]; cbn [PrecompiledContract.RequiredGas];
    first [apply modexp_gas | apply blake2F_gas | intros [= <-]; first [lia|by apply word_price_nonneg]].
Qed.

Lemma run_contract_spec evm c input evm' ret g err :
  0 <= Contract.Gas c -> run_contract evm c input = Ret (evm', ret, g, err) ->
  (0 <= g /\ (frugal = true -> g <= Contract.Gas c)) /\ evolves evm evm'.
Proof.
  intros Hg Hr. unfold run_contract in Hr.
  destruct (precompiles config BlockNumber (Contract.CodeAddr c)) as [p|] eqn:Ep.
  - inv_bind Hr. destruct r as [[c' ret'] err']. injection Hr as <- _ <- _. split; [|reflexivity].
    unfold RunPrecompiledContract in E. inv_bind E. apply required_gas with (addr := Contract.CodeAddr c) in E0.
    2:{ unfold precompiles in Ep. destruct (Contract.CodeAddr c <=? _); [exact Ep|done]. }
    unfold Contract.UseGas in E. destruct (Z.ltb_spec (Contract.Gas c) r); simpl in E; [by injection E as <- _ _|].
    inv_bind E. destruct r0; injection E as <- _ _; simpl; lia.
  - unfold Run in Hr. set (evm1 := evm <| EVM.depth ::= Z.succ |> <| EVM.returnData := "" |>) in Hr.
    inv_bind Hr. destruct r as [[evm2 c2] handled].
    assert (evolves evm1 evm2 /\ 0 <= Contract.Gas c2 /\
      (frugal = true -> Contract.Gas c2 <= Contract.Gas c)) as (He2 & Hg2 & Hle2).
    { destruct (Contract.CodeAddr _ =? Contract.self _);
        [by apply tame_intercept in E|by injection E as <- <- <-]. }
    inv_bind Hr. destruct r as [[[evm3 ret3] g3] err3]. injection Hr as <- _ <- _.
    assert ((0 <= g3 /\ (frugal = true -> g3 <= Contract.Gas c2)) /\ evolves evm2 evm3) as [Hb He3].
    { destruct handled as [[ret2 err2]|]; [injection E0 as <- _ <- _; by split|].
      case_match; [injection E0 as <- _ <- _; by split|].
      apply run_code_spec in E0; [exact E0|done]. }
    destruct (PreOrder_Transitive _ _ _ He2 He3) as [D R Ed].
    split; [lia|]. split; simpl in *; [lia|done|exact Ed].
Qed.
End Loop.

(** ** No step panics *)

Section Totality.
Context `{ctx : Context} `{!Tame true ctx} `{!Lively ctx} `{Machine} `{Precompiles}.
Hypothesis Hkeccak : forall c, 0 <= keccak c.
Hypothesis Hgas : run_gas true.
Hypothesis Hrun : run_evolves.
Context (depth : Z).
Hypothesis Hnest : depth <= CallCreateDepth -> runs_at depth.

Lemma toWordSize_covers s ms : 0 <= s < 2 ^ 64 ->
  SafeMul (toWordSize s) 32 = (ms, false) -> s <= ms.
Proof.
  intros Hs. unfold SafeMul, toWordSize, MaxUint64. intros [= <- Ho].
  destruct (Z.ltb_spec (2 ^ 64 - 1 - 31) s); [by vm_compute in Ho|].
  pose proof (Z.div_mod (s + 31) 32). pose proof (Z.mod_pos_bound (s + 31) 32).
  rewrite u64_small by lia. lia.
Qed.

Lemma required_memory_ret npop o f :
  (forall sz, memorySize o = Some sz -> sized depth npop sz) -> frame_ok depth f ->
  (npop <= length (stack f))%nat ->
  exists m, required_memory o f = Ret m /\
    forall ms, m = inr ms -> (memorySize o = None -> ms = 0) /\
      forall sz s, memorySize o = Some sz -> sz f = Ret s -> s <= ms.
Proof.
  intros Hsz Hf Hl. unfold required_memory. destruct (memorySize o) as [sz|].
  - destruct (proj1 (Hsz sz eq_refl) f Hf Hl) as (s & E & Hs). rewrite E. cbn [mbind outcome_bind].
    unfold bigUint64. destruct (Z.ltb_spec 64 (BitLen s)) as [|Hb]; [by eexists|].
    assert (s < 2 ^ 64) by (apply BitLen_large; lia). unfold Uint64. rewrite u64_small by lia.
    destruct (SafeMul (toWordSize s) 32) as [ms over] eqn:Em. eexists. split; [done|].
    intros ms'. destruct over; [done|]. intros [= <-]. split; [done|].
    intros sz' s' [= <-] Hs'. rewrite E in Hs'. injection Hs' as <-. eapply toWordSize_covers; [|exact Em]. lia.
  - eexists. split; [done|]. by intros ms [= <-].
Qed.

Lemma enforce_ret op o f npop : (op = OpCode.CALL -> 2 < npop)%nat -> frame_ok depth f ->
  (npop <= length (stack f))%nat -> exists r, enforceRestrictions op o f = Ret r.
Proof.
  intros Hop Hf Hl. unfold enforceRestrictions. case_match; [|by eexists].
  destruct (Z.eqb_spec op OpCode.CALL) as [->|]; [|by eexists].
  destruct (Back_ret depth 2 f Hf) as (x & -> & _); [specialize (Hop eq_refl); lia|]. by eexists.
Qed.

Definition small_stack f : Prop := Z.of_nat (length (stack f)) <= StackLimit.

(** A frame that may go on: also its stack is below the limit. *)
Definition fit f : Prop := frame_ok depth f /\ small_stack f.
Definition ends (r : Frame.t + (EVM.t * string * Z * option string)) : Prop :=
  match r with inl f' => fit f' | inr (evm', _, _, _) => evm_ok evm' end.

Lemma validate_inv (npop npush : nat) st : makeStackFunc (Z.of_nat npop) (Z.of_nat npush) st = None ->
  (npop <= length st)%nat /\ Z.of_nat (length st) + Z.of_nat npush - Z.of_nat npop <= StackLimit.
Proof. unfold makeStackFunc. repeat case_match; try done. lia. Qed.

(** Paid for, with the memory resized, a frame is still good. *)
Lemma paid_ok f f1 cost mem : frame_ok depth f -> priced_as f f1 (inr cost) -> evm_ok (evm f1) -> cost <= gas f ->
  Memory.Len mem <= MemLimit -> frame_ok depth (paid cost mem f1).
Proof.
  intros Hf [P1 P2 P3 _ P5 P6] He Hc Hm. simpl in P6. split; simpl; [done| | |by rewrite P3; apply Hf|done|by rewrite P2; apply Hf].
  - rewrite (ev_depth _ _ P5). apply Hf.
  - rewrite P1. destruct (fo_contract _ _ Hf). unfold gas in Hc. split; simpl; try done. lia.
Qed.

Lemma advance_ok op o f f' res err npop npush :
  instruction_set !! op = Some o -> op = GetOp (contract f) (pc f) -> ran (frugal := true) o f f' err ->
  frame_ok depth f -> code_len f < 2 ^ 62 ->
  Z.of_nat (length (stack f)) + Z.of_nat npush - Z.of_nat npop <= StackLimit -> (npop <= length (stack f))%nat ->
  evm_ok (evm f') -> Memory.Len (memory f') <= MemLimit ->
  (exists new, stack f' = new ++ drop npop (stack f) /\ Forall (Z.le 0) new /\ length new = npush) ->
  ends (advance o (f', res, err)).
Proof.
  intros Ho Hop Hran Hf Hl Hst Hnp He Hm (new & Es & Hnew & Hlen).
  pose proof (advance_spec op o f f' res err Ho Hop Hran) as Hadv. revert Hadv. unfold advance.
  set (f3 := if operation.returns o then _ else _).
  assert (evm_ok (evm f3)) as He3.
  { unfold f3. destruct (operation.returns o); [|done]. destruct He. by split. }
  assert (memory f3 = memory f' /\ stack f3 = stack f') as [M3 S3] by (unfold f3; by destruct (operation.returns o)).
  clearbody f3. destruct err; [done|]. destruct (reverts o); [done|]. destruct (halts o); [done|].
  set (f4 := if jumps o then f3 else _).
  assert (evm f4 = evm f3 /\ memory f4 = memory f3 /\ stack f4 = stack f3) as (E4 & M4 & S4)
    by (unfold f4; by destruct (jumps o)).
  clearbody f4. intros [C1 C2 C3 C4]. cbn [ends]. rewrite <- S3, <- S4 in Es. split.
  - split; [by rewrite E4| | | | |].
    + rewrite (ev_depth _ _ C3). apply Hf.
    + rewrite C1. destruct (fo_contract _ _ Hf). split; simpl; try done. unfold gas in *. lia.
    + rewrite Es. apply Forall_app_2; [done|]. apply Forall_drop, Hf.
    + by rewrite M4, M3.
    + apply C4; [apply Hf|lia].
  - unfold small_stack. rewrite Es, length_app, length_drop. lia.
Qed.

(** The part of a step after the checks. *)
Lemma pay_and_execute_ret op o f (npop npush : nat) need ms :
  instruction_set !! op = Some o -> op = GetOp (contract f) (pc f) -> allowed op o f -> op <> OpCode.STOP ->
  frame_ok depth f -> code_len f < 2 ^ 62 ->
  (npop <= length (stack f))%nat -> Z.of_nat (length (stack f)) + Z.of_nat npush - Z.of_nat npop <= StackLimit ->
  (forall sz, memorySize o = Some sz -> sized depth npop sz) ->
  (memorySize o = None -> ms = 0) -> (forall sz s, memorySize o = Some sz -> sz f = Ret s -> s <= ms) ->
  prices depth npop (match memorySize o with Some _ => true | None => false end) (gasCost o) ->
  executes_if depth need npop npush (memorySize o) (execute o) ->
  (forall f ms f1 cost mem, frame_ok depth f -> gasCost o f ms = Ret (f1, inr cost) -> cost <= gas f ->
     need (paid cost mem f1)) ->
  exists r, pay_and_execute o ms f = Ret r /\ ends r.
Proof.
  intros Ho Hop Ha Hst Hf Hcl Hnp Hlim Hsz Hnone Hcov Hpr Hex Hneed.
  destruct (Hpr f ms Hf Hnp) as (f1 & r & Eg & He1 & Hlimit). unfold pay_and_execute. rewrite Eg. cbn -[Contract.UseGas].
  assert (0 <= gas f) as Hg by apply (fo_contract _ _ Hf).
  destruct (instruction_set_disciplined Hgas Hrun op o Ho f ms f1 r Hg Ha Eg) as [HP Hran].
  destruct r as [|cost]; [by eexists|]. unfold Contract.UseGas. rewrite (priced_contract _ _ _ HP).
  destruct (Z.ltb_spec (Contract.Gas (contract f)) cost) as [|Hle]; cbn [negb]; [by eexists|].
  set (mem := if 0 <? ms then Memory.Resize ms (memory f1) else memory f1).
  assert (Memory.Len mem = Z.max (Memory.Len (memory f)) ms) as Hlen.
  { assert (Memory.Len (memory f1) = Memory.Len (memory f)) as Hlen1 by (unfold Memory.Len; by rewrite (priced_store _ _ _ HP)).
    unfold mem. destruct (Z.ltb_spec 0 ms); [by rewrite Resize_len, Hlen1|]. rewrite Hlen1. unfold Memory.Len in *. lia. }
  assert (Memory.Len mem <= MemLimit) as Hml.
  { rewrite Hlen. pose proof (fo_memory _ _ Hf). destruct (memorySize o); [specialize (Hlimit eq_refl cost eq_refl); lia|].
    specialize (Hnone eq_refl). unfold MemLimit in *. lia. }
  assert (pc f < 2 ^ 62) as Hpc.
  { apply Z.nle_gt. intros Hge. apply Hst. rewrite Hop. apply GetOp_behind. lia. }
  destruct (Hex (paid cost mem f1)) as (f' & res & err & Ee & [L1 L2 L3]);
    [by apply (paid_ok f f1)|simpl; by rewrite (priced_pc _ _ _ HP)|simpl; by rewrite (priced_stack _ _ _ HP)| |by eapply Hneed|].
  { intros sz n Esz En. simpl. rewrite Hlen. transitivity ms; [|lia]. apply (Hcov sz n Esz).
    rewrite <- En. symmetry. apply (proj2 (Hsz sz Esz)). simpl. by rewrite (priced_stack _ _ _ HP). }
  assert (execute o (if 0 <? ms
    then f1 <| contract := contract f <| Contract.Gas := Contract.Gas (contract f) - cost |> |>
            <| memory ::= Memory.Resize ms |>
    else f1 <| contract := contract f <| Contract.Gas := Contract.Gas (contract f) - cost |> |>)
    = Ret (f', res, err)) as ->.
  { rewrite <- Ee. f_equal. unfold paid, mem. pose proof (priced_contract _ _ _ HP) as Hc1. destruct f1; simpl in *.
    subst. by destruct (0 <? ms). }
  cbn -[advance]. eexists. split; [done|]. simpl in L3. rewrite (priced_stack _ _ _ HP) in L3.
  eapply advance_ok; [exact Ho|done|by eapply Hran|done|done|exact Hlim|done|done|done|done].
Qed.

Lemma stop_ret f : frame_ok depth f -> GetOp (contract f) (pc f) = OpCode.STOP -> exists r, step f = Ret r /\ ends r.
Proof.
  intros Hf Hop. unfold step. rewrite Hop, stop_listed. cbn -[enforceRestrictions].
  destruct (makeStackFunc 0 0 (stack f)); [by eexists; split; [done|apply Hf]|].
  destruct (enforce_ret OpCode.STOP (plain opStop (constGasFunc 0) 0 0 <| halts := true |>) f 0) as [r ->]; [done|done|lia|].
  destruct r; [by eexists; split; [done|apply Hf]|]. cbn.
  destruct (Contract.UseGas 0 (contract f)) as [c ok], ok; eexists; (split; [done|apply Hf]).
Qed.

Lemma step_ret f : fit f -> code_len f < 2 ^ 62 -> exists r, step f = Ret r /\ ends r.
Proof.
  intros [Hf Hsm] Hcl.
  destruct (decide (GetOp (contract f) (pc f) = OpCode.STOP)) as [Hst|Hst]; [by apply stop_ret|].
  unfold step. set (op := GetOp (contract f) (pc f)) in *.
  destruct (instruction_set !! op) as [o|] eqn:Ho; [|by eexists; split; [done|apply Hf]].
  destruct (instruction_set_total Hkeccak Hrun depth Hnest op o Ho)
    as (npop & npush & Hop & Hv & Hsz & Hpr & need & Hex & Hneed).
  rewrite Hv. destruct (makeStackFunc _ _ _) eqn:Est; [by eexists; split; [done|apply Hf]|].
  destruct (validate_inv _ _ _ Est) as [Hnp Hlim].
  destruct (enforce_ret op o f npop Hop Hf Hnp) as (r & Er). rewrite Er. cbn -[required_memory pay_and_execute].
  destruct r; [by eexists; split; [done|apply Hf]|]. apply enforce_allowed in Er.
  destruct (required_memory_ret npop o f Hsz Hf Hnp) as (m & -> & Hms). cbn -[pay_and_execute].
  destruct m as [|ms]; [by eexists; split; [done|apply Hf]|]. destruct (Hms ms eq_refl) as [Hnone Hcov].
  by eapply (pay_and_execute_ret op o f npop npush need).
Qed.

(** ** Runs return *)

Lemma run_code_ret evm c : evm_ok evm -> EVM.depth evm = depth -> contract_ok c ->
  exists evm' ret g err, run_code evm c = Ret (evm', ret, g, err) /\ evm_ok evm'.
Proof.
  intros He Hd Hc. unfold run_code. fold (start evm c).
  assert (code_len (start evm c) < 2 ^ 62) as Hcl.
  { unfold code_len, code_of. simpl. rewrite length_bytes. apply Hc. }
  destruct (rounds_ret step (fun f => fit f /\ code_len f < 2 ^ 62) (fun r => ends (inr r)) (bound c) (start evm c))
    as (r & Hr & Hend).
  - intros f [Hf Hl]. destruct (step_ret f Hf Hl) as ([f'|r] & Hs & Hr); exists (inl f') || exists (inr r); (split; [done|]); [|done].
    split; [done|]. apply step_spec in Hs as [S1 _ _ _]; [|done|done|apply (fo_contract _ _ (proj1 Hf))].
    unfold code_len, code_of in *. by rewrite S1.
  - split; [|done]. split; [|by vm_compute]. split; simpl; try done.
  - rewrite Hr. destruct r as [f|[[[evm' ret] g] err]]; [|by eexists _, _, _, _].
    destruct (run_code_ends Hgas Hrun evm c f); [done|apply Hc| |done].
    unfold code_len in Hcl. simpl in Hcl. lia.
Qed.

(** ** Precompiled contracts return *)

Lemma getData_ret data start size :
  Z.of_nat (length data) < 2 ^ 62 -> 0 <= start -> 0 <= size -> size < 2 ^ 63 ->
  exists d, getData data start size = Ret d.
Proof.
  intros Hl Hs Hz Hm. unfold getData. set (len := Z.of_nat (length data)).
  set (s := if len <? start then len else start).
  assert (0 <= s <= len) as Hs' by (unfold s, len; case_match; lia). rewrite u64_small by lia.
  destruct (slice_ret data s (if len <? s + size then len else s + size)) as (d & -> & _);
    [lia|case_match; lia|unfold len in *; case_match; lia|]. by eexists.
Qed.

Lemma RightPad_len bs n : n <= Z.of_nat (length (RightPadBytes bs n)).
Proof. unfold RightPadBytes. destruct (Z.leb_spec n (Z.of_nat (length bs))); [done|]. rewrite length_app, length_replicate. lia. Qed.

Lemma ecrecover_ret input : exists r, ecrecover_Run input = Ret r.
Proof.
  unfold ecrecover_Run. pose proof (RightPad_len input 128). set (i := RightPadBytes input 128) in *.
  destruct (slice_ret i 64 96) as (? & -> & _); [lia..|]. destruct (slice_ret i 96 128) as (? & -> & _); [lia..|].
  destruct (slice_ret i 0 32) as (? & -> & _); [lia..|]. destruct (slice_ret i 64 128) as (? & -> & _); [lia..|].
  destruct (slice_ret i 32 63) as (? & -> & _); [lia..|]. destruct (lookup_lt_is_Some_2 i 63) as [v ->]; [lia|].
  cbn -[SetBytes]. repeat case_match; by eexists.
Qed.

Lemma mult_complexity_pos m : 1 <= m ->
  1 <= mult_complexity m /\ (m <= 1024 \/ 64 * m <= mult_complexity m + 1).
Proof.
  intros Hm. unfold mult_complexity. pose proof (Z.div_pos (m * m) 4). pose proof (Z.mul_succ_div_gt (m * m) 16).
  destruct (Z.leb_spec m 64), (Z.leb_spec m 1024); nia.
Qed.

(** The length of the operands that were paid for. *)
Lemma modexp_operands m y : 1 <= m -> 1 <= y -> mult_complexity m * y / 20 < GasBound ->
  m < 2 ^ 61 /\ y < 20 * 2 ^ 61.
Proof.
  intros Hm Hy Hb. unfold GasBound in Hb. set (x := mult_complexity m) in *.
  assert (x * y < 20 * 2 ^ 61) as Hxy.
  { pose proof (Z.mul_succ_div_gt (x * y) 20). lia. }
  destruct (mult_complexity_pos m Hm) as [H1 H2]. fold x in H1, H2.
  assert (x <= x * y /\ y <= x * y) by nia. lia.
Qed.

Lemma modexp_len_nonneg n input x : modexp_len n input = Ret x -> 0 <= x.
Proof. unfold modexp_len. intros Hx. inv_bind Hx. injection Hx as <-. apply SetBytes_nonneg. Qed.

(** A price below the bound is the exact one. *)
Lemma price_exact (gas g : Z) : 0 <= gas ->
  (if 64 <? BitLen gas then MaxUint64 else Uint64 gas) = g -> g < GasBound -> gas < GasBound.
Proof.
  intros Hg0 <-. unfold GasBound, MaxUint64, Uint64. destruct (Z.ltb_spec 64 (BitLen gas)); [lia|].
  assert (gas < 2 ^ 64) by (apply BitLen_large; lia). by rewrite u64_small by lia.
Qed.

Lemma modexp_ret input g : Z.of_nat (length input) < 2 ^ 62 ->
  modexp_RequiredGas input = Ret g -> g < GasBound -> exists r, modexp_Run input = Ret r.
Proof.
  intros Hl Hg Hb. unfold modexp_RequiredGas in Hg. unfold modexp_Run.
  inv_bind Hg. inv_bind Hg. inv_bind Hg. rewrite E, E0, E1. cbn [mbind outcome_bind].
  rename r into baseLen, r0 into expLen, r1 into modLen.
  apply modexp_len_nonneg in E, E0, E1. inv_bind Hg. clear E2. rename r into expHead.
  destruct (Z.eq_dec (Z.max modLen baseLen) 0) as [Hm|Hm].
  { assert (baseLen = 0 /\ modLen = 0) as [-> ->] by lia. by eexists. }
  assert (8 * (expLen - 32) <= adjusted_length expLen expHead) as Hadj.
  { unfold adjusted_length. destruct (Z.ltb_spec 32 expLen), (Z.ltb_spec 0 (BitLen expHead)); lia. }
  set (adj := adjusted_length expLen expHead) in *. clearbody adj.
  destruct (mult_complexity_pos (Z.max modLen baseLen)) as [Hmc _]; [lia|].
  assert (mult_complexity (Z.max modLen baseLen) * Z.max adj 1 / 20 < GasBound) as Hgas'.
  { eapply price_exact; [apply Z.div_pos; nia|by injection Hg as Hg|done]. }
  destruct (modexp_operands (Z.max modLen baseLen) (Z.max adj 1)) as [Hmax Hadj2]; [lia|lia|done|].
  unfold Uint64. rewrite !(u64_small baseLen), !(u64_small expLen), !(u64_small modLen) by lia.
  destruct ((baseLen =? 0) && (modLen =? 0)); [by eexists|].
  assert (Z.of_nat (length (drop 96 input)) < 2 ^ 62) as Hld by (rewrite length_drop; lia).
  destruct (getData_ret (drop 96 input) 0 baseLen) as [d1 ->]; [done|lia..|].
  destruct (getData_ret (drop 96 input) baseLen expLen) as [d2 ->]; [done|lia..|].
  destruct (getData_ret (drop 96 input) (u64 (baseLen + expLen)) modLen) as [d3 ->]; [done|apply u64_nonneg|lia..|].
  cbn -[SetBytes]. destruct (SetBytes d3 =? 0); by eexists.
Qed.

Lemma bn256_ret input : Z.of_nat (length input) < 2 ^ 62 ->
  (exists r, bn256Add_Run input = Ret r) /\ (exists r, bn256ScalarMul_Run input = Ret r) /\
  (exists r, bn256Pairing_Run input = Ret r).
Proof.
  intros Hl. destruct (getData_ret input 0 64) as [x Hx]; [done|lia..|].
  destruct (getData_ret input 64 64) as [y Hy]; [done|lia..|].
  destruct (getData_ret input 64 32) as [n Hn]; [done|lia..|]. split_and!.
  - unfold bn256Add_Run. rewrite Hx, Hy. cbn -[SetBytes]. destruct (newCurvePoint x), (newCurvePoint y); by eexists.
  - unfold bn256ScalarMul_Run. rewrite Hx, Hn. cbn -[SetBytes]. destruct (newCurvePoint x); by eexists.
  - unfold bn256Pairing_Run. destruct (0 <? _); [by eexists|]. destruct (coordinates _ _) as [|[? ?]]; by eexists.
Qed.
Lemma blake2F_ret input : exists r, blake2F_Run input = Ret r.
Proof.
  unfold blake2F_Run. destruct (Z.eqb_spec (len input) 213) as [Hl|]; cbn [negb]; [|by eexists].
  unfold len in Hl. destruct (lookup_lt_is_Some_2 input 212) as [c ->]; [lia|]. cbn -[words SetBytes be_bytes].
  destruct (negb _ && negb _); by eexists.
Qed.

Lemma precompiled_ret p addr input g : Z.of_nat (length input) < 2 ^ 62 ->
  contract_at addr = Some p -> PrecompiledContract.RequiredGas p input = Ret g -> g < GasBound ->
  exists r, PrecompiledContract.Run p input = Ret r.
Proof.
  intros Hl. destruct (bn256_ret input Hl) as (? & ? & ?). unfold contract_at.
  repeat case_match; intros [= <-]; cbn [PrecompiledContract.RequiredGas PrecompiledContract.Run]; intros Hg Hb;
    first [done | by eexists | apply ecrecover_ret | apply blake2F_ret | by eapply modexp_ret].
Qed.

Lemma required_gas_ret p addr input : Z.of_nat (length input) < 2 ^ 62 ->
  contract_at addr = Some p -> exists g, PrecompiledContract.RequiredGas p input = Ret g.
Proof.
  intros Hl. assert (exists g, modexp_RequiredGas input = Ret g) as Hm.
  { unfold modexp_RequiredGas, modexp_len.
    destruct (getData_ret input 0 32) as [x ->]; [done|lia..|]. destruct (getData_ret input 32 32) as [y ->]; [done|lia..|].
    destruct (getData_ret input 64 32) as [z ->]; [done|lia..|]. cbn -[SetBytes getData].
    assert (Z.of_nat (length (drop 96 input)) < 2 ^ 62) by (rewrite length_drop; lia).
    destruct (len (drop 96 input) <=? SetBytes x); [by eexists|].
    destruct (getData_ret (drop 96 input) (Uint64 (SetBytes x)) (if 32 <? SetBytes y then 32 else Uint64 (SetBytes y))) as [d ->];
      [done|apply u64_nonneg|destruct (32 <? _); [lia|apply u64_nonneg]| |by eexists].
    pose proof (SetBytes_nonneg y). destruct (Z.ltb_spec 32 (SetBytes y)); [lia|]. unfold Uint64. rewrite u64_small; lia. }
  assert (exists g, blake2F_RequiredGas input = Ret g) as Hbl.
  { unfold blake2F_RequiredGas. destruct (Z.eqb_spec (len input) 213) as [E|]; [|by eexists]. unfold len in E.
    destruct (slice_ret input 0 4) as (d & Ed & _); [lia..|]. cbn -[slice]. rewrite Ed. by eexists. }
  unfold contract_at. repeat case_match; intros [= <-]; cbn [PrecompiledContract.RequiredGas];
    first [exact Hm | exact Hbl | by eexists].
Qed.

Lemma run_contract_ret evm c input :
  EVM.depth evm = depth - 1 -> evm_ok evm -> contract_ok c -> Z.of_nat (String.length input) < 2 ^ 62 ->
  exists evm' ret g err, run_contract evm c input = Ret (evm', ret, g, err) /\ evm_ok evm'.
Proof.
  intros Hd He Hc Hi. unfold run_contract.
  destruct (precompiles config BlockNumber (Contract.CodeAddr c)) as [p|] eqn:Ep.
  - assert (contract_at (Contract.CodeAddr c) = Some p) as Hp.
    { unfold precompiles in Ep. destruct (Contract.CodeAddr c <=? _); [exact Ep|done]. }
    set (bs := String.list_ascii_of_string input).
    assert (Z.of_nat (length bs) < 2 ^ 62) as Hb by (unfold bs; by rewrite length_bytes).
    unfold RunPrecompiledContract. destruct (required_gas_ret p _ bs Hb Hp) as [g Hg]. rewrite Hg. cbn -[Contract.UseGas].
    unfold Contract.UseGas. destruct (Z.ltb_spec (Contract.Gas c) g); [by eexists _, _, _, _|].
    destruct (precompiled_ret p _ bs g Hb Hp Hg) as [r Hr]; [pose proof (co_gas _ Hc); lia|].
    cbn. rewrite Hr. cbn. destruct r; by eexists _, _, _, _.
  - unfold Run. set (evm1 := evm <| EVM.depth ::= Z.succ |> <| EVM.returnData := "" |>).
    set (c1 := c <| Contract.Input := input |>).
    assert (contract_ok c1) as Hc1 by (destruct Hc; by split).
    assert (exists x, (if Contract.CodeAddr c1 =? Contract.self c1 then InterceptContractCall evm1 c1 (EVM.readOnly evm1)
      else Ret (evm1, c1, None)) = Ret (evm1 <| EVM.lastNonNativeCallGas := x |>, c1, None)) as [x Hx].
    { destruct (_ =? _); [|by exists (EVM.lastNonNativeCallGas evm)]. rewrite live_intercept. by eexists. }
    rewrite Hx. cbn -[run_code]. set (evm2 := evm1 <| EVM.lastNonNativeCallGas := x |>).
    assert (evm_ok evm2) as He2 by (destruct He; by split).
    match goal with |- context [mbind _ ?m] =>
      assert (exists evm3 ret g err, m = Ret (evm3, ret, g, err) /\ evm_ok evm3) as (evm3 & ret & g & err & -> & He3) end.
    { destruct (String.length (Contract.Code c) =? 0)%nat; [by eexists _, _, _, _|].
      apply run_code_ret; [done| |done]. unfold evm2, evm1. simpl. lia. }
    cbn. eexists _, _, _, _. split; [done|]. destruct He3. by split.
Qed.
End Totality.

(** ** Every level of the machine *)

Section Levels.
Context `{Precompiles} (hash : string -> Bytes32).

Lemma interpreter_laws frugal n (ctx : Context) : Tame frugal ctx ->
  @run_gas ctx (interpreter hash n) frugal /\ @run_evolves ctx (interpreter hash n).
Proof.
  intros Ht. induction n as [|n [IHg IHe]]; [done|].
  split; intros evm c input evm' ret g err Hg Hr;
    by apply (run_contract_spec IHg IHe) in Hr as [? ?].
Qed.

(** With a level for every depth that is left, every run returns. *)
Lemma interpreter_runs n (ctx : Context) depth : Tame true ctx -> Lively ctx -> (forall c, 0 <= hash c) ->
  depth <= CallCreateDepth -> CallCreateDepth < depth + Z.of_nat n ->
  @runs_at ctx (interpreter hash n) depth.
Proof.
  intros Ht Hl Hh. revert depth. induction n as [|n IH]; intros depth Hd Hn; [lia|].
  destruct (interpreter_laws true n ctx Ht) as [Hg He].
  intros evm c input Hdep Hok Hc Hi.
  refine (@run_contract_ret ctx Ht Hl (interpreter hash n) _ _ Hg He (depth + 1) _ evm c input _ Hok Hc Hi); [| |lia].
  - intros x. destruct n; apply Hh.
  - intros Hle. apply IH; lia.
Qed.
End Levels.
