(* ===== verification/StakingGovern.v ===== *)
(** * The governing handler

    [script/staking/handler_govern.go]: what a K-block does once per epoch.
    The rewards of the epoch are paid (four schemes, by fork), matured buckets
    are paid back, bonus votes accrue, and the delegates of the next epoch are
    computed from the candidates. *)

From S2P Require Import Prelude KeyedList ChainParam StakingTypes AuctionTypes Stats State ScriptEnv StakingUtils StakingHandlers AccountLock MeterTracker.
Import ScriptEnv StakingBody.

Definition KeyValidatorBaseReward : Bytes32 := bytes_value 0 "validator-base-reward".
Definition KeyMinRequiredByDelegate : Bytes32 := bytes_value 0 "minimium-require-by-delegate".
Definition KeyTesla_Fork12_Timestamp : Bytes32 := bytes_value 0 "Tesla_Fork12_Timestamp".

(** [DailyReward] is floating-point ([math.Log], [math.Pow]); the curve is a
    parameter. *)
Class Emission : Type := DailyReward : Z -> Z.

Section Govern.
Context `{Hashing} `{StakingCodec} `{BlockChain} `{Emission}.
Implicit Types (env : ScriptEnv.t) (sb : StakingBody.t).

(** ** Validator rewards *)

(** Append, keeping at most [STAKING_MAX_VALIDATOR_REWARDS] records. *)
Definition append_reward (l : list ValidatorReward.t) (reward : ValidatorReward.t)
    : list ValidatorReward.t :=
  let rLen := Z.of_nat (length l) in
  if STAKING_MAX_VALIDATOR_REWARDS <=? rLen
  then drop (Z.to_nat (rLen - STAKING_MAX_VALIDATOR_REWARDS + 1)) l ++ [reward]
  else l ++ [reward].

(** Pay the rewards and record them; the list is stored in any case. *)
Definition pay_rewards env sb (rinfo : list RewardInfo.t) : ScriptEnv.t :=
  let rewardList := State.GetValidatorRewardList (state env) in
  match rinfo with
  | [] => on_state (State.SetValidatorRewardList rewardList) env
  | _ =>
    let (env, sum) := DistValidatorRewards rinfo env in
    let reward := ValidatorReward.mk (Version sb)
      (State.Params_Get (state env) KeyValidatorBaseReward) sum rinfo in
    on_state (State.SetValidatorRewardList (append_reward rewardList reward)) env
  end.

Definition distributeValidatorRewards env sb : ScriptEnv.t :=
  match decode_RewardInfos (ExtraData sb) with
  | None => env
  | Some rinfo => pay_rewards env sb rinfo
  end.

(** The automatic bids, charged to the validator benefit address.  The block
    is the one in the cache, so a bid stays in it when the loop returns. *)
Fixpoint autobid_loop (i : Z) (ainfo : list RewardInfo.t) env : ScriptEnv.t :=
  match ainfo with
  | [] => env
  | a :: rest =>
    let amount := RewardInfo.Amount a in
    if State.GetEnergy (state env) ValidatorBenefitAddr <? amount then env
    else
      let (cb, s) := State.GetAuctionCB (state env) in
      let tx := AuctionTx.NewAuctionTx (RewardInfo.Address_ a) amount AUTO_BID (blockTime env) i in
      match AuctionCB.AddAuctionTx cb tx with
      | (_, Some _) => env
      | (cb, None) =>
        let env := on_state (State.SetAuctionCB cb) env in
        match TransferAutobidMTRToAuction (RewardInfo.Address_ a) amount env with
        | (env, Some _) => env
        | (env, None) => autobid_loop (i + 1) rest env
        end
      end
  end.

Definition split_rewards (riV2s : list RewardInfoV2.t) : list RewardInfo.t * list RewardInfo.t :=
  ((fun r => RewardInfo.mk (RewardInfoV2.Address_ r) (RewardInfoV2.DistAmount r)) <$>
     filter (fun r => 0 < RewardInfoV2.DistAmount r) riV2s,
   (fun r => RewardInfo.mk (RewardInfoV2.Address_ r) (RewardInfoV2.AutobidAmount r)) <$>
     filter (fun r => 0 < RewardInfoV2.AutobidAmount r) riV2s).

Definition distributeAndAutobidAfterTeslaFork6 env sb : ScriptEnv.t :=
  match decode_RewardInfoV2s (ExtraData sb) with
  | None => env
  | Some riV2s =>
    let (rinfo, ainfo) := split_rewards riV2s in
    let env := pay_rewards env sb rinfo in
    let (auctionCB, s) := State.GetAuctionCB (state env) in
    let env := env <| state := s |> in
    if negb (AuctionCB.IsActive auctionCB) then env else autobid_loop 0 ainfo env
  end.

(** ** MTRG emission *)

Definition MintMTRG (addr : Address) (amount : Z) env : ScriptEnv.t :=
  if amount =? 0 then env
  else
    let env :=
      if IsTeslaFork8 (blockNum env)
      then on_state (StateDB.MintBalanceAfterFork8 addr amount) env
      else on_state (StateDB.MintBalance addr amount) env in
    AddTransfer ZeroAddress addr amount MTRG env.

Definition ComputeEpochReleaseWithEmissionCurve (s : State.t) (blockTime : Z)
    : Z * option string :=
  let fork12Start := u64 (State.Params_Get s KeyTesla_Fork12_Timestamp) in
  if fork12Start <=? blockTime then
    let duration := u64 (blockTime - fork12Start) in
    let days := duration / 3600 / 24 + 1 in
    if 0 <=? days then (Z.abs (DailyReward days) / 24, None)
    else (0, Some "days<0, not valid for emission curve")
  else (0, Some "not fork12 yet").

Definition in_jail (inJailList : InJailList.t) (addr : Address) : bool :=
  bool_decide (addr ∈ InJail.Addr <$> inJailList).

Definition distributeMTRGAfterTeslaFork12 env (candidateList : CandidateList.t)
    (inJailList : InJailList.t) : outcome ScriptEnv.t :=
  let epochRelease := fst (ComputeEpochReleaseWithEmissionCurve (state env) (blockTime env)) in
  let valid := filter (fun c => in_jail inJailList (Candidate.Addr c) = false) candidateList in
  let validCands : gmap Address Z :=
    foldl (fun m c => <[Candidate.Addr c := Candidate.TotalVotes c]> m) ∅ valid in
  let totalVotes := sum_of Candidate.TotalVotes valid in
  let sortedCands := sort_by (fun a b => b <? a) (map_to_list validCands).*1 in
  mfold (fun env addr =>
    let votes := default 0 (validCands !! addr) in
    mtrg ← big_div (epochRelease * votes) totalVotes;
    Ret (MintMTRG addr mtrg env)) env sortedCands.

(** One entry of the release map, created at 0. *)
Definition credit (addr : Address) (amount : Z) (m : gmap Address Z) : gmap Address Z :=
  <[addr := default 0 (m !! addr) + amount]> m.

(** The share of one voter of delegate [d], and the commission taken from it. *)
Definition release_voter (d : Delegate.t) (mtrg totalShares : Z) (release : gmap Address Z)
    (voter : Address * Z) : outcome (gmap Address Z) :=
  let (voterAddr, shares) := voter in
  reward ← big_div (mtrg * shares) totalShares;
  let release := credit voterAddr 0 release in
  if voterAddr =? Delegate.Address_ d then Ret (credit voterAddr reward release)
  else
    let comission := reward * i64 (Delegate.Commission d) / 10 ^ 9 in
    let actualReward := reward - comission in
    Ret (credit voterAddr actualReward (credit (Delegate.Address_ d) comission release)).

Definition release_delegate (epochRelease totalVotes : Z) (release : gmap Address Z)
    (d : Delegate.t) : outcome (gmap Address Z) :=
  mtrg ← big_div (epochRelease * Delegate.VotingPower d) totalVotes;
  let shares := (fun x => i64 (Distributor.Shares x)) in
  let sharesMap :=
    foldl (fun m x => accumulate (Distributor.Address_ x) (shares x) m) ∅ (Delegate.DistList d) in
  let totalShares := sum_of shares (Delegate.DistList d) in
  mfold (release_voter d mtrg totalShares) (credit (Delegate.Address_ d) 0 release)
    (map_to_list sharesMap).

Definition distributeMTRGAfterTeslaFork13 env (delegateList : list Delegate.t)
    (inJailList : InJailList.t) : outcome ScriptEnv.t :=
  let epochRelease := fst (ComputeEpochReleaseWithEmissionCurve (state env) (blockTime env)) in
  let valid := filter (fun d => in_jail inJailList (Delegate.Address_ d) = false) delegateList in
  let validDelegates : gmap Address Delegate.t :=
    foldl (fun m d => <[Delegate.Address_ d := d]> m) ∅ valid in
  let totalVotes := sum_of Delegate.VotingPower valid in
  releaseMap ← mfold (release_delegate epochRelease totalVotes) ∅ (map_to_list validDelegates).*2;
  let sortedAddrs := sort_by Z.ltb (map_to_list releaseMap).*1 in
  Ret (foldl (fun env addr => MintMTRG addr (default 0 (releaseMap !! addr)) env) env sortedAddrs).

(** ** The delegates of the next epoch *)

Definition bytes_le (a b : string) : bool :=
  match String.compare a b with Gt => false | _ => true end.

(** The comparison of [calcDelegates]: more votes first, then the greater
    public key. *)
Definition delegate_before (x y : Delegate.t) : bool :=
  if Delegate.VotingPower y <? Delegate.VotingPower x then true
  else if Delegate.VotingPower x <? Delegate.VotingPower y then false
  else bytes_le (Delegate.PubKey y) (Delegate.PubKey x).

Fixpoint dist_list (bucketList : BucketList.t) (totalVotes : Z) (ids : list Bytes32)
    : outcome (list Distributor.t) :=
  match ids with
  | [] => Ret []
  | id :: rest =>
    match BucketList.Get bucketList id with
    | None => dist_list bucketList totalVotes rest
    | Some b =>
      shares ← big_div (Bucket.TotalVotes b * 10 ^ 9) totalVotes;
      l ← dist_list bucketList totalVotes rest;
      Ret (Distributor.NewDistributor (Bucket.Owner b) (Bucket.Autobid b) (u64 (Z.abs shares)) :: l)
    end
  end.

Definition calc_delegate (minRequire : Z) (bucketList : BucketList.t) (inJailList : InJailList.t)
    (delegates : list Delegate.t) (c : Candidate.t) : outcome (list Delegate.t) :=
  if InJailList.Exist inJailList (Candidate.Addr c) then Ret delegates
  else if Candidate.TotalVotes c <? minRequire then Ret delegates
  else
    dist ← dist_list bucketList (Candidate.TotalVotes c) (Candidate.Buckets c);
    Ret (delegates ++
      [Delegate.mk (Candidate.Addr c) (Candidate.PubKey c) (Candidate.Name c)
         (Candidate.TotalVotes c) (Candidate.IPAddr c) (Candidate.Port c)
         (Candidate.Commission c) dist]).

Definition calcDelegates env (bucketList : BucketList.t) (candidateList : CandidateList.t)
    (inJailList : InJailList.t) : outcome ScriptEnv.t :=
  let minRequire := State.Params_Get (state env) KeyMinRequiredByDelegate in
  delegates ← mfold (calc_delegate minRequire bucketList inJailList) [] candidateList;
  Ret (on_state (State.SetDelegateList (sort_by delegate_before delegates)) env).

(** ** Matured buckets and bonus votes *)

(** What the loops carry: the environment, the lists and the last error. *)
Record books := mk_books {
  b_env : ScriptEnv.t;
  b_cands : CandidateList.t;
  b_holders : StakeholderList.t;
  b_err : option string
}.
#[global] Instance eta_books : Settable books := fun b =>
  mk_books (b_env b) (b_cands b) (b_holders b) (b_err b).

Definition matured (ts : Z) (bkt : Bucket.t) : bool :=
  Bucket.Unbounded bkt && (u64 (Bucket.MatureTime bkt + 720) <=? ts).

Definition unbound_value (bkt : Bucket.t) env : ScriptEnv.t * option string :=
  if Bucket.Token bkt =? MTR then UnboundAccountMeter (Bucket.Owner bkt) (Bucket.Value bkt) env
  else if Bucket.Token bkt =? MTRG
  then UnboundAccountMeterGov (Bucket.Owner bkt) (Bucket.Value bkt) env
  else (env, Some "Invalid token parameter").

Definition drop_from_holder (bkt : Bucket.t) (l : StakeholderList.t) : StakeholderList.t :=
  match StakeholderList.Get l (Bucket.Owner bkt) with
  | None => l
  | Some h =>
    let h := Stakeholder.RemoveBucket bkt h in
    match Stakeholder.Buckets h with
    | [] => StakeholderList.Remove l (Stakeholder.Holder h)
    | _ => Modify (fun _ => h) l (Bucket.Owner bkt)
    end
  end.

Definition drop_from_candidate (bkt : Bucket.t) (l : CandidateList.t) : CandidateList.t :=
  match CandidateList.Get l (Bucket.Candidate bkt) with
  | None => l
  | Some c =>
    let c := Candidate.RemoveBucket bkt c in
    match Candidate.Buckets c with
    | [] => CandidateList.Remove l (Candidate.Addr c)
    | _ => Modify (fun _ => c) l (Bucket.Candidate bkt)
    end
  end.

(** Pay a matured bucket back and take it off the books. *)
Definition settle (k : books) (bkt : Bucket.t) : books :=
  let holders := drop_from_holder bkt (b_holders k) in
  let cands := drop_from_candidate bkt (b_cands k) in
  let (env, err) := unbound_value bkt (b_env k) in
  mk_books env cands holders err.

(** The loop of [unboundAndCalcBonusAfterTeslaFork5] deletes while it walks:
    after a removal the same index is looked at again.  [None] means the fuel
    ran out. *)
Fixpoint unbound_loop (fuel : nat) (ts : Z) (i : nat) (bl : BucketList.t) (k : books)
    : option (BucketList.t * books) :=
  match fuel with
  | O => None
  | S fuel =>
    match bl !! i with
    | None => Some (bl, k)
    | Some bkt =>
      if matured ts bkt
      then unbound_loop fuel ts i (BucketList.Remove bl (Bucket.BucketID bkt)) (settle k bkt)
      else unbound_loop fuel ts (S i) bl k
    end
  end.

(** The second loop: the bonus of one bucket, added to its candidate too. *)
Definition add_bonus (ts : Z) (acc : BucketList.t * CandidateList.t) (bkt : Bucket.t)
    : BucketList.t * CandidateList.t :=
  let (done, cands) := acc in
  if Bucket.CalcLastTime bkt <=? ts then
    let bonusDelta := CalcBonus (Bucket.CalcLastTime bkt) ts (Bucket.Rate bkt) (Bucket.Value bkt) in
    let bkt := bkt <| Bucket.BonusVotes := 0 |>
                   <| Bucket.TotalVotes ::= fun v => v + bonusDelta |>
                   <| Bucket.CalcLastTime := ts |> in
    (done ++ [bkt],
     if IsZero (Bucket.Candidate bkt) then cands
     else Modify (fun c => c <| Candidate.TotalVotes ::= fun v => v + bonusDelta |>)
            cands (Bucket.Candidate bkt))
  else (done ++ [bkt], cands).

(** The fuel: one step per bucket, one more to see the end. *)
Definition unboundAndCalcBonusAfterTeslaFork5 (ts : Z) (bl : BucketList.t) (k : books)
    : option (BucketList.t * books) :=
  '(bl, k) ← unbound_loop (S (length bl)) ts 0 bl k;
  let (bl, cands) := foldl (add_bonus ts) ([], b_cands k) bl in
  Some (bl, k <| b_cands := cands |>).

(** *** Before fork 5

    [range] fixes the slice it walks, while [Remove] shifts the elements of
    the same backing array.  The array holds references: [arr] are indices
    into [store], the objects; the list is the first [len] of them. *)
Record backing := mk_backing { arr : list nat; len : nat; store : list Bucket.t }.
#[global] Instance eta_backing : Settable backing := fun b =>
  mk_backing (arr b) (len b) (store b).

Definition view (m : backing) : BucketList.t :=
  omap (fun r => store m !! r) (take (len m) (arr m)).

(** [append(l[:index], l[index+1:]...)] in place. *)
Definition remove_in_place (id : Bytes32) (m : backing) : backing :=
  let (index, _) := BucketList.indexOf (view m) id in
  if index <? 0 then m
  else
    let i := Z.to_nat index in
    m <| arr := take i (arr m) ++ take (len m - S i) (drop (S i) (arr m))
                ++ drop (len m - 1) (arr m) |>
      <| len ::= pred |>.

(** The pre-fork-5 version tests the length of the candidate list, not of the
    candidate's buckets, before it removes the candidate. *)
Definition settle_legacy (k : books) (bkt : Bucket.t) : books :=
  let holders := drop_from_holder bkt (b_holders k) in
  let cands :=
    match CandidateList.Get (b_cands k) (Bucket.Candidate bkt) with
    | None => b_cands k
    | Some c =>
      let l := Modify (Candidate.RemoveBucket bkt) (b_cands k) (Bucket.Candidate bkt) in
      match l with [] => CandidateList.Remove l (Candidate.Addr c) | _ => l end
    end in
  let (env, err) := unbound_value bkt (b_env k) in
  mk_books env cands holders err.

(** One iteration of the range loop, at slot [i] of the array. *)
Definition legacy_step (ts : Z) (acc : backing * books) (i : nat) : backing * books :=
  let (m, k) := acc in
  match arr m !! i with
  | None => acc
  | Some r =>
    match store m !! r with
    | None => acc
    | Some bkt =>
      if Bucket.Unbounded bkt then
        if u64 (Bucket.MatureTime bkt + 720) <=? ts
        then (remove_in_place (Bucket.BucketID bkt) m, settle_legacy k bkt)
        else acc
      else if Bucket.CalcLastTime bkt <=? ts then
        let bonusDelta :=
          CalcBonus (Bucket.CalcLastTime bkt) ts (Bucket.Rate bkt) (Bucket.Value bkt) in
        let bkt := bkt <| Bucket.BonusVotes ::= fun v => u64 (v + u64 (Z.abs bonusDelta)) |>
                       <| Bucket.TotalVotes ::= fun v => v + bonusDelta |>
                       <| Bucket.CalcLastTime := ts |> in
        (m <| store ::= <[r := bkt]> |>,
         if IsZero (Bucket.Candidate bkt) then k
         else k <| b_cands ::= fun l =>
                Modify (fun c => c <| Candidate.TotalVotes ::= fun v => v + bonusDelta |>)
                  l (Bucket.Candidate bkt) |>)
      else acc
    end
  end.

Definition unboundAndCalcBonus (ts : Z) (bl : BucketList.t) (k : books) : BucketList.t * books :=
  let n := length bl in
  let (m, k) := foldl (legacy_step ts) (mk_backing (seq 0 n) n bl, k) (seq 0 n) in
  (view m, k).

(** ** The handler *)

Definition GoverningHandler env sb (gas : Z) : result :=
  let number := blockNum env in
  let candidateList := State.GetCandidateList (state env) in
  let bucketList := State.GetBucketList (state env) in
  let stakeholderList := State.GetStakeHolderList (state env) in
  let inJailList := State.GetInJailList (state env) in
  let delegateList := State.GetDelegateList (state env) in
  env ← (if IsTeslaFork13 number then distributeMTRGAfterTeslaFork13 env delegateList inJailList
         else if IsTeslaFork12 number
         then distributeMTRGAfterTeslaFork12 env candidateList inJailList
         else if IsTeslaFork6 number then Ret (distributeAndAutobidAfterTeslaFork6 env sb)
         else Ret (distributeValidatorRewards env sb));
  let k := mk_books env candidateList stakeholderList None in
  '(bucketList, k) ←
    (if IsTeslaFork7 number
     then deref (unboundAndCalcBonusAfterTeslaFork5 (blockTime env) bucketList k)
     else if IsTeslaFork5 number
     then deref (unboundAndCalcBonusAfterTeslaFork5 (Timestamp sb) bucketList k)
     else Ret (unboundAndCalcBonus (Timestamp sb) bucketList k));
  env ← (if IsStaging then Ret (b_env k)
         else calcDelegates (b_env k) bucketList (b_cands k) inJailList);
  finish (set_lists (b_cands k) bucketList (b_holders k) env) gas (b_err k).

(** ** The dispatcher of the module *)

Definition refuse env (gas : Z) (msg : string) : result := Ret (env, gas, Some msg).

(** The recipient is the clause's, and may be missing; [to.String()] then panics. *)
Definition Handle env (payload : string) (to : option Address) (gas : Z) : result :=
  match decode_StakingBody payload with
  | None => refuse env gas "decode"
  | Some sb =>
    let holder (h : ScriptEnv.t -> StakingBody.t -> Z -> result) :=
      if txOrigin env =? HolderAddr sb then h env sb gas
      else refuse env gas "holder address is not the same from transaction" in
    let candidate (h : ScriptEnv.t -> StakingBody.t -> Z -> result) :=
      if txOrigin env =? CandAddr sb then h env sb gas
      else refuse env gas "candidate address is not the same from transaction" in
    let kblock (h : ScriptEnv.t -> StakingBody.t -> Z -> result) :=
      if negb (IsZero (txOrigin env)) then refuse env gas "not from kblock"
      else
        addr ← deref to;
        if negb (addr =? StakingModuleAddr)
        then refuse env gas "to address is not the same from module address"
        else h env sb gas in
    if Opcode sb =? OP_BOUND then holder BoundHandler
    else if Opcode sb =? OP_UNBOUND then holder UnBoundHandler
    else if Opcode sb =? OP_CANDIDATE then candidate CandidateHandler
    else if Opcode sb =? OP_UNCANDIDATE then candidate UnCandidateHandler
    else if Opcode sb =? OP_DELEGATE then holder DelegateHandler
    else if Opcode sb =? OP_UNDELEGATE then holder UnDelegateHandler
    else if Opcode sb =? OP_GOVERNING then kblock GoverningHandler
    else if Opcode sb =? OP_CANDIDATE_UPDT then candidate CandidateUpdateHandler
    else if Opcode sb =? OP_BUCKET_UPDT then holder BucketUpdateHandler
    else if Opcode sb =? OP_DELEGATE_STATISTICS then kblock DelegateStatHandler
    else if Opcode sb =? OP_DELEGATE_EXITJAIL then candidate DelegateExitJailHandler
    else if Opcode sb =? OP_FLUSH_ALL_STATISTICS then
      let executor := State.Params_Get (state env) KeyExecutorAddress mod 2 ^ 160 in
      if negb (txOrigin env =? executor) || negb (HolderAddr sb =? executor)
      then refuse env gas "only executor can exec this API"
      else DelegateStatFlushHandler env sb gas
    else refuse env gas "unknow staking opcode"
  end.
End Govern.
