(* ===== verification/Auction.v ===== *)
(** * The MTRG auction

    [script/auction/*.go]: the control block of an auction is opened by a
    K-block, collects the bids of users and the automatic bids, and is closed
    by a later K-block, which mints MTRG to the bidders at the clearing price
    and keeps a summary. *)

From S2P Require Import Prelude KeyedList ChainParam StakingTypes AuctionTypes Stats State ScriptEnv StakingUtils StakingHandlers AccountLock MeterTracker.
Import ScriptEnv.

Definition KeyAuctionReservedPrice : Bytes32 := bytes_value 0 "auction-reserved-price".
Definition KeyValidatorBenefitRatio : Bytes32 := bytes_value 0 "validator-benefit-ratio".
Definition TeslaFork3_MainnetAuctionDefectStartNum : Z := 14811495.
Definition MinimumBidAmount : Z := 10 * e18.

Definition errNotStart : string := "Auction not start".
Definition errNotStop : string := "An auction is active, stop first".
Definition errNotEnoughMTR : string := "not enough MTR balance".
Definition errLessThanBidThreshold : string := "amount less than bid threshold (10 MTR)".

Module AuctionBody.
Record t := mk {
  Opcode : Z; Version : Z; Option : Z;
  StartHeight : Z; StartEpoch : Z; EndHeight : Z; EndEpoch : Z; Sequence : Z;
  AuctionID : Bytes32; Bidder : Address; Amount : Z; ReserveAmount : Z; Token : Z;
  Timestamp : Z; Nonce : Z
}.
End AuctionBody.
Import AuctionBody.

Section Auction.
Context `{Hashing} `{BlockChain}.
Implicit Types (env : ScriptEnv.t) (ab : AuctionBody.t) (gas : Z) (cb : AuctionCB.t).

(** Reading the block puts it in the cache. *)
Definition get_cb env : AuctionCB.t * ScriptEnv.t :=
  let (cb, s) := State.GetAuctionCB (state env) in (cb, env <| state := s |>).

Definition StartAuctionCB env ab gas : result :=
  let (cb, env) := get_cb env in
  if AuctionCB.IsActive cb then finish env gas (Some errNotStop)
  else
    let ts := if IsTeslaFork7 (blockNum env) then blockTime env else Timestamp ab in
    let cb := AuctionCB.mk (AuctionCB.AuctionID cb) (StartHeight ab) (StartEpoch ab) (EndHeight ab)
      (EndEpoch ab) (Sequence ab) (Amount ab) (ReserveAmount ab)
      (State.Params_Get (state env) KeyAuctionReservedPrice) ts 0 [] in
    let cb := cb <| AuctionCB.AuctionID := AuctionCB.ID cb |> in
    let env :=
      if IsTeslaFork10 (blockNum env)
      then AddNativeAuctionStart (AuctionCB.ID cb) (i64 (StartHeight ab)) (i64 (EndHeight ab))
             (Amount ab) (AuctionCB.RsvdPrice cb) env
      else env in
    finish (on_state (State.SetAuctionCB cb) env) gas None.

(** The bid is added to the cached block before the MTR is moved. *)
Definition HandleAuctionTx env ab gas : result :=
  let (cb, env) := get_cb env in
  let autobid := Option ab =? AUTO_BID in
  let payer := if autobid then ValidatorBenefitAddr else Bidder ab in
  if negb (AuctionCB.IsActive cb) then finish env gas (Some errNotStart)
  else if State.GetEnergy (state env) payer <? Amount ab
  then finish env gas (Some errNotEnoughMTR)
  else if negb autobid && (Amount ab <? MinimumBidAmount)
  then finish env gas (Some errLessThanBidThreshold)
  else
    let fork7 := IsTeslaFork7 (blockNum env) in
    let ts := if fork7 then blockTime env else Timestamp ab in
    let nonce := if fork7 then u64 (txNonce env + clauseIndex env) else Nonce ab in
    let tx := AuctionTx.NewAuctionTx (Bidder ab) (Amount ab) (Option ab) ts nonce in
    match AuctionCB.AddAuctionTx cb tx with
    | (_, Some e) => finish env gas (Some e)
    | (cb, None) =>
      let env := on_state (State.SetAuctionCB cb) env in
      let (env, err) :=
        if autobid then TransferAutobidMTRToAuction (Bidder ab) (Amount ab) env
        else TransferMTRToAuction (Bidder ab) (Amount ab) env in
      match err with
      | Some _ => finish env gas (Some errNotEnoughMTR)
      | None => finish (on_state (State.SetAuctionCB cb) env) gas None
      end
    end.

(** ** Closing *)

Definition MintMTRGToBidder (addr : Address) (amount : Z) env : ScriptEnv.t :=
  if amount =? 0 then env
  else
    let env :=
      if IsTeslaFork8 (blockNum env)
      then on_state (StateDB.MintBalanceAfterFork8 addr amount) env
      else on_state (StateDB.MintBalance addr amount) env in
    AddTransfer ZeroAddress addr amount MTRG env.

Definition clearing_price cb : outcome Z :=
  price ← (if 0 <? AuctionCB.RlsdMTRG cb
           then big_div (AuctionCB.RcvdMTR cb * 10 ^ 18) (AuctionCB.RlsdMTRG cb)
           else Ret (AuctionCB.RsvdPrice cb));
  Ret (if price <? AuctionCB.RsvdPrice cb then AuctionCB.RsvdPrice cb else price).

Definition bid_mtrg (price : Z) (tx : AuctionTx.t) : outcome Z :=
  big_div (AuctionTx.Amount tx * 10 ^ 18) price.

(** The bids grouped by bidder: the map, and the bidders as they first occur. *)
Definition group_bid (price : Z) (acc : gmap Address Z * list Address) (tx : AuctionTx.t)
    : outcome (gmap Address Z * list Address) :=
  let (m, addrs) := acc in
  mtrg ← bid_mtrg price tx;
  match m !! AuctionTx.Address_ tx with
  | Some v => Ret (<[AuctionTx.Address_ tx := v + mtrg]> m, addrs)
  | None => Ret (<[AuctionTx.Address_ tx := mtrg]> m, addrs ++ [AuctionTx.Address_ tx])
  end.

(** What the loops of [ClearAuction] carry. *)
Definition payout : Type := ScriptEnv.t * Z * list DistMtrg.t.

Definition pay_group (m : gmap Address Z) (acc : payout) (addr : Address) : payout :=
  let '(env, total, dist) := acc in
  let mtrg := default 0 (m !! addr) in
  (MintMTRGToBidder addr mtrg env, total + mtrg, dist ++ [DistMtrg.mk addr mtrg]).

(** Before fork 3, bid by bid; the total is not kept on the main net from the
    block the source calls the auction defect. *)
Definition pay_bid (price : Z) (acc : payout) (tx : AuctionTx.t) : outcome payout :=
  let '(env, total, dist) := acc in
  mtrg ← bid_mtrg price tx;
  let counted := (IsMainNet && (blockNum env <? TeslaFork3_MainnetAuctionDefectStartNum))
                 || IsTestNet in
  Ret (MintMTRGToBidder (AuctionTx.Address_ tx) mtrg env,
       if counted then total + mtrg else total,
       dist ++ [DistMtrg.mk (AuctionTx.Address_ tx) mtrg]).

Definition pay_bids env cb (price : Z) : outcome payout :=
  if IsTeslaFork3 (blockNum env) then
    '(m, addrs) ← mfold (group_bid price) (∅, []) (AuctionCB.AuctionTxs cb);
    Ret (foldl (pay_group m) (env, 0, []) (sort_by Z.leb addrs))
  else mfold (pay_bid price) (env, 0, []) (AuctionCB.AuctionTxs cb).

(** The environment, the price, what was left over and the distribution. *)
Definition ClearAuction env cb (validatorBenefitRatio : Z)
    : outcome (ScriptEnv.t * Z * Z * list DistMtrg.t) :=
  actualPrice ← clearing_price cb;
  '(env, total, distMtrg) ← pay_bids env cb actualPrice;
  let leftOver := AuctionCB.RlsdMTRG cb - total in
  let leftOver := if leftOver <? 0 then 0 else leftOver in
  let env := MintMTRGToBidder AuctionLeftOverAccount (AuctionCB.RsvdMTRG cb) env in
  let env := MintMTRGToBidder AuctionLeftOverAccount leftOver env in
  let amount := AuctionCB.RcvdMTR cb * validatorBenefitRatio / 10 ^ 18 in
  let (env, _) := TransferMTRToValidatorBenefit amount env in
  Ret (env, actualPrice, leftOver, distMtrg).

Definition summarize cb (actualPrice leftover : Z) (dist : list DistMtrg.t) : AuctionSummary.t :=
  AuctionSummary.mk (AuctionCB.AuctionID cb) (AuctionCB.StartHeight cb) (AuctionCB.StartEpoch cb)
    (AuctionCB.EndHeight cb) (AuctionCB.EndEpoch cb) (AuctionCB.Sequence cb)
    (AuctionCB.RlsdMTRG cb) (AuctionCB.RsvdMTRG cb) (AuctionCB.RsvdPrice cb)
    (AuctionCB.CreateTime cb) (AuctionCB.RcvdMTR cb) actualPrice leftover
    (AuctionCB.AuctionTxs cb) dist.

Definition append_summary (l : list AuctionSummary.t) (x : AuctionSummary.t)
    : list AuctionSummary.t :=
  let sumLen := Z.of_nat (length l) in
  if AUCTION_MAX_SUMMARIES <=? sumLen
  then drop (Z.to_nat (sumLen - AUCTION_MAX_SUMMARIES + 1)) l ++ [x]
  else l ++ [x].

Definition CloseAuctionCB env ab gas : result :=
  let (summaryList, s) := State.GetSummaryList (state env) in
  let (cb, env) := get_cb (env <| state := s |>) in
  if negb (AuctionCB.IsActive cb) then finish env gas (Some errNotStart)
  else
    let validatorBenefitRatio := State.Params_Get (state env) KeyValidatorBenefitRatio in
    '(env, actualPrice, leftover, dist) ← ClearAuction env cb validatorBenefitRatio;
    let summaries := append_summary summaryList (summarize cb actualPrice leftover dist) in
    let summaries :=
      if IsTeslaFork6 (blockNum env) then clean_summaries summaries else summaries in
    let env :=
      if IsTeslaFork10 (blockNum env)
      then AddNativeAuctionEnd (AuctionCB.ID cb) (AuctionCB.RcvdMTR cb) (AuctionCB.RlsdMTRG cb)
             actualPrice env
      else env in
    finish (on_state (fun s => State.SetAuctionCB AuctionCB.empty
      (State.SetSummaryList summaries s)) env) gas None.

(** ** The dispatcher *)

Definition Auction_Handle (decode : string -> option AuctionBody.t) env (payload : string)
    (to : option Address) gas : result :=
  match decode payload with
  | None => Ret (env, gas, Some "decode")
  | Some ab =>
    if Opcode ab =? OP_START then
      if IsZero (txOrigin env) then StartAuctionCB env ab gas
      else Ret (env, gas, Some "not from kblock")
    else if Opcode ab =? OP_STOP then
      if IsZero (txOrigin env) then CloseAuctionCB env ab gas
      else Ret (env, gas, Some "not form kblock")
    else if Opcode ab =? OP_BID then
      if Option ab =? AUTO_BID then
        if IsZero (txOrigin env) then HandleAuctionTx env ab gas
        else Ret (env, gas, Some "not from kblock")
      else if txOrigin env =? Bidder ab then HandleAuctionTx env ab gas
      else Ret (env, gas, Some "bidder address is not the same from transaction")
    else Ret (env, gas, Some "unknow auction opcode")
  end.
End Auction.
