(* ===== verification/ScriptEngine.v ===== *)
(** * The script engine

    [script/script.go], [script/registry.go], [script/modules.go],
    [script/script_data.go] and [script/script_tesla.go]: the registry of the
    native modules, the dispatch of a clause's data to the module its header
    names, and the corrections of the staking books applied at forks.  The
    decoding of the RLP payloads is a parameter. *)

From S2P Require Import Prelude KeyedList ChainParam ForkData StakingTypes AuctionTypes Stats State ScriptEnv StakingUtils StakingHandlers AccountLock StakingGovern Auction.

(** ** Byte strings *)

Fixpoint string_drop (n : nat) (s : string) : string :=
  match n, s with
  | O, _ => s
  | S n, String _ s => string_drop n s
  | S _, EmptyString => EmptyString
  end.
Fixpoint string_take (n : nat) (s : string) : string :=
  match n, s with
  | S n, String c s => String c (string_take n s)
  | _, _ => EmptyString
  end.
(** Go's [b[:n]]. *)
Definition slice_to (n : nat) (s : string) : outcome string :=
  if (String.length s <? n)%nat then Panic else Ret (string_take n s).

Definition bytes (l : list N) : string := foldr (fun n => String (Ascii.ascii_of_N n)) "" l.
Definition ScriptPattern : string := bytes [0xde; 0xad; 0xbe; 0xef]%N.
Definition ScriptPrefix : string := bytes [0xff; 0xff; 0xff; 0xff]%N.

(** ** Modules and their registry *)

Definition STAKING_MODULE_ID : Z := 1000.
Definition AUCTION_MODULE_ID : Z := 1001.
Definition ACCOUNTLOCK_MODULE_ID : Z := 1002.

Module Module_.
Inductive kind := Staking | Auction | AccountLock.
Record t := mk { modName : string; modID : Z; modKind : kind }.
End Module_.

(** A module keeps its place once it is registered; the second result is the
    error. *)
Definition Registry : Type := gmap Z Module_.t.
Definition Register (modID : Z) (p : Module_.t) (r : Registry) : Registry * option string :=
  match r !! modID with
  | Some _ => (r, Some "Module is already registered")
  | None => (<[modID := p]> r, None)
  end.
Definition ForceRegister (modID : Z) (p : Module_.t) (r : Registry) : Registry := <[modID := p]> r.
Definition Find (r : Registry) (modID : Z) : option Module_.t := r !! modID.

(** The three initialisers panic when the module is already there. *)
Definition module_init (p : Module_.t) (r : Registry) : outcome Registry :=
  match Register (Module_.modID p) p r with
  | (r, None) => Ret r
  | (_, Some _) => Panic
  end.
Definition ModuleStakingInit : Registry -> outcome Registry :=
  module_init (Module_.mk "staking" STAKING_MODULE_ID Module_.Staking).
Definition ModuleAuctionInit : Registry -> outcome Registry :=
  module_init (Module_.mk "auction" AUCTION_MODULE_ID Module_.Auction).
Definition ModuleAccountLockInit : Registry -> outcome Registry :=
  module_init (Module_.mk "accountlock" ACCOUNTLOCK_MODULE_ID Module_.AccountLock).

Definition StartTeslaForkModules (r : Registry) : outcome Registry :=
  r ← ModuleStakingInit r; ModuleAuctionInit r.
Definition StartAllModules `{BlockChain} (bestNum : Z) (r : Registry) : outcome Registry :=
  r ← (if IsTesla bestNum then StartTeslaForkModules r else Ret r);
  ModuleAccountLockInit r.

(** ** Script data *)

Module ScriptData.
Record t := mk { Version : Z; ModID : Z; Payload : string }.
End ScriptData.

(** RLP of the envelope and of the bodies. *)
Class ScriptCodec : Type := {
  rlp_ScriptData : ScriptData.t -> string;
  decode_ScriptData : string -> option ScriptData.t;
  decode_AuctionBody : string -> option AuctionBody.t;
  decode_AccountLockBody : string -> option AccountLockBody.t
}.

(** The envelope of an encoded body. *)
Definition EncodeScriptData `{ScriptCodec} (kind : Module_.kind) (payload : string) : string :=
  let modId :=
    match kind with
    | Module_.Staking => STAKING_MODULE_ID
    | Module_.Auction => AUCTION_MODULE_ID
    | Module_.AccountLock => ACCOUNTLOCK_MODULE_ID
    end in
  let data := rlp_ScriptData (ScriptData.mk 0 modId payload) in
  String.append ScriptPrefix (String.append ScriptPattern data).

Section Engine.
Context `{Hashing} `{StakingCodec} `{BlockChain} `{Emission} `{ScriptCodec}.
(** The epoch of the best block, see AccountLock. *)
Context (best_epoch : option Z).

Definition modHandler (k : Module_.kind) (env : ScriptEnv.t) (payload : string)
    (to : option Address) (gas : Z) : result :=
  match k with
  | Module_.Staking => StakingGovern.Handle env payload to gas
  | Module_.Auction => Auction_Handle decode_AuctionBody env payload to gas
  | Module_.AccountLock => AccountLock_Handle best_epoch decode_AccountLockBody env payload to gas
  end.

Definition HandleScriptData (modReg : Registry) (env : ScriptEnv.t) (data : string)
    (to : option Address) (gas : Z) : result :=
  pattern ← slice_to (String.length ScriptPattern) data;
  if negb (pattern =? ScriptPattern)%string then Ret (env, gas, Some "Pattern mismatch")
  else
    match decode_ScriptData (string_drop (String.length ScriptPattern) data) with
    | None => Ret (env, gas, Some "decode")
    | Some script =>
      match Find modReg (ScriptData.ModID script) with
      | None => Ret (env, gas, Some "could not address module")
      | Some m => modHandler (Module_.modKind m) env (ScriptData.Payload script) to gas
      end
    end.

(** ** Corrections at forks

    Nothing is done when the staking module is not registered. *)

Definition LoadStakeCorrections : list (Bytes32 * Address * Z) := TeslaFork_1_1_Correction.
Definition EnforceTeslaFork1_Corrections (modReg : Registry) (ts : Z) (s : State.t) : State.t :=
  match Find modReg STAKING_MODULE_ID with
  | None => s
  | Some _ =>
    foldl (fun s '(bid, addr, amount) =>
      if amount =? 0 then s else DoTeslaFork1_Correction bid addr amount ts s) s LoadStakeCorrections
  end.
Definition EnforceTeslaFork5BonusCorrections (modReg : Registry) (s : State.t) : State.t :=
  match Find modReg STAKING_MODULE_ID with
  | None => s
  | Some _ => DoTeslaFork5_BonusCorrection s
  end.
Definition EnforceTeslaFork6_StakingCorrections (modReg : Registry) (s : State.t) : State.t :=
  match Find modReg STAKING_MODULE_ID with
  | None => s
  | Some _ => DoTeslaFork6_StakingCorrection s
  end.
End Engine.
