(* ===== verification/ScriptGas.v ===== *)
(** * Gas of the script clauses

    Every handler of a native module returns the gas unchanged, when it refuses
    the clause, or the gas less the price of a clause.  Nothing is lost or
    created on the way through the script engine. *)

From S2P Require Import Prelude KeyedList ChainParam StakingTypes AuctionTypes Stats State ScriptEnv StakingUtils StakingHandlers AccountLock StakingGovern Auction ScriptEngine.

Definition gas_fine (gas : Z) (r : result) : Prop :=
  match r with Ret (_, g, _) => g = leftOver gas \/ g = gas | Panic => True end.

Lemma gas_fine_leftOver gas e err : gas_fine gas (Ret (e, leftOver gas, err)).
Proof. by left. Qed.
Lemma gas_fine_same gas e err : gas_fine gas (Ret (e, gas, err)).
Proof. by right. Qed.
Lemma gas_fine_finish gas e err : gas_fine gas (finish e gas err).
Proof. by left. Qed.
Lemma gas_fine_panic gas : gas_fine gas Panic.
Proof. exact I. Qed.
Lemma gas_fine_bind {A} gas (m : outcome A) (k : A -> result) :
  (forall a, gas_fine gas (k a)) -> gas_fine gas (m ≫= k).
Proof. destruct m; [|done]. intros Hk. apply Hk. Qed.

Ltac gas_step :=
  first
    [ simple apply gas_fine_leftOver | simple apply gas_fine_same
    | simple apply gas_fine_finish | simple apply gas_fine_panic
    | simple apply gas_fine_bind; intros ?
    | match goal with
      | |- gas_fine _ (if ?b then _ else _) => destruct b
      | |- gas_fine _ (match ?x with _ => _ end) => destruct x
      | |- gas_fine _ (let x := _ in _) => cbv zeta
      end ].

Section Staking.
Context `{Hashing} `{StakingCodec} `{BlockChain} `{Emission}.
Lemma BoundHandler_gas env sb gas : gas_fine gas (BoundHandler env sb gas).
Proof. unfold BoundHandler. repeat gas_step. Qed.
Lemma UnBoundHandler_gas env sb gas : gas_fine gas (UnBoundHandler env sb gas).
Proof. unfold UnBoundHandler. repeat gas_step. Qed.
Lemma CandidateHandler_gas env sb gas : gas_fine gas (CandidateHandler env sb gas).
Proof. unfold CandidateHandler. repeat gas_step. Qed.
Lemma UnCandidateHandler_gas env sb gas : gas_fine gas (UnCandidateHandler env sb gas).
Proof. unfold UnCandidateHandler. repeat gas_step. Qed.
Lemma DelegateHandler_gas env sb gas : gas_fine gas (DelegateHandler env sb gas).
Proof. unfold DelegateHandler. repeat gas_step. Qed.
Lemma UnDelegateHandler_gas env sb gas : gas_fine gas (UnDelegateHandler env sb gas).
Proof. unfold UnDelegateHandler. repeat gas_step. Qed.
Lemma GoverningHandler_gas env sb gas : gas_fine gas (GoverningHandler env sb gas).
Proof. unfold GoverningHandler. repeat gas_step. Qed.
Lemma CandidateUpdateHandler_gas env sb gas : gas_fine gas (CandidateUpdateHandler env sb gas).
Proof. unfold CandidateUpdateHandler. repeat gas_step. Qed.
Lemma BucketUpdateHandler_gas env sb gas : gas_fine gas (BucketUpdateHandler env sb gas).
Proof. unfold BucketUpdateHandler, bucket_sub, bucket_add, bucket_add_legacy. repeat gas_step. Qed.
Lemma DelegateStatHandler_gas env sb gas : gas_fine gas (DelegateStatHandler env sb gas).
Proof. unfold DelegateStatHandler. repeat gas_step. Qed.
Lemma DelegateExitJailHandler_gas env sb gas : gas_fine gas (DelegateExitJailHandler env sb gas).
Proof. unfold DelegateExitJailHandler. repeat gas_step. Qed.
Lemma DelegateStatFlushHandler_gas env sb gas : gas_fine gas (DelegateStatFlushHandler env sb gas).
Proof. unfold DelegateStatFlushHandler. repeat gas_step. Qed.

Lemma Staking_Handle_gas env payload to gas : gas_fine gas (StakingGovern.Handle env payload to gas).
Proof.
  unfold StakingGovern.Handle, refuse.
  repeat first
    [ gas_step
    | simple apply BoundHandler_gas | simple apply UnBoundHandler_gas
    | simple apply CandidateHandler_gas | simple apply UnCandidateHandler_gas
    | simple apply DelegateHandler_gas | simple apply UnDelegateHandler_gas
    | simple apply GoverningHandler_gas | simple apply CandidateUpdateHandler_gas
    | simple apply BucketUpdateHandler_gas | simple apply DelegateStatHandler_gas
    | simple apply DelegateExitJailHandler_gas | simple apply DelegateStatFlushHandler_gas ].
Qed.
End Staking.

Lemma AccountLock_Handle_gas best decode env payload to gas :
  gas_fine gas (AccountLock_Handle best decode env payload to gas).
Proof.
  unfold AccountLock_Handle, HandleAccountLockAdd, HandleAccountLockRemove,
    HandleAccountLockTransfer, GoverningHandler_lock.
  repeat gas_step.
Qed.

Lemma Auction_Handle_gas `{Hashing} `{BlockChain} decode env payload to gas :
  gas_fine gas (Auction_Handle decode env payload to gas).
Proof.
  unfold Auction_Handle, StartAuctionCB, CloseAuctionCB, HandleAuctionTx.
  repeat gas_step.
Qed.

Lemma gas_fine_range gas e g err : 0 <= gas -> gas_fine gas (Ret (e, g, err)) -> 0 <= g <= gas.
Proof.
  unfold gas_fine, leftOver, ClauseGas, BaseTxGas, TxGas. intros Hg [->| ->]; [|lia].
  destruct (Z.ltb_spec gas (21000 - 5000)); lia.
Qed.

(** The script engine never returns more gas than it was given. *)
Lemma HandleScriptData_gas `{Hashing} `{StakingCodec} `{BlockChain} `{Emission} `{ScriptCodec}
    best reg env data to gas env' g err :
  0 <= gas -> HandleScriptData best reg env data to gas = Ret (env', g, err) -> 0 <= g <= gas.
Proof.
  intros Hg Hh. apply (gas_fine_range gas env' g err Hg). rewrite <- Hh.
  unfold HandleScriptData, modHandler.
  repeat first [ gas_step | simple apply Staking_Handle_gas | simple apply Auction_Handle_gas
               | simple apply AccountLock_Handle_gas ].
Qed.
