(* ===== verification/Runtime.v ===== *)
(** * Execution of transactions

    [runtime/runtime.go], [runtime/resolved_tx.go] and the contexts of
    [xenv/env.go]: a transaction is resolved, its gas is bought from a sponsor,
    the contract or the origin, its clauses run one after the other by the
    script engine or the virtual machine, a failing clause reverts all of them,
    and the gas is settled.  The native corrections of each fork run in front of
    the clauses of the virtual machine. *)

From S2P Require Import Prelude KeyedList ChainParam VMConfig Words ForkData StakingTypes Transaction AuctionTypes Stats StackedMap State Prototype ScriptEnv StakingUtils StakingHandlers AccountLock MeterTracker EVM StakingGovern Auction ScriptEngine.

Definition BytesToBytes32 (s : string) : Bytes32 := bytes_value 0 s mod 2 ^ 256.

Definition KeyBaseGasPrice : Bytes32 := BytesToBytes32 "base-gas-price".
Definition KeyNativeMtrERC20Address : Bytes32 := BytesToBytes32 "native-mtr-erc20-address".
Definition KeyNativeMtrgERC20Address : Bytes32 := BytesToBytes32 "native-mtrg-erc20-address".
Definition KeySystemContractAddress1 : Bytes32 := BytesToBytes32 "1-system-contract-address".
Definition KeySystemContractAddress2 : Bytes32 := BytesToBytes32 "2-system-contract-address".
Definition KeySystemContractAddress3 : Bytes32 := BytesToBytes32 "3-system-contract-address".
Definition KeySystemContractAddress4 : Bytes32 := BytesToBytes32 "4-system-contract-address".
Definition KeyEnforceTesla1_Correction : Bytes32 := BytesToBytes32 "Tesla1_1Correction-Flag".
Definition KeyEnforceTesla5_Correction : Bytes32 := BytesToBytes32 "Tesla5_Correction-Flag".
Definition KeyEnforceTesla_Fork6_Correction : Bytes32 := BytesToBytes32 "Tesla_Fork6_Correction-Flag".
Definition KeyEnforceTesla_Fork8_Correction : Bytes32 := BytesToBytes32 "Tesla_Fork8_Correction_Flag".
Definition KeyEnforceTesla_Fork9_Correction : Bytes32 := BytesToBytes32 "Tesla_Fork9_Correction".
Definition KeyEnforceTesla_Fork10_Correction : Bytes32 := BytesToBytes32 "Tesla_Fork10_Correction".
Definition KeyEnforceTesla_Fork11_Correction : Bytes32 := BytesToBytes32 "Tesla_Fork11_Correction".
Definition KeyEnforceTesla_Fork12_Correction : Bytes32 := BytesToBytes32 "Tesla_Fork12_Correction".
Definition KeyEnforceTesla_Fork13_Correction : Bytes32 := BytesToBytes32 "Tesla_Fork13_Correction".
Definition KeyEnforceTesla_Fork14_Correction : Bytes32 := BytesToBytes32 "Tesla_Fork14_Correction".
Definition KeyTransactionFeeAddress : Bytes32 :=
  BytesToBytes32 "transaction-fee-beneficiary-address".

Definition ScriptEngineSysContractAddr : Address := BytesToAddress "native-script-engine-address".
Definition InitialExecutorAccount : Address := 0xdbb11b66f1d62bdeb5f47018d85e2401d7e3dc2e.
Definition ParamsAddr : Address := BytesToAddress "Params".
Definition PrototypeAddr : Address := BytesToAddress "Prototype".
Definition ExtensionAddr : Address := BytesToAddress "Extension".
Definition mtrgV1Addr : Address := 0x228ebBeE999c6a7ad74A6130E81b12f9Fe237Ba3.
Definition mtrAddr : Address := 0x687a6294d0d6d63e751a059bf1ca68e4ae7b13e2.
Definition fork5Target : Address := 0x08ebea6584b3d9bf6fbcacf1a1507d00a61d95b7.
Definition fork10Target : Address := 0x62e3e1df0430e6da83060b3cffc1adeb3792daf1.
Definition USDCAddress : Address := 0xd86e243fc0007e6226b07c9a50c9d70d78299eb5.
Definition USDTAddress : Address := 0x5fa41671c48e3c951afc30816947126ccc8c162e.
Definition WBTCAddress : Address := 0xc1f6c86abee8e2e0b6fd5bd80f0b51fef783635c.

(** The parameter contract read as an address. *)
Definition GetAddress (s : State.t) (key : Bytes32) : Address := State.Params_Get s key mod 2 ^ 160.
Definition SetAddress (key : Bytes32) (addr : Address) : State.t -> State.t :=
  State.Params_Set key addr.

(** ** Contexts *)

Module BlockContext.
Record t := mk {
  Beneficiary : Address; Signer : Address; Number : Z; Time : Z; GasLimit : Z; TotalScore : Z
}.
End BlockContext.
Import BlockContext(Beneficiary, Number, Time).

Module TransactionContext.
Record t := mk {
  ID : Bytes32; Origin : Address; GasPrice : Z; ProvedWork : Z; BlockRef : Z;
  Expiration : Z; Nonce : Z; Counter : Z
}.
#[global] Instance eta : Settable t := fun c =>
  mk (ID c) (Origin c) (GasPrice c) (ProvedWork c) (BlockRef c) (Expiration c) (Nonce c)
     (Counter c).
End TransactionContext.

(** ** Buying gas *)

Module ResolvedTransaction.
Record t := mk {
  tx : Transaction.t; Origin : Address; IntrinsicGas : Z; Clauses : list Clause.t
}.
End ResolvedTransaction.
Import ResolvedTransaction(Origin).

(** The loop over the values of the clauses: the error, if any. *)
Fixpoint check_values (sumValue : Z) (clauses : list Clause.t) : option string :=
  match clauses with
  | [] => None
  | clause :: clauses =>
    if Clause.Value clause <? 0 then Some "clause with negative value"
    else
      let sumValue := sumValue + Clause.Value clause in
      if MaxBig256 <? sumValue then Some "tx value too large" else check_values sumValue clauses
  end.

Definition ResolveTransaction `{BlockChain} `{TxCrypto} `{EthTypes} (tx : Transaction.t)
    : outcome (string + ResolvedTransaction.t) :=
  signer ← Signer tx;
  match signer with
  | inl err => Ret (inl err)
  | inr origin =>
    match Transaction_IntrinsicGas tx with
    | inl err => Ret (inl err)
    | inr intrinsicGas =>
      if Transaction.Gas tx <? intrinsicGas
      then Ret (inl "intrinsic gas exceeds provided gas")
      else
        match check_values 0 (Transaction.Clauses tx) with
        | Some err => Ret (inl err)
        | None =>
          Ret (inr (ResolvedTransaction.mk tx origin intrinsicGas (Transaction.Clauses tx)))
        end
    end
  end.

Definition CommonTo (r : ResolvedTransaction.t) : option Address :=
  match ResolvedTransaction.Clauses r with
  | [] => None
  | first :: rest =>
    match Clause.To first with
    | None => None
    | Some to =>
      if forallb (fun c => bool_decide (Clause.To c = Some to)) rest then Some to else None
    end
  end.

(** Who pays, and, when it is on a user's credit, the contract, the user's
    credit before and the prepaid amount: what [returnGas] closes over. *)
Module Purchase.
Record t := mk {
  baseGasPrice : Z; gasPrice : Z; payer : Address; credited : option (Address * Z * Z)
}.
End Purchase.
Import Purchase(gasPrice, payer).

Definition BuyGas (r : ResolvedTransaction.t) (blockTime : Z) (s : State.t)
    : State.t * (string + Purchase.t) :=
  let tx := ResolvedTransaction.tx r in
  let base := State.Params_Get s KeyBaseGasPrice in
  let price := GasPrice tx base in
  let prepaid := Transaction.Gas tx * price in
  let from_origin (s : State.t) :=
    if negb (IsZero (Origin r)) then
      match State.SubEnergy (Origin r) prepaid s with
      | (s, true) => (s, inr (Purchase.mk base price (Origin r) None))
      | (s, false) => (s, inl "insufficient energy")
      end
    else (s, inr (Purchase.mk base price (Origin r) None)) in
  match CommonTo r with
  | None => from_origin s
  | Some to =>
    let credit := Binding.UserCredit to s (Origin r) blockTime in
    if credit <? prepaid then from_origin s
    else
      let bought (p : Address) :=
        inr (Purchase.mk base price p (Some (to, credit, prepaid))) in
      let from_to (s : State.t) :=
        match State.SubEnergy to prepaid s with
        | (s, true) => (s, bought to)
        | (s, false) => from_origin s
        end in
      let sponsor := Binding.CurrentSponsor to s in
      if Binding.IsSponsor to s sponsor then
        match State.SubEnergy sponsor prepaid s with
        | (s, true) => (s, bought sponsor)
        | (s, false) => from_to s
        end
      else from_to s
  end.

(** The closure [returnGas] of a purchase. *)
Definition returnGas (p : Purchase.t) (origin : Address) (blockTime rgas : Z) (s : State.t)
    : State.t :=
  let returnedEnergy := rgas * gasPrice p in
  let s := State.AddEnergy (payer p) returnedEnergy s in
  match Purchase.credited p with
  | None => s
  | Some (to, credit, prepaid) =>
    let usedEnergy := prepaid - returnedEnergy in
    Binding.SetUserCredit to origin (credit - usedEnergy) blockTime s
  end.

(** ** What the runtime gives the virtual machine *)

(** A native method of a built-in contract: whether its ABI declares it
    constant, and its run on the machine and the contract that called it, which
    pays for it. *)
Module NativeMethod.
Record t := mk {
  Const : bool;
  Call : BlockContext.t -> TransactionContext.t -> Z -> EVM.t -> Contract.t ->
         outcome (EVM.t * Contract.t * string * option string)
}.
End NativeMethod.

(** Constants generated from compiled contracts, and the hashes and ABI
    encodings taken from go-ethereum: the bytecodes by name, the addresses of
    created contracts, the identifiers of two events and their data; and the
    native methods of [builtin/] by address and input. *)
Class Deployment : Type := {
  NewMeterNative_BinRuntime : string;
  MeterGovERC20Permit_DeployedBytecode : string;
  MeterNative_V3_DeployedBytecode : string;
  ScriptEngine_DeployedBytecode : string;
  MeterGovERC20Permit_V3_DeployedBytecode : string;
  MeterERC20Permit_V3_DeployedBytecode : string;
  MeterNative_V4_DeployedBytecode : string;
  ScriptEngine_V2_DeployedBytecode : string;
  MeterNative_V5_DeployedBytecode : string;
  ScriptEngine_V3_DeployedBytecode : string;
  ERC20MinterBurnerPauserPermitForReplacement_DeployedBytecode : string;
  CreateContractAddress : Bytes32 -> Z -> Z -> Address;
  EthCreateContractAddress : Address -> Z -> Address;
  prototypeSetMasterEvent : Bytes32;
  energyTransferEvent : Bytes32;
  encode_address : Address -> string;
  encode_uint256 : Z -> string;
  FindNativeCall : Address -> string -> option NativeMethod.t
}.

(** Callers whose calls the native code intercepts. *)
Definition FromNativeContract (s : State.t) (caller : Address) : bool :=
  bool_decide (caller ∈ [GetAddress s KeyNativeMtrERC20Address;
    GetAddress s KeyNativeMtrgERC20Address; GetAddress s KeySystemContractAddress1;
    GetAddress s KeySystemContractAddress2; GetAddress s KeySystemContractAddress3;
    GetAddress s KeySystemContractAddress4; ParamsAddr; InitialExecutorAccount; PrototypeAddr;
    ExtensionAddr]).

(** What [runtime.New] fixes for the clauses of a block: the identifiers of the
    blocks the seeker finds, and two values of the chain configuration. *)
Module RT.
Record t := mk { GetID : Z -> Bytes32; LastPowNonce : Z; BaseFee : Z }.
End RT.

Definition nativeCallReturnGas : Z := 1562.
Definition nativeCallReturnGasAfterFork6 : Z := 1264.
(** The runtime has an error of its own here, which the machine does not take
    for a revert. *)
Definition errExecutionReverted_runtime : string := "evm: execution reverted (runtime)".

Section VMContext.
Context `{BlockChain} `{Deployment} `{Machine}.
Context (ctx : BlockContext.t) (rt : RT.t) (txCtx : TransactionContext.t) (clauseIndex : Z).
Implicit Types (db : VMState.t).

Definition can_transfer db (addr : Address) (amount token : Z) : bool :=
  if negb (IsZero addr) then
    if token =? MTRG then amount <=? State.GetBalance (VMState.state db) addr
    else amount <=? State.GetEnergy (VMState.state db) addr
  else true.

(** The change of the accounts; a token that is neither MTR nor MTRG moves
    nothing. *)
Definition transfer_funds (sender recipient : Address) (amount token : Z) (s : State.t) : State.t :=
  if IsZero sender then
    if IsTeslaFork8 (Number ctx) then
      if token =? MTRG then StateDB.MintBalanceAfterFork8 recipient amount s
      else if token =? MTR then StateDB.MintEnergyAfterFork8 recipient amount s
      else s
    else
      if token =? MTRG then StateDB.MintBalance recipient amount s
      else if token =? MTR then StateDB.MintEnergy recipient amount s
      else s
  else
    if token =? MTRG
    then State.AddBalance recipient amount (fst (State.SubBalance sender amount s))
    else if token =? MTR
    then State.AddEnergy recipient amount (fst (State.SubEnergy sender amount s))
    else s.

(** The log has a copy of the amount.  Before [FixTransferLog], in the first
    blocks of the networks, it had the caller's number itself, which the machine
    may have used for something else by the time the log is read. *)
Definition transfer (sender recipient : Address) (amount token : Z) db : outcome VMState.t :=
  if amount =? 0 then Ret db
  else
    let db := db <| VMState.state ::= transfer_funds sender recipient amount token |> in
    VMState.AddTransfer (Transfer.mk sender recipient amount token) db.

Definition new_contract_address db (caller : Address) (counter : Z) : Address :=
  let number := Number ctx in
  let nonce := u32 (TransactionContext.Nonce txCtx) in
  let codeHash := State.GetCodeHash (VMState.state db) caller in
  if IsTesla number then
    if IsTeslaFork3 number then
      if (codeHash =? 0) || (codeHash =? keccak "") then
        if IsTeslaFork11 number
        then EthCreateContractAddress caller (u32 (nonce + clauseIndex + counter))
        else EthCreateContractAddress caller (u32 (nonce + clauseIndex))
      else
        if IsTeslaFork4 number
        then CreateContractAddress (TransactionContext.ID txCtx) clauseIndex counter
        else EthCreateContractAddress caller counter
    else
      EthCreateContractAddress (TransactionContext.Origin txCtx) (u32 (nonce + clauseIndex))
  else CreateContractAddress (TransactionContext.ID txCtx) clauseIndex counter.

Definition on_create_contract (contractAddr caller : Address) db : outcome VMState.t :=
  let db := db <| VMState.state ::= State.SetMaster contractAddr caller |> in
  VMState.AddLog (Log.mk contractAddr [prototypeSetMasterEvent] (encode_address caller)) db.

(** What is left to the receiver of a suicide, before the machine deletes the
    contract. *)
Definition on_suicide_contract (contractAddr tokenReceiver : Address) db : outcome VMState.t :=
  let amount := State.GetEnergy (VMState.state db) contractAddr in
  db ← (if amount =? 0 then Ret db
        else
          let db := db <| VMState.state ::= fun s =>
            State.SetEnergy tokenReceiver (State.GetEnergy s tokenReceiver + amount) s |> in
          db ← VMState.AddLog (Log.mk MeterNativeAddr
                 [energyTransferEvent; contractAddr; tokenReceiver] (encode_uint256 amount)) db;
          VMState.AddTransfer (Transfer.mk contractAddr tokenReceiver amount MTR) db);
  let amount := State.GetBalance (VMState.state db) contractAddr in
  if amount =? 0 then Ret db
  else
    let db := db <| VMState.state ::= State.AddBalance tokenReceiver amount |> in
    VMState.AddTransfer (Transfer.mk contractAddr tokenReceiver amount MTRG) db.

(** A call from a built-in contract that names a native method is answered by
    it; the gas the call cost is given back first. *)
Definition intercept_contract_call (evm : EVM.t) (contract : Contract.t) (readonly : bool)
    : outcome (EVM.t * Contract.t * option (string * option string)) :=
  let skip := (evm <| EVM.lastNonNativeCallGas := Contract.Gas contract |>, contract, None) in
  if EVM.depth evm <? 2 then Ret skip
  else if negb (FromNativeContract (VMState.state (EVM.StateDB evm)) (Contract.CallerAddress contract))
  then Ret skip
  else
    match FindNativeCall (Contract.self contract) (Contract.Input contract) with
    | None => Ret skip
    | Some method =>
      if readonly && negb (NativeMethod.Const method) then Panic
      else if negb (Contract.value contract =? 0) then Panic
      else
        let back := if IsTeslaFork6 (Number ctx) then nativeCallReturnGasAfterFork6
                    else nativeCallReturnGas in
        let contract := contract <| Contract.Gas ::= fun g => u64 (g + back) |> in
        if EVM.lastNonNativeCallGas evm <? Contract.Gas contract
        then Ret (evm, contract, Some ("", Some errExecutionReverted_runtime))
        else
          '(evm, contract, ret, err) ← NativeMethod.Call method ctx txCtx clauseIndex evm contract;
          Ret (evm, contract, Some (ret, err))
    end.

(** [chainConfig], with the fields [New] sets. *)
Definition chainConfig : VMChainConfig.t :=
  let at_ main test := Some (if IsMainNet then main else test) in
  VMChainConfig.mk (if IsMainNet then 82 else 83) (Some 0) (Some 0) (Some 0) (Some 0) (Some 0)
    (at_ 14875500 4220000) (at_ 36427000 31556000) (at_ 51786600 55245500)
    (RT.LastPowNonce rt) (RT.BaseFee rt).
Definition vm_context : VMInfo.t :=
  VMInfo.mk (TransactionContext.Origin txCtx) (TransactionContext.GasPrice txCtx) (Beneficiary ctx)
    (BlockContext.GasLimit ctx) (Number ctx) (Time ctx) 0 chainConfig.

(** [chainConfig.IsIstanbul] chooses between nine and eight contracts. *)
Definition precompiled (addr : Address) : bool :=
  (1 <=? addr) &&
  (addr <=? (if VMChainConfig.IsIstanbul chainConfig (Number ctx) then 9 else 8)).

Definition newEVM_context : Context := {|
  CanTransfer := can_transfer;
  Transfer_ := transfer;
  NewContractAddress := new_contract_address;
  OnCreateContract := on_create_contract;
  OnSuicideContract := on_suicide_contract;
  InterceptContractCall := intercept_contract_call;
  GetHash := fun num => RT.GetID rt (u32 num);
  vm_info := vm_context;
  is_precompiled := precompiled
|}.
End VMContext.

(** ** The corrections of each fork

    A flag among the parameters says that a correction was made. *)

Section Corrections.
Context `{Hashing} `{BlockChain} `{Deployment} `{Machine}.
(** The registry of the script engine, if it was created. *)
Context (engine : option Registry) (ctx : BlockContext.t).
Implicit Types (evm : EVM.t).

Definition IsSysContractEnabled (blockNum : Z) : bool :=
  (IsMainNet && (4900000 <=? blockNum)) || (IsTestNet && (100000 <=? blockNum)).

Definition rt_state evm : State.t := VMState.state (EVM.StateDB evm).
Definition on_rt (f : State.t -> State.t) evm : EVM.t :=
  evm <| EVM.StateDB ::= fun db => db <| VMState.state ::= f |> |>.
Definition SetCode (addr : Address) (code : string) : State.t -> State.t :=
  State.SetCode keccak addr code.

(** Whether the flag of a correction is still unset. *)
Definition pending (flag : Bytes32) evm : bool := State.Params_Get (rt_state evm) flag =? 0.
Definition mark (flag : Bytes32) : EVM.t -> EVM.t := on_rt (State.Params_Set flag 1).

Definition LoadERC20NativeCotract evm : outcome EVM.t :=
  let blockNum := Number ctx in
  if IsSysContractEnabled blockNum
     && (String.length (State.GetCode (rt_state evm) MeterNativeAddr) =? 0)%nat
  then
    let evm := on_rt (SetCode MeterNativeAddr NewMeterNative_BinRuntime) evm in
    Ret (on_rt (SetCode InitialExecutorAccount "") evm)
  else Ret evm.

Definition EnforceTelsaFork1_Corrections evm : outcome EVM.t :=
  if (0 <? Number ctx) && IsMainNet && IsTeslaFork1 (Number ctx)
     && pending KeyEnforceTesla1_Correction evm
  then
    modReg ← deref engine;
    let evm := on_rt (EnforceTeslaFork1_Corrections modReg (Time ctx)) evm in
    Ret (mark KeyEnforceTesla1_Correction evm)
  else Ret evm.

(** A million MTRG of one account that should have been bounded. *)
Definition fork5_rebound (s : State.t) : State.t :=
  let bal := State.GetBalance s fork5Target in
  let bounded := State.GetBoundedBalance s fork5Target in
  let offset := 1000000 * e18 in
  if offset <? bal then
    State.SetBoundedBalance fork5Target (bounded + offset)
      (State.SetBalance fork5Target (bal - offset) s)
  else s.

Definition EnforceTeslaFork5_Corrections evm : outcome EVM.t :=
  if (0 <? Number ctx) && IsMainNet && IsTeslaFork5 (Number ctx)
     && pending KeyEnforceTesla5_Correction evm
  then
    let evm := on_rt (SetCode mtrgV1Addr MeterGovERC20Permit_DeployedBytecode) evm in
    modReg ← deref engine;
    let evm := on_rt (EnforceTeslaFork5BonusCorrections modReg) evm in
    let evm := on_rt fork5_rebound evm in
    Ret (mark KeyEnforceTesla5_Correction evm)
  else Ret evm.

Definition EnforceTeslaFork6_Corrections evm : outcome EVM.t :=
  if (0 <? Number ctx) && IsMainNet && (33023000 <? Number ctx)
     && pending KeyEnforceTesla_Fork6_Correction evm
  then
    let evm := match engine with
      | Some modReg => on_rt (EnforceTeslaFork6_StakingCorrections modReg) evm
      | None => evm
      end in
    Ret (mark KeyEnforceTesla_Fork6_Correction evm)
  else Ret evm.

(** The accounts of two tables and of the buckets, without repetition. *)
Definition fork8_accounts (table : list Address) (s : State.t) : gset Address :=
  let buckets := State.GetBucketList s in
  list_to_set table ∪ list_to_set DevAccounts
  ∪ list_to_set (Bucket.Owner <$> buckets) ∪ list_to_set (Bucket.Candidate <$> buckets).
Definition sum_supply (f : Supply.t -> Z) (accounts : gset Address) (s : State.t) : Z :=
  sum_of (fun addr => f (State.supply s addr)) (elements accounts).

Definition fork8_totals (s : State.t) : State.t :=
  let mtrAddrs := fork8_accounts MTRAddSubAccounts s in
  let mtrgAddrs := fork8_accounts MTRGAddSubAccounts s in
  let mtrAdd := sum_supply Supply.MeterTotalAdd mtrAddrs s in
  let mtrSub := sum_supply Supply.MeterTotalSub mtrAddrs s in
  let mtrgAdd := sum_supply Supply.GovTotalAdd mtrgAddrs s in
  let mtrgSub := sum_supply Supply.GovTotalSub mtrgAddrs s in
  let global := State.supply s MeterNativeAddr in
  let s := MeterTracker.SetMeterTotalAddSub MeterNativeAddr
    (mtrAdd + Supply.MeterTotalAdd global) (mtrSub + Supply.MeterTotalSub global) s in
  let global := State.supply s MeterNativeAddr in
  MeterTracker.SetMeterGovTotalAddSub MeterNativeAddr
    (mtrgAdd + Supply.GovTotalAdd global) (mtrgSub + Supply.GovTotalSub global) s.

Definition EnforceTeslaFork8_LiquidStaking evm : outcome EVM.t :=
  if (0 <? Number ctx) && IsTeslaFork8 (Number ctx)
     && pending KeyEnforceTesla_Fork8_Correction evm
  then
    let evm := on_rt fork8_totals evm in
    let evm := on_rt (SetCode MeterNativeAddr MeterNative_V3_DeployedBytecode) evm in
    let evm := on_rt (SetCode ScriptEngineSysContractAddr ScriptEngine_DeployedBytecode) evm in
    let evm := on_rt (State.SetStorage ScriptEngineSysContractAddr 0 MeterNativeAddr) evm in
    let evm := on_rt (SetAddress KeySystemContractAddress2 ScriptEngineSysContractAddr) evm in
    evm ← on_db (VMState.AddLog (Log.mk ScriptEngineSysContractAddr [prototypeSetMasterEvent]
                                   (encode_address ZeroAddress))) evm;
    Ret (mark KeyEnforceTesla_Fork8_Correction evm)
  else Ret evm.

(** The votes of the buckets a candidate lists; a missing bucket counts 0. *)
Definition actual_votes (buckets : BucketList.t) (c : Candidate.t) : Z :=
  sum_of (fun bid => match BucketList.Get buckets bid with
                     | Some b => Bucket.TotalVotes b
                     | None => 0
                     end) (Candidate.Buckets c).
Definition fork9_votes (s : State.t) : State.t :=
  let candidates := State.GetCandidateList s in
  let buckets := State.GetBucketList s in
  let fix_votes (c : Candidate.t) :=
    if Candidate.TotalVotes c <? actual_votes buckets c
    then c <| Candidate.TotalVotes := actual_votes buckets c |> else c in
  State.SetCandidateList (fix_votes <$> candidates) s.

Definition EnforceTeslaFork9_Corrections evm : outcome EVM.t :=
  if (0 <? Number ctx) && IsTeslaFork9 (Number ctx)
     && pending KeyEnforceTesla_Fork9_Correction evm
  then Ret (mark KeyEnforceTesla_Fork9_Correction (on_rt fork9_votes evm))
  else Ret evm.

(** The MTR kept for the validators: a cushion, the last summary when there is
    more than one, and the running auction.  Both reads fill the cache. *)
Definition fork10_reserve (s : State.t) : Z * State.t :=
  let (summaryList, s) := State.GetSummaryList s in
  let reserve := 2000 * e18 in
  let reserve :=
    if (1 <? length summaryList)%nat
    then reserve + default 0 (AuctionSummary.RcvdMTR <$> last summaryList) else reserve in
  let (activeCB, s) := State.GetAuctionCB s in
  (if AuctionCB.IsActive activeCB then reserve + AuctionCB.RcvdMTR activeCB else reserve, s).

Definition fork10_move evm : outcome EVM.t :=
  let energy := State.GetEnergy (rt_state evm) ValidatorBenefitAddr in
  let (reserve, s) := fork10_reserve (rt_state evm) in
  let evm := on_rt (fun _ => s) evm in
  if reserve <? energy then
    let moved := energy - reserve in
    let toEnergy := State.GetEnergy s fork10Target in
    let evm := on_rt (State.SetEnergy ValidatorBenefitAddr reserve) evm in
    let evm := on_rt (State.SetEnergy fork10Target (toEnergy + moved)) evm in
    on_db (VMState.AddTransfer (Transfer.mk ValidatorBenefitAddr fork10Target moved MTR)) evm
  else Ret evm.

Definition EnforceTeslaFork10_Corrections evm : outcome EVM.t :=
  if (0 <? Number ctx) && IsTeslaFork10 (Number ctx)
     && pending KeyEnforceTesla_Fork10_Correction evm
  then
    let evm := on_rt (SetCode mtrgV1Addr MeterGovERC20Permit_V3_DeployedBytecode) evm in
    let evm := on_rt (SetCode mtrAddr MeterERC20Permit_V3_DeployedBytecode) evm in
    let evm := on_rt (SetCode MeterNativeAddr MeterNative_V4_DeployedBytecode) evm in
    let evm := on_rt (SetCode ScriptEngineSysContractAddr ScriptEngine_V2_DeployedBytecode) evm in
    evm ← fork10_move evm;
    Ret (mark KeyEnforceTesla_Fork10_Correction evm)
  else Ret evm.

(** The selector of [initialize()]; an error of the call is only logged. *)
Definition initializeSelector : string := bytes [0x81; 0x29; 0xfc; 0x1c]%N.
Definition replace_token `{Context} (addr : Address) evm : outcome EVM.t :=
  let evm := on_rt
    (SetCode addr ERC20MinterBurnerPauserPermitForReplacement_DeployedBytecode) evm in
  '(evm, _, _, _) ← Call ZeroAddress addr initializeSelector 350000 0 0 evm;
  Ret evm.

Definition EnforceTeslaFork11_Corrections `{Context} evm : outcome EVM.t :=
  if (0 <? Number ctx) && IsMainNet && IsTeslaFork11 (Number ctx)
     && pending KeyEnforceTesla_Fork11_Correction evm
  then
    let evm := on_rt (SetCode MeterNativeAddr MeterNative_V5_DeployedBytecode) evm in
    let evm := on_rt (SetCode ScriptEngineSysContractAddr ScriptEngine_V3_DeployedBytecode) evm in
    evm ← replace_token USDCAddress evm;
    evm ← replace_token USDTAddress evm;
    evm ← replace_token WBTCAddress evm;
    Ret (mark KeyEnforceTesla_Fork11_Correction evm)
  else Ret evm.

Definition EnforceTeslaFork12_Corrections evm : outcome EVM.t :=
  if (0 <? Number ctx) && IsTeslaFork12 (Number ctx)
     && pending KeyEnforceTesla_Fork12_Correction evm
  then
    let evm := mark KeyEnforceTesla_Fork12_Correction evm in
    Ret (on_rt (State.Params_Set KeyTesla_Fork12_Timestamp (i64 (Time ctx))) evm)
  else Ret evm.

(** It marks the flag of fork 12, not its own. *)
Definition EnforceTeslaFork13_Corrections evm : outcome EVM.t :=
  if (0 <? Number ctx) && IsTeslaFork13 (Number ctx)
     && pending KeyEnforceTesla_Fork13_Correction evm
  then Ret (mark KeyEnforceTesla_Fork12_Correction evm)
  else Ret evm.

Definition EnforceTeslaFork14_Corrections evm : outcome EVM.t :=
  if (0 <? Number ctx) && IsTeslaFork14 (Number ctx)
     && pending KeyEnforceTesla_Fork14_Correction evm
  then Ret (mark KeyEnforceTesla_Fork14_Correction (mark KeyEnforceTesla_Fork13_Correction evm))
  else Ret evm.

(** The sequence in front of a clause of the virtual machine. *)
Definition enforce_corrections `{Context} evm : outcome EVM.t :=
  evm ← LoadERC20NativeCotract evm;
  evm ← EnforceTelsaFork1_Corrections evm;
  evm ← EnforceTeslaFork5_Corrections evm;
  evm ← EnforceTeslaFork6_Corrections evm;
  evm ← EnforceTeslaFork8_LiquidStaking evm;
  evm ← EnforceTeslaFork9_Corrections evm;
  evm ← EnforceTeslaFork10_Corrections evm;
  evm ← EnforceTeslaFork11_Corrections evm;
  evm ← EnforceTeslaFork12_Corrections evm;
  evm ← EnforceTeslaFork13_Corrections evm;
  EnforceTeslaFork14_Corrections evm.
End Corrections.

(** ** Clauses *)

(** An event of a receipt: of the script engine, or a log of the machine. *)
Inductive tx_event :=
  | ScriptEvent (addr : Address) (e : event)
  | VMLog (l : Log.t).

Module Output.
Record t := mk {
  Data : string;
  Events : list tx_event;
  Transfers : list Transfer.t;
  LeftOverGas : Z;
  RefundGas : Z;
  VMErr : option string;
  ContractAddress : option Address
}.
End Output.
Import Output(LeftOverGas, RefundGas, VMErr).

Definition MinScriptEngDataLen : nat := 16.
(** The first four bytes; the length is checked before. *)
Definition ScriptEngineCheck (d : string) : bool := (string_take 4 d =? ScriptPrefix)%string.

Section Runtime.
Context `{Hashing} `{StakingCodec} `{BlockChain} `{Emission} `{ScriptCodec}
        `{Deployment} `{Machine}.
Context (engine : option Registry) (best_epoch : option Z) (ctx : BlockContext.t) (rt : RT.t).

Definition restrictTransfer (s : State.t) (addr : Address) (amount token : Z) : bool :=
  let '(restrict, _, lockMtrg) := RestrictByAccountLock best_epoch addr s in
  if negb restrict || (token =? MTR) then false
  else if IsTeslaFork1 (Number ctx) then
    let balance := State.GetBalance s addr in
    if balance <? amount then true
    else
      let available := balance + State.GetBoundedBalance s addr in
      let needed := lockMtrg + amount in
      available <? needed
  else
    let needed := lockMtrg + amount in
    State.GetBalance s addr <? needed.

Definition rejectInvalidNativeValue (s : State.t) (clause : Clause.t) : bool :=
  if negb (IsTeslaFork14 (Number ctx)) then false
  else
    let token := Clause.Token clause in
    if negb (token =? MTR) && negb (token =? MTRG) then true
    else if negb (token =? MTR) && negb (Clause.Value clause =? 0) then
      match Clause.To clause with
      | None => true
      | Some to => (0 <? String.length (State.GetCode s to))%nat
      end
    else false.

(** A clause refused before it runs pays for itself. *)
Definition refused (gas refund : Z) (err : string) : Output.t :=
  Output.mk "" [] [] (if ClauseGas <? gas then gas - ClauseGas else 0) refund (Some err) None.

(** The script engine takes clauses without value whose data has the prefix. *)
Definition is_script (clause : Clause.t) : bool :=
  (Clause.Value clause =? 0) && (MinScriptEngDataLen <? String.length (Clause.Data clause))%nat
  && ScriptEngineCheck (Clause.Data clause).

Definition exec_script (modReg : Registry) (clause : Clause.t) (clauseIndex gas : Z)
    (txCtx : TransactionContext.t) (s : State.t) : outcome (State.t * Z * Output.t) :=
  let senv := ScriptEnv.NewScriptEnv s (Number ctx) (Time ctx)
    (TransactionContext.Origin txCtx) (TransactionContext.Nonce txCtx)
    (TransactionContext.Counter txCtx) (TransactionContext.ID txCtx) clauseIndex in
  '(senv, leftOverGas, vmErr) ←
    HandleScriptData best_epoch modReg senv (string_drop 4 (Clause.Data clause))
      (Clause.To clause) gas;
  Ret (ScriptEnv.state senv, ScriptEnv.txCounter senv,
       Output.mk (ScriptEnv.returnData senv)
         ((fun ae => ScriptEvent (fst ae) (snd ae)) <$> ScriptEnv.events senv)
         (ScriptEnv.transfers senv) leftOverGas 0 vmErr None).

Definition exec_vm (clause : Clause.t) (clauseIndex gas : Z) (txCtx : TransactionContext.t)
    (s : State.t) : outcome (State.t * Z * Output.t) :=
  let context := newEVM_context ctx rt txCtx clauseIndex in
  let evm := EVM.NewEVM (VMState.New s) (TransactionContext.Counter txCtx) in
  evm ← enforce_corrections engine ctx evm;
  refund ← VMState.GetRefund (EVM.StateDB evm);
  let origin := TransactionContext.Origin txCtx in
  if restrictTransfer (rt_state evm) origin (Clause.Value clause) (Clause.Token clause)
  then Ret (rt_state evm, EVM.txCounter evm, refused gas refund "account is restricted to transfer")
  else if rejectInvalidNativeValue (rt_state evm) clause
  then Ret (rt_state evm, EVM.txCounter evm, refused gas refund "invalid native token transfer")
  else
    '(evm, data, leftOverGas, contractAddr, vmErr) ←
      match Clause.To clause with
      | None =>
        '(evm, data, rest, caddr, err) ←
          Create origin (Clause.Data clause) gas (Clause.Value clause) (Clause.Token clause) evm;
        Ret (evm, data, rest, Some caddr, err)
      | Some to =>
        '(evm, data, rest, err) ←
          Call origin to (Clause.Data clause) gas (Clause.Value clause) (Clause.Token clause) evm;
        Ret (evm, data, rest, None, err)
      end;
    refund ← VMState.GetRefund (EVM.StateDB evm);
    let (logs, transfers) := VMState.GetLogs (EVM.StateDB evm) in
    Ret (rt_state evm, EVM.txCounter evm,
         Output.mk data (VMLog <$> logs) transfers leftOverGas refund vmErr contractAddr).

(** The state, the counter of the context, which the clauses share, and the
    output.  Without a script engine the output is nil, and reading it panics. *)
Definition ExecuteClause (clause : Clause.t) (clauseIndex gas : Z)
    (txCtx : TransactionContext.t) (s : State.t) : outcome (State.t * Z * Output.t) :=
  if is_script clause then
    modReg ← deref engine; exec_script modReg clause clauseIndex gas txCtx s
  else exec_vm clause clauseIndex gas txCtx s.
End Runtime.

(** ** Transactions *)

Module Receipt.
Record t := mk {
  GasUsed : Z; GasPayer : Address; Paid : Z; Reward : Z; Reverted : bool;
  Outputs : list (list tx_event * list Transfer.t)
}.
End Receipt.

Section Transactions.
Context `{Hashing} `{StakingCodec} `{BlockChain} `{Emission} `{ScriptCodec}
        `{Deployment} `{Machine} `{TxCrypto} `{EthTypes}.
Context (engine : option Registry) (best_epoch : option Z) (ctx : BlockContext.t).
Context (rt : RT.t).

Definition ToContext (r : ResolvedTransaction.t) (price : Z) : outcome TransactionContext.t :=
  let tx := ResolvedTransaction.tx r in
  id ← ID tx;
  work ← ProvedWork (RT.GetID rt) tx (Number ctx);
  Ret (TransactionContext.mk id (Origin r) price work (Transaction.BlockRef tx)
         (Transaction.Expiration tx) (Transaction.Nonce tx) 0).

(** The refund of a clause is at most half of the gas it used. *)
Definition refunded (leftOverGas : Z) (output : Output.t) : Z :=
  let gasUsed := u64 (leftOverGas - LeftOverGas output) in
  let refund := gasUsed / 2 in
  let refund := if RefundGas output <? refund then RefundGas output else refund in
  u64 (LeftOverGas output + refund).

(** The executor: the state, the gas left, whether it was reverted, and the
    outputs. *)
Fixpoint run_clauses (checkpoint : State.t) (txCtx : TransactionContext.t) (index : Z)
    (clauses : list Clause.t) (leftOverGas : Z) (outputs : list (list tx_event * list Transfer.t))
    (s : State.t) : outcome (State.t * Z * bool * list (list tx_event * list Transfer.t)) :=
  match clauses with
  | [] => Ret (s, leftOverGas, false, outputs)
  | clause :: clauses =>
    '(s, counter, output) ← ExecuteClause engine best_epoch ctx rt clause index leftOverGas txCtx s;
    let leftOverGas := refunded leftOverGas output in
    match VMErr output with
    | Some _ => Ret (State.RevertTo checkpoint s, leftOverGas, true, [])
    | None =>
      run_clauses checkpoint (txCtx <| TransactionContext.Counter := counter |>) (index + 1)
        clauses leftOverGas
        (outputs ++ [(Output.Events output, Output.Transfers output)]) s
    end
  end.

Definition fee_beneficiary (s : State.t) : Address :=
  let txFeeBeneficiary := GetAddress s KeyTransactionFeeAddress in
  if IsZero txFeeBeneficiary then Beneficiary ctx else txFeeBeneficiary.

Definition Finalize (tx : Transaction.t) (origin : Address) (p : Purchase.t) (leftOverGas : Z)
    (reverted : bool) (outputs : list (list tx_event * list Transfer.t)) (s : State.t)
    : outcome (State.t * Receipt.t) :=
  let gasUsed := u64 (Transaction.Gas tx - leftOverGas) in
  let paid := gasUsed * gasPrice p in
  let s := if negb (IsZero origin) then returnGas p origin (Time ctx) leftOverGas s else s in
  overallGasPrice ← OverallGasPrice (RT.GetID rt) tx (Purchase.baseGasPrice p) (u32 (Number ctx - 1));
  let reward := gasUsed * overallGasPrice in
  let s := if negb (IsZero origin) then State.AddEnergy (fee_beneficiary s) reward s else s in
  Ret (s, Receipt.mk gasUsed (payer p) paid reward reverted outputs).

(** The state after the transaction, and the receipt or the error. *)
Definition ExecuteTransaction (tx : Transaction.t) (s : State.t)
    : outcome (State.t * (string + Receipt.t)) :=
  resolved ← ResolveTransaction tx;
  match resolved with
  | inl err => Ret (s, inl err)
  | inr r =>
    match BuyGas r (Time ctx) s with
    | (s, inl err) => Ret (s, inl err)
    | (s, inr p) =>
      let leftOverGas := Transaction.Gas tx - ResolvedTransaction.IntrinsicGas r in
      let checkpoint := State.NewCheckpoint s in
      txCtx ← ToContext r (gasPrice p);
      '(s, leftOverGas, reverted, outputs) ←
        run_clauses checkpoint txCtx 0 (ResolvedTransaction.Clauses r) leftOverGas [] s;
      let s := State.CommitScriptEngineChanges s in
      '(s, receipt) ← Finalize tx (Origin r) p leftOverGas reverted outputs s;
      Ret (s, inr receipt)
    end
  end.
End Transactions.
