(* ===== verification/Packer.v ===== *)
(** * Packing a block

    [packer/]: a flow on top of a parent adopts transactions one by one, by
    executing them, and is packed into a signed block.  [runtime.New] and the
    chain of [chain/] that the packer asks are here as well. *)

From S2P Require Import Prelude KeyedList ChainParam ForkData StakingTypes BitArray Transaction Block AuctionTypes Stats StackedMap State Prototype ScriptEnv StakingUtils StakingHandlers AccountLock MeterTracker EVM StakingGovern Auction ScriptEngine Runtime.

(** What the packer and the validation ask of the chain: its tag, whether a
    transaction is known on the branch of a block and was reverted there, the
    identifier of an ancestor with the error the seeker keeps, the nonce of the
    last K-block, and the state at a root.  [inr None] is not found. *)
Class ChainView : Type := {
  Tag : Z;
  GetTransactionMeta : Bytes32 -> Bytes32 -> string + option bool;
  GetID : Bytes32 -> Z -> Bytes32 * option string;
  BestPowNonce : Z;
  NewState : Bytes32 -> string + State.t
}.

(** Merkle roots: of the accounts, of transactions and of receipts. *)
Class Roots : Type := {
  accounts_root : State.t -> Bytes32;
  txs_root : list Transaction.t -> Bytes32;
  receipts_root : list Receipt.t -> Bytes32
}.

(** [Stage] and [Hash]: the error of the state comes first. *)
Definition stage_Hash `{Roots} (s : State.t) : string + Bytes32 :=
  if State.err s then inl "state error" else inr (accounts_root s).

Definition EmptyRuntimeBytecode : string := bytes [0x60; 0x60; 0x60; 0x40; 0x52; 0x60; 0x02; 0x56]%N.

(** [GasPrice] of [runtime/runtime.go], with a coefficient of zero. *)
Definition runtime_GasPrice (baseGasPrice : Z) : Z := 0 * baseGasPrice / 255 + baseGasPrice.

(** [runtime.New]: the seeker of the head and two fields of the configuration
    are set, and the precompiled contracts get code at two blocks.  The first
    test is on the number of the main network on every network. *)
Definition new_rt `{ChainView} (head : Bytes32) (s : State.t) : RT.t :=
  RT.mk (fun n => fst (GetID head n)) (if BestPowNonce =? 0 then 1001 else BestPowNonce)
    (runtime_GasPrice (State.Params_Get s KeyBaseGasPrice)).
Definition runtime_New `{Machine} (ctx : BlockContext.t) (s : State.t) : State.t :=
  let set s addr := SetCode addr EmptyRuntimeBytecode s in
  if BlockContext.Number ctx =? 14875500 then foldl set s (seqZ 1 9)
  else if BlockContext.Number ctx =? 0 then foldl set s (seqZ 1 8)
  else s.

Definition errGasLimitReached : string := "gas limit reached".
Definition errTxNotAdoptableNow : string := "tx not adoptable now".
Definition errTxNotAdoptableForever : string := "tx not adoptable forever".
Definition errKnownTx : string := "known tx".
Definition badTxError (msg : string) : string := "bad tx: " +:+ msg.

(** The error the seeker of [head] keeps after executing transactions: the block
    each one refers to is looked up for its proved work, twice, from the number of
    the block and from the one before, if it is not too old.  The lookups of code
    that reads block hashes are taken to succeed. *)
Definition looked_up (headBlockNum refNum : Z) : bool :=
  (refNum <? headBlockNum) && (headBlockNum - refNum <=? MaxTxWorkDelay).
Definition seeker_Err `{ChainView} (head : Bytes32) (number : Z) (txs : list Transaction.t)
    : option string :=
  foldl (fun err tx =>
    match err with
    | Some _ => err
    | None =>
      let refNum := Transaction.RefNumber tx in
      if looked_up number refNum || looked_up (u32 (number - 1)) refNum
      then snd (GetID head refNum) else None
    end) None txs.

(** ** Flows *)

Module Flow.
Record t := mk {
  parent : Header.t;
  ctx : BlockContext.t;
  rt : RT.t;
  state : State.t;
  processedTxs : gmap Bytes32 bool;
  gasUsed : Z;
  txs : list Transaction.t;
  receipts : list Receipt.t
}.
#[global] Instance eta : Settable t := fun f =>
  mk (parent f) (ctx f) (rt f) (state f) (processedTxs f) (gasUsed f) (txs f) (receipts f).
End Flow.
Import Flow(gasUsed, processedTxs).

Section Packer.
Context `{Hashing} `{StakingCodec} `{BlockChain} `{Emission} `{ScriptCodec} `{Deployment} `{Machine}
        `{TxCrypto} `{EthTypes} `{BlockCrypto} `{ChainView} `{Roots}.
Context (engine : option Registry) (best_epoch : option Z).
(** The account of the node, its beneficiary if it set one, and the gas limit it
    aims at, zero for none. *)
Context (nodeMaster : Address) (beneficiary : option Address) (targetGasLimit : Z).
Implicit Types (f : Flow.t) (tx : Transaction.t).

Definition Packer_GasLimit (parentGasLimit : Z) : Z :=
  if negb (targetGasLimit =? 0) then GasLimit.Qualify targetGasLimit parentGasLimit
  else parentGasLimit.

Definition Mock (parent : Header.t) (targetTime gasLimit : Z) (candAddr : Address) : string + Flow.t :=
  match NewState (Header.StateRoot parent) with
  | inl err => inl err
  | inr s =>
    let ctx := BlockContext.mk (default candAddr beneficiary) nodeMaster
      (u32 (Header.Number parent + 1)) targetTime gasLimit (u64 (Header.TotalScore parent + 1)) in
    inr (Flow.mk parent ctx (new_rt (Header_ID parent) s) (runtime_New ctx s) ∅ 0 [] [])
  end.

(** Among the transactions of the block so far, then on the branch of the
    parent. *)
Definition findTx (processed : gmap Bytes32 bool) (head txID : Bytes32) : string + option bool :=
  match processed !! txID with
  | Some reverted => inr (Some reverted)
  | None => GetTransactionMeta txID head
  end.

(** The guards in front of the execution; [None] lets it run.  The quotient of
    two [float64] compares with 0.9 as the integers do for limits below
    [2 ^ 51]; it is not a number when both are zero. *)
Definition adoptable f tx : option string :=
  let ctx := Flow.ctx f in
  if negb (Transaction.ChainTag tx =? Tag) then Some (badTxError "chain tag mismatch")
  else if BlockContext.Number ctx <? Transaction.RefNumber tx then Some errTxNotAdoptableNow
  else if Transaction.IsExpired tx (BlockContext.Number ctx) then Some (badTxError "bad tx - expired")
  else if BlockContext.GasLimit ctx <? u64 (gasUsed f + Transaction.Gas tx) then
    if 10 * gasUsed f <? 9 * BlockContext.GasLimit ctx
    then Some errTxNotAdoptableNow else Some errGasLimitReached
  else None.

(** Whether the transaction it depends on is known and was not reverted. *)
Definition dep_error (processed : gmap Bytes32 bool) (head : Bytes32) tx : option string :=
  match Transaction.DependsOn tx with
  | None => None
  | Some dep =>
    match findTx processed head dep with
    | inl err => Some err
    | inr None => Some errTxNotAdoptableNow
    | inr (Some true) => Some errTxNotAdoptableForever
    | inr (Some false) => None
    end
  end.

Definition Adopt tx f : outcome (Flow.t * option string) :=
  match adoptable f tx with
  | Some err => Ret (f, Some err)
  | None =>
    invalid ← EthTxValidate tx;
    match invalid with
    | Some err => Ret (f, Some err)
    | None =>
      id ← ID tx;
      let head := Header_ID (Flow.parent f) in
      match findTx (processedTxs f) head id with
      | inl err => Ret (f, Some err)
      | inr (Some _) => Ret (f, Some errKnownTx)
      | inr None =>
        match dep_error (processedTxs f) head tx with
        | Some err => Ret (f, Some err)
        | None =>
          let checkpoint := State.NewCheckpoint (Flow.state f) in
          '(s, r) ← ExecuteTransaction engine best_epoch (Flow.ctx f) (Flow.rt f) tx (Flow.state f);
          match r with
          | inl err => Ret (f <| Flow.state := State.RevertTo checkpoint s |>, Some (badTxError err))
          | inr receipt =>
            Ret (f <| Flow.state := s |>
                   <| Flow.processedTxs ::= <[id := Receipt.Reverted receipt]> |>
                   <| Flow.gasUsed ::= fun g => u64 (g + Receipt.GasUsed receipt) |>
                   <| Flow.receipts ::= fun rs => rs ++ [receipt] |>
                   <| Flow.txs ::= fun ts => ts ++ [tx] |>, None)
          end
        end
      end
    end
  end.

(** [Builder.Build], and the signature. *)
Definition Pack (privateKey : PrivateKey) (blockType lastKBlock : Z) f
    : string + (Block.t * State.t * list Receipt.t) :=
  if negb (nodeMaster =? PubkeyToAddress privateKey) then inl "private key mismatch"
  else
    let head := Header_ID (Flow.parent f) in
    let ctx := Flow.ctx f in
    match seeker_Err head (BlockContext.Number ctx) (Flow.txs f) with
    | Some err => inl err
    | None =>
      match stage_Hash (Flow.state f) with
      | inl err => inl err
      | inr stateRoot =>
        let txs := if blockType =? SBlockType then [] else Flow.txs f in
        let header := Header.mk head (BlockContext.Time ctx) (BlockContext.GasLimit ctx) lastKBlock
          blockType (BlockContext.Beneficiary ctx) 0 (gasUsed f) (BlockContext.TotalScore ctx)
          (txs_root txs) stateRoot (receipts_root (Flow.receipts f)) 0 "" in
        match Sign (SigningHash header) privateKey with
        | inl err => inl err
        | inr sig =>
          inr (Block.mk (Header.withSignature sig header) txs None 0 0 0, Flow.state f, Flow.receipts f)
        end
      end
    end.
End Packer.
