(* ===== verification/Validate.v ===== *)
(** * Validation of a block

    [consensus/reactor_validate.go]: header, proposer, body and execution of a
    block against its parent, for proposals and for synchronized blocks.  The
    messages of errors are shortened to their text without values. *)

From S2P Require Import Prelude KeyedList ChainParam ForkData StakingTypes BitArray Transaction Block AuctionTypes Stats StackedMap State Prototype ScriptEnv StakingUtils StakingHandlers AccountLock MeterTracker EVM StakingGovern Auction ScriptEngine Runtime Packer.

(** Hashes of transactions, clauses and scripts without their nonces and
    timestamps, by which proposers and validators compare what they built. *)
Class UniteHashes : Type := {
  tx_UniteHash : Transaction.t -> Bytes32;
  clause_UniteHash : Clause.t -> Bytes32;
  script_UniteHash : ScriptData.t -> Bytes32
}.

(** What the reactor holds: the height of its last K-block; the number and the
    state root of the best block of its chain; when its pool of proof-of-work
    blocks decides for a K-block, the transactions it builds for it; and whether
    the pool has enough blocks. *)
Module Reactor.
Record t := mk {
  lastKBlockHeight : Z;
  bestNumber : Z;
  bestStateRoot : Bytes32;
  localKBlockTxs : option (list Transaction.t);
  VerifyNPowBlockPerEpoch : bool
}.
End Reactor.

(** The epoch whose headers have a wrong height of the last K-block. *)
Definition KBlockEpoch : Z := 14603.

Section Validate.
Context `{Hashing} `{StakingCodec} `{BlockChain} `{Emission} `{ScriptCodec} `{Deployment} `{Machine}
        `{TxCrypto} `{EthTypes} `{BlockCrypto} `{ChainView} `{Roots} `{UniteHashes}.
Context (engine : option Registry) (best_epoch : option Z) (c : Reactor.t).
Implicit Types (header parent : Header.t) (blk : Block.t) (tx : Transaction.t).

Definition validateBlockHeader header parent (nowTimestamp : Z) (forceValidate : bool) (epoch : Z)
    : option string :=
  if Header.Timestamp header <=? Header.Timestamp parent then Some "block timestamp behind parents"
  else if u64 (nowTimestamp + BlockInterval) <? Header.Timestamp header then Some "block in the future"
  else if negb (GasLimit.IsValid (Header.GasLimit header) (Header.GasLimit parent))
  then Some "block gas limit invalid"
  else if Header.GasLimit header <? Header.GasUsed header then Some "block gas used exceeds limit"
  else if Header.TotalScore header <=? Header.TotalScore parent then Some "block total score invalid"
  else if negb (epoch =? KBlockEpoch)
          && (Header.LastKBlockHeight header <? Header.LastKBlockHeight parent)
  then Some "block LastKBlockHeight invalid"
  else if forceValidate && negb (Header.LastKBlockHeight header =? Reactor.lastKBlockHeight c)
  then Some "header LastKBlockHeight invalid"
  else None.

Definition validateProposer header : option string :=
  match Header_Signer header with inl _ => Some "block signer unavailable" | inr _ => None end.

(** ** Body *)

(** How often each hash is still expected. *)
Definition counts : Type := gmap Bytes32 Z.
Definition count_up (m : counts) (h : Bytes32) : counts := <[h := default 0 (m !! h) + 1]> m.
Definition count_down (m : counts) (h : Bytes32) : counts := <[h := default 0 (m !! h) - 1]> m.

(** Transactions, clauses and scripts. *)
Definition expected : Type := counts * counts * counts.

(** A local script that does not decode is counted as the empty one. *)
Definition expect_clause (e : expected) (clause : Clause.t) : expected :=
  let '(txs, clauses, scripts) := e in
  let clauses := count_up clauses (clause_UniteHash clause) in
  let scripts :=
    if is_script clause then
      let data := string_drop 4 (string_drop 4 (Clause.Data clause)) in
      count_up scripts (script_UniteHash (default (ScriptData.mk 0 0 "") (decode_ScriptData data)))
    else scripts in
  (txs, clauses, scripts).
Definition expect_tx (e : expected) tx : expected :=
  let '(txs, clauses, scripts) := e in
  foldl expect_clause (count_up txs (tx_UniteHash tx), clauses, scripts) (Transaction.Clauses tx).

Definition check_clause (e : expected) (clause : Clause.t) : string + expected :=
  let '(txs, clauses, scripts) := e in
  let h := clause_UniteHash clause in
  match clauses !! h with
  | None => inl "proposed tx has clause not exist in local kblock"
  | Some _ =>
    let clauses := count_down clauses h in
    if is_script clause then
      let data := string_drop 4 (Clause.Data clause) in
      if negb (string_take 4 data =? ScriptPattern)%string then inl "Pattern mismatch"
      else
        match decode_ScriptData (string_drop 4 data) with
        | None => inl "Decode script message failed"
        | Some s =>
          let sh := script_UniteHash s in
          match scripts !! sh with
          | None => inl "proposed tx has script data not exist in local kblock"
          | Some _ => inr (txs, clauses, count_down scripts sh)
          end
        end
    else inr (txs, clauses, scripts)
  end.
Fixpoint check_clauses (e : expected) (clauses : list Clause.t) : string + expected :=
  match clauses with
  | [] => inr e
  | clause :: rest =>
    match check_clause e clause with inl err => inl err | inr e => check_clauses e rest end
  end.

(** A transaction without signer, against what the node built itself. *)
Definition check_kblock_tx (e : expected) tx : string + expected :=
  let '(txs, clauses, scripts) := e in
  let h := tx_UniteHash tx in
  match txs !! h with
  | None => inl "proposed tx don't exist in local kblock"
  | Some _ => check_clauses (count_down txs h, clauses, scripts) (Transaction.Clauses tx)
  end.

(** The part every transaction goes through. *)
Definition check_range (number : Z) tx : option string :=
  if negb (Transaction.ChainTag tx =? Tag) then Some "tx chain tag mismatch"
  else if number <? Transaction.RefNumber tx then Some "tx ref future block"
  else if Transaction.IsExpired tx number then Some "tx expired"
  else None.

Definition check_tx blk (forceValidate : bool) (e : expected) tx : outcome (string + expected) :=
  signer ← Signer tx;
  match signer with
  | inl _ => Ret (inl "tx signer unavailable")
  | inr signer =>
    invalid ← (if forceValidate then EthTxValidate tx else Ret None);
    match invalid with
    | Some err => Ret (inl err)
    | None =>
      let checked :=
        if IsZero signer then
          if negb (Block.IsKBlock blk) then inl "tx signer 0x00..00 can only exist in KBlocks"
          else if forceValidate then check_kblock_tx e tx else inr e
        else inr e in
      match checked with
      | inl err => Ret (inl err)
      | inr e =>
        match check_range (Block.Number blk) tx with
        | Some err => Ret (inl err)
        | None => Ret (inr e)
        end
      end
    end
  end.
Fixpoint check_txs blk (forceValidate : bool) (e : expected) (txs : list Transaction.t)
    : outcome (string + expected) :=
  match txs with
  | [] => Ret (inr e)
  | tx :: rest =>
    r ← check_tx blk forceValidate e tx;
    match r with inl err => Ret (inl err) | inr e => check_txs blk forceValidate e rest end
  end.

(** For a K-block the state of the best block is opened first. *)
Definition kblock_state blk : option string :=
  if Block.IsKBlock blk then
    match NewState (Reactor.bestStateRoot c) with inl err => Some err | inr _ => None end
  else None.

Definition validateBlockBody blk (forceValidate : bool) : outcome (option string) :=
  let header := Block.BlockHeader blk in
  if negb (Header.TxsRoot header =? txs_root (Block.Txs blk)) then Ret (Some "block txs root mismatch")
  else if negb (Block.Magic blk =? BlockMagicVersion1) then Ret (Some "block magic mismatch")
  else
  match kblock_state blk with
  | Some err => Ret (Some err)
  | None =>
    let local :=
      if Block.IsKBlock blk && forceValidate then default [] (Reactor.localKBlockTxs c) else [] in
    r ← check_txs blk forceValidate (foldl expect_tx (∅, ∅, ∅) local) (Block.Txs blk);
    match r with
    | inl err => Ret (Some err)
    | inr (txs, clauses, scripts) =>
      if bool_decide (map_Forall (fun _ v => v = 0) txs) then
        if bool_decide (map_Forall (fun _ v => 0 <= v) clauses) then
          if bool_decide (map_Forall (fun _ v => v = 0) scripts) then Ret None
          else Ret (Some "local kblock has more script data")
        else Ret (Some "local kblock has more clause")
      else Ret (Some "local kblock has more tx")
    end
  end.

(** ** Execution *)

Definition verify_dep (processed : gmap Bytes32 bool) (head : Bytes32) tx : option string :=
  match Transaction.DependsOn tx with
  | None => None
  | Some dep =>
    match findTx processed head dep with
    | inl err => Some err
    | inr None => Some "tx dep broken"
    | inr (Some true) => Some "tx dep reverted"
    | inr (Some false) => None
    end
  end.

Definition verify_tx blk (ctx : BlockContext.t) (rt : RT.t) (processed : gmap Bytes32 bool) tx (s : State.t)
    : outcome (string + (State.t * Bytes32 * Receipt.t)) :=
  let head := Block.ParentID blk in
  signer ← Signer tx;
  match signer with
  | inl _ => Ret (inl "tx signer unavailable")
  | inr signer =>
    if IsZero signer && negb (Block.IsKBlock blk) then Ret (inl "tx signer unavailable")
    else
      id ← ID tx;
      match findTx processed head id with
      | inl err => Ret (inl err)
      | inr (Some _) => Ret (inl "tx already exists")
      | inr None =>
        match verify_dep processed head tx with
        | Some err => Ret (inl err)
        | None =>
          '(s, r) ← ExecuteTransaction engine best_epoch ctx rt tx s;
          match r with
          | inl err => Ret (inl err)
          | inr receipt => Ret (inr (s, id, receipt))
          end
        end
      end
  end.

(** The state, the transactions processed, the gas and the receipts. *)
Fixpoint verify_txs blk (ctx : BlockContext.t) (rt : RT.t) (txs : list Transaction.t) (s : State.t)
    (processed : gmap Bytes32 bool) (gas : Z) (receipts : list Receipt.t)
    : outcome (string + (State.t * gmap Bytes32 bool * Z * list Receipt.t)) :=
  match txs with
  | [] => Ret (inr (s, processed, gas, receipts))
  | tx :: rest =>
    r ← verify_tx blk ctx rt processed tx s;
    match r with
    | inl err => Ret (inl err)
    | inr (s, id, receipt) =>
      verify_txs blk ctx rt rest s (<[id := Receipt.Reverted receipt]> processed)
        (u64 (gas + Receipt.GasUsed receipt)) (receipts ++ [receipt])
    end
  end.

Definition block_context blk : BlockContext.t :=
  let h := Block.BlockHeader blk in
  BlockContext.mk (Header.Beneficiary h)
    (match Header_Signer h with inr a => a | inl _ => ZeroAddress end)
    (Header.Number h) (Header.Timestamp h) (Header.GasLimit h) (Header.TotalScore h).

Definition VerifyBlock blk (s : State.t) (forceValidate : bool)
    : outcome (string + (State.t * list Receipt.t)) :=
  let header := Block.BlockHeader blk in
  let ctx := block_context blk in
  let rt := new_rt (Block.ParentID blk) s in
  let s := runtime_New ctx s in
  if forceValidate && Block.IsKBlock blk && negb (Reactor.VerifyNPowBlockPerEpoch c)
  then Ret (inl "NPowBlockPerEpoch err")
  else
    r ← verify_txs blk ctx rt (Block.Txs blk) s ∅ 0 [];
    match r with
    | inl err => Ret (inl err)
    | inr (s, _, totalGasUsed, receipts) =>
      if negb (Header.GasUsed header =? totalGasUsed) then Ret (inl "block gas used mismatch")
      else if negb (Header.ReceiptsRoot header =? receipts_root receipts)
      then Ret (inl "block receipts root mismatch")
      else
        match seeker_Err (Block.ParentID blk) (Header.Number header) (Block.Txs blk) with
        | Some err => Ret (inl err)
        | None =>
          match stage_Hash s with
          | inl err => Ret (inl err)
          | inr stateRoot =>
            if negb (Header.StateRoot header =? stateRoot) then Ret (inl "block state root mismatch")
            else Ret (inr (s, receipts))
          end
        end
    end.

(** The state is that of the parent. *)
Definition Validate (s : State.t) blk (parent : Block.t) (nowTimestamp : Z) (forceValidate : bool)
    : outcome (string + (State.t * list Receipt.t)) :=
  epoch ← Block.GetBlockEpoch blk;
  match validateBlockHeader (Block.BlockHeader blk) (Block.BlockHeader parent) nowTimestamp
          forceValidate epoch with
  | Some err => Ret (inl err)
  | None =>
    match validateProposer (Block.BlockHeader blk) with
    | Some err => Ret (inl err)
    | None =>
      body ← validateBlockBody blk forceValidate;
      match body with
      | Some err => Ret (inl err)
      | None => VerifyBlock blk s forceValidate
      end
    end
  end.

(** [known] says whether the chain has a header of that identifier. *)
Definition ProcessProposedBlock (known : Bytes32 -> string + bool) (parent : option Block.t) blk
    (nowTimestamp : Z) : outcome (string + (State.t * list Receipt.t)) :=
  match known (Block.ID blk) with
  | inl err => Ret (inl err)
  | inr true => Ret (inl "block already in the chain")
  | inr false =>
    match parent with
    | None => Ret (inl "parent header is missing")
    | Some parent =>
      match NewState (Header.StateRoot (Block.BlockHeader parent)) with
      | inl err => Ret (inl err)
      | inr s => Validate s blk parent nowTimestamp true
      end
    end
  end.

(** A block beyond the best one is processed again even when it is known;
    [block_of] reads the parent from the chain. *)
Definition ProcessSyncedBlock (known : Bytes32 -> string + bool)
    (block_of : Bytes32 -> string + option Block.t) blk (nowTimestamp : Z)
    : outcome (string + (State.t * list Receipt.t)) :=
  match known (Block.ID blk) with
  | inl err => Ret (inl err)
  | inr k =>
    if k && (Block.Number blk <=? Reactor.bestNumber c) then Ret (inl "block already in the chain")
    else
      match block_of (Block.ParentID blk) with
      | inl err => Ret (inl err)
      | inr None => Ret (inl "parent block is missing")
      | inr (Some parent) =>
        match NewState (Header.StateRoot (Block.BlockHeader parent)) with
        | inl err => Ret (inl err)
        | inr s => Validate s blk parent nowTimestamp false
        end
      end
  end.
End Validate.
