(* ===== verification/Chain.v ===== *)
(** * The chain

    [chain/chain.go], [chain/ancestor_trie.go], [chain/persist.go] and
    [chain/fork.go]: blocks, receipts and the places of transactions in the
    key-value store, the index from numbers to identifiers, the best block, and
    forks.  The store is a record with one map per key prefix; that it fails
    only with [not found], and the encoding of its values, are left out, and so
    are the caches in front of it. *)

From S2P Require Import Prelude Text KeyedList ChainParam BitArray Transaction Block Runtime.
From stdpp Require Import gmap.
Open Scope Z_scope.

(** ** The store *)

Module TxMeta.
Record t := mk { BlockID : Bytes32; Index : Z; Reverted : bool }.
#[global] Instance eq_dec : EqDecision t.
Proof. solve_decision. Defined.
End TxMeta.

(** One field per prefix of [chain/persist.go]; [plain] are the keys of 32 bytes
    that the state tries put in the same store. *)
Module Store.
Record t := mk {
  blockRaw : gmap Bytes32 Block.t;
  txMeta : gmap Bytes32 (list TxMeta.t);
  blockReceipts : gmap Bytes32 (list Receipt.t);
  indexTrie : gmap Bytes32 (gmap Z Bytes32);
  bestBlockID : option Bytes32;
  bestQC : option QuorumCert.t;
  blockHash : gmap Z Bytes32;
  bestBeforeFlattern : option Bytes32;
  pruneIndexHead : option Z;
  pruneHead : option Z;
  stateSnapshotNum : option Z;
  bestPowNonce : option Z;
  plain : gset Bytes32
}.
#[global] Instance eta : Settable t := fun s =>
  mk (blockRaw s) (txMeta s) (blockReceipts s) (indexTrie s) (bestBlockID s) (bestQC s) (blockHash s)
     (bestBeforeFlattern s) (pruneIndexHead s) (pruneHead s) (stateSnapshotNum s) (bestPowNonce s) (plain s).

Definition empty : t := mk ∅ ∅ ∅ ∅ None None ∅ None None None None None ∅.
End Store.

Module Fork.
Record t := mk { Ancestor : Header.t; Trunk : list Header.t; Branch : list Header.t }.
End Fork.

Definition ErrNotFound : string := "not found".
Definition ErrBlockExist : string := "block already exists".
Definition kv_notFound : string := "leveldb: not found".
Definition IsNotFound (err : string) : bool := (err =? ErrNotFound)%string || (err =? kv_notFound)%string.

Definition lookup_or {A} (o : option A) : string + A :=
  match o with Some a => inr a | None => inl kv_notFound end.

Definition GenesisNonce : Z := 1001.

Module Chain.
Record t := mk {
  kv : Store.t;
  genesisBlock : Block.t;
  bestBlock : Block.t;
  bestQC : QuorumCert.t;
  bestPowNonce : Z;
  bestBlockBeforeIndexFlattern : Block.t
}.
#[global] Instance eta : Settable t := fun c =>
  mk (kv c) (genesisBlock c) (bestBlock c) (bestQC c) (bestPowNonce c) (bestBlockBeforeIndexFlattern c).

Section Chain.
Context `{BlockChain} `{TxCrypto} `{EthTypes} `{BlockCrypto}.
Implicit Types (c : t) (s : Store.t) (id : Bytes32).

(** ** Reading *)

(** [ancestorTrie.GetAncestor]: the flat index does not look at the descendant;
    the old trie of a block is asked when the index has no entry.  A number that
    is not in the trie gives the zero identifier. *)
Definition GetAncestor s (descendantID : Bytes32) (ancestorNum : Z) : string + Bytes32 :=
  match Store.blockHash s !! ancestorNum with
  | Some id => inr id
  | None =>
    if Number descendantID <? ancestorNum then inl ErrNotFound
    else if ancestorNum =? Number descendantID then inr descendantID
    else
      match Store.indexTrie s !! descendantID with
      | None => inl "load index root in getAncestor: leveldb: not found"
      | Some tr => inr (default 0 (tr !! ancestorNum))
      end
  end.

(** The descendant the chain asks with is the best block at the time of the
    change of the index. *)
Definition ancestor c (num : Z) : string + Bytes32 :=
  GetAncestor (kv c) (Block.ID (bestBlockBeforeIndexFlattern c)) num.

Definition getBlock c id : string + Block.t := lookup_or (Store.blockRaw (kv c) !! id).
Definition getBlockHeader c id : string + Header.t :=
  match getBlock c id with inl err => inl err | inr b => inr (Block.BlockHeader b) end.
Definition getBlockReceipts c id : string + list Receipt.t :=
  lookup_or (Store.blockReceipts (kv c) !! id).

Definition GetTrunkBlockID c (num : Z) : string + Bytes32 := ancestor c num.
Definition GetAncestorBlockID c (descendantID : Bytes32) (num : Z) : string + Bytes32 := ancestor c num.
Definition GetTrunkBlockHeader c (num : Z) : string + Header.t :=
  match ancestor c num with inl err => inl err | inr id => getBlockHeader c id end.
Definition GetTrunkBlock c (num : Z) : string + Block.t :=
  match ancestor c num with inl err => inl err | inr id => getBlock c id end.
Definition GetTrunkBlockRaw c (num : Z) : string + Block.t :=
  if Block.Number (bestBlock c) <? num then inl "no trunk block beyond best" else GetTrunkBlock c num.

Definition BestKBlock c : string + Block.t :=
  if Block.IsKBlock (bestBlock c) then inr (bestBlock c)
  else GetTrunkBlock c (Header.LastKBlockHeight (Block.BlockHeader (bestBlock c))).

Definition IsBlockFinalized c id : bool := Number id <=? Block.Number (bestBlock c).

(** The key has no prefix. *)
Definition hasTransactionMeta c (txID : Bytes32) : bool := bool_decide (txID ∈ Store.plain (kv c)).

(** The first place that is on the trunk, and not above the head. *)
Fixpoint find_meta c (headNum : Z) (metas : list TxMeta.t) : string + TxMeta.t :=
  match metas with
  | [] => inl ErrNotFound
  | m :: metas =>
    if headNum <? Number (TxMeta.BlockID m) then find_meta c headNum metas
    else
      match ancestor c (Number (TxMeta.BlockID m)) with
      | inl err => if IsNotFound err then find_meta c headNum metas else inl err
      | inr id => if id =? TxMeta.BlockID m then inr m else find_meta c headNum metas
      end
  end.
Definition getTransactionMeta c (txID headBlockID : Bytes32) : string + TxMeta.t :=
  match Store.txMeta (kv c) !! txID with
  | None => inl kv_notFound
  | Some metas => find_meta c (Number headBlockID) metas
  end.
Definition GetTrunkTransactionMeta c (txID : Bytes32) : string + TxMeta.t :=
  getTransactionMeta c txID (Block.ID (bestBlock c)).

Definition getTransaction c (blockID : Bytes32) (index : Z) : string + Transaction.t :=
  match getBlock c blockID with
  | inl err => inl err
  | inr b =>
    if Z.of_nat (length (Block.Txs b)) <=? index then inl "tx index out of range"
    else match Block.Txs b !! Z.to_nat index with Some tx => inr tx | None => inl "tx index out of range" end
  end.
Definition GetTransactionReceipt c (blockID : Bytes32) (index : Z) : string + Receipt.t :=
  match getBlockReceipts c blockID with
  | inl err => inl err
  | inr rs =>
    if Z.of_nat (length rs) <=? index then inl "receipt index out of range"
    else match rs !! Z.to_nat index with Some r => inr r | None => inl "receipt index out of range" end
  end.
Definition GetTrunkTransaction c (txID : Bytes32) : string + (Transaction.t * TxMeta.t) :=
  match GetTrunkTransactionMeta c txID with
  | inl err => inl err
  | inr m =>
    match getTransaction c (TxMeta.BlockID m) (TxMeta.Index m) with
    | inl err => inl err
    | inr tx => inr (tx, m)
    end
  end.

(** The epoch of the certificate in the best block, for a number behind it. *)
Definition FindEpochOnBlock c (num : Z) : outcome (string + Z) :=
  qc ← deref (Block.QC (bestBlock c));
  if Block.Number (bestBlock c) <=? num then Ret (inr (QuorumCert.EpochID qc))
  else
    match GetTrunkBlock c num with
    | inl err => Ret (inl err)
    | inr b => epoch ← Block.GetBlockEpoch b; Ret (inr epoch)
    end.

(** ** Forks *)

(** A higher score, or the smaller identifier of an equal score. *)
Definition isTrunk c (header : Header.t) : bool :=
  let best := Block.BlockHeader (bestBlock c) in
  if Header.TotalScore header <? Header.TotalScore best then false
  else if Header.TotalScore best <? Header.TotalScore header then true
  else Header_ID header <? Header_ID best.

(** The loop of [buildFork]; the numbers of the two headers bound its rounds,
    see [buildFork_exact]. *)
Fixpoint fork_loop (fuel : nat) c (b1 b2 : Header.t) (trunk branch : list Header.t)
    : option (string + Fork.t) :=
  match fuel with
  | O => None
  | S fuel =>
    if Header.Number b2 <? Header.Number b1 then
      match getBlockHeader c (Header.ParentID b1) with
      | inl err => Some (inl err)
      | inr b1' => fork_loop fuel c b1' b2 (trunk ++ [b1]) branch
      end
    else if Header.Number b1 <? Header.Number b2 then
      match getBlockHeader c (Header.ParentID b2) with
      | inl err => Some (inl err)
      | inr b2' => fork_loop fuel c b1 b2' trunk (branch ++ [b2])
      end
    else if Header_ID b1 =? Header_ID b2 then Some (inr (Fork.mk b1 (reverse trunk) (reverse branch)))
    else
      match getBlockHeader c (Header.ParentID b1), getBlockHeader c (Header.ParentID b2) with
      | inl err, _ => Some (inl err)
      | _, inl err => Some (inl err)
      | inr b1', inr b2' => fork_loop fuel c b1' b2' (trunk ++ [b1]) (branch ++ [b2])
      end
  end.
Definition buildFork c (trunkHead branchHead : Header.t) : option (string + Fork.t) :=
  fork_loop (S (Z.to_nat (Header.Number trunkHead + Header.Number branchHead))) c trunkHead branchHead [] [].

(** ** Adding a block *)

(** Why a block is not added again: it is there, unless it is the same block
    and not finalized. *)
Definition known_block c (newBlock : Block.t) : option string :=
  match getBlockHeader c (Block.ID newBlock) with
  | inl err => if IsNotFound err then None else Some err
  | inr header =>
    let newHeader := Block.BlockHeader newBlock in
    if (Header.Number header =? Header.Number newHeader)
       && (Header.ParentID header =? Header.ParentID newHeader)
       && (Header.Signature header =? Header.Signature newHeader)%string
       && (Header.ReceiptsRoot header =? Header.ReceiptsRoot newHeader)
       && (Header.Timestamp header =? Header.Timestamp newHeader)
       && IsBlockFinalized c (Header.ParentID header)
    then if IsBlockFinalized c (Header_ID newHeader) then Some ErrBlockExist else None
    else Some ErrBlockExist
  end.

(** The places of the transactions, each behind those in the store: two of one
    identifier in the block leave the later one. *)
Fixpoint save_metas s (blockID : Bytes32) (i : Z) (txs : list Transaction.t) (receipts : list Receipt.t)
    (metas : gmap Bytes32 (list TxMeta.t)) : outcome (gmap Bytes32 (list TxMeta.t)) :=
  match txs with
  | [] => Ret metas
  | tx :: txs =>
    txID ← Transaction.ID tx;
    r ← deref (receipts !! Z.to_nat i);
    let meta := default [] (Store.txMeta s !! txID) ++ [TxMeta.mk blockID i (Receipt.Reverted r)] in
    save_metas s blockID (i + 1) txs receipts (<[txID := meta]> metas)
  end.

(** The index is written at once, all the rest in a batch that an early return
    drops; the best block in memory is set before the check of the certificate. *)
Definition AddBlock (newBlock : Block.t) (escortQC : option QuorumCert.t) (receipts : list Receipt.t) c
    : outcome (t * (string + Fork.t)) :=
  let newBlockID := Block.ID newBlock in
  let newHeader := Block.BlockHeader newBlock in
  match known_block c newBlock with
  | Some err => Ret (c, inl err)
  | None =>
  match getBlockHeader c (Block.ParentID newBlock) with
  | inl err => Ret (c, inl (if IsNotFound err then "parent missing" else err))
  | inr parent =>
  let c := c <| kv ::= fun s => s <| Store.blockHash ::= <[Block.Number newBlock := newBlockID]> |> |> in
  metas ← save_metas (kv c) newBlockID 0 (Block.Txs newBlock) receipts (Store.txMeta (kv c));
  let batch := fun s => s
    <| Store.blockRaw ::= <[newBlockID := newBlock]> |>
    <| Store.blockReceipts ::= <[newBlockID := receipts]> |>
    <| Store.txMeta := metas |> in
  if isTrunk c newHeader then
    fork ← deref (buildFork c newHeader (Block.BlockHeader (bestBlock c)));
    match fork with
    | inl err => Ret (c, inl err)
    | inr fork =>
      let c := c <| bestBlock := newBlock |> in
      match escortQC with
      | None => Ret (c, inl "escort QC is nil")
      | Some qc =>
        let c := c <| bestQC := qc |> in
        let batch := fun s => batch s <| Store.bestBlockID := Some newBlockID |>
                                      <| Store.bestQC := Some qc |> in
        if Block.IsKBlock newBlock then
          Ret (c <| bestPowNonce := Block.Nonce newBlock |>
                 <| kv ::= fun s => batch s <| Store.bestPowNonce := Some (Block.Nonce newBlock) |> |>, inr fork)
        else Ret (c <| kv ::= batch |>, inr fork)
      end
    end
  else Ret (c <| kv ::= batch |>, inr (Fork.mk parent [] [newHeader]))
  end
  end.

(** ** Removing blocks *)

(** Only an error other than [not found] leads to the removal. *)
Definition RemoveBlock (blockID : Bytes32) c : t * option string :=
  match getBlockHeader c blockID with
  | inl err =>
    if IsNotFound err then (c, Some err)
    else if Number blockID <=? Block.Number (bestBlock c) then (c, Some "could not remove finalized block")
    else (c <| kv ::= fun s => s <| Store.blockRaw ::= base.delete blockID |> |>, None)
  | inr _ => (c, None)
  end.

(** The deletions are added to the batch of the caller; the index entry goes
    whether or not the second test asks for it. *)
Definition PruneBlock (batch : Store.t -> Store.t) (blockID : Bytes32) c
    : outcome ((Store.t -> Store.t) * option string) :=
  match getBlock c blockID with
  | inl err => Ret (batch, Some err)
  | inr b =>
    if Block.Number b =? Block.Number (bestBlockBeforeIndexFlattern c) then Ret (batch, None)
    else
      let batch := fun s => batch s <| Store.blockRaw ::= base.delete blockID |> in
      batch ← mfold (fun (batch : Store.t -> Store.t) tx =>
        txID ← Transaction.ID tx; Ret (fun s => batch s <| Store.txMeta ::= base.delete txID |>))
        batch (Block.Txs b);
      let batch := fun s => batch s
        <| Store.blockReceipts ::= base.delete (Block.ID b) |>
        <| Store.blockHash ::= base.delete (Number blockID) |> in
      match Store.pruneIndexHead (kv c) with
      | None => Ret (batch, Some kv_notFound)
      | Some indexHead =>
        if (Block.Number b <=? indexHead)
           || (Block.Number (bestBlockBeforeIndexFlattern c) <? Block.Number b)
        then Ret (fun s => batch s <| Store.blockHash ::= base.delete (Block.Number b) |>, None)
        else Ret (batch, None)
      end
  end.

(** ** Opening a chain *)

Definition GenesisEscortQC (b : Block.t) : QuorumCert.t :=
  QuorumCert.mk 0 0 0 "" (Block.VotingHash b) "".

(** The walk from a best block that is an S-block down to one that is not, and
    the block above it; the numbers go down. *)
Fixpoint skip_sblocks (fuel : nat) s (best last : Block.t) : option (string + (Block.t * Block.t)) :=
  match fuel with
  | O => None
  | S fuel =>
    if Block.IsSBlock best then
      match Store.blockRaw s !! Block.ParentID best with
      | None => Some (inl kv_notFound)
      | Some parent => skip_sblocks fuel s parent best
      end
    else Some (inr (best, last))
  end.

(** The best block of a store that has one, with the repairs at the start. *)
Definition load_best s (genesis : Block.t) (bestID : Bytes32) : outcome (string + (Store.t * Block.t)) :=
  match GetAncestor s bestID 0 with
  | inl err => Ret (inl err)
  | inr existGenesisID =>
    if negb (existGenesisID =? Block.ID genesis) then Ret (inl "genesis mismatch")
    else
      match Store.blockRaw s !! bestID with
      | None => Ret (inl kv_notFound)
      | Some best =>
        let '(s, best) :=
          if (Block.Number best =? 0) && bool_decide (Block.QC best = None) then
            let best := best <| Block.QC := Some QuorumCert.GenesisQC |> in
            (s <| Store.bestQC := Some (GenesisEscortQC best) |>, best)
          else (s, best) in
        if Block.IsSBlock best then
          r ← deref (skip_sblocks (S (S (Z.to_nat (Block.Number best)))) s best best);
          match r with
          | inl err => Ret (inl err)
          | inr (best, last) =>
            qc ← deref (Block.QC last);
            Ret (inr (s <| Store.bestQC := Some qc |> <| Store.bestBlockID := Some (Block.ID best) |>, best))
          end
        else Ret (inr (s, best))
      end
  end.

(** [New].  The block at the height of the best certificate becomes the best one
    when that is lower, but it is saved as the best block before the change of
    the index. *)
Definition New s (genesis : Block.t) : outcome (Store.t * (string + t)) :=
  if negb (Block.Number genesis =? 0) then Ret (s, inl "genesis number != 0")
  else if negb (length (Block.Txs genesis) =? 0)%nat
  then Ret (s, inl "genesis block should not have transactions")
  else
    let genesisID := Block.ID genesis in
    let powNonce := default GenesisNonce (Store.bestPowNonce s) in
    r ← match Store.bestBlockID s with
        | None =>
          Ret (inr (s <| Store.blockHash ::= <[0 := genesisID]> |>
                      <| Store.blockRaw ::= <[genesisID := genesis]> |>
                      <| Store.bestBlockID := Some genesisID |>, genesis))
        | Some bestID => load_best s genesis bestID
        end;
    match r with
    | inl err => Ret (s, inl err)
    | inr (s, best) =>
      let '(s, flat) :=
        match Store.bestBeforeFlattern s with
        | Some id => (s, Store.blockRaw s !! id)
        | None => (s <| Store.bestBeforeFlattern := Some (Block.ID best) |>, Some best)
        end in
      flat ← deref flat;
      let qc := default (GenesisEscortQC genesis) (Store.bestQC s) in
      let '(s, best) :=
        if QuorumCert.QCHeight qc <? Block.Number best then
          match GetAncestor s (Block.ID best) (QuorumCert.QCHeight qc) with
          | inl _ => (s, best)
          | inr id =>
            match Store.blockRaw s !! id with
            | None => (s, best)
            | Some b => (s <| Store.bestBeforeFlattern := Some id |>, b)
            end
          end
        else (s, best) in
      Ret (s, inr (mk s genesis best qc powNonce flat))
    end.

(** ** Reading block by block *)

Definition nextBlock c (num : Z) : string + Block.t := GetTrunkBlock c (u32 (num + 1)).

(** [NewBlockReader]: the blocks from the position down to the trunk are
    obsolete, then comes the next one of the trunk; the result has the new
    position.  The numbers of the positions go down. *)
Fixpoint read_loop (fuel : nat) c (position : Bytes32) (blocks : list (Block.t * bool))
    : option (string + (Bytes32 * list (Block.t * bool))) :=
  match fuel with
  | O => None
  | S fuel =>
    match getBlock c position with
    | inl err => Some (inl err)
    | inr b =>
      let obsolete := fun _ : unit => read_loop fuel c (Block.ParentID b) (blocks ++ [(b, true)]) in
      if Number (Block.ID (bestBlock c)) <? Number position then obsolete tt
      else
        match ancestor c (Number position) with
        | inl err => Some (inl err)
        | inr id =>
          if position =? id then
            match nextBlock c (Number position) with
            | inl err => Some (inl err)
            | inr next => Some (inr (Block.ID next, blocks ++ [(next, false)]))
            end
          else obsolete tt
        end
    end
  end.
Definition Read c (position : Bytes32) : option (string + (Bytes32 * list (Block.t * bool))) :=
  if Block.ID (bestBlock c) =? position then Some (inr (position, []))
  else read_loop (S (S (Z.to_nat (Number position)))) c position [].
End Chain.
End Chain.
