(* ===== verification/Committee.v ===== *)
(** * The committee

    [consensus/reactor.go], [consensus/reactor_relay.go],
    [consensus/reactor_assist.go] and [consensus/reactor_bootstrap_committee.go]:
    the delegates of an epoch, the committee drawn from them by the nonce of the
    last K-block, the proposer of a round, the verification of certificates with
    the committees a node knows, the tree along which proposals are relayed, and
    the first checks of a message.  Keys and hashes are the class [NodeCrypto];
    the IP addresses that messages are sent to are texts. *)

From S2P Require Import Prelude Text KeyedList ChainParam BitArray StakingTypes Transaction Block State StakingUtils Runtime Chain.
From stdpp Require Import gmap pretty.
Open Scope Z_scope.

(** The keys of the bootstrap committee. *)
Definition m01ComboPubkey : string :=
  "BEdvoJsZLZw2mmKPkZIpLQ3B9/L0warwsmmS1dNHSXfDP0vBx6JSYsmuWwj/3so5j/mn9OfTJMMEMO/LtRmSPOo=:::LWilIBiprQWu9CfOxUGME9l09994UozRan3iterG/2zqtUzE6nw2Pv8vpAFJSQTz4fbq2hd5dHrQIjWX574ftAA=".
Definition m02ComboPubkey : string :=
  "BEaaRrf4wJZhtGlgmiffJGxn0dcR7mIbS5qMcDBvbfDs/njjV4jdSvibcQdE6agklgenUnMTlA9/6Zd3it1HxWI=:::VB7HSRio7qM9ikpBsDZw4UKRVkxH1jSV6+BE9tq1i+LlIdH/iP3Gf7kwSBTgKxStlglSA9CMNYp4M+XeNXb1jAE=".
Definition m03ComboPubkey : string :=
  "BEZO/q3aKFSIXgIh50FKN8zlNMk8CKdiYeq+rNLnDIFTpM/LYqAguaDuNzxHTgFXiB/imQLj9ZlFQMK5j/Cj9PE=:::Ptux3rGIa1Isfw7UVy5+LkFzYI4FFV33ssqmO6qTD8ZeocZybNJwKPLIpgCurN2tjQDwGP1YKt1XZ4GLMl1OrwE=".
Definition m04ComboPubkey : string :=
  "BJmMSFBVnr0JSTo6MhJr5TWlVaKp88tIZhwsn83hnwwAa12WKJrgJLYgmXs3cudZoENDhqpVWLTo9mLogc5fZv4=:::Io+O9rtIHMRB+2b0KAnARYTe7pD+r3U3DrVS9dPEpHgKcLXSpdnkkx8pbfdBCz68s+stkWcajRCEHN0O1tbC4gE=".
Definition m05ComboPubkey : string :=
  "BBzIyiEmHlh+k9qbN/jQWmW7CfFzjmnNJPtSVCpPobH+0k/2zgtPic4UcHA7WiOrdWR6aAUML/eVvPH/p4LR2xo=:::PvuNxTb5AFHAQmZHhfJv3lS0i1dpIKNVuyUuaJSzFCtkG/Zhd9N0UAhe9I211GQL09ielD1MHAAvdvqUq/HxngA=".
Definition m06ComboPubkey : string :=
  "BJbdlkf5FYkKcBArsZoh2HiG9bO7e2Wpc5pPQ2vcsX5KTJr+gzUbCyvrThVXaGKWS2HUpXdqZ5kfPO2uAWR6X1I=:::BC0M7dmHdV3M0eSEQz3vli+n3FkS8mPPSz/Y7FA2r/ugqmqf12c4YLNVCdtLQAfmmfzQhXKQTqay+o3rNMf3AQE=".
Definition m07ComboPubkey : string :=
  "BBJ16RGbjlyunmWC8RcD5P7CGMH0dh7T3whhV3XNHaCA3kcbzGYeuc4E7T6W5xJO96ly3eEp5bhq9qdm/5Zpb4M=:::mFHRB+OK/l8ye2rwOZXO9Dnlu4rnPq6reaygdJ5dBiOkMYHSLlJ0A+bFhzabk+TB8NKGx617d5NZ69LS/J3qdgE=".
Definition m08ComboPubkey : string :=
  "BPO/wh3qI7oxiNZFkp7hNvL0NIPtQTzONkXq/oCIIYKmB3/FzRK7b2Z7kI/wnfeeyEDKbjfMicH1kbfxJRwMNx8=:::caxrbfsN8mxPYlNi9czhsA9TSOLt0Xp/npCmcfh/27fZcJgTYaQ4fTnPY4dEPReWJnvoDBzaowOZLRURaj1wbgA=".
Definition m09ComboPubkey : string :=
  "BJQkmBX6K24DPM920sK5CxRFEEzfGA0wIzNR/bTUpXBEp9AkNEArZJ/eMPBX7E/kcPvrv+VpESLH+ECs3wuUOdQ=:::OeyP//h+fig22Sh6uFL3ktVtOTyyPq2RAYbNmXCgRIRpcliJh2X6zOExIaZZbhv0SrDYPbSxEbhjW4mrOoX3PQA=".
Definition m10ComboPubkey : string :=
  "BF+pjkGM9bDnjjRIEt+3W82sMj5vfcOm5EVTKQnUUtpP5DZS/ranmGy5/pPmz3/CxvtjcGiCuRNdem78kNg85yM=:::jMotv64MoMcQZLniGahXEWsZsAK18ycvZ9t1rxFOqQuwfGchEcqrWCS0YR9hJrkPd2Ny7kQETGXsTDSNapaZJwE=".
Definition m11ComboPubkey : string :=
  "BOwo7bnxahUTL4DeSGo4ioZqocs1LjY7h9drAVP/HVHmXBD3WVDJrUIhzcIR3XpyzShw9RWxS0Oi788mEisVGSE=:::ZbPc7iPjBmHapOKNusHK8ux8791J65xQrgFTUGpEpqOWh2cF4bstR2q6QO5hi/SykqeVvw6pqiI22IIlP50EOwE=".

(** What the reactor takes from its dependencies: the decoding of a BLS key, the
    Keccak hash of a key and a nonce that orders the committee, and the hash
    under which a certificate is cached. *)
Class NodeCrypto `{BlsSystem} : Type := {
  PubKeyFromBytes : string -> option BlsPubKey;
  sort_keccak : string -> Z -> Bytes32;
  qc_sha256 : QuorumCert.t -> Bytes32;
  (** the ECDSA keys of the committee that a block names *)
  CommitteeInfo : Block.t -> list string
}.

(** [types.Delegate] and [types.Validator], as far as consensus uses them. *)
Module ConsensusDelegate.
Record t `{BlsSystem} := mk {
  Name : string;
  Address_ : Address;
  PubKey : string;
  BlsPubKey_ : BlsPubKey;
  VotingPower : Z;
  IP : string;
  Port : Z;
  comboPubKeyStr : string
}.
#[global] Arguments mk {_}.
End ConsensusDelegate.

Module Validator.
Record t `{BlsSystem} := mk {
  Name : string;
  Address_ : Address;
  PubKey : string;
  PubKeyBytes : string;
  BlsPubKey_ : BlsPubKey;
  VotingPower : Z;
  IP : string;
  Port : Z;
  SortKey : Bytes32
}.
#[global] Arguments mk {_}.
#[global] Instance eta `{BlsSystem} : Settable t := fun v =>
  mk (Name v) (Address_ v) (PubKey v) (PubKeyBytes v) (BlsPubKey_ v) (VotingPower v) (IP v) (Port v)
     (SortKey v).
End Validator.

Inductive delegate_source := fromDelegatesFile | fromStaking.
#[global] Instance delegate_source_eq_dec : EqDecision delegate_source.
Proof. solve_decision. Defined.

Module ReactorConfig.
Record t `{BlsSystem} := mk {
  InitCfgdDelegates : bool;
  EpochMBlockCount : Z;
  MinCommitteeSize : Z;
  MaxCommitteeSize : Z;
  MaxDelegateSize : Z;
  InitDelegates : list ConsensusDelegate.t
}.
#[global] Arguments mk {_}.
#[global] Instance eta `{BlsSystem} : Settable t := fun c =>
  mk (InitCfgdDelegates c) (EpochMBlockCount c) (MinCommitteeSize c) (MaxCommitteeSize c) (MaxDelegateSize c)
     (InitDelegates c).
End ReactorConfig.

(** The reactor of a node; [validQCs] is the cache of certificates. *)
Module Node.
Record t `{BlsSystem} := mk {
  config : ReactorConfig.t;
  myPubKey : string;
  myComboPubKey : string;
  committeeSize : Z;
  curDelegates : list ConsensusDelegate.t;
  committee : list Validator.t;
  lastCommittee : list Validator.t;
  hardCommittee : list Validator.t;
  bootstrapCommittee11 : list Validator.t;
  bootstrapCommittee5 : list Validator.t;
  committeeIndex : Z;
  inCommittee : bool;
  delegateSource : delegate_source;
  lastKBlockHeight : Z;
  curNonce : Z;
  curEpoch : Z;
  validQCs : gset Bytes32
}.
#[global] Arguments mk {_}.
#[global] Instance eta `{BlsSystem} : Settable t := fun r =>
  mk (config r) (myPubKey r) (myComboPubKey r) (committeeSize r) (curDelegates r) (committee r)
     (lastCommittee r) (hardCommittee r) (bootstrapCommittee11 r) (bootstrapCommittee5 r) (committeeIndex r)
     (inCommittee r) (delegateSource r) (lastKBlockHeight r) (curNonce r) (curEpoch r) (validQCs r).
End Node.

(** ** Relaying *)

(** [math.Ceil] of a quotient. *)
Definition ceil_div (a b : Z) : Z := (a + b - 1) / b.

(** The members that the one at [myIndex] forwards a proposal to, with the
    proposer at 0. *)
Definition CalcRelayPeers (myIndex size : Z) : list Z :=
  if size <? myIndex then []
  else if size <=? 8 then (fun i => (myIndex + i) mod size) <$> seqZ 1 size
  else
    let limit1 := ceil_div size 8 * 2 in
    let limit2 := limit1 + ceil_div size 4 * 4 in
    if myIndex <? limit1 then
      (fun i => (myIndex * 8 + i) mod size) <$> seqZ 1 8
    else if myIndex <? limit2 then
      (fun i => (8 * limit1 + (myIndex - limit1) * 4 + i) mod size) <$> seqZ 1 4
    else
      (fun i => (8 * limit1 + (limit2 - limit1) * 4 + (myIndex - limit2) * 2 + i) mod size) <$> seqZ 1 2.

(** The indexes in the committee, turned so that the proposer of the round
    comes first. *)
Definition relay_indexes (committeeIndex size round : Z) : list Z :=
  if size =? 0 then []
  else
    let rr := u32 round mod size in
    let myIndex := if rr <=? committeeIndex then committeeIndex - rr else committeeIndex + size - rr in
    (fun i => let index := i + rr in if size <=? index then index mod size else index)
      <$> CalcRelayPeers myIndex size.

(** ** Delegates and committees *)

Section Reactor.
Context `{StakingCodec} `{BlockChain} `{TxCrypto} `{EthTypes} `{BlockCrypto} `{BlsSystem} `{!NodeCrypto}.
(** The state at a root. *)
Variable NewState : Bytes32 -> string + State.t.
Implicit Types (r : Node.t) (c : Chain.t) (delegates : list ConsensusDelegate.t).

(** [types.BlsCommon.SplitPubKey]: every failure is a panic. *)
Definition SplitPubKey (comboPubKey : string) : outcome (string * BlsPubKey) :=
  let split := Split comboPubKey ":::" in
  first ← deref (split !! 0%nat);
  pubKeyBytes ← deref (b64_decode first);
  if UnmarshalPubkey pubKeyBytes then
    second ← deref (split !! 1%nat);
    blsPubBytes ← deref (b64_decode second);
    blsPub ← deref (PubKeyFromBytes blsPubBytes);
    Ret (pubKeyBytes, blsPub)
  else Panic.

(** The keys of the two bootstrap committees; [types.NewValidator] leaves the
    bytes of the key, the address and the sort key empty. *)
Fixpoint bootstrap_committee (prefix : string) (i : Z) (keys : list string) : outcome (list Validator.t) :=
  match keys with
  | [] => Ret []
  | key :: keys =>
    '(pubkey, blsPubkey) ← SplitPubKey key;
    rest ← bootstrap_committee prefix (i + 1) keys;
    Ret (Validator.mk (prefix +:+ pretty i) 0 pubkey "" blsPubkey 0 "" 0 0 :: rest)
  end.
Definition bootstrapCommitteeSize11 : outcome (list Validator.t) :=
  bootstrap_committee "m0" 1
    [m01ComboPubkey; m02ComboPubkey; m03ComboPubkey; m04ComboPubkey; m05ComboPubkey; m06ComboPubkey;
     m07ComboPubkey; m08ComboPubkey; m09ComboPubkey; m10ComboPubkey; m11ComboPubkey].
Definition bootstrapCommitteeSize5 : outcome (list Validator.t) :=
  bootstrap_committee "m" 1
    [m01ComboPubkey; m02ComboPubkey; m03ComboPubkey; m04ComboPubkey; m05ComboPubkey].

(** [getDelegatesFromStaking]: the delegates in the state of a block, the zero
    root when there is none.  The voting power is in units of [1e12]. *)
Definition of_staking (s : Delegate.t) : outcome ConsensusDelegate.t :=
  '(pubKey, blsPub) ← SplitPubKey (Delegate.PubKey s);
  Ret (ConsensusDelegate.mk (Delegate.Name s) (Delegate.Address_ s) pubKey blsPub
         (i64 (Delegate.VotingPower s / 10 ^ 12)) (Delegate.IPAddr s) (Delegate.Port s)
         (Delegate.PubKey s)).
Fixpoint all_of_staking (ds : list Delegate.t) : outcome (list ConsensusDelegate.t) :=
  match ds with
  | [] => Ret []
  | d :: ds => d ← of_staking d; rest ← all_of_staking ds; Ret (d :: rest)
  end.
Definition getDelegatesFromStaking (revision : option Block.t) : outcome (string + list ConsensusDelegate.t) :=
  match NewState (from_option (fun b => Header.StateRoot (Block.BlockHeader b)) 0 revision) with
  | inl err => Ret (inl err)
  | inr st => ds ← all_of_staking (State.GetDelegateList st); Ret (inr ds)
  end.

Definition calcCommitteeSize (delegateSize : Z) (config : ReactorConfig.t) : Z * Z :=
  let delegateSize := if ReactorConfig.MaxDelegateSize config <=? delegateSize
                      then ReactorConfig.MaxDelegateSize config else delegateSize in
  (delegateSize, if ReactorConfig.MaxCommitteeSize config <? delegateSize
                 then ReactorConfig.MaxCommitteeSize config else delegateSize).

Definition by_sort_key (a b : Validator.t) : bool := Validator.SortKey a <=? Validator.SortKey b.

(** The index of the node in a committee. *)
Fixpoint find_me (me : string) (i : Z) (committee : list Validator.t) : option Z :=
  match committee with
  | [] => None
  | v :: rest => if (Validator.PubKey v =? me)%string then Some i else find_me me (i + 1) rest
  end.

(** The delegates, the committee, the index of the node and whether it is in
    the committee.  A negative bound makes a slice panic. *)
Definition calcCommitteeByNonce r delegates (nonce : Z)
    : outcome (list ConsensusDelegate.t * list Validator.t * Z * bool) :=
  let '(delegateSize, committeeSize) := calcCommitteeSize (Z.of_nat (length delegates)) (Node.config r) in
  if (delegateSize <? 0) || (committeeSize <? 0) then Panic
  else
    let actual := take (Z.to_nat delegateSize) delegates in
    let validators := (fun d => Validator.mk (ConsensusDelegate.Name d) (ConsensusDelegate.Address_ d)
      (ConsensusDelegate.PubKey d) (ConsensusDelegate.PubKey d) (ConsensusDelegate.BlsPubKey_ d)
      (ConsensusDelegate.VotingPower d) (ConsensusDelegate.IP d) (ConsensusDelegate.Port d)
      (sort_keccak (ConsensusDelegate.PubKey d) nonce)) <$> actual in
    let committee := take (Z.to_nat committeeSize) (sort_by by_sort_key validators) in
    match find_me (Node.myPubKey r) 0 committee with
    | Some i => Ret (actual, committee, u32 i, true)
    | None => Ret (actual, committee, 0, false)
    end.

Definition sort_bootstrap (nonce : Z) (committee : list Validator.t) : list Validator.t :=
  sort_by by_sort_key
    ((fun v => v <| Validator.SortKey := sort_keccak (Validator.PubKey v) nonce |>) <$> committee).
Definition sortBootstrapCommitteeByNonce (nonce : Z) r : Node.t :=
  r <| Node.bootstrapCommittee11 ::= sort_bootstrap nonce |>
    <| Node.bootstrapCommittee5 ::= sort_bootstrap nonce |>.

(** A node whose ECDSA key is in the list with another combined key panics. *)
Fixpoint VerifyComboPubKey r delegates : outcome unit :=
  match delegates with
  | [] => Ret tt
  | d :: ds =>
    if (ConsensusDelegate.PubKey d =? Node.myPubKey r)%string
       && negb (Node.myComboPubKey r =? ConsensusDelegate.comboPubKeyStr d)%string
    then Panic else VerifyComboPubKey r ds
  end.

(** Delegates of the state, unless they are too few or the file is forced; with
    them the delegates of the state in any case. *)
Definition too_few (config : ReactorConfig.t) delegates : bool :=
  Z.of_nat (length delegates) <? ReactorConfig.MinCommitteeSize config.
Definition GetConsensusDelegates c r
    : outcome (Node.t * list ConsensusDelegate.t * list ConsensusDelegate.t) :=
  let file := ReactorConfig.InitDelegates (Node.config r) in
  staking ← getDelegatesFromStaking (Some (Chain.bestBlock c));
  let fallback := match staking with inl _ => [] | inr ds => ds end in
  if ReactorConfig.InitCfgdDelegates (Node.config r)
  then Ret (r <| Node.delegateSource := fromDelegatesFile |>, file, fallback)
  else
    match staking with
    | inl _ => Ret (r <| Node.delegateSource := fromDelegatesFile |>, file, fallback)
    | inr ds =>
      if too_few (Node.config r) ds then Ret (r <| Node.delegateSource := fromDelegatesFile |>, file, fallback)
      else Ret (r <| Node.delegateSource := fromStaking |>, ds, fallback)
    end.

(** The committee that the first block behind the last K-block names has to
    contain the node. *)
Definition verifyInCommittee c r : outcome bool :=
  let best := Chain.bestBlock c in
  if bool_decide (Node.delegateSource r = fromDelegatesFile) then Ret true
  else if negb (Block.IsKBlock best) && negb (Block.Number best =? 0) then
    match Chain.GetTrunkBlock c (u32 (Header.LastKBlockHeight (Block.BlockHeader best) + 1)) with
    | inl _ => Ret false
    | inr consentBlock =>
      myself ← deref (Node.committee r !! Z.to_nat (Node.committeeIndex r));
      Ret (existsb (fun key => key =? Validator.PubKey myself)%string (CommitteeInfo consentBlock))
    end
  else Ret true.

(** The committee before the current one, when the node has none yet. *)
Definition last_committee c r (bestK : Block.t) : outcome (list Validator.t) :=
  let lastBestKHeight := Header.LastKBlockHeight (Block.BlockHeader bestK) in
  let lastBestK := if lastBestKHeight =? 0 then None
    else match Chain.GetTrunkBlock c lastBestKHeight with inl _ => None | inr b => Some b end in
  let lastNonce := from_option Block.Nonce 0 lastBestK in
  staking ← getDelegatesFromStaking lastBestK;
  let file := ReactorConfig.InitDelegates (Node.config r) in
  let lastDelegates := match staking with
    | inl _ => file
    | inr ds => if too_few (Node.config r) ds then file else ds
    end in
  '(_, committee, _, _) ← calcCommitteeByNonce r lastDelegates lastNonce;
  Ret committee.

(** Entering the epoch behind the last K-block.  The nonce is kept before the
    check of the committee, the epoch after it. *)
Definition UpdateCurEpoch c r : outcome (Node.t * (string + bool)) :=
  match Chain.BestKBlock c with
  | inl _ => Ret (r, inl "could not get best KBlock")
  | inr bestK =>
    '(nonce, epoch) ← (if Block.Number bestK =? 0 then Ret (GenesisNonce, 0)
                       else e ← Block.GetBlockEpoch bestK; Ret (Block.Nonce bestK, u64 (e + 1)));
    if (Node.curEpoch r <=? epoch) && negb (Node.curNonce r =? nonce) then
      '(r, delegates, stakingDelegates) ← GetConsensusDelegates c r;
      _ ← VerifyComboPubKey r delegates;
      last ← (if (0 <? length (Node.committee r))%nat then Ret (Node.committee r)
              else last_committee c r bestK);
      let r := r <| Node.lastCommittee := last |> in
      '(curDelegates, committee, index, inCommittee) ← calcCommitteeByNonce r delegates nonce;
      let r := r <| Node.curDelegates := curDelegates |> <| Node.committee := committee |>
                 <| Node.committeeIndex := index |> <| Node.inCommittee := inCommittee |>
                 <| Node.committeeSize := u32 (Z.of_nat (length committee)) |> in
      hard ← (if bool_decide (Node.delegateSource r = fromStaking) then Ret committee
              else
                let ds := if too_few (Node.config r) stakingDelegates
                          then ReactorConfig.InitDelegates (Node.config r) else stakingDelegates in
                '(_, hard, _, _) ← calcCommitteeByNonce r ds nonce; Ret hard);
      let r := r <| Node.hardCommittee := hard |> in
      let r := sortBootstrapCommitteeByNonce nonce r <| Node.curNonce := nonce |> in
      verified ← (if inCommittee : bool then verifyInCommittee c r else Ret true);
      if verified : bool then
        Ret (r <| Node.lastKBlockHeight := Block.Number bestK |> <| Node.curEpoch := epoch |>, inr true)
      else Ret (r, inl "in committee but not verified")
    else Ret (r, inr false)
  end.

(** ** Rounds *)

(** An empty committee has a proposer without a key. *)
Definition getRoundProposer r (round : Z) : option Validator.t :=
  let size := Z.of_nat (length (Node.committee r)) in
  if size =? 0 then None else Node.committee r !! Z.to_nat (round mod size).
Definition amIRoundProposer r (round : Z) : bool :=
  (from_option Validator.PubKeyBytes "" (getRoundProposer r round) =? Node.myPubKey r)%string.

Definition GetMyNetAddr r : outcome string :=
  if (length (Node.committee r) =? 0)%nat then Ret ""
  else v ← deref (Node.committee r !! Z.to_nat (Node.committeeIndex r)); Ret (Validator.IP v).

(** The address is compared with an address and a port. *)
Definition IsMe r (ip : string) : outcome bool :=
  if (length (Node.committee r) =? 0)%nat then Ret false
  else
    v ← deref (Node.committee r !! Z.to_nat (Node.committeeIndex r));
    Ret (ip =? Validator.IP v +:+ ":" +:+ pretty (Validator.Port v))%string.

(** The addresses of the members that a message is forwarded to. *)
Definition GetRelayPeers r (round : Z) : list string :=
  omap (fun i => Validator.IP <$> Node.committee r !! Z.to_nat i)
    (relay_indexes (Node.committeeIndex r) (Z.of_nat (length (Node.committee r))) round).

(** ** Certificates *)

(** One attempt of [ValidateQC]: a certificate that verifies is cached, another
    one is left to the committees that follow. *)
Definition try_committee (qcID : Bytes32) (b : Block.t) (qc : QuorumCert.t) (committee : list Validator.t) r
    (rest : unit -> outcome (Node.t * bool)) : outcome (Node.t * bool) :=
  v ← VerifyQC b qc (Validator.BlsPubKey_ <$> committee);
  match v with
  | inr true => Ret (r <| Node.validQCs ::= union {[qcID]} |>, true)
  | _ => rest tt
  end.

(** [b] is the block that the certificate is about. *)
Definition ValidateQC c (b : Block.t) (escortQC : QuorumCert.t) r : outcome (Node.t * bool) :=
  let qcID := qc_sha256 escortQC in
  let best := Block.Number (Chain.bestBlock c) in
  let when (test : bool) (committee : unit -> outcome (list Validator.t)) (rest : unit -> outcome (Node.t * bool)) :=
    if test then vs ← committee tt; try_committee qcID b escortQC vs r rest else rest tt in
  let with_size (committee : list Validator.t) (rest : unit -> outcome (Node.t * bool)) :=
    bits ← QuorumCert.VoterBitArray escortQC;
    when (BitArray.Size bits =? Z.of_nat (length committee)) (fun _ => Ret committee) rest in
  if bool_decide (qcID ∈ Node.validQCs r) then Ret (r, true)
  else
    when (Block.IsKBlock b && (0 <? Block.Number b) && (Block.Number b <=? best))
      (fun _ => Ret (Node.lastCommittee r)) (fun _ =>
    when (Block.IsKBlock b && (0 <? Block.Number b) && (best <=? Block.Number b) && IsStaging)
      (fun _ =>
        match Chain.BestKBlock c with
        | inl _ => Panic
        | inr bestK =>
          match Chain.GetTrunkBlock c (Header.LastKBlockHeight (Block.BlockHeader bestK)) with
          | inl _ => Panic
          | inr lastBestK =>
            '(_, committee, _, _) ← calcCommitteeByNonce r (Node.curDelegates r) (Block.Nonce lastBestK);
            Ret committee
          end
        end) (fun _ =>
    with_size (Node.bootstrapCommittee11 r) (fun _ =>
    with_size (Node.bootstrapCommittee5 r) (fun _ =>
    let current (_ : unit) :=
      if (length (Node.committee r) =? 0)%nat then Ret (r, false)
      else try_committee qcID b escortQC (Node.committee r) r (fun _ => Ret (r, false)) in
    if bool_decide (Node.delegateSource r = fromStaking) then current tt
    else with_size (Node.hardCommittee r) current)))).
End Reactor.
