(* ===== verification/Drafts.v ===== *)
(** * Messages and drafts

    [block/messages.go], [block/draft_block.go], [block/draft_qc.go],
    [chain/proposal_map.go] and [chain/seeker.go]: the messages of the
    consensus, the drafts of blocks that are proposed and not yet committed, and
    the map that keeps them.  Drafts are shared and compared by reference: they
    are cells of a heap.  What a message is signed with and its time are left
    out, and so are the state and the checkpoint of a draft. *)

From S2P Require Import Prelude Text KeyedList ChainParam BitArray Transaction Block Votes State Runtime Packer Chain.
From stdpp Require Import gmap.
Open Scope Z_scope.

(** ** Messages *)

Module PMProposal.
Record t := mk {
  Epoch : Z;
  SignerIndex : Z;
  Round : Z;
  DecodeBlock : Block.t;
  TimeoutCert_ : option TimeoutCert.t
}.
End PMProposal.

Module PMVote.
Record t := mk {
  Epoch : Z;
  SignerIndex : Z;
  VoteRound : Z;
  VoteBlockID : Bytes32;
  VoteSignature : string;
  VoteHash : Bytes32
}.
End PMVote.

(** A node that has not voted sends the zero values of the last vote.  A
    certificate that does not decode is nil. *)
Module PMTimeout.
Record t := mk {
  Epoch : Z;
  SignerIndex : Z;
  WishRound : Z;
  DecodeQCHigh : option QuorumCert.t;
  WishVoteHash : Bytes32;
  WishVoteSig : string;
  LastVoteRound : Z;
  LastVoteBlockID : Bytes32;
  LastVoteHash : Bytes32;
  LastVoteSignature : string
}.
End PMTimeout.

Module PMQuery.
Record t := mk { Epoch : Z; SignerIndex : Z; LastCommitted : Bytes32 }.
End PMQuery.

Inductive ConsensusMessage :=
  | Proposal (m : PMProposal.t)
  | Vote (m : PMVote.t)
  | Timeout_ (m : PMTimeout.t)
  | Query (m : PMQuery.t).

Definition GetEpoch (m : ConsensusMessage) : Z :=
  match m with
  | Proposal m => PMProposal.Epoch m
  | Vote m => PMVote.Epoch m
  | Timeout_ m => PMTimeout.Epoch m
  | Query m => PMQuery.Epoch m
  end.
Definition GetSignerIndex (m : ConsensusMessage) : Z :=
  match m with
  | Proposal m => PMProposal.SignerIndex m
  | Vote m => PMVote.SignerIndex m
  | Timeout_ m => PMTimeout.SignerIndex m
  | Query m => PMQuery.SignerIndex m
  end.
Definition GetRound (m : ConsensusMessage) : Z :=
  match m with
  | Proposal m => PMProposal.Round m
  | Vote m => PMVote.VoteRound m
  | Timeout_ m => PMTimeout.WishRound m
  | Query _ => 0
  end.

(** ** Drafts *)

Definition ref : Type := nat.

Module DraftQC.
Record t := mk { QCNode : option ref; QC : QuorumCert.t }.
End DraftQC.

(** [CanReturn]: whether [ReturnTxsToPool] is set. *)
Module Draft.
Record t := mk {
  Msg : option PMProposal.t;
  Height : Z;
  Round : Z;
  Parent : option ref;
  Justify : option DraftQC.t;
  Committed : bool;
  ProposedBlock : Block.t;
  Receipts : option (list Receipt.t);
  CanReturn : bool;
  SuccessProcessed : bool;
  ProcessError : option string
}.
#[global] Instance eta : Settable t := fun d =>
  mk (Msg d) (Height d) (Round d) (Parent d) (Justify d) (Committed d) (ProposedBlock d) (Receipts d)
     (CanReturn d) (SuccessProcessed d) (ProcessError d).

(** A draft made of a block of the store. *)
Definition stored (height round : Z) (b : Block.t) : t :=
  mk None height round None None true b None false false None.
End Draft.

Abbreviation heap := (list Draft.t).
Definition alloc (d : Draft.t) (h : heap) : heap * ref := (h ++ [d], length h).
Definition load (h : heap) (r : ref) : outcome Draft.t := deref (h !! r).

(** The order in which Go ranges over the map of the drafts: some order of all
    its entries. *)
Class DraftOrder : Type := {
  range_drafts : gmap Bytes32 ref -> list (Bytes32 * ref);
  range_drafts_perm m : range_drafts m ≡ₚ map_to_list m
}.

(** ** The map of the drafts *)

(** The chain with its drafts. *)
Module Space.
Record t := mk { chain : Chain.t; cells : heap; proposals : gmap Bytes32 ref }.
#[global] Instance eta : Settable t := fun s => mk (chain s) (cells s) (proposals s).

Section Space.
Context `{BlockChain} `{TxCrypto} `{EthTypes} `{BlockCrypto} `{DraftOrder}.
Implicit Types (s : t).

Definition new_cell (d : Draft.t) s : t * ref :=
  let (h, r) := alloc d (cells s) in (s <| cells := h |>, r).

(** [ProposalMap.Add]; a nil draft panics. *)
Definition AddDraft (r : option ref) s : outcome t :=
  r ← deref r;
  d ← load (cells s) r;
  Ret (s <| proposals ::= <[Block.ID (Draft.ProposedBlock d) := r]> |>).

Definition HasDraft (blkID : Bytes32) s : bool :=
  match proposals s !! blkID with Some _ => true | None => false end.

(** [ProposalMap.Get]: a block of the store becomes a new draft, with the round
    of its certificate plus one. *)
Definition GetDraft (blkID : Bytes32) s : outcome (t * option ref) :=
  match proposals s !! blkID with
  | Some r => Ret (s, Some r)
  | None =>
    match Chain.getBlock (chain s) blkID with
    | inl _ => Ret (s, None)
    | inr b =>
      qc ← deref (Block.QC b);
      let (s, r) := new_cell (Draft.stored (Block.Number b) (u32 (QuorumCert.QCRound qc + 1)) b) s in
      Ret (s, Some r)
    end
  end.

Definition BlockMatchDraftQC (d : Draft.t) (escortQC : QuorumCert.t) : bool :=
  if (Draft.Height d =? 0) && (QuorumCert.QCHeight escortQC =? 0) then true
  else QuorumCert.VoterMsgHash escortQC =? Block.VotingHash (Draft.ProposedBlock d).

Fixpoint find_match (h : heap) (qc : QuorumCert.t) (rs : list (Bytes32 * ref)) : outcome (option ref) :=
  match rs with
  | [] => Ret None
  | (_, r) :: rs =>
    d ← load h r;
    if (Draft.Height d =? QuorumCert.QCHeight qc) && (Draft.Round d =? QuorumCert.QCRound qc)
       && BlockMatchDraftQC d qc
    then Ret (Some r) else find_match h qc rs
  end.

(** [ProposalMap.GetOneByEscortQC]: a draft of the height, the round and the hash
    of the certificate, or a new draft of the block that the index has for the
    height, whose hash is not compared. *)
Definition GetDraftByEscortQC (qc : QuorumCert.t) s : outcome (t * option ref) :=
  found ← find_match (cells s) qc (range_drafts (proposals s));
  match found with
  | Some r => Ret (s, Some r)
  | None =>
    match Chain.GetTrunkBlock (chain s) (QuorumCert.QCHeight qc) with
    | inl _ => Ret (s, None)
    | inr b =>
      if Block.Number b =? QuorumCert.QCHeight qc then
        let (s, r) := new_cell (Draft.stored (QuorumCert.QCHeight qc) (QuorumCert.QCRound qc) b) s in
        Ret (s, Some r)
      else Ret (s, None)
    end
  end.

(** [PruneUpTo]: the drafts below the committed one go, those beside it return
    their transactions and go, and the committed one is marked.  The closure of a
    draft that was never processed is nil. *)
Definition prune_one (last : Draft.t) (s : t) (kr : Bytes32 * ref) : outcome t :=
  d ← load (cells s) kr.2;
  let id := Block.ID (Draft.ProposedBlock d) in
  let number := Block.Number (Draft.ProposedBlock d) in
  if number <? Draft.Height last then Ret (s <| proposals ::= base.delete id |>)
  else if number =? Draft.Height last then
    if negb (id =? Block.ID (Draft.ProposedBlock last)) then
      if Draft.CanReturn d then Ret (s <| proposals ::= base.delete id |>) else Panic
    else Ret (s <| cells ::= alter (fun d => d <| Draft.Committed := true |>) kr.2 |>)
  else Ret s.
Definition PruneDraftsUpTo (lastCommitted : ref) s : outcome t :=
  last ← load (cells s) lastCommitted;
  mfold (prune_one last) s (range_drafts (proposals s)).

(** [GetDraftByNum]: the drafts of a number, the one with the highest round. *)
Definition later_draft (acc : option Draft.t) (d : Draft.t) : option Draft.t :=
  match acc with
  | None => Some d
  | Some latest => if Draft.Round latest <? Draft.Round d then Some d else Some latest
  end.
Definition GetDraftByNum (num : Z) s : option Draft.t :=
  foldl later_draft None
    (filter (fun d => Block.Number (Draft.ProposedBlock d) = num)
      (omap (fun kr => cells s !! kr.2) (range_drafts (proposals s)))).

(** [GetProposalsUpTo]: from the draft of the certificate down, four at most. *)
Fixpoint drafts_up_to (n : nat) (h : heap) (committed : Block.t) (head : option ref) (result : list Draft.t)
    : outcome (list Draft.t) :=
  match n with
  | O => Ret result
  | S n =>
    match head with
    | None => Ret result
    | Some r =>
      d ← load h r;
      if Draft.Committed d then Ret result
      else if Block.ID committed =? Block.ID (Draft.ProposedBlock d) then Ret result
      else drafts_up_to n h committed (Draft.Parent d) (d :: result)
    end
  end.
Definition GetDraftsUpTo (committedBlkID : Bytes32) (qcHigh : QuorumCert.t) s : outcome (t * list Draft.t) :=
  '(s, committed) ← GetDraft committedBlkID s;
  '(s, head) ← GetDraftByEscortQC qcHigh s;
  match committed, head with
  | Some c, Some _ =>
    c ← load (cells s) c;
    ds ← drafts_up_to 4 (cells s) (Draft.ProposedBlock c) head [];
    Ret (s, ds)
  | _, _ => Ret (s, [])
  end.

(** ** Seeking ancestors *)

(** [Seeker.GetID]: the drafts come before the index, whatever branch they are
    on.  The error is kept by the seeker. *)
Definition GetID (headBlockID : Bytes32) (num : Z) s : outcome (Bytes32 * option string) :=
  if Number headBlockID <? num then Panic
  else
    match GetDraftByNum num s with
    | Some d => Ret (Block.ID (Draft.ProposedBlock d), None)
    | None =>
      match Chain.GetAncestorBlockID (chain s) headBlockID num with
      | inl err => Ret (0, Some err)
      | inr id => Ret (id, None)
      end
    end.
End Space.
End Space.

(** What the packer and the validation see of the chain. *)
Section View.
Context `{BlockChain} `{TxCrypto} `{EthTypes} `{BlockCrypto} `{DraftOrder}.
Definition chain_view (NewState : Bytes32 -> string + State.t) (s : Space.t) : ChainView := {|
  Tag := Block.ID (Chain.genesisBlock (Space.chain s)) mod 256;
  GetTransactionMeta := fun txID headID =>
    match Chain.getTransactionMeta (Space.chain s) txID headID with
    | inr m => inr (Some (TxMeta.Reverted m))
    | inl err => if IsNotFound err then inr None else inl err
    end;
  GetID := fun headID num =>
    match Space.GetID headID num s with Ret r => r | Panic => (0, Some "num exceeds head block") end;
  BestPowNonce := Chain.bestPowNonce (Space.chain s);
  NewState := NewState
|}.
End View.
