(* ===== verification/Pacemaker.v ===== *)
(** * The pacemaker

    [consensus/pacemaker.go], [consensus/pacemaker_assist.go],
    [consensus/pacemaker_commit.go], [consensus/pacemaker_send.go] and the
    decisions of [consensus/pacemaker_propose.go]: the state of a member of the
    committee, its handlers of proposals, votes, timeouts and queries, the rounds
    and their timers, the commit of blocks, and the main loop.  A channel that is
    emptied before it is written is an optional value, and what a node sends is
    appended to a list.  Execution and packing of blocks, the proof-of-work pool
    and signing are the class [PacemakerEnv]. *)

From S2P Require Import Prelude Text KeyedList ChainParam BitArray StakingTypes Transaction Block Votes State StakingUtils Runtime Chain Committee Drafts.
From stdpp Require Import gmap pretty.
Open Scope Z_scope.

Definition MIN_MBLOCKS_AN_EPOCH : Z := 4.
(** In nanoseconds. *)
Definition RoundTimeoutInterval : Z := 16 * 10 ^ 9.
Definition RoundTimeoutLongInterval : Z := 40 * 10 ^ 9.

(** Conversion to Go's [int32]. *)
Definition i32 (x : Z) : Z := let y := u32 x in if y <? 2 ^ 31 then y else y - 2 ^ 32.

Definition errKnownBlock : string := "block already in the chain".

Inductive block_kind := MKind | KKind (nonce : Z) | SKind.
Inductive roundType := RegularRound | TimeoutRound | KBlockRound.

(** A node's surroundings: the execution of a proposed block on its parent
    ([ProcessProposedBlock] and the commit of its stage), the builders of blocks
    (both can give any result here; [Validate] and [Packer] model them),
    the decision of the proof-of-work pool, the error of opening a state, the
    error of writing the logs of a block to the log database, and BLS signing
    with the key of the node. *)
Class PacemakerEnv `{BlsSystem} : Type := {
  process_block : Space.t -> Block.t -> Block.t -> Z -> outcome (string + list Receipt.t);
  build_block : Space.t -> Node.t -> block_kind -> Draft.t -> QuorumCert.t -> Z -> Z
                -> outcome (string + (Block.t * list Receipt.t));
  GetPowDecision : option Z;
  state_error : Bytes32 -> option string;
  log_error : Block.t -> option string;
  SignHash : string -> Bytes32 -> string
}.

Module IncomingMsg.
Record t := mk { Msg : ConsensusMessage; PeerIP : string; SignerIP : string; ProcessCount : Z }.
End IncomingMsg.

(** [roundTimer] has the epoch, the round and the interval; [queued] are the messages
    that are put back into the queue; [sent] has the addresses of each message. *)
Module PM.
Record t `{BlsSystem} := mk {
  space : Space.t;
  node : Node.t;
  currentRound : Z;
  minMBlocks : Z;
  qcVoteManager : option QCVoteManager;
  tcVoteManager : option TCVoteManager;
  lastVotingHeight : Z;
  lastVoteMsg : option PMVote.t;
  QCHigh : option DraftQC.t;
  lastCommitted : option ref;
  lastOnBeatRound : Z;
  TCHigh : option TimeoutCert.t;
  timeoutCounter : Z;
  curProposal : option ref;
  roundTimer : option (Z * Z * Z);
  roundTimeoutCh : list (Z * Z);
  cmdCh : bool;
  beatCh : option (Z * Z);
  broadcastCh : option PMProposal.t;
  queued : list IncomingMsg.t;
  sent : list (list string * ConsensusMessage)
}.
#[global] Arguments mk {_}.
#[global] Instance eta `{BlsSystem} : Settable t := fun p =>
  mk (space p) (node p) (currentRound p) (minMBlocks p) (qcVoteManager p) (tcVoteManager p)
     (lastVotingHeight p) (lastVoteMsg p) (QCHigh p) (lastCommitted p) (lastOnBeatRound p) (TCHigh p)
     (timeoutCounter p) (curProposal p) (roundTimer p) (roundTimeoutCh p) (cmdCh p) (beatCh p) (broadcastCh p)
     (queued p) (sent p).
End PM.

Section Pacemaker.
Context `{StakingCodec} `{BlockChain} `{TxCrypto} `{EthTypes} `{BlockCrypto} `{BlsSystem} `{!NodeCrypto}
        `{TimeoutHash} `{DraftOrder} `{!PacemakerEnv}.
Variable NewState : Bytes32 -> string + State.t.
Variable range_votes : gmap Z vote -> list (Z * vote).
Implicit Types (p : PM.t).

Definition draft p (r : ref) : outcome Draft.t := load (Space.cells (PM.space p)) r.
Definition chain_of p : Chain.t := Space.chain (PM.space p).
(** A function of the drafts applied to the pacemaker. *)
Definition on_space {A} (f : Space.t -> outcome (Space.t * A)) p : outcome (PM.t * A) :=
  '(s, a) ← f (PM.space p); Ret (p <| PM.space := s |>, a).

(** ** Sending *)

(** Proposals go along the tree of the relay, votes to the proposer of the next
    round, timeouts to the proposer of the round they are about. *)
Definition proposer_ip p (round : Z) : string :=
  from_option Validator.IP "" (getRoundProposer (PM.node p) round).
Definition sendMsg (msg : ConsensusMessage) (copyMyself : bool) p : outcome PM.t :=
  my ← GetMyNetAddr (PM.node p);
  let round := GetRound msg in
  let peers := match msg with
    | Proposal _ => GetRelayPeers (PM.node p) round
    | Vote _ => [proposer_ip p (u32 (round + 1))]
    | Timeout_ _ => [proposer_ip p round]
    | Query _ => []
    end in
  let inPeers := existsb (String.eqb my) peers in
  Ret (p <| PM.sent ::= fun l => l ++ (if copyMyself && negb inPeers then [([my], msg)] else [])
                                   ++ [(peers, msg)] |>).
Definition Send (msg : ConsensusMessage) (peers : list string) p : PM.t :=
  p <| PM.sent ::= fun l => l ++ [(peers, msg)] |>.

Definition BuildVoteMessage (proposal : PMProposal.t) p : PMVote.t :=
  let blk := PMProposal.DecodeBlock proposal in
  let voteHash := Block.VotingHash blk in
  PMVote.mk (Node.curEpoch (PM.node p)) (Node.committeeIndex (PM.node p)) (PMProposal.Round proposal)
    (Block.ID blk) (SignHash (Node.myPubKey (PM.node p)) voteHash) voteHash.

Definition BuildProposalMessage (round : Z) (blk : Block.t) (tc : option TimeoutCert.t) p : PMProposal.t :=
  PMProposal.mk (Node.curEpoch (PM.node p)) (Node.committeeIndex (PM.node p)) round blk tc.

Definition BuildTimeoutMessage (qcHigh : DraftQC.t) (epoch round : Z) (lastVote : option PMVote.t) p : PMTimeout.t :=
  let hash := BuildTimeoutVotingHash epoch round in
  let mk := PMTimeout.mk epoch (Node.committeeIndex (PM.node p)) round (Some (DraftQC.QC qcHigh)) hash
    (SignHash (Node.myPubKey (PM.node p)) hash) in
  match lastVote with
  | None => mk 0 0 0 ""
  | Some v => mk (PMVote.VoteRound v) (PMVote.VoteBlockID v) (PMVote.VoteHash v) (PMVote.VoteSignature v)
  end.

Definition BuildQueryMessage p : outcome PMQuery.t :=
  r ← deref (PM.lastCommitted p);
  d ← draft p r;
  Ret (PMQuery.mk (Node.curEpoch (PM.node p)) (Node.committeeIndex (PM.node p))
         (Block.ID (Draft.ProposedBlock d))).

(** ** Rounds *)

Definition scheduleOnBeat (epoch round : Z) p : PM.t := p <| PM.beatCh := Some (epoch, round) |>.
Definition scheduleRegulate p : PM.t := p <| PM.cmdCh := true |>.

(** The interval doubles with every timeout behind the first; the shift and the
    product are of 64 bits. *)
Definition resetRoundTimer (round : Z) (rtype : roundType) p : PM.t :=
  let base := match rtype with KBlockRound => RoundTimeoutLongInterval | _ => RoundTimeoutInterval end in
  let counter := match rtype with TimeoutRound => u64 (PM.timeoutCounter p + 1) | _ => 0 end in
  let power := if 1 <? counter then counter - 1 else 0 in
  let shifted := if power <? 64 then i64 (2 ^ power) else 0 in
  p <| PM.timeoutCounter := counter |>
    <| PM.roundTimer := Some (Node.curEpoch (PM.node p), round, i64 (base * shifted)) |>.

(** A lower round is skipped, except round 0. *)
Definition enterRound (round : Z) (rtype : roundType) p : PM.t :=
  if (0 <? round) && (round <? PM.currentRound p) then p
  else if negb (Node.inCommittee (PM.node p)) then p
  else resetRoundTimer round rtype p <| PM.currentRound := round |>.

(** ** Certificates *)

(** The precedence of the operators leaves the second test without the one for
    a node. *)
Definition UpdateQCHigh (qc : DraftQC.t) p : outcome (PM.t * bool) :=
  high ← deref (PM.QCHigh p);
  let height := QuorumCert.QCHeight (DraftQC.QC qc) in
  let round := QuorumCert.QCRound (DraftQC.QC qc) in
  if match DraftQC.QCNode qc with Some _ => true | None => false end
     && (QuorumCert.QCHeight (DraftQC.QC high) <? height)
  then Ret (p <| PM.QCHigh := Some qc |>, true)
  else
    node ← deref (DraftQC.QCNode high);
    d ← draft p node;
    if (height =? Draft.Height d) && (Draft.Round d <? round)
    then Ret (p <| PM.QCHigh := Some qc |>, true)
    else Ret (p, false).

(** ** Committing *)

(** [commitBlock]: a fork in the chain is a panic.  The logs read a receipt for
    every transaction.  The initialisation of the script engine after the block
    in which Tesla starts on the main net, and the broadcast, are left out. *)
Definition commitBlock (d : Draft.t) (escortQC : option QuorumCert.t) p : outcome (PM.t * option string) :=
  let blk := Draft.ProposedBlock d in
  receipts ← (match Block.Txs blk with
              | [] => Ret (default [] (Draft.Receipts d))
              | _ => deref (Draft.Receipts d)
              end);
  if (length receipts <? length (Block.Txs blk))%nat then Panic
  else
    match log_error blk with
    | Some err => Ret (p, Some err)
    | None =>
      if Block.Number blk <=? Block.Number (Chain.bestBlock (chain_of p)) then Ret (p, Some errKnownBlock)
      else
        receipts ← deref (Draft.Receipts d);
        '(c, r) ← Chain.AddBlock blk escortQC receipts (chain_of p);
        let p := p <| PM.space ::= fun s => s <| Space.chain := c |> |> in
        match r with
        | inl err => Ret (p, Some err)
        | inr fork => if (0 <? length (Fork.Branch fork))%nat then Panic else Ret (p, None)
        end
    end.
Definition already_there (err : option string) : bool :=
  match err with
  | None => false
  | Some e => (e =? ErrBlockExist)%string || (e =? errKnownBlock)%string
  end.

(** One round of [OnCommit].  Blocks that were not processed, known ones and
    S-blocks are skipped. *)
Definition commit_one (p : PM.t) (ready : ref * option QuorumCert.t) : outcome PM.t :=
  let '(r, escortQC) := ready in
  d ← draft p r;
  let blk := Draft.ProposedBlock d in
  if negb (Draft.SuccessProcessed d) then Ret p
  else if bool_decide (Draft.ProcessError d = Some errKnownBlock) then Ret p
  else if Block.IsSBlock blk then Ret p
  else
    '(p, err) ← commitBlock d escortQC p;
    if match err with
       | None => false
       | Some _ => negb (already_there err)
           && match state_error (Header.StateRoot (Block.BlockHeader (Chain.bestBlock (chain_of p)))) with
              | None => false
              | Some _ => true
              end
       end
    then Panic
    else
      p ← (if negb (already_there err) && Block.IsKBlock blk then
             qc ← deref (Block.QC blk);
             if (Node.curEpoch (PM.node p) <=? QuorumCert.EpochID qc)
                && negb (Block.Nonce blk =? Node.curNonce (PM.node p))
             then Ret (scheduleRegulate p) else Ret p
           else Ret p);
      s ← Space.PruneDraftsUpTo r (PM.space p);
      Ret (p <| PM.space := s |>).
Definition OnCommit (commitReady : list (ref * option QuorumCert.t)) p : outcome PM.t :=
  mfold commit_one p commitReady.

(** The loop of [Update]: the parents above the last committed height, lowest
    first, each with the certificate in its child.  Every draft is visited once:
    the heap bounds the walk. *)
Fixpoint commit_path (fuel : nat) (h : heap) (floor : Z) (tmp : ref) (acc : list (ref * option QuorumCert.t))
    : outcome (list (ref * option QuorumCert.t)) :=
  match fuel with
  | O => Panic
  | S fuel =>
    d ← load h tmp;
    parent ← deref (Draft.Parent d);
    dp ← load h parent;
    if floor <? Draft.Height dp
    then commit_path fuel h floor parent ((parent, Block.QC (Draft.ProposedBlock d)) :: acc)
    else Ret acc
  end.

(** [b' ] has the certificate; its parent is committed with everything below.
    The flag of the justified block is read before it is compared with nil. *)
Definition Update (qc : QuorumCert.t) p : outcome PM.t :=
  '(p, bPrime) ← on_space (Space.GetDraftByEscortQC qc) p;
  match bPrime with
  | None => Ret p
  | Some bPrime =>
    d ← draft p bPrime;
    if Draft.Committed d then Ret p
    else
      justify ← deref (Draft.Justify d);
      b ← deref (DraftQC.QCNode justify);
      _ ← draft p b;
      '(p, _) ← UpdateQCHigh (DraftQC.mk (Some bPrime) qc) p;
      if negb (bool_decide (Draft.Parent d = Some b)) then Ret p
      else
        last ← deref (PM.lastCommitted p);
        dl ← draft p last;
        ready ← commit_path (S (length (Space.cells (PM.space p)))) (Space.cells (PM.space p))
                  (Draft.Height dl) bPrime [];
        p ← OnCommit ready p;
        Ret (p <| PM.lastCommitted := Some b |>)
  end.

(** ** Proposals *)

(** Ten hops at most. *)
Fixpoint extended_from (n : nat) (h : heap) (last : option ref) (tmp : ref) : outcome bool :=
  match n with
  | O => Ret false
  | S n =>
    if bool_decide (Some tmp = last) then Ret true
    else
      d ← load h tmp;
      match Draft.Parent d with None => Ret false | Some parent => extended_from n h last parent end
  end.
Definition ExtendedFromLastCommitted (b : ref) p : outcome bool :=
  extended_from 10 (Space.cells (PM.space p)) (PM.lastCommitted p) b.

(** The transactions of the drafts from [tmp] down to a committed one; the
    numbers go down. *)
Fixpoint txs_in_cache (fuel : nat) (tmp : option ref) (s : Space.t) (acc : list Bytes32)
    : outcome (Space.t * list Bytes32) :=
  match fuel with
  | O => Ret (s, acc)
  | S fuel =>
    match tmp with
    | None => Ret (s, acc)
    | Some r =>
      d ← load (Space.cells s) r;
      if Draft.Committed d then Ret (s, acc)
      else
        acc ← mfold (fun acc tx => id ← Transaction.ID tx; Ret (id :: acc)) acc (Block.Txs (Draft.ProposedBlock d));
        '(s, next) ← Space.GetDraft (Block.ParentID (Draft.ProposedBlock d)) s;
        txs_in_cache fuel next s acc
    end
  end.
Definition cached_tx (parent : ref) (blk : Block.t) (s : Space.t) : outcome (Space.t * bool) :=
  match Block.Txs blk with
  | [] => Ret (s, false)
  | txs =>
    '(s, known) ← txs_in_cache (S (Z.to_nat (Block.Number blk))) (Some parent) s [];
    ids ← mfold (fun acc tx => id ← Transaction.ID tx; Ret (id :: acc)) [] txs;
    Ret (s, existsb (fun id => bool_decide (id ∈ known)) ids)
  end.

(** [ValidateProposal] of the draft at [r], with the result of the execution
    written into it.  A state that cannot be opened is not an error. *)
Definition ValidateProposal (r : ref) (now : Z) p : outcome (PM.t * option string) :=
  d ← draft p r;
  let blk := Draft.ProposedBlock d in
  '(p, wrong) ← (if Block.IsSBlock blk then
      '(p, parent) ← on_space (Space.GetDraft (Block.ParentID blk)) p;
      parent ← deref parent;
      dp ← draft p parent;
      Ret (p, negb (Block.IsKBlock (Draft.ProposedBlock dp)) && negb (Block.IsSBlock (Draft.ProposedBlock dp)))
    else Ret (p, false));
  if wrong : bool then Ret (p, Some "sBlock should have kBlock/sBlock parent")
  else if Draft.SuccessProcessed d && bool_decide (Draft.ProcessError d = None) then Ret (p, None)
  else
    match Draft.Parent d with
    | None => Ret (p, Some "parent block is missing")
    | Some parent =>
      dp ← draft p parent;
      match state_error (Header.StateRoot (Block.BlockHeader (Chain.bestBlock (chain_of p)))) with
      | Some _ => Ret (p, None)
      | None =>
        '(p, cached) ← on_space (cached_tx parent blk) p;
        if cached : bool then Ret (p, Some "tx already existed in cache")
        else
          result ← process_block (PM.space p) (Draft.ProposedBlock dp) blk now;
          let write (f : Draft.t -> Draft.t) := p <| PM.space ::= fun s => s <| Space.cells ::= alter f r |> |> in
          match result with
          | inl err =>
            if (err =? errKnownBlock)%string then
              Ret (write (fun d => d <| Draft.Receipts := Some [] |> <| Draft.CanReturn := true |>
                                     <| Draft.SuccessProcessed := true |> <| Draft.ProcessError := Some err |>), None)
            else Ret (write (fun d => d <| Draft.SuccessProcessed := false |> <| Draft.ProcessError := Some err |>), Some err)
          | inr receipts =>
            Ret (write (fun d => d <| Draft.Receipts := Some receipts |> <| Draft.CanReturn := true |>
                                   <| Draft.SuccessProcessed := true |> <| Draft.ProcessError := None |>), None)
          end
      end
    end.

(** A proposal without its parent: one above the highest certificate is put
    back, every other time after a query to the peers. *)
Fixpoint distinct_peers r (visited peers : list string) : outcome (list string) :=
  match peers with
  | [] => Ret []
  | ip :: peers =>
    if existsb (String.eqb ip) visited then distinct_peers r visited peers
    else
      me ← IsMe r ip;
      rest ← distinct_peers r (ip :: visited) peers;
      Ret (if me : bool then rest else ip :: rest)
  end.
Definition parent_missing (mi : IncomingMsg.t) (blk : Block.t) (round : Z) p : outcome PM.t :=
  high ← deref (PM.QCHigh p);
  if QuorumCert.QCHeight (DraftQC.QC high) <? Block.Number blk then
    p ← (if IncomingMsg.ProcessCount mi mod 2 =? 0 then
           query ← BuildQueryMessage p;
           peers ← distinct_peers (PM.node p) []
             [IncomingMsg.PeerIP mi; IncomingMsg.SignerIP mi; proposer_ip p (u32 (round + 1))];
           Ret (Send (Query query) peers p)
         else Ret p);
    Ret (p <| PM.queued ::= fun l => l ++ [IncomingMsg.mk (IncomingMsg.Msg mi) (IncomingMsg.PeerIP mi)
           (IncomingMsg.SignerIP mi) (u32 (IncomingMsg.ProcessCount mi + 1))] |>)
  else Ret p.

(** The round of a proposal against that of its parent. *)
Definition check_round (msg : PMProposal.t) (dp : Draft.t) p : outcome bool :=
  let round := PMProposal.Round msg in
  if (round =? 0) && negb (Draft.Height dp =? 0) && negb (Block.IsKBlock (Draft.ProposedBlock dp)) then Ret false
  else if (0 <? round) && negb (u32 (Draft.Round dp + 1) =? round) then
    let r := PM.node p in
    validTC ← verifyTC (Node.curEpoch r) (Node.committeeSize r) (Validator.BlsPubKey_ <$> Node.committee r)
                (PMProposal.TimeoutCert_ msg) round;
    if negb validTC then Ret false
    else Ret (Block.IsKBlock (Draft.ProposedBlock dp) || (Draft.Round dp <? round))
  else Ret true.

(** The vote on an accepted proposal. *)
Definition vote_for (msg : PMProposal.t) (bnew : ref) (qc : QuorumCert.t) p : outcome PM.t :=
  let voteMsg := BuildVoteMessage msg p in
  p ← Update qc p;
  p ← sendMsg (Vote voteMsg) false p;
  let p := p <| PM.lastVoteMsg := Some voteMsg |>
             <| PM.lastVotingHeight := Number (PMVote.VoteBlockID voteMsg) |> in
  let rtype := if Block.IsKBlock (PMProposal.DecodeBlock msg) then KBlockRound else RegularRound in
  Ret (enterRound (u32 (PMVote.VoteRound voteMsg + 1)) rtype p).

Definition OnReceiveProposal (mi : IncomingMsg.t) (msg : PMProposal.t) (now : Z) p : outcome PM.t :=
  let blk := PMProposal.DecodeBlock msg in
  let height := Block.Number blk in
  let round := PMProposal.Round msg in
  last ← deref (PM.lastCommitted p);
  dl ← draft p last;
  if height <? Draft.Height dl then Ret p
  else
    '(p, parent) ← on_space (Space.GetDraft (Block.ParentID blk)) p;
    match parent with
    | None => parent_missing mi blk round p
    | Some parent =>
      dp ← draft p parent;
      qc ← deref (Block.QC blk);
      '(r, match_) ← ValidateQC (chain_of p) (Draft.ProposedBlock dp) qc (PM.node p);
      let p := p <| PM.node := r |> in
      if negb match_ then Ret p
      else
        ok ← check_round msg dp p;
        if negb ok then Ret p
        else
          let d := Draft.mk (Some msg) height round (Some parent) (Some (DraftQC.mk (Some parent) qc)) false blk
                     None false false None in
          let (s, bnew) := Space.new_cell d (PM.space p) in
          let p := p <| PM.space := s |> in
          '(p, err) ← ValidateProposal bnew now p;
          match err with
          | Some _ => Ret p
          | None =>
            p ← (if Space.HasDraft (Block.ID blk) (PM.space p) then Ret p
                 else s ← Space.AddDraft (Some bnew) (PM.space p); Ret (p <| PM.space := s |>));
            extended ← ExtendedFromLastCommitted bnew p;
            if (PM.lastVotingHeight p <=? height) && extended then vote_for msg bnew qc p else Ret p
          end
    end.

(** ** Votes and timeouts *)

Definition OnReceiveVote (mi : IncomingMsg.t) (msg : PMVote.t) p : outcome PM.t :=
  let round := PMVote.VoteRound msg in
  if negb ((round =? PM.currentRound p) && (round =? 0)) && (round <? u32 (PM.currentRound p - 1)) then Ret p
  else if negb (amIRoundProposer (PM.node p) (u32 (round + 1))) then Ret p
  else
    '(p, b) ← on_space (Space.GetDraft (PMVote.VoteBlockID msg)) p;
    match b with
    | None => Ret (p <| PM.queued ::= fun l => l ++ [IncomingMsg.mk (IncomingMsg.Msg mi) (IncomingMsg.PeerIP mi)
                (IncomingMsg.SignerIP mi) (u32 (IncomingMsg.ProcessCount mi + 1))] |>)
    | Some b =>
      d ← draft p b;
      if negb (Draft.Round d =? round) then Ret p
      else
        m ← deref (PM.qcVoteManager p);
        let epoch := Node.curEpoch (PM.node p) in
        let '(m, qc) := AddVote range_votes (PMVote.SignerIndex msg) epoch round (PMVote.VoteBlockID msg)
                          (PMVote.VoteSignature msg) (PMVote.VoteHash msg) m in
        let p := p <| PM.qcVoteManager := Some m |> in
        match qc with
        | None => Ret p
        | Some qc =>
          '(p, changed) ← UpdateQCHigh (DraftQC.mk (Some b) qc) p;
          if changed : bool then
            p ← Update qc p;
            Ret (enterRound (u32 (round + 1)) RegularRound (scheduleOnBeat epoch (u32 (round + 1)) p))
          else Ret p
        end
    end.

(** The certificate in the message is not verified. *)
Definition OnReceiveTimeout (msg : PMTimeout.t) p : outcome PM.t :=
  if negb (amIRoundProposer (PM.node p) (PMTimeout.WishRound msg)) then Ret p
  else
    let epoch := Node.curEpoch (PM.node p) in
    m ← deref (PM.qcVoteManager p);
    let '(m, newQC) := AddVote range_votes (PMTimeout.SignerIndex msg) epoch (PMTimeout.LastVoteRound msg)
      (PMTimeout.LastVoteBlockID msg) (PMTimeout.LastVoteSignature msg) (PMTimeout.LastVoteHash msg) m in
    let p := p <| PM.qcVoteManager := Some m |> in
    p ← (match newQC with
         | None => Ret p
         | Some qc =>
           '(p, node) ← on_space (Space.GetDraftByEscortQC qc) p;
           '(p, _) ← UpdateQCHigh (DraftQC.mk node qc) p;
           Update qc p
         end);
    qc ← deref (PMTimeout.DecodeQCHigh msg);
    '(p, node) ← on_space (Space.GetDraftByEscortQC qc) p;
    '(p, _) ← UpdateQCHigh (DraftQC.mk node qc) p;
    tm ← deref (PM.tcVoteManager p);
    let '(tm, tc) := TC_AddVote range_votes (PMTimeout.SignerIndex msg) (PMTimeout.Epoch msg)
      (PMTimeout.WishRound msg) (PMTimeout.WishVoteSig msg) (PMTimeout.WishVoteHash msg) tm in
    let p := p <| PM.tcVoteManager := Some tm |> in
    match tc with
    | None => Ret p
    | Some tc => Ret (scheduleOnBeat epoch (TimeoutCert.Round tc) (p <| PM.TCHigh := Some tc |>))
    end.

(** The drafts behind the last one committed by the peer are sent again; one
    without a message panics. *)
Definition forward_draft (peerIP : string) (p : PM.t) (d : Draft.t) : outcome PM.t :=
  msg ← deref (Draft.Msg d);
  p ← sendMsg (Proposal msg) false p;
  Ret (Send (Proposal msg) [peerIP] p).
Definition OnReceiveQuery (mi : IncomingMsg.t) (msg : PMQuery.t) p : outcome PM.t :=
  high ← deref (PM.QCHigh p);
  '(p, ds) ← on_space (Space.GetDraftsUpTo (PMQuery.LastCommitted msg) (DraftQC.QC high)) p;
  mfold (forward_draft (IncomingMsg.PeerIP mi)) p ds.

(** ** Proposing *)

(** Whether the committee stops at this parent: in the epoch of a K-block or an
    S-block, unless the block two below it is a K-block. *)
Definition grand_grand_is_kblock (qc : QuorumCert.t) p : outcome (PM.t * bool) :=
  '(p, grandFather) ← on_space (Space.GetDraftByEscortQC qc) p;
  match grandFather with
  | None => Ret (p, false)
  | Some g =>
    dg ← draft p g;
    qc ← deref (Block.QC (Draft.ProposedBlock dg));
    '(p, gg) ← on_space (Space.GetDraftByEscortQC qc) p;
    match gg with
    | None => Ret (p, false)
    | Some gg => dgg ← draft p gg; Ret (p, Block.IsKBlock (Draft.ProposedBlock dgg))
    end
  end.

(** The kind of block to propose, or why none is. *)
Definition leaf_kind (dp : Draft.t) (justify : DraftQC.t) (round : Z) p : outcome (PM.t * (string + block_kind)) :=
  let parentBlock := Draft.ProposedBlock dp in
  let r := PM.node p in
  stop ← (if Block.IsKBlock parentBlock || Block.IsSBlock parentBlock
          then qc ← deref (Block.QC parentBlock); Ret (Node.curEpoch r =? QuorumCert.EpochID qc)
          else Ret false);
  if stop : bool then
    qc ← deref (Block.QC parentBlock);
    '(p, skip) ← grand_grand_is_kblock qc p;
    if skip : bool then Ret (p, inl "skip proposing SBlock due to grand grand father is kblock")
    else Ret (p, inr SKind)
  else
    let enough := PM.minMBlocks p <=?
      u32 (Block.Number parentBlock + 1 - Header.LastKBlockHeight (Block.BlockHeader parentBlock)) in
    let timeout := match PM.TCHigh p with Some _ => true | None => false end in
    let pow := if negb (Block.IsKBlock parentBlock) && enough && negb timeout then GetPowDecision else None in
    match pow with
    | Some nonce => Ret (p, inr (KKind nonce))
    | None =>
      if negb (Block.IsKBlock parentBlock) && negb (Node.curEpoch r =? 0) && negb (round =? 0)
         && ((round <=? QuorumCert.QCRound (DraftQC.QC justify)) || (round <=? Draft.Round dp))
      then Ret (p, inl "invalid round")
      else Ret (p, inr MKind)
    end.

(** [OnPropose] with [CreateLeaf]: a block on the draft of the certificate. *)
Definition OnPropose (qc : DraftQC.t) (round now : Z) p : outcome (PM.t * option ref) :=
  '(p, parent) ← on_space (Space.GetDraftByEscortQC (DraftQC.QC qc)) p;
  parent ← deref parent;
  dp ← draft p parent;
  '(p, kind) ← leaf_kind dp qc round p;
  match kind with
  | inl _ => Ret (p, None)
  | inr kind =>
    let ts := Z.max now (Header.Timestamp (Block.BlockHeader (Draft.ProposedBlock dp)) + 1) in
    built ← build_block (PM.space p) (PM.node p) kind dp (DraftQC.QC qc) round ts;
    match built with
    | inl _ => Ret (p, None)
    | inr (blk, receipts) =>
      if Block.Number blk <=? QuorumCert.QCHeight (DraftQC.QC qc) then Ret (p, None)
      else
        let msg := BuildProposalMessage round blk (PM.TCHigh p) p in
        let d := Draft.mk (Some msg) (Block.Number blk) round (Some parent) (Some qc) false blk (Some receipts)
                   true true None in
        let (s, bnew) := Space.new_cell d (PM.space p) in
        Ret (p <| PM.space := s |> <| PM.curProposal := Some bnew |>, Some bnew)
    end
  end.

Definition OnBeat (epoch round now : Z) p : outcome PM.t :=
  let r := PM.node p in
  if epoch <? Node.curEpoch r then Ret p
  else if (epoch =? Node.curEpoch r) && (i32 round <=? PM.lastOnBeatRound p) then Ret p
  else if negb (amIRoundProposer r round) then Ret p
  else
    let p := p <| PM.lastOnBeatRound := i32 round |> in
    high ← deref (PM.QCHigh p);
    '(p, b) ← on_space (Space.GetDraftByEscortQC (DraftQC.QC high)) p;
    match b with
    | None => Ret p
    | Some _ =>
      '(p, bnew) ← OnPropose high round now p;
      match bnew with
      | None => Ret p
      | Some bnew =>
        s ← Space.AddDraft (Some bnew) (PM.space p);
        let p := p <| PM.space := s |> <| PM.TCHigh := None |> in
        d ← draft p bnew;
        Ret (p <| PM.broadcastCh := Draft.Msg d |>)
      end
    end.

(** The proposal that is sent is the current one, not the one in the channel. *)
Definition OnBroadcastProposal p : outcome PM.t :=
  match PM.curProposal p with
  | None => Ret p
  | Some r =>
    d ← draft p r;
    msg ← deref (Draft.Msg d);
    epoch ← Block.GetBlockEpoch (PMProposal.DecodeBlock msg);
    if epoch <? Node.curEpoch (PM.node p) then Ret p else sendMsg (Proposal msg) true p
  end.

(** ** Timers and the start *)

(** The timer of a round runs out; a stopped timer does not. *)
Definition fire p : PM.t :=
  match PM.roundTimer p with
  | None => p
  | Some (epoch, round, _) =>
    p <| PM.roundTimer := None |> <| PM.roundTimeoutCh ::= fun l => l ++ [(epoch, round)] |>
  end.

(** The message is about the round that ended, and goes to its proposer. *)
Definition OnRoundTimeout (epoch round : Z) p : outcome PM.t :=
  let p := enterRound (u32 (round + 1)) TimeoutRound p in
  high ← deref (PM.QCHigh p);
  sendMsg (Timeout_ (BuildTimeoutMessage high epoch round (PM.lastVoteMsg p) p)) false p.

Definition fresh_managers p : PM.t :=
  let r := PM.node p in
  let qcm := match PM.qcVoteManager p with
    | Some m => if committeeSize m =? Node.committeeSize r
                then CleanUpTo (QuorumCert.QCHeight (Chain.bestQC (chain_of p))) m
                else NewQCVoteManager (Node.committeeSize r)
    | None => NewQCVoteManager (Node.committeeSize r)
    end in
  let tcm := match PM.tcVoteManager p with
    | Some m => if committeeSize m =? Node.committeeSize r then TC_CleanUpTo (Node.curEpoch r) m
                else NewTCVoteManager (Node.committeeSize r)
    | None => NewTCVoteManager (Node.committeeSize r)
    end in
  p <| PM.qcVoteManager := Some qcm |> <| PM.tcVoteManager := Some tcm |>.

(** The start from the best certificate of the chain; the height of the last
    vote is forgotten. *)
Definition Regulate p : outcome PM.t :=
  '(r, _) ← UpdateCurEpoch NewState (chain_of p) (PM.node p);
  let p := fresh_managers (p <| PM.node := r |>) in
  let bestQC := Chain.bestQC (chain_of p) in
  match Chain.GetTrunkBlock (chain_of p) (QuorumCert.QCHeight bestQC) with
  | inl _ => Panic
  | inr bestBlk =>
    let actualRound := if Block.IsKBlock bestBlk || (Block.Number bestBlk =? 0) then 0
                       else u32 (QuorumCert.QCRound bestQC + 1) in
    let cfg := Node.config (PM.node p) in
    let p := if ReactorConfig.InitCfgdDelegates cfg then
        let p := p <| PM.minMBlocks := ReactorConfig.EpochMBlockCount cfg |> in
        if IsStaging then p
        else p <| PM.node ::= fun r => r <| Node.config ::= fun c => c <| ReactorConfig.InitCfgdDelegates := false |> |> |>
      else p <| PM.minMBlocks := MIN_MBLOCKS_AN_EPOCH |> in
    '(p, bestNode) ← on_space (Space.GetDraftByEscortQC bestQC) p;
    s ← Space.AddDraft bestNode (PM.space p);
    let p := p <| PM.space := s |> <| PM.lastOnBeatRound := i32 (i32 actualRound - 1) |>
               <| PM.lastCommitted := bestNode |> <| PM.lastVotingHeight := 0 |>
               <| PM.lastVoteMsg := None |> <| PM.QCHigh := Some (DraftQC.mk bestNode bestQC) |>
               <| PM.currentRound := 0 |> in
    Ret (scheduleOnBeat (Node.curEpoch (PM.node p)) actualRound (enterRound actualRound RegularRound p))
  end.

(** ** The main loop *)

(** One of the channels of the loop. *)
Inductive event :=
  | ECmd
  | ETimeout
  | EBroadcast
  | EBeat
  | EMsg (mi : IncomingMsg.t).

Definition handle (mi : IncomingMsg.t) (now : Z) p : outcome PM.t :=
  let r := PM.node p in
  if negb (Node.inCommittee r) then Ret p
  else if negb (GetEpoch (IncomingMsg.Msg mi) =? Node.curEpoch r) then Ret p
  else
    match IncomingMsg.Msg mi with
    | Proposal m => OnReceiveProposal mi m now p
    | Vote m => OnReceiveVote mi m p
    | Timeout_ m => OnReceiveTimeout m p
    | Query m => OnReceiveQuery mi m p
    end.

(** A round of the loop: a best block above the highest certificate asks for a
    restart, then one event is handled.  An event whose channel is empty does not
    happen. *)
Definition main_step (e : event) (now : Z) p : outcome PM.t :=
  high ← deref (PM.QCHigh p);
  let p := if (QuorumCert.QCHeight (DraftQC.QC high) <? Block.Number (Chain.bestBlock (chain_of p)))
              && Node.inCommittee (PM.node p) then scheduleRegulate p else p in
  match e with
  | ECmd => if PM.cmdCh p then Regulate (p <| PM.cmdCh := false |>) else Ret p
  | ETimeout =>
    match PM.roundTimeoutCh p with
    | [] => Ret p
    | (epoch, round) :: rest =>
      let p := p <| PM.roundTimeoutCh := rest |> in
      if epoch <? Node.curEpoch (PM.node p) then Ret p else OnRoundTimeout epoch round p
    end
  | EBroadcast =>
    match PM.broadcastCh p with
    | None => Ret p
    | Some _ => OnBroadcastProposal (p <| PM.broadcastCh := None |>)
    end
  | EBeat =>
    match PM.beatCh p with
    | None => Ret p
    | Some (epoch, round) => OnBeat epoch round now (p <| PM.beatCh := None |>)
    end
  | EMsg mi => handle mi now p
  end.
End Pacemaker.
