(* ===== verification/Samples.v ===== *)
(** * Sample instances

    Concrete instances of the parameters (hashes, codecs, chain, emission
    curve) and a few concrete environments, on which the witnesses of the
    theorems evaluate the definitions. *)

From S2P Require Import Prelude Text KeyedList ChainParam StakingTypes AuctionTypes Stats State ScriptEnv StakingUtils StakingHandlers AccountLock MeterTracker StakingGovern.

Module Sample.
Definition hashing : Hashing := {|
  bucket_hash := fun owner nonce time => 1 + owner + 1000 * nonce + 1000000 * time;
  auction_hash := fun a b c d e f g h => 1 + a + b + c + d + e + f + g + h;
  auctiontx_hash := fun a b c d e => 1 + a + 1000 * b + c + d + e
|}.

Definition chain : BlockChain := ChainConfig.mk "main" true.
Definition emission : Emission := fun days => 24 * 10 ^ 18.

(** A block after every fork, and the address of its transaction's origin. *)
Definition late : Z := 100000000.
Definition alice : Address := 5.
Definition bob : Address := 7.

Definition body (op opt : Z) (holder cand : Address) (id amount : Z) : StakingBody.t :=
  StakingBody.mk op 0 opt holder cand "name" "" "" "1.2.3.4" 8670 id amount MTRG 0 0 0 "".

Definition bound_body : StakingBody.t :=
  body OP_BOUND ONE_WEEK_LOCK alice ZeroAddress 0 (500 * e18).

(** Payloads are told apart by their text. *)
Definition codec : StakingCodec := {|
  decode_StakingBody := fun p => if (p =? "bound")%string then Some bound_body else None;
  UnpackBytesToInfraction := fun _ => None;
  decode_RewardInfoV2s := fun _ => Some [];
  decode_RewardInfos := fun _ => Some [];
  UnmarshalPubkey := fun _ => true
|}.

(** A codec that reads every payload as the given body. *)
Definition codec_of (sb : StakingBody.t) : StakingCodec := {|
  decode_StakingBody := fun _ => Some sb;
  UnpackBytesToInfraction := fun _ => None;
  decode_RewardInfoV2s := fun _ => Some [];
  decode_RewardInfos := fun _ => Some [];
  UnmarshalPubkey := fun _ => true
|}.

Definition funded : State.t :=
  State.New <| State.accounts := <[ bob := Account.holding (3000 * e18) (70 * e18) 0 0 ]>
                 {[ alice := Account.holding (1000 * e18) (50 * e18) 0 0 ]} |>.
Definition env0 : ScriptEnv.t := ScriptEnv.NewScriptEnv funded late 1700000000 alice 3 0 0 0.

Definition bob_body : StakingBody.t :=
  body OP_BOUND ONE_WEEK_LOCK bob ZeroAddress 0 (700 * e18).

Definition bucket0 : Bucket.t := @Bucket.NewBucket hashing 0 0 0 0 0 0 0 0 0.

Definition out (r : result) (dflt : ScriptEnv.t) : ScriptEnv.t :=
  match r with Ret (e, _, _) => e | Panic => dflt end.
End Sample.
