(* ===== verification/SupplyTheorems.v ===== *)
(** * What the ledger and the account lock guarantee

    The supply recorded by the native tracker moves with the MTR and MTRG in
    the accounts, and an account under a lock cannot spend below it.  The
    second half is about the profiles of the account-lock module. *)

From S2P Require Import Prelude KeyedList ChainParam StakingTypes AuctionTypes Stats State ScriptEnv StakingUtils StakingHandlers AccountLock MeterTracker Samples.
Import ScriptEnv.

(** ** Minting and burning *)

Section Mint.
Context (e : Address).
Implicit Types (s : State.t) (addr : Address).

(** The records of a tracker are RLP integers. *)
Definition records_ok s : Prop :=
  let r := State.supply s e in
  0 <= Supply.GovTotalAdd r /\ 0 <= Supply.GovTotalSub r /\
  0 <= Supply.MeterTotalAdd r /\ 0 <= Supply.MeterTotalSub r.

(** How far the recorded supplies are from what the accounts hold. *)
Definition drift s : Z * Z :=
  (MeterTracker.GetMeterGovTotalSupply e s - total_mtrg s,
   MeterTracker.GetMeterTotalSupply e s - total_mtr s).

Lemma supply_set s r : State.supply (State.set_supply e r s) e = r.
Proof. unfold State.supply, State.set_supply. simpl. by rewrite lookup_insert_eq. Qed.

Lemma mint_gov_total addr amount s :
  total_mtrg (MeterTracker.MintMeterGov e addr amount s) = total_mtrg s + amount /\
  total_mtr (MeterTracker.MintMeterGov e addr amount s) = total_mtr s.
Proof.
  unfold MeterTracker.MintMeterGov. destruct (Z.eqb_spec amount 0) as [->|]; [lia|].
  unfold MeterTracker.SetMeterGovTotalAddSub, State.EncodeStorage. autorewrite with state.
  destruct (_ && _); unfold total_mtrg, total_mtr;
    rewrite !(total_slot _ s (State.set_supply _ _ s)) || rewrite !(total_slot _ s (State.setError s));
    try done; (split; [|done]).
  - change (State.GetBalance (State.set_supply e _ s) addr) with (State.GetBalance s addr). lia.
  - change (State.GetBalance (State.setError s) addr) with (State.GetBalance s addr). lia.
Qed.

Lemma mint_gov_balance addr amount s a :
  State.GetBalance (MeterTracker.MintMeterGov e addr amount s) a =
    if a =? addr then State.GetBalance s a + amount else State.GetBalance s a.
Proof.
  unfold MeterTracker.MintMeterGov. destruct (Z.eqb_spec amount 0) as [->|].
  { case_match; lia. }
  unfold MeterTracker.SetMeterGovTotalAddSub, State.EncodeStorage. autorewrite with state.
  rewrite Z.eqb_sym. destruct (Z.eqb_spec addr a) as [->|Hne].
  - by rewrite decide_True.
  - rewrite decide_False by done. by destruct (_ && _).
Qed.

Lemma set_gov_totals add sub s :
  0 <= add -> 0 <= sub ->
  MeterTracker.SetMeterGovTotalAddSub e add sub s =
    State.set_supply e (State.supply s e <| Supply.GovTotalAdd := add |>
                                         <| Supply.GovTotalSub := sub |>) s.
Proof.
  intros Ha Hs. unfold MeterTracker.SetMeterGovTotalAddSub, State.EncodeStorage, is_uint.
  by rewrite (proj2 (Z.leb_le 0 add) Ha), (proj2 (Z.leb_le 0 sub) Hs).
Qed.

Lemma set_meter_totals add sub s :
  0 <= add -> 0 <= sub ->
  MeterTracker.SetMeterTotalAddSub e add sub s =
    State.set_supply e (State.supply s e <| Supply.MeterTotalAdd := add |>
                                         <| Supply.MeterTotalSub := sub |>) s.
Proof.
  intros Ha Hs. unfold MeterTracker.SetMeterTotalAddSub, State.EncodeStorage, is_uint.
  by rewrite (proj2 (Z.leb_le 0 add) Ha), (proj2 (Z.leb_le 0 sub) Hs).
Qed.

(** A write of the records and of one balance. *)
Lemma drift_gov s r addr v :
  drift (State.SetBalance addr v (State.set_supply e r s)) =
    (Supply.InitMeterGov r + (Supply.GovTotalAdd r - Supply.GovTotalSub r)
       - (total_mtrg s - State.GetBalance s addr + v),
     Supply.InitMeter r + (Supply.MeterTotalAdd r - Supply.MeterTotalSub r) - total_mtr s).
Proof.
  unfold drift, MeterTracker.GetMeterGovTotalSupply, MeterTracker.GetMeterTotalSupply.
  change (State.supply (State.SetBalance addr v (State.set_supply e r s)) e)
    with (State.supply (State.set_supply e r s) e).
  rewrite supply_set. autorewrite with state. unfold total_mtrg, total_mtr.
  by rewrite !(total_slot _ s (State.set_supply e r s)).
Qed.

Lemma drift_meter s r addr v :
  drift (State.SetEnergy addr v (State.set_supply e r s)) =
    (Supply.InitMeterGov r + (Supply.GovTotalAdd r - Supply.GovTotalSub r) - total_mtrg s,
     Supply.InitMeter r + (Supply.MeterTotalAdd r - Supply.MeterTotalSub r)
       - (total_mtr s - State.GetEnergy s addr + v)).
Proof.
  unfold drift, MeterTracker.GetMeterGovTotalSupply, MeterTracker.GetMeterTotalSupply.
  change (State.supply (State.SetEnergy addr v (State.set_supply e r s)) e)
    with (State.supply (State.set_supply e r s) e).
  rewrite supply_set. autorewrite with state. unfold total_mtrg, total_mtr.
  by rewrite !(total_slot _ s (State.set_supply e r s)).
Qed.

(** The four tracked operations, with amounts that are RLP integers. *)
Inductive tracked_op : State.t -> State.t -> Prop :=
| op_mint_gov s addr amount : 0 <= amount ->
    tracked_op s (MeterTracker.MintMeterGov e addr amount s)
| op_burn_gov s addr amount : 0 <= amount ->
    tracked_op s (MeterTracker.BurnMeterGov e addr amount s)
| op_mint s addr amount : 0 <= amount -> tracked_op s (MeterTracker.MintMeter e addr amount s)
| op_burn s addr amount : 0 <= amount ->
    tracked_op s (fst (MeterTracker.BurnMeter e addr amount s)).

Lemma tracked_op_drift s s' :
  tracked_op s s' -> records_ok s -> drift s' = drift s /\ records_ok s'.
Proof.
  intros [s0 addr amount Ha|s0 addr amount Ha|s0 addr amount Ha|s0 addr amount Ha] Hr;
    destruct Hr as (H1 & H2 & H3 & H4);
    unfold MeterTracker.MintMeterGov, MeterTracker.BurnMeterGov, MeterTracker.MintMeter,
      MeterTracker.BurnMeter; (destruct (amount =? 0); [done|]);
    try (destruct (_ <? _); [done|]); cbn [fst];
    rewrite ?set_gov_totals, ?set_meter_totals by lia; split;
    rewrite ?drift_gov, ?drift_meter;
    try (unfold drift, MeterTracker.GetMeterGovTotalSupply, MeterTracker.GetMeterTotalSupply;
         simpl; f_equal; lia);
    unfold records_ok; match goal with |- context [State.supply (_ _ _ ?x) _] =>
      change (State.supply _ e) with (State.supply x e) end; rewrite supply_set; simpl; lia.
Qed.
End Mint.

(** The supplies of MTR and MTRG that a tracker reports move with what the
    accounts hold: over any sequence of mints and burns recorded by it, the
    difference between the reported supply and the total held, bounded part
    included, does not change.  A tracker that starts in agreement stays so. *)
Theorem tracker_follows_supply e s s' :
  rtc (tracked_op e) s s' -> records_ok e s -> drift e s' = drift e s.
Proof.
  induction 1 as [|s1 s2 s3 Ho _ IH]; [done|]. intros Hr.
  destruct (tracked_op_drift e s1 s2 Ho Hr) as [<- Hr2]. by apply IH.
Qed.

Lemma tracker_follows_supply_witness :
  let s1 := StateDB.MintBalanceAfterFork8 Sample.alice 1000 Sample.funded in
  let s2 := StateDB.BurnEnergy Sample.bob 50 s1 in
  drift MeterNativeAddr s2 = drift MeterNativeAddr Sample.funded /\
  MeterTracker.GetMeterGovTotalSupply MeterNativeAddr s2 = 1000.
Proof.
  intros s1 s2. split; [|vm_compute; reflexivity].
  apply (tracker_follows_supply MeterNativeAddr Sample.funded s2).
  - eapply rtc_l; [apply (op_mint_gov MeterNativeAddr Sample.funded Sample.alice 1000); lia|].
    apply rtc_once. apply (op_burn MeterNativeAddr s1 Sample.bob 50). lia.
  - vm_compute. repeat split; discriminate.
Defined.

(** Before fork 8 a mint is recorded under the address that receives it:
    the MTRG in circulation grows, and the supply of the native tracker does
    not. *)
Theorem mint_before_fork8_untracked addr amount s :
  addr <> MeterNativeAddr ->
  MeterTracker.GetMeterGovTotalSupply MeterNativeAddr (StateDB.MintBalance addr amount s) =
    MeterTracker.GetMeterGovTotalSupply MeterNativeAddr s /\
  total_mtrg (StateDB.MintBalance addr amount s) = total_mtrg s + amount.
Proof.
  intros Hne. unfold StateDB.MintBalance. split; [|apply mint_gov_total].
  unfold MeterTracker.MintMeterGov. destruct (amount =? 0); [done|].
  unfold MeterTracker.SetMeterGovTotalAddSub, State.EncodeStorage,
    MeterTracker.GetMeterGovTotalSupply, State.supply. destruct (_ && _); simpl; [|done].
  by rewrite lookup_insert_ne.
Qed.

Lemma mint_before_fork8_untracked_witness :
  MeterTracker.GetMeterGovTotalSupply MeterNativeAddr
    (StateDB.MintBalance Sample.alice 1000 Sample.funded) = 0 /\
  total_mtrg (StateDB.MintBalance Sample.alice 1000 Sample.funded) = total_mtrg Sample.funded + 1000.
Proof.
  destruct (mint_before_fork8_untracked Sample.alice 1000 Sample.funded) as [H1 H2];
    [vm_compute; discriminate|]. split; [rewrite H1; vm_compute; reflexivity|exact H2].
Defined.

(** ** Account locks *)

Module SampleLock.
Definition carol : Address := 11.
Definition profiles : ProfileList.t :=
  [Profile.NewProfile Sample.alice "team" 0 10 0 400; Profile.NewProfile Sample.bob "" 0 20 0 100].
Definition locked : State.t := Sample.funded <| State.profiles := profiles |>.
Definition env : ScriptEnv.t := Sample.env0 <| state := locked |>.
Definition body (op : Z) (from to : Address) (mtr mtrg : Z) : AccountLockBody.t :=
  AccountLockBody.mk op 0 0 0 15 from to mtr mtrg "".
Lemma sorted_profiles : sorted profiles.
Proof. unfold sorted. repeat constructor. Qed.
End SampleLock.

Section Profiles.
Implicit Types (env : ScriptEnv.t) (ab : AccountLockBody.t) (s : State.t).

Definition profiles_ok s : Prop := sorted (State.profiles s) /\ encodable (State.profiles s) = true.

Lemma read_profiles s : sorted (State.profiles s) -> State.GetProfileList s = State.profiles s.
Proof. apply SliceStable_id. Qed.

Lemma encodable_filter {A} `{Rlp A} (P : A -> Prop) `{forall x, Decision (P x)} (l : list A) :
  encodable l = true -> encodable (filter P l) = true.
Proof.
  unfold encodable, rlp_list. rewrite !forallb_forall. intros Hl x Hx.
  apply Hl. apply list_elem_of_In. apply list_elem_of_In, list_elem_of_filter in Hx. apply Hx.
Qed.
End Profiles.

(** The governing call of the account lock removes exactly the profiles
    whose release epoch has come, and touches nothing else. *)
Theorem lock_governing_releases epoch env ab gas :
  profiles_ok (state env) -> 0 <= epoch < 2 ^ 32 ->
  exists env', GoverningHandler_lock (Some epoch) env ab gas = Ret (env', leftOver gas, None) /\
    state env' = state env <| State.profiles :=
      filter (fun p => ~ Profile.ReleaseEpoch p <= epoch) (State.profiles (state env)) |>.
Proof.
  intros [Hs He] Hr. unfold GoverningHandler_lock, GetCurrentEpoch. cbn [deref mbind outcome_bind].
  rewrite (read_profiles _ Hs). unfold u32. rewrite Z.mod_small by done.
  eexists. split; [done|]. simpl.
  change Profile.Addr with (@key Profile.t _). change ProfileList.Remove with (@Remove Profile.t _).
  rewrite Removes_filter by done. unfold State.SetProfileList, State.EncodeStorage.
  by rewrite encodable_filter.
Qed.

Lemma lock_governing_releases_witness :
  exists env', GoverningHandler_lock (Some 12) SampleLock.env
      (SampleLock.body OP_LOCK_GOVERNING 0 0 0 0) 30000 = Ret (env', 14000, None) /\
    Profile.Addr <$> State.profiles (state env') = [Sample.bob].
Proof.
  destruct (lock_governing_releases 12 SampleLock.env (SampleLock.body OP_LOCK_GOVERNING 0 0 0 0)
    30000) as (env' & H1 & H2).
  - split; [exact SampleLock.sorted_profiles|reflexivity].
  - lia.
  - exists env'. split; [exact H1|]. rewrite H2. vm_compute. reflexivity.
Defined.

(** While an account is locked, no withdrawal of MTRG takes its balance
    and bounded balance together below the locked amount, a refused one
    changes nothing, and one that leaves enough and is covered by the balance
    succeeds and takes exactly the amount. *)
Theorem locked_mtrg_floor epoch addr amount s meter mtrg s' ok :
  RestrictByAccountLock (Some epoch) addr s = (true, meter, mtrg) -> amount <> 0 ->
  MeterTracker.SubMeterGov (Some epoch) addr amount s = (s', ok) ->
  (ok = true <-> amount <= State.GetBalance s addr /\
     mtrg + amount <= State.GetBalance s addr + State.GetBoundedBalance s addr) /\
  (ok = false -> s' = s) /\
  (ok = true -> s' = State.SetBalance addr (State.GetBalance s addr - amount) s /\
     mtrg <= State.GetBalance s' addr + State.GetBoundedBalance s' addr).
Proof.
  intros Hr Hz. unfold MeterTracker.SubMeterGov, State.SubBalance. rewrite Hr.
  destruct (Z.eqb_spec amount 0); [done|].
  destruct (Z.ltb_spec (State.GetBalance s addr) amount).
  { intros [= <- <-]. split_and!; try done. split; [done|lia]. }
  destruct (Z.ltb_spec (State.GetBalance s addr + State.GetBoundedBalance s addr) (mtrg + amount)).
  { intros [= <- <-]. split_and!; try done. split; [done|lia]. }
  intros [= <- <-]. split_and!; try done.
  intros _. split; [done|]. autorewrite with state. rewrite decide_True by done. lia.
Qed.

Lemma locked_mtrg_floor_witness :
  let '(s1, ok1) := MeterTracker.SubMeterGov (Some 12) Sample.bob (3000 * e18) SampleLock.locked in
  let '(s2, ok2) := MeterTracker.SubMeterGov (Some 12) Sample.bob (2000 * e18) SampleLock.locked in
  ok1 = false /\ s1 = SampleLock.locked /\ ok2 = true /\
  State.GetBalance s2 Sample.bob = 1000 * e18.
Proof.
  destruct (MeterTracker.SubMeterGov (Some 12) Sample.bob (3000 * e18) _) as [s1 ok1] eqn:E1.
  destruct (MeterTracker.SubMeterGov (Some 12) Sample.bob (2000 * e18) _) as [s2 ok2] eqn:E2.
  destruct (locked_mtrg_floor 12 Sample.bob (3000 * e18) SampleLock.locked 0 100 s1 ok1)
    as (H1 & H2 & _); [vm_compute; reflexivity|discriminate|exact E1|].
  destruct (locked_mtrg_floor 12 Sample.bob (2000 * e18) SampleLock.locked 0 100 s2 ok2)
    as (H3 & _ & H4); [vm_compute; reflexivity|discriminate|exact E2|].
  assert (ok1 = false) as Hf by (vm_compute in E1; congruence).
  assert (ok2 = true) as Ht by (vm_compute in E2; congruence).
  destruct (H4 Ht) as [-> _]. split; [exact Hf|]. split; [exact (H2 Hf)|].
  split; [exact Ht|]. vm_compute. reflexivity.
Defined.

(** ** Transfers with a lock *)

Lemma IsExclusiveAccount_panics s addr : IsExclusiveAccount s addr = Panic.
Proof. done. Qed.

(** A transfer out of a locked account never returns: the check that
    would exempt the executor slices the last 40 of 32 bytes.  So neither the
    executor nor the team accounts it means to exempt can use it. *)
Theorem locked_transfer_panics env ab gas p :
  ProfileList.Get (State.GetProfileList (state env)) (AccountLockBody.ToAddr ab) = None ->
  ProfileList.Get (State.GetProfileList (state env)) (AccountLockBody.FromAddr ab) = Some p ->
  HandleAccountLockTransfer env ab gas = Panic.
Proof. intros Ht Hf. unfold HandleAccountLockTransfer. by rewrite Ht, Hf. Qed.

Lemma locked_transfer_panics_witness :
  HandleAccountLockTransfer SampleLock.env
    (SampleLock.body OP_TRANSFER Sample.alice SampleLock.carol 5 5) 30000 = Panic.
Proof.
  eapply (locked_transfer_panics SampleLock.env
    (SampleLock.body OP_TRANSFER Sample.alice SampleLock.carol 5 5) 30000);
    vm_compute; reflexivity.
Defined.

(** One leg of a transfer. *)
Lemma move_balance_total from to amount s :
  amount = 0 \/ amount <= State.GetBalance s from ->
  let s' := State.AddBalance to amount (fst (State.SubBalance from amount s)) in
  total_mtrg s' = total_mtrg s /\ total_mtr s' = total_mtr s /\
  forall a, from <> to -> State.GetBalance s' a =
    State.GetBalance s a + (if a =? to then amount else 0) - (if a =? from then amount else 0).
Proof.
  intros Hle. unfold State.SubBalance, State.AddBalance.
  destruct (Z.eqb_spec amount 0) as [->|Hne].
  { simpl. split_and!; try done. intros a _. repeat case_match; lia. }
  destruct (Z.ltb_spec (State.GetBalance s from) amount); [lia|]. simpl. split_and!.
  - autorewrite with state. destruct (decide (from = to)); subst; lia.
  - by autorewrite with state.
  - intros a Hft. autorewrite with state.
    destruct (Z.eqb_spec a to) as [->|]; [|destruct (Z.eqb_spec a from) as [->|]];
      repeat case_match; try congruence; try lia.
Qed.

Lemma move_energy_total from to amount s :
  amount = 0 \/ amount <= State.GetEnergy s from ->
  let s' := State.AddEnergy to amount (fst (State.SubEnergy from amount s)) in
  total_mtrg s' = total_mtrg s /\ total_mtr s' = total_mtr s /\
  forall a, State.GetBalance s' a = State.GetBalance s a.
Proof.
  intros Hle. unfold State.SubEnergy, State.AddEnergy.
  destruct (Z.eqb_spec amount 0) as [->|Hne]; [done|].
  destruct (Z.ltb_spec (State.GetEnergy s from) amount); [lia|]. simpl. split_and!.
  - by autorewrite with state.
  - autorewrite with state. destruct (decide (from = to)); subst; lia.
  - intros a. by autorewrite with state.
Qed.

Section LockTransfer.
Context (env : ScriptEnv.t) (ab : AccountLockBody.t).
Import AccountLockBody.
Context (Hm : MeterAmount ab = 0 \/ MeterAmount ab <= State.GetEnergy (state env) (FromAddr ab)).
Context (Hg : MeterGovAmount ab = 0 \/
  MeterGovAmount ab <= State.GetBalance (state env) (FromAddr ab)).

Lemma lock_move_spec :
  let env' := lock_move env ab in
  total_mtrg (state env') = total_mtrg (state env) /\
  total_mtr (state env') = total_mtr (state env) /\
  State.profiles (state env') = State.profiles (state env) /\
  forall a, FromAddr ab <> ToAddr ab -> State.GetBalance (state env') a =
    State.GetBalance (state env) a + (if a =? ToAddr ab then MeterGovAmount ab else 0)
      - (if a =? FromAddr ab then MeterGovAmount ab else 0).
Proof using Hm Hg.
  destruct (move_energy_total (FromAddr ab) (ToAddr ab) _ _ Hm) as (H1 & H2 & H3).
  unfold lock_move. set (env1 := if MeterAmount ab =? 0 then _ else _).
  assert (total_mtrg (state env1) = total_mtrg (state env) /\
    total_mtr (state env1) = total_mtr (state env) /\
    State.profiles (state env1) = State.profiles (state env) /\
    forall a, State.GetBalance (state env1) a = State.GetBalance (state env) a)
    as (E1 & E2 & E3 & E4).
  { unfold env1. destruct (MeterAmount ab =? 0); [done|]. simpl. split_and!; try done.
    unfold State.AddEnergy, State.SubEnergy. by repeat case_match. }
  destruct (move_balance_total (FromAddr ab) (ToAddr ab) (MeterGovAmount ab) (state env1))
    as (H4 & H5 & H6); [by rewrite E4|].
  destruct (Z.eqb_spec (MeterGovAmount ab) 0) as [Ez|].
  { split_and!; try done. intros a _. rewrite E4, Ez. repeat case_match; lia. }
  simpl. split_and!; [congruence..| |].
  - unfold State.AddBalance, State.SubBalance. by repeat case_match.
  - intros a Hft. rewrite H6, E4 by done. done.
Qed.
End LockTransfer.

Lemma encodable_Add (l : ProfileList.t) p :
  sorted l -> encodable l = true -> encodable p = true -> encodable (ProfileList.Add l p) = true.
Proof.
  unfold encodable at 1 3, rlp_list. rewrite !forallb_forall. intros Hs Hl Hp x Hx.
  apply list_elem_of_In, elem_of_Add in Hx as [->|[Hin _]]; [done| |done].
  by apply Hl, list_elem_of_In.
Qed.

(** A transfer of the account lock that reports no error conserves MTR and
    MTRG, moves exactly the stated MTRG from the sender to the recipient, and
    leaves the recipient, who had no profile, locked for the stated amounts
    until the stated epoch; one that reports an error changes nothing. *)
Theorem lock_transfer_locks env ab gas env' g err :
  profiles_ok (state env) ->
  0 <= AccountLockBody.MeterAmount ab -> 0 <= AccountLockBody.MeterGovAmount ab ->
  AccountLockBody.FromAddr ab <> AccountLockBody.ToAddr ab ->
  HandleAccountLockTransfer env ab gas = Ret (env', g, err) ->
  let from := AccountLockBody.FromAddr ab in
  let to := AccountLockBody.ToAddr ab in
  let mtrg := AccountLockBody.MeterGovAmount ab in
  (err <> None -> state env' = state env) /\
  (err = None ->
     total_mtrg (state env') = total_mtrg (state env) /\
     total_mtr (state env') = total_mtr (state env) /\
     State.GetBalance (state env') from = State.GetBalance (state env) from - mtrg /\
     State.GetBalance (state env') to = State.GetBalance (state env) to + mtrg /\
     Get (State.profiles (state env)) to = None /\
     Get (State.profiles (state env')) to =
       Some (Profile.NewProfile to (AccountLockBody.Memo ab) (AccountLockBody.LockEpoch ab)
         (AccountLockBody.ReleaseEpoch ab) (AccountLockBody.MeterAmount ab) mtrg)).
Proof.
  intros [Hs He] Hm0 Hg0 Hft. unfold HandleAccountLockTransfer. rewrite (read_profiles _ Hs).
  unfold ProfileList.Get. destruct (Get _ (AccountLockBody.ToAddr ab)) eqn:Et; [by intros [= <- <- <-]|].
  destruct (Get _ (AccountLockBody.FromAddr ab)) eqn:Ef; [by rewrite IsExclusiveAccount_panics|].
  cbn [mbind outcome_bind negb].
  destruct (negb _ && _) eqn:E1; [by intros [= <- <- <-]|].
  destruct (negb (AccountLockBody.MeterGovAmount ab =? 0) && _) eqn:E2; [by intros [= <- <- <-]|].
  intros [= <- <- <-]. split; [done|]. intros _.
  destruct (lock_move_spec env ab ltac:(lia) ltac:(lia)) as (H1 & H2 & H3 & H4).
  set (p := Profile.NewProfile _ _ _ _ _ _).
  assert (encodable (ProfileList.Add (State.profiles (state env)) p) = true) as Hen.
  { apply encodable_Add; [done..|]. unfold encodable, rlp_profile, is_uint. simpl. lia. }
  simpl. unfold State.SetProfileList, State.EncodeStorage. rewrite Hen. split_and!; try done.
  - etrans; [apply (H4 (AccountLockBody.FromAddr ab) Hft)|].
    rewrite Z.eqb_refl. destruct (Z.eqb_spec (AccountLockBody.FromAddr ab) (AccountLockBody.ToAddr ab)); [congruence|lia].
  - etrans; [apply (H4 (AccountLockBody.ToAddr ab) Hft)|]. rewrite Z.eqb_refl.
    destruct (Z.eqb_spec (AccountLockBody.ToAddr ab) (AccountLockBody.FromAddr ab)); [congruence|lia].
  - simpl. unfold ProfileList.Add. rewrite Get_Add by done. by rewrite decide_True.
Qed.

Lemma lock_transfer_locks_witness :
  let ab := SampleLock.body OP_TRANSFER SampleLock.carol 13 0 70 in
  let s := SampleLock.locked <| State.accounts ::= <[SampleLock.carol := Account.holding 100 0 0 0]> |> in
  let env := Sample.env0 <| state := s |> in
  let r := HandleAccountLockTransfer env ab 30000 in
  (exists env', r = Ret (env', 14000, None)) /\
  total_mtrg (state (Sample.out r env)) = total_mtrg s /\
  State.GetBalance (state (Sample.out r env)) SampleLock.carol = 30 /\
  State.GetBalance (state (Sample.out r env)) 13 = 70.
Proof.
  intros ab s env r. split; [eexists; vm_compute; reflexivity|].
  destruct (lock_transfer_locks env ab 30000 (Sample.out r env) 14000 None) as [_ Ho].
  - split; [exact SampleLock.sorted_profiles|reflexivity].
  - discriminate.
  - discriminate.
  - discriminate.
  - vm_compute. reflexivity.
  - destruct (Ho eq_refl) as (H1 & _ & H2 & H3 & _). split; [exact H1|].
    split; [exact H2|exact H3].
Defined.
