(* ===== verification/EVMTheorems.v ===== *)
(** * Theorems on the virtual machine's state

    The transfers of value the runtime gives the machine: what they move and
    what they log. *)

From S2P Require Import Prelude KeyedList ChainParam ForkData StakingTypes Transaction AuctionTypes Stats StackedMap State Prototype ScriptEnv StakingUtils StakingHandlers AccountLock MeterTracker EVM StakingGovern Auction ScriptEngine Runtime SupplyTheorems.
Import VMState.

(** ** Journals without an early end *)

Section Journal.
Context {K V S : Type} `{Countable K} (cb : S -> K -> V -> S * bool).
Hypothesis cb_goes_on : forall s k v, snd (cb s k v) = true.
Let visit (s : S) (kv : K * V) : S := fst (cb s (fst kv) (snd kv)).

Lemma journal_level_fold s j : StackedMap.journal_level cb s j = (foldl visit s j, true).
Proof.
  revert s. induction j as [|[k v] j IH]; intros s; simpl; [done|].
  pose proof (cb_goes_on s k v) as Hok. unfold visit at 2. simpl.
  destruct (cb s k v) as [s' []]; [apply IH|done].
Qed.

Lemma journal_levels_fold s ls :
  StackedMap.journal_levels cb s ls = foldl visit s (concat (StackedMap.journal <$> ls)).
Proof.
  revert s. induction ls as [|l ls IH]; intros s; simpl; [done|].
  by rewrite journal_level_fold, IH, foldl_app.
Qed.

Lemma Journal_put s st l k v m m' :
  StackedMap.Journal cb s (StackedMap.mk (st ++ [StackedMap.put_level l k v]) m') =
  visit (StackedMap.Journal cb s (StackedMap.mk (st ++ [l]) m)) (k, v).
Proof.
  unfold StackedMap.Journal. simpl. rewrite !journal_levels_fold, !fmap_app, !concat_app.
  simpl. by rewrite !app_nil_r, app_assoc, !foldl_app.
Qed.
End Journal.

Lemma collect_goes_on acc k v : snd (collect acc k v) = true.
Proof. by destruct k, v. Qed.

(** ** Transfers of value *)

(** What an account receives less what it gives. *)
Definition flow (sender recipient : Address) (amount : Z) (a : Address) : Z :=
  (if decide (recipient = a) then amount else 0) - (if decide (sender = a) then amount else 0).

Section Transfers.
Context `{BlockChain} (ctx : BlockContext.t).
Implicit Types (s : State.t) (sender recipient a : Address).

Lemma move_balance s sender recipient amount :
  0 <= amount <= State.GetBalance s sender ->
  let s' := State.AddBalance recipient amount (fst (State.SubBalance sender amount s)) in
  (forall a, State.GetBalance s' a = State.GetBalance s a + flow sender recipient amount a) /\
  (forall a, State.GetEnergy s' a = State.GetEnergy s a) /\
  total_mtrg s' = total_mtrg s /\ total_mtr s' = total_mtr s.
Proof.
  intros Ha s'. subst s'. unfold State.AddBalance, State.SubBalance, flow.
  destruct (Z.eqb_spec amount 0) as [->|]; [split_and!; intros; repeat case_decide; simpl; lia|].
  destruct (Z.ltb_spec (State.GetBalance s sender) amount); [lia|]. simpl.
  split_and!; intros; autorewrite with state; repeat case_decide; subst; try congruence; lia.
Qed.

Lemma move_energy s sender recipient amount :
  0 <= amount <= State.GetEnergy s sender ->
  let s' := State.AddEnergy recipient amount (fst (State.SubEnergy sender amount s)) in
  (forall a, State.GetEnergy s' a = State.GetEnergy s a + flow sender recipient amount a) /\
  (forall a, State.GetBalance s' a = State.GetBalance s a) /\
  total_mtrg s' = total_mtrg s /\ total_mtr s' = total_mtr s.
Proof.
  intros Ha s'. subst s'. unfold State.AddEnergy, State.SubEnergy, flow.
  destruct (Z.eqb_spec amount 0) as [->|]; [split_and!; intros; repeat case_decide; simpl; lia|].
  destruct (Z.ltb_spec (State.GetEnergy s sender) amount); [lia|]. simpl.
  split_and!; intros; autorewrite with state; repeat case_decide; subst; try congruence; lia.
Qed.

Lemma mint_balance e s recipient amount :
  let s' := MeterTracker.MintMeterGov e recipient amount s in
  (forall a, State.GetBalance s' a =
    State.GetBalance s a + if decide (recipient = a) then amount else 0) /\
  (forall a, State.GetEnergy s' a = State.GetEnergy s a) /\
  total_mtrg s' = total_mtrg s + amount /\ total_mtr s' = total_mtr s.
Proof.
  intros s'. subst s'. split_and!; [..|apply mint_gov_total|apply mint_gov_total].
  - intros a. rewrite mint_gov_balance. rewrite Z.eqb_sym.
    destruct (Z.eqb_spec recipient a), (decide (recipient = a)); done || lia.
  - intros a. unfold MeterTracker.MintMeterGov, MeterTracker.SetMeterGovTotalAddSub.
    destruct (_ =? 0); [done|]. autorewrite with state. by destruct (_ && _).
Qed.

Lemma mint_energy e s recipient amount :
  let s' := MeterTracker.MintMeter e recipient amount s in
  (forall a, State.GetEnergy s' a =
    State.GetEnergy s a + if decide (recipient = a) then amount else 0) /\
  (forall a, State.GetBalance s' a = State.GetBalance s a) /\
  total_mtrg s' = total_mtrg s /\ total_mtr s' = total_mtr s + amount.
Proof.
  intros s'. subst s'. unfold MeterTracker.MintMeter.
  destruct (Z.eqb_spec amount 0) as [->|]; [split_and!; intros; repeat case_decide; lia|].
  set (s1 := MeterTracker.SetMeterTotalAddSub _ _ _ s).
  assert (State.accounts s1 = State.accounts s) as Hacc
    by (apply accounts_EncodeStorage; done).
  assert (forall a, State.getAccount s1 a = State.getAccount s a) as Hg
    by (intros a; unfold State.getAccount; by rewrite Hacc).
  pose proof (total_slot mtrg_of s s1 Hacc). pose proof (total_slot mtr_of s s1 Hacc).
  split_and!; intros; autorewrite with state; unfold total_mtrg, total_mtr, State.GetEnergy,
    State.GetBalance in *; rewrite ?Hg; repeat case_decide; subst; try congruence; lia.
Qed.

(** The three ways a transfer can go, by sender and token. *)
Definition transferred (sender recipient : Address) (amount token : Z) (s s' : State.t) : Prop :=
  let delta := flow sender recipient amount in
  let gain a := if decide (recipient = a) then amount else 0 in
  if decide (token <> MTR /\ token <> MTRG) then s' = s
  else
    (forall a, State.GetBalance s' a = State.GetBalance s a +
      if decide (token = MTRG) then (if IsZero sender then gain a else delta a) else 0) /\
    (forall a, State.GetEnergy s' a = State.GetEnergy s a +
      if decide (token = MTR) then (if IsZero sender then gain a else delta a) else 0) /\
    total_mtrg s' = total_mtrg s + (if IsZero sender && (token =? MTRG) then amount else 0) /\
    total_mtr s' = total_mtr s + (if IsZero sender && (token =? MTR) then amount else 0).

Lemma transfer_funds_spec db sender recipient amount token :
  0 <= amount -> can_transfer db sender amount token = true ->
  transferred sender recipient amount token (state db)
    (transfer_funds ctx sender recipient amount token (state db)).
Proof.
  unfold can_transfer, transferred, transfer_funds, MTR, MTRG. intros Ha Hc.
  destruct (IsZero sender); simpl in *.
  - destruct (Z.eqb_spec token 1) as [->|]; [|destruct (Z.eqb_spec token 0) as [->|]]; simpl.
    + destruct (IsTeslaFork8 _);
        [destruct (mint_balance MeterNativeAddr (state db) recipient amount) as (?&?&?&?)
        |destruct (mint_balance recipient (state db) recipient amount) as (?&?&?&?)];
        split_and!; intros; rewrite ?Z.add_0_r; eauto.
    + destruct (IsTeslaFork8 _);
        [destruct (mint_energy MeterNativeAddr (state db) recipient amount) as (?&?&?&?)
        |destruct (mint_energy recipient (state db) recipient amount) as (?&?&?&?)];
        split_and!; intros; rewrite ?Z.add_0_r; eauto.
    + rewrite decide_True by done. by destruct (IsTeslaFork8 _).
  - destruct (Z.eqb_spec token 1) as [->|]; [|destruct (Z.eqb_spec token 0) as [->|]]; simpl.
    + destruct (move_balance (state db) sender recipient amount) as (?&?&?&?); [lia|].
      split_and!; intros; rewrite ?Z.add_0_r; eauto.
    + destruct (move_energy (state db) sender recipient amount) as (?&?&?&?); [lia|].
      split_and!; intros; rewrite ?Z.add_0_r; eauto.
    + by rewrite decide_True by done.
Qed.
End Transfers.

Lemma transferred_zero sender recipient token s : transferred sender recipient 0 token s s.
Proof.
  unfold transferred, flow. case_decide; [done|].
  split_and!; intros; repeat case_match; repeat case_decide; lia.
Qed.

Lemma AddTransfer_spec tr db :
  StackedMap.wf (repo db) ->
  exists r, AddTransfer tr db = Ret (db <| repo := r |>) /\ StackedMap.wf r /\
    StackedMap.Journal collect ([], []) r = ((GetLogs db).1, (GetLogs db).2 ++ [tr]).
Proof.
  intros Hwf. destruct db as [st rp tra]. simpl in *. destruct rp as [ls m].
  destruct (StackedMap.split_last ls (StackedMap.wf_depth _ Hwf)) as (ls0 & l & ->).
  destruct (StackedMap.Put_spec ls0 l m transferKey (VTransfer tr) Hwf) as (m' & HP & Hwf').
  eexists. split_and!; [|exact Hwf'|].
  - unfold AddTransfer, repo_put. simpl. by rewrite HP.
  - rewrite (Journal_put collect collect_goes_on _ _ _ _ _ m). done.
Qed.

(** C24: a transfer that [CanTransfer] allows always returns.  Between two
    accounts it moves exactly the amount of MTR or MTRG and conserves both; from
    the zero address it mints exactly the amount; an unknown token moves
    nothing.  A transfer of a non-zero amount is logged once, whatever its
    token. *)
Theorem vm_transfer_exact `{BlockChain} ctx sender recipient amount token db :
  StackedMap.wf (repo db) -> 0 <= amount -> can_transfer db sender amount token = true ->
  exists db', transfer ctx sender recipient amount token db = Ret db' /\
    transferred sender recipient amount token (state db) (state db') /\
    GetLogs db' = ((GetLogs db).1, (GetLogs db).2 ++
      if amount =? 0 then [] else [Transfer.mk sender recipient amount token]).
Proof.
  intros Hwf Ha Hc. unfold transfer. destruct (Z.eqb_spec amount 0) as [->|].
  - exists db. rewrite app_nil_r. split_and!; [done|apply transferred_zero|by destruct (GetLogs db)].
  - edestruct (AddTransfer_spec (Transfer.mk sender recipient amount token)
      (db <| state ::= transfer_funds ctx sender recipient amount token |>)) as (r & -> & _ & Hl);
      [exact Hwf|].
    eexists. split_and!; [done| |exact Hl]. by apply transfer_funds_spec.
Qed.

Lemma vm_transfer_exact_witness :
  let chain : BlockChain := ChainConfig.mk "main" true in
  let ctx := BlockContext.mk 1 1 100000000 0 0 0 in
  let db := VMState.New (State.SetEnergy 5 70 State.New) in
  exists db', transfer ctx 5 7 30 MTR db = Ret db' /\ State.GetEnergy (state db') 5 = 40 /\
    State.GetEnergy (state db') 7 = 30 /\ GetLogs db' = ([], [Transfer.mk 5 7 30 MTR]).
Proof.
  intros chain ctx db.
  destruct (@vm_transfer_exact chain ctx 5 7 30 MTR db) as (db' & HT & Htr & Hl).
  - apply StackedMap.wf_New.
  - lia.
  - reflexivity.
  - exists db'. unfold transferred in Htr. rewrite decide_False in Htr by (unfold MTR; lia).
    destruct Htr as (_ & He & _). split_and!; [exact HT|rewrite He; reflexivity|rewrite He; reflexivity|].
    rewrite Hl. reflexivity.
Defined.
