(* ===== verification/EmissionTheorems.v ===== *)
(** * The MTRG emission

    The release of an epoch is split by votes (fork 12) or by votes and, within
    a delegate, by shares (fork 13).  Both schemes mint at most the release,
    and fork 13's walk over Go maps gives the same result in any order. *)

From S2P Require Import Prelude Text KeyedList ChainParam StakingTypes Ledger AuctionTypes Stats State ScriptEnv StakingUtils StakingBooks StakingHandlers AccountLock MeterTracker StakingGovern Samples SupplyTheorems.
Import ScriptEnv StakingBody.

(** ** Credits to a map *)

Definition credits (ops : list (Address * Z)) (m : gmap Address Z) : gmap Address Z :=
  foldl (fun m p => credit (fst p) (snd p) m) m ops.

Lemma credits_app l1 l2 m : credits (l1 ++ l2) m = credits l2 (credits l1 m).
Proof. apply foldl_app. Qed.

Lemma credit_comm a x b y m : credit a x (credit b y m) = credit b y (credit a x m).
Proof.
  unfold credit. destruct (decide (a = b)) as [->|Hne].
  - rewrite !lookup_insert_eq, !insert_insert_eq. simpl. f_equal. lia.
  - rewrite !lookup_insert_ne by done. by rewrite insert_insert_ne.
Qed.

#[global] Instance credits_perm : Proper ((≡ₚ) ==> (=) ==> (=)) credits.
Proof.
  intros l1 l2 Hp m ? <-. revert m.
  induction Hp as [|[a x] l1 l2 Hp IH|[a x] [b y] l|l1 l2 l3 _ IH1 _ IH2]; intros m.
  - done.
  - apply IH.
  - unfold credits. cbn [foldl fst snd]. by rewrite credit_comm.
  - by rewrite IH1.
Qed.

(** The sum of the entries of a map. *)
Definition msum (m : gmap Address Z) : Z := sum_of snd (map_to_list m).

Lemma msum_insert a x m : msum (<[a := x]> m) = msum m - default 0 (m !! a) + x.
Proof.
  unfold msum. destruct (m !! a) as [v|] eqn:E.
  - rewrite <- (insert_id m a v) at 2 by done. rewrite <- !(insert_delete_eq m).
    rewrite !map_to_list_insert by apply lookup_delete_eq. rewrite !sum_of_cons. simpl. lia.
  - rewrite map_to_list_insert by done. rewrite sum_of_cons. simpl. lia.
Qed.

Lemma msum_credits ops m : msum (credits ops m) = msum m + sum_of snd ops.
Proof.
  revert m. induction ops as [|[a x] ops IH]; intros m; [simpl; lia|].
  change (credits ((a, x) :: ops) m) with (credits ops (credit a x m)). rewrite IH. unfold credit.
  rewrite msum_insert, sum_of_cons. simpl. lia.
Qed.

Lemma credits_nonneg ops m :
  (forall a v, m !! a = Some v -> 0 <= v) -> (forall p, p ∈ ops -> 0 <= snd p) ->
  forall a v, credits ops m !! a = Some v -> 0 <= v.
Proof.
  revert m. induction ops as [|[b x] ops IH]; intros m Hm Ho; [done|].
  apply (IH (credit b x m)); [|set_solver]. intros a v. unfold credit.
  pose proof (Ho (b, x) ltac:(constructor)) as Hx. simpl in Hx.
  destruct (decide (b = a)) as [->|Hne].
  - rewrite lookup_insert_eq. intros [= <-]. destruct (m !! a) eqn:E; simpl; [|lia].
    specialize (Hm _ _ E). lia.
  - rewrite lookup_insert_ne by done. apply Hm.
Qed.

(** A loop whose body panics or credits, whatever the map. *)
Definition crediting {A} (f : gmap Address Z -> A -> outcome (gmap Address Z))
    (g : A -> option (list (Address * Z))) : Prop :=
  forall m a, f m a = match g a with Some ops => Ret (credits ops m) | None => Panic end.

Lemma mfold_crediting {A} f (g : A -> option (list (Address * Z))) l m :
  crediting f g ->
  mfold f m l = match mapM g l with Some o => Ret (credits (concat o) m) | None => Panic end.
Proof.
  intros Hf. revert m. induction l as [|a l IH]; intros m; [done|]. cbn [mfold mapM].
  rewrite Hf. destruct (g a) as [ops|]; [|done]. cbn [mbind outcome_bind option_bind].
  rewrite IH. simpl. destruct (mapM g l); [|done]. simpl. by rewrite credits_app.
Qed.

Lemma mfold_crediting_perm {A} f (g : A -> option (list (Address * Z))) l1 l2 m :
  crediting f g -> l1 ≡ₚ l2 -> mfold f m l1 = mfold f m l2.
Proof.
  intros Hf Hp. revert m.
  induction Hp as [|a l1 l2 Hp IH|a b l|l1 l2 l3 _ IH1 _ IH2]; intros m.
  - done.
  - cbn [mfold]. destruct (f m a); [apply IH|done].
  - cbn [mfold]. rewrite !Hf. destruct (g a) as [oa|] eqn:Ea, (g b) as [ob|] eqn:Eb;
      cbn [mbind outcome_bind]; rewrite ?Hf, ?Ea, ?Eb; cbn [mbind outcome_bind]; try done.
    rewrite <- !credits_app. by rewrite (Permutation_app_comm oa ob).
  - by rewrite IH1.
Qed.

Lemma sum_of_fmap {A B} (f : B -> Z) (g : A -> B) l : sum_of f (g <$> l) = sum_of (fun a => f (g a)) l.
Proof. induction l as [|a l IH]; [done|]. rewrite fmap_cons, !sum_of_cons, IH. done. Qed.

(** The only element with the key of [c] is [c]. *)
Lemma sum_of_one {A} (k : A -> Address) (h : A -> Z) l c :
  NoDup (k <$> l) -> c ∈ l -> sum_of (fun b => if k c =? k b then h b else 0) l = h c.
Proof.
  intros Hnd Hin. induction l as [|b l IH]; [by apply not_elem_of_nil in Hin|].
  rewrite fmap_cons in Hnd. apply NoDup_cons in Hnd as [Hb Hnd]. rewrite sum_of_cons.
  apply elem_of_cons in Hin as [->|Hin].
  - rewrite Z.eqb_refl. rewrite sum_of_zero; [lia|]. intros b' Hb'.
    destruct (Z.eqb_spec (k b) (k b')) as [E|]; [|done]. exfalso. apply Hb. rewrite E.
    by apply list_elem_of_fmap_2.
  - rewrite IH by done. destruct (Z.eqb_spec (k c) (k b)) as [E|]; [|lia].
    exfalso. apply Hb. rewrite <- E. by apply list_elem_of_fmap_2.
Qed.

(** ** Rounded shares *)

(** Splitting [r] in proportion to [f], rounding down, hands out at most [r]
    and loses less than one unit per part. *)
Lemma floor_shares {A} (f : A -> Z) (r v : Z) (l : list A) :
  0 < v -> sum_of f l = v -> l <> [] ->
  r - Z.of_nat (length l) < sum_of (fun a => r * f a / v) l <= r.
Proof.
  intros Hv Hs Hne.
  assert (v * sum_of (fun a => r * f a / v) l <= r * sum_of f l /\
    r * sum_of f l <= v * sum_of (fun a => r * f a / v) l + (v - 1) * Z.of_nat (length l)) as [H1 H2].
  { clear Hs Hne. induction l as [|a l IH]; [simpl; lia|].
    rewrite !sum_of_cons. cbn [length]. rewrite Nat2Z.inj_succ.
    pose proof (Z.mod_pos_bound (r * f a) v Hv). pose proof (Z.div_mod (r * f a) v ltac:(lia)). nia. }
  rewrite Hs in H1, H2. assert (0 < Z.of_nat (length l)) by (destruct l; [done|simpl; lia]).
  split; nia.
Qed.

(** ** Minting *)

Section Emission.
Context `{Hashing} `{StakingCodec} `{BlockChain} `{Emission}.
Implicit Types (env : ScriptEnv.t) (d : Delegate.t).

Lemma MintMTRG_spec addr amount env :
  let env' := MintMTRG addr amount env in
  total_mtrg (state env') = total_mtrg (state env) + amount /\
  total_mtr (state env') = total_mtr (state env) /\
  forall a, State.GetBalance (state env') a =
    State.GetBalance (state env) a + (if a =? addr then amount else 0).
Proof.
  unfold MintMTRG. destruct (Z.eqb_spec amount 0) as [->|Hne].
  { simpl. split_and!; [lia|done|]. intros a. case_match; lia. }
  destruct (IsTeslaFork8 _); simpl; (split_and!; [apply mint_gov_total..|]);
    intros a; unfold StateDB.MintBalanceAfterFork8, StateDB.MintBalance;
    rewrite mint_gov_balance; case_match; lia.
Qed.

Lemma mint_all_spec (g : Address -> Z) l env :
  let env' := foldl (fun env a => MintMTRG a (g a) env) env l in
  total_mtrg (state env') = total_mtrg (state env) + sum_of g l /\
  total_mtr (state env') = total_mtr (state env) /\
  forall a, State.GetBalance (state env') a =
    State.GetBalance (state env) a + sum_of (fun b => if a =? b then g b else 0) l.
Proof.
  revert env. induction l as [|b l IH]; intros env; [simpl; split_and!; intros; lia|].
  cbn [foldl]. destruct (IH (MintMTRG b (g b) env)) as (T1 & T2 & T3).
  destruct (MintMTRG_spec b (g b) env) as (E1 & E2 & E3).
  cbv zeta. rewrite !sum_of_cons. split_and!; [rewrite T1, E1; lia|congruence|].
  intros a. rewrite sum_of_cons, T3, E3. lia.
Qed.

Lemma release_nonneg env :
  0 <= fst (ComputeEpochReleaseWithEmissionCurve (state env) (blockTime env)).
Proof.
  unfold ComputeEpochReleaseWithEmissionCurve. repeat case_match; simpl; try done.
  apply Z.div_pos; lia.
Qed.

(** A map filled from a list with distinct keys. *)
Lemma fill_map {A V} (k : A -> Address) (v : A -> V) (l : list A) :
  NoDup (k <$> l) ->
  map_to_list (foldl (fun m x => <[k x := v x]> m) (∅ : gmap Address V) l)
    ≡ₚ (fun x => (k x, v x)) <$> l.
Proof.
  enough (forall m : gmap Address V, NoDup (k <$> l) -> (forall x, x ∈ l -> m !! k x = None) ->
    map_to_list (foldl (fun m x => <[k x := v x]> m) m l)
      ≡ₚ ((fun x => (k x, v x)) <$> l) ++ map_to_list m) as Hx.
  { intros Hnd. rewrite Hx by done. by rewrite map_to_list_empty, app_nil_r. }
  induction l as [|x l IH]; intros m Hnd Hm; [done|].
  apply NoDup_cons in Hnd as [Hx Hnd]. cbn [foldl]. rewrite IH; [|done|].
  - rewrite map_to_list_insert by (apply Hm; constructor). rewrite fmap_cons.
    symmetry. apply Permutation_middle.
  - intros y Hy. rewrite lookup_insert_ne; [apply Hm; by constructor|].
    intros E. apply Hx. rewrite E. by apply list_elem_of_fmap_2.
Qed.

(** *** Fork 12 *)

Lemma mint_shares (f : Address -> Z) r v l env :
  0 < v ->
  mfold (fun env addr => m ← big_div (r * f addr) v; Ret (MintMTRG addr m env)) env l =
    Ret (foldl (fun env a => MintMTRG a (r * f a / v) env) env l).
Proof.
  intros Hv. revert env. induction l as [|a l IH]; intros env; [done|]. cbn [mfold foldl].
  rewrite big_div_pos by done. cbn [mbind outcome_bind]. apply IH.
Qed.
End Emission.

(** The emission of fork 12 to the candidates outside jail returns as long
    as they have votes.  Each receives its exact share of the release of the
    epoch, rounded down; together they receive at most the release and lose
    less than one unit each to rounding; MTR is untouched. *)
Theorem fork12_emission_exact `{Hashing} `{StakingCodec} `{BlockChain} `{Emission}
    env candidateList inJailList :
  let valid := filter (fun c => in_jail inJailList (Candidate.Addr c) = false) candidateList in
  let votes := sum_of Candidate.TotalVotes valid in
  let release := fst (ComputeEpochReleaseWithEmissionCurve (state env) (blockTime env)) in
  NoDup (Candidate.Addr <$> candidateList) -> 0 < votes ->
  exists env', distributeMTRGAfterTeslaFork12 env candidateList inJailList = Ret env' /\
    (forall c, c ∈ valid -> State.GetBalance (state env') (Candidate.Addr c) =
       State.GetBalance (state env) (Candidate.Addr c) + release * Candidate.TotalVotes c / votes) /\
    total_mtrg (state env) + release - Z.of_nat (length valid) < total_mtrg (state env') /\
    total_mtrg (state env') <= total_mtrg (state env) + release /\
    total_mtr (state env') = total_mtr (state env).
Proof.
  intros valid votes release Hnd Hv. unfold distributeMTRGAfterTeslaFork12.
  fold valid. fold votes. fold release. set (cands := foldl _ ∅ valid).
  assert (NoDup (Candidate.Addr <$> valid)) as Hndv.
  { eapply sublist_NoDup; [exact Hnd|]. apply fmap_sublist, sublist_filter. }
  pose proof (fill_map Candidate.Addr Candidate.TotalVotes valid Hndv) as Hfill. fold cands in Hfill.
  set (addrs := sort_by _ _).
  assert (addrs ≡ₚ Candidate.Addr <$> valid) as Hp.
  { unfold addrs. rewrite sort_by_perm, Hfill, <- list_fmap_compose. done. }
  assert (forall c, c ∈ valid -> cands !! Candidate.Addr c = Some (Candidate.TotalVotes c)) as Hl.
  { intros c Hc. apply elem_of_map_to_list. rewrite Hfill. apply list_elem_of_fmap. by exists c. }
  rewrite (mint_shares (fun a => default 0 (cands !! a))) by done.
  set (g := fun a => release * default 0 (cands !! a) / votes).
  change (fun env a => MintMTRG a (release * default 0 (cands !! a) / votes) env)
    with (fun env a => MintMTRG a (g a) env).
  eexists. split; [done|]. destruct (mint_all_spec g addrs env) as (T1 & T2 & T3).
  rewrite (sum_of_perm _ _ _ Hp), sum_of_fmap in T1.
  rewrite (sum_of_ext _ (fun c => release * Candidate.TotalVotes c / votes)) in T1
    by (intros c Hc; unfold g; by rewrite Hl).
  pose proof (floor_shares Candidate.TotalVotes release votes valid Hv eq_refl) as Hfl.
  specialize (Hfl ltac:(intros E; unfold votes in Hv; rewrite E in Hv; simpl in Hv; lia)).
  split_and!; [|lia|lia|done]. intros c Hc. rewrite T3, (sum_of_perm _ _ _ Hp), sum_of_fmap.
  rewrite (sum_of_one Candidate.Addr (fun c => g (Candidate.Addr c))) by done.
  unfold g. by rewrite Hl.
Qed.

Module SampleEmission.
Definition env : ScriptEnv.t :=
  Sample.env0 <| state ::= State.Params_Set KeyTesla_Fork12_Timestamp 1690000000 |>.
Definition cand (a votes : Z) : Candidate.t :=
  @Candidate.NewCandidate a "" "" "" "" 0 0 0 <| Candidate.TotalVotes := votes |>.
Definition candidates : CandidateList.t := [cand 5 100; cand 7 200; cand 9 700].
Definition jail : InJailList.t := [InJail.NewInJail 9 "" "" 0 Infraction.empty 0 0].
Definition delegate (a votes : Z) (voters : list (Z * Z)) : Delegate.t :=
  Delegate.mk a "" "" votes "" 0 (10 ^ 8) ((fun v => Distributor.mk (fst v) 0 (snd v)) <$> voters).
Definition delegates : list Delegate.t :=
  [delegate 5 100 [(5, 10 ^ 9)]; delegate 7 200 [(7, 6 * 10 ^ 8); (9, 4 * 10 ^ 8)]].
End SampleEmission.

Lemma fork12_emission_exact_witness :
  exists env', @distributeMTRGAfterTeslaFork12 Sample.chain Sample.emission SampleEmission.env
      SampleEmission.candidates SampleEmission.jail = Ret env' /\
    State.GetBalance (state env') 7 = 3000 * e18 + 200 * e18 / 300 /\
    total_mtrg (state env') <= total_mtrg (state SampleEmission.env) + e18.
Proof.
  destruct (@fork12_emission_exact Sample.hashing Sample.codec Sample.chain Sample.emission
    SampleEmission.env SampleEmission.candidates SampleEmission.jail)
    as (env' & H1 & H2 & _ & H3 & _).
  - apply (bool_decide_eq_true_1 _). vm_compute. reflexivity.
  - vm_compute. reflexivity.
  - exists env'. split; [exact H1|]. split.
    + refine (eq_trans (H2 (SampleEmission.cand 7 200) _) _); [|vm_compute; reflexivity].
      apply list_elem_of_filter. split; [vm_compute; reflexivity|].
      apply list_elem_of_lookup. exists 1%nat. reflexivity.
    + exact H3.
Defined.

(** *** Fork 13 *)

Section Fork13.
Context `{Hashing} `{StakingCodec} `{BlockChain} `{Emission}.
Implicit Types (env : ScriptEnv.t) (d : Delegate.t).

Definition ret_option {A} (o : outcome A) : option A :=
  match o with Ret a => Some a | Panic => None end.

(** What one voter of a delegate and the delegate's commission are credited. *)
Definition voter_ops d (mtrg totalShares : Z) (voter : Address * Z)
    : option (list (Address * Z)) :=
  let (v, shares) := voter in
  reward ← ret_option (big_div (mtrg * shares) totalShares);
  let commission := reward * i64 (Delegate.Commission d) / 10 ^ 9 in
  Some ((v, 0) :: (if v =? Delegate.Address_ d then [(v, reward)]
                   else [(Delegate.Address_ d, commission); (v, reward - commission)])).

Lemma voter_crediting d mtrg total : crediting (release_voter d mtrg total) (voter_ops d mtrg total).
Proof.
  intros m [v shares]. unfold release_voter, voter_ops.
  destruct (big_div _ _) as [reward|]; [|done]. cbn [mbind outcome_bind option_bind ret_option].
  by destruct (v =? Delegate.Address_ d).
Qed.

Definition shares_of (x : Distributor.t) : Z := i64 (Distributor.Shares x).
Definition shares_map d : gmap Address Z :=
  foldl (fun m x => accumulate (Distributor.Address_ x) (shares_of x) m) ∅ (Delegate.DistList d).

Definition delegate_ops (r v : Z) d : option (list (Address * Z)) :=
  mtrg ← ret_option (big_div (r * Delegate.VotingPower d) v);
  ops ← mapM (voter_ops d mtrg (sum_of shares_of (Delegate.DistList d))) (map_to_list (shares_map d));
  Some ((Delegate.Address_ d, 0) :: concat ops).

Lemma delegate_crediting r v : crediting (release_delegate r v) (delegate_ops r v).
Proof.
  intros m d. unfold release_delegate, delegate_ops.
  destruct (big_div _ _) as [mtrg|]; [|done]. cbn [mbind outcome_bind option_bind ret_option].
  rewrite (mfold_crediting _ _ _ _ (voter_crediting d mtrg _)).
  fold shares_of. fold (shares_map d).
  by destruct (mapM _ _).
Qed.

Lemma shares_map_sum d : msum (shares_map d) = sum_of shares_of (Delegate.DistList d).
Proof.
  pose proof (msum_credits ((fun x => (Distributor.Address_ x, shares_of x)) <$> Delegate.DistList d) ∅)
    as Hc. rewrite sum_of_fmap in Hc. unfold credits in Hc. rewrite foldl_fmap in Hc. exact Hc.
Qed.

Lemma shares_map_nonneg d a v :
  (forall x, x ∈ Delegate.DistList d -> 0 <= shares_of x) -> shares_map d !! a = Some v -> 0 <= v.
Proof.
  intros Hx. pose proof (credits_nonneg ((fun x => (Distributor.Address_ x, shares_of x))
    <$> Delegate.DistList d) ∅) as Hc. unfold credits in Hc. rewrite foldl_fmap in Hc.
  apply Hc; [done|]. intros p (x & -> & Hin)%list_elem_of_fmap. by apply Hx.
Qed.
End Fork13.

(** Go walks the maps of voters and of delegates of fork 13's emission in
    an unspecified order; the map of releases it builds, or its panic, is the
    same whatever the order, so every node mints the same amounts. *)
Theorem release_order_irrelevant d mtrg totalShares release votes m voters voters' ds ds' :
  voters ≡ₚ voters' -> ds ≡ₚ ds' ->
  mfold (release_voter d mtrg totalShares) m voters =
    mfold (release_voter d mtrg totalShares) m voters' /\
  mfold (release_delegate release votes) m ds = mfold (release_delegate release votes) m ds'.
Proof.
  intros Hv Hd. split.
  - apply (mfold_crediting_perm _ (voter_ops d mtrg totalShares)); [apply voter_crediting|done].
  - apply (mfold_crediting_perm _ (delegate_ops release votes)); [apply delegate_crediting|done].
Qed.

Lemma release_order_irrelevant_witness :
  let d := SampleEmission.delegate 7 200 [] in
  mfold (release_voter d 1000 3) ∅ [(7, 1); (9, 2)] =
    mfold (release_voter d 1000 3) ∅ [(9, 2); (7, 1)].
Proof.
  intros d. apply (release_order_irrelevant d 1000 3 0 0 ∅ [(7, 1); (9, 2)] [(9, 2); (7, 1)] [] []).
  - apply Permutation_swap.
  - reflexivity.
Defined.

Section Fork13Total.
Context `{Hashing} `{StakingCodec} `{BlockChain} `{Emission}.
Implicit Types (env : ScriptEnv.t) (d : Delegate.t).

(** What [calcDelegates] writes: positive votes, a rate of at most 10^9, shares
    that fit an int64 and are not all zero. *)
Record delegate_ok d : Prop := {
  do_votes : 0 < Delegate.VotingPower d;
  do_commission : 0 <= Delegate.Commission d <= 10 ^ 9;
  do_shares : forall x, x ∈ Delegate.DistList d -> 0 <= Distributor.Shares x < 2 ^ 63;
  do_some : Delegate.DistList d <> [] -> 0 < sum_of Distributor.Shares (Delegate.DistList d)
}.

Lemma voter_ops_spec d mtrg total v shares :
  delegate_ok d -> 0 <= mtrg -> 0 < total -> 0 <= shares ->
  exists ops, voter_ops d mtrg total (v, shares) = Some ops /\
    sum_of snd ops = mtrg * shares / total /\ forall p, p ∈ ops -> 0 <= snd p.
Proof.
  intros [_ Hc _ _] Hm Ht Hs. unfold voter_ops. rewrite big_div_pos by done. simpl.
  rewrite i64_small by lia. eexists. split; [done|].
  assert (0 <= mtrg * shares / total) as Hr by (apply Z.div_pos; nia).
  set (r := mtrg * shares / total) in *.
  assert (0 <= r * Delegate.Commission d / 10 ^ 9 <= r).
  { split; [apply Z.div_pos; nia|]. apply Z.div_le_upper_bound; nia. }
  destruct (v =? Delegate.Address_ d); simpl; (split; [lia|]); intros p;
    rewrite !elem_of_cons; intros Hp; repeat destruct Hp as [->|Hp]; simpl;
    first [lia|by apply not_elem_of_nil in Hp].
Qed.

Lemma mapM_voter_ops d mtrg total l :
  delegate_ok d -> 0 <= mtrg -> 0 < total -> (forall p, p ∈ l -> 0 <= snd p) ->
  exists opss, mapM (voter_ops d mtrg total) l = Some opss /\
    sum_of snd (concat opss) = sum_of (fun p => mtrg * snd p / total) l /\
    forall p, p ∈ concat opss -> 0 <= snd p.
Proof.
  intros Hd Hm Ht. induction l as [|[v s] l IH]; intros Hl.
  { exists []. split_and!; [done|done|]. intros p Hp. by apply not_elem_of_nil in Hp. }
  destruct (voter_ops_spec d mtrg total v s Hd Hm Ht) as (ops & Ho & Hs & Hn).
  { apply (Hl (v, s)). constructor. }
  destruct IH as (opss & Ho' & Hs' & Hn'); [intros; apply Hl; by constructor|].
  exists (ops :: opss). cbn [mapM]. rewrite Ho. simpl. rewrite Ho'. simpl. split; [done|].
  rewrite sum_of_app, Hs, Hs'. split; [done|]. intros p [Hp|Hp]%elem_of_app; eauto.
Qed.

(** A delegate is credited at most its part of the release, in all. *)
Lemma delegate_ops_spec r v d :
  delegate_ok d -> 0 <= r -> 0 < v ->
  exists ops, delegate_ops r v d = Some ops /\
    sum_of snd ops <= r * Delegate.VotingPower d / v /\ forall p, p ∈ ops -> 0 <= snd p.
Proof.
  intros Hd Hr Hv. unfold delegate_ops. rewrite big_div_pos by done. cbn [ret_option mbind option_bind].
  pose proof Hd as [Hvp _ Hsh Hsome].
  assert (0 <= r * Delegate.VotingPower d / v) as Hm by (apply Z.div_pos; nia).
  set (mtrg := r * Delegate.VotingPower d / v) in *.
  assert (forall x, x ∈ Delegate.DistList d -> shares_of x = Distributor.Shares x) as Hi.
  { intros x Hx. apply i64_small. specialize (Hsh x Hx). lia. }
  destruct (decide (Delegate.DistList d = [])) as [He|Hne].
  { unfold shares_map. rewrite He. simpl. rewrite map_to_list_empty. simpl.
    eexists. split; [done|]. simpl. split; [lia|]. intros p [->|Hp]%elem_of_cons; [done|].
    by apply not_elem_of_nil in Hp. }
  pose proof (Hsome Hne) as Hpos. rewrite <- (sum_of_ext shares_of) in Hpos by done.
  destruct (mapM_voter_ops d mtrg (sum_of shares_of (Delegate.DistList d))
    (map_to_list (shares_map d)) Hd Hm Hpos) as (opss & -> & Hs & Hn).
  { intros [a s] Hin%elem_of_map_to_list. apply (shares_map_nonneg d a s); [|done].
    intros x Hx. rewrite Hi by done. apply (Hsh x Hx). }
  eexists. split; [done|]. rewrite sum_of_cons, Hs. simpl. split.
  - apply (floor_shares snd mtrg _ (map_to_list (shares_map d)) Hpos); [apply shares_map_sum|].
    intros E. pose proof (shares_map_sum d) as Hz. unfold msum in Hz. rewrite E in Hz.
    simpl in Hz. lia.
  - intros p [->|Hp]%elem_of_cons; [done|]. by apply Hn.
Qed.

Lemma delegates_ops_spec r v l :
  (forall d, d ∈ l -> delegate_ok d) -> 0 <= r -> 0 < v ->
  exists opss, mapM (delegate_ops r v) l = Some opss /\
    sum_of snd (concat opss) <= sum_of (fun d => r * Delegate.VotingPower d / v) l /\
    forall p, p ∈ concat opss -> 0 <= snd p.
Proof.
  intros Hl Hr Hv. induction l as [|d l IH].
  { exists []. split_and!; [done|done|]. intros p Hp. by apply not_elem_of_nil in Hp. }
  destruct (delegate_ops_spec r v d) as (ops & Ho & Hs & Hn); [apply Hl; constructor|done..|].
  destruct IH as (opss & Ho' & Hs' & Hn'); [intros; apply Hl; by constructor|].
  exists (ops :: opss). split; [cbn [mapM]; by rewrite Ho, Ho'|].
  cbn [concat]. rewrite sum_of_app, sum_of_cons. split; [lia|]. intros p [Hp|Hp]%elem_of_app; eauto.
Qed.
End Fork13Total.

Lemma fork13_bounded `{Hashing} `{StakingCodec} `{BlockChain} `{Emission}
    env delegateList inJailList :
  let release := fst (ComputeEpochReleaseWithEmissionCurve (state env) (blockTime env)) in
  NoDup (Delegate.Address_ <$> delegateList) -> (forall d, d ∈ delegateList -> delegate_ok d) ->
  exists env', distributeMTRGAfterTeslaFork13 env delegateList inJailList = Ret env' /\
    total_mtrg (state env) <= total_mtrg (state env') <= total_mtrg (state env) + release /\
    total_mtr (state env') = total_mtr (state env).
Proof.
  intros release Hnd Hok. unfold distributeMTRGAfterTeslaFork13. fold release.
  set (valid := filter _ delegateList). set (dm := foldl _ ∅ valid).
  assert (NoDup (Delegate.Address_ <$> valid)) as Hndv.
  { eapply sublist_NoDup; [exact Hnd|]. apply fmap_sublist, sublist_filter. }
  pose proof (fill_map Delegate.Address_ id valid Hndv) as Hfill.
  assert ((map_to_list dm).*2 ≡ₚ valid) as Hp.
  { unfold dm. etrans; [apply fmap_Permutation, Hfill|].
    rewrite <- list_fmap_compose. by rewrite list_fmap_id. }
  assert (forall d, d ∈ valid -> delegate_ok d) as Hokv.
  { intros d [_ Hd]%list_elem_of_filter. auto. }
  rewrite (mfold_crediting_perm _ _ _ valid _ (delegate_crediting _ _) Hp).
  rewrite (mfold_crediting _ _ _ _ (delegate_crediting _ _)).
  destruct (decide (valid = [])) as [->|Hne].
  { cbn [mapM mret option_ret mbind outcome_bind concat credits foldl].
    rewrite map_to_list_empty. exists env. pose proof (release_nonneg env) as Hr.
    fold release in Hr. split_and!; [done|lia..|done]. }
  assert (0 < sum_of Delegate.VotingPower valid) as Hv.
  { destruct valid as [|d l]; [done|]. rewrite sum_of_cons.
    pose proof (do_votes _ (Hokv d ltac:(constructor))).
    pose proof (sum_of_nonneg Delegate.VotingPower l) as Hn.
    assert (0 <= sum_of Delegate.VotingPower l); [|lia]. apply Hn. intros x Hx.
    pose proof (do_votes _ (Hokv x ltac:(by constructor))). lia. }
  destruct (delegates_ops_spec release _ valid Hokv (release_nonneg env) Hv) as (opss & -> & Hs & Hn).
  cbn [mbind outcome_bind]. set (m := credits (concat opss) ∅). eexists. split; [done|].
  destruct (mint_all_spec (fun a => default 0 (m !! a)) (sort_by Z.ltb (map_to_list m).*1) env)
    as (T1 & T2 & _). split; [|done]. rewrite T1, (sum_of_perm _ _ _ (sort_by_perm _ _)), sum_of_fmap.
  pose proof (floor_shares Delegate.VotingPower release _ valid Hv eq_refl Hne) as Hfl.
  rewrite (sum_of_ext _ snd).
  2: { intros [a x] Hin%elem_of_map_to_list. change (default 0 (m !! a) = x). by rewrite Hin. }
  change (sum_of snd (map_to_list m)) with (msum m). pose proof (msum_credits (concat opss) ∅) as Hms. fold m in Hms.
  change (msum ∅) with 0 in Hms. pose proof (sum_of_nonneg snd (concat opss) Hn). lia.
Qed.

(** The emission of fork 13 returns when the delegates outside jail are as
    [calcDelegates] writes them, and mints in all no more than the release of
    the epoch, commissions included; MTR is untouched. *)
Theorem fork13_emission_bounded `{Hashing} `{StakingCodec} `{BlockChain} `{Emission}
    env delegateList inJailList :
  let release := fst (ComputeEpochReleaseWithEmissionCurve (state env) (blockTime env)) in
  NoDup (Delegate.Address_ <$> delegateList) -> (forall d, d ∈ delegateList -> delegate_ok d) ->
  exists env', distributeMTRGAfterTeslaFork13 env delegateList inJailList = Ret env' /\
    total_mtrg (state env) <= total_mtrg (state env') <= total_mtrg (state env) + release /\
    total_mtr (state env') = total_mtr (state env).
Proof. apply fork13_bounded. Qed.

Lemma fork13_emission_bounded_witness :
  exists env', @distributeMTRGAfterTeslaFork13 Sample.chain Sample.emission SampleEmission.env
      SampleEmission.delegates SampleEmission.jail = Ret env' /\
    total_mtrg (state env') <= total_mtrg (state SampleEmission.env) + e18.
Proof.
  destruct (@fork13_emission_bounded Sample.hashing Sample.codec Sample.chain Sample.emission
    SampleEmission.env SampleEmission.delegates SampleEmission.jail) as (env' & H1 & H2 & _).
  - apply (bool_decide_eq_true_1 _). vm_compute. reflexivity.
  - intros d Hd. apply elem_of_cons in Hd as [->|Hd]; [|apply list_elem_of_singleton in Hd as ->];
      (split; [reflexivity|split; vm_compute; discriminate| |intros _; vm_compute; reflexivity]);
      apply Forall_forall; repeat constructor; vm_compute; discriminate.
  - exists env'. split; [exact H1|]. destruct H2 as [_ H2]. exact H2.
Defined.
