(* ===== verification/AuctionTheorems.v ===== *)
(** * What the auction guarantees

    The account of the auction module holds the MTR of every recorded bid, a
    bid moves exactly its amount or nothing, and closing an auction hands out
    the MTRG of the bids at the clearing price. *)

From S2P Require Import Prelude Text KeyedList ChainParam StakingTypes AuctionTypes Stats State ScriptEnv StakingUtils StakingHandlers AccountLock MeterTracker StakingGovern Auction Samples SupplyTheorems EmissionTheorems.
Import ScriptEnv AuctionBody.

(** The control block a clause would read. *)
Definition current_cb (s : State.t) : AuctionCB.t := fst (State.GetAuctionCB s).

(** The MTRG of a bid at a price, of all bids, and of the bids of one account. *)
Definition worth (price : Z) (tx : AuctionTx.t) : Z := AuctionTx.Amount tx * 10 ^ 18 / price.
Definition sold (price : Z) (txs : list AuctionTx.t) : Z := sum_of (worth price) txs.
Definition won (price : Z) (a : Address) (txs : list AuctionTx.t) : Z :=
  sum_of (fun tx => if a =? AuctionTx.Address_ tx then worth price tx else 0) txs.

(** A control block in order: bids sorted and not negative, their sum received,
    and, while the auction runs, a positive reserve price. *)
Record cb_ok (cb : AuctionCB.t) : Prop := {
  ok_wf : cb_wf cb;
  ok_bids : Forall (fun tx => 0 <= AuctionTx.Amount tx) (AuctionCB.AuctionTxs cb);
  ok_price : AuctionCB.IsActive cb = true -> 0 < AuctionCB.RsvdPrice cb
}.

Lemma cb_ok_empty : cb_ok AuctionCB.empty.
Proof. split; [split; [apply sorted_nil|done]|constructor|done]. Qed.

Lemma received_nonneg cb : cb_ok cb -> 0 <= AuctionCB.RcvdMTR cb.
Proof.
  intros [[_ ->] Hb _]. induction Hb as [|tx l Hx _ IH]; [done|]. rewrite sum_of_cons. lia.
Qed.

(** ** Reading the control block *)

Lemma current_set cb s : current_cb (State.SetAuctionCB cb s) = cb.
Proof. done. Qed.

Lemma get_cb_spec env :
  let (cb, env') := get_cb env in
  cb = current_cb (state env) /\ current_cb (state env') = cb /\
  State.accounts (state env') = State.accounts (state env) /\
  State.params (state env') = State.params (state env) /\
  blockNum env' = blockNum env /\ blockTime env' = blockTime env /\
  txNonce env' = txNonce env /\ clauseIndex env' = clauseIndex env /\
  State.cachedSummaries (state env') = State.cachedSummaries (state env).
Proof.
  unfold get_cb, current_cb, State.GetAuctionCB.
  destruct (State.cachedCB (state env)) as [cb|] eqn:E; simpl; [by rewrite E|done].
Qed.

(** ** Moves of MTR *)

Lemma move_mtr_spec from to amount msg env :
  0 <= amount -> from <> to ->
  let (env', err) := move_mtr from to amount msg env in
  State.cachedCB (state env') = State.cachedCB (state env) /\
  State.storedCB (state env') = State.storedCB (state env) /\
  (err = None <-> amount = 0 \/ amount <= State.GetEnergy (state env) from) /\
  (err <> None -> env' = env) /\
  (err = None -> forall a, State.GetEnergy (state env') a = State.GetEnergy (state env) a
     - (if a =? from then amount else 0) + (if a =? to then amount else 0)) /\
  (forall a, State.GetBalance (state env') a = State.GetBalance (state env) a) /\
  total_mtr (state env') = total_mtr (state env) /\
  total_mtrg (state env') = total_mtrg (state env).
Proof.
  intros Ha Hne. unfold move_mtr. destruct (Z.eqb_spec amount 0) as [->|Hz].
  { split_and!; [done|done|tauto|done| |done|done|done]. intros _ a. repeat case_match; lia. }
  destruct (Z.ltb_spec (State.GetEnergy (state env) from) amount) as [Hl|Hl].
  { split_and!; [done|done| |done|done|done|done|done]. split; [done|lia]. }
  cbn [state on_state AddTransfer update_field fst].
  unfold State.SubEnergy, State.AddEnergy. destruct (Z.eqb_spec amount 0); [done|].
  destruct (Z.ltb_spec (State.GetEnergy (state env) from) amount); [lia|]. cbn [fst].
  split_and!; [done|done|tauto|done| | | |].
  - intros _ a. autorewrite with state. repeat case_decide; repeat case_match; subst; try done; lia.
  - intros a. by autorewrite with state.
  - autorewrite with state. rewrite decide_False by done. lia.
  - by autorewrite with state.
Qed.

Lemma move_mtr_frame from to amount msg env :
  let (env', _) := move_mtr from to amount msg env in
  State.cachedSummaries (state env') = State.cachedSummaries (state env) /\
  blockNum env' = blockNum env.
Proof.
  unfold move_mtr. destruct (amount =? 0) eqn:E; [done|].
  destruct (State.GetEnergy (state env) from <? amount) eqn:E2; [done|].
  unfold State.SubEnergy, State.AddEnergy. rewrite E. simpl. by rewrite E2.
Qed.

(** ** Bids *)

Section Bid.
Context `{Hashing} `{BlockChain}.
Implicit Types (env : ScriptEnv.t) (ab : AuctionBody.t) (gas : Z).

(** The bid a clause records, and the account it is paid from. *)
Definition bid_of env ab : AuctionTx.t :=
  let fork7 := IsTeslaFork7 (blockNum env) in
  AuctionTx.NewAuctionTx (Bidder ab) (Amount ab) (Option ab)
    (if fork7 then blockTime env else Timestamp ab)
    (if fork7 then u64 (txNonce env + clauseIndex env) else Nonce ab).
Definition payer_of ab : Address :=
  if Option ab =? AUTO_BID then ValidatorBenefitAddr else Bidder ab.

(** When a bid is accepted. *)
Definition acceptable env ab : Prop :=
  AuctionCB.IsActive (current_cb (state env)) = true /\
  Amount ab <= State.GetEnergy (state env) (payer_of ab) /\
  (Option ab = AUTO_BID \/ MinimumBidAmount <= Amount ab) /\
  AuctionCB.Get (current_cb (state env)) (AuctionTx.TxID (bid_of env ab)) = None.

(** What a refused bid leaves behind: the accounts and the control block. *)
Definition unmoved env env' : Prop :=
  State.accounts (state env') = State.accounts (state env) /\
  current_cb (state env') = current_cb (state env).

(** What an accepted one does. *)
Definition bid_moved env ab env' : Prop :=
  current_cb (state env') = fst (AuctionCB.AddAuctionTx (current_cb (state env)) (bid_of env ab)) /\
  (forall a, State.GetEnergy (state env') a = State.GetEnergy (state env) a
     - (if a =? payer_of ab then Amount ab else 0)
     + (if a =? AuctionModuleAddr then Amount ab else 0)) /\
  (forall a, State.GetBalance (state env') a = State.GetBalance (state env) a) /\
  total_mtr (state env') = total_mtr (state env) /\
  total_mtrg (state env') = total_mtrg (state env).

(** The handler returned early with an error; left is that the bid was not acceptable. *)
Ltac refused := eexists _, _; split_and!; [done| |done|done]; split; [done|].

Lemma bid_spec env ab gas :
  0 <= Amount ab -> payer_of ab <> AuctionModuleAddr ->
  exists env' err, HandleAuctionTx env ab gas = Ret (env', leftOver gas, err) /\
    (err = None <-> acceptable env ab) /\ (err <> None -> unmoved env env') /\
    (err = None -> bid_moved env ab env').
Proof.
  intros Ha Hp. unfold HandleAuctionTx. pose proof (get_cb_spec env) as Hg.
  destruct (get_cb env) as [cb env1].
  destruct Hg as (-> & Hc & Hacc & _ & Hn & Ht & Hno & Hci & _).
  assert (forall a, State.GetEnergy (state env1) a = State.GetEnergy (state env) a) as He.
  { intros a. unfold State.GetEnergy, State.getAccount. by rewrite Hacc. }
  fold (payer_of ab). rewrite He, Hn, Ht, Hno, Hci.
  fold (bid_of env ab). unfold acceptable.
  destruct (AuctionCB.IsActive _) eqn:Eact; cbn [negb];
    [|refused; by intros []].
  destruct (Z.ltb_spec (State.GetEnergy (state env) (payer_of ab)) (Amount ab));
    [refused; intros (_ & ? & _); lia|].
  destruct (negb (Option ab =? AUTO_BID) && (Amount ab <? MinimumBidAmount)) eqn:Em;
    [refused; intros (_ & _ & ? & _); lia|].
  unfold AuctionCB.AddAuctionTx at 1.
  destruct (AuctionCB.Get _ _) eqn:Eg;
    [refused; by intros (_ & _ & _ & ?)|].
  set (env2 := on_state _ env1).
  assert (exists msg, (if Option ab =? AUTO_BID
    then TransferAutobidMTRToAuction (Bidder ab) (Amount ab) env2
    else TransferMTRToAuction (Bidder ab) (Amount ab) env2) =
    move_mtr (payer_of ab) AuctionModuleAddr (Amount ab) msg env2) as [msg ->].
  { unfold payer_of. case_match; by eexists. }
  pose proof (move_mtr_spec (payer_of ab) AuctionModuleAddr (Amount ab) msg env2 Ha Hp) as Hm.
  destruct (move_mtr _ _ _ _ _) as [env3 err]. destruct Hm as (_ & _ & Hi & _ & Hmv & Hb & Hr & Hg).
  change (State.GetEnergy (state env2)) with (State.GetEnergy (state env1)) in Hi.
  rewrite He in Hi. assert (err = None) as -> by (apply Hi; lia).
  eexists _, _. split; [done|]. split; [split; [|done]|split; [done|]].
  - intros _. split_and!; [done|lia|lia|done].
  - intros _. unfold bid_moved, AuctionCB.AddAuctionTx. rewrite Eg. split_and!; [done|..].
    + intros a. specialize (Hmv eq_refl a).
      change (State.GetEnergy (state env2) a) with (State.GetEnergy (state env1) a) in Hmv.
      rewrite He in Hmv. done.
    + intros a. specialize (Hb a).
      change (State.GetBalance (state env2) a) with (State.GetBalance (state env1) a) in Hb.
      unfold State.GetBalance, State.getAccount in *. by rewrite <- Hacc.
    + change (total_mtr (state env3) = total_mtr (state env)). rewrite Hr. by apply total_slot.
    + change (total_mtrg (state env3) = total_mtrg (state env)). rewrite Hg. by apply total_slot.
Qed.
End Bid.

(** ** Closing *)

Lemma credits_lookup ops (m : gmap Address Z) a :
  default 0 (credits ops m !! a) =
    default 0 (m !! a) + sum_of (fun p => if a =? fst p then snd p else 0) ops.
Proof.
  revert m. induction ops as [|[b x] ops IH]; intros m; [simpl; lia|].
  change (credits ((b, x) :: ops) m) with (credits ops (credit b x m)).
  rewrite IH, sum_of_cons. unfold credit. cbn [fst snd]. destruct (Z.eqb_spec a b) as [->|].
  - rewrite lookup_insert_eq. cbn [from_option id]. symmetry. apply Z.add_assoc.
  - rewrite lookup_insert_ne by done. lia.
Qed.

(** The sum over the keys of a map of what they hold. *)
Lemma sum_of_keys (m : gmap Address Z) :
  sum_of (fun a => default 0 (m !! a)) (map_to_list m).*1 = msum m.
Proof.
  unfold msum. rewrite sum_of_fmap. apply sum_of_ext. intros [a v] Hin.
  apply elem_of_map_to_list in Hin. simpl. by rewrite Hin.
Qed.

Lemma sum_of_pick (g : Address -> Z) (l : list Address) a :
  NoDup l -> (a ∉ l -> g a = 0) -> sum_of (fun b => if a =? b then g b else 0) l = g a.
Proof.
  intros Hnd Ha. destruct (decide (a ∈ l)) as [Hin|Hn].
  - pose proof (sum_of_one (fun b : Address => b) g l a) as Ho. rewrite list_fmap_id in Ho. by apply Ho.
  - rewrite Ha by done. apply sum_of_zero. intros b Hb.
    destruct (Z.eqb_spec a b) as [->|]; [done|lia].
Qed.

Section Clear.
Context `{Hashing} `{BlockChain}.
Implicit Types (env : ScriptEnv.t) (cb : AuctionCB.t) (price : Z).

Definition bid_ops price (txs : list AuctionTx.t) : list (Address * Z) :=
  (fun tx => (AuctionTx.Address_ tx, worth price tx)) <$> txs.

Lemma group_bids_spec price txs m addrs :
  0 < price -> addrs ≡ₚ (map_to_list m).*1 ->
  exists addrs', mfold (group_bid price) (m, addrs) txs = Ret (credits (bid_ops price txs) m, addrs') /\
    addrs' ≡ₚ (map_to_list (credits (bid_ops price txs) m)).*1.
Proof.
  intros Hp. revert m addrs. induction txs as [|tx txs IH]; intros m addrs Ha; [by exists addrs|].
  cbn [mfold]. unfold group_bid at 2, bid_mtrg. rewrite big_div_pos by done.
  cbn [mbind outcome_bind]. fold (worth price tx).
  change (credits (bid_ops price (tx :: txs)) m)
    with (credits (bid_ops price txs) (credit (AuctionTx.Address_ tx) (worth price tx) m)).
  unfold credit. destruct (m !! _) as [v|] eqn:E; cbn [default]; apply IH.
  - rewrite Ha. rewrite <- (insert_id m _ v E) at 1. rewrite <- !(insert_delete_eq m).
    by rewrite !map_to_list_insert by apply lookup_delete_eq.
  - rewrite map_to_list_insert by done. rewrite fmap_cons, Ha. symmetry. apply Permutation_cons_append.
Qed.

Lemma pay_groups_spec (m : gmap Address Z) l env total dist :
  foldl (pay_group m) (env, total, dist) l =
    (foldl (fun env a => MintMTRG a (default 0 (m !! a)) env) env l,
     total + sum_of (fun a => default 0 (m !! a)) l,
     dist ++ ((fun a => DistMtrg.mk a (default 0 (m !! a))) <$> l)).
Proof.
  revert env total dist. induction l as [|a l IH]; intros env total dist.
  { simpl. by rewrite Z.add_0_r, app_nil_r. }
  cbn [foldl]. unfold pay_group at 2. rewrite IH, sum_of_cons, fmap_cons, <- app_assoc.
  by rewrite Z.add_assoc.
Qed.

(** What a mint of MTRG leaves alone. *)
Record mint_frame env env' : Prop := {
  mf_cb : State.cachedCB (state env') = State.cachedCB (state env);
  mf_summaries : State.cachedSummaries (state env') = State.cachedSummaries (state env);
  mf_energy : forall a, State.GetEnergy (state env') a = State.GetEnergy (state env) a;
  mf_num : blockNum env' = blockNum env
}.

#[global] Instance mint_frame_refl : Reflexive mint_frame.
Proof. done. Qed.

#[global] Instance mint_frame_trans : Transitive mint_frame.
Proof. intros e1 e2 e3 [] []. split; [congruence..| |congruence]. intros a. congruence. Qed.

Lemma mint_gov_frame e addr amount s :
  let s' := MeterTracker.MintMeterGov e addr amount s in
  State.cachedCB s' = State.cachedCB s /\ State.cachedSummaries s' = State.cachedSummaries s /\
  forall a, State.GetEnergy s' a = State.GetEnergy s a.
Proof.
  unfold MeterTracker.MintMeterGov. destruct (amount =? 0) eqn:E; [done|].
  unfold MeterTracker.SetMeterGovTotalAddSub, State.EncodeStorage.
  destruct (_ && _); (split; [done|]; split; [done|]); intros a; by autorewrite with state.
Qed.

Lemma MintMTRG_frame addr amount env : mint_frame env (MintMTRG addr amount env).
Proof.
  unfold MintMTRG. destruct (amount =? 0); [done|].
  destruct (IsTeslaFork8 _);
    [destruct (mint_gov_frame MeterNativeAddr addr amount (state env)) as (? & ? & ?)
    |destruct (mint_gov_frame addr addr amount (state env)) as (? & ? & ?)]; by split.
Qed.

Lemma mint_all_frame (g : Address -> Z) l env :
  mint_frame env (foldl (fun env a => MintMTRG a (g a) env) env l).
Proof.
  revert env. induction l as [|a l IH]; intros env; [done|]. cbn [foldl].
  etrans; [apply (MintMTRG_frame a (g a))|apply IH].
Qed.

Definition price_of cb : Z :=
  Z.max (AuctionCB.RsvdPrice cb)
    (if 0 <? AuctionCB.RlsdMTRG cb then AuctionCB.RcvdMTR cb * 10 ^ 18 / AuctionCB.RlsdMTRG cb
     else AuctionCB.RsvdPrice cb).

Lemma clearing_price_spec cb : clearing_price cb = Ret (price_of cb).
Proof.
  unfold clearing_price, price_of. destruct (Z.ltb_spec 0 (AuctionCB.RlsdMTRG cb)).
  - rewrite big_div_pos by done. cbn [mbind outcome_bind]. f_equal. case_match; lia.
  - cbn [mbind outcome_bind]. f_equal. case_match; lia.
Qed.

Lemma bid_ops_won price txs a :
  sum_of (fun p => if a =? fst p then snd p else 0) (bid_ops price txs) = won price a txs.
Proof. unfold bid_ops. by rewrite sum_of_fmap. Qed.

Lemma pay_bids_spec env cb price :
  0 < price -> IsTeslaFork3 (blockNum env) = true ->
  exists env' dist,
    pay_bids env cb price = Ret (env', sold price (AuctionCB.AuctionTxs cb), dist) /\
    mint_frame env env' /\ total_mtr (state env') = total_mtr (state env) /\
    forall a, State.GetBalance (state env') a =
      State.GetBalance (state env) a + won price a (AuctionCB.AuctionTxs cb).
Proof.
  intros Hp H3. unfold pay_bids. rewrite H3.
  destruct (group_bids_spec price (AuctionCB.AuctionTxs cb) ∅ [] Hp) as (addrs & -> & Ha).
  { by rewrite map_to_list_empty. }
  cbn [mbind outcome_bind]. rewrite pay_groups_spec.
  set (m := credits _ _). set (l := sort_by Z.leb addrs).
  assert (l ≡ₚ (map_to_list m).*1) as Hl by (unfold l; by rewrite sort_by_perm).
  assert (sum_of (fun a => default 0 (m !! a)) l = sold price (AuctionCB.AuctionTxs cb)) as Hs.
  { rewrite (sum_of_perm _ _ _ Hl), sum_of_keys. unfold m. rewrite msum_credits.
    unfold msum, sold, bid_ops. rewrite map_to_list_empty, sum_of_fmap. done. }
  eexists _, _. split; [exact (f_equal (fun t => Ret (_, t, _)) Hs)|]. split; [apply mint_all_frame|].
  destruct (mint_all_spec (fun a => default 0 (m !! a)) l env) as (_ & T2 & T3).
  split; [done|]. intros a. rewrite T3. f_equal. rewrite sum_of_pick.
  - unfold m. rewrite credits_lookup, lookup_empty. cbn [from_option]. by rewrite bid_ops_won.
  - rewrite Hl. apply NoDup_fst_map_to_list.
  - intros Hn. rewrite Hl in Hn. destruct (m !! a) as [v|] eqn:E; [|done].
    exfalso. apply Hn. apply list_elem_of_fmap. exists (a, v). split; [done|].
    by apply elem_of_map_to_list.
Qed.
End Clear.

(** *** The bounds of what is sold *)

Lemma sold_paid price txs :
  0 < price -> sold price txs * price <= sum_of AuctionTx.Amount txs * 10 ^ 18.
Proof.
  intros Hp. unfold sold. induction txs as [|tx txs IH]; [done|]. rewrite !sum_of_cons.
  pose proof (Z.mul_div_le (AuctionTx.Amount tx * 10 ^ 18) price Hp) as Hd.
  change (AuctionTx.Amount tx * 10 ^ 18 / price) with (worth price tx) in Hd. lia.
Qed.

Lemma sold_bound cb :
  cb_ok cb -> 0 < AuctionCB.RlsdMTRG cb -> 0 < price_of cb ->
  sold (price_of cb) (AuctionCB.AuctionTxs cb) <=
    AuctionCB.RlsdMTRG cb + AuctionCB.RlsdMTRG cb / price_of cb.
Proof.
  intros Hok Hr Hp. pose proof (sold_paid (price_of cb) (AuctionCB.AuctionTxs cb) Hp) as Hs.
  rewrite <- (cb_total _ (ok_wf _ Hok)) in Hs.
  set (S := sold _ _) in *. set (R := AuctionCB.RcvdMTR cb * 10 ^ 18) in *.
  assert (R / AuctionCB.RlsdMTRG cb <= price_of cb) as Hq.
  { unfold price_of. rewrite (proj2 (Z.ltb_lt _ _) Hr). fold R. lia. }
  pose proof (Z.mul_succ_div_gt R _ Hr) as Hg.
  enough (S - AuctionCB.RlsdMTRG cb <= AuctionCB.RlsdMTRG cb / price_of cb) by lia.
  apply Z.div_le_lower_bound; nia.
Qed.

(** *** The whole of it *)

Section Close.
Context `{Hashing} `{BlockChain}.
Implicit Types (env : ScriptEnv.t) (cb : AuctionCB.t).

(** What the left-over account receives. *)
Definition left_over cb : Z :=
  AuctionCB.RsvdMTRG cb
  + Z.max 0 (AuctionCB.RlsdMTRG cb - sold (price_of cb) (AuctionCB.AuctionTxs cb)).
Definition benefit_of cb (ratio : Z) : Z := AuctionCB.RcvdMTR cb * ratio / 10 ^ 18.

Lemma module_benefit_ne : AuctionModuleAddr <> ValidatorBenefitAddr.
Proof. by vm_compute. Qed.

(** The effect of clearing on the accounts. *)
Record cleared env cb (ratio : Z) env' : Prop := {
  cl_balance : forall a, State.GetBalance (state env') a = State.GetBalance (state env) a
    + won (price_of cb) a (AuctionCB.AuctionTxs cb)
    + (if a =? AuctionLeftOverAccount then left_over cb else 0);
  cl_energy : forall a, State.GetEnergy (state env') a = State.GetEnergy (state env) a
    - (if a =? AuctionModuleAddr then benefit_of cb ratio else 0)
    + (if a =? ValidatorBenefitAddr then benefit_of cb ratio else 0);
  cl_mtr : total_mtr (state env') = total_mtr (state env)
}.

Lemma ClearAuction_spec env cb ratio :
  IsTeslaFork3 (blockNum env) = true -> cb_ok cb -> AuctionCB.IsActive cb = true ->
  0 <= ratio -> benefit_of cb ratio <= State.GetEnergy (state env) AuctionModuleAddr ->
  exists env' dist, ClearAuction env cb ratio = Ret (env', price_of cb,
      Z.max 0 (AuctionCB.RlsdMTRG cb - sold (price_of cb) (AuctionCB.AuctionTxs cb)), dist) /\
    cleared env cb ratio env' /\
    State.cachedSummaries (state env') = State.cachedSummaries (state env) /\
    blockNum env' = blockNum env.
Proof.
  intros H3 Hok Hact Hr Hb. unfold ClearAuction. rewrite clearing_price_spec. cbn [mbind outcome_bind].
  assert (0 < price_of cb) as Hp by (pose proof (ok_price _ Hok Hact); unfold price_of; lia).
  destruct (pay_bids_spec env cb (price_of cb) Hp H3) as (env1 & dist & -> & F1 & M1 & B1).
  cbn [mbind outcome_bind].
  set (S := sold _ _) in *. set (L := if _ <? 0 then 0 else _).
  assert (L = Z.max 0 (AuctionCB.RlsdMTRG cb - S)) as HL by (unfold L; case_match; lia).
  change MintMTRGToBidder with MintMTRG.
  pose proof (MintMTRG_spec AuctionLeftOverAccount (AuctionCB.RsvdMTRG cb) env1) as (_ & M2 & B2).
  set (env2 := MintMTRG _ (AuctionCB.RsvdMTRG cb) env1) in *.
  pose proof (MintMTRG_spec AuctionLeftOverAccount L env2) as (_ & M3 & B3).
  set (env3 := MintMTRG _ L env2) in *.
  assert (mint_frame env env3) as [_ Fs Fe Fn].
  { etrans; [apply F1|]. etrans; apply MintMTRG_frame. }
  assert (0 <= benefit_of cb ratio) as Hb0.
  { apply Z.div_pos; [|done]. apply Z.mul_nonneg_nonneg; [by apply received_nonneg|done]. }
  unfold TransferMTRToValidatorBenefit. fold (benefit_of cb ratio).
  pose proof (move_mtr_spec AuctionModuleAddr ValidatorBenefitAddr (benefit_of cb ratio)
    "not enough meter" env3 Hb0 module_benefit_ne) as Hm.
  pose proof (move_mtr_frame AuctionModuleAddr ValidatorBenefitAddr (benefit_of cb ratio)
    "not enough meter" env3) as Hf.
  destruct (move_mtr _ _ _ _ _) as [env4 err].
  destruct Hm as (_ & _ & Hi & _ & He & HB & HM & _), Hf as [Hfs Hfn].
  assert (err = None) as -> by (apply Hi; right; by rewrite Fe). specialize (He eq_refl).
  eexists _, _. rewrite <- HL. split; [done|]. split; [split|split; congruence].
  - intros a. rewrite HB, B3, B2, B1. unfold left_over. fold S. rewrite <- HL. case_match; lia.
  - intros a. by rewrite He, Fe.
  - congruence.
Qed.

Lemma cleared_ext env1 env2 env env' cb ratio :
  State.accounts (state env1) = State.accounts (state env) ->
  State.accounts (state env') = State.accounts (state env2) ->
  cleared env1 cb ratio env2 -> cleared env cb ratio env'.
Proof.
  intros Ha Ha' [Hb He Hm]. split.
  - intros a. specialize (Hb a). unfold State.GetBalance, State.getAccount in *. congruence.
  - intros a. specialize (He a). unfold State.GetEnergy, State.getAccount in *. congruence.
  - unfold total_mtr, total in *. congruence.
Qed.

(** *** Summaries *)

Definition current_summaries (s : State.t) : list AuctionSummary.t := fst (State.GetSummaryList s).

Lemma get_summaries_spec s :
  let s1 := snd (State.GetSummaryList s) in
  State.accounts s1 = State.accounts s /\ State.params s1 = State.params s /\
  current_cb s1 = current_cb s /\ State.cachedCB s1 = State.cachedCB s /\
  State.trackers s1 = State.trackers s.
Proof. unfold State.GetSummaryList, current_cb, State.GetAuctionCB. destruct (State.cachedSummaries s); simpl; by destruct (State.cachedCB s). Qed.

Lemma append_summary_spec l x :
  last (append_summary l x) = Some x /\ x ∈ append_summary l x /\
  (Z.of_nat (length l) <= AUCTION_MAX_SUMMARIES ->
   Z.of_nat (length (append_summary l x)) <= AUCTION_MAX_SUMMARIES).
Proof.
  unfold append_summary, AUCTION_MAX_SUMMARIES. destruct (Z.leb_spec 32 (Z.of_nat (length l)));
    rewrite last_snoc, length_app; (split; [done|]; split; [set_solver|]); simpl; [|lia].
  rewrite length_drop. lia.
Qed.

Lemma clean_summaries_spec l :
  length (clean_summaries l) = length l /\ last (clean_summaries l) = last l.
Proof.
  destruct l as [|x l _] using rev_ind; [done|]. unfold clean_summaries.
  replace (length (l ++ [x]) - 1)%nat with (length l) by (rewrite length_app; simpl; lia).
  by rewrite take_app_length, drop_app_length, !length_app, length_fmap, !last_snoc.
Qed.

Lemma close_spec env ab gas :
  let cb := current_cb (state env) in
  let ratio := State.Params_Get (state env) KeyValidatorBenefitRatio in
  IsTeslaFork3 (blockNum env) = true -> cb_ok cb -> AuctionCB.IsActive cb = true ->
  0 <= ratio -> benefit_of cb ratio <= State.GetEnergy (state env) AuctionModuleAddr ->
  exists env' x, CloseAuctionCB env ab gas = Ret (env', leftOver gas, None) /\
    cleared env cb ratio env' /\ current_cb (state env') = AuctionCB.empty /\
    last (current_summaries (state env')) = Some x /\
    AuctionSummary.AuctionID x = AuctionCB.AuctionID cb /\
    AuctionSummary.ActualPrice x = price_of cb /\
    (Z.of_nat (length (current_summaries (state env))) <= AUCTION_MAX_SUMMARIES ->
     Z.of_nat (length (current_summaries (state env'))) <= AUCTION_MAX_SUMMARIES).
Proof.
  intros cb ratio H3 Hok Hact Hr Hb. unfold CloseAuctionCB.
  pose proof (get_summaries_spec (state env)) as (E1 & E2 & E3 & E4 & E5).
  destruct (State.GetSummaryList (state env)) as [l s1] eqn:El. cbn [fst snd] in *.
  pose proof (get_cb_spec (env <| state := s1 |>)) as Hg.
  destruct (get_cb _) as [cb1 env1]. destruct Hg as (-> & _ & Hacc & Hpar & Hn & _).
  cbn [state update_field] in *. rewrite E3. fold cb. rewrite Hact. cbn [negb].
  unfold State.Params_Get at 1. rewrite Hpar, E2. fold (State.Params_Get (state env) KeyValidatorBenefitRatio).
  assert (same_accounts : State.accounts (state env1) = State.accounts (state env)) by congruence.
  destruct (ClearAuction_spec env1 cb ratio) as (env2 & dist & Hcl & Hc & Hs & Hn2);
    [by rewrite Hn|done|done|done|unfold State.GetEnergy, State.getAccount; by rewrite same_accounts|].
  fold cb ratio. rewrite Hcl. cbn [mbind outcome_bind].
  set (x := summarize _ _ _ _).
  destruct (append_summary_spec l x) as (Hx & _ & Hlen).
  set (l1 := if IsTeslaFork6 _ then _ else _).
  assert (length l1 = length (append_summary l x) /\ last l1 = Some x) as [Hl1 Hx1].
  { unfold l1. case_match; [|done]. by destruct (clean_summaries_spec (append_summary l x)) as [-> ->]. }
  rewrite Hn2. set (env3 := if IsTeslaFork10 _ then _ else _).
  assert (state env3 = state env2) as Hs3 by (unfold env3; by case_match).
  eexists _, x. split; [done|]. split; [|split_and!; [done|exact Hx1|done|done|]].
  - apply (cleared_ext env1 env2); [done| |done]. by rewrite <- Hs3.
  - intros Hle. cbn [current_summaries]. change (Z.of_nat (length l1) <= AUCTION_MAX_SUMMARIES).
    rewrite Hl1. apply Hlen. unfold current_summaries in Hle. by rewrite El in Hle.
Qed.
End Close.

(** ** Runs of the module *)

(** The control block is in order and the module's account covers its bids. *)
Definition auction_ok (s : State.t) : Prop :=
  cb_ok (current_cb s) /\
  AuctionCB.RcvdMTR (current_cb s) <= State.GetEnergy s AuctionModuleAddr.

Lemma auction_ok_ext s s' :
  State.accounts s' = State.accounts s -> current_cb s' = current_cb s ->
  auction_ok s -> auction_ok s'.
Proof.
  intros Ha Hc. unfold auction_ok, State.GetEnergy, State.getAccount. by rewrite Ha, Hc.
Qed.

Section Runs.
Context `{Hashing} `{BlockChain} (decode : string -> option AuctionBody.t).
Implicit Types (env : ScriptEnv.t) (ab : AuctionBody.t).

(** The parameters of the contract are sensible, the block is past fork 3, and
    nobody signs for the account of the module. *)
Definition auction_ctx env : Prop :=
  IsTeslaFork3 (blockNum env) = true /\ txOrigin env <> AuctionModuleAddr /\
  0 <= State.Params_Get (state env) KeyValidatorBenefitRatio <= 10 ^ 18 /\
  0 < State.Params_Get (state env) KeyAuctionReservedPrice.

(** A clause handled by the module, or a change outside it that neither
    rewrites the control block nor takes MTR from the module's account. *)
Inductive auction_step : ScriptEnv.t -> ScriptEnv.t -> Prop :=
| auction_clause env payload to gas ab env' g err :
    auction_ctx env -> decode payload = Some ab -> 0 <= Amount ab ->
    Auction_Handle decode env payload to gas = Ret (env', g, err) -> auction_step env env'
| auction_other env env' :
    current_cb (state env') = current_cb (state env) ->
    State.GetEnergy (state env) AuctionModuleAddr
      <= State.GetEnergy (state env') AuctionModuleAddr -> auction_step env env'.

Lemma bid_ok env ab gas env' g err :
  0 <= Amount ab -> payer_of ab <> AuctionModuleAddr ->
  HandleAuctionTx env ab gas = Ret (env', g, err) -> auction_ok (state env) -> auction_ok (state env').
Proof.
  intros Ha Hp Hh [Hok He].
  destruct (bid_spec env ab gas Ha Hp) as (env1 & err1 & Hh1 & Hacc & Hun & Hmv).
  rewrite Hh in Hh1. simplify_eq. destruct err1 as [e|].
  { destruct (Hun ltac:(done)) as [Hacc1 Hcb]. by apply (auction_ok_ext (state env)). }
  destruct (Hmv eq_refl) as (Hcb & Hen & _). destruct (proj1 Hacc eq_refl) as (Hact & _ & _ & Hg).
  assert (current_cb (state env1) = AuctionCB.Add (current_cb (state env)
    <| AuctionCB.RcvdMTR ::= fun r => r + Amount ab |>) (bid_of env ab)) as Hcb1.
  { rewrite Hcb. unfold AuctionCB.AddAuctionTx. by rewrite Hg. }
  split.
  - destruct Hok as [Hwf Hb Hpr]. split.
    + rewrite Hcb. by apply cb_wf_AddAuctionTx.
    + rewrite Hcb1. cbn [AuctionCB.Add AuctionCB.AuctionTxs update_field].
      apply Forall_forall. intros tx Htx. apply elem_of_Add in Htx; [|apply Hwf].
      destruct Htx as [->|[Hin _]]; [done|]. by eapply Forall_forall in Hb.
    + by rewrite Hcb1.
  - rewrite Hcb1. cbn [AuctionCB.Add AuctionCB.RcvdMTR update_field].
    rewrite Hen, Z.eqb_refl. case_match; lia.
Qed.

Lemma start_ok env ab gas env' g err :
  0 < State.Params_Get (state env) KeyAuctionReservedPrice ->
  StartAuctionCB env ab gas = Ret (env', g, err) -> auction_ok (state env) -> auction_ok (state env').
Proof.
  intros Hp Hh Hok. unfold StartAuctionCB in Hh. pose proof (get_cb_spec env) as Hg.
  destruct (get_cb env) as [cb env1]. destruct Hg as (-> & Hc & Hacc & Hpar & _).
  destruct (AuctionCB.IsActive _).
  { injection Hh as <- _ _. by apply (auction_ok_ext (state env)). }
  injection Hh as <- _ _. set (env2 := if IsTeslaFork10 _ then _ else env1).
  assert (state env2 = state env1) as Hs2 by (unfold env2; by case_match).
  destruct Hok as [Hok He]. split.
  - cbn. split; [split; [apply sorted_nil|done]|constructor|].
    intros _. cbn. unfold State.Params_Get in *. by rewrite Hpar.
  - change (0 <= State.GetEnergy (state env2) AuctionModuleAddr). rewrite Hs2.
    unfold State.GetEnergy, State.getAccount in *. rewrite Hacc.
    pose proof (received_nonneg _ Hok). lia.
Qed.

Lemma close_ok env ab gas env' g err :
  auction_ctx env -> CloseAuctionCB env ab gas = Ret (env', g, err) ->
  auction_ok (state env) -> auction_ok (state env').
Proof.
  intros (H3 & _ & Hr & _) Hh [Hok He]. destruct (AuctionCB.IsActive (current_cb (state env))) eqn:Eact.
  - set (cb := current_cb (state env)) in *. pose proof (received_nonneg _ Hok) as Hrec.
    set (ratio := State.Params_Get (state env) KeyValidatorBenefitRatio) in *.
    assert (0 <= benefit_of cb ratio <= AuctionCB.RcvdMTR cb) as Hb.
    { unfold benefit_of. split; [apply Z.div_pos; nia|]. apply Z.div_le_upper_bound; nia. }
    destruct (close_spec env ab gas H3 Hok Eact) as (env1 & x & Hh1 & [_ Hen _] & Hc & _);
      [apply Hr|fold cb ratio; lia|].
    rewrite Hh in Hh1. simplify_eq. unfold auction_ok. rewrite Hc. split; [apply cb_ok_empty|].
    rewrite Hen, Z.eqb_refl. fold cb ratio. cbn. case_match; lia.
  - unfold CloseAuctionCB in Hh. pose proof (get_summaries_spec (state env)) as (E1 & E2 & E3 & _).
    destruct (State.GetSummaryList (state env)) as [l s1]. cbn [snd] in *.
    pose proof (get_cb_spec (env <| state := s1 |>)) as Hg.
    destruct (get_cb _) as [cb1 env1]. destruct Hg as (-> & Hc & Hacc & _).
    cbn [state update_field] in *. rewrite E3, Eact in Hh. injection Hh as <- _ _.
    apply (auction_ok_ext (state env)); [by etrans; [exact Hacc|]|by etrans; [exact Hc|]|done].
Qed.

Lemma auction_step_ok env env' : auction_step env env' -> auction_ok (state env) -> auction_ok (state env').
Proof.
  intros [e payload to gas ab e' g err Hctx Hdec Ha Hh|e e' Hc He] Hok.
  - unfold Auction_Handle in Hh. rewrite Hdec in Hh.
    destruct (Opcode ab =? OP_START); [destruct (IsZero _); [|by simplify_eq]|].
    { eapply start_ok; [apply Hctx|done..]. }
    destruct (Opcode ab =? OP_STOP); [destruct (IsZero _); [by eapply close_ok|by simplify_eq]|].
    destruct (Opcode ab =? OP_BID); [|by simplify_eq].
    destruct (Option ab =? AUTO_BID) eqn:Eo.
    + destruct (IsZero _); [|by simplify_eq]. eapply bid_ok; [done| |done..].
      unfold payer_of. rewrite Eo. apply not_eq_sym, module_benefit_ne.
    + destruct (Z.eqb_spec (txOrigin e) (Bidder ab)) as [E|]; [|by simplify_eq].
      eapply bid_ok; [done| |done..]. unfold payer_of. rewrite Eo, <- E. apply Hctx.
  - destruct Hok as [Hok Hle]. unfold auction_ok. rewrite Hc. split; [done|lia].
Qed.
End Runs.

(** ** The guarantees *)

(** A running auction of 100 MTRG (and 5 reserved) at a reserve price of half
    an MTR, with alice, who has 50 MTR, about to bid 20. *)
Module SampleAuction.
Definition cb (txs : list AuctionTx.t) : AuctionCB.t :=
  AuctionCB.mk 99 1 1 2 2 1 (100 * e18) (5 * e18) (5 * 10 ^ 17) 1700000000
    (sum_of AuctionTx.Amount txs) txs.
Definition state0 (txs : list AuctionTx.t) (held : Z) : State.t :=
  Sample.funded
    <| State.accounts ::= <[AuctionModuleAddr := Account.holding 0 held 0 0]> |>
    <| State.storedCB := cb txs |>
    <| State.params := <[KeyAuctionReservedPrice := 5 * 10 ^ 17]>
         {[KeyValidatorBenefitRatio := 4 * 10 ^ 17]} |>.
Definition env0 : ScriptEnv.t :=
  ScriptEnv.NewScriptEnv (state0 [] 0) Sample.late 1700000000 Sample.alice 3 0 0 0.
Definition bid : AuctionBody.t :=
  AuctionBody.mk OP_BID 0 USER_BID 0 0 0 0 0 0 Sample.alice (20 * e18) 0 MTR 0 0.
Definition decode (p : string) : option AuctionBody.t :=
  if (p =? "bid")%string then Some bid else None.
Definition txs : list AuctionTx.t :=
  [AuctionTx.mk 1 Sample.alice (20 * e18) 0 0 0; AuctionTx.mk 2 Sample.bob (30 * e18) 0 0 0;
   AuctionTx.mk 3 Sample.alice (10 * e18) 0 0 0].
Definition env1 : ScriptEnv.t :=
  ScriptEnv.NewScriptEnv (state0 txs (60 * e18)) Sample.late 1700000000 ZeroAddress 3 0 0 0.

Lemma cb_ok_txs : cb_ok (cb txs).
Proof.
  split; [split; [|done]| |done].
  - repeat (done || constructor).
  - repeat (done || constructor).
Qed.
End SampleAuction.

(** C38: over any run of the auction module from fork 3 on, whatever else moves
    MTR into its account, the recorded bids stay sorted and add up to the
    recorded total, and the account of the module holds at least that total:
    the share of the validators is always covered when the auction closes. *)
Theorem auction_escrow_invariant `{Hashing} `{BlockChain} decode env env' :
  rtc (auction_step decode) env env' -> auction_ok (state env) -> auction_ok (state env').
Proof. induction 1 as [|e1 e2 e3 Hs _ IH]; [done|]. intros Hok. by eapply IH, auction_step_ok. Qed.

Lemma auction_escrow_invariant_witness :
  let env1 := Sample.out (@Auction_Handle Sample.hashing Sample.chain SampleAuction.decode
    SampleAuction.env0 "bid" (Some AuctionModuleAddr) 30000) SampleAuction.env0 in
  AuctionCB.RcvdMTR (current_cb (state env1)) = 20 * e18 /\ auction_ok (state env1).
Proof.
  split; [by vm_compute|].
  apply (@auction_escrow_invariant Sample.hashing Sample.chain SampleAuction.decode SampleAuction.env0).
  - apply rtc_once.
    eapply (auction_clause _ SampleAuction.env0 "bid" (Some AuctionModuleAddr) 30000 SampleAuction.bid).
    + by vm_compute.
    + done.
    + by vm_compute.
    + vm_compute. reflexivity.
  - split; [|by vm_compute]. split; [split; [apply sorted_nil|done]|constructor|done].
Defined.

(** A bid always returns; it is accepted exactly when an auction runs, the
    payer has the MTR, the amount reaches the minimum (autobids have none) and
    the bid is new.  An accepted bid is recorded and moves exactly its amount
    from the payer to the module; a refused one changes neither the accounts
    nor the control block. *)
Theorem auction_bid_exact `{Hashing} `{BlockChain} env ab gas :
  0 <= Amount ab -> payer_of ab <> AuctionModuleAddr ->
  exists env' err, HandleAuctionTx env ab gas = Ret (env', leftOver gas, err) /\
    (err = None <-> acceptable env ab) /\ (err <> None -> unmoved env env') /\
    (err = None -> bid_moved env ab env').
Proof. apply bid_spec. Qed.

Lemma auction_bid_exact_witness :
  exists env' err, @HandleAuctionTx Sample.hashing Sample.chain SampleAuction.env0
      SampleAuction.bid 30000 = Ret (env', leftOver 30000, err) /\ err = None /\
    State.GetEnergy (state env') Sample.alice = 30 * e18.
Proof.
  destruct (@auction_bid_exact Sample.hashing Sample.chain SampleAuction.env0 SampleAuction.bid 30000)
    as (env' & err & Hh & Hacc & _ & Hmv); [by vm_compute|by vm_compute|].
  assert (err = None) as -> by (apply Hacc; split_and!; [by vm_compute|by vm_compute|right; by vm_compute|by vm_compute]).
  exists env', None. split; [done|]. split; [done|].
  destruct (Hmv eq_refl) as (_ & He & _). rewrite He. by vm_compute.
Defined.

(** C39: from fork 3 on, closing a running auction whose escrow covers the share
    of the validators always returns without an error.  Every bidder receives
    its bids at the clearing price, rounded down bid by bid, the left-over
    account the reserved MTRG and what was not sold; MTR is only moved.  The
    bidders do not receive more than they paid for, and rounding sells at most
    one part in the price more than was released.  The auction is over, its
    summary is the last, and at most 32 are kept. *)
Theorem auction_close_exact `{Hashing} `{BlockChain} env ab gas :
  let cb := current_cb (state env) in
  let ratio := State.Params_Get (state env) KeyValidatorBenefitRatio in
  let price := price_of cb in
  IsTeslaFork3 (blockNum env) = true -> cb_ok cb -> AuctionCB.IsActive cb = true ->
  0 <= ratio -> benefit_of cb ratio <= State.GetEnergy (state env) AuctionModuleAddr ->
  (exists env' x, CloseAuctionCB env ab gas = Ret (env', leftOver gas, None) /\
    cleared env cb ratio env' /\ current_cb (state env') = AuctionCB.empty /\
    last (current_summaries (state env')) = Some x /\
    AuctionSummary.AuctionID x = AuctionCB.AuctionID cb /\
    AuctionSummary.ActualPrice x = price /\
    (Z.of_nat (length (current_summaries (state env))) <= AUCTION_MAX_SUMMARIES ->
     Z.of_nat (length (current_summaries (state env'))) <= AUCTION_MAX_SUMMARIES)) /\
  sold price (AuctionCB.AuctionTxs cb) * price <= AuctionCB.RcvdMTR cb * 10 ^ 18 /\
  (0 < AuctionCB.RlsdMTRG cb -> sold price (AuctionCB.AuctionTxs cb) <=
     AuctionCB.RlsdMTRG cb + AuctionCB.RlsdMTRG cb / price).
Proof.
  intros cb ratio price H3 Hok Hact Hr Hb.
  assert (0 < price) as Hp by (pose proof (ok_price _ Hok Hact); unfold price, price_of; lia).
  split; [by apply close_spec|]. split; [|intros; by apply sold_bound].
  rewrite (cb_total _ (ok_wf _ Hok)). by apply sold_paid.
Qed.

Lemma auction_close_exact_witness :
  exists env', @CloseAuctionCB Sample.hashing Sample.chain SampleAuction.env1
      SampleAuction.bid 30000 = Ret (env', leftOver 30000, None) /\
    State.GetBalance (state env') Sample.alice = 1050 * e18 - 1.
Proof.
  destruct (@auction_close_exact Sample.hashing Sample.chain SampleAuction.env1 SampleAuction.bid 30000)
    as [(env' & x & Hh & [Hb _ _] & _) _];
    [by vm_compute|exact SampleAuction.cb_ok_txs|by vm_compute|by vm_compute|by vm_compute|].
  exists env'. split; [done|]. rewrite Hb. by vm_compute.
Defined.
