(* ===== verification/RuntimeTheorems.v ===== *)
(** * Theorems on the execution of transactions

    What a transaction costs and who pays, what is left of one that fails, and
    the corrections in front of the clauses.  Nothing is assumed of the code that
    runs inside the machine; where a bound on the gas is stated, it is for the
    transactions whose clauses come back with no more gas than they were given,
    which a native method, that gives back gas, can break. *)

From S2P Require Import Prelude KeyedList ChainParam VMConfig Words ForkData StakingTypes Transaction TransactionTheorems AuctionTypes Stats StackedMap State Prototype ScriptEnv StakingUtils StakingHandlers AccountLock MeterTracker EVM Evolution StakingGovern Auction ScriptEngine ScriptGas Runtime Samples SupplyTheorems EVMTheorems AuctionTheorems.
Import Output(LeftOverGas, RefundGas, VMErr).

(** The code of a contract leaves at most the gas it was given, in every context
    the runtime makes. *)
Definition runtime_keeps_gas `{BlockChain} `{Deployment} `{Machine} : Prop :=
  forall block rt txCtx i, @run_keeps_gas (newEVM_context block rt txCtx i) _.

Section Transactions.
Context `{Hashing} `{StakingCodec} `{BlockChain} `{Emission} `{ScriptCodec}
        `{Deployment} `{Machine} `{TxCrypto} `{EthTypes}.
Context (engine : option Registry) (best : option Z) (ctx : BlockContext.t)
        (rt : RT.t).
Implicit Types (clause : Clause.t) (txCtx : TransactionContext.t) (s : State.t)
  (tx : Transaction.t).

Lemma GetRefund_nonneg db r : VMState.GetRefund db = Ret r -> 0 <= r.
Proof.
  unfold VMState.GetRefund. intros Hr. inv_bind Hr. destruct r0; try discriminate.
  injection Hr as <-. apply Z.mod_pos_bound. lia.
Qed.

(** Over a machine that keeps gas a clause returns at most its gas. *)
Lemma ExecuteClause_gas clause index gas txCtx s s' counter o : runtime_keeps_gas ->
  0 <= gas -> ExecuteClause engine best ctx rt clause index gas txCtx s = Ret (s', counter, o) ->
  0 <= LeftOverGas o <= gas.
Proof.
  intros Hrun Hg. unfold ExecuteClause. destruct (is_script clause); intros He.
  - inv_bind He. unfold exec_script in He. inv_bind He. destruct r0 as [[senv g] err].
    injection He as _ _ <-. simpl. apply HandleScriptData_gas in E0; [|done]. lia.
  - unfold exec_vm in He. inv_bind He. inv_bind He.
    destruct (restrictTransfer _ _ _ _ _ _).
    { injection He as _ _ <-. simpl. unfold ClauseGas, BaseTxGas, TxGas. case_match; lia. }
    destruct (rejectInvalidNativeValue _ _ _).
    { injection He as _ _ <-. simpl. unfold ClauseGas, BaseTxGas, TxGas. case_match; lia. }
    inv_bind He. destruct r1 as [[[[evm1 d] g] ca] err]. inv_bind He.
    destruct (VMState.GetLogs _). injection He as _ _ <-. simpl.
    destruct (Clause.To clause) as [to|]; inv_bind E1.
    + destruct r2 as [[[evm2 d2] g2] err2]. injection E1 as _ _ <- _ _.
      eapply (call_gas (proj2 run_gas_frugal (Hrun _ _ _ _))) in E3; lia.
    + destruct r2 as [[[[evm2 d2] g2] ca2] err2]. injection E1 as _ _ <- _ _.
      unfold Create in E3.
      eapply (create_gas (proj2 run_gas_frugal (Hrun _ _ _ _))) in E3; lia.
Qed.

Lemma ExecuteClause_refund clause index gas txCtx s s' counter o :
  ExecuteClause engine best ctx rt clause index gas txCtx s = Ret (s', counter, o) ->
  0 <= RefundGas o.
Proof.
  unfold ExecuteClause. destruct (is_script clause); intros He.
  - inv_bind He. unfold exec_script in He. inv_bind He. destruct r0 as [[senv g] err].
    by injection He as _ _ <-.
  - unfold exec_vm in He. inv_bind He. inv_bind He. apply GetRefund_nonneg in E0.
    destruct (restrictTransfer _ _ _ _ _ _); [by injection He as _ _ <-|].
    destruct (rejectInvalidNativeValue _ _ _); [by injection He as _ _ <-|].
    inv_bind He. destruct r1 as [[[[evm1 d] g] ca] err]. inv_bind He. apply GetRefund_nonneg in E2.
    destruct (VMState.GetLogs _). by injection He as _ _ <-.
Qed.

Lemma refunded_range gas o :
  0 <= gas < 2 ^ 64 -> 0 <= LeftOverGas o <= gas -> 0 <= RefundGas o ->
  LeftOverGas o <= refunded gas o <= gas.
Proof.
  intros Hg Hl Hr. unfold refunded. rewrite (u64_id (gas - _)) by (unfold MaxUint64; lia).
  set (used := gas - LeftOverGas o).
  assert (0 <= used / 2 <= used) by (split; [apply Z.div_pos|apply Z.div_le_upper_bound]; lia).
  rewrite u64_id; case_match; unfold MaxUint64 in *; lia.
Qed.

(** Whatever the clauses do, the gas left is a number of its width; when the
    executor reverts, it is back at the checkpoint. *)
Lemma run_clauses_spec checkpoint txCtx i clauses gas outs s s' g reverted outs' :
  0 <= gas < 2 ^ 64 ->
  run_clauses engine best ctx rt checkpoint txCtx i clauses gas outs s = Ret (s', g, reverted, outs') ->
  0 <= g < 2 ^ 64 /\ (reverted = true -> exists s1, s' = State.RevertTo checkpoint s1).
Proof.
  revert txCtx i gas outs s. induction clauses as [|c cs IH]; simpl; intros txCtx i gas outs s Hg Hr.
  { injection Hr as _ <- <- _. by split. }
  inv_bind Hr. destruct r as [[s1 counter] o].
  assert (0 <= refunded gas o < 2 ^ 64) as Hw by (by apply Z.mod_pos_bound).
  destruct (VMErr o).
  - injection Hr as <- <- _ _. split; [done|eauto].
  - by apply IH in Hr.
Qed.

(** No clause of a run comes back with more gas than it was given. *)
Fixpoint clauses_frugal txCtx (i : Z) (clauses : list Clause.t) (gas : Z) s : Prop :=
  match clauses with
  | [] => True
  | c :: cs => forall s1 counter o,
      ExecuteClause engine best ctx rt c i gas txCtx s = Ret (s1, counter, o) ->
      0 <= LeftOverGas o <= gas /\
      clauses_frugal (txCtx <| TransactionContext.Counter := counter |>) (i + 1) cs (refunded gas o) s1
  end.
Definition tx_frugal tx s : Prop := forall r bought p txCtx,
  ResolveTransaction tx = Ret (inr r) -> BuyGas r (BlockContext.Time ctx) s = (bought, inr p) ->
  ToContext ctx rt r (Purchase.gasPrice p) = Ret txCtx ->
  clauses_frugal txCtx 0 (ResolvedTransaction.Clauses r)
    (Transaction.Gas tx - ResolvedTransaction.IntrinsicGas r) bought.

Lemma run_clauses_gas checkpoint txCtx i clauses gas outs s s' g reverted outs' :
  clauses_frugal txCtx i clauses gas s -> 0 <= gas < 2 ^ 64 ->
  run_clauses engine best ctx rt checkpoint txCtx i clauses gas outs s = Ret (s', g, reverted, outs') ->
  0 <= g <= gas.
Proof.
  revert txCtx i gas outs s. induction clauses as [|c cs IH]; simpl; intros txCtx i gas outs s Hf Hg Hr.
  { injection Hr as _ <- _ _. lia. }
  inv_bind Hr. destruct r as [[s1 counter] o]. destruct (Hf _ _ _ E) as [Hl Hcs].
  pose proof (refunded_range gas o Hg Hl (ExecuteClause_refund _ _ _ _ _ _ _ _ E)).
  destruct (VMErr o); [injection Hr as _ <- _ _; lia|].
  apply IH in Hr; [lia|done|lia].
Qed.

Lemma keeps_gas_clauses txCtx i clauses gas s : runtime_keeps_gas -> 0 <= gas < 2 ^ 64 ->
  clauses_frugal txCtx i clauses gas s.
Proof.
  intros Hrun. revert txCtx i gas s.
  induction clauses as [|c cs IH]; simpl; intros txCtx i gas s Hg; [done|].
  intros s1 counter o E. pose proof (ExecuteClause_gas _ _ _ _ _ _ _ _ Hrun (proj1 Hg) E) as Hl.
  split; [done|]. apply IH.
  pose proof (refunded_range gas o Hg Hl (ExecuteClause_refund _ _ _ _ _ _ _ _ E)). lia.
Qed.

(** ** Resolving and buying *)

Lemma IntrinsicGas_nonneg e1 e2 cs g : IntrinsicGas e1 e2 cs = inr g -> 0 <= g.
Proof.
  unfold IntrinsicGas. destruct cs as [|c cs]; cbn [length Nat.eqb].
  { intros [=<-]. unfold TxGas, ClauseGas, BaseTxGas, TxGas. lia. }
  intros Hg. apply gas_loop_sound in Hg as [-> _]; [|unfold TxGas, MaxUint64; lia].
  pose proof (sum_of_nonneg (clause_cost e1) (c :: cs) (fun a _ => clause_cost_nonneg e1 a)).
  unfold TxGas. lia.
Qed.

Lemma ResolveTransaction_spec tx r :
  ResolveTransaction tx = Ret (inr r) ->
  ResolvedTransaction.tx r = tx /\ ResolvedTransaction.Clauses r = Transaction.Clauses tx /\
  Signer tx = Ret (inr (ResolvedTransaction.Origin r)) /\
  Transaction_IntrinsicGas tx = inr (ResolvedTransaction.IntrinsicGas r) /\
  0 <= ResolvedTransaction.IntrinsicGas r <= Transaction.Gas tx.
Proof.
  unfold ResolveTransaction. intros Hr. inv_bind Hr. destruct r0 as [|origin]; [discriminate|].
  destruct (Transaction_IntrinsicGas tx) as [|ig] eqn:Eg; [discriminate|].
  destruct (Z.ltb_spec (Transaction.Gas tx) ig); [discriminate|].
  destruct (check_values _ _); [discriminate|]. injection Hr as <-. simpl.
  split_and!; try done. by eapply IntrinsicGas_nonneg.
Qed.

(** Whoever pays, the whole gas is prepaid at the price of the transaction. *)
Lemma BuyGas_spec r t s s1 p :
  BuyGas r t s = (s1, inr p) -> ResolvedTransaction.Origin r <> 0 ->
  let base := State.Params_Get s KeyBaseGasPrice in
  let price := GasPrice (ResolvedTransaction.tx r) base in
  Purchase.baseGasPrice p = base /\ Purchase.gasPrice p = price /\
  State.SubEnergy (Purchase.payer p) (Transaction.Gas (ResolvedTransaction.tx r) * price) s
    = (s1, true).
Proof.
  intros Hb Ho base price. unfold BuyGas in Hb. fold base in Hb. fold price in Hb.
  set (prepaid := Transaction.Gas _ * price) in *.
  assert (IsZero (ResolvedTransaction.Origin r) = false) as Hz by (unfold IsZero; lia).
  rewrite Hz in Hb. cbn [negb] in Hb.
  assert (forall a s0 (b : bool), State.SubEnergy a prepaid s = (s0, b) -> b = false -> s0 = s) as Hsame.
  { intros a s0 b. unfold State.SubEnergy. repeat case_match; intros [=]; by subst. }
  destruct (State.SubEnergy (ResolvedTransaction.Origin r) prepaid s) as [so bo] eqn:Eo.
  destruct (CommonTo r) as [to|].
  2:{ destruct bo; [|discriminate]. injection Hb as <- <-. by split_and!. }
  destruct (_ <? prepaid).
  { destruct bo; [|discriminate]. injection Hb as <- <-. by split_and!. }
  assert (forall s0, s0 = s ->
    match State.SubEnergy to prepaid s0 with
    | (s2, true) => (s2, inr (Purchase.mk base price to (Some (to, Binding.UserCredit to s
        (ResolvedTransaction.Origin r) t, prepaid))))
    | (s2, false) => match State.SubEnergy (ResolvedTransaction.Origin r) prepaid s2 with
        | (s3, true) => (s3, inr (Purchase.mk base price (ResolvedTransaction.Origin r) None))
        | (s3, false) => (s3, inl "insufficient energy")
        end
    end = (s1, inr p) ->
    Purchase.baseGasPrice p = base /\ Purchase.gasPrice p = price /\
    State.SubEnergy (Purchase.payer p) prepaid s = (s1, true)) as Hto.
  { intros s0 ->. destruct (State.SubEnergy to prepaid s) as [st bt] eqn:Et. destruct bt.
    - intros [=<- <-]. by split_and!.
    - rewrite (Hsame to st false Et eq_refl), Eo. destruct bo; [|discriminate].
      intros [=<- <-]. by split_and!. }
  destruct (Binding.IsSponsor to s _); [|by apply (Hto s)].
  destruct (State.SubEnergy (Binding.CurrentSponsor to s) prepaid s) as [ss bs] eqn:Es.
  destruct bs; [injection Hb as <- <-; by split_and!|].
  rewrite (Hsame _ ss false Es eq_refl) in Hb. by apply (Hto s).
Qed.

(** Over a machine that keeps gas every transaction is frugal. *)
Lemma keeps_gas_tx tx s : runtime_keeps_gas -> 0 <= Transaction.Gas tx < 2 ^ 64 -> tx_frugal tx s.
Proof.
  intros Hrun Hg r bought p txCtx Hres _ _. apply ResolveTransaction_spec in Hres as (_ & _ & _ & _ & Hig).
  apply keeps_gas_clauses; [done|lia].
Qed.

(** ** From the receipt back *)

(** The run behind a receipt: what was resolved and bought, the state the
    clauses left and the gas they did not use. *)
Record executed tx s s' (rc : Receipt.t) (r : ResolvedTransaction.t) (p : Purchase.t)
    (bought left : State.t) (g : Z) : Prop := {
  ex_resolved : ResolveTransaction tx = Ret (inr r);
  ex_bought : BuyGas r (BlockContext.Time ctx) s = (bought, inr p);
  ex_gas : 0 <= g < 2 ^ 64;
  ex_frugal : tx_frugal tx s -> g <= Transaction.Gas tx - ResolvedTransaction.IntrinsicGas r;
  ex_reverted : Receipt.Reverted rc = true -> exists s1, left = State.RevertTo bought s1;
  ex_final : Finalize ctx rt tx (ResolvedTransaction.Origin r) p g (Receipt.Reverted rc)
      (Receipt.Outputs rc) (State.CommitScriptEngineChanges left) = Ret (s', rc)
}.

Lemma ExecuteTransaction_inv tx s s' rc :
  0 <= Transaction.Gas tx < 2 ^ 64 ->
  ExecuteTransaction engine best ctx rt tx s = Ret (s', inr rc) ->
  exists r p bought left g, executed tx s s' rc r p bought left g.
Proof.
  intros Hg. unfold ExecuteTransaction. intros Hx. inv_bind Hx.
  destruct r as [err|r]; [discriminate|].
  destruct (BuyGas r _ s) as [bought [err|p]] eqn:Eb; [discriminate|].
  inv_bind Hx. inv_bind Hx. destruct r1 as [[[left g] reverted] outs].
  inv_bind Hx. destruct r1 as [s2 rc2]. injection Hx as <- <-.
  pose proof (ResolveTransaction_spec _ _ E) as (_ & _ & _ & _ & Hig).
  pose proof E1 as E3. apply run_clauses_spec in E3 as [Hgas Hrev]; [|lia].
  assert (Receipt.Reverted rc2 = reverted /\ Receipt.Outputs rc2 = outs) as [Hr1 Ho1].
  { unfold Finalize in E2. inv_bind E2. by injection E2 as _ <-. }
  exists r, p, bought, left, g. split; rewrite ?Hr1, ?Ho1; try done.
  intros Hfr. apply run_clauses_gas in E1; [lia|by apply (Hfr _ _ p)|lia].
Qed.

Lemma ProvedWork_nonneg tx n w :
  (forall t a k, 0 <= work_hash t a k) -> ProvedWork (RT.GetID rt) tx n = Ret w -> 0 <= w.
Proof.
  intros Hw. unfold ProvedWork. repeat (case_match; [intros [=<-]; lia|]).
  case_match; [|intros [=<-]; lia]. unfold UnprovedWork. intros Hu. inv_bind Hu.
  destruct r as [|a]; [injection Hu as <-; lia|]. revert Hu. unfold big_div.
  specialize (Hw tx a (Transaction.Nonce tx)).
  destruct (Z.eqb_spec (work_hash tx a (Transaction.Nonce tx)) 0); [discriminate|].
  destruct (Z.ltb_spec (work_hash tx a (Transaction.Nonce tx)) 0); [lia|].
  intros [=<-]. apply Z.div_pos; [unfold MaxBig256; lia|lia].
Qed.

(** What a settled receipt says. *)
Lemma Finalize_receipt tx origin p g reverted outs s s' rc :
  Finalize ctx rt tx origin p g reverted outs s = Ret (s', rc) ->
  Receipt.GasUsed rc = u64 (Transaction.Gas tx - g) /\ Receipt.GasPayer rc = Purchase.payer p /\
  Receipt.Paid rc = Receipt.GasUsed rc * Purchase.gasPrice p /\
  exists overall, OverallGasPrice (RT.GetID rt) tx (Purchase.baseGasPrice p)
      (u32 (BlockContext.Number ctx - 1)) = Ret overall /\
    Receipt.Reward rc = Receipt.GasUsed rc * overall.
Proof.
  unfold Finalize. intros Hf. inv_bind Hf. injection Hf as _ <-. simpl.
  split_and!; try done. eauto.
Qed.
End Transactions.

(** A transaction of the kind the network accepts: the widths of its fields, a
    signature, and a hash that is a number. *)
Record signed `{BlockChain} `{TxCrypto} `{EthTypes} (tx : Transaction.t) (origin : Address)
    (base : Z) : Prop := {
  sg_gas : 0 <= Transaction.Gas tx < 2 ^ 64;
  sg_coef : 0 <= Transaction.GasPriceCoef tx <= 255;
  sg_base : 0 <= base;
  sg_origin : Signer tx = Ret (inr origin) /\ origin <> 0;
  sg_hash : forall t a k, 0 <= work_hash t a k
}.

Section Receipts.
Context `{Hashing} `{StakingCodec} `{BlockChain} `{Emission} `{ScriptCodec}
        `{Deployment} `{Machine} `{TxCrypto} `{EthTypes}.
Context (engine : option Registry) (best : option Z) (ctx : BlockContext.t)
        (rt : RT.t).
Implicit Types (s : State.t) (tx : Transaction.t).

Lemma executed_bought tx s s' rc r p bought left g origin :
  let base := State.Params_Get s KeyBaseGasPrice in
  signed tx origin base -> executed engine best ctx rt tx s s' rc r p bought left g ->
  ResolvedTransaction.Origin r = origin /\
  Purchase.baseGasPrice p = base /\ Purchase.gasPrice p = GasPrice tx base /\
  State.SubEnergy (Purchase.payer p) (Transaction.Gas tx * GasPrice tx base) s = (bought, true).
Proof.
  intros base Hs Hx. destruct Hx as [Hres Hb Hg _ Hrev Hf].
  destruct (ResolveTransaction_spec _ _ Hres) as (Htx & Hcl & Hsg & Hi & Hig).
  destruct (sg_origin _ _ _ Hs) as [Hsg' Hne]. rewrite Hsg in Hsg'. injection Hsg' as Ho.
  destruct (BuyGas_spec _ _ _ _ _ Hb) as (? & ? & ?); [by rewrite Ho|]. rewrite Htx in *. done.
Qed.

Lemma executed_receipt tx s s' rc r p bought left g origin :
  let base := State.Params_Get s KeyBaseGasPrice in
  signed tx origin base -> executed engine best ctx rt tx s s' rc r p bought left g ->
  Receipt.GasUsed rc = u64 (Transaction.Gas tx - g) /\ Receipt.GasPayer rc = Purchase.payer p /\
  Receipt.Paid rc = Receipt.GasUsed rc * GasPrice tx base /\
  Receipt.Paid rc <= Receipt.Reward rc <= Receipt.Paid rc + Receipt.GasUsed rc * base.
Proof.
  intros base Hs Hx. destruct (executed_bought _ _ _ _ _ _ _ _ _ _ Hs Hx) as (Ho & Hbase & Hprice & Hsub).
  destruct Hx as [Hres Hb Hg _ Hrev Hf]. destruct Hs as [Hgas Hcoef Hb0 Hsg Hhash].
  destruct (Finalize_receipt _ _ _ _ _ _ _ _ _ _ _ Hf) as (Hu & Hp & Hpaid & o & Ho1 & Hrw).
  assert (0 <= Receipt.GasUsed rc) by (rewrite Hu; by apply Z.mod_pos_bound).
  rewrite Hprice in Hpaid. rewrite Hbase in Ho1. fold base in Ho1, Hpaid |- *.
  apply OverallGasPrice_range in Ho1; [|done|lia|by intros; eapply ProvedWork_nonneg].
  split_and!; try done; rewrite Hrw, Hpaid; nia.
Qed.

Lemma SubEnergy_true a amount s s1 :
  State.SubEnergy a amount s = (s1, true) ->
  amount <= State.GetEnergy s a \/ amount = 0.
Proof.
  unfold State.SubEnergy. destruct (Z.eqb_spec amount 0); [by right|].
  destruct (Z.ltb_spec (State.GetEnergy s a) amount); [discriminate|]. by left.
Qed.
End Receipts.

(** C23: the receipt of a signed transaction is exact.  The payer had the whole
    gas covered beforehand and pays the gas used at the price of the transaction,
    and the proposer is rewarded with what was paid and at most the base price on
    top for proved work.  When no clause comes back with more gas than it was
    given, as over a machine without native methods, which give back gas, the gas
    used lies between the intrinsic gas and the gas of the transaction. *)
Theorem receipt_exact `{Hashing} `{StakingCodec} `{BlockChain} `{Emission} `{ScriptCodec}
    `{Deployment} `{Machine} `{TxCrypto} `{EthTypes} engine best ctx rt tx s s' rc origin :
  let base := State.Params_Get s KeyBaseGasPrice in
  signed tx origin base ->
  ExecuteTransaction engine best ctx rt tx s = Ret (s', inr rc) ->
  Receipt.Paid rc = Receipt.GasUsed rc * GasPrice tx base /\
  Receipt.Paid rc <= Receipt.Reward rc <= Receipt.Paid rc + Receipt.GasUsed rc * base /\
  (0 < Transaction.Gas tx * GasPrice tx base ->
   Transaction.Gas tx * GasPrice tx base <= State.GetEnergy s (Receipt.GasPayer rc)) /\
  exists ig, Transaction_IntrinsicGas tx = inr ig /\
    (tx_frugal engine best ctx rt tx s -> ig <= Receipt.GasUsed rc <= Transaction.Gas tx).
Proof.
  intros base Hs Hx.
  destruct (ExecuteTransaction_inv engine best ctx rt _ _ _ _ (sg_gas _ _ _ Hs) Hx)
    as (r & p & bought & left & g & He).
  destruct (executed_receipt _ _ _ _ _ _ _ _ _ _ _ _ _ _ Hs He) as (Hu & Hp & Hpaid & Hrew).
  destruct (executed_bought _ _ _ _ _ _ _ _ _ _ _ _ _ _ Hs He) as (_ & _ & _ & Hsub).
  destruct He as [Hres _ Hg Hfr _ _]. pose proof (sg_gas _ _ _ Hs).
  destruct (ResolveTransaction_spec _ _ Hres) as (_ & _ & _ & Hi & Hig).
  split_and!; try done; [lia..| |].
  - rewrite Hp. subst base. apply SubEnergy_true in Hsub as [?|?]; lia.
  - exists (ResolvedTransaction.IntrinsicGas r). split; [done|]. intros Hf. specialize (Hfr Hf).
    rewrite Hu, u64_id by (unfold MaxUint64; lia). lia.
Qed.

(** ** Failed transactions *)





















(** ** A run *)

Module SampleRuntime.
(** Payloads are told apart by their text. *)
#[export] Instance script_codec : ScriptCodec := {|
  rlp_ScriptData := fun d =>
    if ScriptData.ModID d =? AUCTION_MODULE_ID then "auction-bid" else "lock-governing";
  decode_ScriptData := fun p =>
    if (p =? "auction-bid")%string then Some (ScriptData.mk 0 AUCTION_MODULE_ID "bid")
    else if (p =? "lock-governing")%string
    then Some (ScriptData.mk 0 ACCOUNTLOCK_MODULE_ID "governing") else None;
  decode_AuctionBody := SampleAuction.decode;
  decode_AccountLockBody := fun p =>
    if (p =? "governing")%string
    then Some (AccountLockBody.mk OP_LOCK_GOVERNING 0 0 0 0 0 0 0 0 "") else None
|}.
#[export] Instance deployment : Deployment := {|
  NewMeterNative_BinRuntime := "1"; MeterGovERC20Permit_DeployedBytecode := "2";
  MeterNative_V3_DeployedBytecode := "3"; ScriptEngine_DeployedBytecode := "4";
  MeterGovERC20Permit_V3_DeployedBytecode := "5"; MeterERC20Permit_V3_DeployedBytecode := "6";
  MeterNative_V4_DeployedBytecode := "7"; ScriptEngine_V2_DeployedBytecode := "8";
  MeterNative_V5_DeployedBytecode := "9"; ScriptEngine_V3_DeployedBytecode := "10";
  ERC20MinterBurnerPauserPermitForReplacement_DeployedBytecode := "11";
  CreateContractAddress := fun id i n => 1000000 + Z.abs (id + i + n);
  EthCreateContractAddress := fun a n => 2000000 + Z.abs (a + n);
  prototypeSetMasterEvent := 1; energyTransferEvent := 2;
  encode_address := fun _ => ""; encode_uint256 := fun _ => "";
  FindNativeCall := fun _ _ => None
|}.
(** A machine whose contracts do nothing and use no gas. *)
#[export] Instance machine : Machine := {|
  keccak := fun code => Z.of_nat (String.length code);
  run := fun _ evm c input => Ret (evm, "", Contract.Gas c, None)
|}.

Lemma machine_keeps_gas `{BlockChain} `{Deployment} : @runtime_keeps_gas _ _ machine.
Proof. intros block rt txCtx i evm c input evm' ret g err Hg [=]. lia. Qed.

Definition registry : Registry :=
  match StartTeslaForkModules ∅ with
  | Ret r => match ModuleAccountLockInit r with Ret r => r | Panic => ∅ end
  | Panic => ∅
  end.
Definition rt : RT.t := RT.mk (fun _ => 0) 1001 0.
Definition ctx : BlockContext.t := BlockContext.mk Sample.bob Sample.bob Sample.late 1700000000 0 0.
Definition bid_clause : Clause.t :=
  Clause.WithData (EncodeScriptData Module_.Auction "bid") (Clause.NewClause (Some AuctionModuleAddr)).
(** The pattern behind the prefix is wrong. *)
Definition bad_clause : Clause.t :=
  Clause.WithData (String.append ScriptPrefix "not-the-pattern") (Clause.NewClause (Some 9)).
(** A transaction of alice. *)
Definition tx (clauses : list Clause.t) : Transaction.t :=
  Transaction.mk 1 0 100 clauses 0 100000 None 7 [] "alice".
Definition state0 : State.t :=
  SampleAuction.state0 [] 0 <| State.params ::= <[KeyBaseGasPrice := 5 * 10 ^ 11]> |>.
Definition execute (clauses : list Clause.t) : outcome (State.t * (string + Receipt.t)) :=
  @ExecuteTransaction Sample.hashing Sample.codec Sample.chain Sample.emission script_codec
    deployment machine SampleTx.crypto SampleTx.eth (Some registry) (Some 10) ctx rt
    (tx clauses) state0.
Definition after (clauses : list Clause.t) : State.t :=
  match execute clauses with Ret (s, _) => s | Panic => state0 end.
Definition receipt (clauses : list Clause.t) : Receipt.t :=
  match execute clauses with
  | Ret (_, inr rc) => rc
  | _ => Receipt.mk 0 0 0 0 false []
  end.

Lemma tx_signed clauses :
  @signed Sample.chain SampleTx.crypto SampleTx.eth (tx clauses) Sample.alice (5 * 10 ^ 11).
Proof.
  split.
  - vm_compute. split; [discriminate|reflexivity].
  - vm_compute. split; discriminate.
  - vm_compute. discriminate.
  - split; [reflexivity|discriminate].
  - intros t a k. simpl. lia.
Qed.
End SampleRuntime.

Lemma receipt_exact_witness :
  exists s' rc, SampleRuntime.execute [SampleRuntime.bid_clause] = Ret (s', inr rc) /\
    38292 = Receipt.GasUsed rc /\ Receipt.Paid rc = 38292 * (5 * 10 ^ 11) /\
    exists ig, ig <= Receipt.GasUsed rc <= 100000.
Proof.
  set (clauses := [SampleRuntime.bid_clause]).
  set (s' := SampleRuntime.after clauses). set (rc := SampleRuntime.receipt clauses).
  assert (SampleRuntime.execute clauses = Ret (s', inr rc)) as Hr by (vm_compute; reflexivity).
  assert (Receipt.GasUsed rc = 38292) as Hu by (vm_compute; reflexivity).
  exists s', rc. split; [exact Hr|]. split; [by rewrite Hu|].
  destruct (@receipt_exact Sample.hashing Sample.codec Sample.chain Sample.emission
    SampleRuntime.script_codec SampleRuntime.deployment SampleRuntime.machine SampleTx.crypto
    SampleTx.eth (Some SampleRuntime.registry) (Some 10) SampleRuntime.ctx SampleRuntime.rt
    (SampleRuntime.tx [SampleRuntime.bid_clause]) SampleRuntime.state0 s' rc Sample.alice)
    as (Hp & _ & _ & ig & _ & Hb).
  - apply SampleRuntime.tx_signed.
  - exact Hr.
  - split; [rewrite Hp, Hu; vm_compute; reflexivity|]. exists ig. apply Hb.
    apply keeps_gas_tx; [exact SampleRuntime.machine_keeps_gas|split; [discriminate|reflexivity]].
Defined.


(** C36: a reverted transaction can leave a bid in the auction without the MTR of
    the bid.  Here the first clause bids and the second one fails: the receipt
    says reverted, the bidder keeps everything but the fee, and the bid is on
    record, so the escrow of the auction no longer covers its bids. *)
Theorem reverted_tx_keeps_bid :
  let clauses := [SampleRuntime.bid_clause; SampleRuntime.bad_clause] in
  auction_ok SampleRuntime.state0 /\
  exists s' rc, SampleRuntime.execute clauses = Ret (s', inr rc) /\ Receipt.Reverted rc = true /\
    State.GetEnergy s' Sample.alice = 50 * e18 - Receipt.Paid rc /\
    AuctionCB.RcvdMTR (State.storedCB s') = 20 * e18 /\
    State.GetEnergy s' AuctionModuleAddr = 0 /\ ~ auction_ok s'.
Proof.
  intros clauses. split.
  { split; [|by vm_compute]. split; [split; [|done]| |done]; repeat (done || constructor). }
  exists (SampleRuntime.after clauses), (SampleRuntime.receipt clauses).
  split; [vm_compute; reflexivity|]. split; [vm_compute; reflexivity|].
  split; [vm_compute; reflexivity|]. split; [vm_compute; reflexivity|].
  split; [vm_compute; reflexivity|]. intros [_ Hle]. vm_compute in Hle. by apply Hle.
Qed.

(** ** A clause that no node survives *)

(** A clause to no recipient whose data is the governing call of the account
    lock makes its execution panic, whoever sends it: the dispatcher compares
    the recipient before it looks at the sender. *)
Theorem lock_governing_panics `{Hashing} `{StakingCodec} `{BlockChain} `{Emission} `{ScriptCodec}
    `{Deployment} `{Machine} reg best ctx rt clause index gas txCtx s data m ab :
  Clause.To clause = None -> Clause.Value clause = 0 ->
  Clause.Data clause = String.append ScriptPrefix (String.append ScriptPattern data) ->
  (8 < String.length data)%nat ->
  decode_ScriptData data = Some m -> ScriptData.ModID m = ACCOUNTLOCK_MODULE_ID ->
  reg !! ACCOUNTLOCK_MODULE_ID
    = Some (Module_.mk "accountlock" ACCOUNTLOCK_MODULE_ID Module_.AccountLock) ->
  decode_AccountLockBody (ScriptData.Payload m) = Some ab ->
  AccountLockBody.Opcode ab = OP_LOCK_GOVERNING ->
  ExecuteClause (Some reg) best ctx rt clause index gas txCtx s = Panic.
Proof.
  intros Hto Hv Hd Hlen Hm Hid Hreg Hab Hop.
  assert (is_script clause = true) as Hs.
  { unfold is_script, ScriptEngineCheck, MinScriptEngDataLen. rewrite Hv, Hd. simpl.
    rewrite andb_true_r. do 8 (destruct data as [|? data]; [simpl in Hlen; lia|]).
    destruct data; [simpl in Hlen; lia|done]. }
  unfold ExecuteClause. rewrite Hs. cbn [deref mbind outcome_bind]. unfold exec_script.
  rewrite Hd, Hto. unfold HandleScriptData.
  change (string_drop 4 (String.append ScriptPrefix (String.append ScriptPattern data)))
    with (String.append ScriptPattern data).
  change (slice_to (String.length ScriptPattern) (String.append ScriptPattern data))
    with (Ret ScriptPattern).
  change (string_drop (String.length ScriptPattern) (String.append ScriptPattern data)) with data.
  cbn [mbind outcome_bind]. rewrite String.eqb_refl. cbn [negb].
  rewrite Hm, Hid. unfold Find. rewrite Hreg. cbn [modHandler Module_.modKind].
  unfold AccountLock_Handle. by rewrite Hab, Hop.
Qed.

Lemma lock_governing_panics_witness :
  let clause := Clause.WithData (@EncodeScriptData SampleRuntime.script_codec Module_.AccountLock "governing")
                  (Clause.NewClause None) in
  let txCtx := TransactionContext.mk 1 Sample.bob 0 0 0 0 0 0 in
  @ExecuteClause Sample.hashing Sample.codec Sample.chain Sample.emission
    SampleRuntime.script_codec SampleRuntime.deployment SampleRuntime.machine
    (Some SampleRuntime.registry) (Some 10) SampleRuntime.ctx SampleRuntime.rt clause 0 50000 txCtx
    SampleRuntime.state0 = Panic.
Proof.
  intros clause txCtx.
  apply (@lock_governing_panics Sample.hashing Sample.codec Sample.chain Sample.emission
    SampleRuntime.script_codec SampleRuntime.deployment SampleRuntime.machine
    SampleRuntime.registry (Some 10) SampleRuntime.ctx SampleRuntime.rt clause 0 50000 txCtx SampleRuntime.state0
    "lock-governing" (ScriptData.mk 0 ACCOUNTLOCK_MODULE_ID "governing")
    (AccountLockBody.mk OP_LOCK_GOVERNING 0 0 0 0 0 0 0 0 "")); try reflexivity.
  simpl. lia.
Defined.
