(* ===== verification/MachineTheorems.v ===== *)
(** * The virtual machine under the runtime

    The closures the runtime gives the machine keep the promises the machine's
    theorems rest on, so that these hold for the interpreter as the runtime runs
    it: without native methods, which give back gas, contract code always ends
    with a result and never more gas than it was given; with or without them, a
    call that fails leaves no trace, and a static call changes nothing. *)

From S2P Require Import Prelude KeyedList ChainParam VMConfig Words Memory Analysis ForkData StakingTypes Transaction AuctionTypes Stats StackedMap State Prototype ScriptEnv StakingUtils StakingHandlers AccountLock MeterTracker EVM Instructions GasFuncs JumpTable Interpreter Evolution Totality InstructionTheorems InterpreterTheorems StakingGovern Auction ScriptEngine Runtime Samples RuntimeTheorems.
From Stdlib Require Import Ascii String.
From stdpp Require Import list.
Import VMState StackedMap.
Open Scope Z_scope.
Implicit Types (d : VMState.t) (evm : EVM.t).

(** ** The closures of the runtime *)

Section Closures.
Context `{BlockChain} `{Deployment} `{Machine}.
Context (block : BlockContext.t) (rt : RT.t) (txCtx : TransactionContext.t) (clauseIndex : Z).

(** No contract has methods that are answered natively: a native method gives
    back gas. *)
Definition no_native : Prop := forall a input, FindNativeCall a input = None.

(** What the native methods do to the machine: they keep its depth and its mode,
    write to the state and the journal like any code, and a method whose ABI
    declares it constant only reads.  What it costs is taken from the contract's
    gas, an unsigned number. *)
Definition native_tame : Prop := forall a input method ctx tx i evm c evm' c' ret err,
  FindNativeCall a input = Some method -> 0 <= Contract.Gas c ->
  NativeMethod.Call method ctx tx i evm c = Ret (evm', c', ret, err) ->
  EVM.depth evm' = EVM.depth evm /\ EVM.readOnly evm' = EVM.readOnly evm /\
  evolves_db (NativeMethod.Const method = true) (EVM.StateDB evm) (EVM.StateDB evm') /\
  0 <= Contract.Gas c'.

Lemma no_native_tame : no_native -> native_tame.
Proof. intros Hn a input method ctx tx i evm c evm' c' ret err Hf. by rewrite Hn in Hf. Qed.

Lemma intercept_evolves evm c evm' c' handled : native_tame -> 0 <= Contract.Gas c ->
  intercept_contract_call block txCtx clauseIndex evm c (EVM.readOnly evm) = Ret (evm', c', handled) ->
  @evolves (newEVM_context block rt txCtx clauseIndex) evm evm' /\ 0 <= Contract.Gas c'.
Proof.
  intros Ht Hg Hr. unfold intercept_contract_call in Hr.
  destruct (EVM.depth evm <? 2); [by injection Hr as <- <- _|].
  destruct (negb _); [by injection Hr as <- <- _|].
  destruct (FindNativeCall _ _) as [method|] eqn:Ef; [|by injection Hr as <- <- _].
  destruct (EVM.readOnly evm && negb (NativeMethod.Const method)) eqn:Ec; [done|].
  destruct (negb (Contract.value c =? 0)); [done|].
  set (c1 := c <| Contract.Gas ::= _ |>) in Hr.
  assert (0 <= Contract.Gas c1) as Hg1 by apply u64_nonneg.
  destruct (EVM.lastNonNativeCallGas evm <? Contract.Gas c1); [by injection Hr as <- <- _|].
  inv_bind Hr. destruct r as [[[evm2 c2] ret] err]. injection Hr as <- <- _.
  destruct (Ht _ _ _ _ _ _ _ _ _ _ _ _ Ef Hg1 E) as (D & R & Hd & Hg2).
  split; [|done]. split; [done|done|]. eapply evolves_db_weaken; [|exact Hd].
  intros [_ Hro]. rewrite Hro in Ec. by destruct (NativeMethod.Const method).
Qed.

Lemma runtime_tame frugal : native_tame -> (frugal = true -> no_native) ->
  Tame frugal (newEVM_context block rt txCtx clauseIndex).
Proof.
  intros Ht Hn. split.
  - intros P a b v t d d' Hv Hx. cbn in Hx. unfold transfer in Hx.
    destruct (Z.eqb_spec v 0); [by injection Hx as <-|].
    etransitivity; [|eapply put_evolves; [|exact Hx]; tauto]. apply state_evolves. tauto.
  - intros P a b d d' HP Hx. cbn in Hx. unfold on_create_contract in Hx.
    etransitivity; [|eapply put_evolves; [|exact Hx]; tauto]. by apply state_evolves.
  - intros P a b d d' HP Hx. cbn in Hx. unfold on_suicide_contract in Hx. inv_bind Hx.
    transitivity r.
    + destruct (State.GetEnergy (state d) a =? 0); [by simplify_eq|]. inv_bind E.
      etransitivity; [|eapply put_evolves; [|exact E]; tauto].
      etransitivity; [|eapply put_evolves; [|exact E0]; tauto]. by apply state_evolves.
    + destruct (State.GetBalance (state r) a =? 0); [by simplify_eq|].
      etransitivity; [|eapply put_evolves; [|exact Hx]; tauto]. by apply state_evolves.
  - intros evm c evm' c' handled Hg Hr. cbn in Hr.
    destruct (intercept_evolves _ _ _ _ _ Ht Hg Hr) as [He Hg']. split_and!; [done|done|].
    intros Hf. unfold intercept_contract_call in Hr. rewrite (Hn Hf) in Hr.
    by repeat case_match; injection Hr as _ <- _.
Qed.

(** Numbers that are not negative, and a nonce that an [int64] can hold. *)
Record sane : Prop := {
  sane_origin : 0 <= TransactionContext.Origin txCtx;
  sane_price : 0 <= TransactionContext.GasPrice txCtx;
  sane_beneficiary : 0 <= BlockContext.Beneficiary block;
  sane_fee : 0 <= RT.BaseFee rt;
  sane_nonce : 0 <= RT.LastPowNonce rt < 2 ^ 63;
  sane_ids n : 0 <= RT.GetID rt n;
  sane_address1 id i n : 0 <= CreateContractAddress id i n;
  sane_address2 a n : 0 <= EthCreateContractAddress a n
}.

Lemma state_ok_supply e v s : state_ok s -> state_ok (State.set_supply e v s).
Proof. by apply state_ok_same. Qed.

Lemma mint_meter_ok e a v s : state_ok s -> 0 <= v -> state_ok (MeterTracker.MintMeter e a v s).
Proof.
  intros Hs Hv. unfold MeterTracker.MintMeter, MeterTracker.SetMeterTotalAddSub, State.EncodeStorage.
  pose proof (ok_energy _ Hs a). repeat case_match; [done| |]; (apply state_ok_energy; [|lia]).
  - by apply state_ok_supply.
  - by eapply state_ok_same; [| | |exact Hs].
Qed.
Lemma mint_gov_ok e a v s : state_ok s -> state_ok (MeterTracker.MintMeterGov e a v s).
Proof.
  intros Hs. unfold MeterTracker.MintMeterGov, MeterTracker.SetMeterGovTotalAddSub, State.EncodeStorage.
  repeat case_match; [done| |]; apply state_ok_balance.
  - by apply state_ok_supply.
  - by eapply state_ok_same; [| | |exact Hs].
Qed.
Lemma transfer_funds_ok a b v t s : state_ok s -> 0 <= v -> state_ok (transfer_funds block a b v t s).
Proof.
  intros Hs Hv. unfold transfer_funds. repeat case_match; try done.
  - by apply mint_gov_ok.
  - by apply mint_meter_ok.
  - by apply mint_gov_ok.
  - by apply mint_meter_ok.
  - by apply state_ok_add_balance, state_ok_sub_balance.
  - by apply state_ok_add_energy; [apply state_ok_sub_energy|].
Qed.

Lemma runtime_lively : no_native -> sane -> Lively (newEVM_context block rt txCtx clauseIndex).
Proof.
  intros Hn [S1 S2 S3 S4 S5 S6 S7 S8]. split.
  - intros a b v t d Hd Hv. cbn. unfold transfer. case_match; [by eexists|].
    apply put_ok'; [|done]. apply db_ok_state; [done|]. by apply transfer_funds_ok; [apply Hd|].
  - intros a b d Hd. cbn. apply put_ok'; [|done]. apply db_ok_state; [done|]. apply state_ok_master, Hd.
  - intros a b d Hd. cbn. unfold on_suicide_contract.
    match goal with |- context [mbind _ ?m] => assert (exists d1, m = Ret d1 /\ db_ok d1) as (d1 & -> & Hd1) end.
    { case_match; [by eexists|].
      set (d1 := d <| state ::= _ |>). assert (db_ok d1) as Hd1.
      { apply db_ok_state; [done|]. apply state_ok_energy; [apply Hd|].
        pose proof (ok_energy _ (db_state _ Hd) a). pose proof (ok_energy _ (db_state _ Hd) b). lia. }
      destruct (put_ok' eventKey (VLog (Log.mk MeterNativeAddr [energyTransferEvent; a; b]
        (encode_uint256 (State.GetEnergy (state d) a)))) d1 Hd1 I) as (d2 & E2 & Hd2).
      unfold AddLog. rewrite E2. cbn. by apply put_ok'. }
    cbn. case_match; [by eexists|]. apply put_ok'; [|done]. apply db_ok_state; [done|]. apply state_ok_add_balance, Hd1.
  - intros evm c ro. cbn. unfold intercept_contract_call. rewrite Hn. by repeat case_match.
  - intros d a n. cbn. unfold new_contract_address. repeat case_match; auto.
  - intros n. cbn. apply S6.
  - cbn. split_and!; try done; [by repeat case_match|apply S5|apply S5].
Qed.
End Closures.

(** ** Calls that fail *)




Section Fails.
Context `{ctx : Context} {frugal : bool} `{!Tame frugal ctx} `{Machine}.
Hypothesis Hrun : run_evolves.




End Fails.

(** ** The machine *)

Section Machine.
Context `{BlockChain} `{Deployment} `{Precompiles} (hash : string -> Bytes32).
Context (block : BlockContext.t) (rt : RT.t) (txCtx : TransactionContext.t) (clauseIndex : Z).

(** The interpreter and the closures it runs with. *)
Definition vm_machine : Machine := machine hash.
Definition vm : Context := @newEVM_context _ _ vm_machine block rt txCtx clauseIndex.

Lemma vm_frugal : no_native -> Tame true vm.
Proof. intros Hn. apply runtime_tame; [by apply no_native_tame|done]. Qed.

Lemma vm_laws : no_native -> @run_gas vm vm_machine true /\ @run_evolves vm vm_machine.
Proof. intros Hn. exact (interpreter_laws hash true levels vm (vm_frugal Hn)). Qed.

Lemma vm_runs : no_native -> sane block rt txCtx -> (forall x, 0 <= hash x) -> @runs_at vm vm_machine 0.
Proof.
  intros Hn Hs Hh. refine (interpreter_runs hash levels vm 0 (vm_frugal Hn)
    (runtime_lively block rt txCtx clauseIndex Hn Hs) Hh _ _); unfold levels, CallCreateDepth; lia.
Qed.

Lemma vm_keccak x : (forall x, 0 <= hash x) -> 0 <= @keccak vm_machine x.
Proof. intros Hh. unfold vm_machine, machine. destruct levels; apply Hh. Qed.

Lemma new_evm_ok s counter : state_ok s -> evm_ok (EVM.NewEVM (VMState.New s) counter).
Proof.
  intros Hs. split; [|done]. split; simpl; [apply wf_New| |done].
  intros l k v ->%list_elem_of_singleton. simpl. by rewrite lookup_empty.
Qed.
End Machine.

(** ** Negative words *)

Lemma i64_wraps n : 2 ^ 63 <= n < 2 ^ 64 -> i64 n = n - 2 ^ 64.
Proof. intros Hn. unfold i64. rewrite u64_small by lia. case_match; lia. Qed.

Lemma Get_negative m offset size : offset < 0 -> size <> 0 -> Memory.Get offset size m = Panic.
Proof.
  intros Ho Hs. unfold Memory.Get. destruct (Z.eqb_spec size 0); [done|].
  assert ((offset <? Memory.Len m) = true) as -> by (unfold Memory.Len; lia).
  unfold slice. repeat case_match; try done; lia.
Qed.

Lemma negative_transfer `{BlockChain} block d a b v :
  wf (repo d) -> a <> 0 -> a <> b -> 0 <= State.GetEnergy (state d) a -> v < 0 ->
  can_transfer d a v MTR = true /\
  exists d', transfer block a b v MTR d = Ret d' /\
    State.GetEnergy (state d') a = State.GetEnergy (state d) a - v /\
    State.GetEnergy (state d') b = State.GetEnergy (state d) b + v.
Proof.
  intros Hw Ha Hab He Hv. split.
  { unfold can_transfer. cbn. case_match; [|done]. apply Z.leb_le. lia. }
  unfold transfer. destruct (Z.eqb_spec v 0); [lia|]. unfold AddTransfer.
  set (d1 := d <| state ::= _ |>).
  destruct (repo_put_ret transferKey (VTransfer (Transfer.mk a b v MTR)) d1 Hw) as (st & l & m & r' & _ & E & _).
  eexists. split; [exact E|]. simpl. unfold transfer_funds, IsZero. destruct (Z.eqb_spec a 0); [done|]. cbn.
  unfold State.SubEnergy, State.AddEnergy. destruct (Z.eqb_spec v 0); [lia|].
  destruct (Z.ltb_spec (State.GetEnergy (state d) a) v); [lia|]. cbn [fst].
  autorewrite with state. repeat (case_decide; try done); subst; try done; lia.
Qed.

(** ** Programs *)

Module SampleMachine.
Definition bytes (l : list N) : string := string_of_list_ascii (map ascii_of_N l).
(** Curve points as numbers: none of the programs below uses them. *)
#[export] Instance precompiles : Precompiles := {|
  ValidateSignatureValues := fun _ _ _ => false; Ecrecover := fun _ _ => None;
  sha256_Sum := id; ripemd160_Sum := id; G1 := Z; G2 := Z;
  newCurvePoint := fun _ => inr 0; newTwistPoint := fun _ => inr 0;
  bn256_Add := Z.add; bn256_ScalarMult := Z.mul; G1_Marshal := fun _ => [];
  bn256_PairingCheck := fun _ _ => true; blake2b_F := fun h _ _ _ _ => h
|}.
Definition hash (code : string) : Bytes32 := Z.of_nat (String.length code).

(** [PUSH1 1 PUSH1 0 SSTORE PUSH1 0 PUSH1 0 REVERT]. *)
Definition store_and_revert : string := bytes [0x60;1;0x60;0;0x55;0x60;0;0x60;0;0xfd]%N.
(** [JUMPDEST PUSH1 0 JUMP]: a loop without an end. *)
Definition loop_forever : string := bytes [0x5b;0x60;0;0x56]%N.
(** [PREVRANDAO MLOAD], and two creations of empty code: [PUSH1 0 PUSH1 0
    PREVRANDAO CREATE], [PUSH1 0 PUSH1 0 PUSH1 0 CREATE]. *)
Definition random_read : string := bytes [0x44;0x51]%N.
Definition random_create : string := bytes [0x60;0;0x60;0;0x44;0xf0]%N.
Definition create_empty : string := bytes [0x60;0;0x60;0;0x60;0;0xf0]%N.

Definition contract : Address := 77.
Definition chain_with (code : string) : State.t := State.SetCode hash contract code State.New.
Definition txCtx : TransactionContext.t := TransactionContext.mk 1 Sample.alice 0 0 0 0 0 0.
Definition context : Context :=
  @vm Sample.chain SampleRuntime.deployment precompiles hash SampleRuntime.ctx SampleRuntime.rt txCtx 0.
Definition the_machine : Machine := vm_machine hash.
Definition evm0 (code : string) : EVM.t := EVM.NewEVM (VMState.New (chain_with code)) 0.

Definition call_it (code : string) (gas : Z) : run_result :=
  @call context the_machine Sample.alice contract "" gas 0 0 (evm0 code).
Definition static_it (code : string) : run_result :=
  @StaticCall context the_machine Sample.alice contract "" 1000000 (evm0 code).

(** The same at another block, with another nonce. *)
Definition context_at (number nonce : Z) : Context :=
  @vm Sample.chain SampleRuntime.deployment precompiles hash
    (BlockContext.mk Sample.bob Sample.bob number 1700000000 0 0) (RT.mk (fun _ => 0) nonce 0) txCtx 0.
Definition call_at (number nonce : Z) (code : string) : run_result :=
  @call (context_at number nonce) the_machine Sample.alice contract "" 1000000 0 0 (evm0 code).
Definition energy_left (r : run_result) : option (Z * Z) :=
  match r with
  | Ret (evm, _, g, None) => Some (State.GetEnergy (state (EVM.StateDB evm)) contract, g)
  | _ => None
  end.

Lemma native_free : @no_native SampleRuntime.deployment.
Proof. done. Qed.
Lemma sane_runtime : @sane SampleRuntime.deployment SampleRuntime.ctx SampleRuntime.rt txCtx.
Proof. split; try (intros; simpl; lia); by vm_compute. Qed.
Lemma hash_nonneg c : 0 <= hash c.
Proof. unfold hash. lia. Qed.
Lemma chain_ok code : Z.of_nat (String.length code) < 2 ^ 62 -> state_ok (chain_with code).
Proof. intros Hc. apply state_ok_setcode; [apply hash_nonneg|by split|done]. Qed.
End SampleMachine.

(** A contract with two native methods, as the one of the parameters has: one
    that writes a parameter, and a constant one that is told from it by its
    input and answers a fixed word. *)
Module SampleNative.
Definition method (const : bool) (price : Z) (write : State.t -> State.t) (out : string) : NativeMethod.t :=
  NativeMethod.mk const (fun _ _ _ evm c =>
    let (c, ok) := Contract.UseGas price c in
    if ok then Ret (evm <| EVM.StateDB ::= fun d => d <| state ::= write |> |>, c, out, None)
    else Ret (evm, c, "", Some "out of gas")).
Definition native_set : NativeMethod.t := method false 20000 (State.Params_Set 1 5) "".
Definition native_get : NativeMethod.t := method true 200 id "5".
Definition find (a : Address) (input : string) : option NativeMethod.t :=
  if a =? ParamsAddr then Some (if (String.length input =? 0)%nat then native_set else native_get)
  else None.
Definition with_natives (D : Deployment) (natives : Address -> string -> option NativeMethod.t) : Deployment := {|
  NewMeterNative_BinRuntime := @NewMeterNative_BinRuntime D;
  MeterGovERC20Permit_DeployedBytecode := @MeterGovERC20Permit_DeployedBytecode D;
  MeterNative_V3_DeployedBytecode := @MeterNative_V3_DeployedBytecode D;
  ScriptEngine_DeployedBytecode := @ScriptEngine_DeployedBytecode D;
  MeterGovERC20Permit_V3_DeployedBytecode := @MeterGovERC20Permit_V3_DeployedBytecode D;
  MeterERC20Permit_V3_DeployedBytecode := @MeterERC20Permit_V3_DeployedBytecode D;
  MeterNative_V4_DeployedBytecode := @MeterNative_V4_DeployedBytecode D;
  ScriptEngine_V2_DeployedBytecode := @ScriptEngine_V2_DeployedBytecode D;
  MeterNative_V5_DeployedBytecode := @MeterNative_V5_DeployedBytecode D;
  ScriptEngine_V3_DeployedBytecode := @ScriptEngine_V3_DeployedBytecode D;
  ERC20MinterBurnerPauserPermitForReplacement_DeployedBytecode :=
    @ERC20MinterBurnerPauserPermitForReplacement_DeployedBytecode D;
  CreateContractAddress := @CreateContractAddress D;
  EthCreateContractAddress := @EthCreateContractAddress D;
  prototypeSetMasterEvent := @prototypeSetMasterEvent D;
  energyTransferEvent := @energyTransferEvent D;
  encode_address := @encode_address D;
  encode_uint256 := @encode_uint256 D;
  FindNativeCall := natives
|}.
Definition deployment : Deployment := with_natives SampleRuntime.deployment find.


Definition context : Context :=
  @vm Sample.chain deployment SampleMachine.precompiles SampleMachine.hash SampleRuntime.ctx SampleRuntime.rt
    SampleMachine.txCtx 0.
Definition evm0 (code : string) : EVM.t :=
  EVM.NewEVM (VMState.New (State.SetCode SampleMachine.hash ParamsAddr code State.New)) 0.
Definition call_it (code : string) : run_result :=
  @call context SampleMachine.the_machine Sample.alice ParamsAddr "" 1000000 0 0 (evm0 code).
Definition static_it (code : string) : run_result :=
  @StaticCall context SampleMachine.the_machine Sample.alice ParamsAddr "" 1000000 (evm0 code).
End SampleNative.

(** ** What the machine promises *)

(** C3: contract code that reaches no native method always ends.  Where no
    contract has native methods, in every block whose last proof-of-work nonce
    fits an [int64], from a state with the invariant and for every message whose
    numbers are not negative, with less than 2^61 gas and an input and a code of
    less than 2^62 bytes, a call and a creation from a fresh machine return a
    result, whatever the code does: no loop runs out of the rounds its gas
    allows, no nesting runs out of levels, and nothing in the interpreter, the
    precompiled contracts, the journal or the state panics.  At most the gas
    given is left, the machine is back at its depth, and the state keeps the
    invariant. *)
Theorem contract_code_terminates `{BlockChain} `{Deployment} `{Precompiles} hash block rt txCtx i
    caller addr contractAddr code input gas value token s counter :
  no_native -> sane block rt txCtx -> (forall x, 0 <= hash x) -> state_ok s ->
  0 <= caller -> 0 <= addr -> 0 <= contractAddr -> 0 <= value -> 0 <= gas < GasBound ->
  Z.of_nat (String.length input) < 2 ^ 62 -> Z.of_nat (String.length code) < 2 ^ 62 ->
  let evm := EVM.NewEVM (VMState.New s) counter in
  (exists evm' ret g err,
     @call (vm hash block rt txCtx i) (vm_machine hash) caller addr input gas value token evm =
       Ret (evm', ret, g, err) /\
     0 <= g <= gas /\ EVM.depth evm' = 0 /\ state_ok (state (EVM.StateDB evm'))) /\
  (exists evm' ret g a err,
     @create (vm hash block rt txCtx i) (vm_machine hash) caller code gas value token contractAddr evm =
       Ret (evm', ret, g, a, err) /\
     0 <= g <= gas /\ EVM.depth evm' = 0 /\ state_ok (state (EVM.StateDB evm'))).
Proof.
  intros Hn Hs Hh Hok Hca Ha Hcon Hv Hg Hi Hc evm. pose proof (new_evm_ok s counter Hok) as He.
  pose proof (vm_frugal hash block rt txCtx i Hn) as Ht.
  pose proof (@runtime_lively _ _ (vm_machine hash) block rt txCtx i Hn Hs) as Hl.
  pose proof (vm_laws hash block rt txCtx i Hn) as [Lg Le].
  pose proof (vm_runs hash block rt txCtx i Hn Hs Hh) as Hr. split.
  - destruct (@call_ret _ Ht Hl (vm_machine hash) Le 0 (fun _ => Hr) caller addr input gas value token evm)
      as (evm' & ret & g & err & E & He'); try done.
    exists evm', ret, g, err. split_and!; [done|..|apply He'].
    1, 2: eapply (@call_gas _ (vm_machine hash) true Lg) in E; lia.
    eapply (@call_evolves _ true Ht (vm_machine hash) Le) in E; [by rewrite (ev_depth _ _ E)|lia|by intros [_ ?]].
  - destruct (@create_ret _ Ht Hl (vm_machine hash) (fun x => vm_keccak hash x Hh) Le 0 (fun _ => Hr) caller code gas value token contractAddr evm)
      as (evm' & ret & g & a & err & E & He' & _); try done.
    exists evm', ret, g, a, err. split_and!; [done|..|apply He'].
    1, 2: eapply (@create_gas _ (vm_machine hash) true Lg) in E; lia.
    eapply (@create_evolves _ true Ht (vm_machine hash) Le) in E; [by rewrite (ev_depth _ _ E)|lia|by intros [_ ?]].
Qed.

Lemma contract_code_terminates_witness :
  exists evm' ret g err,
    SampleMachine.call_it SampleMachine.loop_forever 1000000 = Ret (evm', ret, g, err) /\
    0 <= g <= 1000000 /\ EVM.depth evm' = 0 /\ state_ok (state (EVM.StateDB evm')).
Proof.
  apply (@contract_code_terminates Sample.chain SampleRuntime.deployment SampleMachine.precompiles
    SampleMachine.hash SampleRuntime.ctx SampleRuntime.rt SampleMachine.txCtx 0 Sample.alice
    SampleMachine.contract 1 "" "" 1000000 0 0 (SampleMachine.chain_with SampleMachine.loop_forever) 0);
    first [exact SampleMachine.native_free|exact SampleMachine.sane_runtime
          |exact SampleMachine.hash_nonneg|by apply SampleMachine.chain_ok|by vm_compute].
Defined.





(** C28: where no contract has native methods, the interpreter keeps the gas
    promise of the runtime's theorems: a run leaves at most the gas it was given,
    so that no clause of a transaction comes back with more gas than it had. *)
Theorem interpreter_keeps_gas `{BlockChain} `{Deployment} `{Precompiles} hash :
  no_native -> @runtime_keeps_gas _ _ (vm_machine hash).
Proof. intros Hn block rt txCtx i. exact (proj1 run_gas_frugal (proj1 (vm_laws hash block rt txCtx i Hn))). Qed.

Lemma interpreter_keeps_gas_witness :
  @runtime_keeps_gas Sample.chain SampleRuntime.deployment
    (@vm_machine SampleMachine.precompiles SampleMachine.hash).
Proof. exact (@interpreter_keeps_gas _ _ _ SampleMachine.hash SampleMachine.native_free). Defined.

(** C35: the nonce has to fit an [int64].  [opRandom] turns the last nonce of the
    proof-of-work chain, an unsigned number, into a signed one, so that with every
    nonce n from 2^63 on the word it pushes is n - 2^64, a negative number.
    Loading from memory at this word, once the load is paid for, takes a slice at
    a negative index, and stops the node, whatever the memory holds.  As an amount of MTR the word passes the
    check of every account whose MTR is not negative, and the transfer adds
    2^64 - n to the sender and takes it from the recipient. *)
Theorem random_word_goes_negative `{BlockChain} `{Deployment} `{Precompiles} hash block rt txCtx i n :
  2 ^ 63 <= n < 2 ^ 64 -> RT.LastPowNonce rt = n ->
  let ctx := vm hash block rt txCtx i in
  (forall f, @opRandom ctx f = Ret (done_ (push (n - 2 ^ 64) f))) /\
  (forall f f', @opRandom ctx f = Ret (done_ f') -> opMload f' = Panic) /\
  (forall d a b, wf (repo d) -> a <> 0 -> a <> b -> 0 <= State.GetEnergy (state d) a ->
     @CanTransfer ctx d a (n - 2 ^ 64) MTR = true /\
     exists d', @Transfer_ ctx a b (n - 2 ^ 64) MTR d = Ret d' /\
       State.GetEnergy (state d') a = State.GetEnergy (state d) a + (2 ^ 64 - n) /\
       State.GetEnergy (state d') b = State.GetEnergy (state d) b - (2 ^ 64 - n)).
Proof.
  intros Hn Hrt ctx.
  assert (forall f, @opRandom ctx f = Ret (done_ (push (n - 2 ^ 64) f))) as Hr.
  { intros f. change (Ret (done_ (push (i64 (RT.LastPowNonce rt)) f)) = Ret (done_ (push (n - 2 ^ 64) f))).
    by rewrite Hrt, i64_wraps. }
  split; [exact Hr|]. split.
  - intros f f' Hf. rewrite Hr in Hf. injection Hf as <-. unfold opMload. cbn -[Memory.Get Int64 Z.pow].
    assert (Int64 (n - 2 ^ 64) < 0) as Hneg by (unfold Int64; rewrite i64_small; lia).
    by rewrite (Get_negative _ _ 32 Hneg).
  - intros d a b Hw Ha Hab He. destruct (negative_transfer block d a b (n - 2 ^ 64) Hw Ha Hab He ltac:(lia))
      as (Hc & d' & Ht & E1 & E2). split; [exact Hc|]. exists d'. split; [exact Ht|]. lia.
Qed.

(** The whole runs: the read stops the node, and the creation adds 2^63 to the
    energy of the contract; with the largest nonce that fits it adds nothing. *)
Lemma random_word_goes_negative_witness :
  (forall f, @opRandom (SampleMachine.context_at Sample.late (2 ^ 63)) f = Ret (done_ (push (- 2 ^ 63) f))) /\
  SampleMachine.call_at Sample.late (2 ^ 64 - 1) SampleMachine.random_read = Panic /\
  SampleMachine.energy_left (SampleMachine.call_at Sample.late (2 ^ 63) SampleMachine.random_create) =
    Some (2 ^ 63, 999989) /\
  SampleMachine.energy_left (SampleMachine.call_at Sample.late (2 ^ 63 - 1) SampleMachine.random_create) =
    Some (0, 999989).
Proof.
  split; [|vm_compute; repeat split].
  apply (@random_word_goes_negative Sample.chain SampleRuntime.deployment SampleMachine.precompiles
    SampleMachine.hash (BlockContext.mk Sample.bob Sample.bob Sample.late 1700000000 0 0)
    (RT.mk (fun _ => 0) (2 ^ 63) 0) SampleMachine.txCtx 0 (2 ^ 63)); [lia|reflexivity].
Defined.

(** Creating a contract costs nothing once the Paris rules are in force: the
    gas functions of these leave out the base price of 32000 that [CREATE] has
    before. *)
Lemma create_free_after_paris :
  SampleMachine.energy_left (SampleMachine.call_at 1 0 SampleMachine.create_empty) = Some (0, 967991) /\
  SampleMachine.energy_left (SampleMachine.call_at Sample.late 0 SampleMachine.create_empty) = Some (0, 999991).
Proof. vm_compute. repeat split. Qed.
