(* ===== verification/BlockTheorems.v ===== *)
(** * Theorems on blocks

    A block packed by an honest proposer passes the validation of every honest
    node that sees the same parent, and yields the same state and receipts. *)

From S2P Require Import Prelude KeyedList ChainParam ForkData StakingTypes BitArray Transaction Block TransactionTheorems AuctionTypes Stats StackedMap State Prototype ScriptEnv StakingUtils StakingHandlers AccountLock MeterTracker EVM StakingGovern Auction ScriptEngine Runtime Packer Validate Samples QuorumTheorems ScriptGas RuntimeTheorems.

(** ** Gas limit *)

Lemma min64_min a b : GasLimit.min64 a b = Z.min a b.
Proof. unfold GasLimit.min64. destruct (Z.ltb_spec b a); lia. Qed.

(** A step of at most a 1024th from a legal limit. *)
Lemma Adjust_valid parent delta :
  MinGasLimit <= parent < 2 ^ 64 -> - 2 ^ 63 <= delta < 2 ^ 63 ->
  let r := GasLimit.Adjust parent delta in
  GasLimit.IsValid r parent = true /\ MinGasLimit <= r < 2 ^ 64.
Proof.
  intros Hp Hd r. assert (MinGasLimit <= r < 2 ^ 64 /\ Z.abs (r - parent) <= parent / 1024) as [Hr Hdiff].
  { subst r. unfold GasLimit.Adjust, MinGasLimit, GasLimitBoundDivisor, MaxUint64 in *.
    assert (0 <= parent / 1024 /\ 1024 * (parent / 1024) <= parent) as [Hd0 Hd1]
      by (split; [apply Z.div_pos|apply Z.mul_div_le]; lia).
    set (d := parent / 1024) in *. clearbody d. rewrite !min64_min.
    destruct (Z.ltb_spec 0 delta).
    - rewrite u64_id by (unfold MaxUint64; lia).
      destruct (Z.ltb_spec (2 ^ 64 - 1 - Z.min delta d) parent); lia.
    - rewrite (u64_id (- delta)) by (unfold MaxUint64; lia). rewrite u64_id by (unfold MaxUint64; lia).
      destruct (Z.ltb_spec parent (1000 * 1000 + Z.min (- delta) d)); lia. }
  split; [|done]. unfold GasLimit.IsValid, GasLimitBoundDivisor.
  destruct (Z.ltb_spec r MinGasLimit); [lia|]. destruct (Z.ltb_spec parent r); lia.
Qed.

(** The limit of the packer is valid behind every parent with a legal limit. *)
Lemma Packer_GasLimit_valid target parent :
  0 <= target < 2 ^ 64 -> MinGasLimit <= parent < 2 ^ 64 ->
  let r := Packer_GasLimit target parent in
  GasLimit.IsValid r parent = true /\ MinGasLimit <= r < 2 ^ 64.
Proof.
  intros Ht Hp. unfold Packer_GasLimit. destruct (Z.eqb_spec target 0); simpl.
  { split; [|done]. unfold GasLimit.IsValid. destruct (Z.ltb_spec parent MinGasLimit); [lia|].
    destruct (Z.ltb_spec parent parent); [lia|]. rewrite Z.sub_diag. apply Z.leb_le.
    unfold MinGasLimit, GasLimitBoundDivisor in *. apply Z.div_pos; lia. }
  unfold GasLimit.Qualify. rewrite !min64_min.
  assert (0 <= parent / GasLimitBoundDivisor < 2 ^ 54) as Hd
    by (unfold MinGasLimit, GasLimitBoundDivisor in *; split; [apply Z.div_pos|apply Z.div_lt_upper_bound]; lia).
  set (d := parent / GasLimitBoundDivisor) in *. clearbody d.
  destruct (Z.ltb_spec parent target); apply Adjust_valid; try done.
  - rewrite i64_small; lia.
  - rewrite (i64_small (Z.min _ _)), i64_small; lia.
Qed.

(** ** Transactions that fail change nothing *)

Lemma BuyGas_error r t s s1 e : BuyGas r t s = (s1, inl e) -> s1 = s.
Proof.
  unfold BuyGas.
  set (prepaid := _ * GasPrice _ _).
  assert (forall a s0, State.SubEnergy a prepaid s = (s0, false) -> s0 = s) as Hsame.
  { intros a s0. unfold State.SubEnergy. repeat case_match; intros [=]; by subst. }
  destruct (negb (IsZero _)), (CommonTo r) as [to|]; try done.
  all: repeat match goal with
    | |- context [if ?b then _ else _] => destruct b
    | |- context [State.SubEnergy ?a ?v ?s0] =>
        let E := fresh in destruct (State.SubEnergy a v s0) as [? []] eqn:E;
        [try done|apply Hsame in E; subst]
    end; try done; intros [=]; by subst.
Qed.

Section Pack.
Context `{Hashing} `{StakingCodec} `{BlockChain} `{Emission} `{ScriptCodec} `{Deployment} `{Machine}
        `{TxCrypto} `{EthTypes} `{BlockCrypto} `{ChainView} `{Roots} `{UniteHashes}.
Context (engine : option Registry) (best : option Z).
Implicit Types (f : Flow.t) (tx : Transaction.t) (blk : Block.t).

Lemma execute_in_error ctx rt tx s s' e :
  ExecuteTransaction engine best ctx rt tx s = Ret (s', inl e) -> s' = s.
Proof.
  unfold ExecuteTransaction. intros Hx. inv_bind Hx.
  destruct r as [err|r]; [by injection Hx as <- _|].
  destruct (BuyGas r _ s) as [s1 [err|p]] eqn:Eb; [injection Hx as <- _; by eapply BuyGas_error|].
  inv_bind Hx. inv_bind Hx. destruct r1 as [[[s2 g] rv] outs]. inv_bind Hx. by destruct r1.
Qed.

Lemma execute_in_gas ctx rt tx s s' rc :
  ExecuteTransaction engine best ctx rt tx s = Ret (s', inr rc) -> 0 <= Receipt.GasUsed rc.
Proof.
  unfold ExecuteTransaction. intros Hx. inv_bind Hx. destruct r as [err|r]; [done|].
  destruct (BuyGas r _ s) as [s1 [err|p]]; [done|].
  inv_bind Hx. inv_bind Hx. destruct r1 as [[[s2 g] rv] outs]. inv_bind Hx.
  destruct r1 as [s3 rc']. injection Hx as _ <-. apply Finalize_receipt in E2 as [-> _].
  by apply Z.mod_pos_bound.
Qed.

(** ** Replaying a flow *)

(** The receipt of a transaction counts at most its gas.  No transaction whose
    clauses call only contracts without native methods breaks it. *)
Definition within_gas f tx : Prop :=
  match ExecuteTransaction engine best (Flow.ctx f) (Flow.rt f) tx (Flow.state f) with
  | Ret (_, inr rc) => Receipt.GasUsed rc <= Transaction.Gas tx
  | _ => True
  end.

(** One transaction offered to a flow, adopted or not.  The pool lets no
    transaction without a signer through. *)
Definition offered f f' : Prop :=
  exists tx a e, 0 <= Transaction.Gas tx /\ within_gas f tx /\
    Transaction.Gas tx + BlockContext.GasLimit (Flow.ctx f) < 2 ^ 64 /\
    Signer tx = Ret (inr a) /\ a <> 0 /\ Adopt engine best tx f = Ret (f', e).

(** What validation will ask of the transactions of a flow. *)
Record checked (number : Z) tx : Prop := {
  ck_signer : exists a, Signer tx = Ret (inr a) /\ a <> 0;
  ck_eth : EthTxValidate tx = Ret None;
  ck_range : check_range number tx = None
}.

(** The transactions of a flow replay on the state it started from. *)
Record replays f0 f : Prop := {
  rp_parent : Flow.parent f = Flow.parent f0;
  rp_ctx : Flow.ctx f = Flow.ctx f0;
  rp_rt : Flow.rt f = Flow.rt f0;
  rp_gas : 0 <= Flow.gasUsed f <= BlockContext.GasLimit (Flow.ctx f0);
  rp_txs : Forall (checked (BlockContext.Number (Flow.ctx f0))) (Flow.txs f);
  rp_run : forall blk, Block.ParentID blk = Header_ID (Flow.parent f0) ->
    verify_txs engine best blk (Flow.ctx f0) (Flow.rt f0) (Flow.txs f) (Flow.state f0) ∅ 0 []
      = Ret (inr (Flow.state f, Flow.processedTxs f, Flow.gasUsed f, Flow.receipts f))
}.

Lemma verify_txs_snoc blk ctx rt txs tx s p g rs s1 p1 g1 rs1 s2 id rc :
  verify_txs engine best blk ctx rt txs s p g rs = Ret (inr (s1, p1, g1, rs1)) ->
  verify_tx engine best blk ctx rt p1 tx s1 = Ret (inr (s2, id, rc)) ->
  verify_txs engine best blk ctx rt (txs ++ [tx]) s p g rs
    = Ret (inr (s2, <[id := Receipt.Reverted rc]> p1, u64 (g1 + Receipt.GasUsed rc), rs1 ++ [rc])).
Proof.
  revert s p g rs. induction txs as [|t txs IH]; simpl; intros s p g rs Hv Ht.
  - injection Hv as -> -> -> ->. by rewrite Ht.
  - inv_bind Hv. rewrite E. simpl. destruct r as [|[[s3 id3] rc3]]; [done|]. by apply IH.
Qed.

Lemma dep_error_verify processed head tx :
  dep_error processed head tx = None -> verify_dep processed head tx = None.
Proof. unfold dep_error, verify_dep. by repeat case_match. Qed.

Lemma adoptable_range f tx :
  adoptable f tx = None -> check_range (BlockContext.Number (Flow.ctx f)) tx = None.
Proof. unfold adoptable, check_range. by repeat case_match. Qed.

Lemma adoptable_gas f tx :
  adoptable f tx = None -> 0 <= Flow.gasUsed f <= BlockContext.GasLimit (Flow.ctx f) ->
  0 <= Transaction.Gas tx -> Transaction.Gas tx + BlockContext.GasLimit (Flow.ctx f) < 2 ^ 64 ->
  Flow.gasUsed f + Transaction.Gas tx <= BlockContext.GasLimit (Flow.ctx f).
Proof.
  unfold adoptable. intros Ha Hg Ht Hs. repeat case_match; try done.
  match goal with H : (_ <? u64 _) = false |- _ => rewrite u64_id in H by (unfold MaxUint64; lia); lia end.
Qed.

Lemma offered_replays f0 f f' : replays f0 f -> offered f f' -> replays f0 f'.
Proof.
  intros [Hp Hc Hrt Hg Ht Hr] (tx & a & e & Hgas & Hwg & Hsum & Hs & Ha & Had). unfold Adopt in Had.
  destruct (adoptable f tx) eqn:Ead; [injection Had as <- _; by split|].
  inv_bind Had. destruct r; [injection Had as <- _; by split|]. inv_bind Had.
  destruct (findTx _ _ r) as [|[]] eqn:Ef; try (injection Had as <- _; by split).
  destruct (dep_error _ _ tx) eqn:Ed; [injection Had as <- _; by split|].
  inv_bind Had. destruct r0 as [s [err|rc]].
  { injection Had as <- _. apply execute_in_error in E1 as ->. unfold State.NewCheckpoint.
    rewrite RevertTo_self. by destruct f; split. }
  unfold within_gas in Hwg. rewrite E1 in Hwg. injection Had as <- _. rewrite Hc, Hrt in *.
  pose proof (execute_in_gas _ _ tx _ _ _ E1) as Hu.
  assert (Flow.gasUsed f + Transaction.Gas tx <= BlockContext.GasLimit (Flow.ctx f0)) as Hlim
    by (rewrite <- Hc; apply adoptable_gas; rewrite ?Hc; done).
  apply adoptable_range in Ead. rewrite Hc in Ead. split; simpl.
  - done.
  - done.
  - done.
  - rewrite u64_id; unfold MaxUint64; lia.
  - apply Forall_app. split; [done|]. apply Forall_singleton. split; [by exists a|done..].
  - intros blk Hb. eapply verify_txs_snoc; [by apply Hr|]. unfold verify_tx. rewrite Hs. simpl.
    destruct (Z.eqb_spec a 0); [done|]. unfold IsZero. destruct (Z.eqb_spec a 0); [done|]. simpl.
    rewrite E0. simpl. rewrite Hb, <- Hp, Ef, (dep_error_verify _ _ _ Ed), E1. done.
Qed.
End Pack.

Section Valid.
Context `{Hashing} `{StakingCodec} `{BlockChain} `{Emission} `{ScriptCodec} `{Deployment} `{Machine}
        `{TxCrypto} `{EthTypes} `{BlockCrypto} `{ChainView} `{Roots} `{UniteHashes}.
Implicit Types (f : Flow.t) (tx : Transaction.t) (blk : Block.t).

Lemma check_txs_ok blk e txs :
  Forall (checked (Block.Number blk)) txs -> check_txs blk true e txs = Ret (inr e).
Proof.
  induction 1 as [|tx txs [(a & Hs & Ha) He Hr] _ IH]; [done|].
  simpl. unfold check_tx. rewrite Hs. simpl. rewrite He. simpl.
  unfold IsZero. destruct (Z.eqb_spec a 0); [done|]. by rewrite Hr.
Qed.

Lemma validateBlockBody_ok c blk :
  Header.TxsRoot (Block.BlockHeader blk) = txs_root (Block.Txs blk) ->
  Block.Magic blk = BlockMagicVersion1 -> Block.IsKBlock blk = false ->
  Forall (checked (Block.Number blk)) (Block.Txs blk) ->
  validateBlockBody c blk true = Ret None.
Proof.
  intros Hr Hm Hk Ht. unfold validateBlockBody, kblock_state. rewrite Hr, Hm, Hk, !Z.eqb_refl. simpl.
  by rewrite check_txs_ok.
Qed.
End Valid.

(** What is assumed of the signature scheme: the signer is recovered from a
    signature. *)
Definition sign_recovers `{BlockCrypto} : Prop :=
  forall h k sig, Sign h k = inr sig -> SigToPub h sig = inr (PubkeyToAddress k).

(** A parent with fields of their widths, behind which a block can be built. *)
Record parent_ok (parent : Header.t) : Prop := {
  po_gas : MinGasLimit <= Header.GasLimit parent < 2 ^ 64;
  po_number : Header.Number parent + 1 < 2 ^ 32;
  po_score : 0 <= Header.TotalScore parent < 2 ^ 64 - 1
}.

Lemma header_ok c header parent now epoch :
  Header.Timestamp parent < Header.Timestamp header <= now + BlockInterval ->
  0 <= now < 2 ^ 63 -> GasLimit.IsValid (Header.GasLimit header) (Header.GasLimit parent) = true ->
  Header.GasUsed header <= Header.GasLimit header ->
  Header.TotalScore parent < Header.TotalScore header ->
  Header.LastKBlockHeight parent <= Header.LastKBlockHeight header ->
  Header.LastKBlockHeight header = Reactor.lastKBlockHeight c ->
  validateBlockHeader c header parent now true epoch = None.
Proof.
  intros Ht Hn Hg Hu Hs Hk Hc. unfold validateBlockHeader. rewrite Hg, <- Hc, Z.eqb_refl. simpl.
  unfold BlockInterval in *. rewrite u64_id by (unfold MaxUint64; lia).
  repeat (case_match; [exfalso; lia|]). done.
Qed.

Section Replay.
Context `{Hashing} `{StakingCodec} `{BlockChain} `{Emission} `{ScriptCodec} `{Deployment} `{Machine}
        `{TxCrypto} `{EthTypes} `{BlockCrypto} `{ChainView} `{Roots} `{UniteHashes}.
Context (engine : option Registry) (best : option Z).

Lemma offers_replay header ctx rt s f :
  0 <= BlockContext.GasLimit ctx ->
  let f0 := Flow.mk header ctx rt s ∅ 0 [] [] in
  rtc (offered engine best) f0 f -> replays engine best f0 f.
Proof.
  intros Hg f0 Hoff. assert (replays engine best f0 f0) as Hself by by split.
  enough (forall g, rtc (offered engine best) g f -> replays engine best f0 g -> replays engine best f0 f)
    as Hall by by eapply Hall.
  induction 1 as [|f1 f2 f3 Hs _ IH]; [done|]. intros Hr. apply IH; [|by eapply offered_replays].
  done.
Qed.

(** A block with the fields of a packed one. *)
Record packed (f : Flow.t) (root : Bytes32) (blk : Block.t) : Prop := {
  pk_parent : Block.ParentID blk = Header_ID (Flow.parent f);
  pk_ctx : block_context blk = Flow.ctx f;
  pk_gas : Header.GasUsed (Block.BlockHeader blk) = Flow.gasUsed f;
  pk_txs : Block.Txs blk = Flow.txs f;
  pk_kind : Block.IsKBlock blk = false;
  pk_receipts : Header.ReceiptsRoot (Block.BlockHeader blk) = receipts_root (Flow.receipts f);
  pk_root : Header.StateRoot (Block.BlockHeader blk) = root;
  pk_seeker : seeker_Err (Header_ID (Flow.parent f)) (BlockContext.Number (Flow.ctx f)) (Flow.txs f) = None;
  pk_state : stage_Hash (Flow.state f) = inr root
}.

Lemma VerifyBlock_packed c f0 f root blk s0 :
  replays engine best f0 f -> packed f root blk -> Flow.state f0 = runtime_New (Flow.ctx f0) s0 ->
  Flow.rt f0 = new_rt (Header_ID (Flow.parent f0)) s0 ->
  VerifyBlock engine best c blk s0 true = Ret (inr (Flow.state f, Flow.receipts f)).
Proof.
  intros [Hp Hc Hrt Hg Ht Hr] [Pp Pc Pg Pt Pk Pr Ps Pe Pst] Hs0 Hrt0. unfold VerifyBlock.
  rewrite Pc, Pk, Pt, Hc, <- Hs0, Pp, Hp, <- Hrt0. simpl. rewrite Hr by (by rewrite Pp, Hp). simpl.
  rewrite Pg, Pr, !Z.eqb_refl. simpl.
  assert (Header.Number (Block.BlockHeader blk) = BlockContext.Number (Flow.ctx f)) as ->
    by (by rewrite <- Pc).
  rewrite Hp in Pe. by rewrite Pe, Pst, Ps, Z.eqb_refl.
Qed.
End Replay.

(** C13: an M-block that a proposer packs over a parent passes the validation of
    every node with the same chain: whatever transactions with a signer other
    than the zero address were offered to the flow, adopted or refused, the
    signed block with its certificate is accepted against that parent, and its
    execution ends in the proposer's state and receipts.  The block is later than
    its parent, not ahead of the clock of the node by more than an interval, and
    names a last K-block between the parent's and the parent.  The gas of a
    transaction and the limit of the block add up to a 64-bit number, and no
    receipt counts more gas than its transaction has, which native methods, that
    give back gas, could break. *)
Theorem packed_block_valid `{Hashing} `{StakingCodec} `{BlockChain} `{Emission} `{ScriptCodec}
    `{Deployment} `{Machine} `{TxCrypto} `{EthTypes} `{BlockCrypto} `{ChainView} `{Roots}
    `{UniteHashes} engine best c nodeMaster beneficiary target parent time cand key qc epoch
    f0 f blk s receipts now :
  sign_recovers -> parent_ok (Block.BlockHeader parent) -> 0 <= target < 2 ^ 64 ->
  let header := Block.BlockHeader parent in
  Mock nodeMaster beneficiary header time (Packer_GasLimit target (Header.GasLimit header)) cand
    = inr f0 ->
  rtc (offered engine best) f0 f ->
  Pack nodeMaster key MBlockType (Reactor.lastKBlockHeight c) f = inr (blk, s, receipts) ->
  Header.Timestamp header < time <= now + BlockInterval -> 0 <= now < 2 ^ 63 ->
  Header.LastKBlockHeight header <= Reactor.lastKBlockHeight c <= Header.Number header ->
  0 <= Reactor.lastKBlockHeight c ->
  let proposed := blk <| Block.QC := Some qc |> <| Block.CommitteeEpoch := epoch |>
                      <| Block.Magic := BlockMagicVersion1 |> in
  exists s0, NewState (Header.StateRoot header) = inr s0 /\
    Validate engine best c s0 proposed parent now true = Ret (inr (s, receipts)).
Proof.
  intros Hrec Hpar Htg header Hmock Hoff Hpack Htime Hnow Hk Hk0 proposed.
  unfold Mock in Hmock. destruct (NewState _) as [|s0] eqn:Es; [done|]. exists s0. split; [done|].
  set (gl := Packer_GasLimit target (Header.GasLimit header)) in *.
  set (ctx := BlockContext.mk _ nodeMaster _ time gl _) in *.
  injection Hmock as <-. destruct Hpar as [Hpg Hpn Hps]. fold header in Hpg, Hpn, Hps.
  destruct (Packer_GasLimit_valid target (Header.GasLimit header) Htg Hpg) as [Hgv Hgr].
  fold gl in Hgv, Hgr.
  apply offers_replay in Hoff as Hrep; [|unfold MinGasLimit in *; simpl; lia].
  pose proof Hrep as [Hfp Hfc _ Hfg Hft _]. simpl in Hfp, Hfc, Hfg, Hft.
  unfold Pack in Hpack. destruct (Z.eqb_spec nodeMaster (PubkeyToAddress key)) as [->|]; [|done].
  simpl in Hpack. rewrite Hfp, Hfc in Hpack.
  destruct (seeker_Err _ _ _) eqn:Eseek; [done|]. destruct (stage_Hash _) as [|root] eqn:Eroot; [done|].
  destruct (Sign _ key) as [|sig] eqn:Esig; [done|]. injection Hpack as <- <- <-.
  apply Hrec in Esig.
  assert (Header.Number (Block.BlockHeader proposed) = u32 (Header.Number header + 1)) as Hnum
    by (unfold Header.Number at 1; simpl; by rewrite Number_ID).
  assert (u32 (Header.Number header + 1) = Header.Number header + 1) as Hnum'
    by (apply Z.mod_small; split; [|lia]; unfold Header.Number, u32; pose proof (Z.mod_pos_bound (Number (Header.ParentID header) + 1) (2 ^ 32) eq_refl); lia).
  assert (0 <= Header.Number header) as Hn0
    by (unfold Header.Number, u32; apply Z.mod_pos_bound; done).
  assert (Header_Signer (Block.BlockHeader proposed) = inr (PubkeyToAddress key)) as Hsig.
  { unfold Header_Signer. rewrite Hnum. destruct (Z.eqb_spec (u32 (Header.Number header + 1)) 0); [lia|].
    exact Esig. }
  assert (packed f root proposed) as Hpk.
  { split; rewrite ?Hfp, ?Hfc; try done. unfold block_context. by rewrite Hsig, Hnum. }
  assert (exists e, Block.GetBlockEpoch proposed = Ret e) as [e He].
  { unfold Block.GetBlockEpoch, Block.Number. rewrite Hnum, Hnum'.
    change (Header.LastKBlockHeight (Block.BlockHeader proposed)) with (Reactor.lastKBlockHeight c).
    assert (u32 (Reactor.lastKBlockHeight c + 1) = Reactor.lastKBlockHeight c + 1) as ->
      by (apply Z.mod_small; lia).
    destruct (Z.eqb_spec (Header.Number header + 1) 0); [lia|].
    destruct (Z.ltb_spec (Reactor.lastKBlockHeight c + 1) (Header.Number header + 1)); [simpl; eauto|].
    destruct (Z.eqb_spec (Header.Number header + 1) (Reactor.lastKBlockHeight c + 1)); [simpl; eauto|lia]. }
  assert (validateBlockHeader c (Block.BlockHeader proposed) header now true e = None) as Hhead.
  { apply header_ok; try done; simpl; try lia. unfold u64. rewrite Z.mod_small; lia. }
  assert (validateBlockBody c proposed true = Ret None) as Hbody.
  { apply validateBlockBody_ok; try done. unfold Block.Number. rewrite Hnum. exact Hft. }
  eapply VerifyBlock_packed in Hpk; [|done..]. clearbody proposed. unfold Validate.
  rewrite He. simpl. fold header. rewrite Hhead. unfold validateProposer. rewrite Hsig, Hbody. exact Hpk.
Qed.

(** ** A concrete block *)

Module SampleBlock.
#[export] Instance view : ChainView := {|
  Tag := 1;
  GetTransactionMeta := fun _ _ => inr None;
  GetID := fun _ n => (n, None);
  BestPowNonce := 0;
  NewState := fun root => if root =? 77 then inr SampleRuntime.state0 else inl "missing trie node"
|}.
#[export] Instance roots : Roots := {|
  accounts_root := fun s => State.GetEnergy s Sample.alice;
  txs_root := fun txs => Z.of_nat (length txs);
  receipts_root := fun rs => sum_of Receipt.GasUsed rs
|}.
#[export] Instance unite : UniteHashes := {|
  tx_UniteHash := Transaction.Nonce;
  clause_UniteHash := Clause.Value;
  script_UniteHash := ScriptData.ModID
|}.
Definition parent : Block.t :=
  Block.mk (Header.zero <| Header.ParentID := (Sample.late - 2) * 2 ^ 224 |>
              <| Header.Timestamp := 1699999990 |> <| Header.GasLimit := 10 ^ 7 |>
              <| Header.LastKBlockHeight := 5 |> <| Header.TotalScore := 5 |>
              <| Header.StateRoot := 77 |>) [] None 0 0 BlockMagicVersion1.
Definition reactor : Reactor.t := Reactor.mk 5 5 77 None true.
Definition tx (nonce : Z) : Transaction.t :=
  SampleRuntime.tx [SampleRuntime.bid_clause]
    <| Transaction.BlockRef := Sample.late * 2 ^ 32 |> <| Transaction.Nonce := nonce |>.
Definition mock : string + Flow.t :=
  @Mock SampleRuntime.machine SampleQC.block_crypto view 1 None (Block.BlockHeader parent) 1700000000
    (Packer_GasLimit 0 (10 ^ 7)) Sample.bob.
Definition adopt (nonce : Z) (f : Flow.t) : outcome (Flow.t * option string) :=
  @Adopt Sample.hashing Sample.codec Sample.chain Sample.emission SampleRuntime.script_codec
    SampleRuntime.deployment SampleRuntime.machine SampleTx.crypto SampleTx.eth SampleQC.block_crypto view
    (Some SampleRuntime.registry) (Some 10) (tx nonce) f.
Definition empty : Flow.t := Flow.mk Header.zero SampleRuntime.ctx SampleRuntime.rt SampleRuntime.state0 ∅ 0 [] [].
Definition flow0 : Flow.t := match mock with inr f => f | inl _ => empty end.
(** A bid, and the same transaction again, which is refused. *)
Definition flow1 : Flow.t := match adopt 7 flow0 with Ret (f, _) => f | Panic => empty end.
Definition flow2 : Flow.t := match adopt 7 flow1 with Ret (f, _) => f | Panic => empty end.
Definition pack : string + (Block.t * State.t * list Receipt.t) :=
  @Pack SampleQC.block_crypto view roots 1 true MBlockType 5 flow2.
Definition result : Block.t * State.t * list Receipt.t :=
  match pack with inr r => r | inl _ => (parent, SampleRuntime.state0, []) end.
Definition qc : QuorumCert.t := QuorumCert.mk 0 0 3 "" 0 "".

Lemma recovers : @sign_recovers SampleQC.block_crypto.
Proof. intros h [] sig [=<-]; reflexivity. Qed.
End SampleBlock.

Lemma packed_block_valid_witness :
  length (Flow.txs SampleBlock.flow2) = 1%nat /\
  exists s0, @NewState SampleBlock.view 77 = inr s0 /\
    @Validate Sample.hashing Sample.codec Sample.chain Sample.emission SampleRuntime.script_codec
      SampleRuntime.deployment SampleRuntime.machine SampleTx.crypto SampleTx.eth SampleQC.block_crypto
      SampleBlock.view SampleBlock.roots SampleBlock.unite (Some SampleRuntime.registry) (Some 10)
      SampleBlock.reactor s0
      (SampleBlock.result.1.1 <| Block.QC := Some SampleBlock.qc |> <| Block.CommitteeEpoch := 3 |>
                              <| Block.Magic := BlockMagicVersion1 |>)
      SampleBlock.parent 1700000000 true
    = Ret (inr (SampleBlock.result.1.2, SampleBlock.result.2)).
Proof.
  split; [vm_compute; reflexivity|].
  apply (@packed_block_valid Sample.hashing Sample.codec Sample.chain Sample.emission
    SampleRuntime.script_codec SampleRuntime.deployment SampleRuntime.machine SampleTx.crypto SampleTx.eth
    SampleQC.block_crypto SampleBlock.view SampleBlock.roots SampleBlock.unite
    (Some SampleRuntime.registry) (Some 10) SampleBlock.reactor 1 None 0 SampleBlock.parent 1700000000
    Sample.bob true SampleBlock.qc 3 SampleBlock.flow0 SampleBlock.flow2).
  - apply SampleBlock.recovers.
  - by split; vm_compute; split.
  - by split.
  - vm_compute. reflexivity.
  - apply rtc_l with SampleBlock.flow1; [|apply rtc_once].
    + exists (SampleBlock.tx 7), Sample.alice, None.
      split_and!; [vm_compute; discriminate|vm_compute; discriminate|vm_compute; reflexivity|vm_compute; reflexivity|discriminate|].
      vm_compute. reflexivity.
    + exists (SampleBlock.tx 7), Sample.alice, (Some errKnownTx).
      split_and!; [vm_compute; discriminate|vm_compute; discriminate|vm_compute; reflexivity|vm_compute; reflexivity|discriminate|].
      vm_compute. reflexivity.
  - vm_compute. reflexivity.
  - by vm_compute.
  - by split.
  - by vm_compute.
  - by vm_compute.
Defined.
