(* ===== verification/ChainTheorems.v ===== *)
(** * Theorems on the chain

    Forks are exact; a chain that only grows at its best block keeps its index,
    and finds exactly the transactions of its trunk; a block beside the trunk
    takes over the index. *)

From S2P Require Import Prelude Text KeyedList ChainParam BitArray Transaction Block QuorumTheorems TransactionTheorems Runtime Chain.
From stdpp Require Import gmap.
Open Scope Z_scope.
Import Chain.

(** ** Identifiers and numbers *)

Section Numbers.
Context `{BlockCrypto}.
Implicit Types (h : Header.t).

Lemma Header_Number_range h : 0 <= Header.Number h < 2 ^ 32.
Proof. apply Z.mod_pos_bound. done. Qed.
Lemma Block_Number_ID b : Number (Block.ID b) = Block.Number b.
Proof. apply Number_ID. Qed.
End Numbers.

(** ** Forks *)

Section Forks.
Context `{BlockChain} `{TxCrypto} `{EthTypes} `{BlockCrypto}.
Implicit Types (c : t) (h a : Header.t).

(** Every block lies under its identifier, and none has the last number: the
    parent of the genesis block has it. *)
Definition store_wf (s : Store.t) : Prop :=
  forall id b, Store.blockRaw s !! id = Some b -> Block.ID b = id /\ Block.Number b < 2 ^ 32 - 1.

(** Headers that follow each other, from the one behind [a]. *)
Fixpoint linked (a : Header.t) (hs : list Header.t) : Prop :=
  match hs with
  | [] => True
  | h :: hs => Header.ParentID h = Header_ID a /\ linked h hs
  end.
Definition tip (a : Header.t) (hs : list Header.t) : Header.t := default a (last hs).

Lemma getBlockHeader_Some c id h :
  store_wf (kv c) -> getBlockHeader c id = inr h -> Header_ID h = id /\ Header.Number h < 2 ^ 32 - 1.
Proof.
  intros Hwf. unfold getBlockHeader, getBlock. destruct (Store.blockRaw (kv c) !! id) as [b|] eqn:E; [|done].
  intros [= <-]. exact (Hwf id b E).
Qed.
Lemma getBlockHeader_err c id err : getBlockHeader c id = inl err -> err = kv_notFound.
Proof. unfold getBlockHeader, getBlock. destruct (_ !! id); [done|]. by intros [= <-]. Qed.

Lemma parent_number c h h' :
  store_wf (kv c) -> getBlockHeader c (Header.ParentID h) = inr h' ->
  Header_ID h' = Header.ParentID h /\ Header.Number h = Header.Number h' + 1.
Proof.
  intros Hwf E. destruct (getBlockHeader_Some c _ _ Hwf E) as [Hid Hn]. split; [done|].
  unfold Header.Number at 1. rewrite <- Hid, Number_ID. pose proof (Header_Number_range h').
  apply Z.mod_small. lia.
Qed.

Lemma linked_app a hs hs' : linked a (hs ++ hs') <-> linked a hs /\ linked (tip a hs) hs'.
Proof.
  revert a. induction hs as [|h hs IH]; intros a; [by simpl; tauto|]. simpl. rewrite IH.
  replace (tip a (h :: hs)) with (tip h hs); [tauto|]. unfold tip. rewrite last_cons. by destruct (last hs).
Qed.

(** The lists are collected from the heads down, hence reversed. *)
Record fork_inv b1 b2 h1 h2 (trunk branch : list Header.t) : Prop := {
  fi_trunk : linked h1 (reverse trunk);
  fi_branch : linked h2 (reverse branch);
  fi_tip1 : tip h1 (reverse trunk) = b1;
  fi_tip2 : tip h2 (reverse branch) = b2;
  fi_above1 : Forall (fun h => Header.Number h1 < Header.Number h) trunk;
  fi_above2 : Forall (fun h => Header.Number h2 < Header.Number h) branch;
  fi_only1 : Header.Number h2 < Header.Number h1 -> branch = [];
  fi_only2 : Header.Number h1 < Header.Number h2 -> trunk = [];
  fi_apart : forall x y, x ∈ trunk -> y ∈ branch -> Header_ID x <> Header_ID y
}.

(** One step down of the first list. *)
Lemma linked_down c h h' (hs : list Header.t) :
  store_wf (kv c) -> getBlockHeader c (Header.ParentID h) = inr h' -> linked h (reverse hs) ->
  linked h' (reverse (hs ++ [h])) /\ tip h' (reverse (hs ++ [h])) = tip h (reverse hs).
Proof.
  intros Hwf E Hl. rewrite reverse_app. simpl. destruct (parent_number c h h' Hwf E) as [Hid _].
  split; [by rewrite Hid|]. unfold tip. rewrite last_cons. by destruct (last (reverse hs)).
Qed.

Lemma fork_loop_spec fuel c b1 b2 h1 h2 trunk branch :
  store_wf (kv c) -> fork_inv b1 b2 h1 h2 trunk branch ->
  (Z.to_nat (Header.Number h1 + Header.Number h2) < fuel)%nat ->
  match fork_loop fuel c h1 h2 trunk branch with
  | None => False
  | Some (inl err) => err = kv_notFound
  | Some (inr f) =>
    linked (Fork.Ancestor f) (Fork.Trunk f) /\ linked (Fork.Ancestor f) (Fork.Branch f) /\
    tip (Fork.Ancestor f) (Fork.Trunk f) = b1 /\
    Header_ID (tip (Fork.Ancestor f) (Fork.Branch f)) = Header_ID b2 /\
    forall x y, x ∈ Fork.Trunk f -> y ∈ Fork.Branch f -> Header_ID x <> Header_ID y
  end.
Proof.
  intros Hwf. revert h1 h2 trunk branch. induction fuel as [|fuel IH]; intros h1 h2 trunk branch Hi Hf; [lia|].
  pose proof (Header_Number_range h1). pose proof (Header_Number_range h2).
  destruct Hi as [Htr Hbr Htip1 Htip2 Hab1 Hab2 Honly1 Honly2 Hapart].
  assert (forall x, x ∈ trunk -> Header.Number h1 < Header.Number x) as Ha1 by (by apply Forall_forall).
  assert (forall x, x ∈ branch -> Header.Number h2 < Header.Number x) as Ha2 by (by apply Forall_forall).
  cbn [fork_loop]. destruct (Z.ltb_spec (Header.Number h2) (Header.Number h1)) as [Hlt|Hge].
  { destruct (getBlockHeader c (Header.ParentID h1)) as [err|h1'] eqn:E; [by eapply getBlockHeader_err|].
    destruct (parent_number c h1 h1' Hwf E) as [Hid Hn]. pose proof (Header_Number_range h1').
    destruct (linked_down c h1 h1' trunk Hwf E Htr) as [Hl Ht].
    apply IH; [|lia]. rewrite Honly1 in * by done. split; try done; [congruence| |intros; lia|by intros x y _ ?%elem_of_nil].
    apply Forall_forall. intros x [Hx| ->%list_elem_of_singleton]%elem_of_app; [specialize (Ha1 x Hx)|]; lia. }
  destruct (Z.ltb_spec (Header.Number h1) (Header.Number h2)) as [Hlt|Hge'].
  { destruct (getBlockHeader c (Header.ParentID h2)) as [err|h2'] eqn:E; [by eapply getBlockHeader_err|].
    destruct (parent_number c h2 h2' Hwf E) as [Hid Hn]. pose proof (Header_Number_range h2').
    destruct (linked_down c h2 h2' branch Hwf E Hbr) as [Hl Ht].
    apply IH; [|lia]. rewrite Honly2 in * by done. split; try done; [congruence| |intros; lia|by intros x y ?%elem_of_nil].
    apply Forall_forall. intros x [Hx| ->%list_elem_of_singleton]%elem_of_app; [specialize (Ha2 x Hx)|]; lia. }
  destruct (Z.eqb_spec (Header_ID h1) (Header_ID h2)) as [Eid|Eid].
  { simpl. split_and!; [done| |done| |].
    - destruct (reverse branch) as [|h hs]; [done|]. simpl in *. by rewrite Eid.
    - rewrite <- Htip2. unfold tip. by destruct (last (reverse branch)).
    - intros x y. rewrite !elem_of_reverse. apply Hapart. }
  destruct (getBlockHeader c (Header.ParentID h1)) as [err|h1'] eqn:E1; [by eapply getBlockHeader_err|].
  destruct (getBlockHeader c (Header.ParentID h2)) as [err|h2'] eqn:E2; [by eapply getBlockHeader_err|].
  destruct (parent_number c h1 h1' Hwf E1) as [_ Hn1]. pose proof (Header_Number_range h1').
  destruct (parent_number c h2 h2' Hwf E2) as [_ Hn2]. pose proof (Header_Number_range h2').
  destruct (linked_down c h1 h1' trunk Hwf E1 Htr) as [Hl1 Ht1].
  destruct (linked_down c h2 h2' branch Hwf E2 Hbr) as [Hl2 Ht2].
  apply IH; [|lia]. split; try done; [congruence|congruence| | |intros; lia|intros; lia|].
  - apply Forall_forall. intros x [Hx| ->%list_elem_of_singleton]%elem_of_app; [specialize (Ha1 x Hx)|]; lia.
  - apply Forall_forall. intros x [Hx| ->%list_elem_of_singleton]%elem_of_app; [specialize (Ha2 x Hx)|]; lia.
  - assert (forall x y, Header.Number x <> Header.Number y -> Header_ID x <> Header_ID y) as Hne.
    { intros x y Hxy E. apply Hxy. by rewrite <- !Number_ID, E. }
    intros x y [Hx| ->%list_elem_of_singleton]%elem_of_app [Hy| ->%list_elem_of_singleton]%elem_of_app; [by apply Hapart|..|done].
    + apply Hne. specialize (Ha1 x Hx). lia.
    + apply Hne. specialize (Ha2 y Hy). lia.
Qed.

(** The other walks end as well: the numbers go down. *)
Lemma parent_stored s b b' :
  store_wf s -> Store.blockRaw s !! Block.ParentID b = Some b' ->
  Block.Number b = Block.Number b' + 1 /\ 0 <= Block.Number b'.
Proof.
  intros Hwf E. destruct (Hwf _ _ E) as [Hid Hn]. pose proof (Header_Number_range (Block.BlockHeader b')) as Hr.
  fold (Block.Number b') in Hr. split; [|lia]. unfold Block.Number at 1, Header.Number. fold (Block.ParentID b).
  rewrite <- Hid, Block_Number_ID. apply Z.mod_small. lia.
Qed.
Lemma read_loop_returns fuel c position blocks :
  store_wf (kv c) -> (0 < fuel)%nat ->
  (forall b, Store.blockRaw (kv c) !! position = Some b -> Block.Number b + 1 < Z.of_nat fuel) ->
  read_loop fuel c position blocks <> None.
Proof.
  intros Hwf. revert position blocks. induction fuel as [|fuel IH]; intros position blocks Hf Hb; [lia|].
  cbn [read_loop]. unfold getBlock. destruct (Store.blockRaw (kv c) !! position) as [b|] eqn:E; [|done].
  specialize (Hb b eq_refl). pose proof (Header_Number_range (Block.BlockHeader b)) as Hr. fold (Block.Number b) in Hr.
  assert (forall l, read_loop fuel c (Block.ParentID b) l <> None) as Hdown.
  { intros l. apply IH; [lia|]. intros b' E'. destruct (parent_stored _ _ _ Hwf E'). lia. }
  cbn [lookup_or]. cbv zeta. destruct (_ <? _); [apply Hdown|]. destruct (ancestor _ _); [done|].
  destruct (_ =? _); [|apply Hdown]. by destruct (nextBlock _ _).
Qed.
Lemma Read_returns c position : store_wf (kv c) -> Read c position <> None.
Proof.
  intros Hwf. unfold Read. destruct (_ =? _); [done|]. apply read_loop_returns; [done|lia|].
  intros b E. destruct (Hwf _ _ E) as [<- _]. rewrite Block_Number_ID.
  pose proof (Header_Number_range (Block.BlockHeader b)) as Hr. fold (Block.Number b) in Hr. lia.
Qed.
Lemma skip_sblocks_returns fuel s best last' :
  store_wf s -> 0 <= Block.Number best -> Block.Number best + 1 < Z.of_nat fuel ->
  skip_sblocks fuel s best last' <> None.
Proof.
  intros Hwf. revert best last'. induction fuel as [|fuel IH]; intros best last' H0' Hf; [lia|]. cbn [skip_sblocks].
  destruct (Block.IsSBlock best); [|done].
  destruct (Store.blockRaw s !! Block.ParentID best) as [b'|] eqn:E; [|done].
  destruct (parent_stored _ _ _ Hwf E). apply IH; lia.
Qed.

(** C17: [buildFork] ends with the lowest common ancestor.  With every block under
    its identifier it always returns; its only error is that an ancestor is not
    stored; and its fork is a block with two lists of headers, each linked from
    that block to one of the heads, that have no block in common. *)
Theorem buildFork_exact c trunkHead branchHead :
  store_wf (kv c) ->
  match buildFork c trunkHead branchHead with
  | None => False
  | Some (inl err) => err = kv_notFound
  | Some (inr f) =>
    linked (Fork.Ancestor f) (Fork.Trunk f) /\ linked (Fork.Ancestor f) (Fork.Branch f) /\
    tip (Fork.Ancestor f) (Fork.Trunk f) = trunkHead /\
    Header_ID (tip (Fork.Ancestor f) (Fork.Branch f)) = Header_ID branchHead /\
    forall x y, x ∈ Fork.Trunk f -> y ∈ Fork.Branch f -> Header_ID x <> Header_ID y
  end.
Proof.
  intros Hwf. apply fork_loop_spec; [done| |lia].
  split; try done. by intros x y ?%elem_of_nil.
Qed.
End Forks.

(** ** The trunk *)

Section Trunk.
Context `{BlockChain} `{TxCrypto} `{EthTypes} `{BlockCrypto}.
Implicit Types (c : t) (b : Block.t) (id : Bytes32).

(** The block that the index has for a number. *)
Definition on_trunk c b : Prop :=
  Store.blockHash (kv c) !! Block.Number b = Some (Block.ID b) /\
  Store.blockRaw (kv c) !! Block.ID b = Some b.
(** [b] has a transaction with this identifier at [i]. *)
Definition contains b (i : Z) (txID : Bytes32) : Prop :=
  exists tx, Block.Txs b !! Z.to_nat i = Some tx /\ Transaction.ID tx = Ret txID.

Record trunk_ok c : Prop := {
  to_store : store_wf (kv c);
  to_best : on_trunk c (bestBlock c);
  to_saved : Store.bestBlockID (kv c) = Some (Block.ID (bestBlock c));
  (** every number up to the best block has a block, and its parent below it *)
  to_index : forall n, 0 <= n <= Block.Number (bestBlock c) -> exists b, on_trunk c b /\ Block.Number b = n /\
    (0 < n -> Store.blockHash (kv c) !! (n - 1) = Some (Block.ParentID b));
  to_above : forall n, Block.Number (bestBlock c) < n -> Store.blockHash (kv c) !! n = None;
  (** the places of a transaction are places where it is, *)
  to_sound : forall txID metas m, Store.txMeta (kv c) !! txID = Some metas -> m ∈ metas ->
    exists b, Store.blockRaw (kv c) !! TxMeta.BlockID m = Some b /\ contains b (TxMeta.Index m) txID;
  (** and every block with it that is stored is among them *)
  to_complete : forall b i txID, Store.blockRaw (kv c) !! Block.ID b = Some b -> contains b i txID ->
    exists metas m, Store.txMeta (kv c) !! txID = Some metas /\ m ∈ metas /\ TxMeta.BlockID m = Block.ID b
}.

Lemma ancestor_trunk c n id : Store.blockHash (kv c) !! n = Some id -> ancestor c n = inr id.
Proof. intros E. unfold ancestor, GetAncestor. by rewrite E. Qed.

Lemma find_meta_spec c headNum metas :
  (forall m, m ∈ metas -> Number (TxMeta.BlockID m) <= headNum ->
    exists id, Store.blockHash (kv c) !! Number (TxMeta.BlockID m) = Some id) ->
  match find_meta c headNum metas with
  | inr m => m ∈ metas /\ Number (TxMeta.BlockID m) <= headNum /\
             Store.blockHash (kv c) !! Number (TxMeta.BlockID m) = Some (TxMeta.BlockID m)
  | inl err => err = ErrNotFound /\ forall m, m ∈ metas -> Number (TxMeta.BlockID m) <= headNum ->
                 Store.blockHash (kv c) !! Number (TxMeta.BlockID m) <> Some (TxMeta.BlockID m)
  end.
Proof.
  induction metas as [|m metas IH]; intros Hm; [split; [done|]; by intros m ?%elem_of_nil|].
  cbn [find_meta].
  assert (forall m, m ∈ metas -> Number (TxMeta.BlockID m) <= headNum ->
    exists id, Store.blockHash (kv c) !! Number (TxMeta.BlockID m) = Some id) as Hm'
    by (intros m' Hin; apply Hm; by right). specialize (IH Hm').
  assert (forall r : string + TxMeta.t,
    (Number (TxMeta.BlockID m) <= headNum ->
      Store.blockHash (kv c) !! Number (TxMeta.BlockID m) <> Some (TxMeta.BlockID m)) ->
    r = find_meta c headNum metas -> match r with
      | inr m0 => m0 ∈ m :: metas /\ Number (TxMeta.BlockID m0) <= headNum /\
             Store.blockHash (kv c) !! Number (TxMeta.BlockID m0) = Some (TxMeta.BlockID m0)
      | inl err => err = ErrNotFound /\ forall m0, m0 ∈ m :: metas -> Number (TxMeta.BlockID m0) <= headNum ->
                 Store.blockHash (kv c) !! Number (TxMeta.BlockID m0) <> Some (TxMeta.BlockID m0)
      end) as Hskip.
  { intros r Hno ->. destruct (find_meta c headNum metas) as [err|m'].
    - destruct IH as [-> IH]. split; [done|]. intros m0 [->|Hin]%elem_of_cons; [done|by apply IH].
    - destruct IH as (? & ? & ?). split_and!; [by right|done..]. }
  destruct (Z.ltb_spec headNum (Number (TxMeta.BlockID m))); [apply Hskip; [lia|done]|].
  destruct (Hm m ltac:(by left) ltac:(lia)) as [id Hid]. rewrite (ancestor_trunk _ _ _ Hid).
  destruct (Z.eqb_spec id (TxMeta.BlockID m)) as [->|Hne]; [split_and!; [by left|lia|done]|].
  apply Hskip; [|done]. intros _ E. congruence.
Qed.

Lemma meta_indexed c txID metas m :
  trunk_ok c -> Store.txMeta (kv c) !! txID = Some metas -> m ∈ metas ->
  Number (TxMeta.BlockID m) <= Block.Number (bestBlock c) ->
  exists id, Store.blockHash (kv c) !! Number (TxMeta.BlockID m) = Some id.
Proof.
  intros Hc E Hm Hle. destruct (to_sound c Hc _ _ _ E Hm) as (b & Hb & _).
  destruct (to_store c Hc _ _ Hb) as [Hid _]. rewrite <- Hid, Block_Number_ID in *.
  pose proof (Header_Number_range (Block.BlockHeader b)).
  destruct (to_index c Hc (Block.Number b)) as (b' & [Hh _] & Hn & _); [unfold Block.Number in *; lia|].
  rewrite Hn in Hh. eauto.
Qed.

(** A transaction is found exactly when it is in a block of the trunk. *)
Lemma trunk_meta c txID :
  trunk_ok c ->
  match GetTrunkTransactionMeta c txID with
  | inr m => exists b, on_trunk c b /\ Block.ID b = TxMeta.BlockID m /\ contains b (TxMeta.Index m) txID
  | inl err => IsNotFound err = true /\
      forall b i, on_trunk c b -> Block.Number b <= Block.Number (bestBlock c) -> ~ contains b i txID
  end.
Proof.
  intros Hc. unfold GetTrunkTransactionMeta, getTransactionMeta.
  destruct (Store.txMeta (kv c) !! txID) as [metas|] eqn:E.
  2: { split; [done|]. intros b i [_ Hb] _ Hin.
       destruct (to_complete c Hc b i txID Hb Hin) as (metas & m & E' & _). congruence. }
  rewrite Block_Number_ID. pose proof (find_meta_spec c (Block.Number (bestBlock c)) metas) as Hf.
  destruct (find_meta c _ metas) as [err|m].
  - destruct Hf as [-> Hno].
    { intros m Hm. by apply (meta_indexed c txID metas). }
    split; [done|]. intros b i [Hh Hb] Hle Hin.
    destruct (to_complete c Hc b i txID Hb Hin) as (metas' & m & E' & Hm & Hid).
    rewrite E in E'. injection E' as <-. apply (Hno m Hm); rewrite Hid, Block_Number_ID; done.
  - destruct Hf as (Hm & Hle & Hh).
    { intros m' Hm'. by apply (meta_indexed c txID metas). }
    destruct (to_sound c Hc _ _ _ E Hm) as (b & Hb & Hin). destruct (to_store c Hc _ _ Hb) as [Hid _].
    exists b. split_and!; [|done|done]. split; [|by rewrite Hid].
    by rewrite <- Hid, Block_Number_ID in Hh.
Qed.

(** *** The places of the transactions of a block *)

Lemma save_metas_spec s bid i txs receipts M M' txID :
  save_metas s bid i txs receipts M = Ret M' ->
  (M' !! txID = M !! txID /\ forall j tx, txs !! j = Some tx -> Transaction.ID tx <> Ret txID) \/
  exists (j : nat) tx rev, txs !! j = Some tx /\ Transaction.ID tx = Ret txID /\
    M' !! txID = Some (default [] (Store.txMeta s !! txID) ++ [TxMeta.mk bid (i + Z.of_nat j) rev]).
Proof.
  revert i M. induction txs as [|tx txs IH]; intros i M Hs; [injection Hs as <-; by left|].
  cbn [save_metas] in Hs. destruct (Transaction.ID tx) as [id|] eqn:Eid; [|done]. simpl in Hs.
  destruct (receipts !! Z.to_nat i) as [r|]; [|done]. simpl in Hs.
  destruct (IH _ _ Hs) as [[Hm Hno]|(j & tx' & rev & Hj & Hid & Hm)].
  - destruct (decide (id = txID)) as [->|Hne].
    + right. exists 0%nat, tx, (Receipt.Reverted r). rewrite lookup_insert_eq in Hm.
      replace (i + Z.of_nat 0) with i by lia. done.
    + left. rewrite lookup_insert_ne in Hm by done. split; [done|].
      intros [|j] tx'; simpl; [intros [= <-]; congruence|apply Hno].
  - right. exists (S j), tx', rev. replace (i + Z.of_nat (S j)) with (i + 1 + Z.of_nat j) by lia. done.
Qed.

Lemma save_metas_total s bid i txs receipts M :
  0 <= i -> (Z.to_nat i + length txs <= length receipts)%nat ->
  Forall (fun tx => exists id, Transaction.ID tx = Ret id) txs ->
  exists M', save_metas s bid i txs receipts M = Ret M'.
Proof.
  revert i M. induction txs as [|tx txs IH]; intros i M Hi Hl Hids; [by eexists|].
  apply Forall_cons in Hids as [[id Hid] Hids]. simpl in Hl. cbn [save_metas]. rewrite Hid. simpl.
  destruct (lookup_lt_is_Some_2 receipts (Z.to_nat i)) as [r ->]; [lia|]. simpl. apply IH; [lia..|done].
Qed.

Lemma save_metas_same s s' bid i txs receipts M :
  Store.txMeta s' = Store.txMeta s -> save_metas s' bid i txs receipts M = save_metas s bid i txs receipts M.
Proof.
  intros E. revert i M. induction txs as [|tx txs IH]; intros; [done|]. cbn [save_metas].
  destruct (Transaction.ID tx); [|done]. simpl. destruct (receipts !! _); [|done]. simpl. rewrite E. apply IH.
Qed.

(** What [AddBlock] needs of a block: its transactions have identifiers and
    receipts. *)
Definition receipted b (receipts : list Receipt.t) : Prop :=
  (length (Block.Txs b) <= length receipts)%nat /\
  Forall (fun tx => exists id, Transaction.ID tx = Ret id) (Block.Txs b).

(** The parts of the invariant that hold of any block that is stored. *)
Lemma stored_metas c b receipts M kv' :
  trunk_ok c -> Store.blockRaw (kv c) !! Block.ID b = None ->
  save_metas (kv c) (Block.ID b) 0 (Block.Txs b) receipts (Store.txMeta (kv c)) = Ret M ->
  Store.txMeta kv' = M -> Store.blockRaw kv' = <[Block.ID b := b]> (Store.blockRaw (kv c)) ->
  (forall txID metas m, Store.txMeta kv' !! txID = Some metas -> m ∈ metas ->
    exists b', Store.blockRaw kv' !! TxMeta.BlockID m = Some b' /\ contains b' (TxMeta.Index m) txID) /\
  (forall b' i txID, Store.blockRaw kv' !! Block.ID b' = Some b' -> contains b' i txID ->
    exists metas m, Store.txMeta kv' !! txID = Some metas /\ m ∈ metas /\ TxMeta.BlockID m = Block.ID b').
Proof.
  intros Hc Hnew HM HkM HkB. rewrite HkM, HkB. split.
  - assert (forall txID metas m, Store.txMeta (kv c) !! txID = Some metas -> m ∈ metas -> exists b',
      <[Block.ID b := b]> (Store.blockRaw (kv c)) !! TxMeta.BlockID m = Some b' /\
      contains b' (TxMeta.Index m) txID) as Hold.
    { intros txID metas m E Hm. destruct (to_sound c Hc _ _ _ E Hm) as (b' & Hb' & Hin). exists b'.
      rewrite lookup_insert_ne by congruence. done. }
    intros txID metas m E Hm.
    destruct (save_metas_spec _ _ _ _ _ _ _ txID HM) as [[E' _]|(j & tx & rev & Hj & Hid & E')];
      rewrite E' in E; [by eapply Hold|]. injection E as <-.
    apply elem_of_app in Hm as [Hm| ->%list_elem_of_singleton].
    + destruct (Store.txMeta (kv c) !! txID) as [metas|] eqn:E0; [|by apply elem_of_nil in Hm]. by eapply Hold.
    + exists b. simpl. rewrite lookup_insert_eq. split; [done|]. exists tx.
      by rewrite Z.add_0_l, Nat2Z.id.
  - intros b' i txID Hb' (tx & Hi & Hid).
    assert (Store.blockRaw (kv c) !! Block.ID b' = Some b' \/ b' = b) as Hcase.
    { destruct (decide (Block.ID b = Block.ID b')) as [E|E].
      - rewrite E, lookup_insert_eq in Hb'. injection Hb' as ->. by right.
      - rewrite lookup_insert_ne in Hb' by done. by left. }
    destruct (save_metas_spec _ _ _ _ _ _ _ txID HM) as [[E' Hno]|(j & tx' & rev & Hj & Hid' & E')].
    + destruct Hcase as [Hs| ->]; [|by destruct (Hno _ _ Hi)].
      destruct (to_complete c Hc b' i txID Hs) as (metas & m & E & Hm & Hb); [by exists tx|].
      exists metas, m. by rewrite E'.
    + rewrite E'. destruct Hcase as [Hs| ->].
      * destruct (to_complete c Hc b' i txID Hs) as (metas & m & E & Hm & Hb); [by exists tx|].
        eexists _, m. split; [done|]. rewrite E. split; [by apply elem_of_app; left|done].
      * eexists _, _. split; [done|]. split; [by apply elem_of_app; right; left|done].
Qed.

(** *** Extending the trunk *)

(** [b] is a new block on top of the best one. *)
Record on_best c b : Prop := {
  ob_parent : Block.ParentID b = Block.ID (bestBlock c);
  ob_new : Store.blockRaw (kv c) !! Block.ID b = None;
  ob_number : Block.Number (bestBlock c) < 2 ^ 32 - 2
}.
(** It has a higher score and its receipts. *)
Record extends c b (receipts : list Receipt.t) : Prop := {
  ex_on : on_best c b;
  ex_score : Header.TotalScore (Block.BlockHeader (bestBlock c)) < Header.TotalScore (Block.BlockHeader b);
  ex_receipts : receipted b receipts
}.
(** The chain behind the addition, as far as the trunk is concerned. *)
Record appended c b (qc : QuorumCert.t) (M : gmap Bytes32 (list TxMeta.t)) c' : Prop := {
  ap_best : bestBlock c' = b;
  ap_qc : bestQC c' = qc;
  ap_raw : Store.blockRaw (kv c') = <[Block.ID b := b]> (Store.blockRaw (kv c));
  ap_hash : Store.blockHash (kv c') = <[Block.Number b := Block.ID b]> (Store.blockHash (kv c));
  ap_meta : Store.txMeta (kv c') = M;
  ap_saved : Store.bestBlockID (kv c') = Some (Block.ID b)
}.

Lemma on_best_number c b : on_best c b -> Block.Number b = Block.Number (bestBlock c) + 1.
Proof.
  intros Hx. unfold Block.Number at 1, Header.Number.
  change (Header.ParentID (Block.BlockHeader b)) with (Block.ParentID b). rewrite (ob_parent _ _ Hx), Block_Number_ID.
  pose proof (ob_number _ _ Hx). pose proof (Header_Number_range (Block.BlockHeader (bestBlock c))).
  apply Z.mod_small. unfold Block.Number in *. lia.
Qed.

Lemma known_block_new c b : Store.blockRaw (kv c) !! Block.ID b = None -> known_block c b = None.
Proof. intros E. unfold known_block, getBlockHeader, getBlock. by rewrite E. Qed.

Lemma buildFork_child c b :
  trunk_ok c -> on_best c b ->
  forall c', kv c' = (kv c) <| Store.blockHash ::= <[Block.Number b := Block.ID b]> |> ->
  buildFork c' (Block.BlockHeader b) (Block.BlockHeader (bestBlock c))
    = Some (inr (Fork.mk (Block.BlockHeader (bestBlock c)) [Block.BlockHeader b] [])).
Proof.
  intros Hc Hx c' Hkv. pose proof (on_best_number _ _ Hx) as Hn. unfold Block.Number in Hn.
  pose proof (Header_Number_range (Block.BlockHeader (bestBlock c))).
  unfold buildFork. rewrite Hn. set (k := Z.to_nat _).
  assert (exists k', k = S k') as [k' ->] by (exists (pred k); lia).
  cbn [fork_loop]. rewrite Hn, (proj2 (Z.ltb_lt _ _)) by lia.
  assert (getBlockHeader c' (Header.ParentID (Block.BlockHeader b)) = inr (Block.BlockHeader (bestBlock c))) as ->.
  { change (Header.ParentID (Block.BlockHeader b)) with (Block.ParentID b). rewrite (ob_parent _ _ Hx).
    unfold getBlockHeader, getBlock. rewrite Hkv. simpl. by rewrite (proj2 (to_best c Hc)). }
  by rewrite Z.ltb_irrefl, Z.eqb_refl.
Qed.

Lemma AddBlock_on_best c b qc receipts M :
  trunk_ok c -> on_best c b -> isTrunk c (Block.BlockHeader b) = true ->
  save_metas (kv c) (Block.ID b) 0 (Block.Txs b) receipts (Store.txMeta (kv c)) = Ret M ->
  exists c', AddBlock b (Some qc) receipts c
      = Ret (c', inr (Fork.mk (Block.BlockHeader (bestBlock c)) [Block.BlockHeader b] [])) /\
    appended c b qc M c'.
Proof.
  intros Hc Hx Ht HM. unfold AddBlock. rewrite known_block_new by apply (ob_new _ _ Hx).
  assert (getBlockHeader c (Block.ParentID b) = inr (Block.BlockHeader (bestBlock c))) as ->.
  { unfold getBlockHeader, getBlock. rewrite (ob_parent _ _ Hx). by rewrite (proj2 (to_best c Hc)). }
  set (c1 := c <| kv ::= _ |>).
  change (Store.txMeta (kv c1)) with (Store.txMeta (kv c)).
  rewrite (save_metas_same (kv c) (kv c1)) by done. rewrite HM.
  cbn [mbind outcome_bind]. change (isTrunk c1 (Block.BlockHeader b)) with (isTrunk c (Block.BlockHeader b)).
  rewrite Ht. change (bestBlock c1) with (bestBlock c).
  rewrite (buildFork_child c b Hc Hx c1) by done. cbn [deref mbind outcome_bind].
  destruct (Block.IsKBlock b); eexists; (split; [done|by split]).
Qed.

Lemma AddBlock_extends c b qc receipts :
  trunk_ok c -> extends c b receipts ->
  exists c' M, AddBlock b (Some qc) receipts c
      = Ret (c', inr (Fork.mk (Block.BlockHeader (bestBlock c)) [Block.BlockHeader b] [])) /\
    save_metas (kv c) (Block.ID b) 0 (Block.Txs b) receipts (Store.txMeta (kv c)) = Ret M /\
    appended c b qc M c'.
Proof.
  intros Hc Hx. destruct (ex_receipts _ _ _ Hx) as [Hlen Hids].
  destruct (save_metas_total (kv c) (Block.ID b) 0 (Block.Txs b) receipts (Store.txMeta (kv c))) as [M HM];
    [done|done|done|].
  destruct (AddBlock_on_best c b qc receipts M Hc (ex_on _ _ _ Hx)) as (c' & Ha & Hap); [|done|by eauto].
  unfold isTrunk. pose proof (ex_score _ _ _ Hx). by rewrite (proj2 (Z.ltb_ge _ _)), (proj2 (Z.ltb_lt _ _)) by lia.
Qed.

Lemma appended_trunk_ok c b qc receipts M c' :
  trunk_ok c -> on_best c b ->
  save_metas (kv c) (Block.ID b) 0 (Block.Txs b) receipts (Store.txMeta (kv c)) = Ret M ->
  appended c b qc M c' -> trunk_ok c'.
Proof.
  intros Hc Hx HM [Hb _ HR HH HT HS]. pose proof (on_best_number _ _ Hx) as Hn.
  destruct (stored_metas c b receipts M (kv c') Hc (ob_new _ _ Hx) HM HT HR) as [Hsound Hcomp].
  assert (forall b', on_trunk c b' -> Block.Number b' <= Block.Number (bestBlock c) -> on_trunk c' b') as Hkeep.
  { intros b' [Hh Hr] Hle. split; [rewrite HH|rewrite HR]; (rewrite lookup_insert_ne; [done|]); [lia|].
    intros E. rewrite E in *. pose proof (ob_new _ _ Hx). congruence. }
  split; [| | | | |done|done].
  - intros id b' Hb'. rewrite HR in Hb'. apply lookup_insert_Some in Hb' as [[<- <-]|[_ Hb']].
    + split; [done|]. pose proof (ob_number _ _ Hx). lia.
    + by apply (to_store c Hc).
  - rewrite Hb. split; [by rewrite HH, lookup_insert_eq|by rewrite HR, lookup_insert_eq].
  - by rewrite Hb, HS.
  - rewrite Hb, Hn. intros n Hle. destruct (decide (n = Block.Number b)) as [->|Hne].
    + exists b. split_and!; [split; [by rewrite HH, lookup_insert_eq|by rewrite HR, lookup_insert_eq]|done|].
      intros _. rewrite HH, lookup_insert_ne by lia. rewrite (ob_parent _ _ Hx).
      replace (Block.Number b - 1) with (Block.Number (bestBlock c)) by lia. apply (to_best c Hc).
    + destruct (to_index c Hc n) as (b' & Ht & Hn' & Hp); [lia|]. exists b'.
      split_and!; [apply Hkeep; [done|lia]|done|]. intros Hpos. rewrite HH, lookup_insert_ne by lia. by apply Hp.
  - intros n Hlt. rewrite Hb in Hlt. rewrite HH, lookup_insert_ne by lia. apply (to_above c Hc). lia.
Qed.

(** The blocks of the lower numbers stay as they were. *)
Lemma appended_prefix c b qc M c' n :
  trunk_ok c -> on_best c b -> appended c b qc M c' ->
  0 <= n <= Block.Number (bestBlock c) -> GetTrunkBlock c' n = GetTrunkBlock c n.
Proof.
  intros Hc Hx [_ _ HR HH _ _] Hn. destruct (to_index c Hc n Hn) as (d & [Hh Hr] & Hd & _). rewrite Hd in Hh.
  pose proof (on_best_number _ _ Hx). unfold GetTrunkBlock.
  rewrite (ancestor_trunk c _ _ Hh), (ancestor_trunk c' n (Block.ID d)) by (rewrite HH, lookup_insert_ne by lia; done).
  unfold getBlock. rewrite HR, lookup_insert_ne, Hr; [done|].
  intros E. pose proof (ob_new _ _ Hx). congruence.
Qed.

(** What comes before the comparison of the scores, for a new block whose parent
    is stored. *)
Lemma AddBlock_metas c b qc receipts parent x :
  Store.blockRaw (kv c) !! Block.ID b = None -> Store.blockRaw (kv c) !! Block.ParentID b = Some parent ->
  AddBlock b qc receipts c = Ret x ->
  exists M, save_metas (kv c) (Block.ID b) 0 (Block.Txs b) receipts (Store.txMeta (kv c)) = Ret M.
Proof.
  intros Hnew Hpar Ha. unfold AddBlock in Ha. rewrite known_block_new in Ha by done.
  unfold getBlockHeader at 1, getBlock in Ha. rewrite Hpar in Ha. simpl in Ha.
  apply bind_ret_inv in Ha as (M & HM & _). rewrite (save_metas_same (kv c)) in HM by done. by exists M.
Qed.

(** A block that is not preferred. *)
Lemma AddBlock_branch c b qc receipts parent M :
  Store.blockRaw (kv c) !! Block.ID b = None -> Store.blockRaw (kv c) !! Block.ParentID b = Some parent ->
  isTrunk c (Block.BlockHeader b) = false ->
  save_metas (kv c) (Block.ID b) 0 (Block.Txs b) receipts (Store.txMeta (kv c)) = Ret M ->
  exists c', AddBlock b qc receipts c = Ret (c', inr (Fork.mk (Block.BlockHeader parent) [] [Block.BlockHeader b])) /\
    bestBlock c' = bestBlock c /\
    Store.blockRaw (kv c') = <[Block.ID b := b]> (Store.blockRaw (kv c)) /\
    Store.blockHash (kv c') = <[Block.Number b := Block.ID b]> (Store.blockHash (kv c)) /\
    Store.txMeta (kv c') = M.
Proof.
  intros Hnew Hpar Htr HM. unfold AddBlock. rewrite known_block_new by done.
  assert (getBlockHeader c (Block.ParentID b) = inr (Block.BlockHeader parent)) as ->
    by (unfold getBlockHeader, getBlock; by rewrite Hpar).
  set (c1 := c <| kv ::= _ |>). change (Store.txMeta (kv c1)) with (Store.txMeta (kv c)).
  rewrite (save_metas_same (kv c) (kv c1)) by done. rewrite HM. cbn [mbind outcome_bind].
  change (isTrunk c1 (Block.BlockHeader b)) with (isTrunk c (Block.BlockHeader b)). rewrite Htr.
  by eexists.
Qed.

(** C10: a chain that grows at its best block keeps its index, and finds exactly
    the transactions of its trunk.  A block on top of the best one, with a higher
    score, is added without a branch; it becomes the best block; the blocks of
    the lower numbers stay as they were; and after it the place that is found for
    a transaction is in a block of the trunk that has it, and none is found only
    when no block of the trunk has it, so none can be replayed. *)
Theorem trunk_extension c b qc receipts :
  trunk_ok c -> extends c b receipts ->
  exists c', AddBlock b (Some qc) receipts c
      = Ret (c', inr (Fork.mk (Block.BlockHeader (bestBlock c)) [Block.BlockHeader b] [])) /\
    trunk_ok c' /\ bestBlock c' = b /\ bestQC c' = qc /\
    GetTrunkBlock c' (Block.Number b) = inr b /\
    (forall n, 0 <= n <= Block.Number (bestBlock c) -> GetTrunkBlock c' n = GetTrunkBlock c n) /\
    (forall txID, match GetTrunkTransactionMeta c' txID with
     | inr m => exists d, on_trunk c' d /\ Block.ID d = TxMeta.BlockID m /\ contains d (TxMeta.Index m) txID
     | inl err => IsNotFound err = true /\
         forall d i, on_trunk c' d -> Block.Number d <= Block.Number b -> ~ contains d i txID
     end).
Proof.
  intros Hc Hx. destruct (AddBlock_extends c b qc receipts Hc Hx) as (c' & M & Ha & HM & Hap).
  pose proof (appended_trunk_ok c b qc receipts M c' Hc (ex_on _ _ _ Hx) HM Hap) as Hc'. exists c'.
  pose proof (ap_best _ _ _ _ _ Hap) as Hb.
  split_and!; [done..|by apply (ap_qc _ _ _ _ _ Hap)| | |].
  - unfold GetTrunkBlock. rewrite (ancestor_trunk c' _ (Block.ID b))
      by (by rewrite (ap_hash _ _ _ _ _ Hap), lookup_insert_eq).
    unfold getBlock. by rewrite (ap_raw _ _ _ _ _ Hap), lookup_insert_eq.
  - intros n Hn. by apply (appended_prefix c b qc M); [|apply (ex_on _ _ _ Hx)|..].
  - intros txID. pose proof (trunk_meta c' txID Hc') as Hm. by rewrite Hb in Hm.
Qed.

(** C33: a block beside the trunk takes the place of the trunk's block in the
    index.  A block with a lower score at a number that the trunk has is added
    without becoming the best block; but the index is written before the scores
    are compared, so that the chain answers with that block for the number, and
    a transaction that only the trunk's block of the number has is no longer
    found: it counts as new. *)
Theorem branch_block_hides_trunk c b d qc receipts parent i txID :
  trunk_ok c -> on_trunk c d -> Block.Number d = Block.Number b -> Block.ID d <> Block.ID b ->
  Block.Number b <= Block.Number (bestBlock c) ->
  Store.blockRaw (kv c) !! Block.ID b = None -> receipted b receipts ->
  Store.blockRaw (kv c) !! Block.ParentID b = Some parent ->
  isTrunk c (Block.BlockHeader b) = false ->
  contains d i txID -> (forall j, 0 <= j -> ~ contains b j txID) ->
  (forall e j, Store.blockRaw (kv c) !! Block.ID e = Some e -> contains e j txID -> e = d) ->
  exists c', AddBlock b qc receipts c = Ret (c', inr (Fork.mk (Block.BlockHeader parent) [] [Block.BlockHeader b])) /\
    bestBlock c' = bestBlock c /\ GetTrunkBlock c' (Block.Number b) = inr b /\
    (exists m, GetTrunkTransactionMeta c txID = inr m) /\ GetTrunkTransactionMeta c' txID = inl ErrNotFound.
Proof.
  intros Hc Hd Hnum Hne Hle Hnew [Hlen Hids] Hpar Htr Hin Hnot Honly.
  destruct (save_metas_total (kv c) (Block.ID b) 0 (Block.Txs b) receipts (Store.txMeta (kv c))) as [M HM];
    [done|done|done|].
  assert (exists m, GetTrunkTransactionMeta c txID = inr m) as Hfound.
  { pose proof (trunk_meta c txID Hc) as Hm. destruct (GetTrunkTransactionMeta c txID) as [err|m]; [|by eauto].
    destruct Hm as [_ Hm]. destruct (Hm d i Hd ltac:(lia) Hin). }
  destruct (AddBlock_branch c b qc receipts parent M Hnew Hpar Htr HM) as (c' & Ha & Hb & HR & HH & HT).
  exists c'. split_and!; [done|done| |done|].
  - unfold GetTrunkBlock. rewrite (ancestor_trunk _ _ (Block.ID b)) by (by rewrite HH, lookup_insert_eq).
    unfold getBlock. by rewrite HR, lookup_insert_eq.
  - destruct (to_complete c Hc d i txID (proj2 Hd) Hin) as (metas & m & E & _).
    assert (M !! txID = Some metas) as HMt.
    { destruct (save_metas_spec _ _ _ _ _ _ _ txID HM) as [[-> _]|(j & tx & rev & Hj & Hid & _)]; [done|].
      destruct (Hnot (Z.of_nat j) ltac:(lia)). exists tx. by rewrite Nat2Z.id. }
    unfold GetTrunkTransactionMeta, getTransactionMeta. rewrite HT, HMt.
    assert (forall ms n, (forall m, m ∈ ms -> m ∈ metas) -> find_meta c' n ms = inl ErrNotFound) as Hf; [|by apply Hf].
    induction ms as [|m' ms IH]; intros n Hms; [done|]. cbn [find_meta].
    rewrite IH by (intros m0 Hm0; apply Hms; by right). destruct (n <? _); [done|].
    destruct (to_sound c Hc _ _ _ E (Hms m' ltac:(by left))) as (e & He & Hine).
    destruct (to_store c Hc _ _ He) as [Hide _]. rewrite <- Hide in He.
    rewrite (Honly e _ He Hine) in Hide. rewrite <- Hide, Block_Number_ID, Hnum.
    rewrite (ancestor_trunk c' _ (Block.ID b)) by (by rewrite HH, lookup_insert_eq).
    destruct (Z.eqb_spec (Block.ID b) (Block.ID d)); [congruence|done].
Qed.

(** ** Opening, and what has no effect *)

(** A new store with a genesis block. *)
Definition opened (genesis : Block.t) : t :=
  mk (Store.empty <| Store.blockHash := {[0 := Block.ID genesis]} |>
                  <| Store.blockRaw := {[Block.ID genesis := genesis]} |>
                  <| Store.bestBlockID := Some (Block.ID genesis) |>
                  <| Store.bestBeforeFlattern := Some (Block.ID genesis) |>)
     genesis genesis (GenesisEscortQC genesis) GenesisNonce genesis.

Lemma New_empty genesis :
  Block.Number genesis = 0 -> Block.Txs genesis = [] ->
  New Store.empty genesis = Ret (kv (opened genesis), inr (opened genesis)).
Proof. intros Hn Ht. unfold New. rewrite Hn, Ht. simpl. by rewrite Hn. Qed.

Lemma opened_raw genesis id b :
  Store.blockRaw (kv (opened genesis)) !! id = Some b -> Block.ID genesis = id /\ genesis = b.
Proof. apply lookup_singleton_Some. Qed.

Lemma opened_trunk_ok genesis :
  Block.Number genesis = 0 -> Block.Txs genesis = [] -> trunk_ok (opened genesis).
Proof.
  intros Hn Ht. assert (on_trunk (opened genesis) genesis) as Hg.
  { split; [rewrite Hn|]; apply lookup_singleton_eq. }
  split; [|done|done| | | |].
  - intros id b Hb. apply opened_raw in Hb as [<- <-]. by rewrite Hn.
  - intros n Hle. change (bestBlock (opened genesis)) with genesis in Hle.
    replace n with 0 in * by lia. exists genesis. split_and!; [done|done|lia].
  - intros n Hlt. change (bestBlock (opened genesis)) with genesis in Hlt. apply lookup_singleton_ne. lia.
  - intros txID metas m E. done.
  - intros b i txID Hb (tx & Hi & _). apply opened_raw in Hb as [_ <-]. by rewrite Ht in Hi.
Qed.

(** Saving a block never makes one of its transactions known to
    [hasTransactionMeta]: the key it looks up is never written. *)
Lemma hasTransactionMeta_saved c b qc receipts c' r txID :
  AddBlock b qc receipts c = Ret (c', r) -> hasTransactionMeta c' txID = hasTransactionMeta c txID.
Proof.
  unfold AddBlock. destruct (known_block c b); [by intros [= <- _]|].
  destruct (getBlockHeader c _) as [|parent]; [by intros [= <- _]|].
  destruct (save_metas _ _ _ _ _ _) as [M|]; [|done]. cbn [mbind outcome_bind].
  destruct (isTrunk _ _); [|by intros [= <- _]]. destruct (buildFork _ _ _) as [[err|f]|]; [by intros [= <- _]| |done].
  simpl. destruct qc; [|by intros [= <- _]]. destruct (Block.IsKBlock b); by intros [= <- _].
Qed.

(** [RemoveBlock] removes nothing: it returns early when the block is there, and
    with the error when it is not. *)
Lemma RemoveBlock_nothing c id : (RemoveBlock id c).1 = c.
Proof.
  unfold RemoveBlock. destruct (getBlockHeader c id) as [err|h] eqn:E; [|done].
  by rewrite (getBlockHeader_err _ _ _ E).
Qed.
End Trunk.

(** ** A concrete chain *)

Module SampleChain.
#[export] Existing Instance SampleTx.chain.
#[export] Existing Instance SampleTx.crypto.
#[export] Existing Instance SampleTx.eth.
#[export] Existing Instance SampleQC.block_crypto.
Definition header (parent : Bytes32) (time score : Z) : Header.t :=
  Header.zero <| Header.ParentID := parent |> <| Header.Timestamp := time |> <| Header.TotalScore := score |>
              <| Header.BlockType := MBlockType |> <| Header.Signature := "1" |>.
Definition block (parent : Bytes32) (time score : Z) (txs : list Transaction.t) : Block.t :=
  Block.mk (header parent time score) txs (Some QuorumCert.GenesisQC) 0 0 BlockMagicVersion1.
Definition tx : Transaction.t := Transaction.mk 1 0 100 [] 0 21000 None 7 [] "sig".
Definition receipt : Receipt.t := Receipt.mk 21000 3 0 0 false [].
Definition genesis : Block.t := block (2 ^ 256 - 1) 0 0 [].
Definition one : Block.t := block (Block.ID genesis) 10 1 [tx].
(** Another block on the genesis block. *)
Definition other : Block.t := block (Block.ID genesis) 11 0 [].
Definition qc : QuorumCert.t := QuorumCert.mk 1 0 0 "" 0 "".
Definition grown : t :=
  match AddBlock one (Some qc) [receipt] (opened genesis) with Ret (c, _) => c | Panic => opened genesis end.

Lemma one_extends : extends (opened genesis) one [receipt].
Proof. split; [by split|done|]. split; [done|]. repeat constructor. by eexists. Qed.
Lemma grown_ok : trunk_ok grown.
Proof.
  destruct (AddBlock_extends (opened genesis) one qc [receipt]) as (c' & M & E & HM & Hap);
    [by apply opened_trunk_ok|apply one_extends|]. unfold grown. rewrite E.
  by eapply (appended_trunk_ok (opened genesis)); [apply opened_trunk_ok|apply one_extends|..].
Qed.
End SampleChain.
Import SampleChain.

Lemma buildFork_exact_witness :
  linked (Block.BlockHeader genesis) [Block.BlockHeader one] /\
  match buildFork grown (Block.BlockHeader other) (Block.BlockHeader one) with
  | Some (inr f) => linked (Fork.Ancestor f) (Fork.Trunk f)
  | _ => False
  end.
Proof.
  split; [done|].
  pose proof (buildFork_exact grown (Block.BlockHeader other) (Block.BlockHeader one) (to_store _ grown_ok)) as Hf.
  destruct (buildFork grown (Block.BlockHeader other) (Block.BlockHeader one)) as [[err|f]|] eqn:E; [|tauto|done].
  vm_compute in E. discriminate.
Defined.

Lemma trunk_extension_witness :
  exists c, AddBlock one (Some qc) [receipt] (opened genesis)
      = Ret (c, inr (Fork.mk (Block.BlockHeader genesis) [Block.BlockHeader one] [])) /\
    GetTrunkBlock c (Block.Number one) = inr one.
Proof.
  destruct (trunk_extension (opened genesis) one qc [receipt]) as (c & Ha & _ & _ & _ & Hg & _);
    [by apply opened_trunk_ok|apply one_extends|].
  exists c. split; [exact Ha|exact Hg].
Defined.

Lemma branch_block_hides_trunk_witness :
  exists c, AddBlock other (Some qc) [] grown
      = Ret (c, inr (Fork.mk (Block.BlockHeader genesis) [] [Block.BlockHeader other])) /\
    GetTrunkBlock c (Block.Number other) = inr other /\
    exists txID, Transaction.ID tx = Ret txID /\
      (exists m, GetTrunkTransactionMeta grown txID = inr m) /\ GetTrunkTransactionMeta c txID = inl ErrNotFound.
Proof.
  destruct (branch_block_hides_trunk grown other one (Some qc) [] genesis 0 8003) as (c & Ha & _ & Hg & Hf & Hn);
    [exact grown_ok|..].
  - split; vm_compute; reflexivity.
  - reflexivity.
  - vm_compute. discriminate.
  - vm_compute. discriminate.
  - vm_compute. reflexivity.
  - split; [done|constructor].
  - vm_compute. reflexivity.
  - vm_compute. reflexivity.
  - exists tx. split; reflexivity.
  - intros j _ (t & Ht & _). change (Block.Txs other) with (@nil Transaction.t) in Ht.
    rewrite lookup_nil in Ht. discriminate Ht.
  - intros e j He (t & Ht & _).
    assert (Store.blockRaw (kv grown) = <[Block.ID one := one]> {[Block.ID genesis := genesis]}) as Hr.
    { vm_compute. reflexivity. }
    rewrite Hr in He. apply lookup_insert_Some in He as [[_ <-]|[_ He]]; [reflexivity|].
    apply lookup_singleton_Some in He as [_ <-].
    exfalso. change (Block.Txs genesis) with (@nil Transaction.t) in Ht. rewrite lookup_nil in Ht. discriminate Ht.
  - exists c. split; [exact Ha|]. split; [exact Hg|]. exists 8003. split; [reflexivity|]. split; [exact Hf|exact Hn].
Defined.
