(* ===== verification/CommitteeTheorems.v ===== *)
(** * Theorems on the committee

    The tree along which the members pass on a proposal. *)

From S2P Require Import Prelude Committee.
From stdpp Require Import relations.
Open Scope Z_scope.

(** The members within a number of hops in a tree of eight. *)
Fixpoint relayed (hops : nat) : Z :=
  match hops with O => 1 | S n => 8 * relayed n + 1 end.

Section Relay.
Variable size : Z.

(** Positions, counted from the proposer of the round. *)
Definition passes (i k : Z) : Prop := k ∈ CalcRelayPeers i size.

Lemma passes_child (j : Z) : 8 < size -> 1 <= j < size -> passes ((j - 1) / 8) j.
Proof.
  intros Hs Hj. unfold passes, CalcRelayPeers, ceil_div.
  assert (0 <= (j - 1) / 8 <= size / 8) by (split; [apply Z.div_pos; lia|apply Z.div_le_mono; lia]).
  assert (size / 8 <= (size + 8 - 1) / 8) by (apply Z.div_le_mono; lia).
  assert (1 <= size / 8) by (apply Z.div_le_lower_bound; lia).
  assert ((j - 1) / 8 <= j - 1) by (apply Z.div_le_upper_bound; lia).
  rewrite (proj2 (Z.ltb_ge _ _)), (proj2 (Z.leb_gt _ _)), (proj2 (Z.ltb_lt _ _)) by lia.
  apply list_elem_of_fmap. exists ((j - 1) mod 8 + 1). pose proof (Z.div_mod (j - 1) 8).
  pose proof (Z.mod_pos_bound (j - 1) 8). split; [rewrite Z.mod_small; lia|]. apply elem_of_seqZ. lia.
Qed.
Lemma passes_all (i j : Z) : size <= 8 -> 0 <= i < size -> 0 <= j < size -> passes i j.
Proof.
  intros Hs Hi Hj. unfold passes, CalcRelayPeers. rewrite (proj2 (Z.ltb_ge _ _)), (proj2 (Z.leb_le _ _)) by lia.
  apply list_elem_of_fmap. destruct (Z.lt_ge_cases i j) as [Hlt|Hge].
  - exists (j - i). split; [rewrite Z.mod_small; lia|]. apply elem_of_seqZ. lia.
  - exists (j - i + size). split; [|apply elem_of_seqZ; lia].
    replace (i + (j - i + size)) with (j + 1 * size) by lia. rewrite Z.mod_add, Z.mod_small; lia.
Qed.

Lemma positions_reached hops j : 0 <= j < size -> j < relayed hops -> bsteps passes hops 0 j.
Proof.
  revert j. induction hops as [|n IH]; intros j Hj Hr; simpl in Hr.
  { replace j with 0 by lia. constructor. }
  destruct (decide (j = 0)) as [->|Hne]; [constructor|].
  destruct (Z.le_gt_cases size 8) as [Hs|Hs].
  { eapply bsteps_l; [apply (passes_all 0 j); lia|constructor]. }
  assert (0 <= (j - 1) / 8) by (apply Z.div_pos; lia).
  assert ((j - 1) / 8 < relayed n) by (apply Z.div_lt_upper_bound; lia).
  assert ((j - 1) / 8 <= j - 1) by (apply Z.div_le_upper_bound; lia).
  eapply bsteps_r; [apply (IH ((j - 1) / 8)); lia|]. apply passes_child; lia.
Qed.

Lemma passes_range i k : 0 < size -> passes i k -> 0 <= k < size.
Proof.
  intros Hs. unfold passes, CalcRelayPeers. destruct (_ <? _); [intros []%not_elem_of_nil|].
  destruct (_ <=? _); [|destruct (_ <? _); [|destruct (_ <? _)]];
    intros (x & -> & _)%list_elem_of_fmap; apply Z.mod_pos_bound; lia.
Qed.
Variable round : Z.
Let rr := u32 round mod size.
Definition member_at (i : Z) : Z := (i + rr) mod size.

(** A step between positions is one between members. *)
Lemma passes_member i k : 0 <= i < size -> passes i k -> member_at k ∈ relay_indexes (member_at i) size round.
Proof.
  intros Hi Hk. pose proof (Z.mod_pos_bound (u32 round) size). fold rr in H.
  unfold relay_indexes. rewrite (proj2 (Z.eqb_neq _ _)) by lia. fold rr. cbn zeta.
  assert ((if rr <=? member_at i then member_at i - rr else member_at i + size - rr) = i) as ->.
  { unfold member_at. destruct (Z.lt_ge_cases (i + rr) size).
    - rewrite Z.mod_small by lia. rewrite (proj2 (Z.leb_le _ _)); lia.
    - replace (i + rr) with (i + rr - size + 1 * size) by lia. rewrite Z.mod_add, Z.mod_small by lia.
      rewrite (proj2 (Z.leb_gt _ _)); lia. }
  apply list_elem_of_fmap. exists k. split; [|exact Hk]. unfold member_at.
  destruct (Z.leb_spec size (k + rr)); [done|]. apply Z.mod_small. split; [|done].
  pose proof (passes_range i k ltac:(lia) Hk). lia.
Qed.
Lemma members_reached hops i j : 0 <= i < size -> bsteps passes hops i j ->
  bsteps (fun a b => b ∈ relay_indexes a size round) hops (member_at i) (member_at j).
Proof.
  intros Hi Hb. revert Hi. induction Hb as [n x|n x y z Hxy _ IH]; intros Hi; [constructor|].
  eapply bsteps_l; [by apply passes_member|]. apply IH. eapply passes_range; [lia|done].
Qed.
End Relay.

(** C18: a proposal reaches the whole committee.  If each member passes it on to
    the members that [GetRelayPeers] has for it, it gets from the proposer of the
    round to each member, within one hop in a committee of up to nine, two in one
    of up to 73, and three in one of up to 585. *)
Theorem relay_reaches_committee (size round : Z) (hops : nat) (j : Z)
    (Hj : 0 <= j < size) (Hsize : size <= relayed hops) :
  bsteps (fun a b => b ∈ relay_indexes a size round) hops (u32 round mod size) j.
Proof.
  set (rr := u32 round mod size). assert (0 <= rr < size) as Hrr by (apply Z.mod_pos_bound; lia).
  assert (member_at size round 0 = rr) as E0 by (apply Z.mod_mod; lia).
  assert (member_at size round ((j - rr) mod size) = j) as Ej.
  { unfold member_at. fold rr. rewrite Z.add_mod_idemp_l by lia. rewrite Z.mod_small; lia. }
  assert (0 <= (j - rr) mod size < size) as Hpos by (apply Z.mod_pos_bound; lia).
  pose proof (members_reached size round hops 0 ((j - rr) mod size)) as Hm. rewrite E0, Ej in Hm.
  clearbody rr. apply Hm; [lia|]. apply positions_reached; lia.
Qed.

Lemma relay_reaches_committee_witness :
  bsteps (fun a b => b ∈ relay_indexes a 300 1234) 3 (u32 1234 mod 300) 299.
Proof. apply (relay_reaches_committee 300 1234 3 299); [lia|]. vm_compute. discriminate. Defined.
