(* ===== verification/PacemakerTheorems.v ===== *)
(** * Theorems on the pacemaker

    What one member keeps by itself, whatever messages it receives: the blocks it
    has finalized stay, its highest certificate and the height of its votes do not
    go down between two restarts.  And a way in which it fails: a certificate in a
    timeout message that is not verified. *)

From S2P Require Import Prelude Text KeyedList ChainParam BitArray StakingTypes Transaction Block Votes State StakingUtils Runtime Chain ChainTheorems Committee Drafts Pacemaker.
From stdpp Require Import gmap.
Open Scope Z_scope.

(** ** Finalized blocks *)

Section Linear.
Context `{BlockChain} `{TxCrypto} `{EthTypes} `{BlockCrypto}.
Implicit Types (c : Chain.t).

(** A chain all of whose blocks are on the trunk. *)
Definition linear c : Prop :=
  trunk_ok c /\ forall id b, Store.blockRaw (Chain.kv c) !! id = Some b ->
    Block.Number b <= Block.Number (Chain.bestBlock c) /\
    Store.blockHash (Chain.kv c) !! Block.Number b = Some id.

(** The blocks up to the best one stay. *)
Definition final_ext c c' : Prop :=
  Block.Number (Chain.bestBlock c) <= Block.Number (Chain.bestBlock c') /\
  forall n, 0 <= n <= Block.Number (Chain.bestBlock c) -> Chain.GetTrunkBlock c' n = Chain.GetTrunkBlock c n.

Lemma final_ext_refl c : final_ext c c.
Proof. by split. Qed.
Lemma final_ext_trans c1 c2 c3 : final_ext c1 c2 -> final_ext c2 c3 -> final_ext c1 c3.
Proof.
  intros [Hn1 H1'] [Hn2 H2']. split; [lia|]. intros n Hn. rewrite H2' by lia. by apply H1'.
Qed.

Lemma opened_linear genesis :
  Block.Number genesis = 0 -> Block.Txs genesis = [] -> linear (opened genesis).
Proof.
  intros Hn Ht. split; [by apply opened_trunk_ok|]. intros id b Hb. apply opened_raw in Hb as [<- <-].
  split; [done|]. rewrite Hn. apply lookup_singleton_eq.
Qed.

(** In a linear chain only the best block can be the parent of a higher one. *)
Lemma linear_parent c b parent :
  linear c -> Block.Number (Chain.bestBlock c) < Block.Number b ->
  Store.blockRaw (Chain.kv c) !! Block.ParentID b = Some parent -> parent = Chain.bestBlock c.
Proof.
  intros [Hc Hl] Hlt Hp. destruct (Hl _ _ Hp) as [Hle Hh]. destruct (to_store c Hc _ _ Hp) as [Hid Hb].
  assert (Block.Number b = Block.Number parent + 1) as Hn.
  { unfold Block.Number at 1, Header.Number. fold (Block.ParentID b). rewrite <- Hid, Block_Number_ID.
    pose proof (Header_Number_range (Block.BlockHeader parent)). unfold Block.Number in *. apply Z.mod_small. lia. }
  destruct (to_best c Hc) as [Hbh Hbr].
  replace (Block.Number parent) with (Block.Number (Chain.bestBlock c)) in Hh by lia. congruence.
Qed.

Lemma appended_linear c b qc receipts M c' :
  linear c -> on_best c b ->
  Chain.save_metas (Chain.kv c) (Block.ID b) 0 (Block.Txs b) receipts (Store.txMeta (Chain.kv c)) = Ret M ->
  appended c b qc M c' -> linear c'.
Proof.
  intros [Hc Hl] Hx HM Hap. split; [by eapply appended_trunk_ok|]. intros id d Hd.
  pose proof (on_best_number _ _ Hx). destruct Hap as [Hb _ HR HH _ _]. rewrite HR in Hd. rewrite Hb, HH.
  apply lookup_insert_Some in Hd as [[<- <-]|[_ Hd]]; [split; [lia|apply lookup_insert_eq]|].
  destruct (Hl _ _ Hd) as [Hle Hh]. split; [lia|]. by rewrite lookup_insert_ne by lia.
Qed.

(** A block above the best one is added to a linear chain without a branch, or
    the chain stays as it is, or the fork has a branch. *)
Lemma AddBlock_linear c b qc receipts c' r :
  linear c -> Block.Number (Chain.bestBlock c) < Block.Number b -> Block.Number b < 2 ^ 32 - 1 ->
  Chain.AddBlock b (Some qc) receipts c = Ret (c', r) ->
  (linear c' /\ final_ext c c') \/ exists f, r = inr f /\ Fork.Branch f <> [].
Proof.
  intros Hlin Hlt Hbound Ha. destruct (Hlin) as [Hc Hl].
  assert (Store.blockRaw (Chain.kv c) !! Block.ID b = None) as Hnew.
  { destruct (Store.blockRaw (Chain.kv c) !! Block.ID b) as [d|] eqn:E; [|done].
    destruct (Hl _ _ E). destruct (to_store c Hc _ _ E) as [Hid _].
    assert (Block.Number d = Block.Number b) by (by rewrite <- !Block_Number_ID, Hid). lia. }
  destruct (Store.blockRaw (Chain.kv c) !! Block.ParentID b) as [parent|] eqn:Ep.
  2: { unfold Chain.AddBlock in Ha. rewrite known_block_new in Ha by done.
       unfold Chain.getBlockHeader, Chain.getBlock in Ha. rewrite Ep in Ha. simpl in Ha.
       injection Ha as <- _. left. split; [done|apply final_ext_refl]. }
  pose proof (linear_parent c b parent Hlin Hlt Ep) as ->.
  destruct (to_store c Hc _ _ Ep) as [Hpid _].
  assert (on_best c b) as Hx.
  { split; [done|done|]. pose proof (Header_Number_range (Block.BlockHeader (Chain.bestBlock c))). lia. }
  pose proof (on_best_number _ _ Hx) as Hn.
  destruct (AddBlock_metas c b (Some qc) receipts _ _ Hnew Ep Ha) as [M HM].
  destruct (Chain.isTrunk c (Block.BlockHeader b)) eqn:Et.
  - destruct (AddBlock_on_best c b qc receipts M Hc Hx Et HM) as (c1 & Ha' & Hap).
    rewrite Ha in Ha'. injection Ha' as <- _. left. split; [by eapply appended_linear|].
    split; [rewrite (ap_best _ _ _ _ _ Hap); lia|]. intros n Hr. by eapply appended_prefix.
  - right. destruct (AddBlock_branch c b (Some qc) receipts _ M Hnew Ep Et HM) as (c1 & Ha' & _).
    rewrite Ha in Ha'. injection Ha' as _ ->. by eexists.
Qed.
End Linear.

(** ** The drafts *)

Section Drafts.
Context `{BlockChain} `{TxCrypto} `{EthTypes} `{BlockCrypto} `{DraftOrder}.
Implicit Types (s : Space.t) (d : Draft.t) (h : heap).
Import Space.

(** What is never written in a draft that exists. *)
Definition shape d d' : Prop :=
  Draft.Height d' = Draft.Height d /\ Draft.Round d' = Draft.Round d /\
  Draft.Parent d' = Draft.Parent d /\ Draft.ProposedBlock d' = Draft.ProposedBlock d.
Definition heap_ext h h' : Prop :=
  forall r d, h !! r = Some d -> exists d', h' !! r = Some d' /\ shape d d'.

Lemma heap_ext_refl h : heap_ext h h.
Proof. intros r d Hr. by exists d. Qed.
Lemma heap_ext_trans h1 h2 h3 : heap_ext h1 h2 -> heap_ext h2 h3 -> heap_ext h1 h3.
Proof.
  intros H12 H23 r d Hr. destruct (H12 r d Hr) as (d2 & Hr2 & Hs2). destruct (H23 r d2 Hr2) as (d3 & Hr3 & Hs3).
  exists d3. split; [done|]. unfold shape in *. intuition congruence.
Qed.
Lemma heap_ext_alloc h d : heap_ext h (h ++ [d]).
Proof. intros r d' Hr. exists d'. split; [by apply lookup_app_l_Some|done]. Qed.
Lemma heap_ext_alter h r f : (forall d, shape d (f d)) -> heap_ext h (alter f r h).
Proof.
  intros Hf r' d Hr. destruct (decide (r = r')) as [<-|Hne].
  - exists (f d). split; [|done]. etrans; [apply list_lookup_alter_eq|]. by rewrite Hr.
  - exists d. split; [|done]. etrans; [by apply list_lookup_alter_ne|done].
Qed.

(** A draft has the height of its block, and one with a parent a certificate. *)
Definition draft_ok d : Prop :=
  Draft.Height d = Block.Number (Draft.ProposedBlock d) /\
  Block.Number (Draft.ProposedBlock d) < 2 ^ 32 - 1 /\
  (Draft.Parent d <> None -> Block.QC (Draft.ProposedBlock d) <> None).

Record space_ok s : Prop := {
  so_chain : linear (chain s);
  so_cell : forall r d, cells s !! r = Some d -> draft_ok d;
  so_map : forall id r, proposals s !! id = Some r ->
    exists d, cells s !! r = Some d /\ Block.ID (Draft.ProposedBlock d) = id;
  so_older : forall r d q, cells s !! r = Some d -> Draft.Parent d = Some q -> (q < r)%nat
}.

(** The operations on the drafts leave the chain. *)
Definition sp_rel s s' : Prop :=
  space_ok s -> space_ok s' /\ heap_ext (cells s) (cells s') /\ chain s' = chain s.

Lemma sp_refl s : sp_rel s s.
Proof. intros Hs. split_and!; [done|apply heap_ext_refl|done]. Qed.
Lemma sp_trans s1 s2 s3 : sp_rel s1 s2 -> sp_rel s2 s3 -> sp_rel s1 s3.
Proof.
  intros H12 H23 H1'. destruct (H12 H1') as (H2' & He & Hc). destruct (H23 H2') as (H3' & He' & Hc').
  split_and!; [done|by eapply heap_ext_trans|congruence].
Qed.

Lemma shape_ok d d' : shape d d' -> draft_ok d -> draft_ok d'.
Proof. unfold shape, draft_ok. intros (-> & _ & -> & ->). done. Qed.

Lemma new_cell_rel d s : draft_ok d -> (forall q, Draft.Parent d = Some q -> is_Some (cells s !! q)) ->
  sp_rel s (new_cell d s).1 /\ cells (new_cell d s).1 !! (new_cell d s).2 = Some d.
Proof.
  intros Hd Hq. unfold new_cell, alloc. simpl. split; [|by rewrite lookup_app_r, Nat.sub_diag].
  intros [Hc Hcell Hmap Hold]. split_and!; [|apply heap_ext_alloc|done]. split; [done| | |].
  - intros r d' Hr. simpl in Hr. apply lookup_app_Some in Hr as [Hr|[_ Hr]]; [by eapply Hcell|].
    apply list_lookup_singleton_Some in Hr as [_ <-]. done.
  - intros id r Hr. destruct (Hmap id r Hr) as (d' & Hr' & Hid). exists d'.
    split; [by apply lookup_app_l_Some|done].
  - intros r d' q Hr Hp. simpl in Hr. apply lookup_app_Some in Hr as [Hr|[Hlen Hr]]; [by eapply Hold|].
    apply list_lookup_singleton_Some in Hr as [_ <-]. destruct (Hq q Hp) as [x Hx%lookup_lt_Some]. lia.
Qed.

Lemma load_lookup h r d : load h r = Ret d -> h !! r = Some d.
Proof. unfold load. destruct (h !! r); [|done]. by intros [= ->]. Qed.
Lemma AddDraft_rel o s s' : AddDraft o s = Ret s' -> sp_rel s s'.
Proof.
  unfold AddDraft. intros Ha. inv_bind Ha. inv_bind Ha. injection Ha as <-.
  destruct o as [r'|]; [|done]. injection E as ->.
  apply load_lookup in E0.
  intros [Hc Hcell Hmap Hold]. split_and!; [|apply heap_ext_refl|done]. split; [done|done| |done].
  intros id r' Hr. simpl in Hr. apply lookup_insert_Some in Hr as [[<- <-]|[_ Hr]]; [by exists r0|by apply Hmap].
Qed.

(** A block of the store as a draft. *)
Lemma stored_ok s id b n :
  space_ok s -> Store.blockRaw (Chain.kv (chain s)) !! id = Some b ->
  draft_ok (Draft.stored (Block.Number b) n b) /\ Block.ID b = id.
Proof.
  intros Hs Hb. destruct (so_chain s Hs) as [Hc _]. destruct (to_store _ Hc _ _ Hb) as [Hid Hn].
  split; [|done]. by split_and!.
Qed.

Lemma GetDraft_rel id s s' o :
  GetDraft id s = Ret (s', o) -> sp_rel s s' /\
  (space_ok s -> forall r, o = Some r -> exists d, cells s' !! r = Some d /\ Block.ID (Draft.ProposedBlock d) = id).
Proof.
  unfold GetDraft. destruct (proposals s !! id) as [r|] eqn:Er.
  { intros [= <- <-]. split; [apply sp_refl|]. intros Hs r' [= <-]. by apply (so_map s Hs). }
  unfold Chain.getBlock. destruct (Store.blockRaw _ !! id) as [b|] eqn:Eb; [|intros [= <- <-]; split; [apply sp_refl|done]].
  cbn [lookup_or]. intros Hr. inv_bind Hr. destruct (new_cell _ s) as [s1 r1] eqn:En. injection Hr as <- <-. split.
  - intros Hs. destruct (stored_ok s id b (u32 (QuorumCert.QCRound r + 1)) Hs Eb) as [Hd _].
    pose proof (proj1 (new_cell_rel _ s Hd ltac:(done))) as Hn. rewrite En in Hn. by apply Hn.
  - intros Hs r' [= <-]. destruct (stored_ok s id b (u32 (QuorumCert.QCRound r + 1)) Hs Eb) as [Hd Hid].
    pose proof (proj2 (new_cell_rel _ s Hd ltac:(done))) as Hn. rewrite En in Hn. by eexists.
Qed.

Lemma find_match_spec h qc rs r :
  find_match h qc rs = Ret (Some r) ->
  exists d, h !! r = Some d /\ Draft.Height d = QuorumCert.QCHeight qc /\ Draft.Round d = QuorumCert.QCRound qc.
Proof.
  induction rs as [|[id r'] rs IH]; [done|]. cbn [find_match]. intros Hf. inv_bind Hf.
  destruct (_ && _ && _) eqn:E'; [|by apply IH]. injection Hf as <-.
  apply andb_true_iff in E' as [[E1%Z.eqb_eq E2%Z.eqb_eq]%andb_true_iff _].
  apply load_lookup in E. by exists r0.
Qed.

(** The draft of a certificate has its height and its round. *)
Lemma GetDraftByEscortQC_rel qc s s' o :
  GetDraftByEscortQC qc s = Ret (s', o) -> sp_rel s s' /\
  (space_ok s -> forall r, o = Some r -> exists d, cells s' !! r = Some d /\
    Draft.Height d = QuorumCert.QCHeight qc /\ Draft.Round d = QuorumCert.QCRound qc).
Proof.
  unfold GetDraftByEscortQC. intros Hg. inv_bind Hg. destruct r as [r|].
  { injection Hg as <- <-. split; [apply sp_refl|]. intros _ r' [= <-]. by eapply find_match_spec. }
  unfold Chain.GetTrunkBlock in Hg. destruct (Chain.ancestor _ _) as [err|id]; [injection Hg as <- <-; split; [apply sp_refl|done]|].
  unfold Chain.getBlock in Hg. destruct (Store.blockRaw _ !! id) as [b|] eqn:Eb; [|injection Hg as <- <-; split; [apply sp_refl|done]].
  cbn [lookup_or] in Hg. destruct (Z.eqb_spec (Block.Number b) (QuorumCert.QCHeight qc)) as [Hn|]; [|injection Hg as <- <-; split; [apply sp_refl|done]].
  rewrite <- Hn in Hg. destruct (new_cell _ s) as [s1 r1] eqn:En. injection Hg as <- <-. split.
  - intros Hs. destruct (stored_ok s id b (QuorumCert.QCRound qc) Hs Eb) as [Hd _].
    pose proof (proj1 (new_cell_rel _ s Hd ltac:(done))) as Hr. rewrite En in Hr. by apply Hr.
  - intros Hs r' [= <-]. destruct (stored_ok s id b (QuorumCert.QCRound qc) Hs Eb) as [Hd _].
    pose proof (proj2 (new_cell_rel _ s Hd ltac:(done))) as Hr. rewrite En in Hr. by eexists.
Qed.

(** Writing the results of a draft. *)
Lemma write_rel r f s : (forall d, shape d (f d)) -> sp_rel s (s <| cells ::= alter f r |>).
Proof.
  intros Hf [Hc Hcell Hmap Hold]. pose proof (heap_ext_alter (cells s) r f Hf) as Hext.
  assert (forall r' d, alter f r (cells s) !! r' = Some d -> exists d0, cells s !! r' = Some d0 /\ shape d0 d) as Hback.
  { intros r' d Hr. destruct (cells s !! r') as [d0|] eqn:E0.
    - destruct (Hext r' d0 E0) as (d1 & Hr1 & Hs). rewrite Hr in Hr1. injection Hr1 as <-. by exists d0.
    - apply lookup_lt_Some in Hr. rewrite length_alter in Hr. apply lookup_ge_None in E0. lia. }
  split_and!; [|done|done]. split; [done| | |].
  - intros r' d Hr. destruct (Hback r' d Hr) as (d0 & E0 & Hs). eapply shape_ok; [done|by eapply Hcell].
  - intros id r' Hr. destruct (Hmap id r' Hr) as (d & Hd & Hid). destruct (Hext r' d Hd) as (d' & Hd' & Hs).
    exists d'. split; [done|]. destruct Hs as (_ & _ & _ & ->). done.
  - intros r' d q Hr Hp. destruct (Hback r' d Hr) as (d0 & E0 & _ & _ & Hs & _). eapply Hold; [done|congruence].
Qed.

Lemma delete_rel id s : sp_rel s (s <| proposals ::= base.delete id |>).
Proof.
  intros [Hc Hcell Hmap Hold]. split_and!; [|apply heap_ext_refl|done]. split; [done|done| |done].
  intros id' r Hr. simpl in Hr. apply lookup_delete_Some in Hr as [_ Hr]. by apply Hmap.
Qed.

Lemma PruneDraftsUpTo_rel r s s' : PruneDraftsUpTo r s = Ret s' -> sp_rel s s'.
Proof.
  unfold PruneDraftsUpTo. intros Hp. inv_bind Hp. clear E. revert Hp.
  generalize (range_drafts (proposals s)). intros l. revert s. induction l as [|kr l IH]; intros s Hp.
  { injection Hp as <-. apply sp_refl. }
  cbn [mfold] in Hp. inv_bind Hp. eapply sp_trans; [|by apply IH]. clear IH Hp.
  unfold prune_one in E. inv_bind E. destruct (_ <? _); [injection E as <-; apply delete_rel|].
  destruct (_ =? _); [|injection E as <-; apply sp_refl].
  destruct (negb _); [destruct (Draft.CanReturn _); [injection E as <-; apply delete_rel|done]|].
  injection E as <-. apply write_rel. done.
Qed.

Lemma txs_in_cache_rel fuel tmp s acc s' known : txs_in_cache fuel tmp s acc = Ret (s', known) -> sp_rel s s'.
Proof.
  revert tmp s acc. induction fuel as [|fuel IH]; intros tmp s acc Ht; [injection Ht as <- <-; apply sp_refl|].
  cbn [txs_in_cache] in Ht. destruct tmp as [r|]; [|injection Ht as <- <-; apply sp_refl].
  inv_bind Ht. destruct (Draft.Committed r0); [injection Ht as <- <-; apply sp_refl|].
  inv_bind Ht. inv_bind Ht. destruct r2 as [s1 next].
  eapply sp_trans; [by eapply GetDraft_rel|by eapply IH].
Qed.

Lemma cached_tx_rel parent blk s s' b : cached_tx parent blk s = Ret (s', b) -> sp_rel s s'.
Proof.
  unfold cached_tx. destruct (Block.Txs blk) as [|tx txs]; [intros [= <- <-]; apply sp_refl|].
  intros Hc. inv_bind Hc. destruct r as [s1 known]. inv_bind Hc. injection Hc as <- <-.
  by eapply txs_in_cache_rel.
Qed.

Lemma GetDraftsUpTo_rel id qc s s' ds : GetDraftsUpTo id qc s = Ret (s', ds) -> sp_rel s s'.
Proof.
  unfold GetDraftsUpTo. intros Hg. inv_bind Hg. destruct r as [s1 o1]. inv_bind Hg. destruct r as [s2 o2].
  assert (sp_rel s s2) as Hr.
  { eapply sp_trans; [by eapply GetDraft_rel|by eapply GetDraftByEscortQC_rel]. }
  destruct o1 as [c|], o2 as [h|]; try (injection Hg as <- <-; done).
  inv_bind Hg. inv_bind Hg. by injection Hg as <- <-.
Qed.
End Drafts.

(** ** A member *)

Section Member.
Context `{StakingCodec} `{BlockChain} `{TxCrypto} `{EthTypes} `{BlockCrypto} `{BlsSystem} `{!NodeCrypto}
        `{TimeoutHash} `{DraftOrder} `{!PacemakerEnv}.
Variable NewState : Bytes32 -> string + State.t.
Variable range_votes : gmap Z vote -> list (Z * vote).
Implicit Types (p : PM.t) (d : Draft.t).

(** The builders of blocks set the certificate, and stop before the last number. *)
Definition builds_certified : Prop :=
  forall s r kind dp qc round ts blk receipts,
    build_block s r kind dp qc round ts = Ret (inr (blk, receipts)) ->
    Block.QC blk = Some qc /\ Block.Number blk < 2 ^ 32 - 1.
Hypothesis (Hbuild : builds_certified).

Definition high_ok p : Prop :=
  forall high r, PM.QCHigh p = Some high -> DraftQC.QCNode high = Some r ->
    exists d, Space.cells (PM.space p) !! r = Some d /\
      Draft.Height d = QuorumCert.QCHeight (DraftQC.QC high) /\ Draft.Round d = QuorumCert.QCRound (DraftQC.QC high).
Definition pm_ok p : Prop := space_ok (PM.space p) /\ high_ok p.

(** Certificates are compared by height, then by round. *)
Definition qc_le (q q' : QuorumCert.t) : Prop :=
  QuorumCert.QCHeight q < QuorumCert.QCHeight q' \/
  (QuorumCert.QCHeight q = QuorumCert.QCHeight q' /\ QuorumCert.QCRound q <= QuorumCert.QCRound q').
Definition high_le p p' : Prop :=
  forall high, PM.QCHigh p = Some high ->
    exists high', PM.QCHigh p' = Some high' /\ qc_le (DraftQC.QC high) (DraftQC.QC high').

(** What a step keeps in any case. *)
Record kept p p' : Prop := {
  kp_ok : pm_ok p';
  kp_heap : heap_ext (Space.cells (PM.space p)) (Space.cells (PM.space p'));
  kp_chain : final_ext (chain_of p) (chain_of p')
}.
Definition is_vote (m : ConsensusMessage) : bool := match m with Vote _ => true | _ => false end.
(** A step without a vote. *)
Record quiet p p' : Prop := {
  qu_height : PM.lastVotingHeight p' = PM.lastVotingHeight p;
  qu_high : high_le p p';
  qu_sent : exists l, PM.sent p' = PM.sent p ++ l /\ Forall (fun x => is_vote x.2 = false) l
}.
(** The heights of the votes among sent messages. *)
Definition vote_heights (l : list (list string * ConsensusMessage)) : list Z :=
  omap (fun x => match x.2 with Vote v => Some (Number (PMVote.VoteBlockID v)) | _ => None end) l.
(** A step that may vote: not below the height of the last vote. *)
Record advances p p' : Prop := {
  ad_height : PM.lastVotingHeight p <= PM.lastVotingHeight p';
  ad_high : high_le p p';
  ad_sent : exists l, PM.sent p' = PM.sent p ++ l /\ StronglySorted Z.le (vote_heights l) /\
    Forall (fun h => PM.lastVotingHeight p <= h <= PM.lastVotingHeight p') (vote_heights l)
}.
Definition silent p p' : Prop := pm_ok p -> kept p p' /\ quiet p p'.

Lemma qc_le_refl q : qc_le q q.
Proof. unfold qc_le. lia. Qed.
Lemma high_le_same p p' : PM.QCHigh p' = PM.QCHigh p -> high_le p p'.
Proof. intros Eh high E. exists high. rewrite Eh. split; [done|apply qc_le_refl]. Qed.
Lemma high_le_trans p1 p2 p3 : high_le p1 p2 -> high_le p2 p3 -> high_le p1 p3.
Proof.
  intros H12 H23 high E. destruct (H12 high E) as (h2 & E2 & L2). destruct (H23 h2 E2) as (h3 & E3 & L3).
  exists h3. split; [done|]. unfold qc_le in *. lia.
Qed.
Lemma kept_trans p1 p2 p3 : kept p1 p2 -> kept p2 p3 -> kept p1 p3.
Proof.
  intros [_ Hh Hc] [Ho Hh' Hc']. split; [done|by eapply heap_ext_trans|by eapply final_ext_trans].
Qed.
Lemma silent_trans p1 p2 p3 : silent p1 p2 -> silent p2 p3 -> silent p1 p3.
Proof.
  intros H12 H23 H1'. destruct (H12 H1') as [K12 [Q1 Q2 (l & Q3 & Q4)]].
  destruct (H23 (kp_ok _ _ K12)) as [K23 [R1 R2 (l' & R3 & R4)]].
  split; [by eapply kept_trans|]. split; [congruence|by eapply high_le_trans|].
  exists (l ++ l'). rewrite R3, Q3, app_assoc. split; [done|by apply Forall_app].
Qed.
Lemma quiet_heights l : Forall (fun x => is_vote x.2 = false) l -> vote_heights l = [].
Proof. induction 1 as [|[ips m] l Hm _ IH]; [done|]. by destruct m. Qed.
Lemma quiet_advances p p' : quiet p p' -> advances p p'.
Proof.
  intros [Q1 Q2 (l & Q3 & Q4)]. split; [lia|done|]. exists l. rewrite (quiet_heights _ Q4).
  split_and!; [done|constructor..].
Qed.
Lemma advances_refl p : advances p p.
Proof. apply quiet_advances. split; [done|by apply high_le_same|exists []; by rewrite app_nil_r]. Qed.
Lemma heights_app (l l' : list Z) a b c :
  StronglySorted Z.le l -> Forall (fun h => a <= h <= b) l ->
  StronglySorted Z.le l' -> Forall (fun h => b <= h <= c) l' -> StronglySorted Z.le (l ++ l').
Proof.
  intros Hs Hf Hs' Hf'. induction Hs as [|x l Hs IH Hx]; [done|].
  apply Forall_cons in Hf as [Hxb Hf]. constructor; [by apply IH|]. apply Forall_app. split; [done|].
  eapply Forall_impl; [exact Hf'|]. simpl. lia.
Qed.
Lemma advances_trans p1 p2 p3 : advances p1 p2 -> advances p2 p3 -> advances p1 p3.
Proof.
  intros [A1 A2 (l & A3 & A4 & A5)] [B1 B2 (l' & B3 & B4 & B5)].
  split; [lia|by eapply high_le_trans|]. exists (l ++ l'). rewrite B3, A3, app_assoc. split; [done|].
  unfold vote_heights. rewrite omap_app. split; [by eapply heights_app|]. apply Forall_app.
  split; (eapply Forall_impl; [eassumption|]; simpl; lia).
Qed.

(** Changes of the other fields. *)
Lemma kept_core p p' :
  PM.space p' = PM.space p -> PM.QCHigh p' = PM.QCHigh p -> pm_ok p -> kept p p'.
Proof.
  intros Es Eh [Hs Hh].
  split; [split; [by rewrite Es|unfold high_ok; by rewrite Es, Eh]|rewrite Es; apply heap_ext_refl|].
  unfold chain_of. rewrite Es. apply final_ext_refl.
Qed.
Lemma silent_same p p' l :
  PM.space p' = PM.space p -> PM.QCHigh p' = PM.QCHigh p -> PM.lastVotingHeight p' = PM.lastVotingHeight p ->
  PM.sent p' = PM.sent p ++ l -> Forall (fun x => is_vote x.2 = false) l -> silent p p'.
Proof.
  intros Es Eh Ev El Hl Hp. split; [by apply kept_core|].
  split; [done|by apply high_le_same|by exists l].
Qed.
Lemma silent_core p p' :
  PM.space p' = PM.space p -> PM.QCHigh p' = PM.QCHigh p -> PM.lastVotingHeight p' = PM.lastVotingHeight p ->
  PM.sent p' = PM.sent p -> silent p p'.
Proof. intros. apply (silent_same p p' []); [done..|by rewrite app_nil_r|done]. Qed.
Lemma silent_refl p : silent p p.
Proof. by apply silent_core. Qed.

(** A change of the drafts. *)
Lemma high_ok_ext p p' :
  heap_ext (Space.cells (PM.space p)) (Space.cells (PM.space p')) -> PM.QCHigh p' = PM.QCHigh p ->
  high_ok p -> high_ok p'.
Proof.
  intros He Eh Hh high r E1 E2. rewrite Eh in E1. destruct (Hh high r E1 E2) as (d & Hd & Ha & Hb).
  destruct (He r d Hd) as (d' & Hd' & S1 & S2 & _). exists d'. split_and!; [done|congruence..].
Qed.
Lemma silent_space p s' : sp_rel (PM.space p) s' -> silent p (p <| PM.space := s' |>).
Proof.
  intros Hr [Hs Hh]. destruct (Hr Hs) as (Hs' & He & Hc). split.
  - split; [split; [done|by eapply high_ok_ext]|done|]. unfold chain_of. simpl. rewrite Hc. apply final_ext_refl.
  - split; [done|by apply high_le_same|exists []; by rewrite app_nil_r].
Qed.
Lemma on_space_silent {A} (f : Space.t -> outcome (Space.t * A)) p p' a :
  (forall s' x, f (PM.space p) = Ret (s', x) -> sp_rel (PM.space p) s') ->
  on_space f p = Ret (p', a) -> silent p p' /\ f (PM.space p) = Ret (PM.space p', a).
Proof.
  intros Hf Ho. unfold on_space in Ho. inv_bind Ho. destruct r as [s' x]. injection Ho as <- <-.
  split; [by eapply silent_space, Hf|done].
Qed.

(** *** Sending and rounds *)

Lemma sendMsg_sent m b p p' : sendMsg m b p = Ret p' ->
  PM.space p' = PM.space p /\ PM.QCHigh p' = PM.QCHigh p /\ PM.lastVotingHeight p' = PM.lastVotingHeight p /\
  exists l, PM.sent p' = PM.sent p ++ l /\ Forall (fun x => x.2 = m) l.
Proof.
  unfold sendMsg. intros Hs. inv_bind Hs. injection Hs as <-. split_and!; [done..|]. eexists. split; [done|].
  apply Forall_app. split; [by destruct (_ && _); repeat constructor|by repeat constructor].
Qed.
Lemma sendMsg_silent m b p p' : is_vote m = false -> sendMsg m b p = Ret p' -> silent p p'.
Proof.
  intros Hm Hs. destruct (sendMsg_sent m b p p' Hs) as (? & ? & ? & l & ? & Hl).
  apply (silent_same p p' l); [done..|]. eapply Forall_impl; [exact Hl|]. by intros x ->.
Qed.
Lemma Send_silent m ips p : is_vote m = false -> silent p (Send m ips p).
Proof. intros Hm. apply (silent_same p _ [(ips, m)]); [done..|by repeat constructor]. Qed.
Lemma enterRound_core round rtype p :
  PM.space (enterRound round rtype p) = PM.space p /\ PM.QCHigh (enterRound round rtype p) = PM.QCHigh p /\
  PM.lastVotingHeight (enterRound round rtype p) = PM.lastVotingHeight p /\
  PM.sent (enterRound round rtype p) = PM.sent p.
Proof. unfold enterRound. destruct (_ && _); [done|]. by destruct (negb _). Qed.
Lemma enterRound_silent round rtype p : silent p (enterRound round rtype p).
Proof. apply silent_core; apply enterRound_core. Qed.

(** *** Certificates *)

Lemma draft_lookup p r d : draft p r = Ret d -> Space.cells (PM.space p) !! r = Some d.
Proof. apply load_lookup. Qed.

(** The highest certificate goes up; the node of a new one matches it. *)
Lemma UpdateQCHigh_silent qc p p' b :
  (forall r, DraftQC.QCNode qc = Some r -> exists d, Space.cells (PM.space p) !! r = Some d /\
    Draft.Height d = QuorumCert.QCHeight (DraftQC.QC qc) /\ Draft.Round d = QuorumCert.QCRound (DraftQC.QC qc)) ->
  UpdateQCHigh qc p = Ret (p', b) -> silent p p'.
Proof.
  intros Hqc Hu [Hs Hh]. unfold UpdateQCHigh in Hu. inv_bind Hu. destruct (PM.QCHigh p) as [high|] eqn:Eh; [|done].
  injection E as <-.
  assert (forall p0, p0 = p <| PM.QCHigh := Some qc |> -> qc_le (DraftQC.QC high) (DraftQC.QC qc) ->
    kept p p0 /\ quiet p p0) as Hset.
  { intros p0 -> Hle. split.
    - split; [|apply heap_ext_refl|apply final_ext_refl]. split; [done|]. intros h r [= <-] Hr. by apply Hqc.
    - split; [done| |exists []; by rewrite app_nil_r]. intros h E. exists qc. rewrite Eh in E. injection E as <-. done. }
  destruct (match DraftQC.QCNode qc with Some _ => true | None => false end && _) eqn:E1.
  { injection Hu as <- <-. apply Hset; [done|]. left. apply andb_true_iff in E1 as [_ E1]. lia. }
  inv_bind Hu. inv_bind Hu. apply draft_lookup in E0. destruct (DraftQC.QCNode high) as [node|] eqn:En; [|done].
  injection E as ->. destruct (Hh high r Eh En) as (d & Hd & Hd1 & Hd2). rewrite Hd in E0. injection E0 as <-.
  destruct ((_ =? _) && (_ <? _)) eqn:E2 in Hu; injection Hu as <- <-.
  - apply Hset; [done|]. right. lia.
  - by apply silent_refl.
Qed.

(** *** Committing *)

Lemma silent_chain p c :
  (linear (chain_of p) -> linear c /\ final_ext (chain_of p) c) ->
  silent p (p <| PM.space ::= fun s => s <| Space.chain := c |> |>).
Proof.
  intros Hc [Hs Hh]. destruct (Hc (so_chain _ Hs)) as [Hl Hf]. split.
  - split; [|apply heap_ext_refl|done]. split; [|done]. destruct Hs as [_ Hcell Hmap Hold]. by split.
  - split; [done|by apply high_le_same|exists []; by rewrite app_nil_r].
Qed.

Lemma commitBlock_silent d escortQC p p' err :
  draft_ok d -> escortQC <> None -> commitBlock d escortQC p = Ret (p', err) -> silent p p'.
Proof.
  intros (_ & Hbound & _) Hqc Hc. unfold commitBlock in Hc. inv_bind Hc. clear E.
  destruct (_ <? _)%nat; [done|].
  destruct (log_error _); [injection Hc as <- <-; apply silent_refl|].
  destruct (Z.leb_spec (Block.Number (Draft.ProposedBlock d)) (Block.Number (Chain.bestBlock (chain_of p)))) as [|Hlt];
    [injection Hc as <- <-; apply silent_refl|].
  inv_bind Hc. inv_bind Hc. destruct r1 as [c r1]. destruct escortQC as [qc|]; [|done].
  assert (p' = p <| PM.space ::= fun s => s <| Space.chain := c |> |> /\
    forall f, r1 = inr f -> Fork.Branch f = []) as [-> Hf].
  { destruct r1 as [err'|f]; [injection Hc as <- <-; done|].
    destruct (Fork.Branch f) eqn:Eb; [|done]. injection Hc as <- <-. split; [done|]. by intros f' [= <-]. }
  apply silent_chain. intros Hl.
  destruct (AddBlock_linear (chain_of p) _ qc _ c r1 Hl Hlt Hbound E0) as [|(f & -> & Hne)]; [done|].
  by rewrite (Hf f) in Hne.
Qed.

Lemma commit_one_silent p r escortQC p' :
  escortQC <> None -> commit_one p (r, escortQC) = Ret p' -> silent p p'.
Proof.
  intros Hqc Hc Hp. revert Hp. unfold commit_one in Hc. inv_bind Hc. apply draft_lookup in E. intros Hp.
  pose proof (so_cell _ (proj1 Hp) _ _ E) as Hd. revert Hp. change (silent p p').
  destruct (negb (Draft.SuccessProcessed _)); [injection Hc as <-; apply silent_refl|].
  destruct (bool_decide _); [injection Hc as <-; apply silent_refl|].
  destruct (Block.IsSBlock _); [injection Hc as <-; apply silent_refl|].
  inv_bind Hc. destruct r1 as [p1 err]. pose proof (commitBlock_silent _ _ _ _ _ Hd Hqc E0) as H1'.
  match type of Hc with (if ?t then _ else _) = _ => destruct t; [done|] end.
  inv_bind Hc. assert (silent p1 r1) as H2'.
  { destruct (_ && _); [|injection E1 as <-; apply silent_refl]. inv_bind E1.
    destruct (_ && _); injection E1 as <-; [by apply silent_core|apply silent_refl]. }
  inv_bind Hc. injection Hc as <-.
  eapply silent_trans; [exact H1'|]. eapply silent_trans; [exact H2'|].
  by eapply silent_space, PruneDraftsUpTo_rel.
Qed.

Lemma OnCommit_silent ready p p' :
  Forall (fun x => x.2 <> None) ready -> OnCommit ready p = Ret p' -> silent p p'.
Proof.
  revert p. induction ready as [|[r qc] ready IH]; intros p Hr Hc; [injection Hc as <-; apply silent_refl|].
  apply Forall_cons in Hr as [Hqc Hr]. unfold OnCommit in Hc. cbn [mfold] in Hc. inv_bind Hc.
  eapply silent_trans; [by eapply commit_one_silent|by apply IH].
Qed.

Lemma commit_path_certified fuel h floor tmp acc ready :
  (forall r d, h !! r = Some d -> draft_ok d) -> Forall (fun x => x.2 <> None) acc ->
  commit_path fuel h floor tmp acc = Ret ready -> Forall (fun x => x.2 <> None) ready.
Proof.
  intros Hh. revert tmp acc. induction fuel as [|fuel IH]; intros tmp acc Ha Hc; [done|].
  cbn [commit_path] in Hc. inv_bind Hc. inv_bind Hc. inv_bind Hc.
  destruct (_ <? _); [|by injection Hc as <-]. eapply IH; [|done]. constructor; [|done]. simpl.
  apply load_lookup in E. destruct (Hh _ _ E) as (_ & _ & Hq). apply Hq. intros En. by rewrite En in E0.
Qed.

Lemma Update_silent qc p p' : Update qc p = Ret p' -> silent p p'.
Proof.
  unfold Update. intros Hu. inv_bind Hu. destruct r as [p1 o].
  destruct (on_space_silent _ _ _ _ (fun s' x E' => proj1 (GetDraftByEscortQC_rel qc _ s' x E')) E) as [H1' Hg].
  destruct o as [bPrime|]; [|injection Hu as <-; done].
  inv_bind Hu. apply draft_lookup in E0. destruct (Draft.Committed r); [injection Hu as <-; done|].
  inv_bind Hu. inv_bind Hu. inv_bind Hu. inv_bind Hu. destruct r3 as [p2 b2].
  intros Hp. assert (silent p p2) as H2'.
  { eapply silent_trans; [exact H1'|]. eapply UpdateQCHigh_silent; [|exact E4]. intros r' [= <-].
    destruct (proj2 (GetDraftByEscortQC_rel qc _ _ _ Hg) (proj1 Hp) bPrime eq_refl) as (d & Hd & ? & ?). by exists d. }
  revert Hp. change (silent p p'). destruct (negb _); [injection Hu as <-; done|].
  inv_bind Hu. inv_bind Hu. inv_bind Hu. inv_bind Hu. injection Hu as <-.
  eapply silent_trans; [exact H2'|]. eapply (silent_trans _ r6); [|by apply silent_core].
  intros Hp2. eapply OnCommit_silent; [|exact E8|exact Hp2].
  eapply commit_path_certified; [|by apply Forall_nil|exact E7]. apply (so_cell _ (proj1 Hp2)).
Qed.

(** *** Proposals *)

Lemma ValidateProposal_silent r now p p' err : ValidateProposal r now p = Ret (p', err) -> silent p p'.
Proof.
  unfold ValidateProposal. intros Hv. inv_bind Hv. clear E. inv_bind Hv. destruct r1 as [p1 wrong].
  assert (silent p p1) as H1'.
  { destruct (Block.IsSBlock _); [|injection E as <- <-; apply silent_refl].
    inv_bind E. destruct r1 as [p2 o]. inv_bind E. inv_bind E. injection E as <- <-.
    eapply on_space_silent; [|exact E0]. intros s' x Hx. by eapply GetDraft_rel. }
  clear E. eapply silent_trans; [exact H1'|]. clear H1'.
  destruct wrong; [injection Hv as <- <-; apply silent_refl|].
  destruct (_ && _); [injection Hv as <- <-; apply silent_refl|].
  destruct (Draft.Parent r0) as [parent|]; [|injection Hv as <- <-; apply silent_refl].
  inv_bind Hv. destruct (state_error _); [injection Hv as <- <-; apply silent_refl|].
  inv_bind Hv. destruct r2 as [p2 cached]. eapply silent_trans.
  { eapply on_space_silent; [|exact E0]. intros s' x Hx. by eapply cached_tx_rel. }
  destruct cached; [injection Hv as <- <-; apply silent_refl|].
  inv_bind Hv. destruct r2 as [err'|receipts]; [destruct (_ =? _)%string|];
    injection Hv as <- <-; apply (silent_space p2 (_ <| Space.cells ::= alter _ r |>)); by apply write_rel.
Qed.

Lemma parent_missing_silent mi blk round p p' : parent_missing mi blk round p = Ret p' -> silent p p'.
Proof.
  unfold parent_missing. intros Hm. inv_bind Hm. destruct (_ <? _); [|injection Hm as <-; apply silent_refl].
  inv_bind Hm. injection Hm as <-. eapply (silent_trans _ r0); [|by apply silent_core].
  destruct (_ =? _); [|injection E0 as <-; apply silent_refl].
  inv_bind E0. inv_bind E0. injection E0 as <-. by apply Send_silent.
Qed.

(** A step that may vote. *)
Definition progress p p' : Prop := pm_ok p -> kept p p' /\ advances p p'.
Lemma silent_progress p p' : silent p p' -> progress p p'.
Proof. intros Hs Hp. destruct (Hs Hp) as [Hk Hq]. split; [done|by apply quiet_advances]. Qed.
Lemma progress_trans p1 p2 p3 : progress p1 p2 -> progress p2 p3 -> progress p1 p3.
Proof.
  intros H12 H23 H1'. destruct (H12 H1') as [K12 A12]. destruct (H23 (kp_ok _ _ K12)) as [K23 A23].
  split; [by eapply kept_trans|by eapply advances_trans].
Qed.
Lemma progress_after p1 p2 p3 : silent p1 p2 -> progress p2 p3 -> progress p1 p3.
Proof. intros Hs. by apply progress_trans, silent_progress. Qed.

Lemma same_heights v l : Forall (fun x => x.2 = Vote v) l ->
  StronglySorted Z.le (vote_heights l) /\ Forall (eq (Number (PMVote.VoteBlockID v))) (vote_heights l).
Proof.
  induction 1 as [|[ips m] l Hm _ [IH1 IH2]]; [by split; constructor|]. simpl in Hm. subst m.
  unfold vote_heights in *. simpl. split; constructor; [done| |done|done].
  eapply Forall_impl; [exact IH2|]. simpl. lia.
Qed.
Lemma progress_vote p p' v l :
  PM.space p' = PM.space p -> PM.QCHigh p' = PM.QCHigh p -> PM.sent p' = PM.sent p ++ l ->
  Forall (fun x => x.2 = Vote v) l -> PM.lastVotingHeight p' = Number (PMVote.VoteBlockID v) ->
  PM.lastVotingHeight p <= Number (PMVote.VoteBlockID v) -> progress p p'.
Proof.
  intros Es Eh El Hl Ev Hle Hp. split; [by apply kept_core|].
  split; [lia|by apply high_le_same|]. exists l. destruct (same_heights v l Hl) as [Hs Hf].
  split_and!; [done..|]. eapply Forall_impl; [exact Hf|]. simpl. lia.
Qed.

Lemma vote_for_progress msg bnew qc p p' :
  PM.lastVotingHeight p <= Block.Number (PMProposal.DecodeBlock msg) ->
  vote_for msg bnew qc p = Ret p' -> progress p p'.
Proof.
  intros Hle Hv. unfold vote_for in Hv. inv_bind Hv. inv_bind Hv. injection Hv as <-.
  pose proof (Update_silent _ _ _ E) as Hu. intros Hp.
  pose proof (qu_height _ _ (proj2 (Hu Hp))) as Hlv. revert Hp.
  eapply progress_after; [exact Hu|]. destruct (sendMsg_sent _ _ _ _ E0) as (Es & Eh & Ev & l & El & Hl).
  match goal with |- progress _ (enterRound ?a ?b ?c) => destruct (enterRound_core a b c) as (Fs & Fh & Fv & Fl) end.
  apply (progress_vote _ _ (BuildVoteMessage msg p) l); [by rewrite Fs|by rewrite Fh|by rewrite Fl|done|by rewrite Fv|].
  rewrite Hlv. etrans; [exact Hle|]. apply Z.eq_le_incl. symmetry. apply Number_ID.
Qed.

(** The draft of a proposal has the height of its block; its certificate was
    read before. *)
Lemma OnReceiveProposal_progress mi msg now p p' :
  Block.Number (PMProposal.DecodeBlock msg) < 2 ^ 32 - 1 ->
  OnReceiveProposal mi msg now p = Ret p' -> progress p p'.
Proof.
  intros Hbound Ho. unfold OnReceiveProposal in Ho. inv_bind Ho. inv_bind Ho. clear E E0.
  destruct (_ <? _); [injection Ho as <-; apply silent_progress, silent_refl|].
  inv_bind Ho. destruct r1 as [p1 parent]. eapply progress_after.
  { eapply on_space_silent; [|exact E]. intros s' x Hx. by eapply GetDraft_rel. }
  clear E. destruct parent as [parent|]; [|by eapply silent_progress, parent_missing_silent].
  inv_bind Ho. inv_bind Ho. destruct (Block.QC _) as [qc|] eqn:Eqc; [|done]. injection E0 as <-.
  inv_bind Ho. destruct r2 as [node match_]. eapply (progress_after _ (p1 <| PM.node := node |>)); [by apply silent_core|].
  clear E0. destruct match_; [|injection Ho as <-; apply silent_progress, silent_refl].
  inv_bind Ho. destruct r2; [|injection Ho as <-; apply silent_progress, silent_refl].
  simpl negb in Ho. cbv iota in Ho. set (d := Draft.mk _ _ _ _ _ _ _ _ _ _ _) in Ho.
  destruct (new_cell_rel d (PM.space p1)) as [Hn _].
  { by split_and!; [|..|simpl; congruence]. }
  { intros q [= <-]. eexists. by eapply draft_lookup. }
  cbn zeta in Ho. change (PM.space (p1 <| PM.node := node |>)) with (PM.space p1) in Ho.
  destruct (Space.new_cell d (PM.space p1)) as [s bnew] in Ho, Hn.
  eapply (progress_after _ (p1 <| PM.node := node |> <| PM.space := s |>)); [by apply silent_space|].
  inv_bind Ho. destruct r2 as [p2 err]. eapply progress_after; [by eapply ValidateProposal_silent|].
  destruct err; [injection Ho as <-; apply silent_progress, silent_refl|].
  inv_bind Ho. eapply (progress_after _ r2).
  { destruct (Space.HasDraft _ _); [injection E2 as <-; apply silent_refl|]. inv_bind E2. injection E2 as <-.
    by eapply silent_space, AddDraft_rel. }
  inv_bind Ho. destruct (_ && _) eqn:Ev; [|injection Ho as <-; apply silent_progress, silent_refl].
  apply andb_true_iff in Ev as [Ev%Z.leb_le _]. by eapply vote_for_progress.
Qed.

(** *** Votes and timeouts *)

Lemma AddVote_certificate index epoch round id sig hash m m' qc :
  AddVote range_votes index epoch round id sig hash m = (m', Some qc) ->
  QuorumCert.QCHeight qc = Number id /\ QuorumCert.QCRound qc = round.
Proof.
  unfold AddVote, Aggregate. intros Ha. destruct (bool_decide _); [done|]. destruct (_ =? _)%nat; [done|].
  destruct (SigFromBytes sig); [done|]. destruct (MajorityTwoThird _ _); [|done].
  destruct (tally _ _) as [[sigs bits] hash']. destruct (bls_Aggregate sigs); [done|]. by injection Ha as _ <-.
Qed.

Lemma OnReceiveVote_silent mi msg p p' : OnReceiveVote range_votes mi msg p = Ret p' -> silent p p'.
Proof.
  unfold OnReceiveVote. intros Hv. destruct (_ && _) in Hv; [injection Hv as <-; apply silent_refl|].
  destruct (negb _) in Hv; [injection Hv as <-; apply silent_refl|].
  inv_bind Hv. destruct r as [p1 b].
  destruct (on_space_silent _ _ _ _ (fun s' x E' => proj1 (GetDraft_rel _ _ s' x E')) E) as [H1' Hg].
  intros Hp. pose proof (proj2 (GetDraft_rel _ _ _ _ Hg) (proj1 Hp)) as Hid.
  pose proof (kp_ok _ _ (proj1 (H1' Hp))) as Hp1. revert Hp. eapply silent_trans; [exact H1'|].
  destruct b as [b|]; [|injection Hv as <-; by apply silent_core].
  destruct (Hid b eq_refl) as (d & Hd & Hdid). inv_bind Hv. apply draft_lookup in E0. rewrite Hd in E0. injection E0 as <-.
  destruct (Z.eqb_spec (Draft.Round d) (PMVote.VoteRound msg)) as [Er|]; [|injection Hv as <-; apply silent_refl].
  simpl negb in Hv. cbv iota in Hv. inv_bind Hv.
  destruct (AddVote _ _ _ _ _ _ _ _) as [m' [qc|]] eqn:Ea; [|injection Hv as <-; by apply silent_core].
  apply AddVote_certificate in Ea as [Eq1 Eq2]. cbn zeta in Hv. inv_bind Hv. destruct r0 as [p2 changed].
  eapply (silent_trans _ (p1 <| PM.qcVoteManager := Some m' |>)); [by apply silent_core|].
  eapply (silent_trans _ p2).
  { eapply UpdateQCHigh_silent; [|exact E1]. intros r' [= <-]. exists d. split_and!; [done| |simpl; by rewrite Eq2].
    simpl. rewrite Eq1, <- Hdid. destruct (so_cell _ (proj1 Hp1) _ _ Hd) as [-> _]. symmetry. apply Number_ID. }
  destruct changed; [|injection Hv as <-; apply silent_refl]. inv_bind Hv. injection Hv as <-.
  eapply silent_trans; [by eapply Update_silent|].
  eapply (silent_trans _ (scheduleOnBeat _ _ _)); [by apply silent_core|apply enterRound_silent].
Qed.

(** A certificate whose draft is looked up. *)
Lemma raise_silent qc p p1 node p2 b :
  on_space (Space.GetDraftByEscortQC qc) p = Ret (p1, node) ->
  UpdateQCHigh (DraftQC.mk node qc) p1 = Ret (p2, b) -> silent p p2.
Proof.
  intros Eg Eu.
  destruct (on_space_silent _ _ _ _ (fun s' x E' => proj1 (GetDraftByEscortQC_rel qc _ s' x E')) Eg) as [H1' Hg].
  intros Hp. pose proof (proj2 (GetDraftByEscortQC_rel _ _ _ _ Hg) (proj1 Hp)) as Hnode. revert Hp.
  eapply silent_trans; [exact H1'|]. eapply UpdateQCHigh_silent; [|exact Eu]. simpl. intros r ->. by apply Hnode.
Qed.

Lemma OnReceiveTimeout_silent msg p p' : OnReceiveTimeout range_votes msg p = Ret p' -> silent p p'.
Proof.
  unfold OnReceiveTimeout. intros Ht. destruct (negb _) in Ht; [injection Ht as <-; apply silent_refl|].
  inv_bind Ht. destruct (AddVote _ _ _ _ _ _ _ _) as [m' newQC]. cbn zeta in Ht. inv_bind Ht.
  eapply (silent_trans _ (p <| PM.qcVoteManager := Some m' |>)); [by apply silent_core|].
  eapply (silent_trans _ r0).
  { destruct newQC as [qc|]; [|injection E0 as <-; apply silent_refl].
    inv_bind E0. destruct r1 as [p1 node]. inv_bind E0. destruct r1 as [p2 b].
    eapply silent_trans; [by eapply raise_silent|by eapply Update_silent]. }
  inv_bind Ht. inv_bind Ht. destruct r2 as [p1 node]. inv_bind Ht. destruct r2 as [p2 b].
  eapply silent_trans; [by eapply raise_silent|]. inv_bind Ht.
  destruct (TC_AddVote _ _ _ _ _ _ _) as [tm [tc|]]; injection Ht as <-; by apply silent_core.
Qed.

Lemma OnReceiveQuery_silent mi msg p p' : OnReceiveQuery mi msg p = Ret p' -> silent p p'.
Proof.
  unfold OnReceiveQuery. intros Hq. inv_bind Hq. inv_bind Hq. destruct r0 as [p1 ds]. eapply silent_trans.
  { eapply on_space_silent; [|exact E0]. intros s' x Hx. by eapply GetDraftsUpTo_rel. }
  clear E0. revert p1 Hq. induction ds as [|d ds IH]; intros p1 Hq; [injection Hq as <-; apply silent_refl|].
  cbn [mfold] in Hq. inv_bind Hq. eapply silent_trans; [|by apply IH]. unfold forward_draft in E0.
  inv_bind E0. inv_bind E0. injection E0 as <-.
  eapply silent_trans; [|by apply Send_silent]. eapply sendMsg_silent; [|eassumption]. done.
Qed.

(** *** Proposing *)

Lemma lookup_silent qc p p1 o : on_space (Space.GetDraftByEscortQC qc) p = Ret (p1, o) -> silent p p1.
Proof. intros E. eapply on_space_silent; [|exact E]. intros s' x Hx. by eapply GetDraftByEscortQC_rel. Qed.

Lemma leaf_kind_silent dp justify round p p' k : leaf_kind dp justify round p = Ret (p', k) -> silent p p'.
Proof.
  unfold leaf_kind. intros Hl. inv_bind Hl. destruct r.
  - inv_bind Hl. inv_bind Hl. destruct r0 as [p1 skip].
    assert (p1 = p') as -> by (destruct skip; by injection Hl).
    unfold grand_grand_is_kblock in E1. inv_bind E1. destruct r0 as [p2 g].
    eapply silent_trans; [by eapply lookup_silent|]. destruct g; [|injection E1 as <- _; apply silent_refl].
    inv_bind E1. inv_bind E1. inv_bind E1. destruct r3 as [p3 gg].
    eapply silent_trans; [by eapply lookup_silent|]. destruct gg; [|injection E1 as <- _; apply silent_refl].
    inv_bind E1. injection E1 as <- _. apply silent_refl.
  - match type of Hl with (match ?pow with _ => _ end) = _ => destruct pow end; [injection Hl as <- _; apply silent_refl|].
    destruct (_ && _) in Hl; injection Hl as <- _; apply silent_refl.
Qed.

Lemma OnPropose_silent qc round now p p' o : OnPropose qc round now p = Ret (p', o) -> silent p p'.
Proof.
  unfold OnPropose. intros Ho. inv_bind Ho. destruct r as [p1 parent]. eapply silent_trans; [by eapply lookup_silent|].
  inv_bind Ho. inv_bind Ho. inv_bind Ho. destruct r1 as [p2 kind].
  pose proof (leaf_kind_silent _ _ _ _ _ _ E2) as Hl. intros Hp1.
  destruct (kp_heap _ _ (proj1 (Hl Hp1)) _ _ (draft_lookup _ _ _ E1)) as (dp & Hdp & _). revert Hp1.
  eapply silent_trans; [exact Hl|].
  destruct kind as [|kind]; [injection Ho as <- _; apply silent_refl|].
  inv_bind Ho. destruct r1 as [|[blk receipts]]; [injection Ho as <- _; apply silent_refl|].
  destruct (Hbuild _ _ _ _ _ _ _ _ _ E3) as [Hqc Hbound].
  destruct (_ <=? _); [injection Ho as <- _; apply silent_refl|]. cbn zeta in Ho.
  set (d := Draft.mk _ _ _ _ _ _ _ _ _ _ _) in Ho.
  destruct (new_cell_rel d (PM.space p2)) as [Hn _].
  { by split_and!; [|..|simpl; congruence]. }
  { intros q [= <-]. by eexists. }
  destruct (Space.new_cell d (PM.space p2)) as [s bnew] in Ho, Hn. injection Ho as <- _.
  eapply (silent_trans _ (p2 <| PM.space := s |>)); [by apply silent_space|by apply silent_core].
Qed.

Lemma OnBeat_silent epoch round now p p' : OnBeat epoch round now p = Ret p' -> silent p p'.
Proof.
  unfold OnBeat. intros Ho. destruct (_ <? _); [injection Ho as <-; apply silent_refl|].
  destruct (_ && _); [injection Ho as <-; apply silent_refl|].
  destruct (negb _); [injection Ho as <-; apply silent_refl|]. cbn zeta in Ho. inv_bind Ho.
  eapply (silent_trans _ (p <| PM.lastOnBeatRound := i32 round |>)); [by apply silent_core|].
  inv_bind Ho. destruct r0 as [p1 b]. eapply silent_trans; [by eapply lookup_silent|].
  destruct b; [|injection Ho as <-; apply silent_refl].
  inv_bind Ho. destruct r1 as [p2 bnew]. eapply silent_trans; [by eapply OnPropose_silent|].
  destruct bnew; [|injection Ho as <-; apply silent_refl].
  inv_bind Ho. inv_bind Ho. injection Ho as <-. eapply (silent_trans _ (p2 <| PM.space := _ |>)).
  - by eapply silent_space, AddDraft_rel.
  - by apply silent_core.
Qed.

Lemma OnBroadcastProposal_silent p p' : OnBroadcastProposal p = Ret p' -> silent p p'.
Proof.
  unfold OnBroadcastProposal. intros Ho. destruct (PM.curProposal p); [|injection Ho as <-; apply silent_refl].
  inv_bind Ho. inv_bind Ho. inv_bind Ho. destruct (_ <? _); [injection Ho as <-; apply silent_refl|].
  eapply sendMsg_silent; [|exact Ho]. done.
Qed.

Lemma OnRoundTimeout_silent epoch round p p' : OnRoundTimeout epoch round p = Ret p' -> silent p p'.
Proof.
  unfold OnRoundTimeout. intros Ho. cbn zeta in Ho. inv_bind Ho.
  eapply silent_trans; [apply enterRound_silent|]. eapply sendMsg_silent; [|exact Ho]. done.
Qed.

(** A restart takes the draft of the best certificate for the highest. *)
Lemma restart_kept qc p p1 node s p' :
  on_space (Space.GetDraftByEscortQC qc) p = Ret (p1, node) -> Space.AddDraft node (PM.space p1) = Ret s ->
  PM.space p' = s -> PM.QCHigh p' = Some (DraftQC.mk node qc) -> pm_ok p -> kept p p'.
Proof.
  intros Eg Ea Es Eh Hp.
  destruct (on_space_silent _ _ _ _ (fun s' x E' => proj1 (GetDraftByEscortQC_rel qc _ s' x E')) Eg) as [H1' Hg].
  pose proof (proj2 (GetDraftByEscortQC_rel _ _ _ _ Hg) (proj1 Hp)) as Hnode.
  destruct (H1' Hp) as [[Hp1 He1 Hc1] _]. destruct (AddDraft_rel _ _ _ Ea (proj1 Hp1)) as (Hs & He & Hc).
  assert (final_ext (chain_of p) (chain_of p')) as Hf by (unfold chain_of; rewrite Es, Hc; exact Hc1).
  split; [|rewrite Es; by eapply heap_ext_trans|done]. split; [by rewrite Es|].
  intros high r E1 E2. rewrite Eh in E1. injection E1 as <-. simpl in E2 |- *.
  destruct (Hnode r E2) as (d & Hd & Ha & Hb). destruct (He r d Hd) as (d' & Hd' & S1 & S2 & _).
  exists d'. rewrite Es. split_and!; [done|congruence..].
Qed.
Lemma Regulate_kept p p' : Regulate NewState p = Ret p' -> pm_ok p -> kept p p'.
Proof.
  unfold Regulate. intros Hr Hp. inv_bind Hr. destruct r as [node b]. cbn zeta in Hr.
  destruct (Chain.GetTrunkBlock _ _) as [|bestBlk] in Hr; [done|]. inv_bind Hr. destruct r as [p1 bestNode].
  inv_bind Hr. injection Hr as <-.
  match type of E0 with on_space _ ?q = _ => assert (PM.space q = PM.space p /\ PM.QCHigh q = PM.QCHigh p) as [Es Eh] end.
  { destruct (ReactorConfig.InitCfgdDelegates _); [destruct IsStaging|]; done. }
  eapply kept_trans; [by eapply kept_core|].
  eapply restart_kept; [exact E0|exact E1|apply enterRound_core|apply enterRound_core|].
  by eapply kp_ok, kept_core.
Qed.

(** *** Fuel *)

(** The walk over the parents of a draft: they are older. *)
Lemma commit_path_enough s floor tmp acc fuel fuel' :
  space_ok s -> (tmp < fuel)%nat -> (tmp < fuel')%nat ->
  commit_path fuel (Space.cells s) floor tmp acc = commit_path fuel' (Space.cells s) floor tmp acc.
Proof.
  intros Hs. revert tmp acc fuel'. induction fuel as [|fuel IH]; intros tmp acc [|fuel'] Hf Hf'; try lia.
  cbn [commit_path]. destruct (load _ tmp) as [d|] eqn:E; [|done]. cbn [mbind outcome_bind].
  destruct (Draft.Parent d) as [q|] eqn:Eq; [|done]. cbn [deref mbind outcome_bind].
  destruct (load _ q) as [dq|]; [|done]. cbn [mbind outcome_bind]. destruct (_ <? _); [|done].
  apply load_lookup in E. pose proof (so_older _ Hs _ _ _ E Eq). apply IH; lia.
Qed.

(** The walk down to a committed draft: the numbers go down, and no draft has
    the number of the parent of the genesis block. *)
Lemma txs_in_cache_enough fuel fuel' r d s acc :
  space_ok s -> Space.cells s !! r = Some d -> Block.Number (Draft.ProposedBlock d) + 1 < Z.of_nat fuel ->
  Block.Number (Draft.ProposedBlock d) + 1 < Z.of_nat fuel' ->
  txs_in_cache fuel (Some r) s acc = txs_in_cache fuel' (Some r) s acc.
Proof.
  revert fuel' r d s acc. induction fuel as [|fuel IH]; intros fuel' r d s acc Hs Hr Hf Hf';
    pose proof (Header_Number_range (Block.BlockHeader (Draft.ProposedBlock d))) as Hn;
    fold (Block.Number (Draft.ProposedBlock d)) in Hn; [lia|]. destruct fuel' as [|fuel']; [lia|].
  cbn [txs_in_cache]. unfold load. rewrite Hr. cbn [deref mbind outcome_bind].
  destruct (Draft.Committed d); [done|]. destruct (mfold _ _ _) as [ids|]; [|done]. cbn [mbind outcome_bind].
  destruct (Space.GetDraft _ s) as [[s' [q|]]|] eqn:Eg; [| |done]; cbn [mbind outcome_bind].
  - destruct (GetDraft_rel _ _ _ _ Eg) as [Hrel Hq]. destruct (Hq Hs q eq_refl) as (d' & Hd' & Hid).
    destruct (Hrel Hs) as (Hs' & _). destruct (so_cell _ Hs' _ _ Hd') as (_ & Hb & _).
    pose proof (Header_Number_range (Block.BlockHeader (Draft.ProposedBlock d'))) as Hn'.
    fold (Block.Number (Draft.ProposedBlock d')) in Hn'.
    assert (Block.Number (Draft.ProposedBlock d) = Block.Number (Draft.ProposedBlock d') + 1).
    { unfold Block.Number at 1, Header.Number. fold (Block.ParentID (Draft.ProposedBlock d)).
      rewrite <- Hid, Block_Number_ID. apply Z.mod_small. lia. }
    eapply IH; [done|done|lia|lia].
  - destruct fuel as [|fuel], fuel' as [|fuel']; try lia. done.
Qed.

(** *** The loop *)

(** The block numbers of received proposals fit in 32 bits, and not just. *)
Definition event_ok (e : event) : bool :=
  match e with
  | EMsg (IncomingMsg.mk (Proposal m) _ _ _) => Block.Number (PMProposal.DecodeBlock m) <? 2 ^ 32 - 1
  | _ => true
  end.

Lemma handle_progress mi now p p' : event_ok (EMsg mi) = true -> handle range_votes mi now p = Ret p' -> progress p p'.
Proof.
  unfold handle. intros He Hh. destruct (negb _) in Hh; [injection Hh as <-; apply silent_progress, silent_refl|].
  destruct (negb _) in Hh; [injection Hh as <-; apply silent_progress, silent_refl|].
  destruct mi as [[m|m|m|m] ip sip n]; simpl in Hh, He.
  - eapply OnReceiveProposal_progress; [by apply Z.ltb_lt|done].
  - by eapply silent_progress, OnReceiveVote_silent.
  - by eapply silent_progress, OnReceiveTimeout_silent.
  - by eapply silent_progress, OnReceiveQuery_silent.
Qed.

Lemma main_step_progress e now p p' :
  event_ok e = true -> e <> ECmd -> main_step NewState range_votes e now p = Ret p' -> progress p p'.
Proof.
  intros He Hne Hm. unfold main_step in Hm. inv_bind Hm. clear E. cbn zeta in Hm.
  match type of Hm with context [if ?c then scheduleRegulate p else p] =>
    eapply (progress_after _ (if c then scheduleRegulate p else p));
      [destruct c; by apply silent_core|revert Hm; generalize (if c then scheduleRegulate p else p)] end.
  clear p. intros p Hm. destruct e as [| | | |mi]; [done|..|by eapply handle_progress]; apply silent_progress.
  - destruct (PM.roundTimeoutCh p) as [|[epoch round] rest]; [injection Hm as <-; apply silent_refl|].
    eapply (silent_trans _ (p <| PM.roundTimeoutCh := rest |>)); [by apply silent_core|].
    destruct (_ <? _) in Hm; [injection Hm as <-; apply silent_refl|by eapply OnRoundTimeout_silent].
  - destruct (PM.broadcastCh p); [|injection Hm as <-; apply silent_refl].
    eapply (silent_trans _ (p <| PM.broadcastCh := None |>)); [by apply silent_core|by apply OnBroadcastProposal_silent].
  - destruct (PM.beatCh p) as [[epoch round]|]; [|injection Hm as <-; apply silent_refl].
    eapply (silent_trans _ (p <| PM.beatCh := None |>)); [by apply silent_core|by eapply OnBeat_silent].
Qed.

Lemma main_step_kept e now p p' :
  event_ok e = true -> main_step NewState range_votes e now p = Ret p' -> pm_ok p -> kept p p'.
Proof.
  intros He Hm Hp. assert (e = ECmd \/ e <> ECmd) as [->|Hne]; [by destruct e; [left|right..]| |by eapply main_step_progress].
  unfold main_step in Hm. inv_bind Hm. clear E. cbn zeta in Hm.
  destruct (PM.cmdCh _); [|injection Hm as <-; destruct (_ && _); by apply kept_core].
  eapply kept_trans; [|eapply Regulate_kept; [exact Hm|eapply kp_ok]]; (apply kept_core; [..|done]; by destruct (_ && _)).
Qed.

(** What happens to a member: the loop serves an event, or the timer runs out. *)
Inductive happening := Served (e : event) (now : Z) | TimedOut.
Definition happens (p : PM.t) (h : happening) : outcome PM.t :=
  match h with
  | Served e now => main_step NewState range_votes e now p
  | TimedOut => Ret (fire p)
  end.
Definition happening_ok (h : happening) : bool := match h with Served e _ => event_ok e | TimedOut => true end.
Definition restarts (h : happening) : bool := match h with Served ECmd _ => true | _ => false end.

Lemma happens_kept h p p' : happening_ok h = true -> happens p h = Ret p' -> pm_ok p -> kept p p'.
Proof.
  destruct h as [e now|]; intros He Hh Hp; [exact (main_step_kept e now p p' He Hh Hp)|]. injection Hh as <-.
  by apply kept_core; [unfold fire; destruct (PM.roundTimer p) as [[[? ?] ?]|]..|].
Qed.
Lemma happens_progress h p p' :
  happening_ok h = true -> restarts h = false -> happens p h = Ret p' -> progress p p'.
Proof.
  destruct h as [e now|]; intros He Hr Hh.
  - eapply main_step_progress; [exact He|by intros ->|exact Hh].
  - injection Hh as <-. apply silent_progress. unfold fire.
    destruct (PM.roundTimer p) as [[[? ?] ?]|]; [by apply silent_core|apply silent_refl].
Qed.
Lemma run_kept hs p p' :
  forallb happening_ok hs = true -> mfold happens p hs = Ret p' -> pm_ok p -> kept p p'.
Proof.
  revert p. induction hs as [|h hs IH]; intros p Hok Hr Hp; [injection Hr as <-; by apply kept_core|].
  simpl in Hok. apply andb_true_iff in Hok as [Hh Hok]. cbn [mfold] in Hr. inv_bind Hr.
  pose proof (happens_kept _ _ _ Hh E Hp) as Hk. eapply kept_trans; [exact Hk|by eapply IH, kp_ok].
Qed.
Lemma run_progress hs p p' :
  forallb happening_ok hs = true -> existsb restarts hs = false -> mfold happens p hs = Ret p' -> progress p p'.
Proof.
  revert p. induction hs as [|h hs IH]; intros p Hok Hre Hr; [injection Hr as <-; apply silent_progress, silent_refl|].
  simpl in Hok, Hre. apply andb_true_iff in Hok as [Hh Hok]. apply orb_false_iff in Hre as [Hrh Hre].
  cbn [mfold] in Hr. inv_bind Hr. eapply progress_trans; [by eapply happens_progress|by eapply IH].
Qed.
End Member.

(** ** What a member keeps *)

(** C6: a block that a member has finalized stays.  Whatever proposals, votes,
    timeouts and queries the member receives, in whatever order with the timers,
    the beats and the restarts, each block up to the best one is found under its
    number at the end as at the beginning, and the best block does not go down.
    The invariant that carries this holds again at the end: the store of blocks is
    one chain, the drafts have the heights of their blocks, and the draft of the
    highest certificate matches it.  The block numbers are below the last one of
    32 bits, and the builders of blocks set the certificate. *)
Theorem finalized_blocks_stay
    `{StakingCodec} `{BlockChain} `{TxCrypto} `{EthTypes} `{BlockCrypto} `{BlsSystem} `{!NodeCrypto}
    `{TimeoutHash} `{DraftOrder} `{!PacemakerEnv} NewState range_votes hs p p'
    (Hbuild : builds_certified) (Hp : pm_ok p) (Hok : forallb happening_ok hs = true)
    (Hrun : mfold (happens NewState range_votes) p hs = Ret p') :
  pm_ok p' /\
  Block.Number (Chain.bestBlock (chain_of p)) <= Block.Number (Chain.bestBlock (chain_of p')) /\
  forall n, 0 <= n <= Block.Number (Chain.bestBlock (chain_of p)) ->
    Chain.GetTrunkBlock (chain_of p') n = Chain.GetTrunkBlock (chain_of p) n.
Proof. by destruct (run_kept NewState range_votes Hbuild hs p p' Hok Hrun Hp) as [? _ [? ?]]. Qed.

(** C15: between two restarts a member does not go back.  Its highest certificate
    only rises, by height and then by round, and the heights of the votes it sends
    are in order: none is below the height of a vote it has sent before. *)
Theorem votes_do_not_go_back
    `{StakingCodec} `{BlockChain} `{TxCrypto} `{EthTypes} `{BlockCrypto} `{BlsSystem} `{!NodeCrypto}
    `{TimeoutHash} `{DraftOrder} `{!PacemakerEnv} NewState range_votes hs p p' high
    (Hbuild : builds_certified) (Hp : pm_ok p) (Hok : forallb happening_ok hs = true)
    (Hre : existsb restarts hs = false) (Hhigh : PM.QCHigh p = Some high)
    (Hrun : mfold (happens NewState range_votes) p hs = Ret p') :
  (exists high', PM.QCHigh p' = Some high' /\ qc_le (DraftQC.QC high) (DraftQC.QC high')) /\
  exists l, PM.sent p' = PM.sent p ++ l /\
    StronglySorted Z.le (PM.lastVotingHeight p :: vote_heights l ++ [PM.lastVotingHeight p']).
Proof.
  destruct (run_progress NewState range_votes Hbuild hs p p' Hok Hre Hrun Hp) as [_ [Hh Hq (l & El & Hs & Hf)]].
  split; [by apply Hq|]. exists l. split; [done|]. constructor.
  - eapply (heights_app _ _ _ (PM.lastVotingHeight p')); [done|exact Hf|by repeat constructor|].
    repeat constructor; reflexivity.
  - apply Forall_app. split; [eapply Forall_impl; [exact Hf|]; simpl; lia|by repeat constructor].
Qed.

(** ** A certificate that nobody made *)

(** The certificate, if any, from the vote in a timeout message. *)
Definition vote_certificate `{BlockCrypto} `{BlsSystem} range_votes (m : PMTimeout.t) (p : PM.t) : option QuorumCert.t :=
  qm ← PM.qcVoteManager p;
  (AddVote range_votes (PMTimeout.SignerIndex m) (Node.curEpoch (PM.node p)) (PMTimeout.LastVoteRound m)
    (PMTimeout.LastVoteBlockID m) (PMTimeout.LastVoteSignature m) (PMTimeout.LastVoteHash m) qm).2.

(** A highest certificate without a draft: a timeout message that brings nothing
    higher panics. *)
Lemma stuck_panics
    `{StakingCodec} `{BlockChain} `{TxCrypto} `{EthTypes} `{BlockCrypto} `{BlsSystem} `{!NodeCrypto}
    `{TimeoutHash} `{DraftOrder} `{!PacemakerEnv} range_votes (p : PM.t) (m : PMTimeout.t) qc qm :
  PM.QCHigh p = Some (DraftQC.mk None qc) -> PM.qcVoteManager p = Some qm ->
  amIRoundProposer (PM.node p) (PMTimeout.WishRound m) = true -> vote_certificate range_votes m p = None ->
  (forall qc', PMTimeout.DecodeQCHigh m = Some qc' -> QuorumCert.QCHeight qc' <= QuorumCert.QCHeight qc) ->
  OnReceiveTimeout range_votes m p = Panic.
Proof.
  intros Eh Em Hme Hv Hlow. unfold vote_certificate in Hv. rewrite Em in Hv. cbn [mbind option_bind] in Hv.
  unfold OnReceiveTimeout. rewrite Hme, Em. cbn [negb deref mbind outcome_bind].
  destruct (AddVote _ _ _ _ _ _ _ _) as [qm' newQC]. simpl in Hv. subst newQC. cbn zeta.
  destruct (PMTimeout.DecodeQCHigh m) as [qc'|]; [|done]. specialize (Hlow qc' eq_refl). cbn [deref mbind outcome_bind].
  destruct (on_space _ _) as [[p1 node]|] eqn:Eo; [|done]. cbn [mbind outcome_bind].
  assert (PM.QCHigh p1 = Some (DraftQC.mk None qc)) as Eh1.
  { unfold on_space in Eo. inv_bind Eo. destruct r. by injection Eo as <- <-. }
  unfold UpdateQCHigh. rewrite Eh1. cbn [deref mbind outcome_bind DraftQC.QC DraftQC.QCNode].
  rewrite (proj2 (Z.ltb_ge _ _) Hlow), andb_false_r. done.
Qed.

(** C31: the certificate in a timeout message is not verified, and one that
    nobody made stops the member.  If it has the height of the highest
    certificate and a later round, and no block is known for it, the proposer of
    the round of the message takes it over without its draft; its signature does
    not matter.  After that, each timeout message that does not itself complete a
    certificate, and whose own certificate is not higher, makes the proposer read
    through a nil pointer. *)
Theorem forged_certificate_panics
    `{StakingCodec} `{BlockChain} `{TxCrypto} `{EthTypes} `{BlockCrypto} `{BlsSystem} `{!NodeCrypto}
    `{TimeoutHash} `{DraftOrder} `{!PacemakerEnv} range_votes (p : PM.t) (m : PMTimeout.t) qc high node d
    (Hme : amIRoundProposer (PM.node p) (PMTimeout.WishRound m) = true)
    (Hqm : PM.qcVoteManager p <> None) (Htm : PM.tcVoteManager p <> None)
    (Hvote : vote_certificate range_votes m p = None)
    (Hqc : PMTimeout.DecodeQCHigh m = Some qc)
    (Hhigh : PM.QCHigh p = Some high) (Hnode : DraftQC.QCNode high = Some node) (Hd : draft p node = Ret d)
    (Hheight : QuorumCert.QCHeight qc = Draft.Height d) (Hround : Draft.Round d < QuorumCert.QCRound qc)
    (Hnone : Space.GetDraftByEscortQC qc (PM.space p) = Ret (PM.space p, None)) :
  exists p', OnReceiveTimeout range_votes m p = Ret p' /\ PM.QCHigh p' = Some (DraftQC.mk None qc) /\
    forall m', amIRoundProposer (PM.node p) (PMTimeout.WishRound m') = true ->
      vote_certificate range_votes m' p' = None ->
      (forall qc', PMTimeout.DecodeQCHigh m' = Some qc' -> QuorumCert.QCHeight qc' <= QuorumCert.QCHeight qc) ->
      OnReceiveTimeout range_votes m' p' = Panic.
Proof.
  destruct (PM.qcVoteManager p) as [qm|] eqn:Eqm; [|done]. destruct (PM.tcVoteManager p) as [tm|] eqn:Etm; [|done].
  unfold vote_certificate in Hvote. rewrite Eqm in Hvote. cbn [mbind option_bind] in Hvote.
  unfold OnReceiveTimeout at 1. rewrite Hme, Eqm. cbn [negb deref mbind outcome_bind].
  destruct (AddVote _ _ _ _ _ _ _ _) as [qm' newQC]. simpl in Hvote. subst newQC. cbn zeta.
  rewrite Hqc. cbn [deref mbind outcome_bind]. set (p1 := p <| PM.qcVoteManager := Some qm' |>).
  assert (on_space (Space.GetDraftByEscortQC qc) p1 = Ret (p1, None)) as ->.
  { unfold on_space. change (PM.space p1) with (PM.space p). rewrite Hnone. done. }
  cbn [mbind outcome_bind].
  assert (UpdateQCHigh (DraftQC.mk None qc) p1 = Ret (p1 <| PM.QCHigh := Some (DraftQC.mk None qc) |>, true)) as ->.
  { unfold UpdateQCHigh. change (PM.QCHigh p1) with (PM.QCHigh p). rewrite Hhigh. cbn [deref mbind outcome_bind andb DraftQC.QCNode].
    rewrite Hnode. cbn [deref mbind outcome_bind]. change (draft p1 node) with (draft p node). rewrite Hd. cbn [mbind outcome_bind DraftQC.QC].
    rewrite (proj2 (Z.eqb_eq _ _) Hheight), (proj2 (Z.ltb_lt _ _) Hround). done. }
  cbn [mbind outcome_bind]. change (PM.tcVoteManager (p1 <| PM.QCHigh := Some (DraftQC.mk None qc) |>)) with (PM.tcVoteManager p).
  rewrite Etm. cbn [deref mbind outcome_bind]. destruct (TC_AddVote _ _ _ _ _ _ _) as [tm' tc]. cbn zeta.
  match goal with |- exists p', ?t = _ /\ _ => assert (exists p', t = Ret p' /\ PM.QCHigh p' = Some (DraftQC.mk None qc) /\
    PM.node p' = PM.node p /\ PM.qcVoteManager p' = Some qm') as (p' & -> & Eh & En & Em) end.
  { destruct tc; by eexists. }
  exists p'. split_and!; [done..|]. intros m' Hme' Hv' Hlow. 
  eapply stuck_panics; [exact Eh|exact Em|by rewrite En|done|done].
Qed.
