(* ===== verification/ForkRun.v ===== *)
(** * A committee over an asynchronous network

    Several pacemakers that exchange messages: a message that was sent can reach
    any of its addressees at any later time.  A run of four members, all of which
    follow the code, in which two of them commit different blocks at one height:
    a vote is bound neither to the round of the voter nor to the certificates it
    has seen. *)

From S2P Require Import Prelude Text KeyedList ChainParam BitArray StakingTypes Transaction Block QuorumTheorems TransactionTheorems Votes State StakingUtils Runtime Chain ChainTheorems Committee Drafts Pacemaker Samples PacemakerTheorems.
From stdpp Require Import gmap relations.
Open Scope Z_scope.

Section Network.
Context `{StakingCodec} `{BlockChain} `{TxCrypto} `{EthTypes} `{BlockCrypto} `{BlsSystem} `{!NodeCrypto}
        `{TimeoutHash} `{DraftOrder} `{!PacemakerEnv}.
Variable NewState : Bytes32 -> string + State.t.
Variable range_votes : gmap Z vote -> list (Z * vote).
Abbreviation net := (list PM.t).

Definition my_ip (p : PM.t) : outcome string := GetMyNetAddr (PM.node p).
Definition is_internal (e : event) : bool := match e with EMsg _ => false | _ => true end.

(** A message of [q] reaches one of its addressees, a channel of a node is
    served, or a timer runs out. *)
Inductive net_step : net -> net -> Prop :=
  | deliver ns (i j : nat) p q p' (ips : list string) m (ip from : string) now :
      ns !! i = Some p -> ns !! j = Some q -> (ips, m) ∈ PM.sent q ->
      my_ip p = Ret ip -> my_ip q = Ret from -> ip ∈ ips ->
      main_step NewState range_votes (EMsg (IncomingMsg.mk m from from 0)) now p = Ret p' ->
      net_step ns (<[i := p']> ns)
  | serve ns (i : nat) p p' e now :
      ns !! i = Some p -> is_internal e = true ->
      main_step NewState range_votes e now p = Ret p' ->
      net_step ns (<[i := p']> ns)
  | timeout ns (i : nat) p :
      ns !! i = Some p -> net_step ns (<[i := fire p]> ns).

(** *** Scripts of steps *)

(** [Deliver i j k]: the [k]-th message that [j] sent reaches [i]. *)
Inductive action :=
  | Deliver (i j k : nat)
  | Serve (i : nat) (e : event)
  | Fire (i : nat).

Definition act (now : Z) (ns : net) (a : action) : outcome net :=
  match a with
  | Deliver i j k =>
    p ← deref (ns !! i);
    q ← deref (ns !! j);
    '(ips, m) ← deref (PM.sent q !! k);
    ip ← my_ip p;
    from ← my_ip q;
    if existsb (String.eqb ip) ips then
      p' ← main_step NewState range_votes (EMsg (IncomingMsg.mk m from from 0)) now p;
      Ret (<[i := p']> ns)
    else Panic
  | Serve i e =>
    p ← deref (ns !! i);
    if is_internal e then p' ← main_step NewState range_votes e now p; Ret (<[i := p']> ns) else Panic
  | Fire i => p ← deref (ns !! i); Ret (<[i := fire p]> ns)
  end.

Lemma act_step now ns a ns' : act now ns a = Ret ns' -> net_step ns ns'.
Proof.
  destruct a as [i j k|i e|i]; unfold act; intros Ha.
  - destruct (ns !! i) as [p|] eqn:Ei; [|done]. destruct (ns !! j) as [q|] eqn:Ej; [|done].
    cbn [deref mbind outcome_bind] in Ha.
    destruct (PM.sent q !! k) as [[ips m]|] eqn:Ek; [|done]. cbn [deref mbind outcome_bind] in Ha.
    destruct (my_ip p) as [ip|] eqn:Eip; [|done]. destruct (my_ip q) as [from|] eqn:Eq; [|done].
    cbn [mbind outcome_bind] in Ha. destruct (existsb (String.eqb ip) ips) eqn:Hin; [|done].
    destruct (main_step _ _ _ _ p) as [p'|] eqn:Em; [|done]. injection Ha as <-.
    eapply deliver; eauto; [by eapply list_elem_of_lookup_2|].
    apply existsb_exists in Hin as (x & Hx & <-%String.eqb_eq). by apply list_elem_of_In.
  - destruct (ns !! i) as [p|] eqn:Ei; [|done]. cbn [deref mbind outcome_bind] in Ha.
    destruct (is_internal e) eqn:Ee; [|done].
    destruct (main_step _ _ _ _ p) as [p'|] eqn:Em; [|done]. injection Ha as <-. by eapply serve.
  - destruct (ns !! i) as [p|] eqn:Ei; [|done]. injection Ha as <-. by apply timeout.
Qed.

Lemma script_run now acts ns ns' : mfold (act now) ns acts = Ret ns' -> rtc net_step ns ns'.
Proof.
  revert ns. induction acts as [|a acts IH]; intros ns Hr; [injection Hr as <-; constructor|].
  simpl in Hr. destruct (act now ns a) as [ns1|] eqn:E; [|done].
  eapply rtc_l; [by eapply act_step|by apply IH].
Qed.
End Network.

(** ** Four members *)

Module Four.
#[export] Existing Instance Sample.codec.
#[export] Existing Instance SampleTx.chain.
#[export] Existing Instance SampleTx.crypto.
#[export] Existing Instance SampleTx.eth.
#[export] Existing Instance SampleQC.block_crypto.

(** A signature is the letter of the member and a digest of the hash, an
    aggregate the concatenation. *)
Definition letter (k : Z) : Ascii.ascii := Ascii.ascii_of_N (Z.to_N k).
Definition digest (h : Bytes32) : Z := h mod 251.
Fixpoint signatures (l : list Ascii.ascii) : list (Ascii.ascii * Ascii.ascii) :=
  match l with a :: b :: l => (a, b) :: signatures l | _ => [] end.
#[export] Instance bls : BlsSystem := {|
  BlsPubKey := list Z;
  BlsSig := string;
  SigFromBytes := fun s => if (s =? "")%string then inl "empty signature" else inr s;
  SigToBytes := fun s => s;
  bls_Aggregate := fun sigs => inr (String.concat "" sigs);
  bls_AggregatePubkeys := fun keys => inr (concat keys);
  bls_Verify := fun sig hash key =>
    bool_decide (signatures (String.list_ascii_of_string sig) ≡ₚ (fun k => (letter k, letter (digest hash))) <$> key)
|}.
#[export] Instance node_crypto : NodeCrypto := {|
  PubKeyFromBytes := fun _ => None;
  sort_keccak := fun key _ => bytes_value 0 key;
  qc_sha256 := fun qc => QuorumCert.VoterMsgHash qc + QuorumCert.QCRound qc;
  CommitteeInfo := fun _ => []
|}.
#[export] Instance timeout_hash : TimeoutHash := {| timeout_sha256 := fun e r => 1000000 + 1000 * e + r |}.
#[export] Instance draft_order : DraftOrder := {| range_drafts := map_to_list; range_drafts_perm := fun m => reflexivity _ |}.

(** Empty blocks, told apart by the member that builds them. *)
Definition child (parent : Block.t) (who : Z) (ts : Z) (qc : QuorumCert.t) : Block.t :=
  Block.mk (Header.zero <| Header.ParentID := Block.ID parent |> <| Header.Timestamp := ts |>
      <| Header.TotalScore := Header.TotalScore (Block.BlockHeader parent) + 1 |>
      <| Header.Beneficiary := who |> <| Header.BlockType := MBlockType |> <| Header.Signature := "1" |>)
    [] (Some qc) 0 0 BlockMagicVersion1.
#[export] Instance env : PacemakerEnv := {|
  process_block := fun _ parent blk _ =>
    Ret (if Header.TotalScore (Block.BlockHeader parent) <? Header.TotalScore (Block.BlockHeader blk)
         then inr [] else inl "block total score invalid");
  build_block := fun _ r _ parent qc _ ts =>
    let blk := child (Draft.ProposedBlock parent) ((Node.committeeIndex r + 1) ^ 2) ts qc in
    Ret (if Block.Number blk <? 2 ^ 32 - 1 then inr (blk, []) else inl "no number left");
  GetPowDecision := None;
  state_error := fun _ => None;
  log_error := fun _ => None;
  SignHash := fun key h => String (letter (bytes_value 0 key)) (String (letter (digest h)) "")
|}.

Definition keys : list string := ["a"; "b"; "c"; "d"].
Definition member (key : string) : ConsensusDelegate.t :=
  ConsensusDelegate.mk key 0 key [bytes_value 0 key] 0 key 8670 key.
Definition config : ReactorConfig.t := ReactorConfig.mk true 100 4 4 4 (member <$> keys).

(** A chain of the genesis block and one more. *)
Definition genesis : Block.t := SampleChain.genesis.
Definition first : Block.t := child genesis 0 10 (Chain.GenesisEscortQC genesis).
Definition first_qc : QuorumCert.t := QuorumCert.mk 1 0 0 "BA{4:xxx_}" (Block.VotingHash first) "".
Definition base : Chain.t :=
  match Chain.AddBlock first (Some first_qc) [] (opened genesis) with Ret (c, _) => c | Panic => opened genesis end.

Definition reactor (key : string) : Node.t :=
  Node.mk config key key 0 [] [] [] [] [] [] 0 false fromDelegatesFile 0 0 0 ∅.
Definition idle (key : string) : PM.t :=
  PM.mk (Space.mk base [] ∅) (reactor key) 0 0 None None 0 None None None (-1) None 0 None None [] false None None [] [].
Definition NewState (_ : Bytes32) : string + State.t := inr State.New.
Definition started (key : string) : PM.t :=
  match Regulate NewState (idle key) with Ret p => p | Panic => idle key end.
Definition nodes : list PM.t := started <$> keys.

Definition script : list action :=
  (* round 1: member 1 proposes, members 0, 1 and 2 vote, member 2 makes the certificate *)
  [Serve 1 EBeat; Serve 1 EBroadcast; Deliver 0 1 0; Deliver 1 1 0; Deliver 2 1 0;
   Deliver 2 0 0; Deliver 2 1 1; Deliver 2 2 0;
  (* round 2: the proposal of member 2 is delayed, rounds 2 and 3 time out *)
   Serve 2 EBeat; Serve 2 EBroadcast;
   Fire 0; Serve 0 ETimeout; Fire 0; Serve 0 ETimeout;
   Fire 1; Serve 1 ETimeout; Fire 1; Serve 1 ETimeout;
   Fire 2; Serve 2 ETimeout; Fire 2; Serve 2 ETimeout;
  (* round 3: member 3, which has not seen the first proposal, proposes another one *)
   Deliver 3 0 2; Deliver 3 1 3; Deliver 3 2 3; Serve 3 EBeat; Serve 3 EBroadcast;
   Deliver 0 3 0; Deliver 1 3 0; Deliver 2 3 0;
   Deliver 0 0 3; Deliver 0 1 4; Deliver 0 2 4;
  (* round 4: member 0 proposes on top of it *)
   Serve 0 EBeat; Serve 0 EBroadcast;
  (* the proposal of round 2 arrives, and gets its certificate at member 3 *)
   Deliver 0 2 1; Deliver 1 2 1; Deliver 2 2 1; Deliver 3 1 0; Deliver 3 2 1;
   Deliver 3 0 5; Deliver 3 1 5; Deliver 3 2 5;
  (* the proposal of round 4 gets its certificate at member 1 *)
   Deliver 0 0 4; Deliver 1 0 4; Deliver 2 0 4;
   Deliver 1 0 6; Deliver 1 1 6; Deliver 1 2 6].
Definition nodes_of (r : outcome (list PM.t)) : list PM.t := match r with Ret ns => ns | Panic => [] end.
Definition final : outcome (list PM.t) := mfold (act NewState map_to_list 100) nodes script.
Definition final_nodes : list PM.t := nodes_of final.
Lemma nodes_of_ret r : returns r = true -> r = Ret (nodes_of r).
Proof. by destruct r. Qed.
Definition committed (ns : list PM.t) (i : nat) : Block.t :=
  from_option (fun p => Chain.bestBlock (chain_of p)) genesis (ns !! i).
End Four.
Import Four.

(** C9: members that all follow the code can commit different blocks at one
    height.  Four of them start from the same chain and only exchange messages,
    which arrive in another order than they were sent in; no message is forged or
    changed.  In the end the second and the fourth have each finalized a block
    with number 2 on top of the first block, and the two blocks differ.  A member
    votes on a proposal of a round it has left, and on a proposal that conflicts
    with a certificate it has seen, as long as the height is not below that of
    its last vote. *)
Theorem honest_members_fork :
  rtc (net_step Four.NewState map_to_list) Four.nodes Four.final_nodes /\
  Block.Number (Four.committed Four.final_nodes 1) = 2 /\
  Block.Number (Four.committed Four.final_nodes 3) = 2 /\
  Block.ParentID (Four.committed Four.final_nodes 1) = Block.ID Four.first /\
  Block.ParentID (Four.committed Four.final_nodes 3) = Block.ID Four.first /\
  Block.ID (Four.committed Four.final_nodes 1) <> Block.ID (Four.committed Four.final_nodes 3).
Proof.
  split.
  - apply (script_run Four.NewState map_to_list 100 Four.script).
    apply nodes_of_ret. vm_compute. reflexivity.
  - split; [vm_compute; reflexivity|]. split; [vm_compute; reflexivity|]. split; [vm_compute; reflexivity|].
    split; [vm_compute; reflexivity|]. vm_compute. discriminate.
Qed.

(** ** One member of the four *)

Module Second.
(** What happened to the second member in the run above: a message is delivered
    as its sender has sent it. *)
Definition sent_by (j k : nat) : option event :=
  p ← Four.final_nodes !! j;
  '(_, m) ← PM.sent p !! k;
  key ← Four.keys !! j;
  Some (EMsg (IncomingMsg.mk m key key 0)).
Definition happened (i : nat) (a : action) : option happening :=
  match a with
  | Deliver i' j k => if (i' =? i)%nat then (fun e => Served e 100) <$> sent_by j k else None
  | Serve i' e => if (i' =? i)%nat then Some (Served e 100) else None
  | Fire i' => if (i' =? i)%nat then Some TimedOut else None
  end.
Definition events : list happening := omap (happened 1) Four.script.
Definition start : PM.t := Four.started "b".
Definition result {A} (default : A) (r : outcome A) : A := match r with Ret p => p | Panic => default end.
Lemma result_ret {A} (x : A) r : returns r = true -> r = Ret (result x r).
Proof. by destruct r. Qed.
Definition is_some {A} (o : option A) : bool := match o with Some _ => true | None => false end.
Lemma is_some_not_none {A} (o : option A) : is_some o = true -> o <> None.
Proof. by destruct o. Qed.
Lemma is_some_default {A} (x : A) o : is_some o = true -> o = Some (default x o).
Proof. by destruct o. Qed.
Definition finish : PM.t := result start (mfold (happens Four.NewState map_to_list) start events).


Lemma built_certified : builds_certified.
Proof.
  intros s r kind dp qc round ts blk receipts Hb. unfold build_block, Four.env in Hb.
  destruct (Z.ltb_spec (Block.Number (Four.child (Draft.ProposedBlock dp) ((Node.committeeIndex r + 1) ^ 2) ts qc))
    (2 ^ 32 - 1)) as [Hlt|]; [|discriminate Hb].
  injection Hb as <- <-. split; [reflexivity|exact Hlt].
Qed.
(** A block added to a chain, without a branch. *)
Definition branchless (r : outcome (Chain.t * (string + Fork.t))) : bool :=
  match r with Ret (_, inr f) => match Fork.Branch f with [] => true | _ => false end | _ => true end.
Lemma added_linear c b qc :
  linear c -> Block.Number (Chain.bestBlock c) < Block.Number b -> Block.Number b < 2 ^ 32 - 1 ->
  branchless (Chain.AddBlock b (Some qc) [] c) = true ->
  linear (match Chain.AddBlock b (Some qc) [] c with Ret (c', _) => c' | Panic => c end).
Proof.
  intros Hc Hlt Hb Hn. destruct (Chain.AddBlock b (Some qc) [] c) as [[c' r]|] eqn:E; [|done].
  destruct (AddBlock_linear c b qc [] c' r Hc Hlt Hb E) as [[Hl _]|(f & -> & Hf)]; [done|].
  simpl in Hn. by destruct (Fork.Branch f).
Qed.
Lemma base_linear : linear Four.base.
Proof.
  unfold Four.base. apply added_linear; [|vm_compute; reflexivity..].
  apply opened_linear; vm_compute; reflexivity.
Qed.
Lemma idle_ok key : pm_ok (Four.idle key).
Proof. split; [|intros high r Hh; discriminate Hh]. split; [exact base_linear|intros k x Hk; discriminate Hk..|intros k x q Hk; discriminate Hk]. Qed.
Lemma started_ok key : pm_ok (Four.started key).
Proof.
  unfold Four.started. destruct (Regulate Four.NewState (Four.idle key)) as [p|] eqn:E; [|apply idle_ok].
  eapply kp_ok, Regulate_kept; [exact E|apply idle_ok].
Qed.
(** The run, in the form that theorems take it. *)
Lemma finishes : mfold (happens Four.NewState map_to_list) start events = Ret finish.
Proof.
  apply result_ret. vm_compute. reflexivity.
Qed.
End Second.

(** At the end of its run the second member has finalized the block with number
    2; the first two blocks are those it started with. *)
Lemma finalized_blocks_stay_witness :
  Block.Number (Chain.bestBlock (chain_of Second.finish)) = 2 /\ pm_ok Second.finish /\
  Block.Number (Chain.bestBlock (chain_of Second.start)) <= Block.Number (Chain.bestBlock (chain_of Second.finish)) /\
  forall n, 0 <= n <= Block.Number (Chain.bestBlock (chain_of Second.start)) ->
    Chain.GetTrunkBlock (chain_of Second.finish) n = Chain.GetTrunkBlock (chain_of Second.start) n.
Proof.
  split; [vm_compute; reflexivity|].
  apply (finalized_blocks_stay Four.NewState map_to_list Second.events Second.start Second.finish).
  - exact Second.built_certified.
  - apply Second.started_ok.
  - vm_compute. reflexivity.
  - exact Second.finishes.
Defined.

Lemma votes_do_not_go_back_witness : exists high,
  PM.QCHigh Second.start = Some high /\
  (exists high', PM.QCHigh Second.finish = Some high' /\ qc_le (DraftQC.QC high) (DraftQC.QC high')) /\
  exists l, PM.sent Second.finish = PM.sent Second.start ++ l /\
    StronglySorted Z.le
      (PM.lastVotingHeight Second.start :: vote_heights l ++ [PM.lastVotingHeight Second.finish]).
Proof.
  destruct (PM.QCHigh Second.start) as [high|] eqn:E; [|vm_compute in E; discriminate E].
  exists high. split; [reflexivity|].
  apply (votes_do_not_go_back Four.NewState map_to_list Second.events Second.start Second.finish high).
  - exact Second.built_certified.
  - apply Second.started_ok.
  - vm_compute. reflexivity.
  - vm_compute. reflexivity.
  - exact E.
  - exact Second.finishes.
Defined.

(** The third member, with the certificate of the first proposal, receives a
    certificate for the same height and round 9 that nobody signed. *)
Module Forged.
Definition victim : PM.t :=
  default (Four.started "c") (Four.nodes_of (mfold (act Four.NewState map_to_list 100) Four.nodes (take 8 Four.script)) !! 2%nat).
Definition forged : QuorumCert.t := QuorumCert.mk 2 9 0 "" 0 "".
Definition message : PMTimeout.t := PMTimeout.mk 0 1 2 (Some forged) 0 "" 0 0 0 "".
Definition high : DraftQC.t := default (DraftQC.mk None forged) (PM.QCHigh victim).
Definition node : ref := default 0%nat (DraftQC.QCNode high).
Definition justified : Draft.t := Second.result (Draft.stored 0 0 Four.genesis) (draft victim node).
End Forged.

(** A draft that is not found leaves the drafts. *)
Lemma not_found qc s :
  match Space.GetDraftByEscortQC qc s with Ret (_, None) => false | _ => true end = false ->
  Space.GetDraftByEscortQC qc s = Ret (s, None).
Proof.
  intros Hn. destruct (Space.GetDraftByEscortQC qc s) as [[s' o]|] eqn:E; [|done]. destruct o; [done|]. f_equal. f_equal.
  unfold Space.GetDraftByEscortQC in E. inv_bind E. destruct r; [by injection E|].
  destruct (Chain.GetTrunkBlock _ _); [by injection E|]. destruct (_ =? _); [|by injection E].
  destruct (Space.new_cell _ _). discriminate E.
Qed.

Lemma forged_certificate_panics_witness : exists p',
  OnReceiveTimeout map_to_list Forged.message Forged.victim = Ret p' /\
  PM.QCHigh p' = Some (DraftQC.mk None Forged.forged) /\
  forall m', amIRoundProposer (PM.node Forged.victim) (PMTimeout.WishRound m') = true ->
    vote_certificate map_to_list m' p' = None ->
    (forall qc', PMTimeout.DecodeQCHigh m' = Some qc' -> QuorumCert.QCHeight qc' <= QuorumCert.QCHeight Forged.forged) ->
    OnReceiveTimeout map_to_list m' p' = Panic.
Proof.
  apply (forged_certificate_panics map_to_list Forged.victim Forged.message Forged.forged Forged.high Forged.node
    Forged.justified).
  - vm_compute. reflexivity.
  - apply Second.is_some_not_none. vm_compute. reflexivity.
  - apply Second.is_some_not_none. vm_compute. reflexivity.
  - vm_compute. reflexivity.
  - reflexivity.
  - apply Second.is_some_default. vm_compute. reflexivity.
  - apply Second.is_some_default. vm_compute. reflexivity.
  - apply Second.result_ret. vm_compute. reflexivity.
  - vm_compute. reflexivity.
  - vm_compute. reflexivity.
  - apply not_found. vm_compute. reflexivity.
Defined.
