(* ===== verification/CorrectionTheorems.v ===== *)
(** * Theorems on the corrections of the forks

    A correction takes effect only while its flag among the parameters is unset,
    and sets it; none of those that the node makes itself clears a flag, or
    creates or destroys MTR or MTRG. *)

From S2P Require Import Prelude KeyedList ChainParam ForkData StakingTypes Transaction AuctionTypes Stats StackedMap State Prototype ScriptEnv StakingUtils StakingHandlers AccountLock MeterTracker EVM StakingGovern Auction ScriptEngine Runtime Samples SupplyTheorems EVMTheorems.

(** ** Flags *)

Section Flags.
Implicit Types (evm : EVM.t) (k : Bytes32).

Lemma pending_mark k evm : pending k (mark k evm) = false.
Proof.
  unfold pending, mark, rt_state, on_rt, State.Params_Get, State.Params_Set, State.EncodeStorage.
  simpl. by rewrite lookup_insert_eq.
Qed.

Lemma pending_set k k' v evm :
  k <> k' -> pending k (on_rt (State.Params_Set k' v) evm) = pending k evm.
Proof.
  intros Hne. unfold pending, rt_state, on_rt, State.Params_Get, State.Params_Set, State.EncodeStorage.
  simpl. destruct (is_uint v); [|done]. simpl. by rewrite lookup_insert_ne.
Qed.

Lemma mark_mark k evm : mark k (mark k evm) = mark k evm.
Proof.
  unfold mark, on_rt, State.Params_Set, State.EncodeStorage. destruct evm as [[s r tr] d c ro n x].
  unfold update_field; simpl. do 2 f_equal. destruct s. unfold update_field; simpl.
  by rewrite insert_insert_eq.
Qed.
End Flags.

(** A correction that did its work has nothing left to do. *)
Definition runs_once (f : EVM.t -> outcome EVM.t) : Prop :=
  forall evm evm', f evm = Ret evm' -> f evm' = Ret evm'.

(** A correction under a flag, whatever the registry and the block: it does
    nothing when the flag is set, and when it does something the flag is set
    afterwards. *)
Record latched {A} (k : Bytes32) (f : A -> EVM.t -> outcome EVM.t) : Prop := {
  latch_inert a evm : pending k evm = false -> f a evm = Ret evm;
  latch_set a evm evm' : f a evm = Ret evm' -> evm' = evm \/ pending k evm' = false
}.

(** The shape all the corrections share: a guard, the work, and the flag. *)
Lemma guarded_latched {A} (b : A -> bool) k (work : A -> EVM.t -> outcome EVM.t) :
  (forall a evm evm', work a evm = Ret evm' -> pending k evm' = false) ->
  latched k (fun a evm => if b a && pending k evm then work a evm else Ret evm).
Proof.
  intros Hw. split; intros a evm.
  - intros ->. by rewrite andb_false_r.
  - intros evm'. destruct (b a && pending k evm); [eauto|]. intros [=<-]. by left.
Qed.

Ltac marked Hf :=
  repeat match type of Hf with (_ ≫= _) = Ret _ =>
    let r := fresh "r" in let E := fresh "E" in apply bind_ret_inv in Hf as (r & E & Hf) end;
  injection Hf as <-; apply pending_mark.

Section Once.
Context `{Hashing} `{BlockChain} `{Deployment} `{Machine}.
(** The registry of the script engine and the block. *)
Definition occasion : Type := option Registry * BlockContext.t.
Implicit Types (o : occasion).

(** The corrections the node makes itself and their flags; that of fork 11 calls
    contracts, and that of fork 13 has no flag of its own. *)
Definition flagged_corrections : list (Bytes32 * (occasion -> EVM.t -> outcome EVM.t)) :=
  [(KeyEnforceTesla1_Correction, fun o => EnforceTelsaFork1_Corrections o.1 o.2);
   (KeyEnforceTesla5_Correction, fun o => EnforceTeslaFork5_Corrections o.1 o.2);
   (KeyEnforceTesla_Fork6_Correction, fun o => EnforceTeslaFork6_Corrections o.1 o.2);
   (KeyEnforceTesla_Fork8_Correction, fun o => EnforceTeslaFork8_LiquidStaking o.2);
   (KeyEnforceTesla_Fork9_Correction, fun o => EnforceTeslaFork9_Corrections o.2);
   (KeyEnforceTesla_Fork10_Correction, fun o => EnforceTeslaFork10_Corrections o.2);
   (KeyEnforceTesla_Fork12_Correction, fun o => EnforceTeslaFork12_Corrections o.2);
   (KeyEnforceTesla_Fork14_Correction, fun o => EnforceTeslaFork14_Corrections o.2)].

Lemma corrections_latched : Forall (fun p => latched p.1 p.2) flagged_corrections.
Proof.
  unfold flagged_corrections. repeat apply Forall_cons_2; [..|by apply Forall_nil_2]; cbn [fst snd];
    apply guarded_latched; intros o evm evm' Hf; try (by marked Hf).
  injection Hf as <-. rewrite pending_set by (vm_compute; discriminate). apply pending_mark.
Qed.

Lemma fork11_latched `{Context} :
  latched KeyEnforceTesla_Fork11_Correction (fun o => EnforceTeslaFork11_Corrections o.2).
Proof. apply guarded_latched. intros o evm evm' Hf. marked Hf. Qed.

(** It sets the flag of fork 12 again and again, which changes nothing more. *)
Lemma fork13_once ctx : runs_once (EnforceTeslaFork13_Corrections ctx).
Proof.
  intros evm evm'. unfold EnforceTeslaFork13_Corrections. destruct (_ && pending _ evm) eqn:E.
  - intros [=<-]. unfold mark at 1. rewrite pending_set by (vm_compute; discriminate).
    by rewrite E, mark_mark.
  - intros [=<-]. by rewrite E.
Qed.

(** Its own flag stays unset. *)
Lemma fork13_flag_unset ctx evm evm' :
  EnforceTeslaFork13_Corrections ctx evm = Ret evm' ->
  pending KeyEnforceTesla_Fork13_Correction evm' = pending KeyEnforceTesla_Fork13_Correction evm.
Proof.
  unfold EnforceTeslaFork13_Corrections. case_match; intros [=<-]; [|done].
  apply pending_set. vm_compute. discriminate.
Qed.
End Once.

(** ** Conservation *)

Definition same_funds (s s' : State.t) : Prop :=
  total_mtrg s' = total_mtrg s /\ total_mtr s' = total_mtr s.

(** The two parameters that corrections write besides the flags. *)
Definition written : list Bytes32 := [KeySystemContractAddress2; KeyTesla_Fork12_Timestamp].
Definition flags_kept (s s' : State.t) : Prop :=
  forall k, k ∉ written -> State.Params_Get s k <> 0 -> State.Params_Get s' k <> 0.

(** No funds are made or lost, and no flag is cleared. *)
Definition settled (s s' : State.t) : Prop := same_funds s s' /\ flags_kept s s'.

Lemma settled_refl s : settled s s.
Proof. split; [by split|]. by intros k. Qed.
Lemma settled_trans s1 s2 s3 : settled s1 s2 -> settled s2 s3 -> settled s1 s3.
Proof. intros [[? ?] F1] [[? ?] F2]. split; [split; congruence|]. intros k Hk Hn. by apply F2, F1. Qed.
Lemma flags_slot s s' : State.params s' = State.params s -> flags_kept s s'.
Proof. intros Hp k _. unfold State.Params_Get. by rewrite Hp. Qed.
Lemma settled_slot s s' :
  State.accounts s' = State.accounts s -> State.params s' = State.params s -> settled s s'.
Proof. intros Ha Hp. split; [split; by apply total_slot|by apply flags_slot]. Qed.
Lemma settled_encode ok w s :
  State.accounts (w s) = State.accounts s -> State.params (w s) = State.params s ->
  settled s (State.EncodeStorage ok w s).
Proof. intros Ha Hp. unfold State.EncodeStorage. case_match; by apply settled_slot. Qed.
Lemma settled_fold {A} (f : State.t -> A -> State.t) l s :
  (forall s a, settled s (f s a)) -> settled s (foldl f s l).
Proof.
  intros Hf. revert s. induction l as [|a l IH]; intros s; [apply settled_refl|].
  by eapply settled_trans; [apply Hf|apply IH].
Qed.

Lemma SetCode_settled keccak a code s : settled s (State.SetCode keccak a code s).
Proof.
  split; [|by apply flags_slot].
  unfold State.SetCode, same_funds. rewrite total_mtrg_update, total_mtr_update.
  set (s1 := s <| State.codes ::= _ |>).
  assert (total_mtrg s1 = total_mtrg s /\ total_mtr s1 = total_mtr s) as [-> ->]
    by (split; by apply total_slot).
  unfold mtrg_of, mtr_of. simpl. lia.
Qed.

(** A parameter that is written is not zero afterwards, or not a flag. *)
Lemma Params_Set_settled k v s : v <> 0 \/ k ∈ written -> settled s (State.Params_Set k v s).
Proof.
  intros Hv. unfold State.Params_Set, State.EncodeStorage. case_match; [|by apply settled_slot].
  split; [split; by apply total_slot|]. intros k' Hk'. unfold State.Params_Get. simpl.
  destruct (decide (k = k')) as [<-|]; [|by rewrite lookup_insert_ne].
  rewrite lookup_insert_eq. simpl. naive_solver.
Qed.

Section Corrected.
Context `{Hashing}.

Lemma DoTeslaFork1_settled bid owner amount ts s :
  settled s (DoTeslaFork1_Correction bid owner amount ts s).
Proof.
  unfold DoTeslaFork1_Correction. case_match; [|apply settled_refl]. repeat (case_match; [apply settled_refl|]).
  destruct (TouchBucketBonus ts t) as [bonus b].
  eapply settled_trans; by apply settled_encode.
Qed.

Lemma DoTeslaFork5_settled s : settled s (DoTeslaFork5_BonusCorrection s).
Proof.
  unfold DoTeslaFork5_BonusCorrection.
  repeat (eapply settled_trans; [|by apply settled_encode]). apply settled_refl.
Qed.

Lemma fix_balance_settled a v s : settled s (fix_balance a v s).
Proof.
  unfold fix_balance. repeat (case_match; [|apply settled_refl]).
  split; [unfold same_funds; autorewrite with state; lia|by apply flags_slot].
Qed.

Lemma DoTeslaFork6_settled s : settled s (DoTeslaFork6_StakingCorrection s).
Proof.
  unfold DoTeslaFork6_StakingCorrection.
  set (s1 := State.SetCandidateList _ s).
  set (m := foldl _ ∅ _ : gmap Address Z).
  assert (settled s1 (map_fold fix_balance s1 m)) as H1.
  { apply (map_fold_weak_ind (fun r _ => settled s1 r)); [apply settled_refl|].
    intros a v m' r _ Hr. eapply settled_trans; [exact Hr|apply fix_balance_settled]. }
  destruct (State.GetSummaryList _) as [l s2] eqn:El.
  apply (settled_trans s s1); [by apply settled_encode|].
  eapply settled_trans; [exact H1|].
  unfold State.GetSummaryList in El. case_match; injection El as <- <-; by apply settled_slot.
Qed.
End Corrected.

(** A correction that settles the funds and keeps the flags, and what it is
    made of. *)
Definition settles (f : EVM.t -> outcome EVM.t) : Prop :=
  forall evm evm', f evm = Ret evm' -> settled (rt_state evm) (rt_state evm').

Section Steps.
Implicit Types (evm : EVM.t).

Lemma on_rt_settled f evm evm' :
  (forall s, settled s (f s)) -> settled (rt_state evm) (rt_state evm') ->
  settled (rt_state evm) (rt_state (on_rt f evm')).
Proof. intros Hf Hs. eapply settled_trans; [exact Hs|]. apply Hf. Qed.

Lemma mark_settled k evm evm' :
  settled (rt_state evm) (rt_state evm') -> settled (rt_state evm) (rt_state (mark k evm')).
Proof. apply on_rt_settled. intros s. apply Params_Set_settled. by left. Qed.

Lemma repo_put_state k v evm evm' :
  on_db (VMState.repo_put k v) evm = Ret evm' -> rt_state evm' = rt_state evm.
Proof.
  unfold on_db, VMState.repo_put. intros Hd. apply bind_ret_inv in Hd as (db & E & [=<-]).
  by apply bind_ret_inv in E as (r & _ & [=<-]).
Qed.

Lemma guarded_settles (b : EVM.t -> bool) (work : EVM.t -> outcome EVM.t) :
  settles work -> settles (fun evm => if b evm then work evm else Ret evm).
Proof. intros Hw evm evm'. destruct (b evm); [apply Hw|]. intros [=<-]. apply settled_refl. Qed.
End Steps.

Section Conserved.
Context `{Hashing} `{BlockChain} `{Deployment} `{Machine}.
Context (engine : option Registry) (ctx : BlockContext.t).

Lemma set_code_settled a code s : settled s (SetCode a code s).
Proof. apply SetCode_settled. Qed.

Ltac step_settled :=
  repeat first [ apply settled_refl
    | simple apply mark_settled | simple apply on_rt_settled; [intros ?|]
    | simple apply set_code_settled | simple apply Params_Set_settled; by repeat constructor
    | by apply settled_encode | by apply settled_slot ].

Lemma load_settled : settles (LoadERC20NativeCotract ctx).
Proof. apply guarded_settles. intros evm evm' [=<-]. step_settled. Qed.

Lemma fork1_settled : settles (EnforceTelsaFork1_Corrections engine ctx).
Proof.
  apply guarded_settles. intros evm evm' Hf. apply bind_ret_inv in Hf as (reg & _ & [=<-]).
  step_settled. unfold EnforceTeslaFork1_Corrections. case_match; [|apply settled_refl].
  apply settled_fold. intros s0 [[bid addr] amount]. case_match; [apply settled_refl|apply DoTeslaFork1_settled].
Qed.

Lemma fork5_settled : settles (EnforceTeslaFork5_Corrections engine ctx).
Proof.
  apply guarded_settles. intros evm evm' Hf. apply bind_ret_inv in Hf as (reg & _ & [=<-]).
  step_settled.
  - unfold fork5_rebound. case_match; [|apply settled_refl].
    split; [unfold same_funds; autorewrite with state; lia|by apply flags_slot].
  - unfold EnforceTeslaFork5BonusCorrections. case_match; [apply DoTeslaFork5_settled|apply settled_refl].
Qed.

Lemma fork6_settled : settles (EnforceTeslaFork6_Corrections engine ctx).
Proof.
  apply guarded_settles. intros evm evm' [=<-]. destruct engine; step_settled.
  unfold EnforceTeslaFork6_StakingCorrections. case_match; [apply DoTeslaFork6_settled|apply settled_refl].
Qed.

Lemma fork8_settled : settles (EnforceTeslaFork8_LiquidStaking ctx).
Proof.
  apply guarded_settles. intros evm evm' Hf. apply bind_ret_inv in Hf as (evm1 & E & [=<-]).
  apply repo_put_state in E. apply mark_settled. rewrite E. step_settled.
  unfold fork8_totals. eapply settled_trans; by apply settled_encode.
Qed.

Lemma fork9_settled : settles (EnforceTeslaFork9_Corrections ctx).
Proof. apply guarded_settles. intros evm evm' [=<-]. step_settled. Qed.

Lemma fork10_reserve_slot s :
  State.accounts (snd (fork10_reserve s)) = State.accounts s /\
  State.params (snd (fork10_reserve s)) = State.params s.
Proof.
  unfold fork10_reserve, State.GetSummaryList, State.GetAuctionCB.
  repeat (case_match; simplify_eq; simpl in *; try done).
Qed.

Lemma fork10_move_settled : settles fork10_move.
Proof.
  intros evm evm'. unfold fork10_move. pose proof (fork10_reserve_slot (rt_state evm)) as [Ha Hp].
  destruct (fork10_reserve (rt_state evm)) as [reserve s] eqn:Er. simpl in Ha, Hp.
  assert (settled (rt_state evm) s) as Hs by by apply settled_slot.
  assert (forall a, State.GetEnergy s a = State.GetEnergy (rt_state evm) a) as He
    by (intros a; unfold State.GetEnergy, State.getAccount; by rewrite Ha).
  case_match; [|intros [=<-]; exact Hs].
  intros Hd. apply repo_put_state in Hd. rewrite Hd. eapply settled_trans; [exact Hs|].
  split; [|by apply flags_slot]. unfold same_funds. cbn. autorewrite with state.
  rewrite !He. rewrite decide_False by (vm_compute; discriminate). lia.
Qed.

Lemma fork10_settled : settles (EnforceTeslaFork10_Corrections ctx).
Proof.
  apply guarded_settles. intros evm evm' Hf. apply bind_ret_inv in Hf as (evm1 & E & [=<-]).
  apply fork10_move_settled in E. apply mark_settled. eapply settled_trans; [|exact E]. step_settled.
Qed.

Lemma fork12_settled : settles (EnforceTeslaFork12_Corrections ctx).
Proof. apply guarded_settles. intros evm evm' [=<-]. step_settled. Qed.
Lemma fork13_settled : settles (EnforceTeslaFork13_Corrections ctx).
Proof. apply guarded_settles. intros evm evm' [=<-]. step_settled. Qed.
Lemma fork14_settled : settles (EnforceTeslaFork14_Corrections ctx).
Proof. apply guarded_settles. intros evm evm' [=<-]. step_settled. Qed.
End Conserved.

(** ** The sequence *)

Section Sequence.
Context `{Hashing} `{BlockChain} `{Deployment} `{Machine} `{Context}.

Lemma corrections_settle : Forall (fun p => forall o, settles (p.2 o)) flagged_corrections.
Proof.
  unfold flagged_corrections. repeat apply Forall_cons_2; [..|by apply Forall_nil_2]; intros o; cbn [snd];
    eauto using fork1_settled, fork5_settled, fork6_settled, fork8_settled, fork9_settled, fork10_settled,
      fork12_settled, fork14_settled.
Qed.

(** The correction of fork 11 has nothing to do. *)
Definition fork11_idle (ctx : BlockContext.t) (evm : EVM.t) : Prop :=
  IsTeslaFork11 (BlockContext.Number ctx) = false \/ pending KeyEnforceTesla_Fork11_Correction evm = false.

Lemma fork11_idle_inert ctx evm : fork11_idle ctx evm -> EnforceTeslaFork11_Corrections ctx evm = Ret evm.
Proof.
  intros [Hn|Hp]; unfold EnforceTeslaFork11_Corrections; [by rewrite Hn, andb_false_r|].
  by rewrite Hp, andb_false_r.
Qed.
Lemma fork11_idle_kept ctx evm evm' :
  fork11_idle ctx evm -> settled (rt_state evm) (rt_state evm') -> fork11_idle ctx evm'.
Proof.
  intros [Hn|Hp] [_ Hk]; [by left|right]. unfold pending in *. apply Z.eqb_neq. apply Z.eqb_neq in Hp.
  apply Hk; [|done]. unfold written. apply (bool_decide_unpack _). by vm_compute.
Qed.

(** One correction of the sequence. *)
Ltac next Hs lemma Hr :=
  let r := fresh "evm" in let E := fresh "E" in let Hs' := fresh in
  apply bind_ret_inv in Hr as (r & E & Hr); apply lemma in E;
  pose proof (settled_trans _ _ _ Hs E) as Hs'; clear Hs E; rename Hs' into Hs.

Lemma sequence_settles engine ctx evm evm' : fork11_idle ctx evm ->
  enforce_corrections engine ctx evm = Ret evm' -> settled (rt_state evm) (rt_state evm').
Proof.
  intros Hi Hr. unfold enforce_corrections in Hr. pose proof (settled_refl (rt_state evm)) as Hs.
  next Hs (load_settled ctx) Hr. next Hs (fork1_settled engine ctx) Hr. next Hs (fork5_settled engine ctx) Hr.
  next Hs (fork6_settled engine ctx) Hr. next Hs (fork8_settled ctx) Hr. next Hs (fork9_settled ctx) Hr.
  next Hs (fork10_settled ctx) Hr.
  rewrite (fork11_idle_inert _ _ (fork11_idle_kept _ _ _ Hi Hs)) in Hr. cbn [mbind outcome_bind] in Hr.
  next Hs (fork12_settled ctx) Hr. next Hs (fork13_settled ctx) Hr.
  apply fork14_settled in Hr. by eapply settled_trans.
Qed.

(** C29: a correction of a fork has its effect once: whatever the registry and the
    block, it does nothing when its flag among the parameters is set, and when it
    does something its flag is set afterwards; so for the corrections the node
    makes itself and for that of fork 11, which calls contracts.  The correction
    of fork 13, which marks the flag of fork 12 in place of its own, does nothing
    more on the state it leaves.  None that the node makes itself clears a flag, or
    creates or destroys MTR or MTRG; nor does the whole sequence in front of a
    clause, the deployment of the native token contract included, before fork 11
    or once its correction has been made. *)
Theorem corrections_once_and_conserve :
  Forall (fun p => latched p.1 p.2 /\ forall o, settles (p.2 o)) flagged_corrections /\
  latched KeyEnforceTesla_Fork11_Correction (fun o : occasion => EnforceTeslaFork11_Corrections o.2) /\
  (forall ctx, runs_once (EnforceTeslaFork13_Corrections ctx) /\ settles (EnforceTeslaFork13_Corrections ctx)) /\
  (forall engine ctx evm evm', fork11_idle ctx evm ->
     enforce_corrections engine ctx evm = Ret evm' -> settled (rt_state evm) (rt_state evm')).
Proof.
  split_and!.
  - apply Forall_and. split; [apply corrections_latched|apply corrections_settle].
  - apply fork11_latched.
  - intros ctx. split; [apply fork13_once|apply fork13_settled].
  - apply sequence_settles.
Qed.
End Sequence.
