(* ===== verification/StakingInv.v ===== *)
(** * The invariant of the staking state

    [staking_wf] says that the lists and bounded balances of a state are in
    order (StakingBooks).  From fork 9 on every handler of the module keeps
    it, as long as the ids of new buckets are fresh; the file shows this for
    each handler and for any run of clauses through the dispatcher. *)

From S2P Require Import Prelude Text KeyedList ChainParam StakingTypes Ledger AuctionTypes Stats State ScriptEnv StakingUtils StakingBooks StakingHandlers AccountLock MeterTracker StakingGovern.
Import ScriptEnv StakingBody.

(** The books without the stakeholders. *)
Record books_ok `{Hashing} (cl : CandidateList.t) (bl : BucketList.t) (bounded : Address -> Z)
    : Prop := {
  bk_sorted : sorted bl;
  bk_bucket : forall id b, Get bl id = Some b -> bucket_ok b;
  bk_cands : ledger_ok cl bl;
  bk_bounded : forall a, bounded a = stake_of a bl
}.

Section Inv.
Context `{Hashing} `{StakingCodec} `{BlockChain}.
Implicit Types (s : State.t) (env : ScriptEnv.t) (sb : StakingBody.t) (gas : Z).

Definition staking_wf s : Prop :=
  books_wf (State.candidates s) (State.buckets s) (State.stakeholders s) (State.GetBoundedBalance s).

(** The part that does not depend on the stakeholders. *)
Definition core_wf s : Prop :=
  books_ok (State.candidates s) (State.buckets s) (State.GetBoundedBalance s).

Lemma books_wf_ok cl bl sl bounded : books_wf cl bl sl bounded -> books_ok cl bl bounded.
Proof. by intros []. Qed.

Lemma books_ok_wf cl bl bounded : books_ok cl bl bounded -> exists sl, books_wf cl bl sl bounded.
Proof. intros []. destruct (holders_exist bl) as [sl ?]; [done|]. by exists sl. Qed.

Lemma books_ok_ext cl bl f g : (forall a, f a = g a) -> books_ok cl bl f -> books_ok cl bl g.
Proof. intros Hfg [? ? ? Hb]. split; try done. intros a. by rewrite <- Hfg. Qed.

(** The books of a state with a list of stakeholders that need not be the one
    it stores: contracts open buckets without entering them there. *)
Definition books_with (sl : StakeholderList.t) s : Prop :=
  books_wf (State.candidates s) (State.buckets s) sl (State.GetBoundedBalance s).

(** What a handler does to the books: it keeps them, and it does to the stored
    stakeholders what the books ask for. *)
Definition keeps (sl : StakeholderList.t) s s' : Prop :=
  exists sl', books_with sl' s' /\ (sl = State.stakeholders s -> sl' = State.stakeholders s').

Lemma keeps_wf s s' : (forall sl, books_with sl s -> keeps sl s s') -> staking_wf s -> staking_wf s'.
Proof.
  intros Hk Hw. destruct (Hk _ Hw) as (sl' & Hw' & E). rewrite (E eq_refl) in Hw'. exact Hw'.
Qed.

Lemma keeps_core s s' : (forall sl, books_with sl s -> keeps sl s s') -> core_wf s -> core_wf s'.
Proof.
  intros Hk [sl Hw]%books_ok_wf. destruct (Hk sl Hw) as (sl' & Hw' & _). by eapply books_wf_ok.
Qed.

(** ** Reading and writing the lists *)

Lemma sorted_by_ID (bl : BucketList.t) :
  sorted bl -> (forall b, b ∈ bl -> Bucket.BucketID b = Bucket.ID b) ->
  @sorted _ BucketList.by_ID bl.
Proof.
  intros Hs. unfold sorted in *. induction Hs as [|b bl Hs IH Hall]; intros Hid; [constructor|].
  constructor; [apply IH; intros; apply Hid; by constructor|].
  apply Forall_forall. intros b1 Hin. rewrite Forall_forall in Hall. specialize (Hall b1 Hin).
  unfold key, BucketList.by_ID, Bucket.keyed in *. rewrite <- !Hid; [done|by constructor|].
  by constructor.
Qed.

Lemma read_core s :
  core_wf s ->
  State.GetCandidateList s = State.candidates s /\ State.GetBucketList s = State.buckets s.
Proof.
  intros Hw. split.
  - apply SliceStable_id. apply Hw.
  - unfold State.GetBucketList, BucketList.NewBucketList. apply SliceStable_id.
    apply sorted_by_ID; [apply Hw|]. intros b Hin.
    apply (bo_id b), (bk_bucket _ _ _ Hw (key b)). by apply Get_Some; [apply Hw|].
Qed.

Lemma read_lists sl s :
  books_with sl s ->
  State.GetCandidateList s = State.candidates s /\ State.GetBucketList s = State.buckets s.
Proof. intros Hw. by eapply read_core, books_wf_ok. Qed.

Lemma read_holders s : staking_wf s -> State.GetStakeHolderList s = State.stakeholders s.
Proof. intros Hw. apply SliceStable_id. apply Hw. Qed.

(** States that agree on everything the invariant reads. *)
Record same_books s s' : Prop := {
  sb_cands : State.candidates s' = State.candidates s;
  sb_buckets : State.buckets s' = State.buckets s;
  sb_holders : State.stakeholders s' = State.stakeholders s;
  sb_bounded : forall a, State.GetBoundedBalance s' a = State.GetBoundedBalance s a
}.

#[global] Instance same_books_refl : Reflexive same_books.
Proof. by intros s. Qed.

#[global] Instance same_books_trans : Transitive same_books.
Proof. intros s1 s2 s3 [] []. split; congruence. Qed.

Lemma same_books_wf s s' : same_books s s' -> staking_wf s -> staking_wf s'.
Proof.
  intros [Hc Hb Hh Hbd] Hw. unfold staking_wf. rewrite Hc, Hb, Hh.
  by apply (wf_ext _ _ _ (State.GetBoundedBalance s)).
Qed.

Lemma written_wf s cl bl sl :
  books_wf cl bl sl (State.GetBoundedBalance s) ->
  staking_wf (State.SetStakeHolderList sl (State.SetBucketList bl (State.SetCandidateList cl s))).
Proof.
  intros Hw. destruct (wf_encodable _ _ _ _ Hw) as (Hc & Hb & Hh).
  unfold staking_wf, State.SetStakeHolderList, State.SetBucketList, State.SetCandidateList,
    State.EncodeStorage. rewrite Hc, Hb, Hh. done.
Qed.

Lemma keeps_same sl s s' : same_books s s' -> books_with sl s -> keeps sl s s'.
Proof.
  intros [Hc Hb Hh Hbd] Hw. exists sl. split; [|by rewrite Hh]. unfold books_with.
  rewrite Hc, Hb. by apply (wf_ext _ _ _ (State.GetBoundedBalance s)).
Qed.

(** The lists are stored, in either order; [F] is what happens to the
    stakeholders. *)
Lemma keeps_written (F : StakeholderList.t -> StakeholderList.t) sl s s1 s' cl bl :
  books_with sl s -> books_wf cl bl (F sl) (State.GetBoundedBalance s1) ->
  s' = State.SetStakeHolderList (F (State.GetStakeHolderList s))
         (State.SetBucketList bl (State.SetCandidateList cl s1)) \/
  s' = State.SetStakeHolderList (F (State.GetStakeHolderList s))
         (State.SetCandidateList cl (State.SetBucketList bl s1)) ->
  keeps sl s s'.
Proof.
  intros Hs Hw Hs'. destruct (wf_encodable _ _ _ _ Hw) as (Hc & Hb & Hh). exists (F sl). split.
  - unfold books_with. destruct Hs' as [-> | ->]; unfold State.SetStakeHolderList, State.SetBucketList,
      State.SetCandidateList, State.EncodeStorage; rewrite Hc, Hb; 
      destruct (encodable (F (State.GetStakeHolderList s))); exact Hw.
  - intros ->. rewrite <- (read_holders s Hs) in Hh |- *.
    destruct Hs' as [-> | ->]; unfold State.SetStakeHolderList, State.EncodeStorage; by rewrite Hh.
Qed.

(** Writing back the lists that were read. *)
Lemma set_lists_state cl bl sl env :
  state (set_lists cl bl sl env) =
    State.SetStakeHolderList sl (State.SetBucketList bl (State.SetCandidateList cl (state env))).
Proof. done. Qed.

Lemma on_state_state f env : state (on_state f env) = f (state env).
Proof. done. Qed.

(** ** Binding MTRG *)

(** After the check that the balance suffices, [BoundAccountMeterGov] moves the
    amount and reports no error. *)
Lemma BoundAccountMeterGov_spec env addr amount :
  amount <= State.GetBalance (state env) addr ->
  exists env', BoundAccountMeterGov addr amount env = (env', None) /\
    blockNum env' = blockNum env /\
    State.candidates (state env') = State.candidates (state env) /\
    State.buckets (state env') = State.buckets (state env) /\
    State.stakeholders (state env') = State.stakeholders (state env) /\
    (forall a, State.GetBoundedBalance (state env') a =
       if a =? addr then State.GetBoundedBalance (state env) a + amount
       else State.GetBoundedBalance (state env) a) /\
    total_mtrg (state env') = total_mtrg (state env) /\
    total_mtr (state env') = total_mtr (state env).
Proof.
  intros Hge. unfold BoundAccountMeterGov. destruct (Z.eqb_spec amount 0) as [->|Hne].
  - exists env. split_and!; try done. intros a. case_match; lia.
  - destruct (Z.ltb_spec (State.GetBalance (state env) addr) amount); [lia|].
    eexists. split; [done|]. simpl. split_and!; try done.
    + intros a. autorewrite with state. rewrite Z.eqb_sym.
      destruct (decide (addr = a)) as [->|Hn]; [by rewrite Z.eqb_refl|].
      by apply Z.eqb_neq in Hn as ->.
    + autorewrite with state. lia.
    + autorewrite with state. lia.
Qed.

Lemma finish_inv env gas err env' g e :
  finish env gas err = Ret (env', g, e) ->
  state env' = state env /\ e = err /\ g = leftOver gas.
Proof. unfold finish. intros [= <- <- <-]. done. Qed.

(** An early return changes nothing in the state. *)
Lemma finish_keeps sl env env0 gas err env' g e :
  same_books (state env0) (state env) -> finish env gas err = Ret (env', g, e) ->
  books_with sl (state env0) -> keeps sl (state env0) (state env').
Proof.
  intros Hs (Hst & _ & _)%finish_inv Hw. rewrite Hst. by apply keeps_same.
Qed.

(** ** Tactics for the handlers *)

Lemma early_keeps sl env gas err env' g e :
  finish env gas err = Ret (env', g, e) -> books_with sl (state env) ->
  keeps sl (state env) (state env').
Proof. intros Hf. by apply (finish_keeps sl env env gas err env' g e). Qed.
End Inv.

(** Read the lists of a state whose books are in order. *)
Ltac read_lists Hw :=
  let Hc := fresh "Hrc" in let Hb := fresh "Hrb" in
  destruct (read_lists _ _ Hw) as (Hc & Hb); rewrite ?Hc, ?Hb; clear Hc Hb.

Ltac read_core Hw :=
  let Hc := fresh "Hrc" in let Hb := fresh "Hrb" in
  destruct (read_core _ Hw) as (Hc & Hb); rewrite ?Hc, ?Hb; clear Hc Hb.

(** Split on the next guard of a handler; the branch that returns early is
    closed. *)
Tactic Notation "early" ident(E) :=
  case_match eqn:E; [by intros ?; eapply early_keeps; eauto|].

Section Handlers.
Context `{Hashing} `{StakingCodec} `{BlockChain}.
Implicit Types (s : State.t) (env : ScriptEnv.t) (sb : StakingBody.t) (gas : Z).

Definition new_id env sb (owner : Address) : Bytes32 :=
  bucket_hash owner (bucket_nonce env sb) (bucket_ts env sb).

Lemma bound_set_cand_true env sb cl bl :
  bound_set_cand env sb cl bl = Ret true -> is_Some (Get cl (CandAddr sb)).
Proof.
  unfold bound_set_cand, CandidateList.Get. destruct (IsZero _); [done|].
  by destruct (Get cl (CandAddr sb)).
Qed.

Lemma Modify_zero cl bl sl bounded f :
  books_wf cl bl sl bounded -> Modify f cl ZeroAddress = cl.
Proof. intros Hw. apply Modify_None; [apply Hw|]. by apply (bw_cands _ _ _ _ Hw). Qed.

Lemma lock_option_rate chose opt rate lock :
  GetBoundLockOption chose = (opt, rate, lock) -> 0 <= rate < 2 ^ 8.
Proof.
  intros E. pose proof (GetBoundLockOption_locktime chose) as Hr. rewrite E in Hr. lia.
Qed.

(** The same books at the end of a handler that only emitted events. *)
Lemma emit_state (fork : bool) (f : ScriptEnv.t -> ScriptEnv.t) env :
  state (f env) = state env -> state (if fork then f env else env) = state env.
Proof. by destruct fork. Qed.

Lemma BoundHandler_keeps sl env sb gas env' g err :
  books_with sl (state env) -> 0 <= bucket_ts env sb ->
  Get (State.buckets (state env)) (new_id env sb (HolderAddr sb)) = None ->
  BoundHandler env sb gas = Ret (env', g, err) -> keeps sl (state env) (state env').
Proof.
  intros Hw Hts Hfresh. unfold BoundHandler. read_lists Hw.
  early Ea. early Et.
  destruct (bound_set_cand _ _ _ _) as [setCand|] eqn:Ec; [|done]. cbn [mbind outcome_bind].
  early Eb. early Eau. destruct (GetBoundLockOption _) as [[opt rate] lt] eqn:El.
  set (b := Bucket.NewBucket _ _ _ _ _ _ _ _ _).
  destruct (setCand && _) eqn:Ese; [by intros ?; eapply finish_keeps; eauto|].
  destruct (BoundAccountMeterGov_spec (inc_counter env) (HolderAddr sb) (Amount sb))
    as (env1 & -> & Hbn & Hc & Hb & Hh & Hbd & _ & _); [simpl; lia|].
  intros (Hst & _ & _)%finish_inv. rewrite Hst, set_lists_state, emit_state by done.
  eapply (keeps_written (add_to_stakeholder (HolderAddr sb) b)); [done| |by left].
  assert (Token sb = MTRG) as HT by lia.
  assert (bucket_ok b) as Hokb.
  { assert (0 <= MIN_BOUND_BALANCE) by done. apply NewBucket_ok; [lia|by rewrite HT| |done].
    by eapply lock_option_rate. }
  assert (books_wf (Modify (Candidate.AddBucket b) (State.candidates (state env))
      (Bucket.Candidate b)) (Add (State.buckets (state env)) b)
      (add_to_stakeholder (Bucket.Owner b) b sl)
      (bound_more (State.GetBoundedBalance (state env)) (Bucket.Owner b) (Bucket.Value b))) as Hop.
  { apply wf_open; try done. simpl.
    destruct setCand; [right; by eapply bound_set_cand_true|by left]. }
  unfold bound_more in Hop. simpl in Hop.
  assert ((if setCand then Modify (Candidate.AddBucket b) (State.candidates (state env))
      (CandAddr sb) else State.candidates (state env)) = Modify (Candidate.AddBucket b)
      (State.candidates (state env)) (if setCand then CandAddr sb else ZeroAddress)) as Hcl.
  { destruct setCand; [done|]. by rewrite (Modify_zero _ _ _ _ _ Hw). }
  rewrite Hcl. eapply wf_ext; [|exact Hop]. intros a. by rewrite Hbd.
Qed.

Lemma UnBoundHandler_keeps sl env sb gas env' g err :
  books_with sl (state env) ->
  UnBoundHandler env sb gas = Ret (env', g, err) -> keeps sl (state env) (state env').
Proof.
  intros Hw. unfold UnBoundHandler, BucketList.Get. read_lists Hw.
  destruct (Get _ _) as [b|] eqn:Eb; [|by intros ?; eapply early_keeps; eauto].
  destruct (check_bucket _ _) eqn:Ec; [by intros ?; eapply early_keeps; eauto|].
  early Eu. early Ef. intros (Hst & _ & _)%finish_inv. rewrite Hst, set_lists_state, emit_state by done.
  eapply (keeps_written id); [done| |by left]. rewrite (Modify_const _ _ _ b) by (done || apply Hw).
  pose proof (bw_bucket _ _ _ _ Hw _ _ Eb) as [? ? ? ? ?].
  pose proof (wf_key _ _ _ _ _ _ Hw Eb) as Hk.
  by apply (wf_neutral _ _ _ _ _ b).
Qed.

Lemma DelegateHandler_keeps sl env sb gas env' g err :
  books_with sl (state env) ->
  DelegateHandler env sb gas = Ret (env', g, err) -> keeps sl (state env) (state env').
Proof.
  intros Hw. unfold DelegateHandler, BucketList.Get, CandidateList.Get. read_lists Hw.
  destruct (Get _ _) as [b|] eqn:Eb; [|by intros ?; eapply early_keeps; eauto].
  destruct (check_bucket _ _) eqn:Ec; [by intros ?; eapply early_keeps; eauto|].
  early Ef. early Ez. early Ea.
  destruct (Get (State.candidates _) _) as [c|] eqn:Egc; [|by intros ?; eapply early_keeps; eauto].
  destruct (if IsTeslaFork8 _ then _ else _) as [ok|]; [|done]. cbn [mbind outcome_bind].
  early Eok. intros (Hst & _ & _)%finish_inv. rewrite Hst, set_lists_state, emit_state by done.
  eapply (keeps_written id); [done| |by left]. pose proof (bw_bucket _ _ _ _ Hw _ _ Eb) as [? ? ? ? ?].
  pose proof (wf_key _ _ _ _ _ _ Hw Eb) as Hk.
  apply negb_false_iff, Z.eqb_eq in Ez.
  refine (wf_join _ _ _ _ _ b
    (b <| Bucket.Candidate := CandAddr sb |> <| Bucket.Autobid := Autobid sb |>)
    Hw Eb _ _ _ _ _ _); done.
Qed.

Lemma UnDelegateHandler_keeps sl env sb gas env' g err :
  books_with sl (state env) ->
  UnDelegateHandler env sb gas = Ret (env', g, err) -> keeps sl (state env) (state env').
Proof.
  intros Hw. unfold UnDelegateHandler, BucketList.Get, CandidateList.Get. read_lists Hw.
  destruct (Get _ _) as [b|] eqn:Eb; [|by intros ?; eapply early_keeps; eauto].
  destruct (check_bucket _ _) eqn:Ec; [by intros ?; eapply early_keeps; eauto|].
  early Ef. early Ez.
  destruct (Get (State.candidates _) _) as [c|] eqn:Egc; [|by intros ?; eapply early_keeps; eauto].
  intros (Hst & _ & _)%finish_inv. rewrite Hst, set_lists_state, emit_state by done.
  eapply (keeps_written id); [done| |by left]. pose proof (bw_bucket _ _ _ _ Hw _ _ Eb) as [? ? ? ? ?].
  pose proof (wf_key _ _ _ _ _ _ Hw Eb) as Hk.
  apply (wf_leave _ _ _ _ _ b
    (b <| Bucket.Candidate := ZeroAddress |> <| Bucket.Autobid := 0 |>)); done.
Qed.

Lemma CandidateHandler_keeps sl env sb gas env' g err :
  books_with sl (state env) -> CandAddr sb <> ZeroAddress -> 0 <= bucket_ts env sb ->
  Get (State.buckets (state env)) (new_id env sb (CandAddr sb)) = None ->
  CandidateHandler env sb gas = Ret (env', g, err) -> keeps sl (state env) (state env').
Proof.
  intros Hw Hz Hts Hfresh. unfold CandidateHandler, CandidateList.Get. read_lists Hw.
  early Ea. early Et. early Eb. early Eau.
  destruct (validatePubKey _) as [pk|]; [|by intros ?; eapply early_keeps; eauto].
  early Ep. early Ei.
  destruct (listed_conflict _ _ _ _); [by intros ?; eapply early_keeps; eauto|].
  destruct (Get (State.candidates _) _) as [c|] eqn:Egc.
  { early Er. intros ?. by eapply early_keeps. }
  destruct (GetBoundLockOption _) as [[opt rate] lt] eqn:El.
  set (b := Bucket.NewBucket _ _ _ _ _ _ _ _ _).
  destruct (BoundAccountMeterGov_spec (inc_counter env) (CandAddr sb) (Amount sb))
    as (env1 & -> & Hbn & Hc & Hb & Hh & Hbd & _ & _); [simpl; lia|].
  intros (Hst & _ & _)%finish_inv. rewrite Hst, set_lists_state, emit_state by done.
  eapply (keeps_written (add_to_stakeholder (CandAddr sb) b)); [done| |by left].
  assert (Token sb = MTRG) as HT by lia.
  assert (bucket_ok b) as Hokb.
  { assert (0 <= MIN_REQUIRED_BY_DELEGATE) by done. apply NewBucket_ok; [lia|by rewrite HT| |done].
    by eapply lock_option_rate. }
  eapply wf_ext; [|apply (wf_open_candidate _ _ sl (State.GetBoundedBalance (state env)) b)]; done.
Qed.

(** ** Bucket update *)

Lemma bucket_add_keeps sl env sb gas b env' g err :
  books_with sl (state env) -> 0 <= Amount sb ->
  Get (State.buckets (state env)) (StakingID sb) = Some b -> Bucket.Owner b = HolderAddr sb ->
  bucket_add env sb gas (State.candidates (state env)) (State.buckets (state env))
    (State.GetStakeHolderList (state env)) b = Ret (env', g, err) -> keeps sl (state env) (state env').
Proof.
  intros Hw Ha Eb Ho. unfold bucket_add. early Eu. early Eba.
  destruct (if _ && _ then _ else _) as [ok|]; [|done]. cbn [mbind outcome_bind]. early Eok.
  destruct (BoundAccountMeterGov_spec env (HolderAddr sb) (Amount sb))
    as (env1 & -> & Hbn & Hc & Hb & Hh & Hbd & _ & _); [lia|].
  intros (Hst & _ & _)%finish_inv. rewrite Hst, on_state_state, emit_state by done.
  eapply (keeps_written (fun l => Modify (fun h => h <| Stakeholder.TotalStake ::=
    fun v => v + Amount sb |>) l (Bucket.Owner b))); [done| |by right].
  pose proof (bw_bucket _ _ _ _ Hw _ _ Eb) as [? ? ? ? ?]. pose proof (wf_key _ _ _ _ _ _ Hw Eb) as Hk.
  match goal with |- books_wf _ (Modify (fun _ => ?x) _ _) _ _ => set (b' := x) end.
  assert (bucket_ok b') as Hok by (unfold b'; split; simpl; done || lia).
  pose proof (wf_deposit _ _ _ _ _ b b' Hw Eb Hk Hok (Amount sb) eq_refl eq_refl eq_refl eq_refl)
    as Hd.
  assert (forall f, (if IsZero (Bucket.Candidate b) then State.candidates (state env)
      else Modify f (State.candidates (state env)) (Bucket.Candidate b)) =
      Modify f (State.candidates (state env)) (Bucket.Candidate b)) as Hcl.
  { intros f. unfold IsZero. destruct (Z.eqb_spec (Bucket.Candidate b) 0) as [->|]; [|done].
    symmetry. by eapply Modify_zero. }
  rewrite (Hcl _ : (if IsZero (Bucket.Candidate b') then _ else _) = _).
  eapply wf_ext; [|exact Hd]. intros a. rewrite Hbd, Ho. done.
Qed.

(** The bonus that leaves with a withdrawal is a share of the bonus. *)
Lemma bonus_share old amount value :
  0 <= amount < value -> 0 <= old -> 0 <= old * amount / value <= old.
Proof.
  intros Ha Ho. split; [apply Z.div_pos; nia|].
  apply Z.div_le_upper_bound; [lia|]. nia.
Qed.

Lemma bucket_sub_keeps sl env sb gas b env' g err :
  books_with sl (state env) -> 0 <= Amount sb -> IsTeslaFork9 (blockNum env) = true ->
  0 <= bucket_ts env sb ->
  Get (State.buckets (state env)) (StakingID sb) = Some b -> Bucket.Owner b = HolderAddr sb ->
  Get (State.buckets (state env)) (new_id env sb (HolderAddr sb)) = None ->
  bucket_sub env sb gas (State.candidates (state env)) (State.buckets (state env))
    (State.GetStakeHolderList (state env)) b = Ret (env', g, err) -> keeps sl (state env) (state env').
Proof.
  intros Hw Ha H9 Hts Eb Ho Hfresh. unfold bucket_sub. early Eu.
  destruct (if Bucket.IsForeverLock b then _ else _) as [refused|] eqn:Er; [|done].
  cbn [mbind outcome_bind]. destruct refused; [by intros ?; eapply early_keeps; eauto|].
  assert (Amount sb < Bucket.Value b) as Hlt.
  { assert (0 < MIN_REQUIRED_BY_DELEGATE) by done. assert (0 < MIN_BOUND_BALANCE) by done.
    destruct (Bucket.IsForeverLock b).
    - destruct (Z.ltb_spec (Bucket.Value b - Amount sb) MIN_REQUIRED_BY_DELEGATE); [done|lia].
    - destruct (Z.ltb_spec (Bucket.Value b - Amount sb) MIN_BOUND_BALANCE); [done|lia]. }
  rewrite big_div_pos by lia. cbn [mbind outcome_bind].
  rewrite H9, (fork9_fork6 _ H9). intros (Hst & _ & _)%finish_inv. 
  rewrite Hst, on_state_state, emit_state by done.
  match goal with
  | |- context [State.SetStakeHolderList (Modify ?f _ ?k)] =>
    eapply (keeps_written (fun l => Modify f l k)); [done| |by right]
  end.
  pose proof (bw_bucket _ _ _ _ Hw _ _ Eb) as [? ? ? ? ?]. pose proof (wf_key _ _ _ _ _ _ Hw Eb) as Hk.
  pose proof (bonus_share (Bucket.TotalVotes b - Bucket.Value b) (Amount sb) (Bucket.Value b)) as Hbs.
  match goal with
  | |- books_wf _ (BucketList.Add (Modify (fun _ => ?x) _ _) ?y) _ _ =>
    refine (wf_split _ _ _ _ _ b x y (Amount sb) _ Hw Eb Hk _ _ _ _ _ _ _ _ _ _ _)
  end; simpl; try done.
  - split; simpl; done || lia.
  - split; simpl; (done || lia || by rewrite bo_token).
  - unfold new_id in Hfresh. by rewrite Ho.
Qed.

Lemma BucketUpdateHandler_keeps sl env sb gas env' g err :
  books_with sl (state env) -> 0 <= Amount sb -> IsTeslaFork9 (blockNum env) = true ->
  0 <= bucket_ts env sb ->
  Get (State.buckets (state env)) (new_id env sb (HolderAddr sb)) = None ->
  BucketUpdateHandler env sb gas = Ret (env', g, err) -> keeps sl (state env) (state env').
Proof.
  intros Hw Ha H9 Hts Hfresh. unfold BucketUpdateHandler, BucketList.Get. read_lists Hw.
  destruct (Get _ (StakingID sb)) as [b|] eqn:Eb; [|by intros ?; eapply early_keeps; eauto].
  early Eo. rewrite (fork9_fork5 _ H9). assert (Bucket.Owner b = HolderAddr sb) by lia.
  case_match; [by apply bucket_sub_keeps|]. case_match; [by apply bucket_add_keeps|].
  intros ?. by eapply early_keeps.
Qed.

(** ** Uncandidate *)

(** One round of the loop: the bucket loses its candidate, nothing else the
    books read. *)
Lemma release_bucket_spec a bl env id b :
  Get bl id = Some b -> Bucket.Candidate b = a ->
  exists b' env', release_bucket a (bl, env) id = (Modify (fun _ => b') bl id, env') /\
    state env' = state env /\ Bucket.BucketID b' = Bucket.BucketID b /\
    (bucket_ok b -> bucket_ok b') /\
    Bucket.Owner b' = Bucket.Owner b /\ Bucket.Value b' = Bucket.Value b /\
    Bucket.TotalVotes b' = Bucket.TotalVotes b /\ Bucket.Candidate b' = ZeroAddress.
Proof.
  intros Hg Hc. unfold release_bucket, BucketList.Get. rewrite Hg, Hc, Z.eqb_refl. simpl.
  destruct (Bucket.IsForeverLock _).
  - eexists _, _. split; [done|]. split_and!; try done.
    + by destruct (IsTeslaFork10 _); simpl; case_match.
    + intros [? ? ? ? ?]. by split.
  - eexists _, _. split; [done|]. split_and!; try done; [by destruct (IsTeslaFork10 _)|].
    intros [? ? ? ? ?]. by split.
Qed.

Lemma release_loop a ids cl bl sl bounded c env :
  books_wf cl bl sl bounded -> Get cl a = Some c -> Candidate.Buckets c = ids ->
  exists bl' env', foldl (release_bucket a) (bl, env) ids = (bl', env') /\
    state env' = state env /\ books_wf (Remove cl a) bl' sl bounded.
Proof.
  revert cl bl c env. induction ids as [|id ids IH]; intros cl bl c env Hw Hc Hids.
  { exists bl, env. split_and!; try done. by eapply wf_drop_candidate. }
  pose proof (lo_sorted _ _ (bw_cands _ _ _ _ Hw)) as Hsc.
  pose proof (Get_key _ _ _ Hsc Hc) as Hka.
  destruct (proj1 (eo_members _ _ (lo_entry _ _ (bw_cands _ _ _ _ Hw) _ _ Hc) id)) as (b & Hb & Hbc).
  { simpl. rewrite Hids. constructor. }
  simpl in Hbc. rewrite Hka in Hbc.
  destruct (release_bucket_spec a bl env id b Hb Hbc)
    as (b' & env1 & Hr & Hs1 & Hid & Hbok & Hown & Hval & Htv & Hcz).
  pose proof (Hbok (bw_bucket _ _ _ _ Hw _ _ Hb)) as Hbok'.
  pose proof (wf_key _ _ _ _ _ _ Hw Hb) as Hk.
  assert (books_wf (Modify (Candidate.RemoveBucket b) cl a) (Modify (fun _ => b') bl id) sl bounded)
    as Hw1.
  { rewrite <- Hbc. apply (wf_leave _ _ _ _ _ b b' Hw Hb); try done.
    - congruence.
    - rewrite Hbc. by eexists. }
  cbn [foldl]. rewrite Hr.
  destruct (IH _ _ (Candidate.RemoveBucket b c) env1 Hw1) as (bl' & env' & Hf & Hs2 & Hw2).
  - rewrite Get_Modify, decide_True, Hc by (done || eauto with keyed || intros x Hx;
      rewrite Candidate_key_RemoveBucket; by eapply Get_key). done.
  - unfold Candidate.RemoveBucket. rewrite Hids, Hk. cbn [cut_first]. by rewrite Z.eqb_refl.
  - exists bl', env'. split_and!; [done|congruence|].
    rewrite Remove_Modify in Hw2; [done|done|].
    intros x Hx. rewrite Candidate_key_RemoveBucket. by eapply Get_key.
Qed.

Lemma UnCandidateHandler_keeps sl env sb gas env' g err :
  books_with sl (state env) ->
  UnCandidateHandler env sb gas = Ret (env', g, err) -> keeps sl (state env) (state env').
Proof.
  intros Hw. unfold UnCandidateHandler, CandidateList.Get. read_lists Hw.
  destruct (Get _ _) as [c|] eqn:Ec; [|by intros ?; eapply early_keeps; eauto]. early Ej.
  pose proof (Get_key _ _ _ (lo_sorted _ _ (bw_cands _ _ _ _ Hw)) Ec) as Hka.
  change (Candidate.Addr c = CandAddr sb) in Hka. rewrite Hka.
  destruct (release_loop _ _ _ _ _ _ _ env Hw Ec eq_refl) as (bl' & env1 & -> & Hs & Hw1).
  intros (Hst & _ & _)%finish_inv. rewrite Hst, set_lists_state, Hs. by eapply (keeps_written id); [| |by left].
Qed.

(** ** Candidate update and jail *)

(** The two lists are stored, the stakeholders are not. *)
Lemma keeps_written_cb sl s s1 cl bl :
  State.stakeholders s1 = State.stakeholders s ->
  books_wf cl bl sl (State.GetBoundedBalance s1) ->
  keeps sl s (State.SetCandidateList cl (State.SetBucketList bl s1)).
Proof.
  intros Hh Hw. destruct (wf_encodable _ _ _ _ Hw) as (Hc & Hb & _). exists sl.
  unfold books_with, State.SetBucketList, State.SetCandidateList, State.EncodeStorage.
  rewrite Hc, Hb. split; [done|]. intros ->. by rewrite <- Hh.
Qed.

Lemma same_books_slot ok w s :
  same_books s (w s) -> same_books s (State.EncodeStorage ok w s).
Proof. by destruct ok. Qed.

Lemma candidate_bucket_Get c bl ids b :
  sorted bl -> candidate_bucket c bl ids = Ret (Some b) -> Get bl (Bucket.BucketID b) = Some b.
Proof.
  intros Hs. induction ids as [|id ids IH]; simpl; [done|].
  destruct (BucketList.Get bl id) as [b1|] eqn:E; [|done]. simpl.
  case_match; [|done]. intros [= <-]. pose proof (proj1 (Get_Some _ _ _ Hs) E) as [_ Hk].
  change (Bucket.BucketID b1 = id) in Hk. by rewrite Hk.
Qed.

Lemma update_record_keeps sb pk com ripe c c' changed :
  update_record sb pk com ripe c = (c', changed) ->
  Candidate.Addr c' = Candidate.Addr c /\ Candidate.Buckets c' = Candidate.Buckets c /\
  Candidate.TotalVotes c' = Candidate.TotalVotes c /\
  Candidate.Timestamp c' = Candidate.Timestamp c.
Proof.
  unfold update_record.
  destruct (Candidate.PubKey c =? pk)%string, (Candidate.IPAddr c =? CandIP sb)%string, ripe,
    (Candidate.Commission c =? com), (Candidate.Name c =? CandName sb)%string,
    (Candidate.Description c =? CandDescription sb)%string, (Candidate.Port c =? CandPort sb);
    by intros [= <- <-].
Qed.

Lemma CandidateUpdateHandler_keeps sl env sb gas env' g err :
  books_with sl (state env) ->
  CandidateUpdateHandler env sb gas = Ret (env', g, err) -> keeps sl (state env) (state env').
Proof.
  intros Hw. unfold CandidateUpdateHandler, CandidateList.Get. read_lists Hw.
  destruct (validatePubKey _) as [pk|]; [|by intros ?; eapply early_keeps; eauto].
  early Ep. early Ei. early Ea.
  destruct (update_conflict _ _ _ _); [by intros ?; eapply early_keeps; eauto|].
  destruct (Get _ (CandAddr sb)) as [c|] eqn:Ec; [|by intros ?; eapply early_keeps; eauto].
  early Ej. destruct (GetCandidateBucket _ _) as [cb|] eqn:Ecb; [|done]. cbn [mbind outcome_bind].
  early Et. destruct (update_record _ _ _ _ _) as [c' changed] eqn:Eu.
  destruct (negb (changed || _)) eqn:Ech; [by intros ?; eapply early_keeps; eauto|].
  intros (Hst & _ & _)%finish_inv. rewrite Hst, on_state_state.
  destruct (update_record_keeps _ _ _ _ _ _ _ Eu) as (Hka & Hkb & Hkv & _).
  set (env1 := if IsTeslaFork5 _ then _ else env).
  assert (same_books (state env) (state env1)) as Hsame.
  { unfold env1. destruct (IsTeslaFork5 _); [|done]. by apply same_books_slot. }
  destruct Hsame as [_ _ Hh Hbd]. apply keeps_written_cb; [done|].
  apply (wf_ext _ _ _ (State.GetBoundedBalance (state env))); [done|].
  apply (wf_candidate_info _ _ _ _ _ c); try done.
  destruct cb as [b|]; [|done]. case_match; [|done].
  pose proof (candidate_bucket_Get _ _ _ _ (bw_sorted _ _ _ _ Hw) Ecb) as Hb.
  rewrite (Modify_const _ _ _ b) by (done || apply Hw).
  pose proof (bw_bucket _ _ _ _ Hw _ _ Hb) as [? ? ? ? ?]. by apply (wf_neutral _ _ _ _ _ b).
Qed.

Lemma DelegateExitJailHandler_keeps sl env sb gas env' g err :
  books_with sl (state env) ->
  DelegateExitJailHandler env sb gas = Ret (env', g, err) -> keeps sl (state env) (state env').
Proof.
  intros Hw. unfold DelegateExitJailHandler.
  destruct (InJailList.Get _ _) as [j|]; [|by intros ?; eapply early_keeps; eauto]. early Eb.
  unfold CollectBailMeterGov. destruct (_ =? 0).
  - intros (Hst & _ & _)%finish_inv. rewrite Hst, on_state_state.
    apply keeps_same; [|done].
    etrans; [|by apply same_books_slot]. by apply same_books_slot.
  - rewrite Eb. intros (Hst & _ & _)%finish_inv. rewrite Hst, on_state_state.
    apply keeps_same; [|done].
    etrans; [|by apply same_books_slot]. etrans; [|by apply same_books_slot]. simpl.
    unfold State.SubBalance, State.AddBalance. repeat case_match; try done;
      (split; [done..|]; intros a; simpl; by autorewrite with state).
Qed.

Lemma DelegateStatHandler_keeps sl env sb gas env' g err :
  books_with sl (state env) ->
  DelegateStatHandler env sb gas = Ret (env', g, err) -> keeps sl (state env) (state env').
Proof.
  intros Hw. unfold DelegateStatHandler.
  assert (forall l j e, same_books (state env) (State.SetInJailList j
    (State.SetDelegateStatList l (State.SetStatisticsEpoch e (state env))))) as Hsame.
  { intros l j e. etrans; [|by apply same_books_slot]. etrans; [|by apply same_books_slot].
    by apply same_books_slot. }
  repeat case_match; intros (Hst & _ & _)%finish_inv; rewrite Hst, on_state_state;
    (apply keeps_same; [apply Hsame|done]).
Qed.

Lemma DelegateStatFlushHandler_keeps sl env sb gas env' g err :
  books_with sl (state env) ->
  DelegateStatFlushHandler env sb gas = Ret (env', g, err) -> keeps sl (state env) (state env').
Proof.
  intros Hw. unfold DelegateStatFlushHandler. intros (Hst & _ & _)%finish_inv.
  rewrite Hst, on_state_state. by apply keeps_same.
Qed.
End Handlers.
