(* ===== verification/SampleRuns.v ===== *)
(** * Sample runs

    A few clauses run on the sample state, with the invariant of the states
    they reach; the witnesses start from these. *)

From S2P Require Import Prelude Text KeyedList ChainParam StakingTypes Ledger AuctionTypes Stats State ScriptEnv StakingUtils StakingBooks StakingHandlers AccountLock MeterTracker StakingGovern Samples StakingInv.
Import ScriptEnv StakingBody.

#[local] Existing Instance Sample.hashing.
#[local] Existing Instance Sample.codec.
#[local] Existing Instance Sample.chain.

Lemma funded_wf : staking_wf Sample.funded.
Proof.
  split; [constructor|done| | |].
  - split; [constructor|done|done|done].
  - split; [constructor|done|done|done].
  - intros a. unfold State.GetBoundedBalance, State.getAccount, Sample.funded. simpl.
    rewrite lookup_insert. case_decide; [done|]. rewrite lookup_singleton. by case_decide.
Qed.

(** Alice binds 500 MTRG. *)
Definition env_bound : ScriptEnv.t :=
  Sample.out (BoundHandler Sample.env0 Sample.bound_body 30000) Sample.env0.

Lemma env_bound_wf : staking_wf (state env_bound).
Proof.
  apply (keeps_wf (state Sample.env0)); [|exact funded_wf]. intros sl Hw.
  apply (BoundHandler_keeps sl Sample.env0 Sample.bound_body 30000 env_bound 14000 None Hw);
    vm_compute; (discriminate || reflexivity).
Qed.

(** Then unbinds it. *)
Definition unbound_body : StakingBody.t :=
  Sample.body OP_UNBOUND 0 Sample.alice ZeroAddress 1700000000003006 (500 * e18).
Definition env_unbound : ScriptEnv.t :=
  Sample.out (UnBoundHandler env_bound unbound_body 30000) Sample.env0.

Lemma env_unbound_wf : staking_wf (state env_unbound).
Proof.
  apply (keeps_wf (state env_bound)); [|exact env_bound_wf]. intros sl Hw.
  apply (UnBoundHandler_keeps sl env_bound unbound_body 30000 env_unbound 14000 None Hw).
  vm_compute. reflexivity.
Qed.

(** Bob stands as candidate with 2500 MTRG, after alice's first clause. *)
Definition candidate_body : StakingBody.t :=
  StakingBody.mk OP_CANDIDATE 0 0 Sample.bob Sample.bob "bob" "" "cGs=:::cGs=" "1.2.3.4" 8670 0
    (2500 * e18) MTRG 0 0 0 "".
Definition env_candidate : ScriptEnv.t :=
  Sample.out (CandidateHandler env_bound candidate_body 30000) Sample.env0.

Lemma env_candidate_wf : staking_wf (state env_candidate).
Proof.
  apply (keeps_wf (state env_bound)); [|exact env_bound_wf]. intros sl Hw.
  apply (CandidateHandler_keeps sl env_bound candidate_body 30000 env_candidate 14000 None Hw);
    vm_compute; (discriminate || reflexivity).
Qed.

(** And the threshold of the delegates is set. *)
Definition env_govern : ScriptEnv.t :=
  env_candidate <| state ::= State.Params_Set KeyMinRequiredByDelegate (300 * e18) |>.

Lemma Params_Set_books key v s : same_books s (State.Params_Set key v s).
Proof. unfold State.Params_Set, State.EncodeStorage. by destruct (is_uint v). Qed.

Lemma env_govern_wf : staking_wf (state env_govern).
Proof.
  apply (same_books_wf (state env_candidate)); [apply Params_Set_books|exact env_candidate_wf].
Qed.
