(* ===== verification/DelegateTheorems.v ===== *)
(** * The delegates of the next epoch

    What [calcDelegates] stores: exactly the candidates outside jail with
    enough votes, the strongest first, each with the shares of its voters.
    These are the delegates that fork 13's emission relies on. *)

From S2P Require Import Prelude Text KeyedList ChainParam StakingTypes Ledger AuctionTypes Stats State ScriptEnv StakingUtils StakingBooks StakingHandlers AccountLock MeterTracker StakingGovern Samples SupplyTheorems EmissionTheorems StakingInv SampleRuns.
Import ScriptEnv StakingBody.

(** ** Sorting *)

(** Insertion with a comparison that decides [R] sorts by [R]. *)
Section SortBy.
Context {A : Type} (less : A -> A -> bool) (R : A -> A -> Prop) `{!Transitive R}.
Context (Hyes : forall x y, less x y = true -> R x y) (Hno : forall x y, less x y = false -> R y x).

Lemma sift_by_sorted x l :
  StronglySorted (flip R) l -> StronglySorted (flip R) (sift_by less x l).
Proof using Type*.
  induction 1 as [|y l Hs IH Hall]; simpl; [repeat constructor|].
  rewrite Forall_forall in Hall. destruct (less x y) eqn:E.
  - constructor; [done|]. apply Forall_forall. intros z. rewrite sift_by_perm.
    intros [->|Hz]%elem_of_cons; [by apply Hyes|by apply Hall].
  - constructor; [constructor; [done|by apply Forall_forall]|]. apply Forall_forall.
    intros z [->|Hz]%elem_of_cons; [by apply Hno|].
    unfold flip. etrans; [by apply Hall|by apply Hno].
Qed.

Lemma reverse_sorted l : StronglySorted (flip R) l -> StronglySorted R (reverse l).
Proof using Type.
  clear Hyes Hno. induction 1 as [|x l Hs IH Hall]; [constructor|]. rewrite reverse_cons.
  assert (forall k, StronglySorted R k -> (forall y, y ∈ k -> R y x) -> StronglySorted R (k ++ [x]))
    as Hx.
  { induction k as [|y k IHk]; intros Hk Hy; [repeat constructor|].
    inversion Hk as [|? ? Hk1 Hk2]; subst. simpl. constructor.
    - apply IHk; [done|]. intros; apply Hy; by constructor.
    - rewrite Forall_forall in *. intros z [Hz| ->%list_elem_of_singleton]%elem_of_app; [auto|].
      apply Hy. constructor. }
  apply Hx; [done|]. intros y Hy. rewrite elem_of_reverse in Hy. rewrite Forall_forall in Hall. exact (Hall y Hy).
Qed.

Lemma sort_by_sorted l : StronglySorted R (sort_by less l).
Proof using Type*.
  unfold sort_by. apply reverse_sorted.
  enough (forall acc, StronglySorted (flip R) acc ->
    StronglySorted (flip R) (foldl (fun p x => sift_by less x p) acc l)) as Hx by apply Hx, SSorted_nil.
  induction l as [|x l IH]; intros acc Hacc; [done|]. by apply IH, sift_by_sorted.
Qed.
End SortBy.

(** ** The buckets of an entry *)

Lemma group_total_filter {E} {HK : Keyed E} {HL : @Ledger E HK} k (bl : BucketList.t) :
  group_total k bl = sum_of weigh (filter (fun b => group b = k) bl).
Proof.
  unfold group_total. induction bl as [|b bl IH]; [done|]. rewrite sum_of_cons, filter_cons, IH.
  unfold share. destruct (Z.eqb_spec (group b) k).
  - by rewrite decide_True.
  - by rewrite decide_False.
Qed.

Lemma omap_Get_keys (bl : BucketList.t) (ids : list Bytes32) :
  sorted bl -> (forall id, id ∈ ids -> is_Some (Get bl id)) -> key <$> omap (Get bl) ids = ids.
Proof.
  intros Hs. induction ids as [|id ids IH]; intros Hi; [done|].
  destruct (Hi id ltac:(constructor)) as [b Hb]. cbn [omap list_omap]. rewrite Hb, fmap_cons.
  rewrite IH by (intros; apply Hi; by constructor). by rewrite (Get_key _ _ _ Hs Hb).
Qed.

Lemma members_votes (bl : BucketList.t) (c : Candidate.t) :
  sorted bl -> entry_ok bl c ->
  sum_of Bucket.TotalVotes (omap (Get bl) (Candidate.Buckets c)) = Candidate.TotalVotes c /\
  length (omap (Get bl) (Candidate.Buckets c)) = length (Candidate.Buckets c).
Proof.
  intros Hs [Hnd Hm Ht]. simpl in *.
  assert (forall id, id ∈ Candidate.Buckets c -> is_Some (Get bl id)) as Hi.
  { intros id (b & Hb & _)%Hm. by eexists. }
  pose proof (omap_Get_keys bl _ Hs Hi) as Hk. split.
  - rewrite Ht, group_total_filter. apply sum_of_perm. apply NoDup_Permutation.
    + apply (NoDup_fmap_1 key). by rewrite Hk.
    + apply (NoDup_fmap_1 key), sorted_nodup_keys, sorted_filter, Hs.
    + intros b. rewrite list_elem_of_omap, list_elem_of_filter. split.
      * intros (id & Hid & Hb). apply Hm in Hid as (b' & Hb' & Hg).
        assert (b' = b) as -> by congruence. split; [done|]. by apply Get_Some in Hb as [? _].
      * intros [Hg Hin]. exists (key b). rewrite Hm. assert (Get bl (key b) = Some b) as Hb.
        { by apply Get_Some. } eauto.
  - rewrite <- Hk at 2. by rewrite length_fmap.
Qed.

(** ** The list of delegates *)

Section Delegates.
Context `{Hashing} `{StakingCodec} `{BlockChain} `{Emission}.
Implicit Types (env : ScriptEnv.t) (c : Candidate.t) (bl : BucketList.t) (jl : InJailList.t).

Definition eligible (minRequire : Z) jl c : Prop :=
  InJailList.Exist jl (Candidate.Addr c) = false /\ minRequire <= Candidate.TotalVotes c.

#[local] Instance eligible_dec minRequire jl c : Decision (eligible minRequire jl c).
Proof. unfold eligible. apply _. Defined.

Definition distributor (votes : Z) (b : Bucket.t) : Distributor.t :=
  Distributor.NewDistributor (Bucket.Owner b) (Bucket.Autobid b)
    (u64 (Z.abs (Bucket.TotalVotes b * 10 ^ 9 / votes))).

Definition to_delegate bl c : Delegate.t :=
  Delegate.mk (Candidate.Addr c) (Candidate.PubKey c) (Candidate.Name c) (Candidate.TotalVotes c)
    (Candidate.IPAddr c) (Candidate.Port c) (Candidate.Commission c)
    (distributor (Candidate.TotalVotes c) <$> omap (Get bl) (Candidate.Buckets c)).

Lemma dist_list_spec bl votes ids :
  0 < votes -> dist_list bl votes ids = Ret (distributor votes <$> omap (Get bl) ids).
Proof.
  intros Hv. induction ids as [|id ids IH]; [done|]. cbn [dist_list omap list_omap].
  unfold BucketList.Get. destruct (Get bl id) as [b|]; [|done].
  rewrite big_div_pos by done. cbn [mbind outcome_bind]. rewrite IH. done.
Qed.

Lemma calc_delegates_spec minRequire bl jl cl acc :
  0 < minRequire ->
  mfold (calc_delegate minRequire bl jl) acc cl =
    Ret (acc ++ (to_delegate bl <$> filter (eligible minRequire jl) cl)).
Proof.
  intros Hm. revert acc. induction cl as [|c cl IH]; intros acc.
  { by rewrite app_nil_r. }
  cbn [mfold]. rewrite filter_cons. unfold calc_delegate at 2.
  destruct (InJailList.Exist jl (Candidate.Addr c)) eqn:Ej.
  { cbn [mbind outcome_bind]. rewrite IH, decide_False; [done|]. intros [? _]. congruence. }
  destruct (Z.ltb_spec (Candidate.TotalVotes c) minRequire).
  { cbn [mbind outcome_bind]. rewrite IH, decide_False; [done|]. intros [_ ?]. lia. }
  rewrite dist_list_spec by lia. cbn [mbind outcome_bind].
  rewrite IH, decide_True by (split; [done|lia]). by rewrite fmap_cons, <- (assoc_L (++)).
Qed.

(** A delegate made from a candidate in order is as the emission needs it. *)
Lemma to_delegate_ok bl c :
  sorted bl -> (forall id b, Get bl id = Some b -> bucket_ok b) -> entry_ok bl c ->
  0 < Candidate.TotalVotes c -> 0 <= Candidate.Commission c <= 10 ^ 9 ->
  Z.of_nat (length (Candidate.Buckets c)) < 10 ^ 9 -> delegate_ok (to_delegate bl c).
Proof.
  intros Hs Hb He Hv Hc Hl. destruct (members_votes bl c Hs He) as [Hsum Hlen].
  set (bs := omap (Get bl) (Candidate.Buckets c)) in *.
  assert (forall b, b ∈ bs -> 0 <= Bucket.TotalVotes b) as Hn.
  { intros b (id & _ & Hg)%list_elem_of_omap. pose proof (bo_value _ (Hb _ _ Hg)). lia. }
  assert (forall b, b ∈ bs -> Distributor.Shares (distributor (Candidate.TotalVotes c) b)
    = 10 ^ 9 * Bucket.TotalVotes b / Candidate.TotalVotes c /\
    0 <= 10 ^ 9 * Bucket.TotalVotes b / Candidate.TotalVotes c <= 10 ^ 9) as Hsh.
  { intros b Hin. pose proof (Hn b Hin). pose proof (sum_of_le _ bs b Hn Hin) as Hle.
    assert (0 <= 10 ^ 9 * Bucket.TotalVotes b / Candidate.TotalVotes c <= 10 ^ 9) as Hr.
    { split; [apply Z.div_pos; lia|]. apply Z.div_le_upper_bound; lia. }
    split; [|done]. simpl. rewrite (Z.mul_comm _ (10 ^ 9)), Z.abs_eq, u64_small by lia. done. }
  split; simpl; fold bs.
  - done.
  - done.
  - intros x (b & -> & Hin)%list_elem_of_fmap. destruct (Hsh b Hin) as [-> ?]. lia.
  - intros Hne. rewrite sum_of_fmap, (sum_of_ext _ _ _ (fun b Hin => proj1 (Hsh b Hin))).
    pose proof (floor_shares Bucket.TotalVotes (10 ^ 9) (Candidate.TotalVotes c) bs Hv Hsum) as Hf.
    assert (bs <> []) as Hbs by (intros E; by rewrite E in Hne). specialize (Hf Hbs).
    rewrite Hlen in Hf. lia.
Qed.
End Delegates.

Lemma calcDelegates_spec `{Hashing} `{StakingCodec} `{BlockChain} `{Emission}
    env cl bl sl bounded jl :
  let minRequire := State.Params_Get (state env) KeyMinRequiredByDelegate in
  books_wf cl bl sl bounded -> 0 < minRequire ->
  (forall c, c ∈ cl -> 0 <= Candidate.Commission c <= 10 ^ 9 /\
     Z.of_nat (length (Candidate.Buckets c)) < 10 ^ 9) ->
  exists env', calcDelegates env bl cl jl = Ret env' /\
    let dl := State.delegates (state env') in
    (forall a v, (exists d, d ∈ dl /\ Delegate.Address_ d = a /\ Delegate.VotingPower d = v) <->
       exists c, Get cl a = Some c /\ eligible minRequire jl c /\ Candidate.TotalVotes c = v) /\
    NoDup (Delegate.Address_ <$> dl) /\
    StronglySorted (fun d d' => Delegate.VotingPower d' <= Delegate.VotingPower d) dl /\
    forall d, d ∈ dl -> delegate_ok d.
Proof.
  intros minRequire Hw Hm Hc. unfold calcDelegates. fold minRequire.
  rewrite calc_delegates_spec by done. cbn [mbind outcome_bind app].
  set (ds := to_delegate bl <$> _). pose proof (sort_by_perm delegate_before ds) as Hp.
  pose proof (lo_sorted _ _ (bw_cands _ _ _ _ Hw)) as Hs.
  assert (forall d, d ∈ ds -> delegate_ok d) as Hok.
  { intros d (c & -> & [[_ He] Hin]%list_elem_of_filter)%list_elem_of_fmap.
    destruct (Hc c Hin) as [? ?]. apply to_delegate_ok; try done; [apply Hw|apply Hw| |lia].
    apply (lo_entry _ _ (bw_cands _ _ _ _ Hw) (key c)). by apply Get_Some. }
  eexists. split; [done|].
  assert (State.delegates (state (on_state (State.SetDelegateList (sort_by delegate_before ds)) env))
    = sort_by delegate_before ds) as ->.
  { rewrite on_state_state. unfold State.SetDelegateList, State.EncodeStorage.
    replace (encodable (sort_by delegate_before ds)) with true; [done|]. symmetry.
    unfold encodable, rlp_list. apply forallb_forall. intros d Hd%list_elem_of_In.
    rewrite Hp in Hd. pose proof (do_votes _ (Hok d Hd)).
    unfold encodable, rlp_delegate, is_uint. lia. }
  split_and!.
  - intros a v. setoid_rewrite Hp. split.
    + intros (d & (c & -> & [He Hin]%list_elem_of_filter)%list_elem_of_fmap & <- & <-).
      exists c. split; [by apply Get_Some|done].
    + intros (c & [Hin <-]%Get_Some & He & <-); [|done]. exists (to_delegate bl c). split; [|done].
      apply list_elem_of_fmap_2. by apply list_elem_of_filter.
  - rewrite Hp. unfold ds. rewrite <- list_fmap_compose.
    by apply (sorted_nodup_keys (H := Candidate.keyed)), sorted_filter.
  - apply sort_by_sorted; [intros ???; lia|..]; intros x y; unfold delegate_before;
      destruct (Z.ltb_spec (Delegate.VotingPower y) (Delegate.VotingPower x)); try lia;
      destruct (Z.ltb_spec (Delegate.VotingPower x) (Delegate.VotingPower y)); done || lia.
  - intros d. rewrite Hp. apply Hok.
Qed.

(** On books in order, the computation of the next delegates returns, and
    stores exactly the candidates that are outside jail and have the required
    votes, once each, with their votes as voting power and the strongest
    first; each has a voter list whose shares are valid and not all zero, as
    the emission of fork 13 needs. *)
Theorem next_delegates_eligible `{Hashing} `{StakingCodec} `{BlockChain} `{Emission}
    env cl bl sl bounded jl :
  let minRequire := State.Params_Get (state env) KeyMinRequiredByDelegate in
  books_wf cl bl sl bounded -> 0 < minRequire ->
  (forall c, c ∈ cl -> 0 <= Candidate.Commission c <= 10 ^ 9 /\
     Z.of_nat (length (Candidate.Buckets c)) < 10 ^ 9) ->
  exists env', calcDelegates env bl cl jl = Ret env' /\
    let dl := State.delegates (state env') in
    (forall a v, (exists d, d ∈ dl /\ Delegate.Address_ d = a /\ Delegate.VotingPower d = v) <->
       exists c, Get cl a = Some c /\ eligible minRequire jl c /\ Candidate.TotalVotes c = v) /\
    NoDup (Delegate.Address_ <$> dl) /\
    StronglySorted (fun d d' => Delegate.VotingPower d' <= Delegate.VotingPower d) dl /\
    forall d, d ∈ dl -> delegate_ok d.
Proof. apply calcDelegates_spec. Qed.

Lemma next_delegates_eligible_witness :
  let s := state env_candidate in
  exists env', calcDelegates env_govern (State.buckets s) (State.candidates s) [] = Ret env' /\
    Delegate.Address_ <$> State.delegates (state env') = [Sample.bob] /\
    forall d, d ∈ State.delegates (state env') -> delegate_ok d.
Proof.
  intros s.
  destruct (@next_delegates_eligible Sample.hashing Sample.codec Sample.chain Sample.emission
    env_govern (State.candidates s) (State.buckets s) (State.stakeholders s)
    (State.GetBoundedBalance s) []) as (env' & Hr & _ & _ & _ & Hok).
  - exact env_candidate_wf.
  - vm_compute. reflexivity.
  - intros c Hc. vm_compute in Hc. apply list_elem_of_singleton in Hc as ->.
    vm_compute. split; [split|]; (discriminate || reflexivity).
  - exists env'. split; [exact Hr|]. split; [|exact Hok]. vm_compute in Hr.
    injection Hr as <-. vm_compute. reflexivity.
Defined.
