(* ===== verification/GovernInv.v ===== *)
(** * The governing handler keeps the books

    The loop that pays matured buckets back while it deletes them is shown to
    be a filter and a fold, which also shows that it ends; every payment keeps
    the books, and so does the accrual of bonus votes.  The rewards touch
    neither lists nor bounded balances. *)

From S2P Require Import Prelude Text KeyedList ChainParam StakingTypes Ledger AuctionTypes Stats State ScriptEnv StakingUtils StakingBooks StakingHandlers AccountLock MeterTracker StakingGovern StakingInv.
Import ScriptEnv StakingBody.

(** ** The delete-while-walking loop *)

Lemma Remove_lookup (bl : BucketList.t) i b :
  sorted bl -> bl !! i = Some b -> Remove bl (Bucket.BucketID b) = delete i bl.
Proof.
  intros Hs Hi. destruct (Remove_cases bl (Bucket.BucketID b) Hs) as [(j & x & Hj & Hk & _ & ->)|[Hn _]].
  - assert (i = j) as ->; [|done].
    destruct (decide (i < j)%nat) as [Hij|].
    { pose proof (sorted_lookup_lt _ _ _ _ _ Hs Hi Hj Hij) as Hlt.
      unfold key, Bucket.keyed in *. lia. }
    destruct (decide (j < i)%nat) as [Hji|]; [|lia].
    pose proof (sorted_lookup_lt _ _ _ _ _ Hs Hj Hi Hji) as Hlt.
    unfold key, Bucket.keyed in *. lia.
  - apply Get_None in Hn; [|done]. exfalso. apply Hn. apply list_elem_of_fmap.
    exists b. split; [done|]. by eapply list_elem_of_lookup_2.
Qed.

Section Govern.
Context `{Hashing} `{StakingCodec} `{BlockChain} `{Emission}.
Implicit Types (bl : BucketList.t) (k : books) (ts : Z) (env : ScriptEnv.t) (sb : StakingBody.t).

Lemma unbound_loop_from fuel ts i bl k :
  sorted bl -> (length bl - i < fuel)%nat ->
  unbound_loop fuel ts i bl k =
    Some (take i bl ++ filter (fun b => matured ts b = false) (drop i bl),
          foldl settle k (filter (fun b => matured ts b = true) (drop i bl))).
Proof.
  revert i bl k. induction fuel as [|fuel IH]; intros i bl k Hs Hf; [lia|].
  cbn [unbound_loop]. destruct (bl !! i) as [b|] eqn:Ei.
  - pose proof (lookup_lt_Some _ _ _ Ei) as Hlt. rewrite (drop_S bl b i Ei), !filter_cons.
    destruct (matured ts b) eqn:Em.
    + rewrite decide_False, decide_True by done. cbn [foldl]. unfold BucketList.Remove.
      rewrite IH; [|by apply Remove_sorted|].
      * rewrite (Remove_lookup _ i) by done. rewrite delete_take_drop.
        rewrite take_app_length' by (rewrite length_take; lia).
        by rewrite drop_app_length' by (rewrite length_take; lia).
      * rewrite (Remove_lookup _ i), length_delete by eauto. lia.
    + rewrite decide_True, decide_False by done. rewrite IH by (done || lia).
      rewrite (take_S_r _ _ b) by done. by rewrite <- (assoc_L (++)).
  - apply lookup_ge_None in Ei. rewrite take_ge, drop_ge by lia. simpl.
    by rewrite app_nil_r.
Qed.

Lemma unbound_loop_filter ts bl k :
  sorted bl ->
  unbound_loop (S (length bl)) ts 0 bl k =
    Some (filter (fun b => matured ts b = false) bl,
          foldl settle k (filter (fun b => matured ts b = true) bl)).
Proof. intros Hs. rewrite unbound_loop_from by (done || lia). by rewrite drop_0. Qed.

(** ** Paying a bucket back *)

Definition kbooks_wf k bl : Prop :=
  books_wf (b_cands k) bl (b_holders k) (State.GetBoundedBalance (state (b_env k))).

Lemma UnboundAccountMeterGov_spec env addr amount :
  amount <= State.GetBoundedBalance (state env) addr ->
  exists env', UnboundAccountMeterGov addr amount env = (env', None) /\
    blockNum env' = blockNum env /\ blockTime env' = blockTime env /\
    (forall a, State.GetBoundedBalance (state env') a =
       if a =? addr then State.GetBoundedBalance (state env) a - amount
       else State.GetBoundedBalance (state env) a) /\
    (forall a, State.GetBalance (state env') a =
       if a =? addr then State.GetBalance (state env) a + amount
       else State.GetBalance (state env) a) /\
    total_mtrg (state env') = total_mtrg (state env) /\
    total_mtr (state env') = total_mtr (state env).
Proof.
  intros Hge. unfold UnboundAccountMeterGov. destruct (Z.eqb_spec amount 0) as [->|Hne].
  - exists env. split_and!; try done; intros a; case_match; lia.
  - destruct (Z.ltb_spec (State.GetBoundedBalance (state env) addr) amount); [lia|].
    eexists. split; [done|]. simpl. split_and!; try done.
    1,2: intros a; autorewrite with state; rewrite Z.eqb_sym;
      destruct (decide (addr = a)) as [->|Hn]; [by rewrite Z.eqb_refl|];
      by apply Z.eqb_neq in Hn as ->.
    all: autorewrite with state; lia.
Qed.

Section Settle.
Context (k : books) (bl : BucketList.t) (id : Bytes32) (b : Bucket.t).
Context (Hw : kbooks_wf k bl) (Hb : Get bl id = Some b).

Lemma drop_candidate_ok : ledger_ok (drop_from_candidate b (b_cands k)) (Remove bl id).
Proof using Hw Hb.
  pose proof Hw as [Hs _ Hcl _ _]. unfold drop_from_candidate, CandidateList.Get.
  pose proof (wf_key _ _ _ _ _ _ Hw Hb) as Hk.
  destruct (Get (b_cands k) (Bucket.Candidate b)) as [c|] eqn:Ec.
  - destruct (RemoveBucket_spec _ _ _ _ _ _ Hw Hb c b Ec Hk eq_refl) as (Hkc & Hp & Ht).
    destruct (Candidate.Buckets (Candidate.RemoveBucket b c)) as [|i l] eqn:El.
    + pose proof (Get_key _ _ _ (lo_sorted _ _ Hcl) Ec) as Hka.
      change (Candidate.Addr (Candidate.RemoveBucket b c) = key c) in Hkc.
      unfold CandidateList.Remove. rewrite Hkc, Hka.
      by apply (ledger_expel_last (HL := candidate_ledger) bl (b_cands k) id b Hs Hcl Hb c).
    + pose proof (ledger_expel (HL := candidate_ledger) bl (b_cands k) id b Hs Hcl Hb c
        (Candidate.RemoveBucket b c) Ec Hkc) as Hl.
      apply Hl; [|done]. simpl. by rewrite El.
  - destruct (lo_covered _ _ Hcl id b Hb) as [Hx|[c Hc]]; [|simpl in Hc; congruence].
    by apply (ledger_expel_exempt (HL := candidate_ledger) bl (b_cands k) id b).
Qed.

Lemma stake_ge h :
  Get (b_holders k) (Bucket.Owner b) = Some h -> Bucket.Value b <= Stakeholder.TotalStake h.
Proof using Hw Hb.
  intros Hg. pose proof (lo_entry _ _ (bw_holders _ _ _ _ Hw) _ _ Hg) as [_ _ Ht].
  simpl in Ht. rewrite Ht. pose proof (lo_sorted _ _ (bw_holders _ _ _ _ Hw)) as Hs.
  rewrite (Get_key _ _ _ Hs Hg).
  pose proof (share_same (E := Stakeholder.t) (Bucket.Owner b) b eq_refl) as Hsh.
  simpl in Hsh. rewrite <- Hsh. apply (share_le_total bl id); [apply Hw|done|].
  intros b1 Hin. pose proof (bo_value _ (wf_elem _ _ _ _ _ Hw Hin)). simpl. lia.
Qed.

Lemma drop_holder_ok : ledger_ok (drop_from_holder b (b_holders k)) (Remove bl id).
Proof using Hw Hb.
  pose proof Hw as [Hs _ _ Hsl _]. unfold drop_from_holder, StakeholderList.Get.
  pose proof (wf_key _ _ _ _ _ _ Hw Hb) as Hk.
  destruct (lo_covered _ _ Hsl id b Hb) as [[]|[h Hh]]. simpl in Hh. rewrite Hh.
  pose proof (stake_ge h Hh) as Hge.
  pose proof (Get_key _ _ _ (lo_sorted _ _ Hsl) Hh) as Hka.
  change (Stakeholder.Holder h = Bucket.Owner b) in Hka.
  assert (id ∈ Stakeholder.Buckets h) as Hin.
  { apply (eo_members _ _ (lo_entry _ _ Hsl _ _ Hh)). by exists b. }
  destruct (cut_first_elem _ _ Hin) as [rest Hcut].
  pose proof (cut_first_Some _ _ _ Hcut) as Hp.
  unfold Stakeholder.RemoveBucket. rewrite Hk, Hcut. cbn zeta.
  destruct (Z.ltb_spec (Stakeholder.TotalStake h - Bucket.Value b) 0); [lia|]. simpl.
  destruct rest as [|i l].
  - unfold StakeholderList.Remove. rewrite Hka.
    by apply (ledger_expel_last (HL := stakeholder_ledger) bl (b_holders k) id b Hs Hsl Hb h).
  - refine (ledger_expel (HL := stakeholder_ledger) bl (b_holders k) id b Hs Hsl Hb h
      _ Hh _ _ _); done.
Qed.

Lemma settle_ok :
  kbooks_wf (settle k b) (Remove bl id) /\ b_err (settle k b) = None /\
  blockNum (b_env (settle k b)) = blockNum (b_env k) /\
  (forall a, State.GetBalance (state (b_env (settle k b))) a =
     if a =? Bucket.Owner b then State.GetBalance (state (b_env k)) a + Bucket.Value b
     else State.GetBalance (state (b_env k)) a) /\
  total_mtrg (state (b_env (settle k b))) = total_mtrg (state (b_env k)) /\
  total_mtr (state (b_env (settle k b))) = total_mtr (state (b_env k)).
Proof using Hw Hb.
  pose proof drop_candidate_ok as Hcl. pose proof drop_holder_ok as Hsl.
  pose proof Hw as [Hs Hbk _ _ Hbd]. unfold settle, unbound_value.
  rewrite (bo_token _ (Hbk _ _ Hb)). cbn [Z.eqb MTRG MTR].
  destruct (UnboundAccountMeterGov_spec (b_env k) (Bucket.Owner b) (Bucket.Value b))
    as (env' & -> & Hn & _ & Hbd' & Hba & Hg & Hm).
  { rewrite Hbd. unfold stake_of.
    pose proof (share_same (E := Stakeholder.t) (Bucket.Owner b) b eq_refl) as Hsh.
    simpl in Hsh. rewrite <- Hsh at 1. apply (share_le_total bl id); [done|done|].
    intros b1 Hin. pose proof (bo_value _ (wf_elem _ _ _ _ _ Hw Hin)). simpl. lia. }
  split; [|done]. split; simpl; try done.
  - by apply Remove_sorted.
  - intros id' b1. rewrite Get_Remove by done. case_decide; [done|apply Hbk].
  - intros a. rewrite Hbd'. unfold stake_of, group_total. rewrite (sum_of_Remove _ _ _ b) by done.
    rewrite Hbd, owner_share. unfold stake_of, group_total. case_match; lia.
Qed.
End Settle.

Lemma unbound_loop_wf fuel ts i bl k bl' k' :
  kbooks_wf k bl -> b_err k = None -> unbound_loop fuel ts i bl k = Some (bl', k') ->
  kbooks_wf k' bl' /\ b_err k' = None /\ blockNum (b_env k') = blockNum (b_env k) /\
  total_mtrg (state (b_env k')) = total_mtrg (state (b_env k)) /\
  total_mtr (state (b_env k')) = total_mtr (state (b_env k)).
Proof.
  revert i bl k. induction fuel as [|fuel IH]; intros i bl k Hw He; [done|].
  cbn [unbound_loop]. destruct (bl !! i) as [b|] eqn:Ei; [|by intros [= <- <-]].
  destruct (matured ts b); [|by apply IH]. intros Hl.
  assert (Get bl (Bucket.BucketID b) = Some b) as Hb.
  { apply Get_Some; [apply Hw|]. split; [by eapply list_elem_of_lookup_2|done]. }
  destruct (settle_ok k bl _ b Hw Hb) as (Hw1 & He1 & Hn1 & _ & Hg1 & Hm1).
  destruct (IH _ _ _ Hw1 He1 Hl) as (? & ? & ? & ? & ?). split_and!; try done; congruence.
Qed.

(** ** Bonus votes *)

(** While the times stay below 2^55 seconds the product of seconds and rate
    fits an int64, and the bonus is the exact quotient. *)
Lemma CalcBonus_exact from to rate value :
  0 <= from <= to -> to < 2 ^ 55 -> 0 <= rate < 2 ^ 8 -> 0 <= value ->
  CalcBonus from to rate value = (to - from) * rate * value / (3600 * 24 * 365 * 100) /\
  0 <= CalcBonus from to rate value.
Proof.
  intros Hf Ht Hr Hv. unfold CalcBonus.
  destruct (Z.ltb_spec to from); [lia|].
  assert (0 <= (to - from) * rate < 2 ^ 63) as Hp by nia.
  unfold i64, u64. rewrite (Z.mod_small (to - from)) by lia.
  rewrite !Z.mod_small by (try rewrite Z.mod_small; lia).
  destruct (Z.ltb_spec ((to - from) * rate) (2 ^ 63)); [|lia].
  split; [done|]. apply Z.div_pos; nia.
Qed.

Lemma Modify_middle (l1 l2 : BucketList.t) b b' :
  sorted (l1 ++ b :: l2) ->
  Modify (fun _ => b') (l1 ++ b :: l2) (Bucket.BucketID b) = l1 ++ b' :: l2.
Proof.
  intros Hs. assert ((l1 ++ b :: l2) !! length l1 = Some b) as Hm.
  { by rewrite list_lookup_middle. }
  destruct (Modify_cases (fun _ => b') _ (Bucket.BucketID b) Hs) as [(i & x & Hi & Hk & _ & ->)|[Hn _]].
  - assert (i = length l1) as ->.
    { destruct (decide (i < length l1)%nat) as [Hij|].
      { pose proof (sorted_lookup_lt _ _ _ _ _ Hs Hi Hm Hij) as Hlt.
        unfold key, Bucket.keyed in *. lia. }
      destruct (decide (length l1 < i)%nat) as [Hji|]; [|lia].
      pose proof (sorted_lookup_lt _ _ _ _ _ Hs Hm Hi Hji) as Hlt.
      unfold key, Bucket.keyed in *. lia. }
    by rewrite <- (Nat.add_0_r (length l1)), insert_app_r.
  - apply Get_None in Hn; [|done]. exfalso. apply Hn, list_elem_of_fmap.
    exists b. split; [done|]. by eapply list_elem_of_lookup_2.
Qed.

Lemma add_bonus_wf ts rest done cl sl bounded :
  0 <= ts < 2 ^ 55 -> books_wf cl (done ++ rest) sl bounded ->
  exists bl' cl', foldl (add_bonus ts) (done, cl) rest = (bl', cl') /\
    books_wf cl' bl' sl bounded /\
    (fun b => (Bucket.BucketID b, Bucket.Value b)) <$> bl' =
      (fun b => (Bucket.BucketID b, Bucket.Value b)) <$> (done ++ rest).
Proof.
  intros Hts. revert done cl. induction rest as [|b rest IH]; intros done cl Hw.
  { exists done, cl. rewrite app_nil_r in *. done. }
  cbn [foldl]. unfold add_bonus at 2. destruct (Bucket.CalcLastTime b <=? ts) eqn:El.
  2: { pose proof (IH (done ++ [b]) cl) as Hr. rewrite <- (assoc_L (++)) in Hr. by apply Hr. }
  pose proof (bw_sorted _ _ _ _ Hw) as Hs.
  assert (Get (done ++ b :: rest) (Bucket.BucketID b) = Some b) as Hb.
  { apply Get_Some; [done|]. split; [set_solver|done]. }
  pose proof (bw_bucket _ _ _ _ Hw _ _ Hb) as [Hi Hv Ht Hr Hl].
  destruct (CalcBonus_exact (Bucket.CalcLastTime b) ts (Bucket.Rate b) (Bucket.Value b)) as [_ Hnn];
    [lia|lia|lia|lia|].
  set (d := CalcBonus _ _ _ _) in *.
  set (b' := b <| Bucket.BonusVotes := 0 |> <| Bucket.TotalVotes ::= fun v => v + d |>
               <| Bucket.CalcLastTime := ts |>).
  assert (bucket_ok b') as Hok by (unfold b'; split; simpl; done || lia).
  pose proof (wf_bonus _ _ _ _ _ b b' Hw Hb eq_refl Hok d eq_refl eq_refl eq_refl eq_refl) as Hw1.
  rewrite Modify_middle in Hw1 by done.
  assert (forall f, (if IsZero (Bucket.Candidate b') then cl else Modify f cl (Bucket.Candidate b'))
    = Modify f cl (Bucket.Candidate b)) as Hcl.
  { intros f. change (Bucket.Candidate b') with (Bucket.Candidate b). unfold IsZero.
    destruct (Z.eqb_spec (Bucket.Candidate b) 0) as [->|]; [|done].
    symmetry. by eapply Modify_zero. }
  rewrite Hcl. change (done ++ b' :: rest) with (done ++ [b'] ++ rest) in Hw1.
  rewrite (assoc_L (++)) in Hw1. destruct (IH _ _ Hw1) as (bl' & cl' & Hf & Hw' & Hids).
  exists bl', cl'. split_and!; [done|done|]. rewrite Hids, !fmap_app, fmap_cons.
  by rewrite <- (assoc_L (++)).
Qed.

Lemma unboundAndCalcBonus_wf ts bl k :
  0 <= ts < 2 ^ 55 -> kbooks_wf k bl -> b_err k = None ->
  exists bl' k', unboundAndCalcBonusAfterTeslaFork5 ts bl k = Some (bl', k') /\
    kbooks_wf k' bl' /\ b_err k' = None /\ blockNum (b_env k') = blockNum (b_env k) /\
    total_mtrg (state (b_env k')) = total_mtrg (state (b_env k)) /\
    total_mtr (state (b_env k')) = total_mtr (state (b_env k)).
Proof.
  intros Hts Hw He. unfold unboundAndCalcBonusAfterTeslaFork5.
  pose proof (unbound_loop_filter ts bl k (bw_sorted _ _ _ _ Hw)) as Hl. rewrite Hl. simpl.
  destruct (unbound_loop_wf _ _ _ _ _ _ _ Hw He Hl) as (Hw1 & He1 & Hn1 & Hg1 & Hm1).
  destruct (add_bonus_wf ts _ [] _ _ _ Hts Hw1) as (bl' & cl' & -> & Hw2 & _).
  eexists _, _. split; [done|]. by split_and!.
Qed.

(** ** Rewards leave the books alone *)

Record calm env env' : Prop := {
  calm_books : same_books (state env) (state env');
  calm_num : blockNum env' = blockNum env;
  calm_time : blockTime env' = blockTime env
}.

#[global] Instance calm_refl : Reflexive calm.
Proof. intros env. by split. Qed.

#[global] Instance calm_trans : Transitive calm.
Proof. intros e1 e2 e3 [] []. split; [by etrans|congruence|congruence]. Qed.

Lemma calm_on_state f env : same_books (state env) (f (state env)) -> calm env (on_state f env).
Proof. intros Hf. by split. Qed.

Lemma calm_foldl {A} (f : ScriptEnv.t -> A -> ScriptEnv.t) l env :
  (forall e a, calm e (f e a)) -> calm env (foldl f env l).
Proof.
  intros Hf. revert env. induction l as [|a l IH]; intros env; [done|]. simpl.
  etrans; [apply Hf|apply IH].
Qed.

Lemma calm_mfold {A} (f : ScriptEnv.t -> A -> outcome ScriptEnv.t) l env env' :
  (forall e a e', f e a = Ret e' -> calm e e') -> mfold f env l = Ret env' -> calm env env'.
Proof.
  intros Hf. revert env. induction l as [|a l IH]; intros env; simpl; [by intros [= <-]|].
  intros (e & He & Hm)%bind_ret_inv. etrans; [by eapply Hf|by apply IH].
Qed.

Lemma same_books_accounts s s' :
  State.candidates s' = State.candidates s -> State.buckets s' = State.buckets s ->
  State.stakeholders s' = State.stakeholders s ->
  (forall a, State.GetBoundedBalance s' a = State.GetBoundedBalance s a) -> same_books s s'.
Proof. by split. Qed.

Lemma same_books_mint e addr amount s : same_books s (MeterTracker.MintMeterGov e addr amount s).
Proof.
  unfold MeterTracker.MintMeterGov. destruct (amount =? 0); [done|].
  unfold MeterTracker.SetMeterGovTotalAddSub, State.EncodeStorage. destruct (_ && _);
    (apply same_books_accounts; [done..|]; intros a; by autorewrite with state).
Qed.

Lemma calm_MintMTRG addr amount env : calm env (MintMTRG addr amount env).
Proof.
  unfold MintMTRG. destruct (amount =? 0); [done|].
  destruct (IsTeslaFork8 _); (split; [|done..]); apply same_books_mint.
Qed.

Lemma calm_move_mtr from to amount msg env : calm env (fst (move_mtr from to amount msg env)).
Proof.
  unfold move_mtr. destruct (amount =? 0) eqn:E0; [done|]. destruct (_ <? _) eqn:El; [done|].
  split; [|done..]. simpl. unfold State.SubEnergy, State.AddEnergy. rewrite E0, El. simpl.
  apply same_books_accounts; try done. intros a. by autorewrite with state.
Qed.

Lemma calm_DistValidatorRewards rinfo env : calm env (fst (DistValidatorRewards rinfo env)).
Proof.
  unfold DistValidatorRewards. generalize 0 as n.
  revert env. induction rinfo as [|r rinfo IH]; intros env n; [done|]. cbn [foldl].
  pose proof (calm_move_mtr ValidatorBenefitAddr (RewardInfo.Address_ r) (RewardInfo.Amount r)
    "not enough meter in validator benefit addr" env) as Hm.
  unfold TransferValidatorReward at 2.
  destruct (move_mtr _ _ _ _ env) as [env1 o]. simpl in Hm. etrans; [exact Hm|apply IH].
Qed.

Lemma calm_pay_rewards env sb rinfo : calm env (pay_rewards env sb rinfo).
Proof.
  unfold pay_rewards. destruct rinfo as [|r rinfo].
  - apply calm_on_state. by apply same_books_slot.
  - pose proof (calm_DistValidatorRewards (r :: rinfo) env) as Hd.
    destruct (DistValidatorRewards _ env) as [env1 sum]. simpl in Hd.
    etrans; [exact Hd|]. apply calm_on_state. by apply same_books_slot.
Qed.

Lemma calm_autobid i ainfo env : calm env (autobid_loop i ainfo env).
Proof.
  revert i env. induction ainfo as [|a ainfo IH]; intros i env; [done|]. cbn [autobid_loop].
  destruct (_ <? _); [done|]. destruct (State.GetAuctionCB _) as [cb s].
  destruct (AuctionCB.AddAuctionTx _ _) as [cb' [e|]]; [done|].
  pose proof (calm_move_mtr ValidatorBenefitAddr AuctionModuleAddr (RewardInfo.Amount a)
    "not enough meter balance in validator benefit address"
    (on_state (State.SetAuctionCB cb') env)) as Hm.
  unfold TransferAutobidMTRToAuction.
  destruct (move_mtr _ _ _ _ _) as [env1 [e|]]; simpl in Hm.
  - etrans; [|exact Hm]. by split.
  - etrans; [|apply IH]. etrans; [|exact Hm]. by split.
Qed.

Lemma calm_autobid_rewards env sb : calm env (distributeAndAutobidAfterTeslaFork6 env sb).
Proof.
  unfold distributeAndAutobidAfterTeslaFork6. destruct (decode_RewardInfoV2s _); [|done].
  destruct (split_rewards _) as [rinfo ainfo].
  etrans; [apply (calm_pay_rewards env sb rinfo)|].
  unfold State.GetAuctionCB. set (env1 := pay_rewards env sb rinfo).
  destruct (State.cachedCB _); destruct (negb _); try by split.
  - etrans; [|apply calm_autobid]. by split.
  - etrans; [|apply calm_autobid]. by split.
Qed.

Lemma calm_fork12 env cl jl env' : distributeMTRGAfterTeslaFork12 env cl jl = Ret env' -> calm env env'.
Proof.
  unfold distributeMTRGAfterTeslaFork12. apply calm_mfold. intros e a e' (m & _ & Hr)%bind_ret_inv.
  simplify_eq. apply calm_MintMTRG.
Qed.

Lemma calm_fork13 env dl jl env' : distributeMTRGAfterTeslaFork13 env dl jl = Ret env' -> calm env env'.
Proof.
  unfold distributeMTRGAfterTeslaFork13. intros (m & _ & Hr)%bind_ret_inv. simplify_eq.
  apply calm_foldl. intros. apply calm_MintMTRG.
Qed.

Lemma calm_calcDelegates env bl cl jl env' : calcDelegates env bl cl jl = Ret env' -> calm env env'.
Proof.
  unfold calcDelegates. intros (d & _ & Hr)%bind_ret_inv. simplify_eq.
  apply calm_on_state. by apply same_books_slot.
Qed.

(** ** The stakeholders do not matter to the rest *)

Definition with_holders (h : StakeholderList.t) k : books := k <| b_holders := h |>.
Definition drop_all (h : StakeholderList.t) (bs : list Bucket.t) : StakeholderList.t :=
  foldl (fun h b => drop_from_holder b h) h bs.

Lemma settle_holders h k bs :
  foldl settle (with_holders h k) bs = with_holders (drop_all h bs) (foldl settle k bs).
Proof.
  revert h k. induction bs as [|b bs IH]; intros h k; [done|]. unfold drop_all. cbn [foldl].
  rewrite <- (IH (drop_from_holder b h)). f_equal. unfold settle, with_holders. simpl.
  by destruct (unbound_value b (b_env k)).
Qed.

Lemma unbound_holders ts bl h k bl' k' :
  sorted bl -> unboundAndCalcBonusAfterTeslaFork5 ts bl (with_holders h k) = Some (bl', k') ->
  unboundAndCalcBonusAfterTeslaFork5 ts bl k =
    Some (bl', with_holders (drop_all (b_holders k) (filter (fun b => matured ts b = true) bl)) k') /\
  b_holders k' = drop_all h (filter (fun b => matured ts b = true) bl).
Proof.
  intros Hs. unfold unboundAndCalcBonusAfterTeslaFork5. rewrite !unbound_loop_filter by done. simpl.
  replace (foldl settle k _) with
    (with_holders (drop_all (b_holders k) (filter (fun b => matured ts b = true) bl))
      (foldl settle k (filter (fun b => matured ts b = true) bl)))
    by (rewrite <- settle_holders; by destruct k).
  rewrite settle_holders. cbn [with_holders b_cands].
  destruct (foldl (add_bonus ts) _ _) as [bl1 cands]. by intros [= <- <-].
Qed.

(** ** The handler *)

Lemma GoverningHandler_keeps sl env sb gas env' g err :
  books_with sl (state env) -> IsTeslaFork9 (blockNum env) = true -> 0 <= blockTime env < 2 ^ 55 ->
  GoverningHandler env sb gas = Ret (env', g, err) -> keeps sl (state env) (state env') /\ err = None.
Proof.
  intros Hw H9 Hts. unfold GoverningHandler. read_lists Hw.
  rewrite (fork9_fork6 _ H9), (fork9_fork7 _ H9).
  intros (env1 & Hd & Hr)%bind_ret_inv.
  assert (calm env env1) as [Hb1 Hn1 Ht1].
  { destruct (IsTeslaFork13 _); [by eapply calm_fork13|].
    destruct (IsTeslaFork12 _); [by eapply calm_fork12|]. simplify_eq. apply calm_autobid_rewards. }
  set (k := mk_books env1 _ _ None) in Hr.
  assert (kbooks_wf (with_holders sl k) (State.buckets (state env))) as Hk.
  { eapply wf_ext; [|exact Hw]. intros a. symmetry. apply Hb1. }
  destruct (unboundAndCalcBonus_wf (blockTime env1) _ _ ltac:(by rewrite Ht1) Hk eq_refl)
    as (bl' & k' & Hu & Hw' & He & _).
  destruct (unbound_holders _ _ _ k _ _ (bw_sorted _ _ _ _ Hk) Hu) as [Hu' Hh].
  rewrite Hu' in Hr. cbn [mbind outcome_bind deref] in Hr.
  apply bind_ret_inv in Hr as (env2 & Hcd & Hf).
  assert (calm (b_env k') env2) as [Hb2 _ _].
  { destruct IsStaging; [by simplify_eq|by eapply calm_calcDelegates]. }
  apply finish_inv in Hf as (Hst & -> & _). split; [|done]. rewrite Hst, set_lists_state.
  eapply (keeps_written (fun h => drop_all h _)); [done| |by left].
  rewrite <- Hh. eapply wf_ext; [|exact Hw']. intros a. symmetry. apply Hb2.
Qed.
End Govern.
