(* ===== verification/GovernTheorems.v ===== *)
(** * What the governing handler guarantees

    Matured buckets are paid back exactly once and the others accrue the exact
    bonus; the emission schemes mint no more than the release of the epoch,
    whatever the order in which Go walks its maps; the delegates of the next
    epoch are the eligible candidates in order. *)

From S2P Require Import Prelude Text KeyedList ChainParam StakingTypes Ledger AuctionTypes Stats State ScriptEnv StakingUtils StakingBooks StakingHandlers AccountLock MeterTracker StakingGovern Samples SupplyTheorems EmissionTheorems StakingInv SampleRuns DelegateTheorems GovernInv.
Import ScriptEnv StakingBody.

(** ** Matured buckets *)

Section Matured.
Context `{Hashing} `{StakingCodec} `{BlockChain} `{Emission}.
Implicit Types (bl : BucketList.t) (k : books) (ts : Z).

(** The bonus a bucket accrues up to [ts]: [Rate] percent of its value per
    year of 365 days, rounded down. *)
Definition accrue ts (b : Bucket.t) : Bucket.t :=
  if Bucket.CalcLastTime b <=? ts then
    b <| Bucket.BonusVotes := 0 |>
      <| Bucket.TotalVotes ::= fun v => v + (ts - Bucket.CalcLastTime b) * Bucket.Rate b
           * Bucket.Value b / (3600 * 24 * 365 * 100) |>
      <| Bucket.CalcLastTime := ts |>
  else b.

Lemma add_bonus_accrue ts rest acc cl :
  0 <= ts < 2 ^ 55 -> (forall b, b ∈ rest -> bucket_ok b) ->
  fst (foldl (add_bonus ts) (acc, cl) rest) = acc ++ (accrue ts <$> rest).
Proof.
  intros Hts. revert acc cl. induction rest as [|b rest IH]; intros acc cl Hok.
  { by rewrite app_nil_r. }
  pose proof (Hok b ltac:(constructor)) as [_ Hv _ Hr Hl].
  cbn [foldl]. unfold add_bonus at 2. rewrite fmap_cons. unfold accrue at 1.
  destruct (Z.leb_spec (Bucket.CalcLastTime b) ts).
  - destruct (CalcBonus_exact (Bucket.CalcLastTime b) ts (Bucket.Rate b) (Bucket.Value b))
      as [-> _]; [lia..|].
    rewrite IH by (intros; apply Hok; by constructor). by rewrite <- (assoc_L (++)).
  - rewrite IH by (intros; apply Hok; by constructor). by rewrite <- (assoc_L (++)).
Qed.

Lemma settle_fold l k bl :
  kbooks_wf k bl -> b_err k = None -> sorted l -> (forall b, b ∈ l -> b ∈ bl) ->
  forall a, State.GetBalance (state (b_env (foldl settle k l))) a =
    State.GetBalance (state (b_env k)) a +
    sum_of Bucket.Value (filter (fun b => Bucket.Owner b = a) l).
Proof.
  revert k bl. induction l as [|b l IH]; intros k bl Hw He Hs Hin a; [simpl; lia|].
  pose proof (bw_sorted _ _ _ _ Hw) as Hsb.
  assert (Get bl (Bucket.BucketID b) = Some b) as Hb.
  { apply Get_Some; [done|]. split; [apply Hin; by constructor|done]. }
  destruct (settle_ok k bl _ b Hw Hb) as (Hw1 & He1 & _ & Hba & _).
  pose proof Hs as Hs'. apply (sorted_app [b] l) in Hs' as (_ & Hsl & Hlt).
  cbn [foldl]. rewrite (IH _ _ Hw1 He1 Hsl).
  - rewrite Hba, filter_cons. destruct (Z.eqb_spec a (Bucket.Owner b)) as [->|Hne].
    + rewrite decide_True by done. simpl. lia.
    + by rewrite decide_False by congruence.
  - intros b1 Hb1. apply elem_of_Remove; [done|]. split; [apply Hin; by constructor|].
    specialize (Hlt b b1 ltac:(constructor) Hb1). unfold key, Bucket.keyed in *. lia.
Qed.
End Matured.

Lemma matured_spec `{Hashing} `{StakingCodec} `{BlockChain} `{Emission} ts bl k :
  0 <= ts < 2 ^ 55 -> kbooks_wf k bl -> b_err k = None ->
  exists bl' k', unboundAndCalcBonusAfterTeslaFork5 ts bl k = Some (bl', k') /\
    b_err k' = None /\ kbooks_wf k' bl' /\
    bl' = accrue ts <$> filter (fun b => matured ts b = false) bl /\
    forall a, State.GetBalance (state (b_env k')) a =
      State.GetBalance (state (b_env k)) a +
      sum_of Bucket.Value (filter (fun b => matured ts b = true /\ Bucket.Owner b = a) bl).
Proof.
  intros Hts Hw He.
  destruct (unboundAndCalcBonus_wf ts bl k Hts Hw He) as (bl' & k' & Hu & Hw' & He' & _).
  exists bl', k'. split_and!; [done..| |].
  - revert Hu. unfold unboundAndCalcBonusAfterTeslaFork5.
    rewrite unbound_loop_filter by apply Hw. simpl.
    pose proof (add_bonus_accrue ts (filter (fun b => matured ts b = false) bl) []
      (b_cands (foldl settle k (filter (fun b => matured ts b = true) bl))) Hts) as Ha.
    destruct (foldl (add_bonus ts) _ _) as [l cl]. intros [= <- <-]. simpl in Ha. apply Ha.
    intros b [_ Hin]%list_elem_of_filter. exact (wf_elem _ _ _ _ _ Hw Hin).
  - intros a. revert Hu. unfold unboundAndCalcBonusAfterTeslaFork5.
    rewrite unbound_loop_filter by apply Hw. simpl.
    destruct (foldl (add_bonus ts) _ _) as [l cl]. intros [= _ <-]. simpl.
    rewrite (settle_fold _ k bl); [|done|done|apply sorted_filter, Hw|].
    + rewrite list_filter_filter. do 3 f_equal. apply list_filter_iff. naive_solver.
    + intros b [_ Hin]%list_elem_of_filter. done.
Qed.

(** C11: the pass over the buckets that fork 5 introduced always finishes.  It
    takes exactly the matured buckets off the list, every owner's balance
    grows by the value of its matured buckets, each other bucket accrues the
    exact bonus for the seconds since it was last visited, and the books stay
    in order without an error. *)
Theorem matured_paid_exactly `{Hashing} `{StakingCodec} `{BlockChain} `{Emission} ts bl k :
  0 <= ts < 2 ^ 55 -> kbooks_wf k bl -> b_err k = None ->
  exists bl' k', unboundAndCalcBonusAfterTeslaFork5 ts bl k = Some (bl', k') /\
    b_err k' = None /\ kbooks_wf k' bl' /\
    bl' = accrue ts <$> filter (fun b => matured ts b = false) bl /\
    forall a, State.GetBalance (state (b_env k')) a =
      State.GetBalance (state (b_env k)) a +
      sum_of Bucket.Value (filter (fun b => matured ts b = true /\ Bucket.Owner b = a) bl).
Proof. apply matured_spec. Qed.

Lemma matured_paid_exactly_witness :
  let s := state env_unbound in
  let k := mk_books env_unbound (State.candidates s) (State.stakeholders s) None in
  exists bl' k', @unboundAndCalcBonusAfterTeslaFork5 1700700000 (State.buckets s) k
      = Some (bl', k') /\
    length (State.buckets s) = 1%nat /\ bl' = [] /\
    State.GetBalance (state (b_env k')) Sample.alice = 1000 * e18.
Proof.
  intros s k.
  destruct (@matured_paid_exactly Sample.hashing Sample.codec Sample.chain Sample.emission
    1700700000 (State.buckets s) k) as (bl' & k' & Hu & _ & _ & Hl & Hb).
  - split; vm_compute; [discriminate|reflexivity].
  - exact env_unbound_wf.
  - reflexivity.
  - exists bl', k'. split; [exact Hu|]. split; [vm_compute; reflexivity|].
    split; [rewrite Hl; vm_compute; reflexivity|]. rewrite Hb. vm_compute. reflexivity.
Defined.

(** ** The pass before fork 5 *)

Module Legacy.
Definition bucket (id value : Z) (open : bool) : Bucket.t :=
  Sample.bucket0 <| Bucket.BucketID := id |> <| Bucket.Owner := Sample.alice |>
    <| Bucket.Value := value |> <| Bucket.TotalVotes := value |> <| Bucket.Token := MTRG |>
    <| Bucket.Unbounded := negb open |> <| Bucket.MatureTime := 1000 |>
    <| Bucket.Rate := 5 |> <| Bucket.CalcLastTime := 1000 |>.

Definition buckets : BucketList.t := [bucket 1 100 false; bucket 2 500 true; bucket 3 300 false].
Definition env : ScriptEnv.t := Sample.env0 <| state := State.New <| State.accounts :=
  {[ Sample.alice := Account.holding 0 0 900 0 ]} |> |>.
Definition books : StakingGovern.books :=
  mk_books env [] [Stakeholder.mk Sample.alice 900 [1; 2; 3]] None.
Definition balance (k : StakingGovern.books) : Z :=
  State.GetBalance (state (b_env k)) Sample.alice.
End Legacy.

(** The pass in use before fork 5 walks a slice that it shortens in place,
    so the last bucket is visited twice.  With buckets of 100, 500 and 300 of
    which the first and the last are matured, it pays the owner 700; the pass
    of fork 5 pays 400 on the same books, and both leave the second bucket. *)
Theorem legacy_unbound_pays_twice :
  let '(bl, k) := unboundAndCalcBonus 5000 Legacy.buckets Legacy.books in
  Bucket.BucketID <$> bl = [2] /\ Legacy.balance k = 100 + 300 + 300 /\
  exists bl5 k5, unboundAndCalcBonusAfterTeslaFork5 5000 Legacy.buckets Legacy.books = Some (bl5, k5) /\
    Bucket.BucketID <$> bl5 = [2] /\ Legacy.balance k5 = 100 + 300.
Proof.
  vm_compute. split; [done|]. split; [done|]. eexists _, _. split; [reflexivity|]. done.
Qed.

(** ** A whole epoch *)

Lemma Forall_Remove {A} `{Keyed A} (P : A -> Prop) (xs : list A) k :
  Forall P xs -> Forall P (Remove xs k).
Proof.
  intros HP. unfold Remove. destruct (indexOf xs k) as [i j]. case_match; [|done].
  apply Forall_app. split; [by apply Forall_take|by apply Forall_drop].
Qed.

Lemma Forall_Modify {A} `{Keyed A} (P : A -> Prop) (f : A -> A) (xs : list A) k :
  (forall x, P x -> P (f x)) -> Forall P xs -> Forall P (Modify f xs k).
Proof.
  intros Hf HP. unfold Modify. destruct (indexOf xs k) as [i j]. case_match; [|done].
  apply Forall_alter; [done|]. auto.
Qed.

Section Epoch.
Context `{Hashing} `{StakingCodec} `{BlockChain} `{Emission}.
Implicit Types (env : ScriptEnv.t) (s : State.t) (k : books) (c : Candidate.t).

(** The commission is a rate, and the buckets of a candidate can be counted. *)
Definition cand_ok c : Prop :=
  0 <= Candidate.Commission c <= 10 ^ 9 /\ Z.of_nat (length (Candidate.Buckets c)) < 10 ^ 9.

Lemma RemoveBucket_cand_ok b c : cand_ok c -> cand_ok (Candidate.RemoveBucket b c).
Proof.
  intros [Hc Hl]. unfold Candidate.RemoveBucket.
  destruct (cut_first (Bucket.BucketID b) (Candidate.Buckets c)) as [rest|] eqn:E; [|by split].
  pose proof (cut_first_Some _ _ _ E) as Hp. apply Permutation_length in Hp. simpl in Hp.
  case_match; split; simpl; done || lia.
Qed.

Lemma drop_cand_ok b cl : Forall cand_ok cl -> Forall cand_ok (drop_from_candidate b cl).
Proof.
  intros Hcl. unfold drop_from_candidate. destruct (CandidateList.Get cl _) as [c|] eqn:Ec; [|done].
  assert (cand_ok c) as Hc.
  { rewrite Forall_forall in Hcl. apply Hcl. revert Ec. unfold CandidateList.Get, Get.
    destruct (indexOf _ _). case_match; [|done]. apply list_elem_of_lookup_2. }
  case_match; [by apply Forall_Remove|]. apply Forall_Modify; [|done].
  intros _ _. by apply RemoveBucket_cand_ok.
Qed.

Lemma settle_cand_ok l k : Forall cand_ok (b_cands k) -> Forall cand_ok (b_cands (foldl settle k l)).
Proof.
  revert k. induction l as [|b l IH]; intros k Hk; [done|]. cbn [foldl]. apply IH.
  unfold settle. destruct (unbound_value b (b_env k)). by apply drop_cand_ok.
Qed.

Lemma bonus_cand_ok ts l acc cl :
  Forall cand_ok cl -> Forall cand_ok (snd (foldl (add_bonus ts) (acc, cl) l)).
Proof.
  revert acc cl. induction l as [|b l IH]; intros acc cl Hcl; [done|]. cbn [foldl].
  unfold add_bonus at 2. case_match; [|by apply IH]. apply IH. case_match; [done|].
  by apply Forall_Modify.
Qed.

Lemma unbound_cand_ok ts bl k bl' k' :
  sorted bl -> Forall cand_ok (b_cands k) ->
  unboundAndCalcBonusAfterTeslaFork5 ts bl k = Some (bl', k') -> Forall cand_ok (b_cands k').
Proof.
  intros Hs Hk. unfold unboundAndCalcBonusAfterTeslaFork5. rewrite unbound_loop_filter by done. simpl.
  pose proof (bonus_cand_ok ts (filter (fun b => matured ts b = false) bl) [] _
    (settle_cand_ok (filter (fun b => matured ts b = true) bl) k Hk)) as Hb.
  destruct (foldl (add_bonus ts) _ _) as [l cl]. intros [= _ <-]. exact Hb.
Qed.

(** What an epoch starts from: the books, the candidates, the delegates chosen
    by the previous epoch, and the threshold. *)
Record epoch_ok s : Prop := {
  eo_books : staking_wf s;
  eo_cands : Forall cand_ok (State.candidates s);
  eo_distinct : NoDup (Delegate.Address_ <$> State.delegates s);
  eo_delegates : forall d, d ∈ State.delegates s -> delegate_ok d;
  eo_min : 0 < State.Params_Get s KeyMinRequiredByDelegate
}.

Lemma MintMTRG_params addr amount env key :
  State.Params_Get (state (MintMTRG addr amount env)) key = State.Params_Get (state env) key.
Proof.
  unfold MintMTRG. destruct (amount =? 0); [done|]. simpl.
  destruct (IsTeslaFork8 _); simpl; unfold StateDB.MintBalanceAfterFork8, StateDB.MintBalance,
    MeterTracker.MintMeterGov, MeterTracker.SetMeterGovTotalAddSub, State.EncodeStorage;
    destruct (amount =? 0); try done; by destruct (_ && _).
Qed.

Lemma fork13_params env dl jl env' key :
  distributeMTRGAfterTeslaFork13 env dl jl = Ret env' ->
  State.Params_Get (state env') key = State.Params_Get (state env) key.
Proof.
  unfold distributeMTRGAfterTeslaFork13. intros (m & _ & [= <-])%bind_ret_inv.
  generalize (sort_by Z.ltb (map_to_list m).*1). intros l. revert env.
  induction l as [|a l IH]; intros env; [done|]. cbn [foldl]. rewrite IH. apply MintMTRG_params.
Qed.

Lemma settle_params l k key :
  State.Params_Get (state (b_env (foldl settle k l))) key = State.Params_Get (state (b_env k)) key.
Proof.
  revert k. induction l as [|b l IH]; intros k; [done|]. cbn [foldl]. rewrite IH.
  unfold settle, unbound_value, UnboundAccountMeter, UnboundAccountMeterGov.
  by repeat case_match; simplify_eq.
Qed.

Lemma unbound_params ts bl k bl' k' key :
  sorted bl -> unboundAndCalcBonusAfterTeslaFork5 ts bl k = Some (bl', k') ->
  State.Params_Get (state (b_env k')) key = State.Params_Get (state (b_env k)) key.
Proof.
  intros Hs. unfold unboundAndCalcBonusAfterTeslaFork5. rewrite unbound_loop_filter by done. simpl.
  destruct (foldl (add_bonus ts) _ _) as [l cl]. intros [= _ <-]. apply settle_params.
Qed.

Lemma written_slots cl bl sl s :
  books_wf cl bl sl (State.GetBoundedBalance s) ->
  let s' := State.SetStakeHolderList sl (State.SetBucketList bl (State.SetCandidateList cl s)) in
  State.candidates s' = cl /\ State.delegates s' = State.delegates s /\
  State.accounts s' = State.accounts s /\ State.params s' = State.params s.
Proof.
  intros Hw. destruct (wf_encodable _ _ _ _ Hw) as (Hc & Hb & Hh).
  unfold State.SetStakeHolderList, State.SetBucketList, State.SetCandidateList, State.EncodeStorage.
  by rewrite Hc, Hb, Hh.
Qed.

Lemma calcDelegates_slots env bl cl jl env' :
  calcDelegates env bl cl jl = Ret env' ->
  State.accounts (state env') = State.accounts (state env) /\
  State.params (state env') = State.params (state env).
Proof.
  unfold calcDelegates. intros (ds & _ & [= <-])%bind_ret_inv. rewrite on_state_state.
  unfold State.SetDelegateList, State.EncodeStorage. by case_match.
Qed.

Lemma governing_epoch_lemma env sb gas :
  let release := fst (ComputeEpochReleaseWithEmissionCurve (state env) (blockTime env)) in
  IsTeslaFork13 (blockNum env) = true -> IsStaging = false -> 0 <= blockTime env < 2 ^ 55 ->
  epoch_ok (state env) ->
  exists env', GoverningHandler env sb gas = Ret (env', leftOver gas, None) /\
    epoch_ok (state env') /\
    total_mtrg (state env) <= total_mtrg (state env') <= total_mtrg (state env) + release /\
    total_mtr (state env') = total_mtr (state env).
Proof.
  intros release H13 Hst Hts [Hw Hcl Hnd Hdl Hmin].
  pose proof (fork13_fork9 _ H13) as H9. unfold GoverningHandler.
  read_lists Hw. rewrite (read_holders _ Hw), H13, (fork9_fork7 _ H9), Hst.
  destruct (fork13_bounded env (State.delegates (state env)) (State.GetInJailList (state env)) Hnd Hdl)
    as (env1 & Hd & Hg1 & Hm1). unfold State.GetDelegateList. rewrite Hd. cbn [mbind outcome_bind].
  pose proof (fork13_params _ _ _ _ KeyMinRequiredByDelegate Hd) as Hp1.
  destruct (calm_fork13 _ _ _ _ Hd) as [Hb1 _ Ht1].
  set (k := mk_books env1 _ _ None).
  assert (kbooks_wf k (State.buckets (state env))) as Hk.
  { pose proof (same_books_wf _ _ Hb1 Hw) as Hw1. destruct Hb1 as [Hc Hb Hh _].
    unfold staking_wf in Hw1. rewrite Hc, Hb, Hh in Hw1. exact Hw1. }
  destruct (unboundAndCalcBonus_wf (blockTime env1) _ k ltac:(by rewrite Ht1) Hk eq_refl)
    as (bl & k' & Hu & Hw' & He & _ & Hg2 & Hm2).
  rewrite Hu. cbn [mbind outcome_bind deref].
  pose proof (unbound_cand_ok _ _ k _ _ (bw_sorted _ _ _ _ Hk) Hcl Hu) as Hcl'.
  pose proof (unbound_params _ _ _ _ _ KeyMinRequiredByDelegate (bw_sorted _ _ _ _ Hk) Hu) as Hp2.
  simpl in Hg2, Hm2, Hp2.
  destruct (calcDelegates_spec (b_env k') (b_cands k') bl (b_holders k')
    (State.GetBoundedBalance (state (b_env k'))) (State.GetInJailList (state env)) Hw')
    as (env2 & Hcd & _ & Hnd' & _ & Hdl'); [lia|by apply Forall_forall|].
  rewrite Hcd. cbn [mbind outcome_bind].
  destruct (calcDelegates_slots _ _ _ _ _ Hcd) as [Ha Hpar].
  assert (books_wf (b_cands k') bl (b_holders k') (State.GetBoundedBalance (state env2))) as Hw2.
  { eapply wf_ext; [|exact Hw']. intros a. unfold State.GetBoundedBalance, State.getAccount.
    by rewrite Ha. }
  unfold finish. rewrite He. eexists. split; [done|]. simpl.
  destruct (written_slots _ _ _ _ Hw2) as (E1 & E2 & E3 & E4).
  split_and!.
  - split; [by apply written_wf|by rewrite E1|by rewrite E2|by rewrite E2|].
    unfold State.Params_Get. rewrite E4, Hpar. fold (State.Params_Get (state (b_env k'))
      KeyMinRequiredByDelegate). lia.
  - unfold total_mtrg in *. rewrite (total_slot _ _ _ E3), (total_slot _ _ _ Ha). lia.
  - unfold total_mtrg in *. rewrite (total_slot _ _ _ E3), (total_slot _ _ _ Ha). lia.
  - unfold total_mtr in *. rewrite (total_slot _ _ _ E3), (total_slot _ _ _ Ha). lia.
Qed.
End Epoch.

(** C2: from fork 13 on, the governing call of an epoch always completes
    without an error when it starts from books in order, candidates with valid
    commissions and the delegates of the previous epoch; it mints no more than
    the release of the epoch, leaves MTR alone, and ends in a state from which
    the next epoch can start. *)
Theorem governing_epoch `{Hashing} `{StakingCodec} `{BlockChain} `{Emission} env sb gas :
  let release := fst (ComputeEpochReleaseWithEmissionCurve (state env) (blockTime env)) in
  IsTeslaFork13 (blockNum env) = true -> IsStaging = false -> 0 <= blockTime env < 2 ^ 55 ->
  epoch_ok (state env) ->
  exists env', GoverningHandler env sb gas = Ret (env', leftOver gas, None) /\
    epoch_ok (state env') /\
    total_mtrg (state env) <= total_mtrg (state env') <= total_mtrg (state env) + release /\
    total_mtr (state env') = total_mtr (state env).
Proof. apply governing_epoch_lemma. Qed.

Lemma governing_epoch_witness :
  exists env', @GoverningHandler Sample.hashing Sample.codec Sample.chain Sample.emission env_govern
      Sample.bound_body 30000 = Ret (env', 14000, None) /\
    Delegate.Address_ <$> State.delegates (state env') = [Sample.bob] /\
    @epoch_ok Sample.hashing (state env').
Proof.
  destruct (@governing_epoch Sample.hashing Sample.codec Sample.chain Sample.emission env_govern
    Sample.bound_body 30000) as (env' & Hr & Hok & _).
  - vm_compute. reflexivity.
  - reflexivity.
  - split; vm_compute; [discriminate|reflexivity].
  - split.
    + exact env_govern_wf.
    + apply Forall_forall. intros c Hc. vm_compute in Hc. apply list_elem_of_singleton in Hc as ->.
      vm_compute. split; [split|]; (discriminate || reflexivity).
    + constructor.
    + intros d Hd. vm_compute in Hd. exfalso. by apply not_elem_of_nil in Hd.
    + vm_compute. reflexivity.
  - exists env'. split; [exact Hr|]. split; [|exact Hok]. vm_compute in Hr. injection Hr as <-.
    vm_compute. reflexivity.
Defined.
