(* ===== verification/StakingFunds.v ===== *)
(** * Whose funds a staking clause touches

    For every handler but the governing one: which accounts it can change,
    that it neither creates nor destroys MTR or MTRG, and that an error leaves
    the state as it was. *)

From S2P Require Import Prelude Text KeyedList ChainParam StakingTypes Ledger AuctionTypes Stats State ScriptEnv StakingUtils StakingBooks StakingHandlers AccountLock MeterTracker StakingGovern Samples StakingInv.
Import ScriptEnv StakingBody.

(** [Get] only returns an element with the key it was asked for, sorted or not. *)
Lemma search_sound {A} `{Keyed A} fuel (xs : list A) k l r i j :
  search fuel xs k l r = (i, j) -> 0 <= i -> exists x, xs !! Z.to_nat i = Some x /\ key x = k.
Proof.
  revert l r. induction fuel as [|fuel IH]; intros l r; cbn [search].
  { intros E Hi. assert (i = -1) by congruence. lia. }
  case_decide; [|intros E Hi; assert (i = -1) by congruence; lia].
  destruct (xs !! ((l + r) / 2)%nat) as [x|] eqn:Ex; [|intros E Hi; assert (i = -1) by congruence; lia].
  destruct (Z.ltb_spec k (key x)); [apply IH|]. destruct (Z.ltb_spec (key x) k); [apply IH|].
  intros E _. exists x. assert (i = Z.of_nat ((l + r) / 2)) as -> by congruence.
  rewrite Nat2Z.id. split; [done|lia].
Qed.

Lemma Get_sound {A} `{Keyed A} (xs : list A) k x : Get xs k = Some x -> key x = k.
Proof.
  unfold Get, indexOf. case_decide; [done|].
  destruct (search _ _ _ _ _) as [i j] eqn:E. destruct (Z.leb_spec 0 i); [|done].
  intros Hx. destruct (search_sound _ _ _ _ _ _ _ E) as (y & Hy & Hk); [done|]. congruence.
Qed.

(** ** Changes confined to one account *)

Record touches (a : Address) (s s' : State.t) : Prop := {
  tc_others : forall b, b <> a -> b <> StakingModuleAddr ->
    State.getAccount s' b = State.getAccount s b;
  tc_mtrg : total_mtrg s' = total_mtrg s;
  tc_mtr : total_mtr s' = total_mtr s
}.

#[global] Instance touches_refl a : Reflexive (touches a).
Proof. by intros s. Qed.

#[global] Instance touches_trans a : Transitive (touches a).
Proof.
  intros s1 s2 s3 [H1 ? ?] [H2 ? ?]. split; [|congruence..].
  intros b Hb Hm. by rewrite H2, H1.
Qed.

Lemma touches_accounts a s s' : State.accounts s' = State.accounts s -> touches a s s'.
Proof.
  intros E. split; [|by apply total_slot..]. intros. unfold State.getAccount. by rewrite E.
Qed.

(** Writing a list leaves the accounts alone. *)
Create Rewrite HintDb accounts.
Section Slots.
Context (s : State.t).
Lemma accounts_candidates l : State.accounts (State.SetCandidateList l s) = State.accounts s.
Proof. by apply State.accounts_EncodeStorage. Qed.
Lemma accounts_buckets l : State.accounts (State.SetBucketList l s) = State.accounts s.
Proof. by apply State.accounts_EncodeStorage. Qed.
Lemma accounts_stakeholders l : State.accounts (State.SetStakeHolderList l s) = State.accounts s.
Proof. by apply State.accounts_EncodeStorage. Qed.
Lemma accounts_jail l : State.accounts (State.SetInJailList l s) = State.accounts s.
Proof. by apply State.accounts_EncodeStorage. Qed.
Lemma accounts_stats l : State.accounts (State.SetDelegateStatList l s) = State.accounts s.
Proof. by apply State.accounts_EncodeStorage. Qed.
End Slots.

#[export] Hint Rewrite accounts_candidates accounts_buckets accounts_stakeholders accounts_jail
  accounts_stats : accounts.

Lemma accounts_set_lists cl bl sl env :
  State.accounts (state (set_lists cl bl sl env)) = State.accounts (state env).
Proof. rewrite set_lists_state. by autorewrite with accounts. Qed.

Lemma touches_bound addr amount env env' err :
  BoundAccountMeterGov addr amount env = (env', err) -> touches addr (state env) (state env').
Proof.
  unfold BoundAccountMeterGov. destruct (amount =? 0); [by intros [= <- <-]|].
  destruct (_ <? _); intros [= <- <-]; [done|]. simpl. split.
  - intros b Hb _. unfold State.SetBoundedBalance, State.SetBalance.
    by rewrite !getAccount_update_ne.
  - autorewrite with state. lia.
  - by autorewrite with state.
Qed.

Lemma touches_bail addr amount env env' err :
  CollectBailMeterGov addr amount env = (env', err) -> touches addr (state env) (state env').
Proof.
  unfold CollectBailMeterGov. destruct (amount =? 0) eqn:E0; [by intros [= <- <-]|].
  destruct (_ <? _) eqn:El; intros [= <- <-]; [done|].
  simpl. unfold State.SubBalance, State.AddBalance. rewrite E0, El. simpl. split.
  - intros b Hb Hm. unfold State.SetBalance. by rewrite !getAccount_update_ne.
  - autorewrite with state. destruct (decide _); simplify_eq; lia.
  - by autorewrite with state.
Qed.

(** Close a branch of a handler: the state at the end has the accounts of an
    environment that is reached by events and list writes alone. *)
Ltac same_accounts :=
  let Hst := fresh in
  intros (Hst & _ & _)%finish_inv; apply touches_accounts; rewrite Hst;
  rewrite ?accounts_set_lists, ?on_state_state; autorewrite with accounts;
  repeat case_match; done.

Section Funds.
Context `{Hashing} `{StakingCodec} `{BlockChain}.
Implicit Types (env : ScriptEnv.t) (sb : StakingBody.t) (gas : Z).

Lemma emit_accounts (fork : bool) (f : ScriptEnv.t -> ScriptEnv.t) env :
  state (f env) = state env ->
  State.accounts (state (if fork then f env else env)) = State.accounts (state env).
Proof. intros E. by destruct fork; rewrite ?E. Qed.

Lemma BoundHandler_funds env sb gas env' g err :
  BoundHandler env sb gas = Ret (env', g, err) -> touches (HolderAddr sb) (state env) (state env').
Proof.
  unfold BoundHandler. destruct (_ <? _); [same_accounts|]. destruct (negb _); [same_accounts|].
  destruct (bound_set_cand _ _ _ _) as [sc|]; [|done]. cbn [mbind outcome_bind].
  destruct (_ <? _); [same_accounts|]. destruct (_ <? _); [same_accounts|].
  destruct (GetBoundLockOption _) as [[opt rate] lt]. destruct (sc && _); [same_accounts|].
  destruct (BoundAccountMeterGov _ _ _) as [env1 e] eqn:Eb. apply touches_bound in Eb.
  intros (Hst & _ & _)%finish_inv. etrans; [exact Eb|]. apply touches_accounts.
  by rewrite Hst, accounts_set_lists, emit_accounts.
Qed.

Lemma CandidateHandler_funds env sb gas env' g err :
  CandidateHandler env sb gas = Ret (env', g, err) ->
  touches (CandAddr sb) (state env) (state env').
Proof.
  unfold CandidateHandler. repeat (destruct (_ <? _); [same_accounts|]).
  destruct (negb _); [same_accounts|]. repeat (destruct (_ <? _); [same_accounts|]).
  destruct (validatePubKey _); [|same_accounts]. destruct (_ || _); [same_accounts|].
  destruct (negb _); [same_accounts|]. destruct (listed_conflict _ _ _ _); [same_accounts|].
  destruct (CandidateList.Get _ _); [destruct (_ && _); same_accounts|].
  destruct (GetBoundLockOption _) as [[opt rate] lt].
  destruct (BoundAccountMeterGov _ _ _) as [env1 e] eqn:Eb. apply touches_bound in Eb.
  intros (Hst & _ & _)%finish_inv. etrans; [exact Eb|]. apply touches_accounts.
  by rewrite Hst, accounts_set_lists, emit_accounts.
Qed.

Lemma UnBoundHandler_funds env sb gas env' g err a :
  UnBoundHandler env sb gas = Ret (env', g, err) -> touches a (state env) (state env').
Proof.
  unfold UnBoundHandler. destruct (BucketList.Get _ _); [|same_accounts].
  destruct (check_bucket _ _); [same_accounts|]. destruct (_ && _); [same_accounts|].
  destruct (Bucket.IsForeverLock _); same_accounts.
Qed.

Lemma release_accounts a ids acc :
  State.accounts (state (snd (foldl (release_bucket a) acc ids))) = State.accounts (state (snd acc)).
Proof.
  revert acc. induction ids as [|id ids IH]; intros [bl env]; [done|]. cbn [foldl]. rewrite IH.
  unfold release_bucket. destruct (BucketList.Get bl id); [|done]. destruct (negb _); [done|].
  simpl. repeat case_match; done.
Qed.

Lemma UnCandidateHandler_funds env sb gas env' g err a :
  UnCandidateHandler env sb gas = Ret (env', g, err) -> touches a (state env) (state env').
Proof.
  unfold UnCandidateHandler. destruct (CandidateList.Get _ _) as [c|]; [|same_accounts].
  destruct (InJailList.Exist _ _); [same_accounts|].
  pose proof (release_accounts (Candidate.Addr c) (Candidate.Buckets c)
    (State.GetBucketList (state env), env)) as Hr.
  destruct (foldl _ _ _) as [bl env1]. simpl in Hr. intros (Hst & _ & _)%finish_inv.
  apply touches_accounts. by rewrite Hst, accounts_set_lists.
Qed.

Lemma DelegateHandler_funds env sb gas env' g err a :
  DelegateHandler env sb gas = Ret (env', g, err) -> touches a (state env) (state env').
Proof.
  unfold DelegateHandler. destruct (BucketList.Get _ _); [|same_accounts].
  destruct (check_bucket _ _); [same_accounts|]. destruct (Bucket.IsForeverLock _); [same_accounts|].
  destruct (negb _); [same_accounts|]. destruct (_ <? _); [same_accounts|].
  destruct (CandidateList.Get _ _); [|same_accounts].
  destruct (if IsTeslaFork8 _ then _ else _) as [ok|]; [|done]. cbn [mbind outcome_bind].
  destruct (negb ok); same_accounts.
Qed.

Lemma UnDelegateHandler_funds env sb gas env' g err a :
  UnDelegateHandler env sb gas = Ret (env', g, err) -> touches a (state env) (state env').
Proof.
  unfold UnDelegateHandler. destruct (BucketList.Get _ _); [|same_accounts].
  destruct (check_bucket _ _); [same_accounts|]. destruct (Bucket.IsForeverLock _); [same_accounts|].
  destruct (IsZero _); [same_accounts|]. destruct (CandidateList.Get _ _); same_accounts.
Qed.
Lemma bucket_sub_funds env sb gas cl bl sl b env' g err a :
  bucket_sub env sb gas cl bl sl b = Ret (env', g, err) -> touches a (state env) (state env').
Proof.
  unfold bucket_sub. destruct (Bucket.Unbounded b); [same_accounts|].
  destruct (if Bucket.IsForeverLock b then _ else _) as [[e|]|]; [same_accounts| |done].
  cbn [mbind outcome_bind]. destruct (big_div _ _) as [d|]; [|done]. cbn [mbind outcome_bind].
  same_accounts.
Qed.

Lemma bucket_add_funds env sb gas cl bl sl b env' g err :
  bucket_add env sb gas cl bl sl b = Ret (env', g, err) ->
  touches (HolderAddr sb) (state env) (state env').
Proof.
  unfold bucket_add. destruct (Bucket.Unbounded b); [same_accounts|].
  destruct (_ <? _); [same_accounts|].
  destruct (if _ && _ then _ else _) as [ok|]; [|done]. cbn [mbind outcome_bind].
  destruct (negb ok); [same_accounts|].
  destruct (BoundAccountMeterGov _ _ _) as [env1 e] eqn:Eb. apply touches_bound in Eb.
  destruct e; intros Hf; etrans; try exact Eb; revert Hf; same_accounts.
Qed.

Lemma bucket_add_legacy_funds env sb gas e cl bl b env' g err a :
  bucket_add_legacy env sb gas e cl bl b = Ret (env', g, err) ->
  touches a (state env) (state env').
Proof. unfold bucket_add_legacy. destruct (TouchBucketBonus _ _). same_accounts. Qed.

Lemma BucketUpdateHandler_funds env sb gas env' g err :
  BucketUpdateHandler env sb gas = Ret (env', g, err) ->
  touches (HolderAddr sb) (state env) (state env').
Proof.
  unfold BucketUpdateHandler. destruct (BucketList.Get _ _) as [b|]; [|same_accounts].
  destruct (negb _); [same_accounts|]. destruct (IsTeslaFork5 _).
  { destruct (_ =? _); [apply bucket_sub_funds|]. destruct (_ =? _); [apply bucket_add_funds|].
    same_accounts. }
  destruct (IsTeslaFork1 _); [|apply bucket_add_legacy_funds].
  destruct (Bucket.Unbounded b); [same_accounts|]. destruct (_ <? _); [same_accounts|].
  destruct (BoundAccountMeterGov _ _ _) as [env1 e] eqn:Eb. apply touches_bound in Eb.
  destruct e; intros Hf; (etrans; [exact Eb|]); revert Hf; [same_accounts|].
  apply bucket_add_legacy_funds.
Qed.

Lemma CandidateUpdateHandler_funds env sb gas env' g err a :
  CandidateUpdateHandler env sb gas = Ret (env', g, err) -> touches a (state env) (state env').
Proof.
  unfold CandidateUpdateHandler. destruct (validatePubKey _); [|same_accounts].
  destruct (_ || _); [same_accounts|]. destruct (negb _); [same_accounts|].
  destruct (_ <? _); [same_accounts|]. destruct (update_conflict _ _ _ _); [same_accounts|].
  destruct (CandidateList.Get _ _) as [c|]; [|same_accounts]. destruct (_ && _); [same_accounts|].
  destruct (GetCandidateBucket _ _) as [cb|]; [|done]. cbn [mbind outcome_bind].
  destruct (_ && _ && _); [same_accounts|]. destruct (update_record _ _ _ _ _).
  destruct (negb (_ || _)); [same_accounts|].
  intros (Hst & _ & _)%finish_inv. apply touches_accounts. rewrite Hst, on_state_state.
  autorewrite with accounts. destruct (IsTeslaFork5 _); [|done].
  rewrite on_state_state. by autorewrite with accounts.
Qed.

Lemma DelegateExitJailHandler_funds env sb gas env' g err :
  DelegateExitJailHandler env sb gas = Ret (env', g, err) ->
  touches (CandAddr sb) (state env) (state env').
Proof.
  unfold DelegateExitJailHandler. destruct (InJailList.Get _ _) as [j|] eqn:Ej; [|same_accounts].
  apply Get_sound in Ej. change (InJail.Addr j = CandAddr sb) in Ej. rewrite Ej.
  destruct (_ <? _); [same_accounts|].
  destruct (CollectBailMeterGov _ _ _) as [env1 e] eqn:Eb. apply touches_bail in Eb.
  destruct e; intros Hf; (etrans; [exact Eb|]); revert Hf; same_accounts.
Qed.

Lemma DelegateStatHandler_funds env sb gas env' g err a :
  DelegateStatHandler env sb gas = Ret (env', g, err) -> touches a (state env) (state env').
Proof.
  unfold DelegateStatHandler. destruct (InJailList.Exist _ _); [same_accounts|].
  destruct (UnpackBytesToInfraction _); same_accounts.
Qed.

Lemma DelegateStatFlushHandler_funds env sb gas env' g err a :
  DelegateStatFlushHandler env sb gas = Ret (env', g, err) -> touches a (state env) (state env').
Proof. unfold DelegateStatFlushHandler. same_accounts. Qed.
End Funds.

(** ** Errors without effect *)

(** A call with an error left the state alone and emitted nothing. *)
Definition clean (env env' : ScriptEnv.t) (err : option string) : Prop :=
  err <> None -> state env' = state env /\ transfers env' = transfers env /\ events env' = events env.

Lemma finish_clean env gas e env' g err : finish env gas e = Ret (env', g, err) -> clean env env' err.
Proof. by intros [= <- <- <-]. Qed.

Lemma success_clean env env1 gas env' g err :
  finish env gas None = Ret (env', g, err) -> clean env1 env' err.
Proof. by intros (_ & -> & _)%finish_inv. Qed.

Lemma bound_clean env env1 addr amount gas env' g err (k : ScriptEnv.t -> result) :
  amount <= State.GetBalance (state env) addr ->
  (forall e, k e = Ret (env', g, err) -> clean env1 env' err) ->
  match BoundAccountMeterGov addr amount env with
  | (e, Some msg) => finish e gas (Some msg)
  | (e, None) => k e
  end = Ret (env', g, err) -> clean env1 env' err.
Proof.
  intros Hb Hk. destruct (BoundAccountMeterGov_spec env addr amount Hb) as (e & -> & _). apply Hk.
Qed.

Ltac clean_return := first [apply finish_clean | apply success_clean].

Section Errors.
Context `{Hashing} `{StakingCodec} `{BlockChain}.
Implicit Types (env : ScriptEnv.t) (sb : StakingBody.t) (gas : Z).

Lemma BoundHandler_clean env sb gas env' g err :
  BoundHandler env sb gas = Ret (env', g, err) -> clean env env' err.
Proof.
  unfold BoundHandler. destruct (_ <? _); [clean_return|]. destruct (negb _); [clean_return|].
  destruct (bound_set_cand _ _ _ _) as [sc|] eqn:Ec; [|done]. cbn [mbind outcome_bind].
  destruct (Z.ltb_spec (State.GetBalance (state env) (HolderAddr sb)) (Amount sb));
    [clean_return|]. destruct (_ <? _); [clean_return|].
  destruct (GetBoundLockOption _) as [[opt rate] lt].
  assert (sc && negb (CandidateList.Exist (State.GetCandidateList (state env)) (CandAddr sb)) = false)
    as ->.
  { destruct sc; [|done]. apply bound_set_cand_true in Ec as [c Hc]. apply negb_false_iff.
    revert Hc. unfold Get, CandidateList.Exist, Exist. destruct (indexOf _ _) as [i j].
    by destruct (0 <=? i). }
  destruct (BoundAccountMeterGov_spec (inc_counter env) (HolderAddr sb) (Amount sb))
    as (env1 & -> & _); [simpl; lia|]. clean_return.
Qed.

Lemma CandidateHandler_clean env sb gas env' g err :
  CandidateHandler env sb gas = Ret (env', g, err) -> clean env env' err.
Proof.
  unfold CandidateHandler. destruct (_ <? _); [clean_return|]. destruct (negb _); [clean_return|].
  destruct (Z.ltb_spec (State.GetBalance (state env) (CandAddr sb)) (Amount sb)); [clean_return|].
  destruct (_ <? _); [clean_return|]. destruct (validatePubKey _); [|clean_return].
  destruct (_ || _); [clean_return|]. destruct (negb _); [clean_return|].
  destruct (listed_conflict _ _ _ _); [clean_return|].
  destruct (CandidateList.Get _ _); [destruct (_ && _); clean_return|].
  destruct (GetBoundLockOption _) as [[opt rate] lt].
  destruct (BoundAccountMeterGov_spec (inc_counter env) (CandAddr sb) (Amount sb))
    as (env1 & -> & _); [simpl; lia|]. clean_return.
Qed.

Lemma UnBoundHandler_clean env sb gas env' g err :
  UnBoundHandler env sb gas = Ret (env', g, err) -> clean env env' err.
Proof. unfold UnBoundHandler. repeat (case_match; try clean_return). Qed.

Lemma UnCandidateHandler_clean env sb gas env' g err :
  UnCandidateHandler env sb gas = Ret (env', g, err) -> clean env env' err.
Proof. unfold UnCandidateHandler. repeat (case_match; try clean_return). Qed.

Lemma DelegateHandler_clean env sb gas env' g err :
  DelegateHandler env sb gas = Ret (env', g, err) -> clean env env' err.
Proof.
  unfold DelegateHandler. do 6 (case_match; try clean_return).
  destruct (if IsTeslaFork8 _ then _ else _) as [ok|]; [|done]. cbn [mbind outcome_bind].
  destruct (negb ok); clean_return.
Qed.

Lemma UnDelegateHandler_clean env sb gas env' g err :
  UnDelegateHandler env sb gas = Ret (env', g, err) -> clean env env' err.
Proof. unfold UnDelegateHandler. repeat (case_match; try clean_return). Qed.

Lemma bucket_sub_clean env sb gas cl bl sl b env' g err :
  bucket_sub env sb gas cl bl sl b = Ret (env', g, err) -> clean env env' err.
Proof.
  unfold bucket_sub. destruct (Bucket.Unbounded b); [clean_return|].
  destruct (if Bucket.IsForeverLock b then _ else _) as [[e|]|]; [clean_return| |done].
  cbn [mbind outcome_bind]. destruct (big_div _ _) as [d|]; [|done]. cbn [mbind outcome_bind].
  clean_return.
Qed.

Lemma bucket_add_clean env sb gas cl bl sl b env' g err :
  bucket_add env sb gas cl bl sl b = Ret (env', g, err) -> clean env env' err.
Proof.
  unfold bucket_add. destruct (Bucket.Unbounded b); [clean_return|].
  destruct (Z.ltb_spec (State.GetBalance (state env) (HolderAddr sb)) (Amount sb)); [clean_return|].
  destruct (if _ && _ then _ else _) as [ok|]; [|done]. cbn [mbind outcome_bind].
  destruct (negb ok); [clean_return|]. apply bound_clean; [lia|]. intros e. clean_return.
Qed.

Lemma BucketUpdateHandler_clean env sb gas env' g err :
  IsTeslaFork5 (blockNum env) = true ->
  BucketUpdateHandler env sb gas = Ret (env', g, err) -> clean env env' err.
Proof.
  intros H5. unfold BucketUpdateHandler. rewrite H5.
  destruct (BucketList.Get _ _) as [b|]; [|clean_return]. destruct (negb _); [clean_return|].
  destruct (_ =? _); [apply bucket_sub_clean|]. destruct (_ =? _); [apply bucket_add_clean|].
  clean_return.
Qed.

Lemma DelegateExitJailHandler_clean env sb gas env' g err :
  DelegateExitJailHandler env sb gas = Ret (env', g, err) -> clean env env' err.
Proof.
  unfold DelegateExitJailHandler. destruct (InJailList.Get _ _) as [j|]; [|clean_return].
  destruct (_ <? _) eqn:El; [clean_return|]. unfold CollectBailMeterGov. rewrite El.
  destruct (InJail.BailAmount j =? 0); clean_return.
Qed.

Lemma DelegateStatFlushHandler_clean env sb gas env' g err :
  DelegateStatFlushHandler env sb gas = Ret (env', g, err) -> clean env env' err.
Proof. unfold DelegateStatFlushHandler. clean_return. Qed.
End Errors.
