(* ===== verification/StakingOwners.v ===== *)
(** * Buckets belong to their owners

    A clause other than the governing one cannot change the stake in a bucket
    its sender does not own: the bucket is still there, with the same owner,
    value, votes and maturity. *)

From S2P Require Import Prelude Text KeyedList ChainParam StakingTypes Ledger AuctionTypes Stats State ScriptEnv StakingUtils StakingBooks StakingHandlers AccountLock MeterTracker StakingGovern StakingInv.
Import ScriptEnv StakingBody.

(** Equal up to the fields that the candidate a bucket votes for can change by
    resigning: the vote, the lock option with its rate, and the autobid. *)
Record stake_eq (b b' : Bucket.t) : Prop := {
  se_id : Bucket.BucketID b' = Bucket.BucketID b;
  se_owner : Bucket.Owner b' = Bucket.Owner b;
  se_value : Bucket.Value b' = Bucket.Value b;
  se_token : Bucket.Token b' = Bucket.Token b;
  se_votes : Bucket.TotalVotes b' = Bucket.TotalVotes b;
  se_unbounded : Bucket.Unbounded b' = Bucket.Unbounded b;
  se_mature : Bucket.MatureTime b' = Bucket.MatureTime b
}.

#[global] Instance stake_eq_refl : Reflexive stake_eq.
Proof. by intros b. Qed.

#[global] Instance stake_eq_trans : Transitive stake_eq.
Proof. intros b1 b2 b3 [] []. split; congruence. Qed.

(** Every bucket that [a] does not own is kept. *)
Definition kept (a : Address) (bl bl' : BucketList.t) : Prop :=
  forall id b, Get bl id = Some b -> Bucket.Owner b <> a ->
  exists b', Get bl' id = Some b' /\ stake_eq b b'.

#[global] Instance kept_refl a : Reflexive (kept a).
Proof. intros bl id b Hb _. by exists b. Qed.

#[global] Instance kept_trans a : Transitive (kept a).
Proof.
  intros bl1 bl2 bl3 H1 H2 id b Hb Ho. destruct (H1 id b Hb Ho) as (b' & Hb' & He).
  destruct (H2 id b' Hb') as (b'' & Hb'' & He'); [by rewrite (se_owner _ _ He)|].
  exists b''. split; [done|]. by etrans.
Qed.

Lemma kept_Add a bl b : sorted bl -> Get bl (Bucket.BucketID b) = None -> kept a bl (BucketList.Add bl b).
Proof.
  intros Hs Hn id b1 Hb _. exists b1. split; [|done]. unfold BucketList.Add.
  rewrite Get_Add by done. case_decide as Hd; [|done]. subst id.
  change (key b) with (Bucket.BucketID b) in Hb. congruence.
Qed.

(** A write to a bucket that [a] owns. *)
Lemma kept_own a bl id b (f : Bucket.t -> Bucket.t) :
  sorted bl -> Get bl id = Some b -> Bucket.Owner b = a ->
  Bucket.BucketID (f b) = Bucket.BucketID b -> kept a bl (Modify f bl id).
Proof.
  intros Hs Hg Ho Hk id1 b1 Hb Ho1. exists b1. split; [|done].
  assert (id1 <> id) by congruence. rewrite Get_Modify, decide_False; [done..|].
  intros x Hx. assert (x = b) as -> by congruence. by rewrite <- (Get_key _ _ _ Hs Hg).
Qed.

(** A write that keeps the stake. *)
Lemma kept_stake a bl id (f : Bucket.t -> Bucket.t) :
  sorted bl -> (forall b, Get bl id = Some b -> stake_eq b (f b)) -> kept a bl (Modify f bl id).
Proof.
  intros Hs Hf id1 b1 Hb _. rewrite Get_Modify; [|done|].
  - case_decide as Hd; [|by exists b1]. subst id1. exists (f b1). rewrite Hb. eauto.
  - intros x Hx. rewrite <- (Get_key _ _ _ Hs Hx). apply (se_id _ _ (Hf x Hx)).
Qed.

(** The bucket list after the lists are stored is the one given, or, when it
    cannot be encoded, the one before. *)
Lemma kept_set_lists a env cl bl sl :
  kept a (State.buckets (state env)) bl ->
  kept a (State.buckets (state env)) (State.buckets (state (set_lists cl bl sl env))).
Proof.
  intros Hk. rewrite set_lists_state.
  unfold State.SetStakeHolderList, State.SetBucketList, State.SetCandidateList, State.EncodeStorage.
  by repeat (case_match; simpl).
Qed.

Lemma kept_set_buckets a s s1 cl bl :
  State.buckets s1 = State.buckets s -> kept a (State.buckets s) bl ->
  kept a (State.buckets s) (State.buckets (State.SetCandidateList cl (State.SetBucketList bl s1))).
Proof.
  intros E Hk. unfold State.SetBucketList, State.SetCandidateList, State.EncodeStorage.
  repeat (case_match; simpl); by rewrite ?E.
Qed.

Lemma kept_set_lists' a s cl bl sl :
  kept a (State.buckets s) bl ->
  kept a (State.buckets s) (State.buckets (State.SetStakeHolderList sl
    (State.SetCandidateList cl (State.SetBucketList bl s)))).
Proof.
  intros Hk.
  unfold State.SetStakeHolderList, State.SetBucketList, State.SetCandidateList, State.EncodeStorage.
  by repeat (case_match; simpl).
Qed.

(** The end of a handler that stores the lists. *)
Lemma kept_finish a bl0 env cl bl sl gas e env' g err :
  State.buckets (state env) = bl0 -> kept a bl0 bl ->
  finish (set_lists cl bl sl env) gas e = Ret (env', g, err) ->
  kept a bl0 (State.buckets (state env')).
Proof. intros <- Hk (Hst & _ & _)%finish_inv. rewrite Hst. by apply kept_set_lists. Qed.

Lemma kept_finish' a bl0 env cl bl sl gas e env' g err :
  State.buckets (state env) = bl0 -> kept a bl0 bl ->
  finish (on_state (fun s => State.SetStakeHolderList sl
    (State.SetCandidateList cl (State.SetBucketList bl s))) env) gas e = Ret (env', g, err) ->
  kept a bl0 (State.buckets (state env')).
Proof.
  intros <- Hk (Hst & _ & _)%finish_inv. rewrite Hst, on_state_state. by apply kept_set_lists'.
Qed.

(** Close a branch that does not write the bucket list. *)
Ltac kept_early :=
  let Hst := fresh in intros (Hst & _ & _)%finish_inv; rewrite Hst; reflexivity.

Section Owners.
Context `{Hashing} `{StakingCodec} `{BlockChain}.
Implicit Types (env : ScriptEnv.t) (sb : StakingBody.t) (gas : Z).

Lemma bound_buckets addr amount env env' err :
  BoundAccountMeterGov addr amount env = (env', err) ->
  State.buckets (state env') = State.buckets (state env).
Proof. unfold BoundAccountMeterGov. repeat case_match; by intros [= <- <-]. Qed.

Lemma wf_sorted_buckets s : core_wf s -> sorted (State.buckets s).
Proof. intros Hw. apply Hw. Qed.

Lemma BoundHandler_kept env sb gas env' g err a :
  core_wf (state env) -> Get (State.buckets (state env)) (new_id env sb (HolderAddr sb)) = None ->
  BoundHandler env sb gas = Ret (env', g, err) ->
  kept a (State.buckets (state env)) (State.buckets (state env')).
Proof.
  intros Hw Hf. unfold BoundHandler. read_core Hw.
  destruct (_ <? _); [kept_early|]. destruct (negb _); [kept_early|].
  destruct (bound_set_cand _ _ _ _) as [sc|]; [|done]. cbn [mbind outcome_bind].
  destruct (_ <? _); [kept_early|]. destruct (_ <? _); [kept_early|].
  destruct (GetBoundLockOption _) as [[opt rate] lt]. destruct (sc && _); [kept_early|].
  destruct (BoundAccountMeterGov _ _ _) as [env1 e] eqn:Eb. apply bound_buckets in Eb.
  apply kept_finish; [by rewrite emit_state|]. apply kept_Add; [by apply wf_sorted_buckets|done].
Qed.

Lemma CandidateHandler_kept env sb gas env' g err a :
  core_wf (state env) -> Get (State.buckets (state env)) (new_id env sb (CandAddr sb)) = None ->
  CandidateHandler env sb gas = Ret (env', g, err) ->
  kept a (State.buckets (state env)) (State.buckets (state env')).
Proof.
  intros Hw Hf. unfold CandidateHandler. read_core Hw.
  destruct (_ <? _); [kept_early|]. destruct (negb _); [kept_early|].
  do 2 (destruct (_ <? _); [kept_early|]). destruct (validatePubKey _); [|kept_early].
  destruct (_ || _); [kept_early|]. destruct (negb _); [kept_early|].
  destruct (listed_conflict _ _ _ _); [kept_early|].
  destruct (CandidateList.Get _ _); [destruct (_ && _); kept_early|].
  destruct (GetBoundLockOption _) as [[opt rate] lt].
  destruct (BoundAccountMeterGov _ _ _) as [env1 e] eqn:Eb. apply bound_buckets in Eb.
  apply kept_finish; [by rewrite emit_state|]. apply kept_Add; [by apply wf_sorted_buckets|done].
Qed.
Lemma check_bucket_owner sb b : check_bucket sb b = None -> Bucket.Owner b = HolderAddr sb.
Proof. unfold check_bucket. destruct (negb _) eqn:E; [done|]. lia. Qed.

Lemma UnBoundHandler_kept env sb gas env' g err :
  core_wf (state env) -> UnBoundHandler env sb gas = Ret (env', g, err) ->
  kept (HolderAddr sb) (State.buckets (state env)) (State.buckets (state env')).
Proof.
  intros Hw. unfold UnBoundHandler, BucketList.Get. read_core Hw.
  destruct (Get _ _) as [b|] eqn:Eb; [|kept_early].
  destruct (check_bucket _ _) eqn:Ec; [kept_early|]. do 2 (case_match; [kept_early|]).
  apply kept_finish; [by rewrite emit_state|].
  eapply kept_own; eauto using wf_sorted_buckets, check_bucket_owner.
Qed.

Lemma DelegateHandler_kept env sb gas env' g err :
  core_wf (state env) -> DelegateHandler env sb gas = Ret (env', g, err) ->
  kept (HolderAddr sb) (State.buckets (state env)) (State.buckets (state env')).
Proof.
  intros Hw. unfold DelegateHandler, BucketList.Get. read_core Hw.
  destruct (Get _ _) as [b|] eqn:Eb; [|kept_early].
  destruct (check_bucket _ _) eqn:Ec; [kept_early|]. do 3 (case_match; [kept_early|]).
  destruct (CandidateList.Get _ _); [|kept_early].
  destruct (if IsTeslaFork8 _ then _ else _) as [ok|]; [|done]. cbn [mbind outcome_bind].
  destruct (negb ok); [kept_early|]. apply kept_finish; [by rewrite emit_state|].
  eapply kept_own; eauto using wf_sorted_buckets, check_bucket_owner.
Qed.

Lemma UnDelegateHandler_kept env sb gas env' g err :
  core_wf (state env) -> UnDelegateHandler env sb gas = Ret (env', g, err) ->
  kept (HolderAddr sb) (State.buckets (state env)) (State.buckets (state env')).
Proof.
  intros Hw. unfold UnDelegateHandler, BucketList.Get. read_core Hw.
  destruct (Get _ _) as [b|] eqn:Eb; [|kept_early].
  destruct (check_bucket _ _) eqn:Ec; [kept_early|]. do 2 (case_match; [kept_early|]).
  destruct (CandidateList.Get _ _); [|kept_early]. apply kept_finish; [by rewrite emit_state|].
  eapply kept_own; eauto using wf_sorted_buckets, check_bucket_owner.
Qed.

Lemma release_kept c a ids bl env :
  sorted bl -> kept a bl (fst (foldl (release_bucket c) (bl, env) ids)).
Proof.
  revert bl env. induction ids as [|id ids IH]; intros bl env Hs; [done|]. cbn [foldl].
  destruct (release_bucket c (bl, env) id) as [bl1 env1] eqn:E.
  assert (sorted bl1 /\ kept a bl bl1) as [Hs1 Hk1]; [|etrans; [exact Hk1|by apply IH]].
  revert E. unfold release_bucket, BucketList.Get.
  destruct (Get bl id) as [b|] eqn:Eb; [|by intros [= <- <-]].
  destruct (negb _); [by intros [= <- <-]|].
  pose proof (Get_key _ _ _ Hs Eb) as Hk.
  assert (forall b', stake_eq b b' -> sorted (Modify (fun _ => b') bl id) /\
    kept a bl (Modify (fun _ => b') bl id)) as Hm.
  { intros b' He. split; [|apply kept_stake; [done|]; intros x Hx; congruence].
    apply Modify_sorted; [done|]. intros x _. rewrite <- Hk. apply (se_id _ _ He). }
  destruct (Bucket.IsForeverLock _); intros [= <- <-]; by apply Hm.
Qed.

Lemma UnCandidateHandler_kept env sb gas env' g err a :
  core_wf (state env) -> UnCandidateHandler env sb gas = Ret (env', g, err) ->
  kept a (State.buckets (state env)) (State.buckets (state env')).
Proof.
  intros Hw. unfold UnCandidateHandler, CandidateList.Get. read_core Hw.
  destruct (Get _ _) as [c|] eqn:Ec; [|kept_early]. case_match; [kept_early|].
  pose proof (release_kept (Candidate.Addr c) a (Candidate.Buckets c) _ env
    (wf_sorted_buckets _ Hw)) as Hk.
  pose proof (Get_key _ _ _ (lo_sorted _ _ (bk_cands _ _ _ Hw)) Ec) as Hka.
  destruct (books_ok_wf _ _ _ Hw) as [sl Hwf].
  destruct (release_loop _ _ _ _ _ _ _ env Hwf Ec eq_refl) as (bl' & env1 & Hr & Hs & _).
  change (Candidate.Addr c = CandAddr sb) in Hka. rewrite <- Hka in Hr. rewrite Hr in *.
  simpl in Hk. apply kept_finish; [by rewrite Hs|done].
Qed.

Lemma bucket_sub_kept env sb gas b env' g err :
  core_wf (state env) -> Get (State.buckets (state env)) (StakingID sb) = Some b ->
  Get (State.buckets (state env)) (new_id env sb (Bucket.Owner b)) = None ->
  bucket_sub env sb gas (State.candidates (state env)) (State.buckets (state env))
    (State.GetStakeHolderList (state env)) b = Ret (env', g, err) ->
  kept (Bucket.Owner b) (State.buckets (state env)) (State.buckets (state env')).
Proof.
  intros Hw Eb Hf. unfold bucket_sub. destruct (Bucket.Unbounded b); [kept_early|].
  destruct (if Bucket.IsForeverLock b then _ else _) as [[e|]|]; [kept_early| |done].
  cbn [mbind outcome_bind]. destruct (big_div _ _) as [d|]; [|done]. cbn [mbind outcome_bind].
  apply kept_finish'; [by rewrite emit_state|]. pose proof (wf_sorted_buckets _ Hw) as Hs.
  pose proof (Get_key _ _ _ Hs Eb) as Hk.
  match goal with |- kept _ _ (BucketList.Add (Modify ?f _ _) _) =>
    etrans; [by apply (kept_own _ _ (StakingID sb) b f)|] end.
  apply kept_Add; [apply Modify_sorted; [done|by intros; rewrite <- Hk]|].
  rewrite Get_Modify; [|done|by intros; rewrite <- Hk].
  case_decide as Hd; [|exact Hf]. exfalso. rewrite <- Hd in Eb.
  change (Get (State.buckets (state env)) (new_id env sb (Bucket.Owner b)) = Some b) in Eb.
  congruence.
Qed.

Lemma bucket_add_kept env sb gas b env' g err :
  core_wf (state env) -> Get (State.buckets (state env)) (StakingID sb) = Some b ->
  bucket_add env sb gas (State.candidates (state env)) (State.buckets (state env))
    (State.GetStakeHolderList (state env)) b = Ret (env', g, err) ->
  kept (Bucket.Owner b) (State.buckets (state env)) (State.buckets (state env')).
Proof.
  intros Hw Eb. unfold bucket_add. do 2 (case_match; [kept_early|]).
  destruct (if _ && _ then _ else _) as [ok|]; [|done]. cbn [mbind outcome_bind].
  destruct (negb ok); [kept_early|].
  destruct (BoundAccountMeterGov _ _ _) as [env1 e] eqn:Ee. apply bound_buckets in Ee.
  destruct e; [by intros (-> & _ & _)%finish_inv; rewrite Ee|].
  apply kept_finish'; [by rewrite emit_state|].
  eapply kept_own; eauto using wf_sorted_buckets.
Qed.

Lemma BucketUpdateHandler_kept env sb gas env' g err :
  core_wf (state env) -> IsTeslaFork5 (blockNum env) = true ->
  Get (State.buckets (state env)) (new_id env sb (HolderAddr sb)) = None ->
  BucketUpdateHandler env sb gas = Ret (env', g, err) ->
  kept (HolderAddr sb) (State.buckets (state env)) (State.buckets (state env')).
Proof.
  intros Hw H5 Hf. unfold BucketUpdateHandler, BucketList.Get. read_core Hw. rewrite H5.
  destruct (Get _ (StakingID sb)) as [b|] eqn:Eb; [|kept_early].
  destruct (Z.eqb_spec (Bucket.Owner b) (HolderAddr sb)) as [Ho|]; [simpl|kept_early].
  rewrite <- Ho in *. case_match; [by apply bucket_sub_kept|].
  case_match; [by apply bucket_add_kept|kept_early].
Qed.

Lemma CandidateUpdateHandler_kept env sb gas env' g err a :
  core_wf (state env) -> CandidateUpdateHandler env sb gas = Ret (env', g, err) ->
  kept a (State.buckets (state env)) (State.buckets (state env')).
Proof.
  intros Hw. unfold CandidateUpdateHandler. read_core Hw.
  destruct (validatePubKey _); [|kept_early]. do 3 (case_match; [kept_early|]).
  destruct (update_conflict _ _ _ _); [kept_early|].
  destruct (CandidateList.Get _ _) as [c|]; [|kept_early]. destruct (_ && _); [kept_early|].
  destruct (GetCandidateBucket _ _) as [cb|]; [|done]. cbn [mbind outcome_bind].
  destruct (_ && _ && _); [kept_early|]. destruct (update_record _ _ _ _ _).
  destruct (negb (_ || _)); [kept_early|].
  intros (Hst & _ & _)%finish_inv. rewrite Hst, on_state_state.
  apply kept_set_buckets.
  - destruct (IsTeslaFork5 _); [|done]. rewrite on_state_state.
    unfold State.SetInJailList, State.EncodeStorage. by destruct (encodable _).
  - destruct cb as [b1|]; [|done]. destruct (_ && _); [|done].
    apply kept_stake; [by apply wf_sorted_buckets|]. intros x _. by split.
Qed.

(** The jail and statistics handlers write other slots. *)
Lemma DelegateExitJailHandler_kept env sb gas env' g err a :
  DelegateExitJailHandler env sb gas = Ret (env', g, err) ->
  kept a (State.buckets (state env)) (State.buckets (state env')).
Proof.
  unfold DelegateExitJailHandler. destruct (InJailList.Get _ _) as [j|]; [|kept_early].
  destruct (_ <? _); [kept_early|].
  destruct (CollectBailMeterGov _ _ _) as [env1 e] eqn:Eb.
  assert (State.buckets (state env1) = State.buckets (state env)) as E.
  { revert Eb. unfold CollectBailMeterGov, State.SubBalance, State.AddBalance.
    repeat case_match; intros [= <- <-]; simpl; repeat case_match; done. }
  destruct e; intros (Hst & _ & _)%finish_inv; rewrite Hst, <- E; [done|]. rewrite on_state_state.
  unfold State.SetDelegateStatList, State.SetInJailList, State.EncodeStorage.
  by destruct (encodable _), (encodable _).
Qed.

Lemma stats_buckets (jail : InJailList.t) (stats : DelegateStatList.t) s :
  State.buckets (State.SetInJailList jail (State.SetDelegateStatList stats s)) = State.buckets s.
Proof.
  unfold State.SetDelegateStatList, State.SetInJailList, State.EncodeStorage.
  by destruct (encodable _), (encodable _).
Qed.

Lemma DelegateStatHandler_kept env sb gas env' g err a :
  DelegateStatHandler env sb gas = Ret (env', g, err) ->
  kept a (State.buckets (state env)) (State.buckets (state env')).
Proof.
  unfold DelegateStatHandler. repeat case_match; intros (Hst & _ & _)%finish_inv;
    by rewrite Hst, on_state_state, stats_buckets.
Qed.

Lemma DelegateStatFlushHandler_kept env sb gas env' g err a :
  DelegateStatFlushHandler env sb gas = Ret (env', g, err) ->
  kept a (State.buckets (state env)) (State.buckets (state env')).
Proof.
  unfold DelegateStatFlushHandler. intros (Hst & _ & _)%finish_inv.
  by rewrite Hst, on_state_state, stats_buckets.
Qed.
End Owners.
