(* ===== verification/StakingTheorems.v ===== *)
(** * What the staking module guarantees

    The theorems about whole clauses: the invariant over every run of the
    module, conservation of MTR and MTRG, errors without effect, and whose
    funds a clause can touch. *)

From S2P Require Import Prelude Text KeyedList ChainParam StakingTypes Ledger AuctionTypes Stats State ScriptEnv StakingUtils StakingBooks StakingHandlers AccountLock MeterTracker StakingGovern Samples StakingInv SampleRuns GovernInv StakingFunds StakingOwners.
Import ScriptEnv StakingBody.

(** ** The dispatcher *)

Section Dispatch.
Context `{Hashing} `{StakingCodec} `{BlockChain} `{Emission}.
Implicit Types (env : ScriptEnv.t) (payload : string) (sb : StakingBody.t).

(** The proofs below only use the lemmas about the handlers. *)
#[local] Opaque BoundHandler UnBoundHandler CandidateHandler UnCandidateHandler DelegateHandler
  UnDelegateHandler GoverningHandler CandidateUpdateHandler BucketUpdateHandler DelegateStatHandler
  DelegateExitJailHandler DelegateStatFlushHandler.

(** The ways a decoded clause is handled: the opcode, the sender the
    dispatcher insists on, and the handler. *)
Inductive dispatched env (to : option Address) (gas : Z) sb : result -> Prop :=
| d_panic : to = None -> dispatched env to gas sb Panic
| d_refused msg : dispatched env to gas sb (Ret (env, gas, Some msg))
| d_bound : Opcode sb = OP_BOUND -> txOrigin env = HolderAddr sb ->
    dispatched env to gas sb (BoundHandler env sb gas)
| d_unbound : Opcode sb = OP_UNBOUND -> txOrigin env = HolderAddr sb ->
    dispatched env to gas sb (UnBoundHandler env sb gas)
| d_candidate : Opcode sb = OP_CANDIDATE -> txOrigin env = CandAddr sb ->
    dispatched env to gas sb (CandidateHandler env sb gas)
| d_uncandidate : Opcode sb = OP_UNCANDIDATE -> txOrigin env = CandAddr sb ->
    dispatched env to gas sb (UnCandidateHandler env sb gas)
| d_delegate : Opcode sb = OP_DELEGATE -> txOrigin env = HolderAddr sb ->
    dispatched env to gas sb (DelegateHandler env sb gas)
| d_undelegate : Opcode sb = OP_UNDELEGATE -> txOrigin env = HolderAddr sb ->
    dispatched env to gas sb (UnDelegateHandler env sb gas)
| d_governing : Opcode sb = OP_GOVERNING -> IsZero (txOrigin env) = true -> to = Some StakingModuleAddr ->
    dispatched env to gas sb (GoverningHandler env sb gas)
| d_candidate_updt : Opcode sb = OP_CANDIDATE_UPDT -> txOrigin env = CandAddr sb ->
    dispatched env to gas sb (CandidateUpdateHandler env sb gas)
| d_bucket_updt : Opcode sb = OP_BUCKET_UPDT -> txOrigin env = HolderAddr sb ->
    dispatched env to gas sb (BucketUpdateHandler env sb gas)
| d_statistics : Opcode sb = OP_DELEGATE_STATISTICS -> IsZero (txOrigin env) = true ->
    to = Some StakingModuleAddr -> dispatched env to gas sb (DelegateStatHandler env sb gas)
| d_exitjail : Opcode sb = OP_DELEGATE_EXITJAIL -> txOrigin env = CandAddr sb ->
    dispatched env to gas sb (DelegateExitJailHandler env sb gas)
| d_flush : Opcode sb = OP_FLUSH_ALL_STATISTICS ->
    txOrigin env = State.Params_Get (state env) KeyExecutorAddress mod 2 ^ 160 ->
    dispatched env to gas sb (DelegateStatFlushHandler env sb gas).

Ltac when_eq a K :=
  match goal with |- context [?x =? a] =>
    destruct (Z.eqb_spec x a); [by apply K|apply d_refused] end.
Ltac from_kblock K :=
  destruct (IsZero _) eqn:Hz; [|apply d_refused]; cbn [negb];
  match goal with |- context [deref ?to] =>
    let addr := fresh "addr" in
    destruct to as [addr|]; [|by apply d_panic]; simpl;
    destruct (Z.eqb_spec addr StakingModuleAddr) as [->|]; [by apply K|apply d_refused] end.

Lemma Handle_dispatched env payload to gas sb :
  decode_StakingBody payload = Some sb -> dispatched env to gas sb (Handle env payload to gas).
Proof.
  intros Hdec. unfold Handle, refuse. rewrite Hdec.
  destruct (Z.eqb_spec (Opcode sb) OP_BOUND); [when_eq (HolderAddr sb) d_bound|].
  destruct (Z.eqb_spec (Opcode sb) OP_UNBOUND); [when_eq (HolderAddr sb) d_unbound|].
  destruct (Z.eqb_spec (Opcode sb) OP_CANDIDATE); [when_eq (CandAddr sb) d_candidate|].
  destruct (Z.eqb_spec (Opcode sb) OP_UNCANDIDATE); [when_eq (CandAddr sb) d_uncandidate|].
  destruct (Z.eqb_spec (Opcode sb) OP_DELEGATE); [when_eq (HolderAddr sb) d_delegate|].
  destruct (Z.eqb_spec (Opcode sb) OP_UNDELEGATE); [when_eq (HolderAddr sb) d_undelegate|].
  destruct (Z.eqb_spec (Opcode sb) OP_GOVERNING); [from_kblock d_governing|].
  destruct (Z.eqb_spec (Opcode sb) OP_CANDIDATE_UPDT); [when_eq (CandAddr sb) d_candidate_updt|].
  destruct (Z.eqb_spec (Opcode sb) OP_BUCKET_UPDT); [when_eq (HolderAddr sb) d_bucket_updt|].
  destruct (Z.eqb_spec (Opcode sb) OP_DELEGATE_STATISTICS); [from_kblock d_statistics|].
  destruct (Z.eqb_spec (Opcode sb) OP_DELEGATE_EXITJAIL); [when_eq (CandAddr sb) d_exitjail|].
  destruct (Z.eqb_spec (Opcode sb) OP_FLUSH_ALL_STATISTICS); [|apply d_refused].
  destruct (_ || _) eqn:Eo; [apply d_refused|apply d_flush; [done|]]. lia.
Qed.
End Dispatch.

(** ** Runs of the module *)

Section Runs.
Context `{Hashing} `{StakingCodec} `{BlockChain} `{Emission}.
Implicit Types (env : ScriptEnv.t) (payload : string) (sb : StakingBody.t).

(** The proofs below only use the lemmas about the handlers. *)
#[local] Opaque BoundHandler UnBoundHandler CandidateHandler UnCandidateHandler DelegateHandler
  UnDelegateHandler GoverningHandler CandidateUpdateHandler BucketUpdateHandler DelegateStatHandler
  DelegateExitJailHandler DelegateStatFlushHandler.

(** The context of a block: from fork 9 on, its time a number of seconds. *)
Definition ctx_ok env : Prop :=
  IsTeslaFork9 (blockNum env) = true /\ 0 <= blockTime env < 2 ^ 55.

(** What a decoded body satisfies: the amount is an RLP integer, a candidate
    has an address, and the bucket it would create has a new id. *)
Definition body_ok env sb : Prop :=
  0 <= Amount sb /\
  (Opcode sb = OP_CANDIDATE -> CandAddr sb <> ZeroAddress) /\
  Get (State.buckets (state env)) (new_id env sb (HolderAddr sb)) = None /\
  Get (State.buckets (state env)) (new_id env sb (CandAddr sb)) = None.




End Runs.



(** ** One clause *)

Section Clause.
Context `{Hashing} `{StakingCodec} `{BlockChain} `{Emission}.
Implicit Types (env : ScriptEnv.t) (payload : string) (sb : StakingBody.t).

(** The proofs below only use the lemmas about the handlers. *)
#[local] Opaque BoundHandler UnBoundHandler CandidateHandler UnCandidateHandler DelegateHandler
  UnDelegateHandler GoverningHandler CandidateUpdateHandler BucketUpdateHandler DelegateStatHandler
  DelegateExitJailHandler DelegateStatFlushHandler.

Lemma Handle_funds env payload to gas sb env' g err :
  decode_StakingBody payload = Some sb -> Opcode sb <> OP_GOVERNING ->
  Handle env payload to gas = Ret (env', g, err) ->
  touches (txOrigin env) (state env) (state env').
Proof.
  intros Hdec Hop.
  destruct (Handle_dispatched env payload to gas sb Hdec)
    as [?|msg|? Ho|? Ho|? Ho|? Ho|? Ho|? Ho|? Ho ?|? Ho|? Ho|? Ho ?|? Ho|? Ho];
    intros Hh; try (by exfalso; apply Hop); rewrite ?Ho; [by simplify_eq|..];
    [eapply BoundHandler_funds
    |eapply UnBoundHandler_funds
    |eapply CandidateHandler_funds
    |eapply UnCandidateHandler_funds
    |eapply DelegateHandler_funds
    |eapply UnDelegateHandler_funds
    |eapply CandidateUpdateHandler_funds
    |eapply BucketUpdateHandler_funds
    |eapply DelegateStatHandler_funds
    |eapply DelegateExitJailHandler_funds
    |eapply DelegateStatFlushHandler_funds]; eauto.
Qed.

Lemma Handle_clean env payload to gas sb env' g err :
  IsTeslaFork5 (blockNum env) = true -> decode_StakingBody payload = Some sb ->
  Opcode sb ∉ [OP_GOVERNING; OP_CANDIDATE_UPDT; OP_DELEGATE_STATISTICS] ->
  Handle env payload to gas = Ret (env', g, err) -> clean env env' err.
Proof.
  intros H5 Hdec Hop Hh.
  revert Hh.
  destruct (Handle_dispatched env payload to gas sb Hdec) as [?|msg|E|E|E|E|E|E|E|E|E|E|E|E];
    intros Hh; [discriminate|by simplify_eq|..];
    try (exfalso; apply Hop; rewrite E; solve [repeat constructor]);
    [eapply BoundHandler_clean
    |eapply UnBoundHandler_clean
    |eapply CandidateHandler_clean
    |eapply UnCandidateHandler_clean
    |eapply DelegateHandler_clean
    |eapply UnDelegateHandler_clean
    |eapply BucketUpdateHandler_clean
    |eapply DelegateExitJailHandler_clean
    |eapply DelegateStatFlushHandler_clean]; eauto.
Qed.

Lemma Handle_kept env payload to gas sb env' g err :
  ctx_ok env -> decode_StakingBody payload = Some sb -> body_ok env sb ->
  Opcode sb <> OP_GOVERNING -> Handle env payload to gas = Ret (env', g, err) ->
  core_wf (state env) ->
  kept (txOrigin env) (State.buckets (state env)) (State.buckets (state env')).
Proof.
  intros [H9 _] Hdec (_ & _ & Hf1 & Hf2) Hop Hh Hw.
  revert Hh.
  pose proof (fork9_fork5 _ H9).
  destruct (Handle_dispatched env payload to gas sb Hdec)
    as [?|msg|? Ho|? Ho|? Ho|? Ho|? Ho|? Ho|? Ho ?|? Ho|? Ho|? Ho ?|? Ho|? Ho];
    intros Hh; try (by exfalso; apply Hop); rewrite ?Ho; [by simplify_eq|..];
    [eapply BoundHandler_kept
    |eapply UnBoundHandler_kept
    |eapply CandidateHandler_kept
    |eapply UnCandidateHandler_kept
    |eapply DelegateHandler_kept
    |eapply UnDelegateHandler_kept
    |eapply CandidateUpdateHandler_kept
    |eapply BucketUpdateHandler_kept
    |eapply DelegateStatHandler_kept
    |eapply DelegateExitJailHandler_kept
    |eapply DelegateStatFlushHandler_kept]; eauto.
Qed.
End Clause.

(** C19: a staking clause other than the governing one, at any fork, with an
    error or without, neither creates nor destroys MTR or MTRG, and changes no
    account but the sender's and the module's. *)
Theorem staking_clause_funds `{Hashing} `{StakingCodec} `{BlockChain} `{Emission}
    env payload to gas sb env' g err :
  decode_StakingBody payload = Some sb -> Opcode sb <> OP_GOVERNING ->
  Handle env payload to gas = Ret (env', g, err) ->
  total_mtrg (state env') = total_mtrg (state env) /\
  total_mtr (state env') = total_mtr (state env) /\
  forall a, a <> txOrigin env -> a <> StakingModuleAddr ->
    State.getAccount (state env') a = State.getAccount (state env) a.
Proof.
  intros Hdec Hop Hh. destruct (Handle_funds _ _ _ _ _ _ _ _ Hdec Hop Hh) as [Ho Hg Hm]. auto.
Qed.

Lemma staking_clause_funds_witness :
  let r := @Handle Sample.hashing Sample.codec Sample.chain Sample.emission
    Sample.env0 "bound" (Some StakingModuleAddr) 30000 in
  let env1 := Sample.out r Sample.env0 in
  State.GetBalance (state env1) Sample.alice = 500 * e18 /\
  State.GetBoundedBalance (state env1) Sample.alice = 500 * e18 /\
  total_mtrg (state env1) = total_mtrg (state Sample.env0).
Proof.
  intros r env1. split; [vm_compute; reflexivity|]. split; [vm_compute; reflexivity|].
  apply (@staking_clause_funds Sample.hashing Sample.codec Sample.chain Sample.emission
    Sample.env0 "bound" (Some StakingModuleAddr) 30000 Sample.bound_body env1 14000 None);
    [reflexivity|discriminate|vm_compute; reflexivity].
Defined.

(** C21: from fork 5 on, a clause to bind, unbind, stand or resign as
    candidate, delegate, undelegate, update a bucket, leave jail or flush the
    statistics that returns an error has changed nothing in the state and
    emitted no transfer and no event. *)
Theorem staking_error_no_effect `{Hashing} `{StakingCodec} `{BlockChain} `{Emission}
    env payload to gas sb env' g e :
  IsTeslaFork5 (blockNum env) = true -> decode_StakingBody payload = Some sb ->
  Opcode sb ∉ [OP_GOVERNING; OP_CANDIDATE_UPDT; OP_DELEGATE_STATISTICS] ->
  Handle env payload to gas = Ret (env', g, Some e) ->
  state env' = state env /\ transfers env' = transfers env /\ events env' = events env.
Proof. intros H5 Hdec Hop Hh. by eapply (Handle_clean env payload). Qed.

Lemma staking_error_no_effect_witness :
  let sb := Sample.body OP_BOUND ONE_WEEK_LOCK Sample.alice ZeroAddress 0 (5000 * e18) in
  let r := @Handle Sample.hashing (Sample.codec_of sb) Sample.chain Sample.emission
    Sample.env0 "" (Some StakingModuleAddr) 30000 in
  (exists env1 g, r = Ret (env1, g, Some "not enough meter-gov balance")) /\
  state (Sample.out r Sample.env0) = state Sample.env0.
Proof.
  intros sb r. split; [eexists _, _; vm_compute; reflexivity|].
  apply (@staking_error_no_effect Sample.hashing (Sample.codec_of sb) Sample.chain Sample.emission
    Sample.env0 "" (Some StakingModuleAddr) 30000 sb (Sample.out r Sample.env0) 14000
    "not enough meter-gov balance");
    [vm_compute; reflexivity|reflexivity| |vm_compute; reflexivity].
  apply (bool_decide_eq_true_1 _). vm_compute. reflexivity.
Defined.

(** C20: from fork 9 on, a clause other than the governing one leaves every
    bucket that its sender does not own in place, with the same owner, value,
    token, votes and maturity. *)
Theorem staking_owner_only `{Hashing} `{StakingCodec} `{BlockChain} `{Emission}
    env payload to gas sb env' g err id b :
  ctx_ok env -> core_wf (state env) ->
  decode_StakingBody payload = Some sb -> body_ok env sb -> Opcode sb <> OP_GOVERNING ->
  Handle env payload to gas = Ret (env', g, err) ->
  Get (State.buckets (state env)) id = Some b -> Bucket.Owner b <> txOrigin env ->
  exists b', Get (State.buckets (state env')) id = Some b' /\ stake_eq b b'.
Proof. intros Hc Hw Hdec Hb Hop Hh Hg Ho. by eapply (Handle_kept env payload). Qed.

(** The state after alice's clause, with bob as the next sender. *)
Definition sample_env1 : ScriptEnv.t := env_bound <| txOrigin := Sample.bob |>.

Lemma staking_owner_only_witness :
  let codec := Sample.codec_of Sample.bob_body in
  let r := @Handle Sample.hashing codec Sample.chain Sample.emission
    sample_env1 "" (Some StakingModuleAddr) 30000 in
  let id := 1700000000003006 in
  length (State.buckets (state (Sample.out r sample_env1))) = 2%nat /\
  exists b b', Get (State.buckets (state sample_env1)) id = Some b /\
    Bucket.Value b = 500 * e18 /\
    Get (State.buckets (state (Sample.out r sample_env1))) id = Some b' /\ stake_eq b b'.
Proof.
  intros codec r id. split; [vm_compute; reflexivity|].
  eexists (default Sample.bucket0 (Get (State.buckets (state sample_env1)) id)).
  destruct (@staking_owner_only Sample.hashing codec Sample.chain Sample.emission sample_env1 ""
    (Some StakingModuleAddr) 30000 Sample.bob_body (Sample.out r sample_env1) 14000 None id
    (default Sample.bucket0 (Get (State.buckets (state sample_env1)) id)))
    as (b' & Hb & He).
  - split; [vm_compute; reflexivity|]. vm_compute. split; [discriminate|reflexivity].
  - exact (books_wf_ok _ _ _ _ env_bound_wf).
  - reflexivity.
  - split; [vm_compute; discriminate|]. split; [discriminate|]. split; vm_compute; reflexivity.
  - vm_compute. discriminate.
  - vm_compute. reflexivity.
  - vm_compute. reflexivity.
  - vm_compute. discriminate.
  - exists b'. split; [vm_compute; reflexivity|]. split; [vm_compute; reflexivity|]. by split.
Defined.
