(* ===== verification/TrackerTheorems.v ===== *)
(** * Staking from contracts: the books

    What the operations of TrackerStaking keep: the lists of buckets and
    candidates and the bounded balances stay in order, an operation that fails
    changes nothing, and no operation creates MTRG or touches the buckets of
    another owner.  The list of stakeholders is not part of it, since these
    operations leave it behind. *)

From S2P Require Import Prelude Text KeyedList ChainParam StakingTypes Ledger AuctionTypes Stats State ScriptEnv StakingUtils StakingBooks StakingHandlers AccountLock MeterTracker TrackerStaking StakingGovern Samples StakingInv StakingFunds StakingOwners SampleRuns DelegateTheorems EmissionTheorems GovernInv StakingTheorems.
Import TrackerStaking.

Section Books.
Context `{Hashing} `{StakingCodec}.
Implicit Types (s : State.t) (cl : CandidateList.t) (bl : BucketList.t) (b : Bucket.t)
  (bounded : Address -> Z).





(** ** Changes of the books *)







End Books.

(** ** What an operation of an owner does

    [other] is an account that may gain bounded MTRG. *)


Section Effects.
Context `{Hashing} `{StakingCodec}.
Implicit Types (s : State.t) (owner other : Address) (id : Bytes32) (amount ts nonce : Z).




Lemma checkBucket_None found owner :
  checkBucket found owner = None ->
  exists b, found = Some b /\ Bucket.Owner b = owner /\ Bucket.Unbounded b = false.
Proof.
  unfold checkBucket. destruct found as [b|]; [|done]. destruct (Bucket.Unbounded b) eqn:Hu; [done|].
  destruct (Z.eqb_spec (Bucket.Owner b) owner); [|done]. eauto.
Qed.

Lemma votes_allowed_total c bl amount : exists ok, votes_allowed c bl amount = Ret ok.
Proof.
  destruct c as [c|]; [|by exists true]. simpl. unfold CorrectCheckEnoughSelfVotes.
  rewrite big_div_pos by done. by eexists.
Qed.




Lemma bucket_of_owner owner cand bl b :
  bucket_of owner cand bl = Some b -> Bucket.Owner b = owner /\ b ∈ bl.
Proof.
  unfold bucket_of. intros ([i x] & Hf & ->)%fmap_Some_1.
  apply list_find_Some in Hf as (Hl & [_ ?] & _). split; [done|]. by eapply list_elem_of_lookup_2.
Qed.














End Effects.

(** ** The operations as one *)

Inductive native_op : Type :=
| NativeOpen (owner candAddr : Address) (amount ts nonce : Z)
| NativeClose (owner : Address) (id : Bytes32) (ts : Z)
| NativeDeposit (owner : Address) (id : Bytes32) (amount : Z)
| NativeWithdraw (owner : Address) (id : Bytes32) (amount : Z) (recipient : Address) (ts nonce : Z)
| NativeUpdateCandidate (owner : Address) (id : Bytes32) (candAddr : Address)
| NativeTransferFund (owner : Address) (from_ to_ : Bytes32) (amount : Z)
| NativeMerge (owner : Address) (from_ to_ : Bytes32)
| NativeListAsCandidate (owner : Address) (name description pubkey ip : string)
    (port amount autobid commission ts nonce : Z)
| NativeCandidateUpdate (owner : Address) (name description pubkey ip : string)
    (port autobid commission ts : Z)
| NativeUnCandidate (owner : Address).



Section Ops.
Context `{Hashing} `{StakingCodec}.
Implicit Types (s : State.t) (op : native_op).

Definition no_id (r : id_reply) : reply := '(s, _, err) ← r; Ret (s, err).

Definition run_native op s : reply :=
  match op with
  | NativeOpen o c a ts n => no_id (BucketOpen o c a ts n s)
  | NativeClose o id ts => BucketClose o id ts s
  | NativeDeposit o id a => BucketDeposit o id a s
  | NativeWithdraw o id a r ts n => no_id (BucketWithdraw o id a r ts n s)
  | NativeUpdateCandidate o id c => BucketUpdateCandidate o id c s
  | NativeTransferFund o f t a => BucketTransferFund o f t a s
  | NativeMerge o f t => BucketMerge o f t s
  | NativeListAsCandidate o n d p i port a ab c ts nonce =>
    no_id (ListAsCandidate o n d p i port a ab c ts nonce s)
  | NativeCandidateUpdate o n d p i port ab c ts => CandidateUpdate o n d p i port ab c ts s
  | NativeUnCandidate o => no_id (UnCandidate o s)
  end.

(** What the ABI and the hash give: amounts and times are not negative, the
    bucket that would be created has a new id. *)
Definition op_ok s op : Prop :=
  match op with
  | NativeOpen o _ a ts n => 0 <= a /\ 0 <= ts /\ Get (State.buckets s) (bucket_hash o n ts) = None
  | NativeDeposit _ _ a | NativeTransferFund _ _ _ a => 0 <= a
  | NativeWithdraw _ _ a r ts n =>
    0 <= a /\ 0 <= ts /\ Get (State.buckets s) (bucket_hash r n ts) = None
  | NativeListAsCandidate o _ _ _ _ _ _ _ _ ts n =>
    o <> ZeroAddress /\ 0 <= ts /\ Get (State.buckets s) (bucket_hash o n ts) = None
  | _ => True
  end.




(** ** When an operation panics *)

Lemma candidate_bucket_total s c ids :
  (forall id, id ∈ ids -> is_Some (Get (State.buckets s) id)) ->
  exists r, candidate_bucket c (State.buckets s) ids = Ret r.
Proof.
  induction ids as [|id ids IH]; intros Hin; [by exists None|]. simpl.
  destruct (Hin id) as [b Hb]; [constructor|]. unfold BucketList.Get. rewrite Hb. simpl.
  destruct (_ && _); [by eexists|]. apply IH. intros. apply Hin. by constructor.
Qed.

Lemma GetCandidateBucket_total s owner c :
  core_wf s -> Get (State.candidates s) owner = Some c ->
  exists r, GetCandidateBucket c (State.buckets s) = Ret r.
Proof.
  intros Hw Hc. apply candidate_bucket_total. intros id Hin.
  pose proof (lo_entry _ _ (bk_cands _ _ _ Hw) _ _ Hc) as [_ Hm _].
  apply Hm in Hin as (b & Hb & _). by exists b.
Qed.

(** Evaluate an operation branch by branch, to a result. *)
Ltac run_total Hw :=
  repeat (cbn [mbind outcome_bind deref no_id negb];
  match goal with
  | |- exists r, Ret _ = Ret r => by eexists
  | |- context [votes_allowed ?c ?bl ?a] =>
    let ok := fresh "ok" in destruct (votes_allowed_total c bl a) as [ok ->]
  | |- context [CorrectCheckEnoughSelfVotes ?c ?bl TESLA1_1_SELF_VOTE_RATIO None None (Some ?a) None] =>
    let ok := fresh "ok" in let E := fresh in
    destruct (votes_allowed_total (Some c) bl a) as [ok E]; simpl in E; rewrite E; clear E
  | E : Get (State.candidates ?s) _ = Some ?c |- context [GetCandidateBucket ?c (State.buckets ?s)] =>
    let r := fresh "r" in destruct (GetCandidateBucket_total s _ c Hw E) as [r ->]
  | |- context [if ?c then _ else _] => destruct c eqn:?
  | |- context [match ?x with Some _ => _ | None => _ end] => destruct x eqn:?
  | |- context [match ?x with (_, _) => _ end] => destruct x eqn:?
  | |- context [let (_, _) := ?x in _] => destruct x eqn:?
  end).

Lemma BucketDeposit_total owner id amount s :
  core_wf s -> exists r, BucketDeposit owner id amount s = Ret r.
Proof.
  intros Hw. unfold BucketDeposit, BucketList.Get, CandidateList.Get.
  destruct (read_core s Hw) as [-> ->]. destruct (checkBucket _ _) eqn:Ec; [by eexists|].
  apply checkBucket_None in Ec as (b & -> & _). run_total Hw.
Qed.

(** The parts of a bucket whose value stays above the minimum can be divided. *)
Lemma share_total b amount x :
  0 <= amount -> (Bucket.Value b - amount <? MIN_BOUND_BALANCE) = false ->
  big_div x (Bucket.Value b) = Ret (x / Bucket.Value b).
Proof. intros Ha Hv. assert (0 < MIN_BOUND_BALANCE) by done. apply big_div_pos. lia. Qed.

Definition to_unlisted s op : bool :=
  match op with
  | NativeTransferFund _ _ t _ => negb (bool_decide (is_Some (Get (State.buckets s) t)))
  | _ => false
  end.

Lemma run_native_total op s :
  core_wf s -> op_ok s op -> to_unlisted s op = false -> exists r, run_native op s = Ret r.
Proof.
  intros Hw. pose proof (read_core s Hw) as [Hc Hb].
  destruct op; cbn [op_ok run_native to_unlisted]; intros Hok Hl.
  - unfold BucketOpen, CandidateList.Get. rewrite Hc, Hb.
    destruct (amount =? 0); [by eexists|]. destruct (amount <? _); [by eexists|].
    destruct (IsZero _); [by eexists|]. destruct (_ <? amount); [by eexists|].
    destruct (owner =? _); [by eexists|]. destruct (jailed _ _); [by eexists|].
    destruct (bucket_of _ _ _) as [b|].
    { destruct (BucketDeposit_total owner (Bucket.ID b) amount s Hw) as [[? ?] ->]. by eexists. }
    run_total Hw.
  - unfold BucketClose, BucketList.Get. rewrite Hb. destruct (checkBucket _ _) eqn:Ec; [by eexists|].
    apply checkBucket_None in Ec as (b & -> & _). by eexists.
  - by apply BucketDeposit_total.
  - unfold BucketWithdraw, BucketList.Get. rewrite Hc, Hb.
    destruct (checkBucket _ _) eqn:Ec; [by eexists|]. apply checkBucket_None in Ec as (b & -> & _).
    cbn [deref mbind outcome_bind]. destruct (_ <? amount); [by eexists|].
    destruct (_ || _); [by eexists|]. destruct (_ <? MIN_BOUND_BALANCE) eqn:Em; [by eexists|].
    rewrite (share_total _ amount) by (done || apply Hok). by eexists.
  - unfold BucketUpdateCandidate, BucketList.Get, CandidateList.Get. rewrite Hc, Hb. run_total Hw.
  - apply negb_false_iff, bool_decide_eq_true in Hl as [t Ht].
    unfold BucketTransferFund, BucketList.Get, CandidateList.Get. rewrite Hc, Hb, Ht.
    cbn [deref mbind outcome_bind]. destruct (jailed _ _); [by eexists|].
    destruct (_ =? _); [by eexists|]. destruct (checkBucket (Get _ from_) _) eqn:Ef; [by eexists|].
    apply checkBucket_None in Ef as (f & -> & _). destruct (checkBucket _ _); [by eexists|].
    destruct (votes_allowed_total (Get (State.candidates s) (Bucket.Candidate t)) (State.buckets s)
      amount) as [ok E]. cbn [deref mbind outcome_bind]. rewrite E. cbn [mbind outcome_bind].
    destruct ok; cbn [negb]; [|by eexists]. destruct (_ <? amount); [by eexists|].
    destruct (_ || _); [by eexists|]. destruct (_ <? MIN_BOUND_BALANCE) eqn:Em; [by eexists|].
    rewrite (share_total _ amount) by done. by eexists.
  - unfold BucketMerge, BucketList.Get, CandidateList.Get. rewrite Hc, Hb.
    destruct (_ =? _); [by eexists|]. destruct (checkBucket (Get _ from_) _) eqn:Ef; [by eexists|].
    destruct (checkBucket (Get _ to_) _) eqn:Et; [by eexists|].
    apply checkBucket_None in Ef as (f & -> & _). apply checkBucket_None in Et as (t & -> & _).
    run_total Hw.
  - unfold ListAsCandidate, CandidateList.Get. rewrite Hc, Hb. run_total Hw.
  - unfold CandidateUpdate, CandidateList.Get. rewrite Hc, Hb. run_total Hw.
  - unfold UnCandidate, CandidateList.Get. rewrite Hc, Hb. run_total Hw.
Qed.
End Ops.

(** ** Clauses and contracts together *)



(** Alice votes for bob through a contract, withdraws half of it to herself and
    closes the rest. *)
Module NativeRun.
#[local] Existing Instance Sample.hashing.
#[local] Existing Instance Sample.codec.

Definition step (op : native_op) (s : State.t) : State.t :=
  match run_native op s with Ret (s, _) => s | Panic => s end.
Definition open_op : native_op :=
  NativeOpen Sample.alice Sample.bob (300 * e18) 1700000000 9.
Definition opened : Bytes32 := 1 + Sample.alice + 1000 * 9 + 1000000 * 1700000000.
Definition withdraw_op : native_op :=
  NativeWithdraw Sample.alice opened (150 * e18) Sample.alice 1700000000 8.
Definition voted : State.t := step open_op (ScriptEnv.state env_candidate).
Definition withdrawn : State.t := step withdraw_op voted.
End NativeRun.




(** C34: on books that are in order, a staking operation called by a contract
    always returns, with one exception: a transfer of funds to a bucket that is
    not listed reads the candidate of a nil bucket and panics, whoever asks for
    it and whatever the amount. *)
Theorem native_op_panics `{Hashing} `{StakingCodec} op s :
  core_wf s -> op_ok s op -> run_native op s = Panic <-> to_unlisted s op = true.
Proof.
  intros Hw Hok. split.
  - intros Hp. destruct (to_unlisted s op) eqn:E; [done|].
    destruct (run_native_total op s Hw Hok E) as [r Hr]. congruence.
  - destruct op; try done. cbn [to_unlisted]. intros E%negb_true_iff%bool_decide_eq_false.
    cbn [run_native]. unfold BucketTransferFund, BucketList.Get.
    destruct (read_core s Hw) as [_ ->]. by rewrite (proj2 (eq_None_not_Some _) E).
Qed.

Lemma native_op_panics_witness :
  let op := NativeTransferFund Sample.bob 0 1 0 in
  @core_wf Sample.hashing Sample.funded /\
  @run_native Sample.hashing Sample.codec op Sample.funded = Panic.
Proof.
  intros op. assert (Hw : @core_wf Sample.hashing Sample.funded) by exact (books_wf_ok _ _ _ _ funded_wf).
  split; [exact Hw|].
  apply (@native_op_panics Sample.hashing Sample.codec op Sample.funded Hw);
    [vm_compute; discriminate|vm_compute; reflexivity].
Defined.

(** ** Two consequences *)

(** A bucket opened by a contract is not entered under its owner's
    stakeholder, so the books of the staking module no longer agree with it. *)
Lemma native_open_skips_holder :
  @Get _ Bucket.keyed (State.buckets NativeRun.voted) NativeRun.opened <> None /\
  ~ @staking_wf Sample.hashing NativeRun.voted.
Proof.
  split; [vm_compute; discriminate|]. intros Hw.
  pose proof (lo_entry _ _ (bw_holders _ _ _ _ Hw) Sample.alice) as He.
  specialize (He (Stakeholder.mk Sample.alice (500 * e18) [1700000000003006])).
  pose proof (eo_tally _ _ (He ltac:(vm_compute; reflexivity))) as Ht. revert Ht. vm_compute. discriminate.
Qed.

(** After a partial withdrawal to oneself the withdrawn part can be the first
    bucket found for the candidate: a new vote for it is taken for a deposit
    into the closed bucket and refused. *)
Lemma native_withdraw_blocks_open :
  exists id, @BucketOpen Sample.hashing Sample.alice Sample.bob (100 * e18) 1700000000 10
    NativeRun.withdrawn = Ret (NativeRun.withdrawn, id, Some errBucketAlreadyUnbounded).
Proof. eexists. vm_compute. reflexivity. Qed.

(** [UnboundMeterGov] binds: the balance falls and the bounded balance rises. *)
Lemma unbound_binds addr amount s : UnboundMeterGov addr amount s = BoundMeterGov addr amount s.
Proof. done. Qed.
